(* ===== verification/_CoqProject ===== *)
-Q . S2P
Prelude.v
Str.v
Ulib.v
Grep.v
Tools.v
Progs.v
Umalloc.v
UmallocSpec.v
Sh.v
ShSpec.v
Spinlock.v
Sleeplock.v
Kalloc.v
Vm.v
VmTables.v
VmUser.v
VmSwitch.v
VmKern.v
VmCopy.v
VmClient.v
VmSpec.v
Hw.v
Mp.v
Pipe.v
Proc.v
ProcSteps.v
ProcSpec.v
Console.v
Kbd.v
ConsoleScreen.v
ConsoleSpec.v
Bio.v
Ide.v
IdeSpec.v
Boot.v
BufCache.v
BioSpec.v
Log.v
LogSpec.v
LogOps.v
Tx.v
Fs.v
FsBlocks.v
FsInode.v
FsFiles.v
FsContents.v
FsDirs.v
FsTrunc.v
FsIcache.v
FsSpec.v
File.v
FileSpec.v
FsPath.v
Mkfs.v
MkfsFiles.v
MkfsImage.v
MkfsSpec.v
Syscall.v
Sysfile.v
ShRun.v
ShRunSpec.v
Exec.v
ExecSpace.v
ExecLoad.v
ExecFiles.v
ExecSpec.v
Trap.v
Balance.v
FsBalance.v
SysBalance.v
