(* ===== verification/Prelude.v ===== *)
(** * A verification of the xv6 teaching operating system

    xv6 is a small multiprocessor Unix for the PC, in C: a boot loader, a kernel,
    a handful of user programs and the tool that makes the disk image.  This copy
    gives every process a number of tickets ([settickets], [gettickets],
    [getpinfo] and the program [ps]).  The files of this library translate the C
    code, function by function and with the source's names, and prove what the
    code promises.

    ** How the code is modelled

    - Integers are [Z].  [u8], [u16], [u32] and [s32] reduce at the width of the C
      type wherever the code's arithmetic can leave it.  Bits are [Z.land],
      [Z.lor], [Z.shiftl] and [Z.shiftr].
    - Memory ([mem]) is a function from addresses to bytes; [load32] and [store32]
      are little-endian words.  Pointers are addresses where the code does
      arithmetic on them (strings, pages, page tables, the free lists of [kalloc.c]
      and [umalloc.c], the BIOS tables), and indices where they point into a static
      array (processes, buffers, inodes, files).
    - Code is a state monad [M S A] (below): a run ends in [Ret] with a result and
      a state, in [Stop] for a panic or for a step C does not define, or in [Wait]
      on a channel for a call that goes to sleep.  [wp] is total correctness: the
      run ends in [Ret].  So a theorem with [wp], or with a run equal to [Ret ..],
      says that the code returns and does not panic.
    - A spin lock is modelled as code in [Spinlock], and [Spinlock.Race] runs
      [acquire] and [release] on many CPUs, cut at every access to the lock.  In the
      components above it a stretch of code under one spin lock is one atomic step:
      this is what [Spinlock.Race] shows the lock to give.  Code that sleeps is cut
      at the sleep, and the files that interleave ([ProcSteps], [Pipe.System],
      [Sleeplock], [ConsoleSpec], [IdeSpec], [VmClient], [ShRun]) run the pieces in
      any order, as step relations or as arbitrary sequences of events.  [fork] and
      [exit], which hold no lock for most of their work, are cut into the pieces
      that other processes can come between.
    - Hardware, and what is not C, is a parameter: the class [Hw.Hardware] answers
      port and memory-mapped accesses, [IdeSpec.AtaDisk] states what the driver
      relies on of a disk, [ConsoleScreen.Terminal] of the screen, keyboard and
      serial port, [Trap.Devices] of interrupt handlers.  Each has a concrete
      instance, on which the theorems are applied.

    ** The parts, from the bottom up

    - [Str]: the memory and string routines of [string.c].
    - [Spinlock], [Sleeplock]: [spinlock.c], [mycpu], [cpuid] and [myproc] of
      [proc.c], [sleeplock.c].  [pushcli] and [popcli] nest; two CPUs are never in
      the same critical section, [holding] answers for the right one, and none
      panics; a sleep lock has one holder and no forgotten sleeper.
    - [Kalloc]: [kalloc.c], the page allocator, with the free list in the pages
      themselves.  No page is handed out twice.
    - [Vm] (all of [vm.c]), with the meaning of the tables in [VmTables], user
      memory in [VmUser], the kernel's half in [VmKern], [switchuvm] in [VmSwitch],
      [copyuvm] and [copyout] in [VmCopy].  [VmClient] and [VmSpec] show that
      the calls of [vm.c] refine a list of private memories.
    - [Hw], [Mp], [Ide], [Console], [Kbd], [Boot]: [ioapic.c], [picirq.c],
      [lapic.c], [uart.c]; [mp.c]; [ide.c]; [console.c]; [kbd.c] and [kbd.h];
      [bootmain.c].  [IdeSpec]: requests are carried out in the order of the calls,
      with the results of the memory disk.  [ConsoleScreen], [ConsoleSpec]: the
      screen shows what a plain terminal shows, readers get the lines a line
      editor on lists gives, and typing a character of a US keyboard gives that
      character.  [Boot] and [Mp] also hold their own theorems: the
      kernel's segments are in memory when it is called; a well-formed table is
      read to its end.
    - [Pipe]: [pipe.c].  What is read is what was written, in order, and without
      kills no wakeup is lost.
    - [Proc]: [proc.c], with the scheduler and the ticket calls, over the class
      [Services] of what it asks of the memory and file code.  [ProcSteps]: the
      CPUs, each in its scheduler or in a process, and the processes, each with a
      task (a [fork] or an [exit] under way, a sleep, nothing); the invariant of the
      table in every interleaving of their steps; and that no scheduler's pass over
      the table leaves a runnable process out.  [ProcSpec]: what each operation
      does.
    - [Bio]: [bio.c] over [memide.c].  [BufCache] is the class of what the cache
      promises and [BioSpec] the proof.
    - [Log]: [log.c] over any such cache.  [LogSpec]: after a crash at any disk
      write, and any number of crashes during recovery, all blocks of a transaction
      are on the disk or none.  [LogOps]: [begin_op], [log_write], [end_op].
      [Tx] is the class of what the log promises and the proof.
    - [Fs]: [fs.c] over any such log.  [FsBlocks], [FsInode], [FsFiles],
      [FsContents], [FsDirs], [FsTrunc], [FsIcache] and [FsPath] specify it layer
      by layer, on files as lists of bytes and directories as maps; [FsSpec]
      collects the theorems.  [File], [FileSpec]: [file.c] and [pipealloc].
    - [Mkfs]: [mkfs.c].  [MkfsFiles], [MkfsImage], [MkfsSpec]: the image is a
      consistent file system with exactly the files given, in the terms of the
      kernel's own file system.
    - [Syscall], [Sysfile], [Exec], [Trap]: [syscall.c] and [sysproc.c],
      [sysfile.c], [exec.c], [trap.c].  User pointers are checked; [ExecSpace],
      [ExecLoad], [ExecFiles] and [ExecSpec]: [exec] installs the image that the
      file and the arguments determine or changes nothing; a killed process
      does not return to user mode.
    - [Balance], [FsBalance], [SysBalance]: every path through every file system
      call gives back the log operations, inode locks and references it takes.
    - [Ulib], [Umalloc], [UmallocSpec]: [ulib.c] and [printf.c]; [umalloc.c], whose
      blocks are disjoint and keep their contents.
    - [Sh], [ShSpec], [ShRun], [ShRunSpec]: [sh.c].  The parser inverts the printing
      of a grammar.  [ShRun] has the shell and the processes that it forks, all
      running at once; in every interleaving the programs of the sentences are
      started with the descriptors they ask for and no others, in the order that
      lists and lines ask for, and every run ends.
    - [Grep], [Tools], [Progs]: [grep.c] against the language of a pattern; [wc.c],
      [cat.c]; [echo.c], [kill.c], [ln.c], [ls.c], [mkdir.c], [rm.c] and the other
      programs' [main].

    The layers meet in four places.  [fs.c] runs on [log.c] on [bio.c] through the
    classes of [BufCache] and [Tx], whose instances for the real code are proved.
    [exec] runs on the real page tables and through a record of laws on the file
    system, which [ExecFiles] proves.  [mkfs]'s image has the consistency
    ([fs_ok], [tree_ok]) that the theorems on [fs.c] assume.  The shell's runs
    are stated for the text the parser reads.

    Some theorems state flaws that the model made visible: [log_write] can panic
    with operations that [begin_op] has admitted, a killed writer strands a reader
    of its pipe, [kill(0)] marks a process yet to be born, [grep] loses a line
    that arrives in pieces, [mkfs] rounds up the size of a full directory, and
    [mpinit] does not end on an unknown entry.

    ** Bounds and fuel

    A loop over an array or a count is structural.  Other loops take fuel, and
    running out is a fault, so every theorem that says that a run returns also
    says that the fuel was enough:
    - one unit per page ([freerange], [mappages]), per sector ([readseg]), per slot
      of the ring ([kill_line]), per bit of the number that is printed;
    - loops that consume input get its length (the parser, [wc], [cat], [grep],
      [ls]) and loops over memory a number that the theorem shows to suffice
      ([malloc] walks its list once and once more after [morecore]);
    - [strlen] and its like take a bound [n] on the bytes they look at: theorems
      ask for a null byte within it;
    - a loop that waits for a device takes the number of times it may ask
      ([polls]); [AtaDisk] says that the disk is ready by then.
    Bounds in hypotheses are those of the machine: sizes below 2^31 or KERNBASE,
    depths of [pushcli] within [int], block numbers inside the file system.

    ** Not modelled

    - Assembly: [bootasm.S], [entry.S], [entryother.S], [swtch.S], [trapasm.S],
      [usys.S], [initcode.S], the generated vectors and the inline instructions of
      [x86.h] beyond their effect (port accesses are the class [Hardware], [cli],
      [sti], [xchg] and [stosb] are definitions).
    - [main.c], which calls the other parts' initialisation in order, starts the
      other processors by way of [entryother.S] and enters the scheduler; the first
      call of [forkret], which runs [iinit] and [initlog] (both modelled); [pinit],
      [fileinit] and [tvinit]'s lock, which only name a lock; [idtinit].
    - [init.c] and [zombie.c], which fork, exec and wait, and [ps.c], which calls
      [ps].  The test programs [usertests.c], [forktest.c], [stressfs.c] and
      [tickettest.c].
    - Headers that only declare ([defs.h], [user.h]).  Constants that are only
      register numbers and masks are written out as definitions beside their use.
    - Messages that the kernel prints in [exec], [trap], [allocuvm] and for an
      unknown system call: [cprintf] itself is modelled in [Console].
    - Weak memory and the timing of devices.  An atomic step is atomic, and a write
      of a disk block either happens or does not. *)
From Stdlib Require Export ZArith Lia.
From stdpp Require Export base numbers strings gmap.
From stdpp Require Export list list_relations.

#[global] Open Scope Z_scope.
#[global] Set Default Goal Selector "!".

(** ** C integers

    [uint], [ushort] and [uchar] are integers reduced at their width;
    [int] and [short] are kept in two's complement range. *)

Definition u32 (x : Z) : Z := x mod 4294967296.
Definition u16 (x : Z) : Z := x mod 65536.
Definition u8 (x : Z) : Z := x mod 256.
Definition s32 (x : Z) : Z := (x + 2147483648) mod 4294967296 - 2147483648.
Definition s16 (x : Z) : Z := (x + 32768) mod 65536 - 32768.

(** The C truth value of an integer. *)
Definition nz (x : Z) : bool := negb (x =? 0).

Lemma u32_range x : 0 <= u32 x < 4294967296.
Proof. apply Z.mod_pos_bound; lia. Qed.

Lemma u8_range x : 0 <= u8 x < 256.
Proof. apply Z.mod_pos_bound; lia. Qed.

Lemma u32_small x : 0 <= x < 4294967296 -> u32 x = x.
Proof. apply Z.mod_small. Qed.

Lemma u8_small x : 0 <= x < 256 -> u8 x = x.
Proof. apply Z.mod_small. Qed.

Lemma s32_small x : -2147483648 <= x < 2147483648 -> s32 x = x.
Proof. intros H. unfold s32. rewrite Z.mod_small; lia. Qed.

Lemma u32_u32 x : u32 (u32 x) = u32 x.
Proof. apply u32_small, u32_range. Qed.

Lemma u32_add_l x y : u32 (u32 x + y) = u32 (x + y).
Proof. apply Zplus_mod_idemp_l. Qed.

Lemma u32_add_r x y : u32 (x + u32 y) = u32 (x + y).
Proof. apply Zplus_mod_idemp_r. Qed.

Lemma u32_sub_u32 x y : u32 (u32 x - u32 y) = u32 (x - y).
Proof. unfold u32. by rewrite <- Zminus_mod. Qed.

Lemma u32_s32 x : u32 (s32 x) = u32 x.
Proof.
  unfold u32, s32. rewrite Zminus_mod, Zmod_mod, <- Zminus_mod. f_equal. lia.
Qed.

(** Masks that the kernel uses as divisions. *)
Lemma land_low_mask x n : 0 <= n -> Z.land x (2 ^ n - 1) = x mod 2 ^ n.
Proof. intros. rewrite <- Z.land_ones, Z.ones_equiv by done. f_equal; lia. Qed.

(** [a & ~(2^n-1)] clears the low [n] bits. *)
Lemma land_high_mask x n :
  0 <= n -> Z.land x (Z.lnot (2 ^ n - 1)) = x - x mod 2 ^ n.
Proof.
  intros Hn. pose proof (Z.land_ones x n Hn) as Hl.
  assert (Z.ones n = 2 ^ n - 1) as Ho by (rewrite Z.ones_equiv; lia).
  rewrite <- Ho, <- Hl.
  rewrite <- Z.ldiff_land, Z.ldiff_ones_r by done.
  rewrite Z.shiftl_mul_pow2, Z.shiftr_div_pow2, Hl by done.
  pose proof (Z.div_mod x (2 ^ n)). lia.
Qed.

(** ** Little-endian storage of a 32-bit word *)

Definition le32 (x : Z) : list Z :=
  [u8 x; u8 (x / 256); u8 (x / 65536); u8 (x / 16777216)].

Definition de32 (b0 b1 b2 b3 : Z) : Z :=
  b0 + 256 * b1 + 65536 * b2 + 16777216 * b3.

Lemma de32_le32 x :
  de32 (u8 x) (u8 (x / 256)) (u8 (x / 65536)) (u8 (x / 16777216)) = u32 x.
Proof.
  unfold de32, u8, u32.
  Z.to_euclidean_division_equations; lia.
Qed.

Lemma le32_de32 b0 b1 b2 b3 :
  0 <= b0 < 256 -> 0 <= b1 < 256 -> 0 <= b2 < 256 -> 0 <= b3 < 256 ->
  le32 (de32 b0 b1 b2 b3) = [b0; b1; b2; b3].
Proof.
  intros. unfold le32, de32, u8.
  repeat f_equal; Z.to_euclidean_division_equations; lia.
Qed.

(** ** Results of kernel code

    A call returns, panics, reads or writes through a pointer that C does not
    allow, or goes to sleep on a channel. *)

Inductive stop : Type :=
| Panic (msg : string)
| Fault (what : string).

Inductive outcome (S A : Type) : Type :=
| Ret (a : A) (s : S)
| Stop (e : stop)
| Wait (chan : string) (s : S).
Arguments Ret {S A} a s.
Arguments Stop {S A} e.
Arguments Wait {S A} chan s.

Definition M (S A : Type) : Type := S -> outcome S A.

Definition ret {S A} (a : A) : M S A := fun s => Ret a s.

Definition bind {S A B} (m : M S A) (f : A -> M S B) : M S B :=
  fun s => match m s with
           | Ret a s' => f a s'
           | Stop e => Stop e
           | Wait c s' => Wait c s'
           end.

Definition get {S} : M S S := fun s => Ret s s.
Definition gets {S A} (f : S -> A) : M S A := fun s => Ret (f s) s.
Definition put {S} (s : S) : M S unit := fun _ => Ret tt s.
Definition modify {S} (f : S -> S) : M S unit := fun s => Ret tt (f s).
Definition panic {S A} (msg : string) : M S A := fun _ => Stop (Panic msg).
Definition fault {S A} (what : string) : M S A := fun _ => Stop (Fault what).
Definition when {S} (b : bool) (m : M S unit) : M S unit :=
  if b then m else ret tt.

(** A pointer dereference: the cell must exist. *)
Definition deref {S A} (o : option A) : M S A :=
  match o with Some a => ret a | None => fault "dereference" end.

(** Run code of a component on the part of a larger state that holds it. *)
Definition zoom {S T A} (view : S -> T) (set : T -> S -> S) (m : M T A) : M S A :=
  fun s => match m (view s) with
           | Ret a t => Ret a (set t s)
           | Stop e => Stop e
           | Wait c t => Wait c (set t s)
           end.

Declare Scope kernel_scope.
Delimit Scope kernel_scope with kernel.
Notation "'let!' x ':=' c1 'in' c2" := (bind c1 (fun x => c2))
  (at level 10, x pattern, c1 at level 100, c2 at level 200) : kernel_scope.
Notation "c1 ;; c2" := (bind c1 (fun _ => c2))
  (at level 100, c2 at level 200, right associativity) : kernel_scope.
#[global] Open Scope kernel_scope.

(** [for_each l f]: a C [for] loop without [break];
    [for_find l f]: one whose body may leave it with a value. *)
Fixpoint for_each {S X} (l : list X) (body : X -> M S unit) : M S unit :=
  match l with
  | [] => ret tt
  | x :: l => body x ;; for_each l body
  end.

Fixpoint for_find {S X R} (l : list X) (body : X -> M S (option R))
  : M S (option R) :=
  match l with
  | [] => ret None
  | x :: l =>
      let! r := body x in
      match r with Some _ => ret r | None => for_find l body end
  end.

Lemma bind_ret {S A B} (m : M S A) (f : A -> M S B) s a s' :
  m s = Ret a s' -> bind m f s = f a s'.
Proof. intros H. unfold bind. by rewrite H. Qed.

Lemma bind_inv {S A B} (m : M S A) (f : A -> M S B) s b s2 :
  bind m f s = Ret b s2 -> exists a s1, m s = Ret a s1 /\ f a s1 = Ret b s2.
Proof. unfold bind. destruct (m s); naive_solver. Qed.

Lemma bind_assoc {S A B C} (m : M S A) (f : A -> M S B) (g : B -> M S C) s :
  bind (bind m f) g s = bind m (fun a => bind (f a) g) s.
Proof. unfold bind. by destruct (m s). Qed.

Lemma for_each_app {S X} (l k : list X) (body : X -> M S unit) s :
  for_each (l ++ k) body s = (for_each l body ;; for_each k body) s.
Proof.
  revert s. induction l as [|x l IH]; intros s; [done|].
  cbn. unfold bind at 1 3. unfold bind at 1.
  destruct (body x s); auto.
Qed.

Lemma zoom_ret {S T A} (view : S -> T) set (m : M T A) s a t :
  m (view s) = Ret a t -> zoom view set m s = Ret a (set t s).
Proof. intros H. unfold zoom. by rewrite H. Qed.

(** ** Total correctness

    [wp m s Q]: [m] run in [s] returns, with a value and a state that satisfy
    [Q]; it neither stops nor sleeps. *)

Definition wp {S A} (m : M S A) (s : S) (Q : A -> S -> Prop) : Prop :=
  match m s with Ret a s' => Q a s' | _ => False end.

Section Wp.
Context {S : Type}.
Implicit Types s : S.

Lemma wp_exists {A} (m : M S A) s Q :
  wp m s Q <-> exists a s', m s = Ret a s' /\ Q a s'.
Proof. unfold wp. destruct (m s); naive_solver. Qed.

Lemma wp_of {A} (m : M S A) s a s' (Q : A -> S -> Prop) : m s = Ret a s' -> Q a s' -> wp m s Q.
Proof. unfold wp. by intros ->. Qed.

Lemma wp_mono {A} (m : M S A) s (P Q : A -> S -> Prop) :
  wp m s P -> (forall a s', P a s' -> Q a s') -> wp m s Q.
Proof. unfold wp. destruct (m s); eauto. Qed.

Lemma wp_bind {A B} (m : M S A) (f : A -> M S B) s Q :
  wp m s (fun a s' => wp (f a) s' Q) -> wp (bind m f) s Q.
Proof. unfold wp, bind. by destruct (m s). Qed.

Lemma wp_seq {A B} (m : M S A) (f : A -> M S B) s P Q :
  wp m s P -> (forall a s', P a s' -> wp (f a) s' Q) -> wp (bind m f) s Q.
Proof. intros H1 H2. apply wp_bind. by eapply wp_mono. Qed.

Lemma wp_then_stop {A B} (m : M S A) (f : A -> M S B) s P e :
  wp m s P -> (forall a s', P a s' -> f a s' = Stop e) -> bind m f s = Stop e.
Proof. intros (a & s' & E & H)%wp_exists Hf. unfold bind. rewrite E. auto. Qed.

Lemma wp_ret {A} (a : A) s (Q : A -> S -> Prop) : Q a s -> wp (ret a) s Q.
Proof. done. Qed.

Lemma wp_gets {A} (f : S -> A) s (Q : A -> S -> Prop) : Q (f s) s -> wp (gets f) s Q.
Proof. done. Qed.

Lemma wp_modify (f : S -> S) s (Q : unit -> S -> Prop) : Q tt (f s) -> wp (modify f) s Q.
Proof. done. Qed.

Lemma wp_deref {A} (o : option A) a s (Q : A -> S -> Prop) :
  o = Some a -> Q a s -> wp (deref o) s Q.
Proof. by intros ->. Qed.

Lemma wp_zoom {T A} (view : S -> T) set (m : M T A) s Q :
  wp m (view s) (fun a t => Q a (set t s)) -> wp (zoom view set m) s Q.
Proof. unfold wp, zoom. by destruct (m (view s)). Qed.

(** A loop invariant over the elements still to do. *)
Lemma wp_for_each {X} (I : list X -> S -> Prop) (l : list X) body s (Q : unit -> S -> Prop) :
  (forall x k s, I (x :: k) s -> wp (body x) s (fun _ s' => I k s')) ->
  I l s -> (forall s', I [] s' -> Q tt s') -> wp (for_each l body) s Q.
Proof.
  intros Hb. revert s. induction l as [|x l IH]; intros s Hi Hq; [by apply wp_ret, Hq|].
  cbn. eapply wp_seq; [by apply Hb|]. eauto.
Qed.

End Wp.

(** ** Automation *)

Create HintDb kern.
Create HintDb nowait.
Create Rewrite HintDb kern.
#[export] Hint Unfold ret bind get gets put modify panic fault when deref zoom : kern.
#[export] Hint Rewrite @u32_u32 @u32_add_l @u32_add_r : kern.

(** Run the monad as far as it goes. *)
Ltac run := repeat (autounfold with kern in *; cbn in *).

(** Case on the boolean test that blocks a goal, as a proposition. *)
Ltac btest b :=
  match b with
  | (?x =? ?y) => destruct (Z.eqb_spec x y)
  | (?x <? ?y) => destruct (Z.ltb_spec x y)
  | (?x <=? ?y) => destruct (Z.leb_spec x y)
  | negb ?c => btest c
  | ?c && ?d => btest c
  | ?c || ?d => btest c
  | bool_decide ?P => destruct (bool_decide_reflect P)
  | _ => destruct b eqn:?
  end.

Ltac case_test :=
  match goal with
  | |- context [ if ?b then _ else _ ] => btest b
  | H : context [ if ?b then _ else _ ] |- _ => btest b
  end.

(** Boolean tests as propositions, in every hypothesis and in the goal. *)
Ltac b2p :=
  rewrite ?andb_true_iff, ?andb_false_iff, ?orb_true_iff, ?orb_false_iff,
    ?negb_true_iff, ?negb_false_iff, ?Z.leb_le, ?Z.leb_gt, ?Z.ltb_lt, ?Z.ltb_ge,
    ?Z.eqb_eq, ?Z.eqb_neq, ?Nat.leb_le, ?Nat.leb_gt, ?Nat.ltb_lt, ?Nat.ltb_ge,
    ?Nat.eqb_eq, ?Nat.eqb_neq, ?bool_decide_eq_true, ?bool_decide_eq_false in *.

(** ** Lists *)

(** The elements and indices of an array in C order. *)
Definition indices (n : nat) : list nat := seq 0 n.

Lemma list_insert_alter {A} (f : A -> A) (l : list A) i x :
  l !! i = Some x -> alter f i l = <[i := f x]> l.
Proof.
  revert i. induction l as [|y l IH]; intros [|i] H; simplify_eq/=; auto.
  f_equal. by apply IH.
Qed.

Lemma elem_of_indices n i : i ∈ indices n <-> (i < n)%nat.
Proof. unfold indices. rewrite elem_of_seq. lia. Qed.

(** A loop over an array, with an invariant on how far it has come. *)
Lemma wp_for_indices {S} (I : nat -> S -> Prop) n body (s : S) (Q : unit -> S -> Prop) :
  (forall j s, (j < n)%nat -> I j s -> wp (body j) s (fun _ s' => I (Datatypes.S j) s')) ->
  I 0%nat s -> (forall s', I n s' -> Q tt s') -> wp (for_each (indices n) body) s Q.
Proof.
  intros Hb H0 Hq.
  apply (wp_for_each (fun l s => exists j, (j <= n)%nat /\ l = seq j (n - j) /\ I j s)).
  - intros x k s1 (j & Hj & E & Hi). destruct (n - j)%nat as [|m] eqn:Em; [done|].
    injection E as -> ->. eapply wp_mono; [apply Hb; [lia|done]|]. intros [] s2 H2.
    exists (Datatypes.S j). split_and!; [lia| |done]. f_equal. lia.
  - exists 0%nat. rewrite Nat.sub_0_r. split_and!; [lia|done|done].
  - intros s' (j & Hj & E & Hi). destruct (n - j)%nat eqn:Em; [|done].
    assert (j = n) as -> by lia. auto.
Qed.

Lemma filter_all {A} (P : A -> Prop) `{!forall x, Decision (P x)} (l : list A) :
  Forall P l -> filter P l = l.
Proof.
  induction 1; [done|]. rewrite filter_cons_True by done. by f_equal.
Qed.

(** Removing one element from a duplicate-free list. *)
Lemma filter_out_perm {A} `{!EqDecision A} (v : A) (l : list A) :
  NoDup l -> v ∈ l -> v :: filter (fun a => a <> v) l ≡ₚ l.
Proof.
  intros Hnd [k Hk]%elem_of_Permutation. rewrite Hk in Hnd |- *.
  apply NoDup_cons in Hnd as [Hv _].
  rewrite filter_cons_False by naive_solver.
  rewrite filter_all; [done|]. apply Forall_forall. set_solver.
Qed.

Lemma repeat_lookup_Some {A} (x y : A) n i :
  repeat x n !! i = Some y -> y = x /\ (i < n)%nat.
Proof.
  revert i. induction n as [|n IH]; intros [|i] H; simplify_eq/=; [split; [done|lia]|].
  apply IH in H as [-> ?]. split; [done|lia].
Qed.

Lemma lookup_upd {A} (l : list A) i p x : l !! i = Some p -> <[i := x]> l !! i = Some x.
Proof. intros H%lookup_lt_Some. by apply list_lookup_insert_eq. Qed.
