(* ===== verification/Str.v ===== *)
(** * Memory and string routines of the kernel ([string.c], [x86.h])

    Memory is a map from addresses to bytes.  The routines are the loops of
    [string.c]; the specifications are stated for every address, so that they
    also say what is left alone. *)
From S2P Require Import Prelude.

Definition mem := Z -> Z.

Definition upd (m : mem) (a v : Z) : mem := fun x => if x =? a then v else m x.

Definition bytes_mem (m : mem) : Prop := forall a, 0 <= m a < 256.

(** Bytes stored one after the other. *)
Definition poke (m : mem) (a : Z) (bs : list Z) : mem :=
  fun x => if (a <=? x) && (x <? a + Z.of_nat (length bs)) then nth (Z.to_nat (x - a)) bs 0 else m x.

Definition peek (m : mem) (a : Z) (n : Z) : list Z :=
  (fun i => m (a + Z.of_nat i)) <$> seq 0 (Z.to_nat n).

(** ** [rep stosb] and [rep stosl] of x86.h *)

Fixpoint stosb (m : mem) (addr data : Z) (cnt : nat) : mem :=
  match cnt with
  | O => m
  | S k => stosb (upd m addr (u8 data)) (addr + 1) data k
  end.

Definition store32 (m : mem) (a v : Z) : mem :=
  upd (upd (upd (upd m a (u8 v)) (a + 1) (u8 (v / 256)))
       (a + 2) (u8 (v / 65536))) (a + 3) (u8 (v / 16777216)).

Definition load32 (m : mem) (a : Z) : Z :=
  de32 (m a) (m (a + 1)) (m (a + 2)) (m (a + 3)).

Fixpoint stosl (m : mem) (addr data : Z) (cnt : nat) : mem :=
  match cnt with
  | O => m
  | S k => stosl (store32 m addr data) (addr + 4) data k
  end.

(** ** string.c *)

Definition memset (m : mem) (dst c n : Z) : mem :=
  if (Z.rem (s32 dst) 4 =? 0) && (n mod 4 =? 0) then
    let c := Z.land c 255 in
    stosl m dst
      (Z.lor (Z.lor (Z.lor (Z.shiftl c 24) (Z.shiftl c 16)) (Z.shiftl c 8)) c)
      (Z.to_nat (n / 4))
  else stosb m dst c (Z.to_nat n).

Fixpoint memcmp (m : mem) (s1 s2 : Z) (n : nat) : Z :=
  match n with
  | O => 0
  | S k => if negb (m s1 =? m s2) then m s1 - m s2
           else memcmp m (s1 + 1) (s2 + 1) k
  end.

(** [while(n-- > 0) *--d = *--s], with [d] and [s] past the last byte. *)
Fixpoint copy_down (m : mem) (d s : Z) (n : nat) : mem :=
  match n with
  | O => m
  | S k => copy_down (upd m (d - 1) (m (s - 1))) (d - 1) (s - 1) k
  end.

(** [while(n-- > 0) *d++ = *s++]. *)
Fixpoint copy_up (m : mem) (d s : Z) (n : nat) : mem :=
  match n with
  | O => m
  | S k => copy_up (upd m d (m s)) (d + 1) (s + 1) k
  end.

Definition memmove (m : mem) (dst src n : Z) : mem :=
  if (src <? dst) && (dst <? src + n) then
    copy_down m (dst + n) (src + n) (Z.to_nat n)
  else copy_up m dst src (Z.to_nat n).

Definition memcpy (m : mem) (dst src n : Z) : mem := memmove m dst src n.

Fixpoint strncmp (m : mem) (p q : Z) (n : nat) : Z :=
  match n with
  | O => 0
  | S k =>
      if nz (m p) && (m p =? m q) then strncmp m (p + 1) (q + 1) k
      else u8 (m p) - u8 (m q)
  end.

Fixpoint zero_fill (m : mem) (s : Z) (n : nat) : mem :=
  match n with
  | O => m
  | S k => zero_fill (upd m s 0) (s + 1) k
  end.

Fixpoint strncpy_loop (m : mem) (s t : Z) (n : nat) : mem :=
  match n with
  | O => m
  | S k =>
      let c := m t in
      if c =? 0 then zero_fill (upd m s c) (s + 1) k
      else strncpy_loop (upd m s c) (s + 1) (t + 1) k
  end.

Definition strncpy (m : mem) (s t n : Z) : mem :=
  strncpy_loop m s t (Z.to_nat n).

(** [n] counts the iterations that [--n > 0] still allows. *)
Fixpoint safestrcpy_loop (m : mem) (s t : Z) (n : nat) : mem :=
  match n with
  | O => upd m s 0
  | S k =>
      let c := m t in
      if c =? 0 then upd (upd m s c) (s + 1) 0
      else safestrcpy_loop (upd m s c) (s + 1) (t + 1) k
  end.

Definition safestrcpy (m : mem) (s t n : Z) : mem :=
  if n <=? 0 then m else safestrcpy_loop m s t (Z.to_nat (n - 1)).

(** [for(n = 0; s[n]; n++)], looking at [fuel] bytes at most. *)
Fixpoint strlen (m : mem) (s : Z) (fuel : nat) : option Z :=
  match fuel with
  | O => None
  | S k => if m s =? 0 then Some 0 else Z.add 1 <$> strlen m (s + 1) k
  end.

(** ** Specifications *)

(** [x] lies in the [n] bytes at [a]. *)
Definition within (x a n : Z) : bool := (a <=? x) && (x <? a + n).

(** The C string at [p], cut after [n] bytes. *)
Fixpoint cstrn (m : mem) (p : Z) (n : nat) : list Z :=
  match n with
  | O => []
  | S k => if m p =? 0 then [] else m p :: cstrn m (p + 1) k
  end.

(** Reduce every test on addresses and finish with linear arithmetic. *)
Ltac addr_cases :=
  unfold within, upd, nz in *;
  repeat (cbn [andb negb] in *; case_test); b2p;
  try solve [ done | lia | f_equal; lia ].

(** The bytes [bs] are in [m] at [a]. *)
Definition holds (m : mem) (a : Z) (bs : list Z) : Prop :=
  forall j b, bs !! j = Some b -> m (a + Z.of_nat j) = b.

Lemma holds_poke m a bs : holds (poke m a bs) a bs.
Proof.
  intros j b Hj. pose proof (lookup_lt_Some _ _ _ Hj). unfold poke. addr_cases.
  replace (Z.to_nat (a + Z.of_nat j - a)) with j by lia. by apply nth_lookup_Some.
Qed.

Lemma holds_same m m' a bs n :
  holds m a bs -> (forall x, n <= x -> m' x = m x) -> n <= a -> holds m' a bs.
Proof. intros H Hm Ha j b Hj. rewrite Hm by lia. by apply H. Qed.

Lemma holds_cons m a b bs : holds m a (b :: bs) <-> m a = b /\ holds m (a + 1) bs.
Proof.
  split.
  - intros H. split; [by rewrite <- (H 0%nat b eq_refl), Z.add_0_r|].
    intros j c Hj. rewrite <- (H (S j) c Hj). f_equal. lia.
  - intros [H0 H] [|j] c Hj; cbn in Hj; [injection Hj as <-; by rewrite Z.add_0_r|].
    rewrite <- (H j c Hj). f_equal. lia.
Qed.

Lemma holds_app m a bs cs : holds m a (bs ++ cs) <-> holds m a bs /\ holds m (a + Z.of_nat (length bs)) cs.
Proof.
  revert a. induction bs as [|b bs IH]; intros a; cbn [app length].
  - rewrite Z.add_0_r. split; [|tauto]. intros H. split; [intros j b Hj; done|done].
  - rewrite !holds_cons, IH, Nat2Z.inj_succ. replace (a + 1 + Z.of_nat (length bs)) with (a + Z.succ (Z.of_nat (length bs))) by lia. tauto.
Qed.

Lemma peek_holds m p bs : holds m p bs -> peek m p (Z.of_nat (length bs)) = bs.
Proof.
  intros H. unfold peek. rewrite Nat2Z.id. apply list_eq. intros i. rewrite list_lookup_fmap. destruct (bs !! i) as [b|] eqn:E.
  - rewrite lookup_seq_lt by (by eapply lookup_lt_Some). cbn. f_equal. by apply H.
  - rewrite lookup_seq_ge; [done|by apply lookup_ge_None].
Qed.

Lemma poke_above m a bs x : a + Z.of_nat (length bs) <= x -> poke m a bs x = m x.
Proof. intros. unfold poke. addr_cases. Qed.

Lemma load32_store32 m a v : 0 <= v < 4294967296 -> load32 (store32 m a v) a = v.
Proof.
  intros Hv. transitivity (u32 v); [|by apply u32_small].
  rewrite <- de32_le32. unfold load32, store32, upd.
  rewrite !Z.eqb_refl.
  repeat match goal with
  | |- context [ ?x =? ?y ] => rewrite (proj2 (Z.eqb_neq x y)) by lia
  end. done.
Qed.

Lemma store32_other m a v x : within x a 4 = false -> store32 m a v x = m x.
Proof. intros H. unfold store32. addr_cases. Qed.

Lemma load32_ext m m' a :
  (forall k, 0 <= k < 4 -> m' (a + k) = m (a + k)) -> load32 m' a = load32 m a.
Proof.
  intros H. unfold load32.
  rewrite (H 1), (H 2), (H 3) by lia.
  pose proof (H 0 ltac:(lia)) as H0. rewrite !Z.add_0_r in H0. by rewrite H0.
Qed.

Lemma stosb_spec cnt m a d x :
  stosb m a d cnt x = if within x a (Z.of_nat cnt) then u8 d else m x.
Proof.
  revert m a. induction cnt as [|k IH]; intros m a; cbn [stosb].
  - addr_cases.
  - rewrite IH. addr_cases.
Qed.

Lemma fill_word_bytes c :
  let w := Z.lor (Z.lor (Z.lor (Z.shiftl (Z.land c 255) 24)
                               (Z.shiftl (Z.land c 255) 16))
                        (Z.shiftl (Z.land c 255) 8)) (Z.land c 255) in
  u8 w = u8 c /\ u8 (w / 256) = u8 c /\
  u8 (w / 65536) = u8 c /\ u8 (w / 16777216) = u8 c.
Proof.
  change 255 with (2 ^ 8 - 1). rewrite land_low_mask by lia.
  change (c mod 2 ^ 8) with (u8 c).
  assert (forallb (fun b =>
    let w := Z.lor (Z.lor (Z.lor (Z.shiftl b 24) (Z.shiftl b 16))
                          (Z.shiftl b 8)) b in
    (u8 w =? b) && (u8 (w / 256) =? b) && (u8 (w / 65536) =? b) &&
    (u8 (w / 16777216) =? b)) (seqZ 0 256) = true) as Hall
    by (vm_compute; reflexivity).
  rewrite forallb_forall in Hall.
  assert (In (u8 c) (seqZ 0 256)) as Hin
    by (apply list_elem_of_In, elem_of_seqZ; pose proof (u8_range c); lia).
  apply Hall in Hin. cbv zeta in Hin |- *.
  rewrite !andb_true_iff, !Z.eqb_eq in Hin. tauto.
Qed.

Lemma stosl_spec cnt m a w b x :
  u8 w = b -> u8 (w / 256) = b -> u8 (w / 65536) = b -> u8 (w / 16777216) = b ->
  stosl m a w cnt x = if within x a (4 * Z.of_nat cnt) then b else m x.
Proof.
  intros H0 H1 H2 H3. revert m a. induction cnt as [|k IH]; intros m a;
    cbn [stosl].
  - addr_cases.
  - rewrite IH. unfold store32. rewrite H0, H1, H2, H3. addr_cases.
Qed.

Lemma copy_up_spec n m d s x :
  d <= s \/ s + Z.of_nat n <= d ->
  copy_up m d s n x = if within x d (Z.of_nat n) then m (s + (x - d)) else m x.
Proof.
  revert m d s. induction n as [|k IH]; intros m d s H; cbn [copy_up].
  - addr_cases.
  - rewrite IH by lia. addr_cases.
Qed.

Lemma copy_down_spec n m d s x :
  s <= d \/ d + Z.of_nat n <= s ->
  copy_down m d s n x =
    if within x (d - Z.of_nat n) (Z.of_nat n) then m (s + (x - d)) else m x.
Proof.
  revert m d s. induction n as [|k IH]; intros m d s H; cbn [copy_down].
  - addr_cases.
  - rewrite IH by lia. addr_cases.
Qed.

Lemma zero_fill_spec n m s x :
  zero_fill m s n x = if within x s (Z.of_nat n) then 0 else m x.
Proof.
  revert m s. induction n as [|k IH]; intros m s; cbn [zero_fill].
  - addr_cases.
  - rewrite IH. addr_cases.
Qed.

Lemma cstrn_ext n m m' p :
  (forall i, 0 <= i < Z.of_nat n -> m' (p + i) = m (p + i)) ->
  cstrn m' p n = cstrn m p n.
Proof.
  revert p. induction n as [|k IH]; intros p H; [done|]. cbn [cstrn].
  pose proof (H 0 ltac:(lia)) as H0. rewrite Z.add_0_r in H0. rewrite H0.
  rewrite IH; [done|]. intros i Hi.
  replace (p + 1 + i) with (p + (i + 1)) by lia. apply H. lia.
Qed.

Lemma strncpy_loop_spec n m s t x :
  t + Z.of_nat n <= s \/ s + Z.of_nat n <= t ->
  strncpy_loop m s t n x =
    if within x s (Z.of_nat n) then
      if x - s <? Z.of_nat (length (cstrn m t n)) then m (t + (x - s)) else 0
    else m x.
Proof.
  revert m s t. induction n as [|k IH]; intros m s t H;
    cbn [strncpy_loop cstrn].
  - addr_cases.
  - destruct (Z.eqb_spec (m t) 0) as [E|E].
    + rewrite zero_fill_spec. cbn [length]. addr_cases.
    + rewrite IH by lia.
      rewrite (cstrn_ext k m); [|intros i Hi; addr_cases].
      cbn [length]. addr_cases.
Qed.

Lemma safestrcpy_loop_spec n m s t :
  t + Z.of_nat n <= s \/ s + Z.of_nat n < t ->
  cstrn (safestrcpy_loop m s t n) s (S n) = cstrn m t n /\
  forall x, within x s (Z.of_nat n + 1) = false ->
            safestrcpy_loop m s t n x = m x.
Proof.
  revert m s t. induction n as [|k IH]; intros m s t H.
  - cbn. split; [unfold upd; by rewrite Z.eqb_refl|]. intros x Hx. addr_cases.
  - cbn [safestrcpy_loop].
    destruct (Z.eqb_spec (m t) 0) as [E|E].
    + split; [|intros x Hx; addr_cases].
      cbn [cstrn]. rewrite E. addr_cases.
    + destruct (IH (upd m s (m t)) (s + 1) (t + 1) ltac:(lia)) as [IH1 IH2].
      split.
      * rewrite (cstrn_ext k m) in IH1 by (intros i Hi; addr_cases).
        cbn [cstrn] in *. rewrite IH2, IH1 by addr_cases.
        unfold upd. rewrite Z.eqb_refl. addr_cases.
      * intros x Hx. rewrite IH2; addr_cases.
Qed.

Lemma memset_at m dst c n x :
  0 <= n -> memset m dst c n x = if within x dst n then u8 c else m x.
Proof.
  intros Hn. unfold memset. destruct (_ && _) eqn:E.
  - pose proof (fill_word_bytes c) as (H0 & H1 & H2 & H3).
    rewrite (stosl_spec _ _ _ _ (u8 c)) by done.
    apply andb_true_iff in E as [_ E%Z.eqb_eq].
    replace (4 * Z.of_nat (Z.to_nat (n / 4))) with n; [done|].
    rewrite Z2Nat.id by (apply Z.div_pos; lia).
    pose proof (Z.div_mod n 4). lia.
  - rewrite stosb_spec. by rewrite Z2Nat.id.
Qed.

Lemma memmove_at m dst src n x :
  0 <= n ->
  memmove m dst src n x = if within x dst n then m (src + (x - dst)) else m x.
Proof.
  intros Hn. unfold memmove. destruct (_ && _) eqn:E; b2p.
  - rewrite copy_down_spec by lia. rewrite Z2Nat.id by done.
    replace (dst + n - n) with dst by lia.
    replace (src + n + (x - (dst + n))) with (src + (x - dst)) by lia. done.
  - rewrite copy_up_spec by lia. by rewrite Z2Nat.id.
Qed.

(** ** Properties *)

(** [memset] stores the low byte of [c] in exactly the [n] bytes at [dst],
    whether it takes the word-at-a-time path or the byte path. *)
Theorem memset_spec (m : mem) (dst c n x : Z) (Hn : 0 <= n) :
  memset m dst c n x = if within x dst n then u8 c else m x.
Proof. by apply memset_at. Qed.

(** [memmove] leaves at [dst] the bytes that were at [src] before the call,
    also when the two areas overlap in either direction, and changes no other
    byte. *)
Theorem memmove_spec (m : mem) (dst src n x : Z) (Hn : 0 <= n) :
  memmove m dst src n x =
    if within x dst n then m (src + (x - dst)) else m x.
Proof. by apply memmove_at. Qed.

(** [strncmp] is zero exactly when the two strings, read up to their NUL or
    to [n] bytes, are the same; [fs.c] compares directory names with it. *)
Theorem strncmp_zero (n : nat) (m : mem) (p q : Z) (Hm : bytes_mem m) :
  strncmp m p q n = 0 <-> cstrn m p n = cstrn m q n.
Proof.
  revert p q. induction n as [|k IH]; intros p q; cbn [strncmp cstrn]; [done|].
  pose proof (Hm p). pose proof (Hm q). unfold nz.
  destruct (Z.eqb_spec (m p) 0) as [Ep|Ep], (Z.eqb_spec (m q) 0) as [Eq|Eq];
    destruct (Z.eqb_spec (m p) (m q)) as [E|E]; cbn;
    rewrite ?u8_small by lia; try solve [split; intros; (lia || congruence)].
  rewrite IH, E. split; congruence.
Qed.

Definition demo_mem : mem := fun a =>
  if a =? 0 then 97 else if a =? 10 then 97 else if a =? 11 then 98 else 0.

(** [strncpy] fills all [n] bytes of [s]: the string at [t] cut at [n],
    then NULs; nothing outside is written. *)
Theorem strncpy_spec (m : mem) (s t n x : Z)
    (Hd : t + n <= s \/ s + n <= t) (Hn : 0 <= n) :
  strncpy m s t n x =
    if within x s n then
      if x - s <? Z.of_nat (length (cstrn m t (Z.to_nat n)))
      then m (t + (x - s)) else 0
    else m x.
Proof.
  unfold strncpy. rewrite strncpy_loop_spec by lia. by rewrite Z2Nat.id.
Qed.

(** [safestrcpy] writes only the [n] bytes at [s] and leaves there a
    NUL-terminated string, the one at [t] cut to [n-1] bytes. *)
Theorem safestrcpy_spec (m : mem) (s t n : Z)
    (Hd : t + n <= s \/ s + n <= t) (Hn : 0 < n) :
  cstrn (safestrcpy m s t n) s (Z.to_nat n) = cstrn m t (Z.to_nat (n - 1)) /\
  forall x, within x s n = false -> safestrcpy m s t n x = m x.
Proof.
  unfold safestrcpy. destruct (Z.leb_spec n 0); [lia|].
  destruct (safestrcpy_loop_spec (Z.to_nat (n - 1)) m s t ltac:(lia)) as [H1 H2].
  replace (Z.to_nat n) with (S (Z.to_nat (n - 1))) by lia.
  split; [done|]. intros x Hx. apply H2.
  by replace (Z.of_nat (Z.to_nat (n - 1)) + 1) with n by lia.
Qed.

(** [strlen] finds the first NUL: with fuel past it, the result is its
    offset, and no NUL within the fuel means no result. *)
Theorem strlen_spec (fuel : nat) (m : mem) (s k : Z) :
  strlen m s fuel = Some k <->
  0 <= k < Z.of_nat fuel /\ m (s + k) = 0 /\
  forall i, 0 <= i < k -> m (s + i) <> 0.
Proof.
  revert s k. induction fuel as [|f IH]; intros s k; cbn [strlen].
  - split; [done|lia].
  - destruct (Z.eqb_spec (m s) 0) as [E|E].
    + split.
      * intros [= <-]. rewrite Z.add_0_r. split; [lia|]. split; [done|lia].
      * intros (Hk & _ & Hi). destruct (Z.eq_dec k 0) as [->|Hne]; [done|].
        exfalso. apply (Hi 0); [lia|]. by rewrite Z.add_0_r.
    + split.
      * intros (j & Hj & ->)%fmap_Some. apply IH in Hj as (Hj & Hz & Hi).
        replace (s + (1 + j)) with (s + 1 + j) by lia.
        split; [lia|]. split; [done|]. intros i Hi'.
        destruct (Z.eq_dec i 0) as [->|]; [by rewrite Z.add_0_r|].
        replace (s + i) with (s + 1 + (i - 1)) by lia. apply Hi. lia.
      * intros (Hk & Hz & Hi). assert (k <> 0) by (intros ->; by rewrite Z.add_0_r in Hz).
        apply fmap_Some. exists (k - 1). split; [|lia]. apply IH.
        split; [lia|]. split; [by replace (s + 1 + (k - 1)) with (s + k) by lia|].
        intros i Hi'. replace (s + 1 + i) with (s + (1 + i)) by lia. apply Hi. lia.
Qed.
