(* ===== verification/Ulib.v ===== *)
(** * The user library ([ulib.c], [printf.c])

    A user program is its memory, what its descriptors deliver and what it has
    written.  Strings that the code scans have no length: the loops take a bound
    on the bytes they look at, and fail beyond it. *)
From S2P Require Import Prelude Str.

(** What [read] will deliver on each descriptor, in pieces, and its answer after
    the last one; what has been written, descriptor by descriptor. *)
Record ust := mkust {
  umem : mem;
  uin : Z -> list (list Z);
  uend : Z -> Z;
  uout : list (Z * list Z);
}.

Definition set_umem v s := mkust v (uin s) (uend s) (uout s).
Definition set_uin v s := mkust (umem s) v (uend s) (uout s).
Definition emitted fd bs s := mkust (umem s) (uin s) (uend s) (uout s ++ [(fd, bs)]).

Abbreviation UM := (M ust).

(** The program ends. *)
Definition exit_prog {A} : UM A := fun _ => Stop (Panic "exit").

(** The bytes of one [read]; a piece that is longer than [n] is delivered in
    several reads. *)
Definition read_bytes (fd n : Z) : UM (Z * list Z) :=
  let! s := get in
  match uin s fd with
  | [] => ret (uend s fd, [])
  | c :: cs =>
      let rest := match drop (Z.to_nat n) c with [] => cs | r => r :: cs end in
      put (set_uin (fun x => if x =? fd then rest else uin s x) s) ;;
      ret (Z.of_nat (length (take (Z.to_nat n) c)), take (Z.to_nat n) c)
  end.

Definition store (a : Z) (bs : list Z) : UM unit := modify (fun s => set_umem (poke (umem s) a bs) s).

Definition read (fd buf n : Z) : UM Z :=
  let! (r, bs) := read_bytes fd n in
  store buf bs ;;
  ret r.

Definition write (fd buf n : Z) : UM unit := modify (fun s => emitted fd (peek (umem s) buf n) s).

(** ** [ulib.c] *)

Fixpoint strcpy (m : mem) (s t : Z) (fuel : nat) : option mem :=
  match fuel with
  | O => None
  | S k =>
      let m' := upd m s (m t) in
      if m t =? 0 then Some m' else strcpy m' (s + 1) (t + 1) k
  end.

Fixpoint strcmp (m : mem) (p q : Z) (fuel : nat) : option Z :=
  match fuel with
  | O => None
  | S k => if nz (m p) && (m p =? m q) then strcmp m (p + 1) (q + 1) k else Some (u8 (m p) - u8 (m q))
  end.

Fixpoint strlen (m : mem) (s : Z) (fuel : nat) : option Z :=
  match fuel with
  | O => None
  | S k => if m s =? 0 then Some 0 else Z.add 1 <$> strlen m (s + 1) k
  end.

Definition memset (m : mem) (dst c n : Z) : mem := stosb m dst c (Z.to_nat n).

(** 0 if the string has no [c]. *)
Fixpoint strchr (m : mem) (s c : Z) (fuel : nat) : option Z :=
  match fuel with
  | O => None
  | S k => if m s =? 0 then Some 0 else if m s =? c then Some s else strchr m (s + 1) c k
  end.

(** [for(i=0; i+1 < max; )]: at most [max] rounds. *)
Fixpoint gets_loop (fuel : nat) (buf max i : Z) : UM Z :=
  match fuel with
  | O => ret i
  | S k =>
      if i + 1 <? max then
        let! (cc, bs) := read_bytes 0 1 in
        if cc <? 1 then ret i
        else
          let c := nth 0 bs 0 in
          store (buf + i) [c] ;;
          if (c =? 10) || (c =? 13) then ret (i + 1) else gets_loop k buf max (i + 1)
      else ret i
  end.

Definition gets (buf max : Z) : UM Z :=
  let! i := gets_loop (Z.to_nat max) buf max 0 in
  store (buf + i) [0] ;;
  ret buf.

(** [int] arithmetic on the digits of the string. *)
Fixpoint atoi_loop (m : mem) (s n : Z) (fuel : nat) : option Z :=
  match fuel with
  | O => None
  | S k =>
      if (48 <=? m s) && (m s <=? 57) then atoi_loop m (s + 1) (s32 (n * 10 + m s - 48)) k
      else Some n
  end.

Definition atoi (m : mem) (s : Z) (fuel : nat) : option Z := atoi_loop m s 0 fuel.

Definition memmove (m : mem) (dst src n : Z) : mem := copy_up m dst src (Z.to_nat n).

(** ** [printf.c] *)

Definition putc (fd c : Z) : UM unit := modify (emitted fd [u8 c]).

Definition digits : list Z :=
  [48; 49; 50; 51; 52; 53; 54; 55; 56; 57; 65; 66; 67; 68; 69; 70].

(** [do buf[i++] = digits[x % base]; while((x /= base) != 0)]; a base of at least
    2 needs at most 32 rounds. *)
Fixpoint print_digits (fuel : nat) (x base : Z) (buf : list Z) : list Z :=
  match fuel with
  | O => buf
  | S k =>
      let buf := buf ++ [nth (Z.to_nat (x mod base)) digits 0] in
      if x / base =? 0 then buf else print_digits k (x / base) base buf
  end.

Fixpoint put_rev (fd : Z) (l : list Z) : UM unit :=
  match l with
  | [] => ret tt
  | c :: l => putc fd c ;; put_rev fd l
  end.

(** [buf] has 16 bytes. *)
Definition printint (fd xx base sgn : Z) : UM unit :=
  let neg := nz sgn && (xx <? 0) in
  let x := if neg then u32 (- xx) else u32 xx in
  let buf := print_digits 32 x base [] in
  let buf := if neg then buf ++ [45] else buf in
  if Z.of_nat (length buf) <=? 16 then put_rev fd (rev buf) else fault "printint: buf".

(** The bytes of a string up to its null byte. *)
Fixpoint put_string (fuel : nat) (fd s : Z) : UM unit :=
  match fuel with
  | O => fault "string"
  | S k =>
      let! u := get in
      if umem u s =? 0 then ret tt else putc fd (umem u s) ;; put_string k fd (s + 1)
  end.

Definition null_string : list Z := [40; 110; 117; 108; 108; 41].

(** [*ap], with the arguments that were passed. *)
Definition next_arg (ap : list Z) : UM Z := deref (head ap).

(** What follows a %: the arguments that are left.  [n]: the longest string. *)
Definition convert (n : nat) (fd c : Z) (ap : list Z) : UM (list Z) :=
  if c =? 100 then
    let! a := next_arg ap in printint fd (s32 a) 10 1 ;; ret (tail ap)
  else if (c =? 120) || (c =? 112) then
    let! a := next_arg ap in printint fd (s32 a) 16 0 ;; ret (tail ap)
  else if c =? 115 then
    let! s := next_arg ap in
    (if s =? 0 then put_rev fd null_string else put_string n fd s) ;;
    ret (tail ap)
  else if c =? 99 then
    let! a := next_arg ap in putc fd a ;; ret (tail ap)
  else if c =? 37 then putc fd c ;; ret ap
  else putc fd 37 ;; putc fd c ;; ret ap.

(** [percent]: [state] is '%'. *)
Fixpoint printf_loop (n : nat) (fd : Z) (fmt : list Z) (percent : bool) (ap : list Z) : UM unit :=
  match fmt with
  | [] => ret tt
  | c :: fmt =>
      if percent then
        let! ap := convert n fd c ap in
        printf_loop n fd fmt false ap
      else if c =? 37 then printf_loop n fd fmt true ap
      else putc fd c ;; printf_loop n fd fmt false ap
  end.

Definition printf (n : nat) (fd : Z) (fmt ap : list Z) : UM unit := printf_loop n fd fmt false ap.

(** ** What is printed *)

(** All bytes written to [fd]. *)
Definition written (fd : Z) (o : list (Z * list Z)) : list Z :=
  mjoin (snd <$> filter (fun x => fst x = fd) o).

Lemma output_app fd o o' : written fd (o ++ o') = written fd o ++ written fd o'.
Proof. unfold written. by rewrite filter_app, fmap_app, join_app. Qed.

Lemma written_one fd bs : written fd [(fd, bs)] = bs.
Proof. unfold written. rewrite filter_cons_True by done. cbn. apply app_nil_r. Qed.

(** [s'] is [s] after writing [bs] to [fd] byte by byte. *)
Definition says (fd : Z) (bs : list Z) (s s' : ust) : Prop :=
  s' = mkust (umem s) (uin s) (uend s) (uout s ++ ((fun b => (fd, [b])) <$> bs)).

Lemma says_nil fd s : says fd [] s s.
Proof. unfold says. cbn. rewrite app_nil_r. by destruct s. Qed.

Lemma says_app fd a b s s' s'' : says fd a s s' -> says fd b s' s'' -> says fd (a ++ b) s s''.
Proof. unfold says. intros -> ->. cbn. by rewrite fmap_app, app_assoc. Qed.

Lemma says_written fd bs s s' : says fd bs s s' -> written fd (uout s') = written fd (uout s) ++ bs.
Proof.
  intros ->. cbn [uout]. rewrite output_app. f_equal. induction bs as [|b bs IH]; [done|].
  change (written fd ([(fd, [b])] ++ ((fun b => (fd, [b])) <$> bs)) = b :: bs). by rewrite output_app, written_one, IH.
Qed.

Lemma putc_says fd c s (Q : unit -> ust -> Prop) :
  (forall s', says fd [u8 c] s s' -> Q tt s') -> wp (putc fd c) s Q.
Proof. intros H. apply H. done. Qed.

Lemma put_rev_says fd l s (Q : unit -> ust -> Prop) :
  Forall (fun c => 0 <= c < 256) l -> (forall s', says fd l s s' -> Q tt s') -> wp (put_rev fd l) s Q.
Proof.
  intros Hl. revert s. induction Hl as [|c l Hc Hl IH]; intros s H; [apply wp_ret, H, says_nil|].
  cbn [put_rev]. apply wp_bind, putc_says. intros s1 H1. apply IH. intros s2 H2. apply H.
  rewrite u8_small in H1 by done. by apply (says_app fd [c] l s s1).
Qed.

(** The digits of a number, the least significant first. *)
Definition digit_val (c : Z) : Z := if c <? 65 then c - 48 else c - 55.

Definition value (base : Z) (l : list Z) : Z := foldr (fun c v => digit_val c + base * v) 0 l.

Definition is_digit (base c : Z) : Prop :=
  0 <= digit_val c < base /\ (48 <= c <= 57 \/ 65 <= c <= 70).

Lemma nth_digits d : 0 <= d < 16 -> is_digit 16 (nth (Z.to_nat d) digits 0) /\ digit_val (nth (Z.to_nat d) digits 0) = d.
Proof.
  intros Hd. assert (forallb (fun d => let c := nth (Z.to_nat d) digits 0 in
    (digit_val c =? d) && (((48 <=? c) && (c <=? 57)) || ((65 <=? c) && (c <=? 70)))) (seqZ 0 16) = true) as H
    by (vm_compute; reflexivity).
  rewrite forallb_forall in H. specialize (H d). rewrite <- list_elem_of_In, elem_of_seqZ in H.
  specialize (H ltac:(lia)). cbv zeta in H. unfold is_digit. b2p. lia.
Qed.

(** What [print_digits] appends: the shortest list of digits with value [x]. *)
Lemma print_digits_spec base fuel : forall x buf (k : nat), 2 <= base <= 16 ->
  0 <= x < base ^ Z.of_nat k -> (1 <= k <= fuel)%nat ->
  exists ds, print_digits fuel x base buf = buf ++ ds /\ Forall (is_digit base) ds /\ value base ds = x /\
    (1 <= length ds <= k)%nat /\ (last ds = Some 48 -> x = 0).
Proof.
  induction fuel as [|fuel IH]; intros x buf k Hb Hx Hk; [lia|]. cbn [print_digits].
  pose proof (Z.mod_pos_bound x base ltac:(lia)) as Hm. pose proof (Z.div_mod x base ltac:(lia)) as Hdm.
  destruct (nth_digits (x mod base) ltac:(lia)) as [Hd Hv]. generalize dependent (nth (Z.to_nat (x mod base)) digits 0). intros c Hd Hv.
  assert (is_digit base c) as Hd' by (unfold is_digit in *; lia).
  destruct (Z.eqb_spec (x / base) 0) as [E|E].
  - exists [c]. split_and!; [done|by constructor|unfold value; cbn [foldr]; lia|cbn; lia|cbn; lia|].
    intros Hc. change (Some c = Some 48) in Hc. injection Hc as Hc. rewrite Hc in Hv. change (digit_val 48) with 0 in Hv. lia.
  - assert (2 <= k)%nat as Hk2.
    { destruct (decide (k = 1%nat)) as [->|]; [|lia]. cbn in Hx. rewrite Z.div_small in E by lia. lia. }
    destruct (IH (x / base) (buf ++ [c]) (k - 1)%nat Hb) as (ds & E' & Hds & Hval & Hl & Hlast); [|lia|].
    { split; [apply Z.div_pos; lia|]. apply Z.div_lt_upper_bound; [lia|].
      replace (base * base ^ Z.of_nat (k - 1)) with (base ^ Z.of_nat k); [lia|].
      rewrite <- Z.pow_succ_r by lia. f_equal. lia. }
    exists (c :: ds). rewrite E', <- app_assoc. split_and!; [done|by constructor| |cbn; lia|cbn; lia|].
    + cbn [value foldr]. fold (value base ds). rewrite Hv, Hval. lia.
    + destruct ds as [|d ds]; [cbn in Hl; lia|]. intros H. change (last (d :: ds) = Some 48) in H. specialize (Hlast H). lia.
Qed.

(** The number that a printed line shows. *)
Definition shows (base : Z) (sgn : bool) (xx : Z) (bs : list Z) : Prop :=
  exists sign ds, bs = sign ++ rev ds /\ Forall (is_digit base) ds /\ ds <> [] /\ (last ds = Some 48 -> xx = 0) /\
    if sgn && (xx <? 0) then sign = [45] /\ value base ds = - xx
    else sign = [] /\ value base ds = u32 xx.

Lemma printint_run fd xx base sgn s (Q : unit -> ust -> Prop) :
  -2147483648 <= xx < 2147483648 -> base = 10 \/ base = 16 ->
  (forall bs s', shows base (nz sgn) xx bs -> (length bs <= 11)%nat -> says fd bs s s' -> Q tt s') ->
  wp (printint fd xx base sgn) s Q.
Proof.
  intros Hx Hb H. unfold printint. set (neg := nz sgn && (xx <? 0)). set (x := if neg then u32 (- xx) else u32 xx).
  assert (0 <= x < 4294967296) as Hxr by (subst x; destruct neg; apply u32_range).
  destruct (print_digits_spec base 32 x [] 10) as (ds & -> & Hds & Hv & Hl & Hlast); [lia| |lia|].
  { destruct Hb as [-> | ->]; cbn; lia. }
  rewrite app_nil_l. set (buf := if neg then ds ++ [45] else ds).
  assert (length buf <= 11)%nat as Hlen by (subst buf; destruct neg; rewrite ?length_app; cbn; lia).
  rewrite (proj2 (Z.leb_le _ _)) by lia.
  assert (Forall (fun c => 0 <= c < 256) ds) as Hby by (eapply Forall_impl; [exact Hds|]; unfold is_digit; lia).
  apply put_rev_says.
  { apply Forall_rev. subst buf. destruct neg; [apply Forall_app; split; [done|by repeat constructor]|done]. }
  intros s' Hs. eapply H; [|by rewrite length_rev|exact Hs].
  exists (if neg then [45] else []), ds. split_and!; [|done|intros ->; cbn in Hl; lia| |].
  - subst buf. destruct neg; [by rewrite rev_app_distr|done].
  - intros E. specialize (Hlast E). subst x. destruct neg eqn:En; [|].
    + subst neg. b2p. rewrite u32_small in Hlast by lia. lia.
    + unfold u32 in Hlast. Z.to_euclidean_division_equations; lia.
  - fold neg. destruct neg eqn:En; [|done]. split; [done|]. rewrite Hv. subst x neg. b2p. rewrite u32_small; lia.
Qed.

(** ** Numbers in decimal *)

Lemma value_snoc base l c : value base (l ++ [c]) = value base l + base ^ Z.of_nat (length l) * digit_val c.
Proof.
  induction l as [|d l IH]; cbn [app value foldr length]; [change (Z.of_nat 0) with 0; lia|].
  fold (value base (l ++ [c])) (value base l). rewrite IH, Nat2Z.inj_succ, Z.pow_succ_r by lia. lia.
Qed.

Lemma value_bounds base l : 0 < base -> Forall (is_digit base) l -> 0 <= value base l < base ^ Z.of_nat (length l).
Proof.
  intros Hb. induction 1 as [|d l [Hd _] _ IH]; cbn [value foldr length]; [cbn; lia|].
  fold (value base l). rewrite Nat2Z.inj_succ, Z.pow_succ_r by lia. nia.
Qed.

(** [atoi] reads the digits from the most significant one on. *)
Lemma atoi_loop_digits m : forall ds s n fuel,
  Forall (is_digit 10) ds -> holds m s (rev ds) -> ~ 48 <= m (s + Z.of_nat (length ds)) <= 57 -> 0 <= n ->
  n * 10 ^ Z.of_nat (length ds) + value 10 ds < 2147483648 -> (length ds < fuel)%nat ->
  atoi_loop m s n fuel = Some (n * 10 ^ Z.of_nat (length ds) + value 10 ds).
Proof.
  induction ds as [|c ds IH] using rev_ind; intros s n fuel Hds Hm Hend Hn Hv Hf; (destruct fuel as [|fuel]; [lia|]); cbn [atoi_loop].
  - cbn [length] in *. rewrite Z.add_0_r in Hend. destruct (_ && _) eqn:E; b2p; [lia|]. cbn. f_equal. lia.
  - rewrite rev_app_distr in Hm. cbn [rev app] in Hm. apply holds_cons in Hm as [Hc Hm].
    apply Forall_app in Hds as [Hds Hc1]. apply Forall_cons in Hc1 as [Hc1 _]. rewrite length_app in *. cbn [length] in *.
    rewrite value_snoc in *. assert (48 <= c <= 57) as Hr by (clear -Hc1; revert Hc1; unfold is_digit, digit_val; destruct (Z.ltb_spec c 65); lia).
    assert (digit_val c = c - 48) as Hdv by (unfold digit_val; rewrite (proj2 (Z.ltb_lt _ _)); lia). rewrite Hdv in *.
    rewrite Hc, (proj2 (Z.leb_le _ _)), (proj2 (Z.leb_le _ _)) by lia. cbn [andb].
    assert (10 ^ Z.of_nat (length ds + 1) = 10 * 10 ^ Z.of_nat (length ds)) as Hp
      by (rewrite Nat2Z.inj_add, Z.add_1_r, Z.pow_succ_r by lia; done).
    pose proof (value_bounds 10 ds ltac:(lia) Hds) as Hvb.
    rewrite s32_small by nia. rewrite IH; [f_equal; nia|done|done| |lia|nia|lia].
    replace (s + 1 + Z.of_nat (length ds)) with (s + Z.of_nat (length ds + 1)) by lia. done.
Qed.

(** what [printf] writes for %d is the number: at most 11 bytes, which always
    fit the 16 bytes of [printint]'s buffer, and [atoi] reads the number back from
    them, in whatever program they end up. *)
Theorem atoi_printf (n k : nat) (fd x a : Z) (s : ust) (m : mem) (Hx : 0 <= x < 2147483648) (Hk : (11 < k)%nat) :
  exists bs s', printf n fd [37; 100] [x] s = Ret tt s' /\ says fd bs s s' /\ (1 <= length bs <= 11)%nat /\
    atoi (poke m a (bs ++ [0])) a k = Some x.
Proof.
  assert (wp (printf n fd [37; 100] [x]) s (fun _ s' => exists bs, shows 10 true x bs /\ (length bs <= 11)%nat /\ says fd bs s s')) as W.
  { unfold printf. cbn [printf_loop]. rewrite Z.eqb_refl. apply wp_bind. unfold convert. rewrite Z.eqb_refl.
    cbn [next_arg head]. apply wp_bind, wp_ret, wp_bind. rewrite s32_small by lia. apply printint_run; [lia|by left|].
    intros bs s' H1 H2 H3. apply wp_ret, wp_ret. by exists bs. }
  apply wp_exists in W as ([] & s' & E & bs & (sign & ds & -> & Hds & Hne & _ & H) & Hl & Hs).
  rewrite (proj2 (Z.ltb_ge _ _)) in H by lia. cbn [andb] in H. destruct H as [-> Hv]. rewrite u32_small in Hv by lia.
  cbn [app] in *. exists (rev ds), s'. rewrite length_rev in *. split_and!; [done|done|destruct ds; cbn; [done|lia]|done|].
  pose proof (holds_poke m a (rev ds ++ [0])) as [Hm Hz]%holds_app. rewrite length_rev in Hz. apply holds_cons in Hz as [Hz _].
  unfold atoi. rewrite (atoi_loop_digits _ ds); [f_equal; lia|done|done|lia|lia|lia|lia].
Qed.
