(* ===== verification/Grep.v ===== *)
(** * Searching lines ([grep.c])

    The matcher is on strings without their null byte; [grep] itself on the
    program's memory. *)
From S2P Require Import Prelude Str Ulib.

(** ** The matcher *)

Definition star : Z := 42.
Definition dot : Z := 46.
Definition hat : Z := 94.
Definition dollar : Z := 36.

(** [c] matches the character [x]. *)
Definition accepts (c x : Z) : bool := (c =? dot) || (x =? c).

(** [matchstar(c, re, text)], with [here] for [matchhere(re, .)]. *)
Fixpoint matchstar (here : list Z -> bool) (c : Z) (text : list Z) : bool :=
  here text ||
  match text with
  | [] => false
  | x :: text => if (x =? c) || (c =? dot) then matchstar here c text else false
  end.

Fixpoint matchhere (re : list Z) (text : list Z) : bool :=
  match re with
  | [] => true
  | c :: re1 =>
      match re1 with
      | s :: re2 => if s =? star then matchstar (matchhere re2) c text
                    else match text with
                         | [] => false
                         | x :: text => if (c =? dot) || (c =? x) then matchhere re1 text else false
                         end
      | [] => if c =? dollar then match text with [] => true | _ => false end
              else match text with
                   | [] => false
                   | x :: text => if (c =? dot) || (c =? x) then matchhere re1 text else false
                   end
      end
  end.

Fixpoint match_loop (re text : list Z) : bool :=
  matchhere re text ||
  match text with
  | [] => false
  | _ :: text => match_loop re text
  end.

Definition match_line (re text : list Z) : bool :=
  match re with
  | c :: re1 => if c =? hat then matchhere re1 text else match_loop re text
  | [] => match_loop re text
  end.

(** ** The function *)

Definition NL : Z := 10.
Definition BUFSIZE : Z := 1024.

Section Grep.
(** The address of [buf]. *)
Context (buf : Z).

(** [while((q = strchr(p, '\n')) != 0)]: where the lines end. *)
Fixpoint grep_lines (fuel : nat) (pattern : list Z) (p : Z) : UM Z :=
  match fuel with
  | O => fault "fuel"
  | S k =>
      let! s := get in
      let! q := deref (strchr (umem s) p NL (Z.to_nat BUFSIZE)) in
      if q =? 0 then ret p
      else
        store q [0] ;;
        let! s := get in
        (if match_line pattern (cstrn (umem s) p (Z.to_nat BUFSIZE)) then store q [NL] ;; write 1 p (q + 1 - p)
         else ret tt) ;;
        grep_lines k pattern (q + 1)
  end.

Fixpoint grep_loop (fuel : nat) (pattern : list Z) (fd m : Z) : UM unit :=
  match fuel with
  | O => fault "fuel"
  | S k =>
      let! n := read fd (buf + m) (BUFSIZE - m - 1) in
      if n <=? 0 then ret tt
      else
        let m := m + n in
        store (buf + m) [0] ;;
        let! p := grep_lines (Z.to_nat BUFSIZE) pattern buf in
        let m := if p =? buf then 0 else m in
        let m' := m - (p - buf) in
        (if 0 <? m then modify (fun s => set_umem (memmove (umem s) buf p m') s) else ret tt) ;;
        grep_loop k pattern fd (if 0 <? m then m' else m)
  end.

(** Every read that returns something takes a byte at least. *)
Definition grep (pattern : list Z) (fd : Z) : UM unit :=
  let! s := get in
  grep_loop (S (length (mjoin (uin s fd)))) pattern fd 0.

End Grep.

(** ** What a pattern means *)

Inductive atom := One (c : Z) | Many (c : Z).

(** The atoms of a pattern, and whether it is closed by a $. *)
Fixpoint atoms (re : list Z) : list atom * bool :=
  match re with
  | [] => ([], false)
  | c :: re1 =>
      match re1 with
      | s :: re2 => if s =? star then (Many c :: fst (atoms re2), snd (atoms re2))
                    else (One c :: fst (atoms re1), snd (atoms re1))
      | [] => if c =? dollar then ([], true) else ([One c], false)
      end
  end.

Fixpoint lang (l : list atom) (t : list Z) : Prop :=
  match l with
  | [] => t = []
  | One c :: l => exists x t', t = x :: t' /\ accepts c x = true /\ lang l t'
  | Many c :: l => exists u t', t = u ++ t' /\ Forall (fun x => accepts c x = true) u /\ lang l t'
  end.

Definition found (re text : list Z) : Prop :=
  exists mid post, text = mid ++ post /\ lang (fst (atoms re)) mid /\ (snd (atoms re) = true -> post = []).

Lemma matchstar_spec here c text :
  matchstar here c text = true <->
  exists u t, text = u ++ t /\ Forall (fun x => accepts c x = true) u /\ here t = true.
Proof.
  assert (forall x, (x =? c) || (c =? dot) = accepts c x) as Ha by (intros; apply orb_comm).
  induction text as [|x text IH]; cbn [matchstar].
  - rewrite orb_false_r. split; [intros H; by exists [], []|]. intros ([|??] & [|??] & E & _ & H); done.
  - rewrite orb_true_iff, Ha. split.
    + intros [H|H]; [by exists [], (x :: text)|]. destruct (accepts c x) eqn:E; [|done].
      apply IH in H as (u & t & -> & Hu & H). exists (x :: u), t. split_and!; [done|by constructor|done].
    + intros ([|y u] & t & E & Hu & H); [left; by rewrite E|right]. injection E as <- ->.
      apply Forall_cons in Hu as [-> Hu]. apply IH. eauto.
Qed.

Lemma found_one c re text : (forall s re', re = s :: re' -> s <> star) -> (re = [] -> c <> dollar) ->
  found (c :: re) text <-> exists x t, text = x :: t /\ accepts c x = true /\ found re t.
Proof.
  intros Hs Hd. assert (atoms (c :: re) = (One c :: fst (atoms re), snd (atoms re))) as E.
  { destruct re as [|s re]; cbn [atoms].
    - by rewrite (proj2 (Z.eqb_neq c dollar)) by auto.
    - rewrite (proj2 (Z.eqb_neq s star)) by eauto. done. }
  unfold found. rewrite E. cbn [fst snd lang]. split.
  - intros (mid & post & -> & (x & t & -> & Hx & Hl) & Hp). exists x, (t ++ post). split_and!; [done|done|eauto].
  - intros (x & t & -> & Hx & mid & post & -> & Hl & Hp). exists (x :: mid), post. split_and!; [done| |done]. eauto.
Qed.

Lemma matchhere_spec re text : matchhere re text = true <-> found re text.
Proof.
  revert text. induction re as [re IH] using (induction_ltof1 _ (@length Z)). intros text.
  destruct re as [|c re]; [split; [intros _; by exists [], text|done]|].
  assert ((forall s re', re = s :: re' -> s <> star) -> (re = [] -> c <> dollar) ->
    match text with [] => false | x :: t => if (c =? dot) || (c =? x) then matchhere re t else false end = true <-> found (c :: re) text) as Hone.
  { intros H1 H2. rewrite found_one by done. destruct text as [|x t]; [split; [done|by intros (x & t & ? & _)]|].
    assert ((c =? dot) || (c =? x) = accepts c x) as -> by (unfold accepts; by rewrite (Z.eqb_sym x c)). split.
    - destruct (accepts c x) eqn:E; [|done]. intros H. apply IH in H; [eauto|unfold ltof; cbn; lia].
    - intros (y & t' & [= <- <-] & -> & H). apply IH; [unfold ltof; cbn; lia|done]. }
  destruct re as [|s re]; cbn [matchhere].
  - destruct (Z.eqb_spec c dollar) as [->|Hc]; [|apply Hone; [done|by intros]].
    unfold found. cbn. split; [destruct text; [|done]; by exists [], []|].
    intros (mid & post & -> & -> & Hp). by rewrite Hp.
  - destruct (Z.eqb_spec s star) as [->|Hs]; [|apply Hone; [by intros ?? [= <- <-]|done]].
    rewrite matchstar_spec. unfold found. cbn [atoms]. rewrite Z.eqb_refl. cbn [fst snd lang]. split.
    + intros (u & t & -> & Hu & H). apply IH in H as (mid & post & -> & Hl & Hp); [|unfold ltof; cbn; lia].
      exists (u ++ mid), post. split_and!; [by rewrite app_assoc| |done]. eauto.
    + intros (mid & post & -> & (u & t & -> & Hu & Hl) & Hp). exists u, (t ++ post). split_and!; [by rewrite app_assoc|done|].
      apply IH; [unfold ltof; cbn; lia|]. exists t, post. done.
Qed.

Lemma match_loop_spec re text : match_loop re text = true <-> exists pre t, text = pre ++ t /\ found re t.
Proof.
  induction text as [|x text IH]; cbn [match_loop]; rewrite orb_true_iff, matchhere_spec.
  - split; [intros [H|H]; [by exists [], []|done]|]. intros ([|??] & [|??] & E & H); try done. by left.
  - rewrite IH. split.
    + intros [H|(pre & t & -> & H)]; [by exists [], (x :: text)|by exists (x :: pre), t].
    + intros ([|y pre] & t & E & H); [left; by rewrite E|right]. injection E as <- ->. eauto.
Qed.

Lemma match_line_found re text : match_line re text = true <->
  match re with
  | c :: re' => if c =? hat then found re' text else exists pre t, text = pre ++ t /\ found re t
  | [] => exists pre t, text = pre ++ t /\ found re t
  end.
Proof.
  unfold match_line. destruct re as [|c re]; [apply match_loop_spec|].
  destruct (c =? hat); [apply matchhere_spec|apply match_loop_spec].
Qed.

(** ** Lines *)

(** The complete lines of a text, and what follows the last newline. *)
Fixpoint cut (l : list Z) : list (list Z) * list Z :=
  match l with
  | [] => ([], [])
  | c :: l =>
      let (ls, r) := cut l in
      if c =? NL then ([] :: ls, r)
      else match ls with
           | [] => ([], c :: r)
           | x :: ls => ((c :: x) :: ls, r)
           end
  end.

Definition with_nl (x : list Z) : list Z := x ++ [NL].

(** What is printed for a text. *)
Definition selected (pattern text : list Z) : list (list Z) :=
  with_nl <$> filter (fun x => match_line pattern x = true) (fst (cut text)).

Lemma cut_line x l : NL ∉ x -> cut (x ++ NL :: l) = (x :: fst (cut l), snd (cut l)).
Proof.
  induction x as [|c x IH]; intros Hx; cbn [app cut].
  - rewrite Z.eqb_refl. by destruct (cut l).
  - rewrite IH by set_solver. rewrite (proj2 (Z.eqb_neq c NL)) by set_solver. done.
Qed.

Lemma cut_end r : NL ∉ r -> cut r = ([], r).
Proof.
  induction r as [|c r IH]; intros Hr; [done|]. cbn [cut]. rewrite IH by set_solver.
  by rewrite (proj2 (Z.eqb_neq c NL)) by set_solver.
Qed.

(** A text is its first line and the rest, or has no newline. *)
Lemma first_line l : (exists x l', l = x ++ NL :: l' /\ NL ∉ x) \/ NL ∉ l.
Proof.
  destruct (decide (NL ∈ l)) as [H|H]; [left|by right].
  apply list_elem_of_split_l in H as (x & l' & -> & Hx). eauto.
Qed.

Lemma cut_app a b : cut (a ++ b) = (fst (cut a) ++ fst (cut (snd (cut a) ++ b)), snd (cut (snd (cut a) ++ b))).
Proof.
  induction a as [a IH] using (induction_ltof1 _ (@length Z)). destruct (first_line a) as [(x & l & -> & Hx)|Ha].
  - rewrite <- app_assoc. cbn [app]. rewrite !cut_line by done. cbn [fst snd].
    rewrite IH by (unfold ltof; rewrite length_app; cbn; lia). done.
  - rewrite (cut_end a) by done. cbn [fst snd app]. by destruct (cut (a ++ b)).
Qed.

Lemma cut_prefix x c : NL ∉ x -> NL ∈ c -> snd (cut (x ++ c)) = snd (cut c).
Proof.
  intros Hx Hc. destruct (first_line c) as [(y & l & -> & Hy)|?]; [|done].
  rewrite app_assoc, !cut_line by set_solver. done.
Qed.

Lemma cut_split l : exists x, l = x ++ snd (cut l) /\ (NL ∈ l -> x <> []).
Proof.
  induction l as [l IH] using (induction_ltof1 _ (@length Z)). destruct (first_line l) as [(x & l' & -> & Hx)|Hl].
  - rewrite cut_line by done. cbn [snd]. destruct (IH l') as (y & Hy & _); [unfold ltof; rewrite length_app; cbn; lia|].
    exists (x ++ NL :: y). split; [rewrite <- app_assoc; cbn; by rewrite <- Hy|]. intros _. by destruct x.
  - rewrite cut_end by done. by exists [].
Qed.

Lemma selected_app pattern a b :
  selected pattern (a ++ b) = selected pattern a ++ selected pattern (snd (cut a) ++ b).
Proof. unfold selected. rewrite cut_app. cbn [fst]. by rewrite filter_app, fmap_app. Qed.

(** ** [grep] prints the selected lines *)

Lemma strchr_found m p x l fuel : holds m p (x ++ NL :: l) -> NL ∉ x -> Forall (.≠ 0) x -> (length x < fuel)%nat ->
  strchr m p NL fuel = Some (p + Z.of_nat (length x)).
Proof.
  revert p fuel. induction x as [|c x IH]; intros p fuel Hm Hx Hz Hf; (destruct fuel as [|fuel]; [cbn in Hf; lia|]); cbn [strchr app] in *;
    apply holds_cons in Hm as [-> Hm].
  - cbn. f_equal. lia.
  - apply Forall_cons in Hz as [Hc Hz]. rewrite !(proj2 (Z.eqb_neq c _)) by (done || set_solver).
    rewrite IH; [f_equal; cbn; lia|done|set_solver|done|cbn in Hf; lia].
Qed.

Lemma strchr_none m p x fuel : holds m p (x ++ [0]) -> NL ∉ x -> Forall (.≠ 0) x -> (length x < fuel)%nat ->
  strchr m p NL fuel = Some 0.
Proof.
  revert p fuel. induction x as [|c x IH]; intros p fuel Hm Hx Hz Hf; (destruct fuel as [|fuel]; [cbn in Hf; lia|]); cbn [strchr app] in *;
    apply holds_cons in Hm as [-> Hm]; [done|].
  apply Forall_cons in Hz as [Hc Hz]. rewrite !(proj2 (Z.eqb_neq c _)) by (done || set_solver).
  apply IH; [done|set_solver|done|cbn in Hf; lia].
Qed.

Lemma cstrn_holds m p x n : holds m p (x ++ [0]) -> Forall (.≠ 0) x -> (length x < n)%nat -> cstrn m p n = x.
Proof.
  revert p n. induction x as [|c x IH]; intros p n Hm Hz Hn; (destruct n as [|n]; [cbn in Hn; lia|]); cbn [cstrn app] in *;
    apply holds_cons in Hm as [-> Hm]; [done|].
  apply Forall_cons in Hz as [Hc Hz]. rewrite (proj2 (Z.eqb_neq c _)) by done. f_equal. apply IH; [done|done|cbn in Hn; lia].
Qed.

Lemma holds_poke_off m p bs a cs : holds m p bs -> a + Z.of_nat (length cs) <= p \/ p + Z.of_nat (length bs) <= a ->
  holds (poke m a cs) p bs.
Proof.
  intros H Ha j b Hj. pose proof (lookup_lt_Some _ _ _ Hj). rewrite <- (H j b Hj). unfold poke. addr_cases.
Qed.

(** What [grep] writes for the lines. *)
Definition printed (ls : list (list Z)) : list (Z * list Z) := (fun x => (1, x)) <$> ls.

Section Lines.
Context (pattern : list Z).

(** One line: it is printed if it matches, and the rest is untouched. *)
Lemma grep_line_run {B} p x l s (k : UM B) (Q : B -> ust -> Prop) :
  holds (umem s) p (x ++ NL :: l ++ [0]) -> Forall (.≠ 0) x -> (length x < 1024)%nat ->
  (forall m', holds m' (p + Z.of_nat (length x) + 1) (l ++ [0]) ->
     wp k (mkust m' (uin s) (uend s)
       (uout s ++ printed (if match_line pattern x then [with_nl x] else []))) Q) ->
  wp (store (p + Z.of_nat (length x)) [0] ;;
      let! s := get in
      (if match_line pattern (cstrn (umem s) p (Z.to_nat BUFSIZE))
       then store (p + Z.of_nat (length x)) [NL] ;; write 1 p (p + Z.of_nat (length x) + 1 - p) else ret tt) ;; k) s Q.
Proof.
  intros Hm Hz Hl HQ. set (q := p + Z.of_nat (length x)) in *.
  apply holds_app in Hm as [Hx Hr]. apply holds_cons in Hr as [_ Hr]. fold q in Hr.
  apply wp_bind, wp_modify, wp_bind, wp_gets. cbn [umem set_umem]. apply wp_bind.
  assert (holds (poke (umem s) q [0]) p (x ++ [0])) as Hx0.
  { apply holds_app. split; [apply holds_poke_off; [done|subst q; cbn; lia]|apply holds_poke]. }
  rewrite (cstrn_holds _ _ x) by (done || (unfold BUFSIZE; lia)).
  destruct (match_line pattern x).
  - apply wp_bind, wp_modify, wp_modify. unfold emitted, set_umem. cbn [umem uin uend uout].
    assert (holds (poke (poke (umem s) q [0]) q [NL]) p (with_nl x)) as Hx1.
    { apply holds_app in Hx0 as [Hx0 _]. apply holds_app. split; [apply holds_poke_off; [done|subst q; cbn; lia]|apply holds_poke]. }
    replace (q + 1 - p) with (Z.of_nat (length (with_nl x))) by (unfold with_nl; rewrite length_app; subst q; cbn; lia).
    rewrite (peek_holds _ _ _ Hx1). apply HQ. do 2 (apply holds_poke_off; [|cbn; lia]). done.
  - apply wp_ret. unfold set_umem. rewrite <- (app_nil_r (uout s)). apply (HQ (poke (umem s) q [0])).
    apply holds_poke_off; [done|cbn; lia].
Qed.

Lemma grep_lines_run : forall text p s fuel (Q : Z -> ust -> Prop),
  holds (umem s) p (text ++ [0]) -> Forall (.≠ 0) text -> (length text < 1024)%nat -> (length text < fuel)%nat -> 0 < p ->
  (forall m', let r := snd (cut text) in
     holds m' (p + Z.of_nat (length text - length r)) (r ++ [0]) ->
     Q (p + Z.of_nat (length text - length r))
       (mkust m' (uin s) (uend s) (uout s ++ printed (selected pattern text)))) ->
  wp (grep_lines fuel pattern p) s Q.
Proof.
  intros text. induction text as [text IH] using (induction_ltof1 _ (@length Z)). intros p s fuel Q Hm Hz Hl Hf Hp HQ.
  destruct fuel as [|fuel]; [lia|]. cbn [grep_lines]. apply wp_bind, wp_gets.
  destruct (first_line text) as [(x & l & -> & Hx)|Ht].
  - apply Forall_app in Hz as [Hzx [_ Hzl]%Forall_cons]. rewrite length_app in Hl, Hf. cbn [length] in Hl, Hf.
    rewrite <- app_assoc in Hm. cbn [app] in Hm.
    rewrite (strchr_found _ _ x (l ++ [0])) by (done || (unfold BUFSIZE; lia)). cbn [deref]. apply wp_bind, wp_ret.
    rewrite (proj2 (Z.eqb_neq _ _)) by lia.
    apply (grep_line_run p x l); [done|done|lia|]. intros m' Hm'.
    apply (IH l); [unfold ltof; rewrite length_app; cbn; lia|done|done|lia|lia|lia|].
    cbn [umem uin uend uout]. intros m'' H''. set (r := snd (cut l)) in *. unfold selected in HQ. rewrite cut_line in HQ by done. cbn [fst snd] in HQ.
    rewrite length_app in HQ. cbn [length] in HQ. fold r in HQ.
    assert (length r <= length l)%nat as Hr by (subst r; destruct (cut_split l) as (y & Hy & _); rewrite Hy at 2; rewrite length_app; lia).
    replace (p + Z.of_nat (length x + S (length l) - length r)) with (p + Z.of_nat (length x) + 1 + Z.of_nat (length l - length r)) in HQ by lia.
    specialize (HQ m'' H''). rewrite <- app_assoc. unfold printed in *. rewrite <- fmap_app.
    destruct (match_line pattern x) eqn:E; [rewrite filter_cons_True in HQ by done|rewrite filter_cons_False in HQ by (by rewrite E)];
      exact HQ.
  - rewrite (strchr_none _ _ text) by (done || (unfold BUFSIZE; lia)). cbn [deref]. apply wp_bind, wp_ret. cbn. apply wp_ret.
    specialize (HQ (umem s)). unfold selected in HQ. rewrite cut_end in HQ by done. cbn [fst snd] in HQ.
    rewrite Nat.sub_diag, Z.add_0_r in HQ. change (printed (with_nl <$> filter _ [])) with (@nil (Z * list Z)) in HQ.
    rewrite app_nil_r in HQ. destruct s. by apply HQ.
Qed.

End Lines.

(** Reads that fit the buffer and each bring the end of a line; [left]: what the
    buffer still holds of an unfinished line. *)
Fixpoint whole (left : list Z) (cs : list (list Z)) : Prop :=
  match cs with
  | [] => True
  | c :: cs => NL ∈ c /\ (length left + length c < 1024)%nat /\ Forall (.≠ 0) c /\ whole (snd (cut (left ++ c))) cs
  end.

Lemma cut_rest l : (NL ∉ snd (cut l)) /\ (Forall (.≠ 0) l -> Forall (.≠ 0) (snd (cut l))).
Proof.
  induction l as [l IH] using (induction_ltof1 _ (@length Z)). destruct (first_line l) as [(x & l' & -> & Hx)|Hl].
  - rewrite cut_line by done. cbn [snd]. destruct (IH l') as [H1 H2]; [unfold ltof; rewrite length_app; cbn; lia|].
    split; [done|]. intros [_ [_ H]%Forall_cons]%Forall_app. by apply H2.
  - by rewrite cut_end by done.
Qed.

Lemma holds_copy m p r buf : holds m p r -> buf <= p -> holds (memmove m buf p (Z.of_nat (length r))) buf r.
Proof.
  intros H Hb j b Hj. pose proof (lookup_lt_Some _ _ _ Hj). rewrite <- (H j b Hj).
  unfold memmove. rewrite Nat2Z.id, copy_up_spec by lia. addr_cases.
Qed.

Lemma grep_loop_run buf pattern fd : 0 < buf -> forall cs left s fuel,
  uin s fd = cs -> uend s fd <= 0 -> whole left cs -> holds (umem s) buf left -> Forall (.≠ 0) left -> NL ∉ left ->
  (length cs < fuel)%nat ->
  wp (grep_loop buf fuel pattern fd (Z.of_nat (length left))) s (fun _ s' =>
    uout s' = uout s ++ printed (selected pattern (left ++ mjoin cs))).
Proof.
  intros Hb. induction cs as [|c cs IH]; intros left s fuel Hin He Hw Hm Hz Hn Hf; (destruct fuel as [|fuel]; [lia|]); cbn [grep_loop].
  - apply wp_bind. unfold read, read_bytes. apply wp_bind, wp_bind, wp_gets. rewrite Hin. apply wp_ret, wp_bind, wp_modify, wp_ret.
    rewrite (proj2 (Z.leb_le _ _)) by done. apply wp_ret. cbn [uout set_umem]. unfold selected.
    cbn [mjoin]. rewrite app_nil_r, cut_end by done. cbn. by rewrite app_nil_r.
  - cbn [whole] in Hw. destruct Hw as (HNL & Hlen & Hzc & Hw).
    assert (c <> []) as Hc by (intros ->; set_solver). assert (0 < length c)%nat as Hc0 by (destruct c; [done|cbn; lia]).
    apply wp_bind. unfold read, read_bytes. apply wp_bind, wp_bind, wp_gets. rewrite Hin.
    rewrite take_ge, drop_ge by (unfold BUFSIZE; lia). apply wp_bind, wp_modify, wp_ret, wp_bind, wp_modify, wp_ret.
    rewrite (proj2 (Z.leb_gt _ _)) by lia. cbn [umem uin uend uout set_umem set_uin].
    apply wp_bind, wp_modify, wp_bind. cbn [umem uin uend uout set_umem set_uin]. set (text := left ++ c).
    assert (holds (poke (poke (umem s) (buf + Z.of_nat (length left)) c) (buf + (Z.of_nat (length left) + Z.of_nat (length c))) [0])
              buf (text ++ [0])) as Ht.
    { apply holds_app. split; [|subst text; rewrite length_app, Nat2Z.inj_add; apply holds_poke].
      apply holds_poke_off; [|right; subst text; rewrite length_app; lia]. apply holds_app.
      split; [apply holds_poke_off; [done|lia]|apply holds_poke]. }
    destruct (cut_split text) as (x & Hx & Hxne). destruct (cut_rest text) as [Hrn Hrz]. set (r := snd (cut text)) in *.
    assert (x <> []) as Hx0 by (apply Hxne; subst text; set_solver). assert (0 < length x)%nat by (destruct x; [done|cbn; lia]).
    assert (length text = length x + length r)%nat as Hlt by (rewrite Hx at 1; apply length_app).
    assert (length text = length left + length c)%nat as Hlc by apply length_app.
    apply (grep_lines_run pattern text); [done|by apply Forall_app|lia|unfold BUFSIZE; lia|done|].
    intros m' r' Hm'. subst r'. fold r in Hm' |- *. rewrite (proj2 (Z.eqb_neq _ buf)) by lia.
    rewrite (proj2 (Z.ltb_lt _ _)) by lia. apply wp_bind, wp_modify. cbn [umem uin uend uout set_umem set_uin].
    replace (Z.of_nat (length left) + Z.of_nat (length c) - (buf + Z.of_nat (length text - length r) - buf)) with (Z.of_nat (length r)) by lia.
    apply holds_app in Hm' as [Hm' _].
    eapply wp_mono; [apply (IH r); cbn [umem uin uend uout set_umem set_uin]; [by rewrite Z.eqb_refl|done|done|apply holds_copy; [done|lia]|
      apply Hrz, Forall_app; done|done|cbn in Hf; lia]|].
    cbn [uout set_umem set_uin]. intros [] s' ->. rewrite <- app_assoc. f_equal. unfold printed. rewrite <- fmap_app. f_equal.
    subst r text. by rewrite <- selected_app, <- app_assoc.
Qed.

(** A read without a newline leaves nothing behind. *)
Lemma grep_skip buf pattern fd c cs s fuel (Q : unit -> ust -> Prop) : 0 < buf -> uin s fd = c :: cs ->
  c <> [] -> NL ∉ c -> (length c < 1024)%nat -> Forall (.≠ 0) c ->
  (forall m', wp (grep_loop buf fuel pattern fd 0) (mkust m' (fun d => if d =? fd then cs else uin s d) (uend s) (uout s)) Q) ->
  wp (grep_loop buf (S fuel) pattern fd 0) s Q.
Proof.
  intros Hb Hin Hc Hn Hl Hz HQ. assert (0 < length c)%nat by (destruct c; [done|cbn; lia]). cbn [grep_loop].
  apply wp_bind. unfold read, read_bytes. apply wp_bind, wp_bind, wp_gets. rewrite Hin.
  rewrite take_ge, drop_ge by (unfold BUFSIZE; lia). apply wp_bind, wp_modify, wp_ret, wp_bind, wp_modify, wp_ret.
  rewrite (proj2 (Z.leb_gt _ _)) by lia. cbn [umem uin uend uout set_umem set_uin].
  apply wp_bind, wp_modify, wp_bind. cbn [umem uin uend uout set_umem set_uin].
  apply (grep_lines_run pattern c); [|done|lia|unfold BUFSIZE; lia|done|].
  { cbn [umem set_umem]. rewrite !Z.add_0_l, Z.add_0_r. apply holds_app. split; [apply holds_poke_off; [apply holds_poke|lia]|apply holds_poke]. }
  intros m'. unfold selected. rewrite cut_end by done. cbn [fst snd]. intros _.
  rewrite Nat.sub_diag, Z.add_0_r, Z.eqb_refl. cbn [Z.ltb Z.compare]. apply wp_bind, wp_ret.
  change (printed (with_nl <$> filter _ [])) with (@nil (Z * list Z)). rewrite app_nil_r. apply HQ.
Qed.

Lemma whole_length left cs : whole left cs -> (length cs <= length (mjoin cs))%nat.
Proof.
  revert left. induction cs as [|c cs IH]; intros left H; [done|]. cbn [whole] in H. destruct H as (H & _ & _ & Hw).
  apply IH in Hw. change (mjoin (c :: cs)) with (c ++ mjoin cs). rewrite length_app. destruct c; [set_solver|cbn; lia].
Qed.

(** C29: the matcher accepts a line exactly when the pattern describes some part
    of it: a part in the language of the pattern's characters, dots and starred
    characters, at the beginning of the line if the pattern begins with ^, up to
    its end if it ends with $. *)
Theorem match_spec (re text : list Z) :
  match_line re text = true <->
  exists pre mid post, text = pre ++ mid ++ post /\
    let body := match re with c :: re' => if c =? hat then re' else re | [] => re end in
    lang (fst (atoms body)) mid /\ (snd (atoms body) = true -> post = []) /\ (hd 0 re = hat -> pre = []).
Proof.
  rewrite match_line_found. unfold found. destruct re as [|c re]; cbn [hd].
  - split; [|intros (pre & mid & post & -> & Hl & Hp & _); exists pre, (mid ++ post); split; [done|by exists mid, post]].
    intros (pre & t & -> & mid & post & -> & Hl & Hp). by exists pre, mid, post.
  - destruct (Z.eqb_spec c hat) as [->|Hc].
    + split; [intros (mid & post & -> & Hl & Hp); by exists [], mid, post|].
      intros (pre & mid & post & -> & Hl & Hp & Hpre). rewrite Hpre by done. by exists mid, post.
    + split; [|intros (pre & mid & post & -> & Hl & Hp & _); exists pre, (mid ++ post); split; [done|by exists mid, post]].
      intros (pre & t & -> & mid & post & -> & Hl & Hp). by exists pre, mid, post.
Qed.

(** [grep] prints exactly the lines of its input that match, each once, in
    order and with its newline, however the input is cut into reads, as long as
    every read fits the buffer beside the unfinished line that it still holds, and
    brings the end of a line. *)
Lemma grep_run (buf : Z) (pattern : list Z) (fd : Z) (s : ust)
    (Hbuf : 0 < buf) (Hend : uend s fd <= 0) (Hw : whole [] (uin s fd)) :
  exists s', grep buf pattern fd s = Ret tt s' /\
    uout s' = uout s ++ printed (selected pattern (mjoin (uin s fd))).
Proof.
  assert (wp (grep buf pattern fd) s (fun _ s' => uout s' = uout s ++ printed (selected pattern (mjoin (uin s fd))))) as W.
  { unfold grep. apply wp_bind, wp_gets. apply (grep_loop_run buf pattern fd Hbuf _ []); [done|done|done|by intros j b|constructor|set_solver|].
    pose proof (whole_length [] _ Hw). lia. }
  apply wp_exists in W as ([] & s' & E & H). eauto.
Qed.

Definition demo_input (cs : list (list Z)) : ust := mkust (fun _ => 0) (fun _ => cs) (fun _ => 0) [].

(** C37: when the first read [x] brings no newline, [grep] forgets it: whatever the
    pattern, it prints the lines of the text without [x], while the same text
    printed the lines with [x] had the first two reads been one. *)
Theorem grep_loses_partial_line (buf : Z) (pattern : list Z) (fd : Z) (s : ust) (x c : list Z) (cs : list (list Z))
    (Hbuf : 0 < buf) (Hend : uend s fd <= 0) (Hx : x <> []) (Hnl : NL ∉ x) (Hz : Forall (.≠ 0) x)
    (Hw : whole [] (c :: cs)) (Hlen : (length x + length c < 1024)%nat) :
  (uin s fd = x :: c :: cs -> exists s', grep buf pattern fd s = Ret tt s' /\
     uout s' = uout s ++ printed (selected pattern (mjoin (c :: cs)))) /\
  (uin s fd = (x ++ c) :: cs -> exists s', grep buf pattern fd s = Ret tt s' /\
     uout s' = uout s ++ printed (selected pattern (x ++ mjoin (c :: cs)))).
Proof.
  split; intros Hin.
  - assert (wp (grep buf pattern fd) s (fun _ s' => uout s' = uout s ++ printed (selected pattern (mjoin (c :: cs))))) as W.
    { unfold grep. apply wp_bind, wp_gets. rewrite Hin. change (mjoin (x :: c :: cs)) with (x ++ mjoin (c :: cs)). rewrite length_app.
      apply (grep_skip buf pattern fd x (c :: cs)); [done|done|done|done|lia|done|]. intros m'.
      set (s1 := mkust m' _ _ _). change (uout s) with (uout s1).
      apply (grep_loop_run buf pattern fd Hbuf (c :: cs) []); cbn [s1 uin uend umem]; [by rewrite Z.eqb_refl|done|done|by intros j b|constructor|set_solver|].
      pose proof (whole_length [] _ Hw). assert (length x <> 0)%nat by (by destruct x). lia. }
    apply wp_exists in W as ([] & s' & E & H). eauto.
  - destruct (grep_run buf pattern fd s Hbuf Hend) as (s' & E & H).
    { rewrite Hin. destruct Hw as (HNL & _ & Hc & Hw). split_and!; [set_solver|rewrite length_app; cbn; lia|by apply Forall_app|].
      cbn [app] in Hw |- *. by rewrite cut_prefix. }
    exists s'. split; [done|]. rewrite H, Hin. change (mjoin ((x ++ c) :: cs)) with ((x ++ c) ++ mjoin cs). by rewrite <- app_assoc.
Qed.

(** "ab" in two reads is lost, in one it is found. *)
Lemma grep_loses_partial_line_witness :
  exists s', grep 4096 [97; 98] 0 (demo_input [[97]; [98; 10]]) = Ret tt s' /\ uout s' = [].
Proof.
  destruct (grep_loses_partial_line 4096 [97; 98] 0 (demo_input [[97]; [98; 10]]) [97] [98; 10] []) as [H _].
  - reflexivity.
  - discriminate.
  - discriminate.
  - unfold NL. set_solver.
  - repeat constructor; discriminate.
  - split_and!; [unfold NL; set_solver|cbn; lia|repeat constructor; discriminate|exact I].
  - cbn. lia.
  - destruct (H eq_refl) as (s' & E & H'). exists s'. split; [exact E|]. rewrite H'. reflexivity.
Defined.
