(* ===== verification/Tools.v ===== *)
(** * Counting and copying ([wc.c], [cat.c])

    The loops of two filters over any sequence of reads. *)
From S2P Require Import Prelude Str Ulib.

Definition TBUF : Z := 512.

(** [strchr(" \r\t\n\v", c)]. *)
Definition blank (c : Z) : bool := bool_decide (c ∈ [32; 13; 9; 10; 11]).

(** [l], [w], [c] and [inword]. *)
Record counts := mkcounts { nl : Z; nw : Z; nc : Z; inword : Z }.

(** One turn of [for(i=0; i<n; i++)]. *)
Definition count_byte (k : counts) (b : Z) : counts :=
  let c := s32 (nc k + 1) in
  let l := if b =? 10 then s32 (nl k + 1) else nl k in
  if blank b then mkcounts l (nw k) c 0
  else if inword k =? 0 then mkcounts l (s32 (nw k + 1)) c 1
  else mkcounts l (nw k) c (inword k).

Section Tools.
(** The address of [buf], and a bound on the strings that are printed. *)
Context (buf : Z) (n : nat).

Fixpoint wc_loop (fuel : nat) (fd : Z) (k : counts) : UM (Z * counts) :=
  match fuel with
  | O => fault "fuel"
  | S f =>
      let! r := read fd buf TBUF in
      if 0 <? r then
        let! s := get in
        wc_loop f fd (foldl count_byte k (peek (umem s) buf r))
      else ret (r, k)
  end.

(** "wc: read error\n" and "%d %d %d %s\n". *)
Definition wc_error : list Z := [119; 99; 58; 32; 114; 101; 97; 100; 32; 101; 114; 114; 111; 114; 10].
Definition wc_line : list Z := [37; 100; 32; 37; 100; 32; 37; 100; 32; 37; 115; 10].

Definition wc (fd name : Z) : UM unit :=
  let! s := get in
  let! (r, k) := wc_loop (S (length (mjoin (uin s fd)))) fd (mkcounts 0 0 0 0) in
  if r <? 0 then printf n 1 wc_error [] ;; exit_prog
  else printf n 1 wc_line [nl k; nw k; nc k; name].

(** [wr]: what [write] answers. *)
Fixpoint cat_loop (fuel : nat) (wr : Z -> Z) (fd : Z) : UM Z :=
  match fuel with
  | O => fault "fuel"
  | S f =>
      let! r := read fd buf TBUF in
      if 0 <? r then
        write 1 buf r ;;
        if negb (wr r =? r) then
          printf n 1 [99; 97; 116; 58; 32; 119; 114; 105; 116; 101; 32; 101; 114; 114; 111; 114; 10] [] ;; exit_prog
        else cat_loop f wr fd
      else ret r
  end.

Definition cat (wr : Z -> Z) (fd : Z) : UM unit :=
  let! s := get in
  let! r := cat_loop (S (length (mjoin (uin s fd)))) wr fd in
  if r <? 0 then
    printf n 1 [99; 97; 116; 58; 32; 114; 101; 97; 100; 32; 101; 114; 114; 111; 114; 10] [] ;; exit_prog
  else ret tt.

End Tools.

(** ** Reading everything *)

(** No read is empty before the end. *)
Definition steady (cs : list (list Z)) : Prop := Forall (.≠ []) cs.

Lemma read_step buf fd s (Q : Z -> ust -> Prop) c cs :
  uin s fd = c :: cs -> steady (c :: cs) ->
  (forall x s', x <> [] -> x ++ mjoin (uin s' fd) = mjoin (c :: cs) -> steady (uin s' fd) -> uend s' = uend s ->
     uout s' = uout s -> peek (umem s') buf (Z.of_nat (length x)) = x -> Q (Z.of_nat (length x)) s') ->
  wp (read fd buf TBUF) s Q.
Proof.
  intros Hin [Hc Hst]%Forall_cons HQ. unfold read, read_bytes. apply wp_bind, wp_bind, wp_gets. rewrite Hin.
  apply wp_bind, wp_modify, wp_ret, wp_bind, wp_modify, wp_ret. set (x := take _ c).
  apply (HQ x); [subst x; destruct c; [done|]; by unfold TBUF| | |done|done|].
  - cbn [uin set_umem set_uin]. rewrite Z.eqb_refl. transitivity (x ++ drop (Z.to_nat TBUF) c ++ mjoin cs).
    + f_equal. by destruct (drop _ c).
    + rewrite app_assoc. subst x. by rewrite take_drop.
  - cbn [uin set_umem set_uin]. rewrite Z.eqb_refl. destruct (drop _ c) eqn:E; [done|]. by constructor.
  - cbn [umem set_umem]. apply peek_holds, holds_poke.
Qed.

Lemma read_done buf fd s (Q : Z -> ust -> Prop) : uin s fd = [] ->
  (forall s', uout s' = uout s -> Q (uend s fd) s') -> wp (read fd buf TBUF) s Q.
Proof.
  intros Hin HQ. unfold read, read_bytes. apply wp_bind, wp_bind, wp_gets. rewrite Hin.
  by apply wp_ret, wp_bind, wp_modify, wp_ret, HQ.
Qed.

(** ** What [wc] counts *)

(** The words of a text: the longest runs without blanks. *)
Fixpoint words_of (l : list Z) : list (list Z) :=
  match l with
  | [] => []
  | c :: l =>
      let ws := words_of l in
      if blank c then ws
      else match l with
           | [] => [[c]]
           | d :: _ => if blank d then [c] :: ws else match ws with w :: ws => (c :: w) :: ws | [] => [[c]] end
           end
  end.

Definition newlines (l : list Z) : Z := Z.of_nat (length (filter (fun c => c = 10) l)).

Definition last_blank (l : list Z) : bool := match last l with Some c => blank c | None => true end.

Lemma words_snoc l b : length (words_of (l ++ [b])) =
  if blank b then length (words_of l) else if last_blank l then S (length (words_of l)) else length (words_of l).
Proof.
  induction l as [|c l IH]; [cbn; by destruct (blank b)|]. destruct l as [|d l].
  - cbn. destruct (blank c), (blank b) eqn:Eb; cbn; rewrite ?Eb; done.
  - change (last_blank (c :: d :: l)) with (last_blank (d :: l)).
    assert (forall l', length (words_of (c :: d :: l')) =
      if blank c then length (words_of (d :: l'))
      else if blank d then S (length (words_of (d :: l'))) else length (words_of (d :: l'))) as E.
    { intros l'. cbn [words_of]. destruct (blank c); [done|]. destruct (blank d) eqn:Ed; [done|].
      destruct l' as [|e l']; [done|]. destruct (blank e); [done|]. by destruct (words_of (e :: l')). }
    cbn [app]. rewrite !E. cbn [app] in IH. rewrite IH. by destruct (blank c), (blank d), (blank b), (last_blank (d :: l)).
Qed.

Definition counts_of (l : list Z) : counts :=
  mkcounts (newlines l) (Z.of_nat (length (words_of l))) (Z.of_nat (length l)) (if last_blank l then 0 else 1).

Lemma words_le l : (length (words_of l) <= length l)%nat.
Proof.
  induction l as [|b l IH] using rev_ind; [done|]. rewrite words_snoc, length_app. cbn. destruct (blank b), (last_blank l); lia.
Qed.

Lemma newlines_le l : 0 <= newlines l <= Z.of_nat (length l).
Proof. unfold newlines. pose proof (length_filter (fun c => c = 10) l). lia. Qed.

Lemma count_bytes l : forall pre, Z.of_nat (length (pre ++ l)) < 2147483648 ->
  foldl count_byte (counts_of pre) l = counts_of (pre ++ l).
Proof.
  induction l as [|b l IH]; intros pre H; [by rewrite app_nil_r|]. cbn [foldl].
  replace (pre ++ b :: l) with ((pre ++ [b]) ++ l) in H |- * by (by rewrite <- app_assoc).
  rewrite <- IH by done. f_equal. clear IH. rewrite !length_app in H. cbn [length] in H. pose proof (words_le pre). pose proof (newlines_le pre).
  unfold count_byte, counts_of. cbn [nl nw nc inword].
  rewrite words_snoc, length_app, !s32_small by lia. unfold last_blank at 4. rewrite last_snoc. cbn [length].
  assert (newlines (pre ++ [b]) = if b =? 10 then newlines pre + 1 else newlines pre) as ->.
  { unfold newlines. rewrite filter_app, length_app. destruct (Z.eqb_spec b 10).
    - rewrite filter_cons_True by done. cbn. lia.
    - rewrite filter_cons_False by done. cbn. lia. }
  destruct (blank b); [f_equal; lia|]. destruct (last_blank pre); cbn [Z.eqb]; f_equal; lia.
Qed.

Lemma wc_loop_run buf fd : forall fuel pre s,
  steady (uin s fd) -> Z.of_nat (length (pre ++ mjoin (uin s fd))) < 2147483648 -> uend s fd <= 0 ->
  (length (mjoin (uin s fd)) < fuel)%nat ->
  wp (wc_loop buf fuel fd (counts_of pre)) s (fun rk s' => rk = (uend s fd, counts_of (pre ++ mjoin (uin s fd))) /\ uout s' = uout s).
Proof.
  induction fuel as [|fuel IH]; intros pre s Hst Hlen He Hf; [lia|]. cbn [wc_loop]. apply wp_bind.
  destruct (uin s fd) as [|c cs] eqn:Hin.
  - apply read_done; [done|]. intros s' Ho. rewrite (proj2 (Z.ltb_ge _ _)) by done. apply wp_ret.
    change (mjoin []) with (@nil Z). by rewrite app_nil_r.
  - apply (read_step _ _ _ _ c cs); [done|done|]. intros x s' Hx Hm Hst' He' Ho Hp.
    assert (0 < length x)%nat by (destruct x; [done|cbn; lia]). rewrite (proj2 (Z.ltb_lt _ _)) by lia.
    apply wp_bind, wp_gets. rewrite Hp. rewrite <- Hm in Hlen, Hf |- *. rewrite length_app, length_app in Hlen. rewrite length_app in Hf.
    rewrite count_bytes by (rewrite length_app; lia). eapply wp_mono; [apply IH; [done|rewrite !length_app; lia|by rewrite He'|lia]|].
    intros rk s2 [-> ->]. by rewrite He', app_assoc.
Qed.

(** [wc] prints the number of newlines, of words and of bytes of its whole
    input, however it is cut into reads; a word is a longest run without blanks,
    also when it spans several reads. *)
Theorem wc_counts (buf : Z) (n : nat) (fd name : Z) (s : ust) (Hst : steady (uin s fd))
    (Hlen : Z.of_nat (length (mjoin (uin s fd))) < 2147483648) (Hend : uend s fd = 0) :
  let text := mjoin (uin s fd) in
  exists s1, wc buf n fd name s =
      printf n 1 wc_line [newlines text; Z.of_nat (length (words_of text)); Z.of_nat (length text); name] s1 /\
    uout s1 = uout s.
Proof.
  intros text. assert (W := wc_loop_run buf fd (S (length text)) [] s Hst Hlen ltac:(lia) ltac:(subst text; lia)).
  apply wp_exists in W as (rk & s1 & E & -> & Ho). exists s1. split; [|done].
  unfold wc, bind at 1, get. unfold bind at 1. change (mkcounts 0 0 0 0) with (counts_of []). fold text. rewrite E, Hend. done.
Qed.

Lemma cat_loop_run buf n fd wr : (forall r, wr r = r) -> forall fuel s,
  steady (uin s fd) -> uend s fd <= 0 -> (length (mjoin (uin s fd)) < fuel)%nat ->
  wp (cat_loop buf n fuel wr fd) s (fun r s' => r = uend s fd /\ written 1 (uout s') = written 1 (uout s) ++ mjoin (uin s fd)).
Proof.
  intros Hwr. induction fuel as [|fuel IH]; intros s Hst He Hf; [lia|]. cbn [cat_loop]. apply wp_bind.
  destruct (uin s fd) as [|c cs] eqn:Hin.
  - apply read_done; [done|]. intros s' Ho. rewrite (proj2 (Z.ltb_ge _ _)) by done. apply wp_ret.
    change (mjoin []) with (@nil Z). rewrite app_nil_r. by rewrite Ho.
  - apply (read_step _ _ _ _ c cs); [done|done|]. intros x s' Hx Hm Hst' He' Ho Hp.
    assert (0 < length x)%nat by (destruct x; [done|cbn; lia]). rewrite (proj2 (Z.ltb_lt _ _)) by lia.
    apply wp_bind, wp_modify. rewrite Hwr, Z.eqb_refl. cbn [negb]. rewrite <- Hm in Hf |- *. rewrite length_app in Hf.
    eapply wp_mono; [apply IH; cbn [uin uend emitted]; [done|by rewrite He'|lia]|]. cbn [uin uend uout emitted].
    intros r s2 [-> ->]. rewrite He', output_app, written_one, Hp, Ho, app_assoc. done.
Qed.

(** [cat] copies its whole input, however it is cut into reads. *)
Theorem cat_copies (buf : Z) (n : nat) (wr : Z -> Z) (fd : Z) (s : ust) (Hwr : forall r, wr r = r)
    (Hst : steady (uin s fd)) (Hend : uend s fd = 0) :
  exists s', cat buf n wr fd s = Ret tt s' /\ written 1 (uout s') = written 1 (uout s) ++ mjoin (uin s fd).
Proof.
  assert (W := cat_loop_run buf n fd wr Hwr (S (length (mjoin (uin s fd)))) s Hst ltac:(lia) ltac:(lia)).
  apply wp_exists in W as (r & s' & E & -> & Ho). exists s'. split; [|done].
  unfold cat, bind at 1, get. unfold bind at 1. rewrite E, Hend. done.
Qed.
