(* ===== verification/Progs.v ===== *)
(** * Small programs ([echo.c], [kill.c], [ln.c], [mkdir.c], [rm.c], [ls.c], [ps] of
    [ulib.c], and [main] of [cat.c], [wc.c] and [grep.c])

    The system calls that the programs make are arguments.  A program that calls
    [exit] returns. *)
From S2P Require Import Prelude Str Ulib Tools Grep.

(** The bytes of a format. *)
Definition bytes_of (s : string) : list Z := (fun a => Z.of_N (Ascii.N_of_ascii a)) <$> String.list_ascii_of_string s.

Section Programs.
(** The longest string that is printed or scanned. *)
Context (n : nat).

(** [argv] without its null pointer; [blank_s] and [newline_s]: the addresses of
    the two strings. *)
Fixpoint echo_loop (blank_s newline_s : Z) (args : list Z) : UM unit :=
  match args with
  | [] => ret tt
  | a :: args =>
      printf n 1 (bytes_of "%s%s") [a; match args with [] => newline_s | _ => blank_s end] ;;
      echo_loop blank_s newline_s args
  end.

Definition echo_main (blank_s newline_s : Z) (argv : list Z) : UM unit := echo_loop blank_s newline_s (tail argv).

Definition kill_main (kill : Z -> UM unit) (argv : list Z) : UM unit :=
  if (length argv <? 2)%nat then printf n 2 (bytes_of "usage: kill pid..." ++ [10]) []
  else for_each (tail argv) (fun a => let! s := get in let! pid := deref (atoi (umem s) a n) in kill pid).

Definition ln_main (link : Z -> Z -> UM Z) (argv : list Z) : UM unit :=
  match argv with
  | [_; old; new] =>
      let! r := link old new in
      when (r <? 0) (printf n 2 (bytes_of "link %s %s: failed" ++ [10]) [old; new])
  | _ => printf n 2 (bytes_of "Usage: ln old new" ++ [10]) []
  end.

(** The loops of [mkdir.c] and [rm.c], which stop at the first failure. *)
Fixpoint each_until (call : Z -> UM Z) (msg : list Z) (args : list Z) : UM unit :=
  match args with
  | [] => ret tt
  | a :: args =>
      let! r := call a in
      if r <? 0 then printf n 2 msg [a] else each_until call msg args
  end.

Definition mkdir_main (mkdir : Z -> UM Z) (argv : list Z) : UM unit :=
  if (length argv <? 2)%nat then printf n 2 (bytes_of "Usage: mkdir files..." ++ [10]) []
  else each_until mkdir (bytes_of "mkdir: %s failed to create" ++ [10]) (tail argv).

Definition rm_main (unlink : Z -> UM Z) (argv : list Z) : UM unit :=
  if (length argv <? 2)%nat then printf n 2 (bytes_of "Usage: rm files..." ++ [10]) []
  else each_until unlink (bytes_of "rm: %s failed to delete" ++ [10]) (tail argv).

(** ** Filters and their files *)

(** [for(i = ..; i < argc; i++)] over the files of [cat], [wc] and [grep]. *)
Fixpoint each_file (open : Z -> UM Z) (close : Z -> UM unit) (msg : list Z) (run : Z -> Z -> UM unit) (args : list Z) : UM unit :=
  match args with
  | [] => ret tt
  | a :: args =>
      let! fd := open a in
      if fd <? 0 then printf n 1 msg [a]
      else run fd a ;; close fd ;; each_file open close msg run args
  end.

Definition cat_main (buf : Z) (wr : Z -> Z) (open : Z -> UM Z) (close : Z -> UM unit) (argv : list Z) : UM unit :=
  if (length argv <=? 1)%nat then cat buf n wr 0
  else each_file open close (bytes_of "cat: cannot open %s" ++ [10]) (fun fd _ => cat buf n wr fd) (tail argv).

(** [empty_s]: the address of the empty string. *)
Definition wc_main (buf empty_s : Z) (open : Z -> UM Z) (close : Z -> UM unit) (argv : list Z) : UM unit :=
  if (length argv <=? 1)%nat then wc buf n 0 empty_s
  else each_file open close (bytes_of "wc: cannot open %s" ++ [10]) (wc buf n) (tail argv).

(** [pattern]: the bytes of [argv[1]]. *)
Definition grep_main (buf : Z) (open : Z -> UM Z) (close : Z -> UM unit) (pattern : list Z) (argv : list Z) : UM unit :=
  match argv with
  | [] | [_] => printf n 2 (bytes_of "usage: grep pattern [file ...]" ++ [10]) []
  | [_; _] => grep buf pattern 0
  | _ :: _ :: files => each_file open close (bytes_of "grep: cannot open %s" ++ [10]) (fun fd _ => grep buf pattern fd) files
  end.

(** ** [ls.c] *)

Definition NAMELEN : Z := 14.

(** The character after the last slash. *)
Fixpoint find_slash (fuel : nat) (m : mem) (path p : Z) : option Z :=
  match fuel with
  | O => None
  | S k => if (path <=? p) && negb (m p =? 47) then find_slash k m path (p - 1) else Some (p + 1)
  end.

(** The address of the name and the memory after it; [buf] is static. *)
Definition fmtname (m : mem) (buf path : Z) : option (Z * mem) :=
  len ← Ulib.strlen m path n;
  p ← find_slash (n + 2) m path (path + len);
  l ← Ulib.strlen m p n;
  if NAMELEN <=? l then Some (p, m)
  else
    let m1 := Ulib.memmove m buf p l in
    l1 ← Ulib.strlen m1 p n;
    Some (buf, Ulib.memset m1 (buf + l1) 32 (NAMELEN - l1)).

Record ustat := mkustat { ust_type : Z; ust_ino : Z; ust_size : Z }.

(** [stat] of [ulib.c]: the result and what is stored at [st]. *)
Definition stat (open : Z -> UM Z) (fstat : Z -> UM (Z * ustat)) (close : Z -> UM unit) (path : Z) (st : ustat) : UM (Z * ustat) :=
  let! fd := open path in
  if fd <? 0 then ret (-1, st)
  else
    let! r := fstat fd in
    close fd ;;
    ret r.

Section Ls.
(** The system calls; the addresses of [fmtname]'s buffer, of [ls]'s and of [de]. *)
Context (open : Z -> UM Z) (fstat : Z -> UM (Z * ustat)) (close : Z -> UM unit) (nbuf buf de : Z).

Definition DE_SIZE : Z := 16.

(** [printf(1, "%s %d %d %d\n", fmtname(path), ..)]. *)
Definition ls_line (path : Z) (st : ustat) : UM unit :=
  let! s := get in
  let! (a, m) := deref (fmtname (umem s) nbuf path) in
  modify (set_umem m) ;;
  printf n 1 (bytes_of "%s %d %d %d" ++ [10]) [a; ust_type st; ust_ino st; ust_size st].

(** [p]: where the names go, behind the slash in [buf]. *)
Fixpoint ls_entries (fuel : nat) (fd p : Z) (st : ustat) : UM unit :=
  match fuel with
  | O => fault "fuel"
  | S k =>
      let! r := read fd de DE_SIZE in
      if negb (r =? DE_SIZE) then ret tt
      else
        let! s := get in
        if umem s de + 256 * umem s (de + 1) =? 0 then ls_entries k fd p st
        else
          modify (set_umem (upd (Ulib.memmove (umem s) p (de + 2) NAMELEN) (p + NAMELEN) 0)) ;;
          let! (r, st) := stat open fstat close buf st in
          (if r <? 0 then printf n 1 (bytes_of "ls: cannot stat %s" ++ [10]) [buf] else ls_line buf st) ;;
          ls_entries k fd p st
  end.

Definition ls_dir (fd path : Z) (st : ustat) : UM unit :=
  let! s := get in
  let! len := deref (Ulib.strlen (umem s) path n) in
  if TBUF <? len + 1 + NAMELEN + 1 then printf n 1 (bytes_of "ls: path too long" ++ [10]) []
  else
    let! m := deref (strcpy (umem s) buf path n) in
    let! l := deref (Ulib.strlen m buf n) in
    let p := buf + l in
    modify (set_umem (upd m p 47)) ;;
    ls_entries (S (length (mjoin (uin s fd)))) fd (p + 1) st.

Definition ls (path : Z) : UM unit :=
  let! fd := open path in
  if fd <? 0 then printf n 2 (bytes_of "ls: cannot open %s" ++ [10]) [path]
  else
    let! (r, st) := fstat fd in
    if r <? 0 then printf n 2 (bytes_of "ls: cannot stat %s" ++ [10]) [path] ;; close fd
    else
      (if ust_type st =? 2 then ls_line path st
       else if ust_type st =? 1 then ls_dir fd path st
       else ret tt) ;;
      close fd.

(** [dot]: the address of the string with the dot. *)
Definition ls_main (dot : Z) (argv : list Z) : UM unit :=
  if (length argv <? 2)%nat then ls dot else for_each (tail argv) ls.

End Ls.

(** ** [ps] of [ulib.c] *)

(** A row of the table that [getpinfo] has stored: its fields, and where its name is. *)
Record psrow := mkpsrow { ps_inuse : Z; ps_pid : Z; ps_tickets : Z; ps_ticks : Z; ps_state : Z; ps_name : Z }.

Definition ps_fmt : list Z := bytes_of "%d" ++ [9] ++ bytes_of "%d" ++ [9] ++ bytes_of "%d" ++ [9] ++ bytes_of "%c" ++ [9] ++ bytes_of "%s" ++ [10].

Definition ps (getpinfo : UM (list psrow)) : UM unit :=
  let! rows := getpinfo in
  printf n 1 (bytes_of "PID" ++ [9] ++ bytes_of "TKTS" ++ [9] ++ bytes_of "TCKS" ++ [9] ++ bytes_of "STAT" ++ [9] ++ bytes_of "NAME" ++ [10]) [] ;;
  for_each rows (fun r =>
    when (nz (ps_inuse r)) (printf n 1 ps_fmt [ps_pid r; ps_tickets r; ps_ticks r; ps_state r; ps_name r])).

End Programs.

(** ** What [echo] prints *)

Definition cstr (m : mem) (a : Z) (bs : list Z) : Prop := holds m a (bs ++ [0]) /\ Forall (fun c => 0 < c < 256) bs.

Lemma put_string_says n : forall fd a bs s (Q : unit -> ust -> Prop), cstr (umem s) a bs -> (length bs < n)%nat ->
  (forall s', says fd bs s s' -> Q tt s') -> wp (put_string n fd a) s Q.
Proof.
  induction n as [|n IH]; intros fd a bs s Q [Hm Hb] Hn HQ; [lia|]. cbn [put_string]. apply wp_bind, wp_gets.
  destruct bs as [|b bs]; cbn [app] in Hm; apply holds_cons in Hm as [Ha Hm].
  - rewrite Ha. apply wp_ret, HQ, says_nil.
  - apply Forall_cons in Hb as [Hb Hbs]. rewrite Ha, (proj2 (Z.eqb_neq b 0)) by lia. cbn [length] in Hn.
    apply wp_bind, putc_says. intros s1 H1. rewrite u8_small in H1 by lia. assert (umem s1 = umem s) as E by (by rewrite H1).
    apply (IH _ _ bs); [by rewrite E|lia|]. intros s2 H2. apply HQ. by apply (says_app fd [b] bs s s1 s2).
Qed.

Lemma convert_string n fd a bs ap s (Q : list Z -> ust -> Prop) : a <> 0 -> cstr (umem s) a bs -> (length bs < n)%nat ->
  (forall s', says fd bs s s' -> Q ap s') -> wp (convert n fd 115 (a :: ap)) s Q.
Proof.
  intros A0 Ha Hn HQ. unfold convert. cbn [Z.eqb Pos.eqb orb next_arg head tail]. apply wp_bind, wp_ret, wp_bind. rewrite (proj2 (Z.eqb_neq a 0)) by done.
  apply (put_string_says n fd a bs); [done|done|]. intros s' H. apply wp_ret. auto.
Qed.

(** The arguments with blanks between them and a newline. *)
Fixpoint echoed (args : list (list Z)) : list Z :=
  match args with
  | [] => []
  | [a] => a ++ [10]
  | a :: args => a ++ 32 :: echoed args
  end.

(** [echo] prints its arguments. *)
Theorem echo_prints n blank_s newline_s argv args s :
  cstr (umem s) blank_s [32] -> cstr (umem s) newline_s [10] ->
  Forall2 (fun a bs => a <> 0 /\ cstr (umem s) a bs /\ (length bs < n)%nat) (tail argv) args -> blank_s <> 0 -> newline_s <> 0 -> (1 < n)%nat ->
  exists s', echo_main n blank_s newline_s argv s = Ret tt s' /\ says 1 (echoed args) s s'.
Proof.
  intros Hb Hn Hargs B0 N0 Hlen. unfold echo_main. generalize (tail argv) Hargs. clear Hargs. intros l Hargs.
  enough (wp (echo_loop n blank_s newline_s l) s (fun _ s' => says 1 (echoed args) s s')) as W.
  { apply wp_exists in W as ([] & s' & H). by exists s'. }
  revert s Hb Hn Hargs. revert args. induction l as [|a l IH]; intros args s Hb Hn Hargs; inversion Hargs as [|? bs ? args' (A0 & Ha & Hl) Hrest]; subst.
  { apply wp_ret, says_nil. }
  cbn [echo_loop]. set (sep := match l with [] => newline_s | _ => blank_s end).
  assert (exists c, sep <> 0 /\ cstr (umem s) sep [c] /\ echoed (bs :: args') = bs ++ c :: echoed args') as (c & S0 & Hsep & Ee).
  { destruct l; inversion Hrest; subst; [by exists 10|by exists 32]. }
  rewrite Ee. apply wp_bind. change (bytes_of "%s%s") with [37; 115; 37; 115].
  unfold printf. cbn [printf_loop Z.eqb Pos.eqb]. apply wp_bind, (convert_string _ _ a bs); [done|done|done|]. intros s1 H1.
  apply wp_bind, (convert_string _ _ sep [c]); [done|by rewrite H1|done|]. intros s2 H2. apply wp_ret.
  pose proof (says_app _ _ _ _ _ _ H1 H2) as H12. eapply wp_mono; [apply (IH args' s2); rewrite H12; done|]. cbn beta. intros [] s3 H3.
  pose proof (says_app _ _ _ _ _ _ H12 H3) as H. by rewrite <- app_assoc in H.
Qed.

(** ** Names padded to 14 characters *)

Lemma strlen_cstr m n : forall a bs, cstr m a bs -> (length bs < n)%nat -> Ulib.strlen m a n = Some (Z.of_nat (length bs)).
Proof.
  induction n as [|n IH]; intros a bs [Hm Hb] Hn; [lia|]. cbn [Ulib.strlen].
  destruct bs as [|b bs]; cbn [app] in Hm; apply holds_cons in Hm as [Ha Hm]; rewrite Ha; [done|].
  apply Forall_cons in Hb as [Hb Hbs]. rewrite (proj2 (Z.eqb_neq b 0)) by lia. cbn [length] in *.
  rewrite (IH _ bs) by (done || lia). cbn. f_equal. lia.
Qed.

Lemma find_slash_back m path j : forall fuel p, path <= p -> (forall x, p < x <= p + Z.of_nat j -> m x <> 47) -> (j < fuel)%nat ->
  find_slash fuel m path (p + Z.of_nat j) = find_slash (fuel - j) m path p.
Proof.
  induction j as [|j IH]; intros fuel p Hp Hm Hf; [by rewrite Z.add_0_r, Nat.sub_0_r|]. destruct fuel as [|fuel]; [lia|]. cbn [find_slash].
  rewrite (proj2 (Z.leb_le _ _)), (proj2 (Z.eqb_neq _ _)) by (lia || (apply Hm; lia)). cbn [andb negb].
  replace (p + Z.of_nat (S j) - 1) with (p + Z.of_nat j) by lia. rewrite IH; [done|done|intros x Hx; apply Hm; lia|lia].
Qed.

(** The last element of a path. *)
Definition base_name (path name : list Z) : Prop := (47 ∉ name) /\ exists dir, path = dir ++ name /\ (dir = [] \/ last dir = Some 47).

Lemma find_slash_name n m path ps name : cstr m path ps -> base_name ps name -> (length ps < n)%nat ->
  exists dir, ps = dir ++ name /\ find_slash (n + 2) m path (path + Z.of_nat (length ps)) = Some (path + Z.of_nat (length dir)).
Proof.
  intros [Hm Hb] (Hn & dir & -> & Hd) Hl. exists dir. split; [done|]. rewrite length_app in *.
  assert (Hname : forall x, path + Z.of_nat (length dir) - 1 < x <= path + Z.of_nat (length dir) - 1 + Z.of_nat (S (length name)) -> m x <> 47).
  { intros x Hx. rewrite <- app_assoc in Hm. apply holds_app in Hm as [_ Hm]. set (i := Z.to_nat (x - (path + Z.of_nat (length dir)))).
    assert (is_Some ((name ++ [0]) !! i)) as [b Hi] by (apply lookup_lt_is_Some_2; rewrite length_app; cbn; lia).
    replace x with (path + Z.of_nat (length dir) + Z.of_nat i) by lia. rewrite (Hm i b Hi). apply list_elem_of_lookup_2, elem_of_app in Hi as [Hi|Hi]; [by intros ->|].
    apply list_elem_of_singleton in Hi. lia. }
  replace (path + Z.of_nat (length dir + length name)) with (path + Z.of_nat (length dir) - 1 + Z.of_nat (S (length name))) by lia.
  destruct Hd as [->|Hd].
  - destruct (n + 2)%nat as [|k] eqn:E; [lia|]. cbn [length] in *. rewrite Z.add_0_r in *.
    rewrite Nat2Z.inj_succ. replace (path - 1 + Z.succ (Z.of_nat (length name))) with (path + Z.of_nat (length name)) by lia.
    rewrite find_slash_back; [|lia|intros x Hx; apply Hname; lia|lia].
    destruct (S k - length name)%nat as [|[|q]] eqn:Eq; [lia|lia|]. cbn [find_slash].
    rewrite (proj2 (Z.leb_le _ _)), (proj2 (Z.eqb_neq _ _)) by (lia || (apply Hname; lia)). cbn [andb negb].
    rewrite (proj2 (Z.leb_gt path (path - 1))) by lia. cbn [andb]. f_equal. lia.
  - destruct dir as [|d dir' _] using rev_ind; [done|]. rewrite last_snoc in Hd. injection Hd as ->. rewrite length_app in *. cbn [length] in *.
    rewrite find_slash_back; [|lia|done|lia]. destruct (n + 2 - S (length name))%nat as [|q] eqn:Eq; [lia|]. cbn [find_slash].
    assert (m (path + Z.of_nat (length dir' + 1) - 1) = 47) as ->.
    { rewrite <- !app_assoc in Hm. apply holds_app in Hm as [_ Hm]. cbn [app] in Hm. apply holds_cons in Hm as [Hm _].
      rewrite <- Hm. f_equal. lia. }
    rewrite andb_false_r. f_equal. lia.
Qed.

(** [fmtname] returns the last element of the path, padded with blanks to the length
    of a directory entry's name. *)
Theorem fmtname_spec n m buf path ps name : cstr m path ps -> base_name ps name -> (length ps < n)%nat ->
  (forall x, path <= x <= path + Z.of_nat (length ps) -> x < buf \/ buf + 15 <= x) -> m (buf + 14) = 0 ->
  exists a m', fmtname n m buf path = Some (a, m') /\ cstr m' a (name ++ replicate (14 - length name) 32).
Proof.
  intros Hp Hb Hn Hdis Hz. destruct (find_slash_name n m path ps name Hp Hb Hn) as (dir & -> & E). rewrite length_app in *.
  assert (cstr m (path + Z.of_nat (length dir)) name) as Hname.
  { destruct Hp as [Hp Hps]. rewrite <- app_assoc in Hp. apply holds_app in Hp as [_ Hp]. by apply Forall_app in Hps as [_ Hps]. }
  unfold fmtname. rewrite (strlen_cstr m n path (dir ++ name)) by (done || (rewrite length_app; lia)). cbn [mbind option_bind].
  rewrite length_app, E. cbn [mbind option_bind]. rewrite (strlen_cstr m n _ name) by (done || lia). cbn [mbind option_bind].
  unfold NAMELEN. destruct (Z.leb_spec 14 (Z.of_nat (length name))) as [H14|H14].
  - exists (path + Z.of_nat (length dir)), m. split; [done|]. replace (14 - length name)%nat with 0%nat by lia. by rewrite app_nil_r.
  - unfold Ulib.memmove. rewrite Nat2Z.id. set (p := path + Z.of_nat (length dir)) in *. set (m1 := copy_up m buf p (length name)).
    assert (buf <= p \/ p + Z.of_nat (length name) <= buf) as Hov.
    { pose proof (Hdis p ltac:(lia)). pose proof (Hdis (p + Z.of_nat (length name)) ltac:(lia)). lia. }
    assert (Hc : forall x, m1 x = if within x buf (Z.of_nat (length name)) then m (p + (x - buf)) else m x) by (intros x; by apply copy_up_spec).
    assert (cstr m1 p name) as Hname1.
    { destruct Hname as [Hh Hf]. split; [|done]. intros j b Hj. rewrite Hc, <- (Hh j b Hj). pose proof (lookup_lt_Some _ _ _ Hj) as Hj'. rewrite length_app in Hj'. cbn in Hj'.
      pose proof (Hdis (p + Z.of_nat j) ltac:(lia)). unfold within. destruct (Z.leb_spec buf (p + Z.of_nat j)), (Z.ltb_spec (p + Z.of_nat j) (buf + Z.of_nat (length name))); cbn [andb]; [lia|done..]. }
    rewrite (strlen_cstr m1 n p name) by (done || lia). cbn [mbind option_bind]. exists buf. eexists. split; [done|]. split.
    + intros j b Hj. unfold Ulib.memset. rewrite stosb_spec. unfold within. rewrite <- app_assoc in Hj. destruct (Nat.lt_ge_cases j (length name)) as [Hlt|Hge].
      * rewrite (proj2 (Z.leb_gt _ _)) by lia. cbn [andb]. rewrite Hc. unfold within. rewrite (proj2 (Z.leb_le _ _)), (proj2 (Z.ltb_lt _ _)) by lia. cbn [andb].
        rewrite lookup_app_l in Hj by done. replace (p + (buf + Z.of_nat j - buf)) with (p + Z.of_nat j) by lia. apply (proj1 Hname). by apply lookup_app_l_Some.
      * rewrite lookup_app_r in Hj by done. rewrite (proj2 (Z.leb_le _ _)) by lia. cbn [andb].
        destruct (Z.ltb_spec (buf + Z.of_nat j) (buf + Z.of_nat (length name) + Z.of_nat (Z.to_nat (14 - Z.of_nat (length name))))) as [Hin|Hout].
        -- rewrite lookup_app_l in Hj by (rewrite length_replicate; lia). apply lookup_replicate in Hj as [-> _]. done.
        -- rewrite lookup_app_r in Hj by (rewrite length_replicate; lia). rewrite length_replicate in Hj. apply list_lookup_singleton_Some in Hj as [Hj <-].
           rewrite Hc. unfold within. rewrite (proj2 (Z.ltb_ge _ _)), andb_false_r by lia. rewrite <- Hz. f_equal. lia.
    + apply Forall_app. split; [exact (proj2 Hname)|]. by apply Forall_replicate.
Qed.

(** ** Files one after the other *)

Section Files.
Context (n : nat) (open : Z -> UM Z) (close : Z -> UM unit) (pieces : Z -> list (list Z)).

(** [open] succeeds on every path and the descriptor delivers the file in [pieces];
    neither it nor [close] writes. *)
Context (Hopen : forall a s, wp (open a) s (fun fd s' => 0 <= fd /\ uin s' fd = pieces a /\ uend s' fd = 0 /\ uout s' = uout s))
  (Hclose : forall fd s, wp (close fd) s (fun _ s' => uout s' = uout s)).

Lemma each_file_run msg run (text : Z -> list Z) :
  (forall fd a s, uin s fd = pieces a -> uend s fd = 0 -> wp (run fd a) s (fun _ s' => written 1 (uout s') = written 1 (uout s) ++ text a)) ->
  forall args s, wp (each_file n open close msg run args) s (fun _ s' => written 1 (uout s') = written 1 (uout s) ++ mjoin (text <$> args)).
Proof.
  intros Hrun. induction args as [|a args IH]; intros s; [apply wp_ret; by rewrite app_nil_r|].
  cbn [each_file]. apply wp_bind. eapply wp_mono; [apply Hopen|]. cbn beta. intros fd s1 (Hfd & Hin & He & Ho).
  rewrite (proj2 (Z.ltb_ge fd 0)) by done. apply wp_bind. eapply wp_mono; [by apply (Hrun fd a)|]. cbn beta. intros _ s2 H2.
  apply wp_bind. eapply wp_mono; [apply Hclose|]. cbn beta. intros _ s3 H3.
  eapply wp_mono; [apply IH|]. cbn beta. intros _ s4 ->. by rewrite H3, H2, Ho, <- app_assoc.
Qed.

(** [cat] with arguments writes the contents of its files one after the other. *)
Theorem cat_main_copies buf wr prog files s : (forall r, wr r = r) -> (forall a, steady (pieces a)) -> files <> [] ->
  exists s', cat_main n buf wr open close (prog :: files) s = Ret tt s' /\
    written 1 (uout s') = written 1 (uout s) ++ mjoin ((fun a => mjoin (pieces a)) <$> files).
Proof.
  intros Hwr Hst Hne.
  assert (wp (cat_main n buf wr open close (prog :: files)) s
    (fun _ s' => written 1 (uout s') = written 1 (uout s) ++ mjoin ((fun a => mjoin (pieces a)) <$> files))) as W.
  { unfold cat_main. destruct files as [|f files]; [done|]. cbn [length Nat.leb tail]. apply each_file_run.
    intros fd a s1 Hin He. destruct (cat_copies buf n wr fd s1) as (s2 & E & H); [done|by rewrite Hin|done|].
    apply (wp_of _ _ _ _ _ E). by rewrite H, Hin. }
  apply wp_exists in W as ([] & s' & E & H). eauto.
Qed.

End Files.
