(* ===== verification/Umalloc.v ===== *)
(** * The user-level allocator ([umalloc.c])

    Headers are two words in the program's memory: the address of the next free
    block and the size in units of a header.  [base] is the address of the static
    header, [brk] the size of the process, which [sbrk] moves, and [lim] how far
    the kernel lets it grow. *)
From S2P Require Import Prelude Str.

Record hst := mkhst { hmem : mem; freep : Z; brk : Z; lim : Z }.

Definition set_hmem v s := mkhst v (freep s) (brk s) (lim s).
Definition set_freep v s := mkhst (hmem s) v (brk s) (lim s).
Definition set_brk v s := mkhst (hmem s) (freep s) v (lim s).

Abbreviation HM := (M hst).

(** [p->s.ptr] and [p->s.size]. *)
Definition ptr (p : Z) : HM Z := gets (fun s => load32 (hmem s) p).
Definition size (p : Z) : HM Z := gets (fun s => load32 (hmem s) (p + 4)).
Definition set_ptr (p v : Z) : HM unit := modify (fun s => set_hmem (store32 (hmem s) p v) s).
Definition set_size (p v : Z) : HM unit := modify (fun s => set_hmem (store32 (hmem s) (p + 4) v) s).

(** [sbrk(n)]: the old size, or -1.  A request that would shrink the process
    below 0 wraps around; the kernel then leaves the size alone. *)
Definition sbrk (n : Z) : HM Z :=
  let n := s32 n in
  let! s := get in
  if 0 <=? n then
    if brk s + n <=? lim s then put (set_brk (brk s + n) s) ;; ret (brk s) else ret 4294967295
  else
    let sz := u32 (brk s + n) in
    if brk s <=? sz then ret (brk s)
    else if sz =? 0 then ret 4294967295
    else put (set_brk sz s) ;; ret (brk s).

Section Umalloc.
Context (base : Z).

(** The loop that finds the free block [p] after which [bp] belongs. *)
Fixpoint free_loop (fuel : nat) (bp p : Z) : HM Z :=
  match fuel with
  | O => fault "fuel"
  | S k =>
      let! q := ptr p in
      if (p <? bp) && (bp <? q) then ret p
      else if (q <=? p) && ((p <? bp) || (bp <? q)) then ret p
      else free_loop k bp q
  end.

(** Every block has at least a header: [lim / 8] bounds their number. *)
Definition rounds (s : hst) : nat := Z.to_nat (lim s / 8) + 2.

Definition free (ap : Z) : HM unit :=
  let bp := ap - 8 in
  let! s := get in
  let! p := free_loop (rounds s) bp (freep s) in
  let! q := ptr p in
  let! n := size bp in
  (if u32 (bp + 8 * n) =? q then
     let! nq := size q in
     set_size bp (u32 (n + nq)) ;;
     let! qq := ptr q in
     set_ptr bp qq
   else set_ptr bp q) ;;
  (let! np := size p in
   if u32 (p + 8 * np) =? bp then
     let! n := size bp in
     set_size p (u32 (np + n)) ;;
     let! q := ptr bp in
     set_ptr p q
   else set_ptr p bp) ;;
  modify (set_freep p).

Definition morecore (nu : Z) : HM Z :=
  let nu := if nu <? 4096 then 4096 else nu in
  let! p := sbrk (u32 (nu * 8)) in
  if p =? 4294967295 then ret 0
  else
    set_size p nu ;;
    free (p + 8) ;;
    gets freep.

(** The block [p] of [n] units, whose predecessor is [prevp], is big enough. *)
Definition take_block (nunits prevp p n : Z) : HM Z :=
  let! r := (if n =? nunits then
               let! q := ptr p in
               set_ptr prevp q ;; ret p
             else
               set_size p (n - nunits) ;;
               let! n' := size p in
               let r := u32 (p + 8 * n') in
               set_size r nunits ;; ret r) in
  modify (set_freep prevp) ;;
  ret (r + 8).

Fixpoint malloc_loop (fuel : nat) (nunits prevp p : Z) : HM Z :=
  match fuel with
  | O => fault "fuel"
  | S k =>
      let next p := let! q := ptr p in malloc_loop k nunits p q in
      let! n := size p in
      if nunits <=? n then take_block nunits prevp p n
      else
        let! f := gets freep in
        if p =? f then
          let! p := morecore nunits in
          if p =? 0 then ret 0 else next p
        else next p
  end.

(** Twice around the list: before and after [morecore]. *)
Definition malloc (nbytes : Z) : HM Z :=
  let nunits := u32 (nbytes + 8 - 1) / 8 + 1 in
  let! s := get in
  let! prevp := (if freep s =? 0 then
                   modify (set_freep base) ;;
                   set_ptr base base ;;
                   set_size base 0 ;;
                   ret base
                 else ret (freep s)) in
  let! p := ptr prevp in
  malloc_loop (2 * rounds s + 2) nunits prevp p.

End Umalloc.

(** ** The free list *)

(** A block: the address of its header and its size in units. *)
Abbreviation blk := (Z * Z)%type.

(** From [p] the pointers lead through the blocks [F] to [q]. *)
Fixpoint seg (m : mem) (p : Z) (F : list blk) (q : Z) : Prop :=
  match F with
  | [] => load32 m p = q
  | (a, n) :: F => load32 m p = a /\ load32 m (a + 4) = n /\ seg m a F q
  end.

(** The last block of [F], or [p]. *)
Fixpoint lastp (p : Z) (F : list blk) : Z :=
  match F with
  | [] => p
  | (a, _) :: F => lastp a F
  end.

(** Ascending, with a gap between a block and the next. *)
Fixpoint rising (lo : Z) (F : list blk) : Prop :=
  match F with
  | [] => True
  | (a, n) :: F => lo < a /\ 0 < n /\ rising (a + 8 * n) F
  end.

Definition apart (x y : blk) : Prop := fst x + 8 * snd x <= fst y \/ fst y + 8 * snd y <= fst x.

Fixpoint disj (l : list blk) : Prop :=
  match l with
  | [] => True
  | x :: l => Forall (apart x) l /\ disj l
  end.

Lemma seg_app m p F a n G q :
  seg m p (F ++ (a, n) :: G) q <-> seg m p F a /\ load32 m (a + 4) = n /\ seg m a G q.
Proof.
  revert p. induction F as [|[b k] F IH]; intros p; cbn [app seg]; [tauto|]. rewrite IH. tauto.
Qed.

Lemma seg_app' m p F G q : seg m p (F ++ G) q <->
  seg m p F (match G with [] => q | (a, _) :: _ => a end) /\
  match G with [] => True | (a, n) :: G => load32 m (a + 4) = n /\ seg m a G q end.
Proof. destruct G as [|[a n] G]; [rewrite app_nil_r; tauto|apply seg_app]. Qed.

Lemma seg_ptr m p F q : seg m p F q -> load32 m p = match F with [] => q | (a, _) :: _ => a end.
Proof. destruct F as [|[a n] F]; cbn; tauto. Qed.

Lemma lastp_app p F G : lastp p (F ++ G) = lastp (lastp p F) G.
Proof. revert p. induction F as [|[a n] F IH]; intros p; cbn; [done|apply IH]. Qed.

Lemma lastp_in p F : lastp p F ∈ p :: F.*1.
Proof.
  revert p. induction F as [|[a n] F IH]; intros p; cbn [lastp fmap list_fmap]; [set_solver|].
  specialize (IH a). cbn. set_solver.
Qed.

Lemma seg_last m p F q : seg m p F q -> load32 m (lastp p F) = q.
Proof. revert p. induction F as [|[a n] F IH]; intros p; cbn; [done|]. intros (_ & _ & H). by apply IH. Qed.

(** Memory that keeps the headers keeps the list. *)
Lemma seg_ext m m' p F q :
  seg m p F q -> load32 m' p = load32 m p ->
  (forall a n, (a, n) ∈ F -> load32 m' a = load32 m a /\ load32 m' (a + 4) = load32 m (a + 4)) -> seg m' p F q.
Proof.
  revert p. induction F as [|[a n] F IH]; intros p; cbn [seg]; [congruence|]. intros (H1 & H2 & H3) Hp HF.
  destruct (HF a n) as [E1 E2]; [set_solver|]. split_and!; [congruence|congruence|]. apply IH; [done|done|set_solver].
Qed.

(** Redirecting the last pointer. *)
Lemma seg_redirect m m' p F q q' :
  seg m p F q -> (forall a n, (a, n) ∈ F -> load32 m' (a + 4) = load32 m (a + 4)) ->
  (forall x, x ∈ p :: F.*1 -> x <> lastp p F -> load32 m' x = load32 m x) ->
  NoDup (p :: F.*1) -> load32 m' (lastp p F) = q' -> seg m' p F q'.
Proof.
  revert p. induction F as [|[a n] F IH]; intros p; cbn [seg lastp fmap list_fmap fst]; [done|].
  intros (H1 & H2 & H3) Hs Hx Hnd Hl. apply NoDup_cons in Hnd as [Hp Hnd].
  assert (p <> lastp a F) as Hpl by (intros ->; apply Hp, lastp_in).
  split_and!; [rewrite Hx; [done|set_solver|done]|rewrite (Hs a n); [done|set_solver]|].
  apply IH; [done|set_solver| |done|done]. intros x Hin Hne. apply Hx; [set_solver|done].
Qed.

Lemma load32_other m a v x : x + 4 <= a \/ a + 4 <= x -> load32 (store32 m a v) x = load32 m x.
Proof. intros H. apply load32_ext. intros k Hk. apply store32_other. unfold within. lia. Qed.

(** Where the last block ends. *)
Fixpoint topend (lo : Z) (F : list blk) : Z :=
  match F with
  | [] => lo
  | (a, n) :: F => topend (a + 8 * n) F
  end.

Lemma rising_app lo F G : rising lo (F ++ G) <-> rising lo F /\ rising (topend lo F) G.
Proof. revert lo. induction F as [|[a n] F IH]; intros lo; cbn; [tauto|]. rewrite IH. tauto. Qed.

Lemma rising_in lo F a n : rising lo F -> (a, n) ∈ F -> lo < a /\ 0 < n.
Proof.
  revert lo. induction F as [|[b k] F IH]; intros lo; cbn [rising]; [set_solver|].
  intros (H1 & H2 & H3) [[= -> ->]|Hin]%elem_of_cons; [done|]. destruct (IH _ H3 Hin). lia.
Qed.

Lemma topend_app lo F G : topend lo (F ++ G) = topend (topend lo F) G.
Proof. revert lo. induction F as [|[a n] F IH]; intros lo; cbn; [done|apply IH]. Qed.

Lemma rising_mono lo lo' F : lo' <= lo -> rising lo F -> rising lo' F.
Proof. destruct F as [|[a n] F]; cbn; [done|]. intuition lia. Qed.

Lemma topend_ge lo F : rising lo F -> lo <= topend lo F.
Proof.
  revert lo. induction F as [|[a n] F IH]; intros lo; cbn; [lia|]. intros (H1 & H2 & H3). specialize (IH _ H3). lia.
Qed.

Lemma rising_nodup lo F : rising lo F -> NoDup (lo :: F.*1).
Proof.
  intros H. assert (forall lo F, rising lo F -> forall x, x ∈ F.*1 -> lo < x) as Hlt.
  { clear. intros lo F H x ([a n] & -> & Hin)%list_elem_of_fmap. by eapply rising_in. }
  revert lo H. induction F as [|[a n] F IH]; intros lo H; [apply NoDup_singleton|].
  pose proof H as Hr. cbn [rising] in H. destruct H as (H1 & H2 & H3). apply NoDup_cons. split.
  - intros Hin. specialize (Hlt _ _ Hr _ Hin). lia.
  - cbn [fmap list_fmap fst]. apply IH. eapply rising_mono; [|done]. lia.
Qed.

(** Headers of a list do not overlap. *)
Lemma rising_headers base F x y : rising base F -> (forall a n, (a, n) ∈ F -> base + 8 <= a) ->
  x ∈ base :: F.*1 -> y ∈ base :: F.*1 -> x <> y -> x + 8 <= y \/ y + 8 <= x.
Proof.
  intros Hr Hb. assert (forall x, x ∈ F.*1 -> base + 8 <= x) as Hge by (intros z ([a n] & -> & Ha)%list_elem_of_fmap; by apply (Hb a n)).
  assert (forall x y, x ∈ F.*1 -> y ∈ F.*1 -> x <> y -> x + 8 <= y \/ y + 8 <= x) as HF.
  { clear Hb Hge x y. generalize dependent base. induction F as [|[a n] F IH]; intros lo Hr x y; [set_solver|]. cbn [rising] in Hr.
    destruct Hr as (H1 & H2 & H3). assert (forall z, z ∈ F.*1 -> a + 8 < z) as Hlt
      by (intros z ([b k] & -> & Hb)%list_elem_of_fmap; destruct (rising_in _ _ _ _ H3 Hb); cbn; lia).
    intros [->|Hx]%elem_of_cons [->|Hy]%elem_of_cons Hne; [done| | |by eapply IH].
    - specialize (Hlt y Hy). cbn. lia.
    - specialize (Hlt x Hx). cbn. lia. }
  intros [->|Hx]%elem_of_cons [->|Hy]%elem_of_cons Hne; [done| | |by apply HF].
  - specialize (Hge y Hy). lia.
  - specialize (Hge x Hx). lia.
Qed.

Lemma rising_length lo F : rising lo F -> 8 * Z.of_nat (length F) <= topend lo F - lo.
Proof.
  revert lo. induction F as [|[a n] F IH]; intros lo; cbn [rising topend length]; [lia|].
  intros (H1 & H2 & H3). specialize (IH _ H3). lia.
Qed.

Lemma apart_sym x y : apart x y -> apart y x.
Proof. unfold apart. tauto. Qed.

Lemma disj_app F G : disj (F ++ G) <-> disj F /\ disj G /\ forall x y, x ∈ F -> y ∈ G -> apart x y.
Proof.
  induction F as [|x F IH]; cbn [app disj].
  - split; [|tauto]. intros H. split_and!; [done|done|set_solver].
  - rewrite IH, Forall_app, !Forall_forall. split.
    + intros ([H1 H2] & H3 & H4 & H5). split_and!; [done|done|done|]. intros y z [->|Hy]%elem_of_cons Hz; auto.
    + intros ([H1 H2] & H3 & H4). split_and!; [done| |done|done|]; intros; apply H4; set_solver.
Qed.

Lemma disj_perm F G : F ≡ₚ G -> disj F -> disj G.
Proof.
  induction 1 as [|x F G HP IH|x y F|F G K _ IH1 _ IH2]; cbn [disj]; [done| | |by auto].
  - intros [H1 H2]. split; [by rewrite <- HP|by apply IH].
  - intros [[Hyx Hy]%Forall_cons [Hx HF]]. split_and!; [apply Forall_cons; split; [by apply apart_sym|done]|done|done].
Qed.

Lemma disj_one x F : disj (x :: F) <-> (forall y, y ∈ F -> apart x y) /\ disj F.
Proof. cbn. by rewrite Forall_forall. Qed.

Lemma disj_in F x y : disj F -> x ∈ F -> y ∈ F -> x = y \/ apart x y.
Proof.
  induction F as [|z F IH]; [set_solver|]. intros [H1 H2]%disj_one [->|Hx]%elem_of_cons [->|Hy]%elem_of_cons; [by left|right|right|by apply IH].
  - by apply H1.
  - by apply apart_sym, H1.
Qed.

Lemma disj_lookup F i j x y : disj F -> i <> j -> F !! i = Some x -> F !! j = Some y -> apart x y.
Proof.
  revert i j. induction F as [|z F IH]; [done|]. intros i j [H1 H2]%disj_one Hij Hi Hj. destruct i as [|i], j as [|j]; cbn in Hi, Hj.
  - done.
  - injection Hi as <-. apply H1. by eapply list_elem_of_lookup_2.
  - injection Hj as <-. apply apart_sym, H1. by eapply list_elem_of_lookup_2.
  - eapply (IH i j); auto.
Qed.

(** ** The invariant *)

Section Heap.
(** [base] lies below the heap, which begins at [h0]. *)
Context (base h0 : Z) (Hbase : 0 < base /\ base + 8 <= h0).

(** Free blocks in the order of the list, and the blocks that [malloc] has
    handed out. *)
Record heap_inv (s : hst) (F A : list blk) : Prop := {
  hv_size : load32 (hmem s) (base + 4) = 0;
  hv_seg : seg (hmem s) base F base;
  hv_rising : rising base F;
  hv_in a n : (a, n) ∈ F ++ A -> h0 <= a /\ 0 < n /\ a + 8 * n <= brk s;
  hv_used a n : (a, n) ∈ A -> load32 (hmem s) (a + 4) = n;
  hv_disj : disj (F ++ A);
  hv_freep : freep s ∈ base :: F.*1;
  hv_brk : h0 <= brk s <= lim s /\ lim s < 2147483648;
}.

(** The bytes of the blocks in [A] are as they were. *)
Definition kept (A : list blk) (m m' : mem) : Prop :=
  forall a n x, (a, n) ∈ A -> a <= x < a + 8 * n -> m' x = m x.

Lemma kept_refl A m : kept A m m.
Proof. done. Qed.

Lemma kept_step A m m' m'' : kept A m m' -> kept A m' m'' -> kept A m m''.
Proof. intros H1 H2 a n x Ha Hx. rewrite (H2 a n x Ha Hx). by apply (H1 a n). Qed.

Lemma kept_mono A B m m' : B ⊆ A -> kept A m m' -> kept B m m'.
Proof. intros HB H a n x Ha. apply H. by apply HB. Qed.

(** A word that is in no block of [A]. *)
Lemma kept_store A m p v : (forall a n, (a, n) ∈ A -> p + 4 <= a \/ a + 8 * n <= p) -> kept A m (store32 m p v).
Proof. intros H a n x Ha Hx. apply store32_other. unfold within. specialize (H a n Ha). lia. Qed.

Lemma kept_size A m m' a n : kept A m m' -> (a, n) ∈ A -> 0 < n -> load32 m' (a + 4) = load32 m (a + 4).
Proof. intros H Ha Hn. apply load32_ext. intros k Hk. apply (H a n); [done|lia]. Qed.

(** There are no more free blocks than rounds. *)
Lemma free_length s F A : heap_inv s F A -> (length F < rounds s)%nat.
Proof.
  intros [_ _ Hr Hin _ _ _ Hb]. unfold rounds. pose proof (rising_length _ _ Hr) as Hl.
  assert (topend base F <= Z.max base (brk s)) as Ht.
  { clear -Hin. assert (forall lo, topend lo F <= Z.max lo (brk s)) as H; [|apply H].
    assert (forall a n, (a, n) ∈ F -> a + 8 * n <= brk s) as HF by (intros a n H; apply (Hin a n); set_solver). clear Hin.
    induction F as [|[a n] F IH]; intros lo; cbn [topend]; [lia|].
    pose proof (HF a n ltac:(set_solver)). specialize (IH ltac:(set_solver) (a + 8 * n)). lia. }
  Z.to_euclidean_division_equations; lia.
Qed.

(** ** [free] *)

Lemma split_at lo F bp : rising lo F -> (forall a n, (a, n) ∈ F -> a <> bp) ->
  exists G1 G2, F = G1 ++ G2 /\ (forall a n, (a, n) ∈ G1 -> a < bp) /\ (forall a n, (a, n) ∈ G2 -> bp < a).
Proof.
  revert lo. induction F as [|[a n] F IH]; intros lo Hr Hne; [by exists [], []; split_and!; [done|set_solver|set_solver]|].
  cbn [rising] in Hr. destruct Hr as (H1 & H2 & H3). destruct (decide (a < bp)) as [Ha|Ha].
  - destruct (IH _ H3) as (G1 & G2 & -> & HG1 & HG2); [set_solver|]. exists ((a, n) :: G1), G2. split_and!; [done| |done].
    intros b k [[= -> ->]|Hb]%elem_of_cons; [done|by eapply HG1].
  - pose proof (Hne a n ltac:(set_solver)). exists [], ((a, n) :: F). split_and!; [done|set_solver|].
    intros b k [[= -> ->]|Hb]%elem_of_cons; [lia|]. destruct (rising_in _ _ _ _ H3 Hb). lia.
Qed.

Lemma walk_low bp q k : forall G p lo s, seg (hmem s) p G q -> rising lo G -> p <= lo -> p < bp ->
  (forall a n, (a, n) ∈ G -> a < bp) -> bp < q \/ q <= lastp p G ->
  wp (free_loop (S (length G) + k) bp p) s (fun r s' => r = lastp p G /\ s' = s).
Proof.
  induction G as [|[a n] G IH]; intros p lo s Hs Hr Hp Hb HG Hq; cbn [length Nat.add free_loop lastp seg] in *; apply wp_bind, wp_gets.
  - rewrite Hs. destruct (_ && _) eqn:E1; [by apply wp_ret|]. rewrite (proj2 (Z.ltb_lt p bp)) by done. cbn [orb].
    rewrite (proj2 (Z.leb_le q p)) by (b2p; lia). by apply wp_ret.
  - destruct Hs as (-> & _ & Hs). cbn [rising] in Hr. destruct Hr as (H1 & H2 & H3). pose proof (HG a n ltac:(set_solver)).
    rewrite (proj2 (Z.ltb_ge bp a)), (proj2 (Z.leb_gt a p)), andb_false_r by lia. cbn [andb].
    eapply (IH a); [done|done|lia|done|set_solver|done].
Qed.

Lemma walk_high bp k : base < bp -> forall G p lo s (Q : Z -> hst -> Prop), seg (hmem s) p G base -> rising lo G -> p <= lo -> bp < p ->
  wp (free_loop k bp base) s Q -> wp (free_loop (S (length G) + k) bp p) s Q.
Proof.
  intros Hbb. induction G as [|[a n] G IH]; intros p lo s Q Hs Hr Hp Hb HQ; cbn [length Nat.add free_loop seg] in *; apply wp_bind, wp_gets.
  - rewrite Hs, (proj2 (Z.ltb_ge p bp)), (proj2 (Z.ltb_ge bp base)) by lia. cbn [andb orb]. by rewrite andb_false_r.
  - destruct Hs as (-> & _ & Hs). cbn [rising] in Hr. destruct Hr as (H1 & H2 & H3).
    rewrite (proj2 (Z.ltb_ge p bp)), (proj2 (Z.leb_gt a p)) by lia. cbn [andb]. eapply (IH a); [done|done|lia|lia|done].
Qed.

Lemma free_loop_run s F G1 G2 bp (k : nat) :
  F = G1 ++ G2 -> seg (hmem s) base F base -> rising base F -> freep s ∈ base :: F.*1 -> base < bp ->
  (forall a n, (a, n) ∈ G1 -> a < bp) -> (forall a n, (a, n) ∈ G2 -> bp < a) -> (length F < k)%nat ->
  wp (free_loop k bp (freep s)) s (fun r s' => r = lastp base G1 /\ s' = s).
Proof.
  intros -> Hs Hr Hf Hb H1 H2 Hk. apply seg_app' in Hs as [Hs1 Hs2]. apply rising_app in Hr as [Hr1 Hr2].
  set (q := match G2 with [] => base | (a, _) :: _ => a end) in *.
  assert (bp < q \/ q <= base) as Hq by (subst q; destruct G2 as [|[a n] G2]; [lia|]; left; apply (H2 a n); set_solver).
  assert (forall p, p ∈ base :: G1.*1 -> base <= p) as Hge.
  { intros p [->|([a n] & -> & Hin)%list_elem_of_fmap]%elem_of_cons; [lia|]. destruct (rising_in _ _ _ _ Hr1 Hin). cbn. lia. }
  assert (forall k', (length G1 < k')%nat -> wp (free_loop k' bp base) s (fun r s' => r = lastp base G1 /\ s' = s)) as Hlow.
  { intros k' Hk'. replace k' with (S (length G1) + (k' - S (length G1)))%nat by lia.
    eapply walk_low; [exact Hs1|exact Hr1|lia|done|done|]. pose proof (Hge _ (lastp_in base G1)). lia. }
  rewrite length_app in Hk. rewrite fmap_app in Hf. apply elem_of_cons in Hf as [->|[Hf|Hf]%elem_of_app]; [apply Hlow; lia| |].
  - apply list_elem_of_fmap in Hf as ([f n] & Ef & Hin). cbn in Ef. apply list_elem_of_split in Hin as (X & Y & ->). rewrite <- Ef in *.
    apply seg_app in Hs1 as (_ & _ & Hs1). apply rising_app in Hr1 as [_ Hr1]. cbn [rising] in Hr1. destruct Hr1 as (_ & Hn & Hr1).
    rewrite length_app in Hk. cbn [length] in Hk. replace k with (S (length Y) + (k - S (length Y)))%nat by lia.
    rewrite lastp_app. cbn [lastp]. eapply walk_low; [exact Hs1|exact Hr1|lia|apply (H1 _ n); set_solver|set_solver|].
    pose proof (Hge (lastp (freep s) Y)) as Hl. pose proof (lastp_in (freep s) Y). rewrite fmap_app in Hl. cbn in Hl. assert (base <= lastp (freep s) Y) by set_solver. lia.
  - apply list_elem_of_fmap in Hf as ([f n] & Ef & Hin). cbn in Ef. apply list_elem_of_split in Hin as (X & Y & EG). rewrite <- Ef in *.
    assert (seg (hmem s) (freep s) Y base /\ rising (freep s + 8 * n) Y /\ 0 < n) as (Hs3 & Hr3 & Hn).
    { rewrite EG in Hr2. apply rising_app in Hr2 as [_ Hr2]. cbn [rising] in Hr2. destruct Hr2 as (_ & Hn & Hr2). split_and!; [|done|done].
      destruct X as [|[x nx] X]; cbn [app] in EG; rewrite EG in Hs2; [by apply Hs2|]. destruct Hs2 as [_ Hs2]. apply seg_app in Hs2. tauto. }
    rewrite EG, length_app in Hk. cbn [length] in Hk.
    replace k with (S (length Y) + (k - S (length Y)))%nat by lia. eapply walk_high; [done|exact Hs3|exact Hr3|lia|apply (H2 _ n); rewrite EG; set_solver|].
    apply Hlow. lia.
Qed.

(** Nothing outside of the header at [p] has changed. *)
Definition only_header (p : Z) (m m' : mem) : Prop := forall x, x < p \/ p + 8 <= x -> m' x = m x.

Lemma only_load p m m' x : only_header p m m' -> x + 4 <= p \/ p + 8 <= x -> load32 m' x = load32 m x.
Proof. intros H Hx. apply load32_ext. intros k Hk. apply H. lia. Qed.

Lemma only_kept p m m' A : only_header p m m' -> (forall a n, (a, n) ∈ A -> p + 8 <= a \/ a + 8 * n <= p) -> kept A m m'.
Proof. intros H HA a n x Ha Hx. apply H. specialize (HA a n Ha). lia. Qed.

Lemma only_seg p m m' b G q : only_header p m m' -> seg m b G q -> b + 8 <= p \/ p + 8 <= b ->
  (forall a n, (a, n) ∈ G -> a + 8 <= p \/ p + 8 <= a) -> seg m' b G q.
Proof.
  intros H Hs Hb HG. eapply seg_ext; [exact Hs|apply (only_load p); [done|lia]|].
  intros a n Ha. specialize (HG a n Ha). split; apply (only_load p); (done || lia).
Qed.

Lemma rising_disj lo F : rising lo F -> disj F.
Proof.
  revert lo. induction F as [|[a n] F IH]; intros lo; cbn [rising disj]; [done|]. intros (H1 & H2 & H3). split; [|by eapply IH].
  apply Forall_forall. intros [b k] Hb. destruct (rising_in _ _ _ _ H3 Hb). left. cbn. lia.
Qed.

(** Joining the block [bp] with its right neighbour. *)
Lemma free_right s bp n G2 :
  let q := match G2 with [] => base | (a, _) :: _ => a end in
  h0 <= bp -> 0 < n -> bp + 8 * n < 2147483648 ->
  rising (bp + 8 * n - 1) G2 -> match G2 with [] => True | (a, n) :: G => load32 (hmem s) (a + 4) = n /\ seg (hmem s) a G base end ->
  (forall a k, (a, k) ∈ G2 -> a + 8 * k < 2147483648) -> load32 (hmem s) (bp + 4) = n ->
  wp (if u32 (bp + 8 * n) =? q then
        let! nq := size q in set_size bp (u32 (n + nq)) ;; let! qq := ptr q in set_ptr bp qq
      else set_ptr bp q) s (fun _ s' => exists m' n1 G2', s' = set_hmem m' s /\ only_header bp (hmem s) m' /\
    seg m' bp G2' base /\ load32 m' (bp + 4) = n1 /\ n <= n1 /\ rising (bp + 8 * n1) G2' /\ (G2' ⊆ G2) /\
    (n1 = n \/ exists a k, (a, k) ∈ G2 /\ bp + 8 * n1 = a + 8 * k) /\
    forall y, 0 < snd y -> apart (bp, n) y -> (forall z, z ∈ G2 -> apart z y) -> apart (bp, n1) y).
Proof.
  intros q Hh Hn Hw Hr Hs Hsm Hsz. rewrite u32_small by lia.
  assert (forall v, 0 <= v < 4294967296 -> load32 (store32 (hmem s) bp v) bp = v) as Hst by (intros; by apply load32_store32).
  assert (forall v, only_header bp (hmem s) (store32 (hmem s) bp v)) as Ho by (intros v x Hx; apply store32_other; unfold within; lia).
  destruct G2 as [|[a k] G2]; subst q.
  - rewrite (proj2 (Z.eqb_neq _ _)) by lia. apply wp_modify.
    exists (store32 (hmem s) bp base), n, []. split_and!; [done|done|cbn; apply Hst; lia|by rewrite load32_other by lia|lia|done|done|by left|done].
  - cbn [rising] in Hr. destruct Hr as (H1 & H2 & H3), Hs as [Hk Hs].
    pose proof (Hsm a k ltac:(set_solver)) as Ha. destruct (Z.eqb_spec (bp + 8 * n) a) as [E|E].
    + apply wp_bind, wp_gets. rewrite Hk, u32_small by lia. apply wp_bind, wp_modify, wp_bind, wp_gets. cbn [hmem set_hmem].
      rewrite load32_other by lia. rewrite (seg_ptr _ _ _ _ Hs). apply wp_modify. cbn [hmem set_hmem].
      set (q := match G2 with [] => base | (b, _) :: _ => b end).
      assert (0 <= q < 4294967296) as Hq.
      { subst q. destruct G2 as [|[b j] G2]; [lia|]. pose proof (Hsm b j ltac:(set_solver)). cbn [rising] in H3. lia. }
      set (m1 := store32 (hmem s) (bp + 4) (n + k)).
      assert (only_header bp (hmem s) (store32 m1 bp q)) as Ho'.
      { intros x Hx. subst m1. rewrite !store32_other; [done|unfold within; lia|unfold within; lia]. }
      exists (store32 m1 bp q), (n + k), G2. split_and!; [done|done| | |lia|eapply rising_mono; [|done]; lia|set_solver|right; exists a, k; split; [set_solver|lia]|].
      * destruct G2 as [|[b j] G2]; cbn [seg]; [by apply load32_store32|]. cbn [seg] in Hs. destruct Hs as (_ & Hj & Hs).
        cbn [rising] in H3. destruct H3 as (H3 & H4 & H5). split_and!; [by apply load32_store32|rewrite (only_load bp _ _ _ Ho'); [done|lia]|].
        eapply only_seg; [done|done|lia|]. intros c i Hc. destruct (rising_in _ _ _ _ H5 Hc). lia.
      * rewrite load32_other by lia. subst m1. apply load32_store32. lia.
      * intros [y ny] Hy Hap Hz. pose proof (Hz (a, k) ltac:(set_solver)) as Hz'. unfold apart in *. cbn [fst snd] in *. lia.
    + apply wp_modify. exists (store32 (hmem s) bp a), n, ((a, k) :: G2).
      split_and!; [done|done| |by rewrite load32_other by lia|lia|cbn [rising]; split_and!; (lia || done)|done|by left|done].
      cbn [seg]. split_and!; [apply Hst; lia|rewrite load32_other; [done|lia]|].
      eapply only_seg; [apply Ho|done|lia|]. intros c i Hc. destruct (rising_in _ _ _ _ H3 Hc). lia.
Qed.

Lemma only_seg_from p m m' b b' G q : only_header p m m' -> seg m b G q -> load32 m' b' = load32 m b ->
  (forall a n, (a, n) ∈ G -> a + 8 <= p \/ p + 8 <= a) -> seg m' b' G q.
Proof.
  intros H Hs Hb HG. destruct G as [|[a n] G]; cbn [seg] in *; [congruence|]. destruct Hs as (H1 & H2 & H3).
  pose proof (HG a n ltac:(set_solver)). split_and!; [congruence|rewrite (only_load p _ _ _ H); [done|lia]|].
  eapply only_seg; [done|done|lia|set_solver].
Qed.

(** The block [(bp, n)] has joined the free blocks [G1] on its left and [G2] on its
    right by a change of the header at [p] alone. *)
Definition joined (bp n : Z) (G1 G2 : list blk) (p : Z) (s s' : hst) : Prop :=
  exists m' F', s' = set_hmem m' s /\ only_header p (hmem s) m' /\
    seg m' base F' base /\ rising base F' /\ load32 m' (base + 4) = 0 /\ p ∈ base :: F'.*1 /\
    (exists a k, (a, k) ∈ F' /\ n <= k) /\
    (forall a k, (a, k) ∈ F' -> (a, k) ∈ G1 ++ G2 \/ h0 <= a /\ a + 8 * k = bp + 8 * n) /\
    forall y, 0 < snd y -> apart (bp, n) y -> (forall z, z ∈ G1 ++ G2 -> apart z y) -> forall z, z ∈ F' -> apart z y.

Section Left.
Context (s : hst) (bp n : Z) (G1 G2 : list blk) (q0 : Z).
Context (Hh : h0 <= bp) (Hn : 0 < n) (Hw : bp + 8 * n < 2147483648) (Hb0 : load32 (hmem s) (base + 4) = 0)
  (Hsz : load32 (hmem s) (bp + 4) = n) (Hs2 : seg (hmem s) bp G2 base) (Hr2 : rising (bp + 8 * n) G2)
  (HG2 : forall a k, (a, k) ∈ G2 -> a < 2147483648).

Lemma right_of_block a k : (a, k) ∈ G2 -> bp + 8 * n < a.
Proof. intros Ha. by destruct (rising_in _ _ _ _ Hr2 Ha). Qed.

(** The block is linked behind [p]. *)
Lemma free_link : let p := lastp base G1 in seg (hmem s) base G1 q0 -> rising base G1 ->
  (forall a k, (a, k) ∈ G1 -> h0 <= a /\ a + 8 * k <= bp) -> topend base G1 < bp ->
  wp (set_ptr p bp) s (fun _ s' => joined bp n G1 G2 p s s').
Proof.
  intros p Hs1 Hr1 HG1 Hgap. apply wp_modify. set (m' := store32 (hmem s) p bp).
  assert (only_header p (hmem s) m') as Ho by (intros x Hx; apply store32_other; unfold within; lia).
  assert (forall x, x ∈ base :: G1.*1 -> x <> p -> x + 8 <= p \/ p + 8 <= x) as Hhd.
  { intros x Hx Hne. apply (rising_headers base G1); [done| |done|apply lastp_in|done]. intros a k Ha. destruct (HG1 a k Ha). lia. }
  assert (forall x, x ∈ base :: G1.*1 -> load32 m' (x + 4) = load32 (hmem s) (x + 4)) as Hsize.
  { intros x Hx. apply load32_other. destruct (decide (x = p)) as [->|Hne]; [lia|]. specialize (Hhd x Hx Hne). lia. }
  assert (p + 8 <= bp) as Hp.
  { pose proof (lastp_in base G1) as Hin. fold p in Hin. apply elem_of_cons in Hin as [->|([a k] & -> & Ha)%list_elem_of_fmap]; [lia|].
    destruct (HG1 a k Ha), (rising_in _ _ _ _ Hr1 Ha). cbn. lia. }
  exists m', (G1 ++ (bp, n) :: G2). split_and!; [done|done| | |by rewrite Hsize by set_solver| | | |].
  - apply seg_app. split_and!; [|rewrite (only_load p _ _ _ Ho); [done|lia]|].
    + apply (seg_redirect (hmem s) m' base G1 q0 bp); [done| | |by apply rising_nodup|apply load32_store32; lia].
      * intros a k Ha. apply Hsize. apply elem_of_cons. right. apply list_elem_of_fmap. by exists (a, k).
      * intros x Hx Hne. apply load32_other. specialize (Hhd x Hx Hne). lia.
    + eapply only_seg; [done|done|lia|]. intros a k Ha. pose proof (right_of_block a k Ha). lia.
  - apply rising_app. cbn [rising]. done.
  - pose proof (lastp_in base G1). rewrite fmap_app. set_solver.
  - exists bp, n. split; [set_solver|lia].
  - intros b j [Hb|[[= -> ->]|Hb]%elem_of_cons]%elem_of_app; [left; set_solver|right; lia|left; set_solver].
  - intros y Hy Hap Hz z [Hin|[->|Hin]%elem_of_cons]%elem_of_app; [apply Hz; set_solver|done|apply Hz; set_solver].
Qed.

(** The block is merged with the block [(a, k)] that ends where it begins. *)
Lemma free_merge G a k : G1 = G ++ [(a, k)] -> seg (hmem s) base G1 q0 -> rising base G1 ->
  (forall b j, (b, j) ∈ G1 -> h0 <= b) -> a + 8 * k = bp ->
  wp (let! n := size bp in set_size a (u32 (k + n)) ;; let! q := ptr bp in set_ptr a q) s (fun _ s' => joined bp n G1 G2 a s s').
Proof.
  intros -> Hs1 Hr1 HG1 E. apply seg_app in Hs1 as (Hs1 & Hk & _). pose proof (HG1 a k ltac:(set_solver)) as Hha.
  apply rising_app in Hr1 as [Hr1 (Hra & Hk0 & _)].
  assert (forall b j, (b, j) ∈ G -> b + 8 <= a) as HG1a.
  { intros b j Hb. apply list_elem_of_split in Hb as (X & Y & ->). apply rising_app in Hr1 as [_ Hr1]. cbn [rising] in Hr1. destruct Hr1 as (_ & Hj & HrY).
    rewrite topend_app in Hra. cbn [topend] in Hra. pose proof (topend_ge _ _ HrY). lia. }
  apply wp_bind, wp_gets. rewrite Hsz, u32_small by lia. apply wp_bind, wp_modify, wp_bind, wp_gets. cbn [hmem set_hmem].
  rewrite load32_other, (seg_ptr _ _ _ _ Hs2) by lia. apply wp_modify. cbn [hmem set_hmem].
  set (q := match G2 with [] => base | (c, _) :: _ => c end). set (m' := store32 _ a q).
  assert (0 <= q < 4294967296) as Hq.
  { pose proof right_of_block as Hro. pose proof HG2 as Hg. subst q. clear -Hro Hg Hbase Hh Hn Hw. destruct G2 as [|[c j] G']; [lia|].
    pose proof (Hg c j ltac:(set_solver)). pose proof (Hro c j ltac:(set_solver)). lia. }
  assert (only_header a (hmem s) m') as Ho.
  { intros x Hx. subst m'. rewrite !store32_other; [done|unfold within; lia|unfold within; lia]. }
  exists m', (G ++ (a, k + n) :: G2).
  split_and!; [done|done| | |rewrite (only_load a _ _ _ Ho); [done|lia]|rewrite fmap_app; set_solver| | |].
  - apply seg_app. split_and!.
    + eapply only_seg; [done|done|lia|]. intros b j Hb. specialize (HG1a b j Hb). lia.
    + subst m'. rewrite load32_other by lia. apply load32_store32. lia.
    + eapply (only_seg_from a _ _ bp); [done|done| |].
      * subst m'. rewrite load32_store32 by done. by rewrite (seg_ptr _ _ _ _ Hs2).
      * intros b j Hb. pose proof (right_of_block b j Hb). lia.
  - apply rising_app. split; [done|]. cbn [rising]. split_and!; [done|lia|]. by replace (a + 8 * (k + n)) with (bp + 8 * n) by lia.
  - exists a, (k + n). split; [set_solver|lia].
  - intros b j [Hb|[[= -> ->]|Hb]%elem_of_cons]%elem_of_app; [left; set_solver|right; lia|left; set_solver].
  - intros y Hy Hap Hz z [Hin|[->|Hin]%elem_of_cons]%elem_of_app; [apply Hz; set_solver| |apply Hz; set_solver].
    pose proof (Hz (a, k) ltac:(set_solver)) as Hz'. unfold apart in *. cbn [fst snd] in *. lia.
Qed.

(** Joining the block with its left neighbour. *)
Lemma free_left : let p := lastp base G1 in seg (hmem s) base G1 q0 -> rising base G1 ->
  (forall a k, (a, k) ∈ G1 -> h0 <= a /\ a + 8 * k <= bp) ->
  wp (let! np := size p in
      if u32 (p + 8 * np) =? bp then
        let! n := size bp in set_size p (u32 (np + n)) ;; let! q := ptr bp in set_ptr p q
      else set_ptr p bp) s (fun _ s' => joined bp n G1 G2 p s s').
Proof.
  intros p Hs1 Hr1 HG1. apply wp_bind, wp_gets. destruct G1 as [|[a k] G _] eqn:EG using rev_ind.
  - cbn [lastp] in p. subst p. rewrite Hb0, u32_small by lia. rewrite (proj2 (Z.eqb_neq _ _)) by lia. rewrite <- EG in *.
    assert (lastp base G1 = base) as El by (by rewrite EG). pose proof (free_link Hs1 Hr1 HG1) as L. cbv zeta in L. rewrite El in L.
    apply L. rewrite EG. cbn. lia.
  - assert (p = a) as -> by (subst p; by rewrite lastp_app). destruct (HG1 a k ltac:(set_solver)) as [Hha Hka].
    pose proof Hs1 as (_ & -> & _)%seg_app. pose proof Hr1 as [_ (_ & Hk0 & _)]%rising_app. rewrite u32_small by lia.
    destruct (Z.eqb_spec (a + 8 * k) bp) as [E|E]; rewrite <- EG in *.
    + eapply free_merge; [exact EG|done|done| |done]. intros b j Hb. by apply (HG1 b j).
    + assert (lastp base G1 = a) as <- by (rewrite EG; by rewrite lastp_app). apply free_link; [done|done|done|].
      rewrite EG, topend_app. cbn. lia.
Qed.

End Left.

(** The free blocks on the left and on the right of a used block. *)
Lemma free_around F bp n : rising base F -> 0 < n -> (forall a k, (a, k) ∈ F -> apart (a, k) (bp, n)) -> (forall a k, (a, k) ∈ F -> h0 <= a) ->
  exists G1 G2, F = G1 ++ G2 /\ (forall a k, (a, k) ∈ G1 -> a < bp) /\ (forall a k, (a, k) ∈ G2 -> bp < a) /\
    (forall a k, (a, k) ∈ G1 -> h0 <= a /\ 0 < k /\ a + 8 * k <= bp) /\ rising (bp + 8 * n - 1) G2.
Proof.
  intros Hr Hn Hap Hlo. destruct (split_at base F bp Hr) as (G1 & G2 & EF & HG1 & HG2).
  { intros a k Ha ->. specialize (Hap _ _ Ha). destruct (rising_in _ _ _ _ Hr Ha). unfold apart in Hap. cbn in Hap. lia. }
  exists G1, G2. split_and!; [done|done|done| |].
  - intros a k Ha. assert ((a, k) ∈ F) as Hf by set_solver. specialize (Hap a k Hf). specialize (HG1 a k Ha). destruct (rising_in _ _ _ _ Hr Hf).
    unfold apart in Hap. cbn in Hap. split_and!; [by eapply Hlo|done|lia].
  - rewrite EF in Hr. apply rising_app in Hr as [_ Hr]. destruct G2 as [|[a k] G2]; [done|]. cbn [rising] in Hr |- *. destruct Hr as (_ & ? & ?).
    specialize (Hap a k ltac:(set_solver)). specialize (HG2 a k ltac:(set_solver)). unfold apart in Hap. cbn in Hap. split_and!; [lia|done|done].
Qed.

Lemma free_run s F bp n A : heap_inv s F ((bp, n) :: A) ->
  wp (free (bp + 8)) s (fun _ s' => exists F', heap_inv s' F' A /\ kept A (hmem s) (hmem s') /\
    brk s' = brk s /\ lim s' = lim s /\ exists a k, (a, k) ∈ F' /\ n <= k).
Proof.
  intros HI. pose proof (free_length _ _ _ HI) as Hlen. destruct HI as [Hb0 Hs Hr Hin Hus Hd Hf Hbr].
  apply disj_app in Hd as (HdF & [HdA0 HdA]%disj_one & HdFA).
  destruct (Hin bp n ltac:(set_solver)) as (Hh & Hn & Hw).
  assert (forall a k, (a, k) ∈ A -> (h0 <= a /\ 0 < k /\ a + 8 * k <= brk s) /\ load32 (hmem s) (a + 4) = k /\
    forall z, z ∈ F -> apart z (a, k)) as HA by (intros a k Ha; split; [apply Hin; set_solver|split; [apply Hus; set_solver|intros; apply HdFA; set_solver]]).
  destruct (free_around F bp n Hr) as (G1 & G2 & EF & HG1 & HG2 & HG1' & Hr2'); [lia|intros; apply HdFA; set_solver|intros a k Ha; destruct (Hin a k); [set_solver|lia]|].
  assert (forall a k, (a, k) ∈ F -> h0 <= a /\ 0 < k /\ a + 8 * k <= brk s) as HF by (intros; apply Hin; set_solver).
  unfold free. replace (bp + 8 - 8) with bp by lia. apply wp_bind, wp_gets.
  eapply wp_seq; [eapply (free_loop_run s F G1 G2); [done|done|done|done|lia|done|done|done]|]. cbn beta. intros p s0 [-> ->].
  assert (forall z, z ∈ G1 -> z ∈ F) as HF1 by set_solver. assert (forall z, z ∈ G2 -> z ∈ F) as HF2 by set_solver.
  rewrite EF in Hs, Hr. apply seg_app' in Hs as [Hs1 Hs2]. apply rising_app in Hr as [Hr1 Hr2].
  set (q := match G2 with [] => base | (a, _) :: _ => a end) in *.
  apply wp_bind, wp_gets. rewrite (seg_last _ _ _ _ Hs1). apply wp_bind, wp_gets. rewrite (Hus bp n) by set_solver.
  eapply wp_seq.
  { apply (free_right s bp n G2); [done|done|lia|done|done| |by apply Hus; set_solver].
    intros a k Ha. destruct (HF a k (HF2 _ Ha)). lia. }
  cbn beta. intros [] s1 (m1 & n1 & G2' & -> & Ho1 & Hs3 & Hn1 & Hle & Hr3 & Hsub & Hend & Hap1).
  assert (bp + 8 * n1 <= brk s) as Hw1.
  { destruct Hend as [->|(a & k & Ha & ->)]; [done|]. by apply (HF a k), HF2. }
  eapply wp_seq.
  { apply (free_left (set_hmem m1 s) bp n1 G1 G2' q); cbn [hmem set_hmem]; [done|lia|lia| |done|done|done| | |done|].
    - rewrite (only_load bp _ _ _ Ho1); [done|lia].
    - intros a k Ha. destruct (HF a k (HF2 _ (Hsub _ Ha))) as (_ & ? & ?). lia.
    - eapply only_seg; [exact Ho1|done|lia|]. intros a k Ha. destruct (HG1' a k Ha). lia.
    - intros a k Ha. destruct (HG1' a k Ha). lia. }
  cbn beta. intros [] s2 (m2 & F' & -> & Ho2 & Hs' & Hr' & Hb' & Hp' & (a0 & k0 & Ha0 & Hk0) & HF' & Hap'). apply wp_modify.
  cbn [hmem set_hmem brk lim set_freep] in *.
  assert (forall z, z ∈ G1 ++ G2' -> z ∈ F) as HFG by (intros z [Hz|Hz]%elem_of_app; [by apply HF1|by apply HF2, Hsub]).
  assert (kept A (hmem s) m2) as Hk.
  { apply (kept_step _ _ m1); [eapply only_kept; [exact Ho1|]|eapply only_kept; [exact Ho2|]]; intros a k Ha;
      destruct (HA a k Ha) as ((? & ? & ?) & _ & Hap).
    - pose proof (HdA0 (a, k) Ha) as Hap0. unfold apart in Hap0. cbn in Hap0. lia.
    - pose proof (lastp_in base G1) as [->|([b j] & -> & Hb)%list_elem_of_fmap]%elem_of_cons; [lia|].
      specialize (Hap (b, j) (HF1 _ Hb)). destruct (HF b j (HF1 _ Hb)) as (_ & ? & _). unfold apart in Hap. cbn in Hap |- *. lia. }
  exists F'. split_and!; [|done|done|done|exists a0, k0; split; [done|lia]]. split; cbn [hmem set_hmem brk lim freep set_freep]; [done|done|done| | | |done|done].
  - intros a k [Ha|Ha]%elem_of_app; [|by apply HA]. destruct (rising_in _ _ _ _ Hr' Ha).
    destruct (HF' a k Ha) as [Hg|[? ?]]; [|lia]. destruct (HF a k (HFG _ Hg)) as (? & ? & ?). lia.
  - intros a k Ha. destruct (HA a k Ha) as ((_ & ? & _) & <- & _). by apply (kept_size _ _ _ _ _ Hk Ha).
  - apply disj_app. split_and!; [by eapply rising_disj|done|]. intros z [a k] Hz Ha. destruct (HA a k Ha) as ((_ & ? & _) & _ & Hap).
    apply Hap'; [done| |intros w Hw'; by apply Hap, HFG|done]. apply Hap1; [done|by apply HdA0|]. intros w Hw'. by apply Hap, HF2.
Qed.

End Heap.
