(* ===== verification/UmallocSpec.v ===== *)
(** * What [malloc] and [free] promise

    Blocks that a program has been given do not overlap, lie in the heap, are as
    big as asked for, and keep what the program writes to them. *)
From S2P Require Import Prelude Str Umalloc.

Section Heap.
Context (base h0 : Z) (Hbase : 0 < base /\ base + 8 <= h0).

Abbreviation heap_inv := (heap_inv base h0).

(** ** [malloc] *)

(** Room for [nu] units at the end of the heap. *)
Lemma heap_grow s F A nu : heap_inv s F A -> 0 < nu -> brk s + 8 * nu <= lim s ->
  heap_inv (set_hmem (store32 (hmem s) (brk s + 4) nu) (set_brk (brk s + 8 * nu) s)) F ((brk s, nu) :: A) /\
  kept A (hmem s) (store32 (hmem s) (brk s + 4) nu).
Proof.
  intros [Hb0 Hs Hr Hin Hus Hd Hf Hbr] Hnu Hl.
  assert (only_header (brk s) (hmem s) (store32 (hmem s) (brk s + 4) nu)) as Ho
    by (intros x Hx; apply store32_other; unfold within; lia).
  assert (forall a n, (a, n) ∈ F ++ A -> a + 8 <= brk s) as Hlow by (intros a n Ha; destruct (Hin a n Ha) as (? & ? & ?); lia).
  assert (kept A (hmem s) (store32 (hmem s) (brk s + 4) nu)) as Hk.
  { eapply only_kept; [exact Ho|]. intros a n Ha. destruct (Hin a n ltac:(set_solver)) as (? & ? & ?). lia. }
  split; [|done]. split; cbn [hmem set_hmem set_brk brk lim freep]; [|eapply only_seg; [exact Ho|done|lia|]|done| | | |done|lia].
  - rewrite (only_load _ _ _ _ Ho); [done|lia].
  - intros a n Ha. specialize (Hlow a n ltac:(set_solver)). lia.
  - intros a n Ha. assert ((a, n) ∈ F ++ A \/ (a, n) = (brk s, nu)) as [Ha'|[= -> ->]] by set_solver; [|lia].
    destruct (Hin a n Ha') as (? & ? & ?). lia.
  - intros a n [[= -> ->]|Ha]%elem_of_cons; [apply load32_store32; lia|].
    rewrite (kept_size _ _ _ _ _ Hk Ha); [by apply Hus|]. destruct (Hin a n ltac:(set_solver)) as (_ & ? & _). done.
  - apply (disj_perm ((brk s, nu) :: F ++ A)); [apply Permutation_middle|]. apply disj_one. split; [|done].
    intros [a n] Ha. destruct (Hin a n Ha) as (? & ? & ?). right. cbn. lia.
Qed.

Lemma morecore_run s F A nu : heap_inv s F A -> 0 < nu -> 8 * nu < 2147483648 ->
  wp (morecore nu) s (fun r s' =>
    (r = 0 /\ s' = s /\ lim s < brk s + 8 * Z.max 4096 nu) \/
    (0 < r /\ r = freep s' /\ exists F', heap_inv s' F' A /\ kept A (hmem s) (hmem s') /\
       brk s <= brk s' /\ lim s' = lim s /\ exists a k, (a, k) ∈ F' /\ nu <= k)).
Proof.
  intros HI Hnu Hw. unfold morecore. replace (if nu <? 4096 then 4096 else nu) with (Z.max 4096 nu) by (destruct (Z.ltb_spec nu 4096); lia).
  set (n := Z.max 4096 nu). assert (0 < n /\ 8 * n < 2147483648 /\ nu <= n) as (Hn & Hnw & Hle) by lia.
  pose proof (hv_brk _ _ _ _ _ HI) as Hbr. apply wp_bind. unfold sbrk. rewrite u32_small, s32_small by lia. apply wp_bind, wp_gets.
  rewrite (proj2 (Z.leb_le 0 _)) by lia. destruct (Z.leb_spec (brk s + n * 8) (lim s)) as [Hfit|Hfit].
  - apply wp_bind, wp_modify, wp_ret. rewrite (proj2 (Z.eqb_neq _ _)) by lia. apply wp_bind, wp_modify.
    destruct (heap_grow s F A n HI Hn ltac:(lia)) as [HI' Hk]. replace (n * 8) with (8 * n) by lia.
    eapply wp_seq; [apply (free_run base h0 Hbase _ F (brk s) n A HI')|]. cbn beta. intros [] s' (F' & HI2 & Hk2 & Hb2 & Hl2 & a & k & Ha & Hak).
    apply wp_gets. cbn [hmem set_hmem set_brk brk lim] in *. right.
    pose proof (hv_freep _ _ _ _ _ HI2) as Hfp. split_and!; [|done|].
    + apply elem_of_cons in Hfp as [->|([b j] & -> & Hb)%list_elem_of_fmap]; [lia|]. destruct (hv_in _ _ _ _ _ HI2 b j ltac:(set_solver)). cbn. lia.
    + exists F'. split_and!; [done|by eapply kept_step|lia|done|]. exists a, k. split; [done|lia].
  - apply wp_ret. rewrite Z.eqb_refl. apply wp_ret. left. split_and!; [done|done|lia].
Qed.

(** Where the other headers are. *)
Lemma free_split s F1 p n F2 A : heap_inv s (F1 ++ (p, n) :: F2) A ->
  h0 <= p /\ 0 < n /\ p + 8 * n <= brk s /\ topend base F1 < p /\ rising (p + 8 * n) F2 /\
  (forall a k, (a, k) ∈ F1 -> h0 <= a /\ a + 8 <= p) /\ (forall a k, (a, k) ∈ F2 -> p + 8 * n < a) /\
  (forall a k, (a, k) ∈ A -> 0 < k /\ h0 <= a /\ apart (p, n) (a, k)) /\
  (forall z y, z ∈ F1 -> y ∈ A -> apart z y).
Proof.
  intros [Hb0 Hs Hr Hin Hus Hd Hf Hbr]. destruct (Hin p n ltac:(set_solver)) as (? & ? & ?).
  apply rising_app in Hr as [Hr1 (Hp & _ & Hr2)]. apply disj_app in Hd as (HdF & _ & Hx).
  split_and!; try done; try lia.
  - intros a k Ha. destruct (Hin a k ltac:(set_solver)) as (? & ? & ?). split; [done|].
    apply list_elem_of_split in Ha as (X & Y & ->). apply rising_app in Hr1 as [_ (_ & _ & HrY)].
    rewrite topend_app in Hp. cbn [topend] in Hp. pose proof (topend_ge _ _ HrY). lia.
  - intros a k Ha. by destruct (rising_in _ _ _ _ Hr2 Ha).
  - intros a k Ha. destruct (Hin a k ltac:(set_solver)) as (? & ? & ?). split_and!; [done|done|]. apply Hx; set_solver.
  - intros z y Hz Hy. apply Hx; set_solver.
Qed.

(** The whole block. *)
Lemma take_all s F1 p n F2 A : heap_inv s (F1 ++ (p, n) :: F2) A ->
  let prev := lastp base F1 in
  let m' := store32 (hmem s) prev (match F2 with [] => base | (a, _) :: _ => a end) in
  heap_inv (set_freep prev (set_hmem m' s)) (F1 ++ F2) ((p, n) :: A) /\ kept ((p, n) :: A) (hmem s) m'.
Proof.
  intros HI prev m'. destruct (free_split _ _ _ _ _ _ HI) as (Hp & Hn & Hpb & Htop & Hr2 & HF1 & HF2 & HA & Hx).
  destruct HI as [Hb0 Hs Hr Hin Hus Hd Hf Hbr]. apply rising_app in Hr as [Hr1 _]. apply seg_app in Hs as (Hs1 & Hk & Hs2).
  set (q := match F2 with [] => base | (a, _) :: _ => a end) in *.
  assert (0 <= q < 4294967296) as Hq.
  { subst q. destruct F2 as [|[a k] F2]; [lia|]. destruct (Hin a k ltac:(set_solver)) as (? & ? & ?). lia. }
  assert (prev ∈ base :: F1.*1) as Hprev by apply lastp_in.
  assert (prev + 8 <= p) as Hpp.
  { apply elem_of_cons in Hprev as [->|([b j] & -> & Hb)%list_elem_of_fmap]; [lia|]. by apply (HF1 b j). }
  assert (only_header prev (hmem s) m') as Ho by (intros x Hxx; apply store32_other; unfold within; lia).
  assert (kept ((p, n) :: A) (hmem s) m') as Hkp.
  { eapply only_kept; [exact Ho|]. intros a k [[= -> ->]|Ha]%elem_of_cons; [lia|]. destruct (HA a k Ha) as (? & ? & _).
    apply elem_of_cons in Hprev as [->|([b j] & -> & Hb)%list_elem_of_fmap]; [lia|].
    pose proof (Hx _ _ Hb Ha) as Hap. destruct (Hin b j ltac:(set_solver)) as (_ & ? & _). unfold apart in Hap. cbn in Hap |- *. lia. }
  assert (NoDup (base :: F1.*1)) as Hnd by (by apply rising_nodup).
  assert (forall x y, x ∈ base :: F1.*1 -> y ∈ base :: F1.*1 -> x <> y -> x + 8 <= y \/ y + 8 <= x) as Hhd.
  { intros x y. eapply rising_headers; [exact Hr1|]. intros a k Ha. destruct (HF1 a k Ha). lia. }
  split; [|done]. split; cbn [hmem set_hmem brk lim freep set_freep]; [| | | | | |rewrite fmap_app; set_solver|done].
  - subst m'. destruct (decide (prev = base)) as [->|Hne]; [by rewrite load32_other by lia|].
    rewrite (only_load prev _ _ _ Ho); [done|]. destruct (Hhd prev base); [done|set_solver|done|lia|lia].
  - apply seg_app'. fold q. split.
    + eapply seg_redirect; [exact Hs1| | |done|by apply load32_store32].
      * intros a k Ha. subst m'. apply load32_other. destruct (decide (a = prev)) as [->|Hne]; [lia|].
        destruct (Hhd a prev); [apply elem_of_cons; right; apply list_elem_of_fmap; by exists (a, k)|done|done|lia|lia].
      * intros x Hxx Hne. subst m'. apply load32_other. destruct (Hhd x prev); [done|done|done|lia|lia].
    + destruct F2 as [|[a k] F2]; [done|]. cbn [seg] in Hs2. destruct Hs2 as (_ & Hak & Hs2). pose proof (HF2 a k ltac:(set_solver)).
      split; [rewrite (only_load prev _ _ _ Ho); [done|lia]|]. eapply only_seg; [exact Ho|done|lia|].
      intros b j Hb. pose proof (HF2 b j ltac:(set_solver)). lia.
  - apply rising_app. split; [done|]. eapply rising_mono; [|exact Hr2]. lia.
  - intros a k Ha. apply Hin. set_solver.
  - intros a k Ha. rewrite (kept_size _ _ _ a k Hkp Ha); apply elem_of_cons in Ha as [[= -> ->]|Ha]; [done|by apply Hus|done|by apply (HA a k)].
  - eapply disj_perm; [|exact Hd]. rewrite <- !app_assoc. cbn [app]. by rewrite <- Permutation_middle, app_assoc, Permutation_middle, <- app_assoc.
Qed.

(** The last [nu] units of the block. *)
Lemma take_part s F1 p n F2 A nu : heap_inv s (F1 ++ (p, n) :: F2) A -> 0 < nu < n ->
  let r := p + 8 * (n - nu) in
  let m' := store32 (store32 (hmem s) (p + 4) (n - nu)) (r + 4) nu in
  heap_inv (set_freep (lastp base F1) (set_hmem m' s)) (F1 ++ (p, n - nu) :: F2) ((r, nu) :: A) /\ kept A (hmem s) m'.
Proof.
  intros HI Hnu r m'. destruct (free_split _ _ _ _ _ _ HI) as (Hp & Hn & Hpb & Htop & Hr2 & HF1 & HF2 & HA & Hx).
  destruct HI as [Hb0 Hs Hr Hin Hus Hd Hf Hbr]. pose proof Hr as Hr0. apply rising_app in Hr as [Hr1 _]. apply seg_app in Hs as (Hs1 & Hk & Hs2).
  assert (forall x, x < p + 4 \/ p + 8 * n <= x -> m' x = hmem s x) as Ho.
  { intros x Hxx. subst m' r. rewrite !store32_other; [done|unfold within; lia|unfold within; lia]. }
  assert (forall x, x + 4 <= p + 4 \/ p + 8 * n <= x -> load32 m' x = load32 (hmem s) x) as Hld
    by (intros x Hxx; apply load32_ext; intros k Hk'; apply Ho; lia).
  assert (kept A (hmem s) m') as Hkp.
  { intros a k x Ha Hxx. apply Ho. destruct (HA a k Ha) as (_ & _ & Hap). unfold apart in Hap. cbn in Hap. lia. }
  assert (disj ((p, n) :: (F1 ++ F2) ++ A)) as [Hpz Hd']%disj_one.
  { eapply disj_perm; [|exact Hd]. rewrite <- !app_assoc. cbn [app]. by rewrite <- Permutation_middle. }
  split; [|done]. split; cbn [hmem set_hmem brk lim freep set_freep]; [rewrite Hld; [done|lia]| | | | | |rewrite fmap_app; pose proof (lastp_in base F1); set_solver|done].
  - apply seg_app. split_and!.
    + eapply seg_ext; [exact Hs1|apply Hld; lia|]. intros a k Ha. destruct (HF1 a k Ha). split; apply Hld; lia.
    + subst m' r. rewrite load32_other by lia. apply load32_store32. lia.
    + eapply seg_ext; [exact Hs2|apply Hld; lia|]. intros a k Ha. specialize (HF2 a k Ha). split; apply Hld; lia.
  - apply rising_app. split; [done|]. cbn [rising]. split_and!; [lia|lia|]. eapply rising_mono; [|exact Hr2]. lia.
  - intros a k Ha. assert ((a, k) = (p, n - nu) \/ (a, k) = (r, nu) \/ (a, k) ∈ F1 ++ (p, n) :: F2 ++ A) as [[= -> ->]|[[= -> ->]|Ha']] by set_solver.
    + lia.
    + subst r. lia.
    + apply Hin. rewrite <- app_assoc. done.
  - intros a k [[= -> ->]|Ha]%elem_of_cons; [subst m'; apply load32_store32; lia|].
    rewrite (kept_size _ _ _ a k Hkp Ha); [by apply Hus|by apply (HA a k)].
  - apply (disj_perm ((p, n - nu) :: (r, nu) :: (F1 ++ F2) ++ A)).
    { rewrite <- (app_assoc F1). cbn [app]. rewrite <- (Permutation_middle F1). constructor.
      by rewrite (app_assoc F1 F2), <- (Permutation_middle (F1 ++ F2)). }
    assert (forall q j, p <= q -> q + 8 * j <= p + 8 * n -> forall z, z ∈ (F1 ++ F2) ++ A -> apart (q, j) z) as Hsub.
    { intros q j Hq1 Hq2 z Hz. specialize (Hpz z Hz). unfold apart in *. cbn in *. lia. }
    apply disj_one. split; [|apply disj_one; split; [apply Hsub; subst r; lia|]].
    + intros z [->|Hz]%elem_of_cons; [left; subst r; cbn; lia|]. apply Hsub; [lia|lia|done].
    + done.
Qed.

Lemma take_block_run s F1 p n F2 A nu : heap_inv s (F1 ++ (p, n) :: F2) A -> 0 < nu <= n ->
  wp (take_block nu (lastp base F1) p n) s (fun r s' => 8 < r /\ exists F', heap_inv s' F' ((r - 8, nu) :: A) /\
    kept A (hmem s) (hmem s') /\ brk s' = brk s /\ lim s' = lim s).
Proof.
  intros HI Hnu. destruct (free_split _ _ _ _ _ _ HI) as (Hp & Hn & Hpb & _). pose proof (hv_brk _ _ _ _ _ HI) as Hbr.
  pose proof (hv_seg _ _ _ _ _ HI) as (_ & Hk & Hs2)%seg_app. unfold take_block. apply wp_bind. destruct (Z.eqb_spec n nu) as [->|Hne].
  - apply wp_bind, wp_gets. rewrite (seg_ptr _ _ _ _ Hs2). apply wp_bind, wp_modify, wp_ret, wp_bind, wp_modify, wp_ret.
    destruct (take_all _ _ _ _ _ _ HI) as [HI' Hkp]. split; [lia|]. exists (F1 ++ F2). replace (p + 8 - 8) with p by lia.
    split_and!; [done| |done|done]. cbn [hmem set_freep set_hmem]. eapply kept_mono; [|exact Hkp]. set_solver.
  - destruct (take_part _ _ _ _ _ _ nu HI ltac:(lia)) as [HI' Hkp].
    apply wp_bind, wp_modify, wp_bind, wp_gets. cbn [hmem set_hmem]. rewrite load32_store32, u32_small by lia.
    apply wp_bind, wp_modify, wp_ret, wp_bind, wp_modify, wp_ret. cbn [hmem set_hmem]. split; [lia|].
    exists (F1 ++ (p, n - nu) :: F2). replace (p + 8 * (n - nu) + 8 - 8) with (p + 8 * (n - nu)) by lia. by split_and!.
Qed.

(** What follows when no block is big enough. *)
Definition more (k : nat) (nu : Z) : HM Z :=
  let! p := morecore nu in
  if p =? 0 then ret 0 else let! q := ptr p in malloc_loop k nu p q.

Lemma loop_step k nu prev p s (Q : Z -> hst -> Prop) :
  (nu <= load32 (hmem s) (p + 4) -> wp (take_block nu prev p (load32 (hmem s) (p + 4))) s Q) ->
  (load32 (hmem s) (p + 4) < nu -> p <> freep s -> wp (malloc_loop k nu p (load32 (hmem s) p)) s Q) ->
  (load32 (hmem s) (p + 4) < nu -> p = freep s -> wp (more k nu) s Q) ->
  wp (malloc_loop (S k) nu prev p) s Q.
Proof.
  intros H1 H2 H3. cbn [malloc_loop]. apply wp_bind, wp_gets. destruct (Z.leb_spec nu (load32 (hmem s) (p + 4))); [by apply H1|].
  apply wp_bind, wp_gets. destruct (Z.eqb_spec p (freep s)); [by apply H3|]. apply wp_bind, wp_gets. by apply H2.
Qed.

Lemma scan_seg nu k q s (Q : Z -> hst -> Prop) : forall G prev,
  seg (hmem s) prev G q -> freep s ∉ G.*1 ->
  (forall G1 a n G2, G = G1 ++ (a, n) :: G2 -> nu <= n -> wp (take_block nu (lastp prev G1) a n) s Q) ->
  ((forall a n, (a, n) ∈ G -> n < nu) -> wp (malloc_loop k nu (lastp prev G) q) s Q) ->
  wp (malloc_loop (length G + k) nu prev (load32 (hmem s) prev)) s Q.
Proof.
  induction G as [|[a n] G IH]; intros prev Hs Hf Hfound Hend; cbn [seg length Nat.add lastp] in *.
  - rewrite Hs. apply Hend. set_solver.
  - destruct Hs as (-> & Hn & Hs). cbn [fmap list_fmap fst] in Hf. apply loop_step; rewrite Hn; intros Hc.
    + by apply (Hfound [] a n G).
    + intros _. apply IH; [done|set_solver| |].
      * intros G1 b j G2 -> Hj. by apply (Hfound ((a, n) :: G1) b j G2).
      * intros Hall. apply Hend. intros b j [[= -> ->]|Hb]%elem_of_cons; [done|by eapply Hall].
    + intros ->. set_solver.
Qed.

(** Once around the list, from the block after [freep] to [freep]. *)
Lemma scan_ring s F A nu k (Q : Z -> hst -> Prop) : heap_inv s F A -> 0 < nu ->
  (forall F1 a n F2, F = F1 ++ (a, n) :: F2 -> nu <= n -> wp (take_block nu (lastp base F1) a n) s Q) ->
  ((forall a n, (a, n) ∈ F -> n < nu) -> wp (more k nu) s Q) ->
  wp (malloc_loop (S (length F) + k) nu (freep s) (load32 (hmem s) (freep s))) s Q.
Proof.
  intros HI Hnu Hfound Hnone. pose proof (rising_nodup _ _ (hv_rising _ _ _ _ _ HI)) as Hnd. destruct HI as [Hb0 Hs Hr Hin Hus Hd Hf Hbr].
  apply elem_of_cons in Hf as [Hf|([f n] & Hf & Hin')%list_elem_of_fmap].
  - rewrite Hf. replace (S (length F) + k)%nat with (length F + S k)%nat by lia. apply NoDup_cons in Hnd as [Hnb _].
    eapply scan_seg; [exact Hs|by rewrite Hf|done|]. intros Hall. apply loop_step; rewrite Hb0; [lia|congruence|by auto].
  - cbn in Hf. apply list_elem_of_split in Hin' as (X & Y & ->). rewrite <- Hf in *. clear f Hf.
    apply seg_app in Hs as (HsX & Hn & HsY). rewrite fmap_app in Hnd. cbn [fmap list_fmap fst] in Hnd.
    apply NoDup_cons in Hnd as [Hnb Hnd]. apply NoDup_app in Hnd as (_ & Hnx & [Hny _]%NoDup_cons).
    rewrite length_app. cbn [length]. replace (S (length X + S (length Y)) + k)%nat with (length Y + (S (length X + S k)))%nat by lia.
    eapply scan_seg; [exact HsY|done| |].
    { intros G1 a j G2 -> Hj. specialize (Hfound (X ++ (freep s, n) :: G1) a j G2). rewrite <- app_assoc in Hfound.
      rewrite lastp_app in Hfound. by apply Hfound. }
    intros HallY. apply loop_step; rewrite Hb0; [lia| |set_solver]. intros _ _. eapply scan_seg; [exact HsX| | |].
    + intros Hx. apply (Hnx _ Hx). set_solver.
    + intros G1 a j G2 -> Hj. apply (Hfound G1 a j (G2 ++ (freep s, n) :: Y)); [by rewrite <- app_assoc|done].
    + intros HallX. apply loop_step; rewrite Hn; [intros Hc; by apply (Hfound X (freep s) n Y)|done|]. intros Hc _. apply Hnone.
      intros a j [Ha|[[= -> ->]|Ha]%elem_of_cons]%elem_of_app; eauto.
Qed.

(** The heap before and after the first call. *)
Definition heap_ready (s : hst) (F A : list blk) : Prop :=
  heap_inv s F A \/ freep s = 0 /\ F = [] /\ A = [] /\ h0 <= brk s <= lim s /\ lim s < 2147483648.

Lemma malloc_loop_run s F A nu (k : nat) : heap_inv s F A -> 0 < nu -> 8 * nu < 2147483648 ->
  (2 * rounds s + 2 <= k)%nat ->
  wp (malloc_loop k nu (freep s) (load32 (hmem s) (freep s))) s (fun r s' => exists F',
    kept A (hmem s) (hmem s') /\ lim s' = lim s /\ brk s <= brk s' /\
    (r = 0 /\ heap_inv s' F' A /\ lim s < brk s + 8 * Z.max 4096 nu \/
     8 < r /\ heap_inv s' F' ((r - 8, nu) :: A))).
Proof.
  intros HI Hnu Hw Hk. pose proof (free_length _ _ Hbase _ _ _ HI) as Hlen.
  assert (forall s1 F1, heap_inv s1 F1 A -> lim s1 = lim s -> brk s <= brk s1 -> kept A (hmem s) (hmem s1) ->
    forall G1 a n G2, F1 = G1 ++ (a, n) :: G2 -> nu <= n ->
    wp (take_block nu (lastp base G1) a n) s1 (fun r s' => exists F',
      kept A (hmem s) (hmem s') /\ lim s' = lim s /\ brk s <= brk s' /\
      (r = 0 /\ heap_inv s' F' A /\ lim s < brk s + 8 * Z.max 4096 nu \/ 8 < r /\ heap_inv s' F' ((r - 8, nu) :: A)))) as Htake.
  { intros s1 F1 HI1 Hl1 Hb1 Hk1 G1 a n G2 -> Hn. eapply wp_mono; [apply (take_block_run _ _ _ _ _ _ nu HI1); lia|]. cbn beta.
    intros r s' (Hr & F' & HI' & Hk' & Hb' & Hl'). exists F'. split_and!; [by eapply kept_step|congruence|lia|by right]. }
  replace k with (S (length F) + (k - S (length F)))%nat by lia. eapply scan_ring; [exact HI|done| |].
  { eapply Htake; [done|done|lia|done]. }
  intros _. unfold more. eapply wp_seq; [by apply (morecore_run s F A nu)|]. cbn beta.
  intros r s1 [(-> & -> & Hl)|(Hr & -> & F' & HI' & Hk' & Hb' & Hl' & a & j & Ha & Hj)].
  - rewrite Z.eqb_refl. apply wp_ret. exists F. split_and!; [done|done|lia|by left].
  - rewrite (proj2 (Z.eqb_neq _ 0)) by lia. apply wp_bind, wp_gets.
    assert (length F' < rounds s)%nat as Hlen' by (pose proof (free_length _ _ Hbase _ _ _ HI'); unfold rounds in *; by rewrite <- Hl').
    replace (k - S (length F))%nat with (S (length F') + (k - S (length F) - S (length F')))%nat by lia.
    eapply scan_ring; [exact HI'|done|by eapply Htake|]. intros Hall. specialize (Hall a j Ha). lia.
Qed.

Lemma malloc_run s F A nbytes : heap_ready s F A -> 0 <= nbytes < 2147483632 ->
  wp (malloc base nbytes) s (fun r s' => exists F',
    kept A (hmem s) (hmem s') /\ lim s' = lim s /\ brk s <= brk s' /\
    (r = 0 /\ heap_inv s' F' A /\ lim s < brk s + 8 * Z.max 4096 ((nbytes + 7) / 8 + 1) \/
     8 < r /\ heap_inv s' F' ((r - 8, (nbytes + 7) / 8 + 1) :: A))).
Proof.
  intros HI Hn. unfold malloc. replace (nbytes + 8 - 1) with (nbytes + 7) by lia. rewrite u32_small by lia.
  set (nu := (nbytes + 7) / 8 + 1). assert (0 < nu /\ 8 * nu < 2147483648) as [Hnu Hw] by (subst nu; Z.to_euclidean_division_equations; lia).
  apply wp_bind, wp_gets. destruct HI as [HI|(Hf & -> & -> & Hb & Hl)].
  - assert (freep s <> 0) as Hf0.
    { pose proof (hv_freep _ _ _ _ _ HI) as [->|([a k] & -> & Ha)%list_elem_of_fmap]%elem_of_cons; [lia|].
      destruct (hv_in _ _ _ _ _ HI a k ltac:(set_solver)). cbn. lia. }
    rewrite (proj2 (Z.eqb_neq _ 0)) by done. apply wp_bind, wp_ret, wp_bind, wp_gets. by eapply malloc_loop_run.
  - rewrite Hf, Z.eqb_refl. apply wp_bind, wp_bind, wp_modify, wp_bind, wp_modify, wp_bind, wp_modify, wp_ret, wp_bind, wp_gets.
    set (m' := store32 (store32 (hmem s) base base) (base + 4) 0). set (s1 := set_hmem m' (set_freep base s)).
    assert (heap_inv s1 [] []) as HI.
    { subst s1. split; cbn [hmem set_hmem set_freep freep brk lim]; [by apply load32_store32| |done|set_solver|set_solver|done|set_solver|lia].
      cbn [seg]. subst m'. rewrite load32_other by lia. apply load32_store32. lia. }
    eapply wp_mono; [apply (malloc_loop_run s1 [] [] nu); [done|done|done|apply Nat.le_refl]|]. cbn beta.
    intros r s' (F' & _ & H2 & H3 & H4). exists F'. split_and!; [intros a n x; set_solver|done|done|exact H4].
Qed.

(** ** Any program *)

End Heap.

(** Requests of a program: [AFree i] frees the [i]th live block, [AStore i off v]
    writes a byte of it. *)
Inductive areq := AMalloc (nbytes : Z) | AFree (i : nat) | AStore (i : nat) (off v : Z).

(** A live block: what [malloc] returned, the size that was asked for, and the
    bytes that the program has written to it. *)
Record live := mklive { lp : Z; ln : Z; lc : Z -> option Z }.

Definition arun (base : Z) (r : areq) (L : list live) : HM (list live) :=
  match r with
  | AMalloc n => let! p := malloc base n in ret (if p =? 0 then L else mklive p n (fun _ => None) :: L)
  | AFree i => match L !! i with
               | Some b => free (lp b) ;; ret (delete i L)
               | None => ret L
               end
  | AStore i off v => match L !! i with
                      | Some b =>
                          if (0 <=? off) && (off <? ln b) then
                            modify (fun s => set_hmem (upd (hmem s) (lp b + off) v) s) ;;
                            ret (<[i := mklive (lp b) (ln b) (fun x => if x =? off then Some v else lc b x)]> L)
                          else ret L
                      | None => ret L
                      end
  end.

Fixpoint aruns (base : Z) (rs : list areq) (L : list live) : HM (list live) :=
  match rs with
  | [] => ret L
  | r :: rs => let! L := arun base r L in aruns base rs L
  end.

(** Sizes that fit a process. *)
Definition modest (r : areq) : Prop := match r with AMalloc n => 0 <= n < 2147483632 | _ => True end.

Section Client.
Context (base h0 : Z) (Hbase : 0 < base /\ base + 8 <= h0).

Definition units (n : Z) : Z := (n + 7) / 8 + 1.
Definition used (L : list live) : list blk := (fun b => (lp b - 8, units (ln b))) <$> L.

Record client_inv (s : hst) (L : list live) : Prop := {
  ci_heap : exists F, heap_ready base h0 s F (used L);
  ci_size b : b ∈ L -> 0 <= ln b;
  ci_bytes b off v : b ∈ L -> lc b off = Some v -> 0 <= off < ln b /\ hmem s (lp b + off) = v;
}.

Lemma units_bytes n : 0 <= n -> n <= 8 * (units n - 1) /\ 0 < units n.
Proof. intros. unfold units. Z.to_euclidean_division_equations; lia. Qed.

Lemma used_in L b : b ∈ L -> (lp b - 8, units (ln b)) ∈ used L.
Proof. intros Hb. apply list_elem_of_fmap. by exists b. Qed.

Lemma kept_bytes m m' L b off : kept (used L) m m' -> b ∈ L -> 0 <= off < ln b -> m' (lp b + off) = m (lp b + off).
Proof.
  intros Hk Hb Ho. apply (Hk _ _ _ (used_in _ _ Hb)). pose proof (units_bytes (ln b) ltac:(lia)). lia.
Qed.

Lemma used_perm s F A A' : A ≡ₚ A' -> heap_inv base h0 s F A -> heap_inv base h0 s F A'.
Proof.
  intros HP [Hb0 Hs Hr Hin Hus Hd Hf Hbr]. split; [done|done|done| | | |done|done].
  - intros a n. rewrite <- HP. apply Hin.
  - intros a n. rewrite <- HP. apply Hus.
  - eapply disj_perm; [|exact Hd]. by rewrite HP.
Qed.

(** A byte of a block that is not its header. *)
Lemma heap_write s F A a n x v : heap_inv base h0 s F A -> (a, n) ∈ A -> a + 8 <= x < a + 8 * n ->
  heap_inv base h0 (set_hmem (upd (hmem s) x v) s) F A.
Proof.
  intros [Hb0 Hs Hr Hin Hus Hd Hf Hbr] Ha Hx. destruct (Hin a n ltac:(set_solver)) as (Hah & Hn & _).
  assert (forall y, y + 4 <= x \/ x < y -> load32 (upd (hmem s) x v) y = load32 (hmem s) y) as Hld.
  { intros y Hy. apply load32_ext. intros k Hk. unfold upd. by rewrite (proj2 (Z.eqb_neq _ _)) by lia. }
  apply disj_app in Hd as (HdF & HdA & HdX).
  assert (forall b k, (b, k) ∈ F -> 0 < k /\ apart (b, k) (a, n)) as HF.
  { intros b k Hb. destruct (Hin b k ltac:(set_solver)) as (_ & ? & _). split; [done|]. by apply HdX. }
  split; cbn [hmem set_hmem brk lim freep]; [rewrite Hld; [done|lia]| |done|done| |by apply disj_app|done|done].
  - eapply seg_ext; [exact Hs|apply Hld; lia|]. intros b k Hb. destruct (HF b k Hb) as [Hk Hap]. unfold apart in Hap. cbn in Hap.
    split; apply Hld; lia.
  - intros b k Hb. transitivity (load32 (hmem s) (b + 4)); [|by apply Hus]. apply Hld. destruct (Hin b k ltac:(set_solver)) as (_ & ? & _).
    destruct (disj_in _ _ _ HdA Hb Ha) as [[= -> ->]|Hap]; [lia|]. unfold apart in Hap. cbn in Hap. lia.
Qed.

Lemma malloc_client s L n : client_inv s L -> 0 <= n < 2147483632 ->
  wp (arun base (AMalloc n) L) s (fun L' s' => client_inv s' L').
Proof.
  intros [[F HF] Hsz Hby] Hn. cbn [arun]. eapply wp_seq; [by eapply malloc_run|]. cbn beta. intros r s' (F' & Hk & _ & _ & Hr).
  assert (forall b off v, b ∈ L -> lc b off = Some v -> 0 <= off < ln b /\ hmem s' (lp b + off) = v) as Hby'.
  { intros b off v Hb Hc. destruct (Hby b off v Hb Hc) as [Ho <-]. split; [done|by eapply kept_bytes]. }
  destruct Hr as [(-> & HI & _)|(Hr & HI)]; [rewrite Z.eqb_refl|rewrite (proj2 (Z.eqb_neq r 0)) by lia]; apply wp_ret.
  - split; [exists F'; by left|done|done].
  - split; [exists F'; by left| |].
    + intros b [->|Hb]%elem_of_cons; [cbn; lia|by apply Hsz].
    + intros b off v [->|Hb]%elem_of_cons Hc; [done|by apply Hby'].
Qed.

(** A block that is live is not the only thing in the heap. *)
Lemma live_inv s F L b : heap_ready base h0 s F (used L) -> b ∈ L -> heap_inv base h0 s F (used L).
Proof. intros [H|(_ & _ & H & _)] Hb; [done|]. apply used_in in Hb. rewrite H in Hb. set_solver. Qed.

Lemma free_client s L i : client_inv s L -> wp (arun base (AFree i) L) s (fun L' s' => client_inv s' L').
Proof.
  intros HC. pose proof HC as [[F HF] Hsz Hby]. cbn [arun]. destruct (L !! i) as [b|] eqn:Hi; [|by apply wp_ret].
  assert (L ≡ₚ b :: delete i L) as HP by (by apply delete_Permutation).
  assert (used L ≡ₚ (lp b - 8, units (ln b)) :: used (delete i L)) as HU by (unfold used; rewrite HP at 1; done).
  apply (live_inv _ _ _ b) in HF; [|by eapply list_elem_of_lookup_2].
  apply (used_perm _ _ _ _ HU) in HF. replace (lp b) with (lp b - 8 + 8) by lia.
  eapply wp_seq; [by apply (free_run base h0 Hbase _ F)|]. cbn beta. intros [] s' (F' & HI' & Hk & _). apply wp_ret.
  assert (forall c, c ∈ delete i L -> c ∈ L) as Hsub by (intros c Hc; rewrite HP; set_solver).
  split; [exists F'; by left|intros c Hc; by apply Hsz, Hsub|]. intros c off v Hc Hv.
  destruct (Hby c off v (Hsub _ Hc) Hv) as [Ho <-]. split; [done|by eapply kept_bytes].
Qed.

Lemma store_client s L i off v : client_inv s L -> wp (arun base (AStore i off v) L) s (fun L' s' => client_inv s' L').
Proof.
  intros HC. pose proof HC as [[F HF] Hsz Hby]. cbn [arun]. destruct (L !! i) as [b|] eqn:Hi; [|by apply wp_ret].
  destruct (_ && _) eqn:E; [|by apply wp_ret]. b2p. apply wp_bind, wp_modify, wp_ret.
  pose proof (list_elem_of_lookup_2 _ _ _ Hi) as Hb. apply (live_inv _ _ _ b) in HF; [|done].
  pose proof (units_bytes (ln b) (Hsz b Hb)) as [Hu1 Hu2].
  set (b' := mklive (lp b) (ln b) (fun x => if x =? off then Some v else lc b x)).
  assert (used (<[i := b']> L) = used L) as HU.
  { unfold used. rewrite list_fmap_insert. apply list_insert_id. by rewrite list_lookup_fmap, Hi. }
  assert (forall j c, L !! j = Some c -> j <> i -> c = c /\ forall o, 0 <= o < ln c -> lp c + o <> lp b + off) as Hother.
  { intros j c Hj Hne. split; [done|]. intros o Ho. pose proof (units_bytes (ln c) ltac:(lia)) as [Hc1 Hc2].
    pose proof (hv_disj _ _ _ _ _ HF) as (_ & Hd & _)%disj_app.
    assert (apart (lp c - 8, units (ln c)) (lp b - 8, units (ln b))) as Hap.
    { eapply (disj_lookup _ j i); [exact Hd|done| |]; unfold used; rewrite list_lookup_fmap; [by rewrite Hj|by rewrite Hi]. }
    unfold apart in Hap. cbn in Hap. lia. }
  split.
  - exists F. left. rewrite HU. eapply heap_write; [done|by apply used_in|]. lia.
  - intros c Hc. apply list_elem_of_lookup_1 in Hc as [j Hj]. apply list_lookup_insert_Some in Hj as [(<- & <- & _)|[_ Hj]]; [cbn; by apply Hsz|].
    eapply Hsz, list_elem_of_lookup_2, Hj.
  - intros c o w Hc Hw. apply list_elem_of_lookup_1 in Hc as [j Hj]. cbn [hmem set_hmem]. unfold upd.
    apply list_lookup_insert_Some in Hj as [(<- & <- & _)|[Hne Hj]].
    + cbn [lc ln lp b'] in *. destruct (Z.eqb_spec o off) as [->|Ho]; [injection Hw as <-; by rewrite Z.eqb_refl|].
      rewrite (proj2 (Z.eqb_neq _ _)) by lia. by apply Hby.
    + destruct (Hby c o w (list_elem_of_lookup_2 _ _ _ Hj) Hw) as [Ho Hv]. split; [done|].
      destruct (Hother j c Hj) as [_ Hn]; [done|]. rewrite (proj2 (Z.eqb_neq _ _)) by (by apply Hn). done.
Qed.

Lemma aruns_inv rs : forall s L, client_inv s L -> Forall modest rs ->
  wp (aruns base rs L) s (fun L' s' => client_inv s' L').
Proof.
  induction rs as [|r rs IH]; intros s L HC Hm; cbn [aruns]; [by apply wp_ret|]. apply Forall_cons in Hm as [Hr Hm].
  assert (wp (arun base r L) s (fun L' s' => client_inv s' L')) as W
    by (destruct r as [n|i|i off v]; [by apply malloc_client|by apply free_client|by apply store_client]).
  eapply wp_seq; [exact W|]. cbn beta. intros L' s' HC'. by apply IH.
Qed.

End Client.

(** C28: whatever a program does with [malloc], [free] and the blocks it has, every
    call returns, the live blocks lie in the heap and do not overlap, each is as
    big as was asked for, and holds what the program has written to it.  The
    requests are [modest], below 2147483632 bytes: beyond, the number of bytes
    that [morecore] asks [sbrk] for does not fit its int.  The heap itself, up
    to the limit that [sbrk] has, lies below 2 GB. *)
Theorem malloc_blocks (base h0 : Z) (rs : list areq) (s : hst) (Hbase : 0 < base /\ base + 8 <= h0)
    (Hfresh : freep s = 0) (Hbrk : h0 <= brk s <= lim s) (Hlim : lim s < 2147483648) (Hm : Forall modest rs) :
  exists L s', aruns base rs [] s = Ret L s' /\
    (forall i b, L !! i = Some b -> h0 + 8 <= lp b /\ lp b + ln b <= brk s' /\ brk s' <= lim s' /\
       forall off v, lc b off = Some v -> hmem s' (lp b + off) = v) /\
    (forall i j b c, i <> j -> L !! i = Some b -> L !! j = Some c -> lp b + ln b <= lp c \/ lp c + ln c <= lp b).
Proof.
  assert (client_inv base h0 s []) as HC by (split; [exists []; right; done|set_solver|set_solver]).
  pose proof (aruns_inv base h0 Hbase rs s [] HC Hm) as W. apply wp_exists in W as (L & s' & E & [[F HF] Hsz Hby]).
  exists L, s'. split; [done|]. split.
  - intros i b Hb%list_elem_of_lookup_2. pose proof (live_inv base h0 Hbase _ _ _ b HF Hb) as HI. pose proof (used_in _ _ Hb) as Hu.
    destruct (hv_in _ _ _ _ _ HI _ _ ltac:(apply elem_of_app; right; exact Hu)) as (H1 & H2 & H3).
    pose proof (units_bytes (ln b) (Hsz b Hb)). pose proof (hv_brk _ _ _ _ _ HI). split_and!; [lia|lia|lia|]. intros off v Hv. by apply Hby.
  - intros i j b c Hne Hi Hj. pose proof (list_elem_of_lookup_2 _ _ _ Hi) as Hb. pose proof (list_elem_of_lookup_2 _ _ _ Hj) as Hc.
    pose proof (live_inv base h0 Hbase _ _ _ b HF Hb) as HI. pose proof (hv_disj _ _ _ _ _ HI) as (_ & Hd & _)%disj_app.
    pose proof (units_bytes (ln b) (Hsz b Hb)). pose proof (units_bytes (ln c) (Hsz c Hc)).
    assert (apart (lp b - 8, units (ln b)) (lp c - 8, units (ln c))) as Hap.
    { eapply (disj_lookup _ i j); [exact Hd|done| |]; unfold used; rewrite list_lookup_fmap; [by rewrite Hi|by rewrite Hj]. }
    unfold apart in Hap. cbn in Hap. lia.
Qed.

Definition demo_heap0 : hst := mkhst (fun _ => 0) 0 4096 200000.

Lemma malloc_blocks_witness : exists L s',
  aruns 64 [AMalloc 100; AMalloc 33; AStore 0 32 7; AFree 1; AMalloc 50000; AMalloc 90] [] demo_heap0 = Ret L s' /\
  lp <$> L = [36768; 36872; 36712].
Proof.
  destruct (malloc_blocks 64 4096 [AMalloc 100; AMalloc 33; AStore 0 32 7; AFree 1; AMalloc 50000; AMalloc 90] demo_heap0)
    as (L & s' & E & _ & _).
  - lia.
  - reflexivity.
  - cbn. lia.
  - cbn. lia.
  - repeat (apply Forall_cons; split; [cbn; lia || exact I|]). apply Forall_nil_2.
  - exists L, s'. split; [exact E|].
    assert (H : match aruns 64 [AMalloc 100; AMalloc 33; AStore 0 32 7; AFree 1; AMalloc 50000; AMalloc 90] [] demo_heap0 with
                | Ret L _ => lp <$> L = [36768; 36872; 36712] | _ => False end) by (vm_compute; reflexivity).
    rewrite E in H. exact H.
Defined.
