(* ===== verification/Sh.v ===== *)
(** * The shell's parser ([sh.c])

    The line is a list of bytes without null bytes.  A pointer into it is the
    part of the line from there on: [*ps] is the state of the parser, and a word
    is the pair [q], [eq] of the pointers to its first byte and past its last. *)
From S2P Require Import Prelude.

Definition whitespace : list Z := [32; 9; 13; 10; 11].
Definition symbols : list Z := [60; 124; 62; 38; 59; 40; 41].

(** [strchr(l, c)] for a constant [l]. *)
Definition among (l : list Z) (c : Z) : bool := bool_decide (c ∈ l).

Definition MAXARGS : nat := 10.
Definition O_RDONLY : Z := 0.
Definition O_WRCREATE : Z := 513.

(** [struct execcmd] and the others; [W] is what stands for a word. *)
Inductive cmd (W : Type) : Type :=
| EXEC (argv : list W)
| REDIR (c : cmd W) (file : W) (mode fd : Z)
| PIPE (left right : cmd W)
| LIST (left right : cmd W)
| BACK (c : cmd W).
Arguments EXEC {W} argv.
Arguments REDIR {W} c file mode fd.
Arguments PIPE {W} left right.
Arguments LIST {W} left right.
Arguments BACK {W} c.

(** [q] and [eq]. *)
Definition word : Type := list Z * list Z.

Abbreviation PM := (M (list Z)).

(** ** Tokens *)

Fixpoint skip_ws (s : list Z) : list Z :=
  match s with
  | c :: r => if among whitespace c then skip_ws r else s
  | [] => []
  end.

(** [while(s < es && !strchr(whitespace, *s) && !strchr(symbols, *s)) s++]. *)
Fixpoint skip_word (s : list Z) : list Z :=
  match s with
  | c :: r => if negb (among whitespace c) && negb (among symbols c) then skip_word r else s
  | [] => []
  end.

(** The value, [q] and [eq]. *)
Definition gettoken : PM (Z * word) :=
  let! s := get in
  let q := skip_ws s in
  let '(tok, eq) :=
    match q with
    | [] => (0, q)
    | c :: r =>
        if among [124; 40; 41; 59; 38; 60] c then (c, r)
        else if c =? 62 then
          match r with
          | d :: r' => if d =? 62 then (43, r') else (c, r)
          | [] => (c, r)
          end
        else (97, skip_word q)
    end in
  put (skip_ws eq) ;;
  ret (tok, (q, eq)).

Definition peek (toks : list Z) : PM bool :=
  let! s := get in
  let s := skip_ws s in
  put s ;;
  ret (match s with c :: _ => among toks c | [] => false end).

(** ** Commands *)

(** A redirection: the file, the mode and the descriptor. *)
Record redir (W : Type) := mkredir { rfile : W; rmode : Z; rfd : Z }.
Arguments mkredir {W} rfile rmode rfd.
Arguments rfile {W} r.
Arguments rmode {W} r.
Arguments rfd {W} r.

(** [redircmd] around [c], the first redirection innermost. *)
Definition wrap {W} (c : cmd W) (rs : list (redir W)) : cmd W :=
  foldl (fun c r => REDIR c (rfile r) (rmode r) (rfd r)) c rs.

(** The redirections that [parseredirs] puts around its argument. *)
Fixpoint parseredirs_loop (fuel : nat) : PM (list (redir word)) :=
  match fuel with
  | O => fault "fuel"
  | S k =>
      let! b := peek [60; 62] in
      if b then
        let! (tok, _) := gettoken in
        let! (t, w) := gettoken in
        if negb (t =? 97) then panic "missing file for redirection"
        else
          let r := if tok =? 60 then mkredir w O_RDONLY 0 else mkredir w O_WRCREATE 1 in
          let! rs := parseredirs_loop k in
          ret (r :: rs)
      else ret []
  end.

Definition parseredirs : PM (list (redir word)) :=
  let! s := get in
  parseredirs_loop (S (length s)).

(** The loop of [parseexec].  The EXEC node is filled in while REDIR nodes are
    put around it: the words and the redirections so far. *)
Fixpoint parseargs (fuel : nat) (argv : list word) (rs : list (redir word)) : PM (cmd word) :=
  match fuel with
  | O => fault "fuel"
  | S k =>
      let! b := peek [124; 41; 38; 59] in
      if b then ret (wrap (EXEC argv) rs)
      else
        let! (tok, w) := gettoken in
        if tok =? 0 then ret (wrap (EXEC argv) rs)
        else if negb (tok =? 97) then panic "syntax"
        else
          let argv := argv ++ [w] in
          if (MAXARGS <=? length argv)%nat then panic "too many args"
          else
            let! rs' := parseredirs in
            parseargs k argv (rs ++ rs')
  end.

(** [while(peek(ps, es, "&"))]. *)
Fixpoint parseback (fuel : nat) (c : cmd word) : PM (cmd word) :=
  match fuel with
  | O => fault "fuel"
  | S k =>
      let! b := peek [38] in
      if b then gettoken ;; parseback k (BACK c) else ret c
  end.

Fixpoint parseline (fuel : nat) : PM (cmd word) :=
  match fuel with
  | O => fault "fuel"
  | S k =>
      let! c := parsepipe k in
      let! s := get in
      let! c := parseback (S (length s)) c in
      let! b := peek [59] in
      if b then
        gettoken ;;
        let! r := parseline k in
        ret (LIST c r)
      else ret c
  end
with parsepipe (fuel : nat) : PM (cmd word) :=
  match fuel with
  | O => fault "fuel"
  | S k =>
      let! c := parseexec k in
      let! b := peek [124] in
      if b then
        gettoken ;;
        let! r := parsepipe k in
        ret (PIPE c r)
      else ret c
  end
with parseexec (fuel : nat) : PM (cmd word) :=
  match fuel with
  | O => fault "fuel"
  | S k =>
      let! b := peek [40] in
      if b then parseblock k
      else
        let! rs := parseredirs in
        let! s := get in
        parseargs (S (length s)) [] rs
  end
with parseblock (fuel : nat) : PM (cmd word) :=
  match fuel with
  | O => fault "fuel"
  | S k =>
      let! b := peek [40] in
      if negb b then panic "parseblock"
      else
        gettoken ;;
        let! c := parseline k in
        let! b := peek [41] in
        if negb b then panic "syntax - missing )"
        else
          gettoken ;;
          let! rs := parseredirs in
          ret (wrap c rs)
  end.

(** ** The words *)

(** The line with its null byte, and a null byte stored through [p]. *)
Definition nul (p : list Z) (buf : list Z) : list Z := <[(length buf - 1 - length p)%nat := 0]> buf.

Fixpoint nulterminate (c : cmd word) (buf : list Z) : list Z :=
  match c with
  | EXEC argv => foldl (fun b w => nul (snd w) b) buf argv
  | REDIR c file _ _ => nul (snd file) (nulterminate c buf)
  | PIPE l r => nulterminate r (nulterminate l buf)
  | LIST l r => nulterminate r (nulterminate l buf)
  | BACK c => nulterminate c buf
  end.

(** Every nested call is for a shorter part of the line; four calls deep at most
    for each byte. *)
Definition parsecmd (s : list Z) : outcome (list Z) (cmd word * list Z) :=
  (let! c := parseline (4 * length s + 4) in
   peek [] ;;
   let! rest := get in
   if bool_decide (rest = []) then ret (c, nulterminate c (s ++ [0])) else panic "syntax") s.

(** ** It always ends *)

(** The parser returns or panics. *)
Definition safe {S A} (m : M S A) (s : S) (Q : A -> S -> Prop) : Prop :=
  match m s with
  | Ret a s' => Q a s'
  | Stop (Panic _) => True
  | _ => False
  end.

Lemma safe_bind {S A B} (m : M S A) (f : A -> M S B) s (Q : B -> S -> Prop) :
  safe m s (fun a s' => safe (f a) s' Q) -> safe (bind m f) s Q.
Proof. unfold safe, bind. destruct (m s) as [a s'|[]|]; done. Qed.

Lemma safe_mono {S A} (m : M S A) s (P Q : A -> S -> Prop) :
  safe m s P -> (forall a s', P a s' -> Q a s') -> safe m s Q.
Proof. unfold safe. destruct (m s) as [a s'|[]|]; auto. Qed.

Lemma safe_seq {S A B} (m : M S A) (f : A -> M S B) s (P : A -> S -> Prop) (Q : B -> S -> Prop) :
  safe m s P -> (forall a s', P a s' -> safe (f a) s' Q) -> safe (bind m f) s Q.
Proof. intros H HQ. apply safe_bind. by eapply safe_mono. Qed.

Definition wordchar (c : Z) : bool := negb (among whitespace c) && negb (among symbols c).

(** A word of the line: its bytes, and the byte after it, which is none of a word. *)
Definition good_word (line : list Z) (w : word) : Prop :=
  exists x, fst w = x ++ snd w /\ x <> [] /\ Forall (fun c => wordchar c = true) x /\
    match snd w with [] => True | c :: _ => wordchar c = false end /\ fst w `suffix_of` line.

Fixpoint wf_cmd (line : list Z) (c : cmd word) : Prop :=
  match c with
  | EXEC argv => (length argv < MAXARGS)%nat /\ Forall (good_word line) argv
  | REDIR c file _ _ => wf_cmd line c /\ good_word line file
  | PIPE l r | LIST l r => wf_cmd line l /\ wf_cmd line r
  | BACK c => wf_cmd line c
  end.

Lemma skip_ws_suffix s : skip_ws s `suffix_of` s.
Proof. induction s as [|c s IH]; cbn; [done|]. destruct (among _ c); [by apply suffix_cons_r|done]. Qed.

Lemma skip_ws_head s : match skip_ws s with [] => True | c :: _ => among whitespace c = false end.
Proof. induction s as [|c s IH]; cbn; [done|]. by destruct (among whitespace c) eqn:E. Qed.

Lemma skip_word_split s : exists x, s = x ++ skip_word s /\ Forall (fun c => wordchar c = true) x /\
  match skip_word s with [] => True | c :: _ => wordchar c = false end.
Proof.
  induction s as [|c s IH]; [by exists []|]. cbn [skip_word]. change (negb _ && negb _) with (wordchar c).
  destruct (wordchar c) eqn:E; [|by exists []; rewrite E].
  destruct IH as (x & Hx & Hc & Hh). exists (c :: x). split_and!; [cbn; by rewrite <- Hx|by constructor|done].
Qed.

Lemma suffix_le {A} (s s' : list A) : s' `suffix_of` s -> (length s' <= length s)%nat.
Proof. intros [k ->]. rewrite length_app. lia. Qed.

Lemma gettoken_safe line s (Hs : s `suffix_of` line) :
  safe gettoken s (fun tw s' => s' `suffix_of` s /\
    (skip_ws s <> [] -> fst tw <> 0) /\
    (fst tw <> 0 -> (length s' < length s)%nat) /\ (fst tw = 97 -> good_word line (snd tw))).
Proof.
  unfold gettoken, safe, bind, get, put, ret. pose proof (skip_ws_suffix s) as Hq. pose proof (skip_ws_head s) as Hw.
  assert (forall e (x : list Z), skip_ws s = x ++ e -> x <> [] -> skip_ws e `suffix_of` s /\ (length (skip_ws e) < length s)%nat) as Hcut.
  { intros e x E Hx. assert (skip_ws e `suffix_of` s) as He.
    { transitivity e; [apply skip_ws_suffix|]. transitivity (skip_ws s); [|done]. rewrite E. by apply suffix_app_r. }
    split; [done|]. pose proof (suffix_le _ _ (skip_ws_suffix e)). pose proof (suffix_le _ _ Hq) as Hl. rewrite E, length_app in Hl.
    destruct x; [done|cbn in Hl; lia]. }
  destruct (skip_ws s) as [|c r] eqn:Eq.
  { cbn. split_and!; [done|done|done|done]. }
  destruct (among [124; 40; 41; 59; 38; 60] c) eqn:E1.
  { destruct (Hcut r [c]) as [H1 H2]; [done|done|]. cbn [fst snd]. split_and!; [done|intros _ ->; done|done|]. intros ->. done. }
  destruct (Z.eqb_spec c 62) as [->|E2].
  { destruct r as [|d r']; [|destruct (d =? 62)]; cbn [fst snd].
    - destruct (Hcut [] [62]) as [H1 H2]; [done|done|]. by split_and!.
    - destruct (Hcut r' [62; d]) as [H1 H2]; [done|done|]. by split_and!.
    - destruct (Hcut (d :: r') [62]) as [H1 H2]; [done|done|]. by split_and!. }
  destruct (skip_word_split (c :: r)) as (x & Hx & Hc & Hh).
  assert (wordchar c = true) as Hwc.
  { unfold wordchar. rewrite Hw. cbn. unfold among in *. apply bool_decide_eq_false in E1. apply negb_true_iff, bool_decide_eq_false. set_solver. }
  assert (x <> []) as Hxn.
  { intros ->. cbn [skip_word] in Hx. change (negb _ && negb _) with (wordchar c) in Hx. rewrite Hwc in Hx.
    pose proof (skip_word_split r) as (y & Hy & _). apply (f_equal length) in Hy. apply (f_equal length) in Hx. rewrite length_app in Hy. cbn in Hx. lia. }
  destruct (Hcut _ x Hx Hxn) as [H1 H2]. cbn [fst snd]. split_and!; [done|done|done|]. intros _.
  exists x. cbn [fst snd]. split_and!; [done|done|done|done|by transitivity s].
Qed.

Lemma peek_safe toks s : safe (peek toks) s (fun b s' => s' `suffix_of` s /\ s' = skip_ws s' /\
  (b = true -> exists c r, s' = c :: r /\ c ∈ toks)).
Proof.
  unfold peek, safe, bind, get, put, ret. split_and!; [apply skip_ws_suffix| |].
  - pose proof (skip_ws_head s). destruct (skip_ws s) as [|c r]; cbn; [done|]. by rewrite H.
  - destruct (skip_ws s) as [|c r]; [done|]. intros H%bool_decide_eq_true. eauto.
Qed.

(** A token that [peek] has seen. *)
Lemma token_safe line s (Hs : s `suffix_of` line) : s = skip_ws s -> s <> [] ->
  safe gettoken s (fun tw s' => s' `suffix_of` s /\ (length s' < length s)%nat).
Proof.
  intros E Hne. eapply safe_mono; [by apply (gettoken_safe line)|]. cbn beta. intros tw s' (H1 & H2 & H3 & _). rewrite <- E in H2. auto.
Qed.

Definition wf_redirs (line : list Z) (rs : list (redir word)) : Prop := Forall (fun r => good_word line (rfile r)) rs.

Lemma wrap_wf line rs : forall c, wf_cmd line c -> wf_redirs line rs -> wf_cmd line (wrap c rs).
Proof. induction rs as [|r rs IH]; intros c Hc Hr; [done|]. apply Forall_cons in Hr as [Hr Hrs]. apply IH; [|done]. by split. Qed.

(** Chains of suffixes. *)
Ltac sfx := first [done | eassumption | etransitivity; [eassumption|]; sfx].

Section Line.
Context (line : list Z).

Lemma parseredirs_loop_safe : forall k s, s `suffix_of` line -> (length s < k)%nat ->
  safe (parseredirs_loop k) s (fun rs s' => s' `suffix_of` s /\ wf_redirs line rs).
Proof.
  induction k as [|k IH]; intros s Hs Hk; [lia|]. cbn [parseredirs_loop].
  eapply safe_seq; [apply peek_safe|]. cbn beta. intros b s1 (H1 & E1 & Hb). destruct b; [|split; [done|constructor]].
  destruct (Hb eq_refl) as (c & r & Es & _). assert (s1 `suffix_of` line) as Hs1 by (by transitivity s).
  eapply safe_seq; [apply (token_safe line s1 Hs1 E1); by rewrite Es|]. cbn beta. intros [tok w1] s2 (H2 & Hl2).
  assert (s2 `suffix_of` line) as Hs2 by (by transitivity s1). pose proof (suffix_le _ _ H1).
  eapply safe_seq; [by apply (gettoken_safe line)|]. cbn beta. intros [t w] s3 (H3 & _ & Hl3 & Hw). cbn [fst snd] in *.
  destruct (Z.eqb_spec t 97) as [->|Ht]; [|exact I]. cbn [negb].
  assert (s3 `suffix_of` s) as H3s by (transitivity s2; [done|by transitivity s1]).
  eapply safe_seq; [apply IH; [by transitivity s|specialize (Hl3 ltac:(lia)); lia]|]. cbn beta. intros rs s4 [H4 Hrs].
  split; [by transitivity s3|]. constructor; [|done]. destruct (tok =? 60); by apply Hw.
Qed.

Lemma parseredirs_safe s : s `suffix_of` line -> safe parseredirs s (fun rs s' => s' `suffix_of` s /\ wf_redirs line rs).
Proof. intros Hs. unfold parseredirs. apply safe_bind. apply parseredirs_loop_safe; [done|lia]. Qed.

Lemma parseargs_safe : forall k s argv rs, s `suffix_of` line -> (length s < k)%nat -> wf_cmd line (EXEC argv) -> wf_redirs line rs ->
  safe (parseargs k argv rs) s (fun c s' => s' `suffix_of` s /\ wf_cmd line c).
Proof.
  induction k as [|k IH]; intros s argv rs Hs Hk Ha Hr; [lia|]. cbn [parseargs].
  eapply safe_seq; [apply peek_safe|]. cbn beta. intros b s1 (H1 & E1 & _). destruct b; [split; [done|by apply wrap_wf]|].
  assert (s1 `suffix_of` line) as Hs1 by (by transitivity s). pose proof (suffix_le _ _ H1).
  eapply safe_seq; [by apply (gettoken_safe line)|]. cbn beta. intros [t w] s2 (H2 & _ & Hl2 & Hw). cbn [fst snd] in *.
  assert (s2 `suffix_of` s) as H2s by (by transitivity s1).
  destruct (Z.eqb_spec t 0) as [->|Ht0]; [split; [done|by apply wrap_wf]|]. destruct (Z.eqb_spec t 97) as [->|Ht]; [|exact I]. cbn [negb].
  destruct (Nat.leb_spec MAXARGS (length (argv ++ [w]))) as [|Hlen]; [exact I|].
  assert (s2 `suffix_of` line) as Hs2 by (by transitivity s).
  eapply safe_seq; [by apply parseredirs_safe|]. cbn beta. intros rs' s3 [H3 Hrs'].
  assert (s3 `suffix_of` s) as H3s by (by transitivity s2). pose proof (suffix_le _ _ H3). specialize (Hl2 ltac:(lia)).
  eapply safe_mono; [apply IH; [by transitivity s|lia| |by apply Forall_app]|].
  - cbn [wf_cmd] in *. split; [done|]. apply Forall_app. split; [apply Ha|]. constructor; [by apply Hw|constructor].
  - cbn beta. intros c s4 [H4 Hc]. split; [by transitivity s3|done].
Qed.

Lemma parseback_safe : forall k s c, s `suffix_of` line -> (length s < k)%nat -> wf_cmd line c ->
  safe (parseback k c) s (fun c' s' => s' `suffix_of` s /\ wf_cmd line c').
Proof.
  induction k as [|k IH]; intros s c Hs Hk Hc; [lia|]. cbn [parseback].
  eapply safe_seq; [apply peek_safe|]. cbn beta. intros b s1 (H1 & E1 & Hb). destruct b; [|split; [done|done]].
  destruct (Hb eq_refl) as (d & r & Es & _). assert (s1 `suffix_of` line) as Hs1 by (by transitivity s).
  eapply safe_seq; [apply (token_safe line s1 Hs1 E1); by rewrite Es|]. cbn beta. intros _ s2 (H2 & Hl2). pose proof (suffix_le _ _ H1).
  assert (s2 `suffix_of` s) as H2s by (by transitivity s1).
  eapply safe_mono; [apply IH; [by transitivity s|lia|done]|]. cbn beta. intros c' s3 [H3 Hc']. split; [by transitivity s2|done].
Qed.

(** A command that a symbol precedes. *)
Lemma after_token s (Hs : s `suffix_of` line) {B} (k : PM B) (Q : B -> list Z -> Prop) : s = skip_ws s -> s <> [] ->
  (forall s', s' `suffix_of` s -> (length s' < length s)%nat -> safe k s' Q) -> safe (gettoken ;; k) s Q.
Proof. intros E Hne HQ. eapply safe_seq; [by apply (token_safe line)|]. cbn beta. intros _ s' [H1 H2]. by apply HQ. Qed.

(** The four functions on [s] with [n] rounds. *)
Definition parses (n : nat) (s : list Z) : Prop :=
  let post := fun c s' => s' `suffix_of` s /\ wf_cmd line c in
  ((4 * length s + 4 <= n)%nat -> safe (parseline n) s post) /\ ((4 * length s + 3 <= n)%nat -> safe (parsepipe n) s post) /\
  ((4 * length s + 2 <= n)%nat -> safe (parseexec n) s post) /\ ((4 * length s + 1 <= n)%nat -> safe (parseblock n) s post).

Lemma parseline_safe n s : (forall s, s `suffix_of` line -> parses n s) -> s `suffix_of` line -> (4 * length s + 4 <= S n)%nat ->
  safe (parseline (S n)) s (fun c s' => s' `suffix_of` s /\ wf_cmd line c).
Proof.
  intros IH Hs Hn. cbn [parseline]. eapply safe_seq; [apply (IH s Hs); lia|]. cbn beta. intros c s1 [H1 Hc].
  apply safe_bind. unfold safe at 1, get. eapply safe_seq; [apply parseback_safe; [sfx|lia|done]|]. cbn beta. intros c' s2 [H2 Hc'].
  eapply safe_seq; [apply peek_safe|]. cbn beta. intros b s3 (H3 & E3 & Hb). destruct b; [|split; [sfx|done]].
  destruct (Hb eq_refl) as (d & r & Es & _). apply after_token; [sfx|done|by rewrite Es|]. intros s4 H4 Hl4.
  assert (s4 `suffix_of` s) as H4s by sfx. pose proof (suffix_le _ _ H1) as L1. pose proof (suffix_le _ _ H2) as L2. pose proof (suffix_le _ _ H3) as L3.
  eapply safe_seq; [apply (IH s4); [sfx|lia]|]. cbn beta. intros r' s5 [H5 Hr]. split; [sfx|by split].
Qed.

Lemma parsepipe_safe n s : (forall s, s `suffix_of` line -> parses n s) -> s `suffix_of` line -> (4 * length s + 3 <= S n)%nat ->
  safe (parsepipe (S n)) s (fun c s' => s' `suffix_of` s /\ wf_cmd line c).
Proof.
  intros IH Hs Hn. cbn [parsepipe]. eapply safe_seq; [apply (IH s Hs); lia|]. cbn beta. intros c s1 [H1 Hc].
  eapply safe_seq; [apply peek_safe|]. cbn beta. intros b s2 (H2 & E2 & Hb). destruct b; [|split; [sfx|done]].
  destruct (Hb eq_refl) as (d & r & Es & _). apply after_token; [sfx|done|by rewrite Es|]. intros s3 H3 Hl3.
  assert (s3 `suffix_of` s) as H3s by sfx. pose proof (suffix_le _ _ H1) as L1. pose proof (suffix_le _ _ H2) as L2.
  eapply safe_seq; [apply (IH s3); [sfx|lia]|]. cbn beta. intros r' s4 [H4 Hr]. split; [sfx|by split].
Qed.

Lemma parseexec_safe n s : (forall s, s `suffix_of` line -> parses n s) -> s `suffix_of` line -> (4 * length s + 2 <= S n)%nat ->
  safe (parseexec (S n)) s (fun c s' => s' `suffix_of` s /\ wf_cmd line c).
Proof.
  intros IH Hs Hn. cbn [parseexec]. eapply safe_seq; [apply peek_safe|]. cbn beta. intros b s1 (H1 & E1 & _).
  pose proof (suffix_le _ _ H1) as L1. destruct b.
  - eapply safe_mono; [apply (IH s1); [sfx|lia]|]. cbn beta. intros c s2 [H2 Hc]. split; [sfx|done].
  - eapply safe_seq; [apply parseredirs_safe; sfx|]. cbn beta. intros rs s2 [H2 Hrs].
    apply safe_bind. unfold safe at 1, get. eapply safe_mono; [apply parseargs_safe; [sfx|lia| |done]|].
    + split; [unfold MAXARGS; cbn; lia|constructor].
    + cbn beta. intros c s3 [H3 Hc]. split; [sfx|done].
Qed.

Lemma parseblock_safe n s : (forall s, s `suffix_of` line -> parses n s) -> s `suffix_of` line -> (4 * length s + 1 <= S n)%nat ->
  safe (parseblock (S n)) s (fun c s' => s' `suffix_of` s /\ wf_cmd line c).
Proof.
  intros IH Hs Hn. cbn [parseblock]. eapply safe_seq; [apply peek_safe|]. cbn beta. intros b s1 (H1 & E1 & Hb).
  destruct b; [|exact I]. cbn [negb]. destruct (Hb eq_refl) as (d & r & Es & _). apply after_token; [sfx|done|by rewrite Es|]. intros s2 H2 Hl2.
  pose proof (suffix_le _ _ H1) as L1. eapply safe_seq; [apply (IH s2); [sfx|lia]|]. cbn beta. intros c s3 [H3 Hc].
  eapply safe_seq; [apply peek_safe|]. cbn beta. intros b s4 (H4 & E4 & Hb4). destruct b; [|exact I]. cbn [negb].
  destruct (Hb4 eq_refl) as (d' & r' & Es' & _). apply after_token; [sfx|done|by rewrite Es'|]. intros s5 H5 Hl5.
  eapply safe_seq; [apply parseredirs_safe; sfx|]. cbn beta. intros rs s6 [H6 Hrs]. split; [sfx|by apply wrap_wf].
Qed.

Lemma parse_safe : forall n s, s `suffix_of` line -> parses n s.
Proof.
  induction n as [|n IH]; intros s Hs; [split_and!; lia|].
  split_and!; intros Hn; [by apply parseline_safe|by apply parsepipe_safe|by apply parseexec_safe|by apply parseblock_safe].
Qed.

End Line.

(** ** The words stay intact *)

Fixpoint words_in {W} (c : cmd W) : list W :=
  match c with
  | EXEC argv => argv
  | REDIR c file _ _ => words_in c ++ [file]
  | PIPE l r | LIST l r => words_in l ++ words_in r
  | BACK c => words_in c
  end.

Definition text (w : word) : list Z := take (length (fst w) - length (snd w)) (fst w).

(** The string that starts at [p] in the buffer. *)
Fixpoint cstring (l : list Z) : list Z :=
  match l with
  | [] => []
  | c :: l => if c =? 0 then [] else c :: cstring l
  end.
Definition string_at (buf p : list Z) : list Z := cstring (drop (length buf - 1 - length p) buf).

Definition nuls (ws : list word) (buf : list Z) : list Z := foldl (fun b w => nul (snd w) b) buf ws.

Lemma nulterminate_nuls c : forall buf, nulterminate c buf = nuls (words_in c) buf.
Proof.
  unfold nuls. induction c as [argv|c IH f m d|l IHl r IHr|l IHl r IHr|c IH]; intros buf; cbn [nulterminate words_in];
    rewrite ?foldl_app, ?IH, ?IHl, ?IHr; done.
Qed.

Lemma length_nuls ws : forall buf, length (nuls ws buf) = length buf.
Proof. induction ws as [|w ws IH]; intros buf; [done|]. cbn. etransitivity; [apply IH|]. apply length_insert. Qed.

(** A byte that no pointer leads to, and one that some pointer leads to. *)
Lemma nuls_other ws : forall buf i, (forall w, w ∈ ws -> (length buf - 1 - length (snd w))%nat <> i) -> nuls ws buf !! i = buf !! i.
Proof.
  induction ws as [|w ws IH]; intros buf i H; [done|]. cbn. etransitivity; [apply IH|].
  - intros w' Hw'. unfold nul. rewrite length_insert. apply H. set_solver.
  - apply list_lookup_insert_ne, H. set_solver.
Qed.

Lemma nuls_zero ws : forall buf i w, w ∈ ws -> (length buf - 1 - length (snd w))%nat = i -> (i < length buf)%nat -> nuls ws buf !! i = Some 0.
Proof.
  assert (forall ws buf i, buf !! i = Some 0 -> nuls ws buf !! i = Some 0) as Hkeep.
  { clear. induction ws as [|w ws IH]; intros buf i H; [done|]. apply IH. unfold nul.
    destruct (decide ((length buf - 1 - length (snd w))%nat = i)) as [->|Hne].
    - apply list_lookup_insert_eq. by eapply lookup_lt_Some.
    - by rewrite list_lookup_insert_ne. }
  induction ws as [|w' ws IH]; intros buf i w; [set_solver|]. intros [->|Hw]%elem_of_cons Hi Hl; cbn.
  - apply Hkeep. unfold nul. rewrite Hi. by apply list_lookup_insert_eq.
  - apply (IH _ _ w); [done| |]; unfold nul; by rewrite length_insert.
Qed.

Lemma cstring_prefix x l : Forall (.≠ 0) x -> cstring (x ++ 0 :: l) = x.
Proof.
  induction 1 as [|c x Hc Hx IH]; [done|]. cbn [app cstring]. by rewrite (proj2 (Z.eqb_neq c 0)), IH.
Qed.

(** Where the bytes of a word and its end are in the line. *)
Lemma word_place line w : good_word line w -> Forall (.≠ 0) line ->
  exists y x e, line = y ++ x ++ e /\ fst w = x ++ e /\ snd w = e /\ text w = x /\
    Forall (fun c => wordchar c = true) x /\ Forall (.≠ 0) x /\ match e with [] => True | c :: _ => wordchar c = false end.
Proof.
  intros (x & E & _ & Hc & Hh & y & Hy) Hz. destruct w as [q e]. cbn [fst snd] in *. subst q. exists y, x, e.
  split_and!; [done|done|done| |done| |done].
  - unfold text. cbn [fst snd]. rewrite length_app. replace (length x + length e - length e)%nat with (length x) by lia. apply take_app_length.
  - rewrite Hy in Hz. by apply Forall_app in Hz as [_ [Hz _]%Forall_app].
Qed.

Lemma words_intact line ws : Forall (.≠ 0) line -> Forall (good_word line) ws ->
  forall w, w ∈ ws -> string_at (nuls ws (line ++ [0])) (fst w) = text w.
Proof.
  intros Hz Hws w Hw. assert (good_word line w) as Hg by (by eapply Forall_forall in Hws).
  destruct (word_place line w Hg Hz) as (y & x & e & El & Eq & Ee & -> & Hc & Hxz & _).
  unfold string_at. rewrite length_nuls, length_app. cbn [length]. set (buf := nuls ws (line ++ [0])).
  assert (length line = length y + length x + length e)%nat as Hl by (rewrite El, !length_app; lia).
  replace (length line + 1 - 1 - length (fst w))%nat with (length y) by (rewrite Eq, length_app; lia).
  assert (take (length x) (drop (length y) buf) = x) as Hx.
  { apply list_eq. intros i. destruct (decide (i < length x)%nat) as [Hi|Hi].
    - rewrite lookup_take_lt, lookup_drop by lia. subst buf. rewrite nuls_other.
      + rewrite El, <- !app_assoc, lookup_app_r by lia. replace (length y + i - length y)%nat with i by lia. by rewrite lookup_app_l.
      + intros w' Hw' E. assert (good_word line w') as Hg' by (by eapply Forall_forall in Hws).
        destruct (word_place line w' Hg' Hz) as (y' & x' & e' & El' & _ & Ee' & _ & _ & _ & Hh').
        rewrite length_app, Ee' in E. cbn [length] in E.
        assert (length line = length y' + length x' + length e')%nat as Hl' by (rewrite El', !length_app; lia).
        destruct (lookup_lt_is_Some_2 x i Hi) as [c Hci]. assert (line !! (length y + i)%nat = Some c) as Hlc.
        { rewrite El, lookup_app_r by lia. replace (length y + i - length y)%nat with i by lia. by rewrite lookup_app_l. }
        assert (line !! (length y + i)%nat = head e') as Hle.
        { rewrite El', app_assoc, lookup_app_r by (rewrite length_app; lia). rewrite length_app.
          replace (length y + i - (length y' + length x'))%nat with 0%nat by lia. by destruct e'. }
        rewrite Hle in Hlc. destruct e' as [|d e']; [done|]. cbn in Hlc. injection Hlc as ->.
        rewrite Forall_lookup in Hc. rewrite (Hc _ _ Hci) in Hh'. done.
    - rewrite lookup_take_ge by lia. symmetry. apply lookup_ge_None. lia. }
  rewrite <- (take_drop (length x) (drop (length y) buf)), Hx, drop_drop.
  assert (buf !! (length y + length x)%nat = Some 0) as H0.
  { subst buf. apply (nuls_zero _ _ _ w); [done| |]; rewrite length_app, ?Ee; cbn [length]; lia. }
  rewrite (drop_S _ 0) by done. by apply cstring_prefix.
Qed.

Lemma wf_words line c : wf_cmd line c -> Forall (good_word line) (words_in c).
Proof.
  induction c as [argv|c IH f m d|l IHl r IHr|l IHl r IHr|c IH]; cbn [wf_cmd words_in]; rewrite ?Forall_app; try tauto.
  intros [H1 H2]. split; [auto|by constructor].
Qed.

Fixpoint few_args {W} (c : cmd W) : Prop :=
  match c with
  | EXEC argv => (length argv < MAXARGS)%nat
  | REDIR c _ _ _ | BACK c => few_args c
  | PIPE l r | LIST l r => few_args l /\ few_args r
  end.

Lemma wf_few line c : wf_cmd line c -> few_args c.
Proof. induction c; cbn; tauto. Qed.

Lemma parsecmd_safe line : match parsecmd line with
  | Ret (c, buf) _ => wf_cmd line c /\ buf = nulterminate c (line ++ [0])
  | Stop (Panic _) => True
  | _ => False
  end.
Proof.
  change (safe (let! c := parseline (4 * length line + 4) in peek [] ;; let! rest := get in
    if bool_decide (rest = []) then ret (c, nulterminate c (line ++ [0])) else panic "syntax") line
    (fun cb _ => let (c, buf) := cb in wf_cmd line c /\ buf = nulterminate c (line ++ [0]))).
  destruct (parse_safe line (4 * length line + 4) line) as [H _]; [done|]. eapply safe_seq; [apply H; lia|]. cbn beta. intros c s [_ Hc].
  eapply safe_seq; [apply peek_safe|]. cbn beta. intros b s' _. apply safe_bind. unfold safe at 1, get.
  case_bool_decide; [split; done|exact I].
Qed.

(** C31: the parser ends on every line: it returns a command or panics.  In the
    command that it returns every simple command has fewer than MAXARGS words,
    and after [nulterminate] every word of the command is a string of its own,
    the bytes of the line between its two pointers: no null byte falls into
    another word. *)
Theorem parsecmd_commands (line : list Z) (Hz : Forall (.≠ 0) line) :
  match parsecmd line with
  | Ret (c, buf) _ => few_args c /\ length buf = S (length line) /\
      forall w, w ∈ words_in c -> text w <> [] /\ string_at buf (fst w) = text w
  | Stop (Panic _) => True
  | _ => False
  end.
Proof.
  pose proof (parsecmd_safe line) as H. destruct (parsecmd line) as [[c buf] s|[]|]; try done. destruct H as [Hw ->].
  rewrite nulterminate_nuls, length_nuls, length_app. pose proof (wf_words _ _ Hw) as Hws.
  split_and!; [by eapply wf_few|cbn; lia|]. intros w Hin. split; [|by apply words_intact].
  assert (good_word line w) as Hg by (by eapply Forall_forall in Hws). destruct Hg as (x & E & Hx & _).
  unfold text. rewrite E, length_app. replace (length x + length (snd w) - length (snd w))%nat with (length x) by lia. by rewrite take_app_length.
Qed.

(** "a>b|c" *)
Lemma parsecmd_commands_witness : exists c buf s, parsecmd [97; 62; 98; 124; 99] = Ret (c, buf) s /\
  buf = [97; 0; 98; 0; 99; 0] /\ forall w, w ∈ words_in c -> text w <> [] /\ string_at buf (fst w) = text w.
Proof.
  assert (Hz : Forall (.≠ 0) [97; 62; 98; 124; 99]) by (repeat (apply Forall_cons; split; [lia|]); apply Forall_nil_2).
  pose proof (parsecmd_commands [97; 62; 98; 124; 99] Hz) as H.
  destruct (parsecmd [97; 62; 98; 124; 99]) as [[c buf] s|e|c s] eqn:E.
  - exists c, buf, s. split; [reflexivity|]. split; [vm_compute in E; by injection E as <- <- _|]. exact (proj2 (proj2 H)).
  - vm_compute in E. discriminate E.
  - vm_compute in E. discriminate E.
Defined.
