(* ===== verification/ShSpec.v ===== *)
(** * The shell's language

    The grammar that [sh.c] accepts, how its sentences are written, the command
    that each stands for, and that the parser finds it. *)
From S2P Require Import Prelude Sh.

(** ** The grammar *)

(** A redirection and its file: from, to, appended to. *)
Inductive gredir := GIn (w : list Z) | GOut (w : list Z) | GApp (w : list Z).

(** [GEnd p n]: the pipeline with [n] ampersands; [GSeq p n l]: the same, a
    semicolon and another line. *)
Inductive gline :=
| GEnd (p : gpipe) (n : nat)
| GSeq (p : gpipe) (n : nat) (l : gline)
with gpipe :=
| GOne (e : gexec)
| GMore (e : gexec) (p : gpipe)
with gexec :=
| GBlock (l : gline) (rs : list gredir)
| GSimple (rs : list gredir) (args : list (list Z * list gredir)).

Scheme gline_mind := Induction for gline Sort Prop
with gpipe_mind := Induction for gpipe Sort Prop
with gexec_mind := Induction for gexec Sort Prop.
Combined Scheme grammar_ind from gline_mind, gpipe_mind, gexec_mind.

(** ** Writing: a space after every token *)

Definition show_redir (r : gredir) : list Z :=
  match r with
  | GIn w => 60 :: 32 :: w ++ [32]
  | GOut w => 62 :: 32 :: w ++ [32]
  | GApp w => 62 :: 62 :: 32 :: w ++ [32]
  end.
Definition show_redirs (rs : list gredir) : list Z := mjoin (show_redir <$> rs).
Definition show_arg (a : list Z * list gredir) : list Z := fst a ++ [32] ++ show_redirs (snd a).
Definition show_args (args : list (list Z * list gredir)) : list Z := mjoin (show_arg <$> args).
Definition show_amps (n : nat) : list Z := mjoin (repeat [38; 32] n).

Fixpoint show_line (l : gline) : list Z :=
  match l with
  | GEnd p n => show_pipe p ++ show_amps n
  | GSeq p n l => show_pipe p ++ show_amps n ++ 59 :: 32 :: show_line l
  end
with show_pipe (p : gpipe) : list Z :=
  match p with
  | GOne e => show_exec e
  | GMore e p => show_exec e ++ 124 :: 32 :: show_pipe p
  end
with show_exec (e : gexec) : list Z :=
  match e with
  | GBlock l rs => 40 :: 32 :: show_line l ++ 41 :: 32 :: show_redirs rs
  | GSimple rs args => show_redirs rs ++ show_args args
  end.

(** ** Meaning *)

Definition tree_redir (r : gredir) : redir (list Z) :=
  match r with
  | GIn w => mkredir w O_RDONLY 0
  | GOut w | GApp w => mkredir w O_WRCREATE 1
  end.
Definition tree_redirs (rs : list gredir) : list (redir (list Z)) := tree_redir <$> rs.
Definition backs {W} (n : nat) (c : cmd W) : cmd W := Nat.iter n BACK c.

Fixpoint tree_line (l : gline) : cmd (list Z) :=
  match l with
  | GEnd p n => backs n (tree_pipe p)
  | GSeq p n l => LIST (backs n (tree_pipe p)) (tree_line l)
  end
with tree_pipe (p : gpipe) : cmd (list Z) :=
  match p with
  | GOne e => tree_exec e
  | GMore e p => PIPE (tree_exec e) (tree_pipe p)
  end
with tree_exec (e : gexec) : cmd (list Z) :=
  match e with
  | GBlock l rs => wrap (tree_line l) (tree_redirs rs)
  | GSimple rs args => wrap (EXEC args.*1) (tree_redirs rs ++ mjoin ((fun a => tree_redirs (snd a)) <$> args))
  end.

(** ** Sentences *)

Definition is_word (w : list Z) : Prop := w <> [] /\ Forall (fun c => wordchar c = true) w.
Definition redir_ok (r : gredir) : Prop := match r with GIn w | GOut w | GApp w => is_word w end.
Definition arg_ok (a : list Z * list gredir) : Prop := is_word (fst a) /\ Forall redir_ok (snd a).

Fixpoint line_ok (l : gline) : Prop :=
  match l with
  | GEnd p _ => pipe_ok p
  | GSeq p _ l => pipe_ok p /\ line_ok l
  end
with pipe_ok (p : gpipe) : Prop :=
  match p with
  | GOne e => exec_ok e
  | GMore e p => exec_ok e /\ pipe_ok p
  end
with exec_ok (e : gexec) : Prop :=
  match e with
  | GBlock l rs => line_ok l /\ Forall redir_ok rs
  | GSimple rs args => Forall redir_ok rs /\ Forall arg_ok args /\ (length args < MAXARGS)%nat
  end.

(** ** Tokens *)

(** No blank at the beginning. *)
Definition clean (s : list Z) : Prop := skip_ws s = s.
Definition starts (toks : list Z) (s : list Z) : bool := match s with c :: _ => among toks c | [] => false end.

Lemma clean_cons c s : among whitespace c = false -> clean (c :: s).
Proof. intros H. unfold clean. cbn. by rewrite H. Qed.

Lemma peek_clean toks s : clean s -> peek toks s = Ret (starts toks s) s.
Proof. intros H. unfold peek, bind, get, put, ret. by rewrite H. Qed.

Lemma wordchar_ws c : wordchar c = true -> among whitespace c = false /\ among symbols c = false.
Proof. unfold wordchar. destruct (among whitespace c), (among symbols c); done. Qed.

Lemma skip_word_stop w c s : Forall (fun c => wordchar c = true) w -> wordchar c = false -> skip_word (w ++ c :: s) = c :: s.
Proof.
  intros Hw Hc. induction Hw as [|d w Hd Hw IH]; cbn [app skip_word].
  - change (negb _ && negb _) with (wordchar c). by rewrite Hc.
  - change (negb _ && negb _) with (wordchar d). by rewrite Hd.
Qed.

Lemma word_head w : is_word w -> exists c w', w = c :: w' /\ wordchar c = true.
Proof. intros [H1 H2]. destruct w as [|c w]; [done|]. apply Forall_cons in H2 as [Hc _]. eauto. Qed.

Lemma word_clean w s : is_word w -> clean (w ++ s).
Proof. intros (c & w' & -> & Hc)%word_head. apply clean_cons. by apply wordchar_ws. Qed.

Lemma gettoken_word w s : is_word w -> clean s -> gettoken (w ++ 32 :: s) = Ret (97, (w ++ 32 :: s, 32 :: s)) s.
Proof.
  intros Hw Hs. pose proof (word_clean w (32 :: s) Hw) as Hc. unfold gettoken, bind, get. rewrite Hc. clear Hc.
  pose proof (skip_word_stop w 32 s (proj2 Hw) eq_refl) as Hk.
  destruct (word_head w Hw) as (c & w' & -> & Hc). apply wordchar_ws in Hc as [_ Hc]. cbn [app] in *.
  assert (among [124; 40; 41; 59; 38; 60] c = false /\ c <> 62) as [-> Hne].
  { unfold among in *. apply bool_decide_eq_false in Hc. split; [apply bool_decide_eq_false|]; set_solver. }
  rewrite (proj2 (Z.eqb_neq c 62)) by done. rewrite Hk. unfold put, ret. cbn [skip_ws]. change (among whitespace 32) with true. cbn iota. by rewrite Hs.
Qed.

Lemma text_word w s : text (w ++ 32 :: s, 32 :: s) = w.
Proof.
  unfold text. cbn [fst snd]. rewrite length_app. replace (length w + length (32%Z :: s) - length (32%Z :: s))%nat with (length w) by lia.
  apply take_app_length.
Qed.

(** One of the symbols, followed by a space. *)
Lemma gettoken_sym c s : among [124; 40; 41; 59; 38; 60] c = true -> clean s ->
  exists w, gettoken (c :: 32 :: s) = Ret (c, w) s.
Proof.
  intros Hc Hs. assert (among whitespace c = false) as Hw.
  { unfold among in *. apply bool_decide_eq_true in Hc. apply bool_decide_eq_false. set_solver by lia. }
  unfold gettoken, bind, get. rewrite (clean_cons c (32 :: s) Hw), Hc. unfold put, ret. cbn [skip_ws].
  change (among whitespace 32) with true. cbn iota. rewrite Hs. eauto.
Qed.

Lemma gettoken_out s : clean s -> exists w, gettoken (62 :: 32 :: s) = Ret (62, w) s.
Proof.
  intros Hs. unfold gettoken, bind, get. rewrite (clean_cons 62) by done. change (among [124; 40; 41; 59; 38; 60] 62) with false.
  cbn iota. rewrite Z.eqb_refl. change (32 =? 62) with false. cbn iota. unfold put, ret. cbn [skip_ws].
  change (among whitespace 32) with true. cbn iota. rewrite Hs. eauto.
Qed.

Lemma gettoken_app s : clean s -> exists w, gettoken (62 :: 62 :: 32 :: s) = Ret (43, w) s.
Proof.
  intros Hs. unfold gettoken, bind, get. rewrite (clean_cons 62) by done. change (among [124; 40; 41; 59; 38; 60] 62) with false.
  cbn iota. rewrite Z.eqb_refl. cbn iota. unfold put, ret. cbn [skip_ws].
  change (among whitespace 32) with true. cbn iota. rewrite Hs. eauto.
Qed.

(** ** Commands *)

Fixpoint erase (c : cmd word) : cmd (list Z) :=
  match c with
  | EXEC argv => EXEC (text <$> argv)
  | REDIR c f m d => REDIR (erase c) (text f) m d
  | PIPE l r => PIPE (erase l) (erase r)
  | LIST l r => LIST (erase l) (erase r)
  | BACK c => BACK (erase c)
  end.

Definition erase_redir (r : redir word) : redir (list Z) := mkredir (text (rfile r)) (rmode r) (rfd r).

Lemma erase_wrap rs : forall c, erase (wrap c rs) = wrap (erase c) (erase_redir <$> rs).
Proof. unfold wrap. induction rs as [|r rs IH]; intros c; [done|]. cbn. by rewrite IH. Qed.

(** The parser returns a command that stands for [t] and stops at [s']. *)
Definition gives {A B} (f : A -> B) (m : PM A) (s : list Z) (t : B) (s' : list Z) : Prop :=
  exists a, m s = Ret a s' /\ f a = t.

Lemma show_redirs_cons r rs s : show_redirs (r :: rs) ++ s = show_redir r ++ show_redirs rs ++ s.
Proof. unfold show_redirs. cbn. by rewrite app_assoc. Qed.

Lemma redirs_clean rs s : clean s -> clean (show_redirs rs ++ s).
Proof. intros Hs. destruct rs as [|r rs]; [done|]. rewrite show_redirs_cons. destruct r; by apply clean_cons. Qed.

Lemma redirs_loop_gives rs : forall s (k : nat), Forall redir_ok rs -> clean s -> starts [60; 62] s = false ->
  (length (show_redirs rs ++ s) < k)%nat ->
  gives (fmap erase_redir) (parseredirs_loop k) (show_redirs rs ++ s) (tree_redirs rs) s.
Proof.
  induction rs as [|r rs IH]; intros s k Hr Hs Hst Hk; (destruct k as [|k]; [lia|]); unfold gives; cbn [parseredirs_loop].
  - change (show_redirs [] ++ s) with s. rewrite (bind_ret _ _ _ _ _ (peek_clean [60; 62] s Hs)), Hst. by exists [].
  - apply Forall_cons in Hr as [Hr Hrs]. pose proof (redirs_clean (r :: rs) s Hs) as Hcl. pose proof (redirs_clean rs s Hs) as Hcl'.
    rewrite (bind_ret _ _ _ _ _ (peek_clean _ _ Hcl)). rewrite show_redirs_cons in *.
    assert (exists tok w, starts [60; 62] (show_redir r ++ show_redirs rs ++ s) = true /\
      (exists w', gettoken (show_redir r ++ show_redirs rs ++ s) = Ret (tok, w') (w ++ 32 :: show_redirs rs ++ s)) /\ is_word w /\
      tree_redir r = mkredir w (if tok =? 60 then O_RDONLY else O_WRCREATE) (if tok =? 60 then 0 else 1)) as (tok & w & -> & (w' & E) & Hw & Ht).
    { assert (forall w, is_word w -> clean (w ++ 32 :: show_redirs rs ++ s)) as Hwc by (intros; by apply word_clean).
      destruct r as [w|w|w]; cbn [show_redir redir_ok tree_redir app] in *; rewrite <- !app_assoc; cbn [app].
      - exists 60, w. split_and!; [done|apply gettoken_sym; [done|by apply Hwc]|done|done].
      - exists 62, w. split_and!; [done|apply gettoken_out; by apply Hwc|done|done].
      - exists 43, w. split_and!; [done|apply gettoken_app; by apply Hwc|done|done]. }
    rewrite (bind_ret _ _ _ _ _ E). rewrite (bind_ret _ _ _ _ _ (gettoken_word w _ Hw Hcl')). change (negb (97 =? 97)) with false. cbn iota.
    destruct (IH s k) as (rs' & E' & Ers); [done|done|done|rewrite length_app in Hk; assert (1 <= length (show_redir r))%nat by (destruct r; cbn; lia); lia|].
    rewrite (bind_ret _ _ _ _ _ E'). eexists. split; [reflexivity|]. unfold tree_redirs. cbn [fmap list_fmap]. fold (tree_redirs rs).
    change (list_fmap (redir word) (redir (list Z)) erase_redir rs') with (erase_redir <$> rs'). rewrite Ers. f_equal. rewrite Ht. unfold erase_redir.
    destruct (tok =? 60); cbn [rfile rmode rfd]; by rewrite text_word.
Qed.

Lemma redirs_gives rs s : Forall redir_ok rs -> clean s -> starts [60; 62] s = false ->
  gives (fmap erase_redir) parseredirs (show_redirs rs ++ s) (tree_redirs rs) s.
Proof.
  intros Hr Hs Hst. destruct (redirs_loop_gives rs s (S (length (show_redirs rs ++ s)))) as (a & E & Ea); [done|done|done|lia|].
  exists a. split; [exact E|done].
Qed.

(** What may follow a command. *)
Definition follows (toks : list Z) (s : list Z) : Prop := s = [] \/ starts toks s = true.
Definition ended : list Z -> Prop := follows [124; 41; 38; 59].

Lemma follows_mono toks toks' s : toks ⊆ toks' -> follows toks s -> follows toks' s.
Proof.
  intros Hi [->|H]; [by left|right]. destruct s as [|c s]; [done|]. cbn in *. unfold among in *.
  apply bool_decide_eq_true in H. apply bool_decide_eq_true. set_solver.
Qed.

Lemma follows_not toks toks' s : toks ## toks' -> follows toks s -> starts toks' s = false.
Proof.
  intros Hi [->|H]; [done|]. destruct s as [|c s]; [done|]. cbn in *. unfold among in *.
  apply bool_decide_eq_true in H. apply bool_decide_eq_false. set_solver.
Qed.

Lemma ended_facts s : ended s -> clean s /\ starts [60; 62] s = false /\ starts [40] s = false.
Proof.
  intros [->|H]; [done|]. destruct s as [|c s]; [done|]. cbn in H. unfold among in H. apply bool_decide_eq_true in H.
  assert (c = 124 \/ c = 41 \/ c = 38 \/ c = 59) as Hc by set_solver.
  destruct Hc as [->|[->|[->| ->]]]; split_and!; (done || by apply clean_cons).
Qed.

Lemma show_args_cons w rs args s : show_args ((w, rs) :: args) ++ s = w ++ 32 :: show_redirs rs ++ show_args args ++ s.
Proof. unfold show_args, show_arg. cbn. by rewrite <- !app_assoc. Qed.

(** [s] follows: a word, or nothing more of the command. *)
Lemma args_facts args s : Forall arg_ok args -> ended s ->
  clean (show_args args ++ s) /\ starts [60; 62] (show_args args ++ s) = false /\ starts [40] (show_args args ++ s) = false /\
  (args <> [] -> starts [124; 41; 38; 59] (show_args args ++ s) = false).
Proof.
  intros Ha Hs. destruct args as [|[w rs] args].
  { change (show_args [] ++ s) with s. destruct (ended_facts s Hs) as (? & ? & ?). split_and!; done. }
  apply Forall_cons in Ha as [[Hw _] _]. cbn [fst] in Hw. rewrite show_args_cons. destruct (word_head w Hw) as (c & w' & -> & Hc).
  apply wordchar_ws in Hc as [Hc1 Hc2]. cbn [app]. split; [by apply clean_cons|].
  cbn [starts]. unfold among in *. apply bool_decide_eq_false in Hc2. split_and!; intros; apply bool_decide_eq_false; set_solver.
Qed.

Lemma args_gives args : forall s (k : nat) argv rs, Forall arg_ok args -> (length argv + length args < MAXARGS)%nat -> ended s ->
  (length (show_args args ++ s) < k)%nat ->
  gives erase (parseargs k argv rs) (show_args args ++ s)
    (wrap (EXEC ((text <$> argv) ++ args.*1)) ((erase_redir <$> rs) ++ mjoin ((fun a => tree_redirs (snd a)) <$> args))) s.
Proof.
  induction args as [|[w rs'] args IH]; intros s k argv rs Ha Hlen Hs Hk; (destruct k as [|k]; [lia|]); unfold gives; cbn [parseargs].
  - change (show_args [] ++ s) with s. destruct (ended_facts s Hs) as (Hc & _ & _).
    rewrite (bind_ret _ _ _ _ _ (peek_clean _ _ Hc)). exists (wrap (EXEC argv) rs). rewrite erase_wrap. cbn. rewrite !app_nil_r. split; [|done].
    destruct Hs as [->|Hs]; [|by rewrite Hs]. done.
  - destruct (args_facts _ s Ha Hs) as (Hc & _ & _ & Hst). apply Forall_cons in Ha as [[Hw Hrs] Ha]. cbn [fst snd] in Hw, Hrs.
    rewrite (bind_ret _ _ _ _ _ (peek_clean _ _ Hc)), Hst by done. rewrite show_args_cons in *.
    destruct (args_facts args s Ha Hs) as (Hc' & Hr' & _ & _). pose proof (redirs_clean rs' _ Hc') as Hcr.
    rewrite (bind_ret _ _ _ _ _ (gettoken_word w _ Hw Hcr)). change (97 =? 0) with false. change (negb (97 =? 97)) with false. cbn iota.
    rewrite (proj2 (Nat.leb_gt _ _)) by (rewrite length_app; cbn in *; lia).
    destruct (redirs_gives rs' _ Hrs Hc' Hr') as (r2 & E2 & Er2). rewrite (bind_ret _ _ _ _ _ E2).
    destruct (IH s k (argv ++ [(w ++ 32 :: show_redirs rs' ++ show_args args ++ s, 32 :: show_redirs rs' ++ show_args args ++ s)]) (rs ++ r2))
      as (c & E & Ec); [done|rewrite length_app; cbn in *; lia|done|rewrite length_app in Hk; cbn [length] in Hk; rewrite length_app in Hk; lia|].
    exists c. split; [exact E|]. rewrite Ec, !fmap_app. cbn [fmap list_fmap]. rewrite text_word, <- !app_assoc. cbn [app fst snd].
    change (list_fmap (redir word) (redir (list Z)) erase_redir r2) with (erase_redir <$> r2) || idtac. by rewrite Er2.
Qed.

Lemma amps_gives n : forall s (k : nat) c, clean s -> starts [38] s = false -> (length (show_amps n ++ s) < k)%nat ->
  gives erase (parseback k c) (show_amps n ++ s) (backs n (erase c)) s.
Proof.
  induction n as [|n IH]; intros s k c Hs Hst Hk; (destruct k as [|k]; [lia|]); unfold gives; cbn [parseback].
  - change (show_amps 0 ++ s) with s. rewrite (bind_ret _ _ _ _ _ (peek_clean _ _ Hs)), Hst. by exists c.
  - change (show_amps (S n) ++ s) with (38 :: 32 :: show_amps n ++ s) in *.
    assert (clean (show_amps n ++ s)) as Hc by (destruct n; [done|by apply clean_cons]).
    rewrite (bind_ret _ _ _ _ _ (peek_clean [38] _ (clean_cons 38 _ eq_refl))). cbn [starts]. change (among [38] 38) with true. cbn iota.
    destruct (gettoken_sym 38 (show_amps n ++ s) eq_refl Hc) as [w E]. rewrite (bind_ret _ _ _ _ _ E).
    destruct (IH s k (BACK c)) as (c' & E' & Ec); [done|done|cbn in Hk; lia|]. exists c'. split; [done|].
    rewrite Ec. unfold backs. cbn [erase]. by rewrite Nat.iter_succ_r.
Qed.

(** ** Commands followed by something *)

Lemma amps_follow n s : follows [41; 59] s -> follows [41; 38; 59] (show_amps n ++ s).
Proof. intros H. destruct n; [|by right]. revert H. apply follows_mono. set_solver. Qed.

Lemma exec_starts e s : exec_ok e -> ended s -> clean (show_exec e ++ s).
Proof.
  intros He Hs. destruct e as [l rs|rs args]; cbn [show_exec]; [by apply clean_cons|].
  rewrite <- app_assoc. apply redirs_clean. apply args_facts; [by destruct He as (_ & ? & _)|done].
Qed.

Lemma pipe_starts p s : pipe_ok p -> ended s -> clean (show_pipe p ++ s).
Proof.
  intros Hp Hs. destruct p as [e|e p]; cbn [show_pipe pipe_ok] in *; [by apply exec_starts|].
  rewrite <- app_assoc. apply exec_starts; [by destruct Hp|by right].
Qed.

Lemma line_starts l s : line_ok l -> follows [41] s -> clean (show_line l ++ s).
Proof.
  intros Hl Hs. destruct l as [p n|p n l]; cbn [show_line line_ok] in *; rewrite <- !app_assoc; apply pipe_starts; try (done || by destruct Hl).
  - eapply follows_mono; [|apply amps_follow; revert Hs; apply follows_mono]; set_solver.
  - eapply follows_mono; [|apply amps_follow; by right]. set_solver.
Qed.

(** A simple command does not look like a block. *)
Lemma simple_starts rs args s : Forall arg_ok args -> ended s -> starts [40] (show_redirs rs ++ show_args args ++ s) = false.
Proof.
  intros Ha Hs. destruct rs as [|r rs]; [by apply args_facts|]. rewrite show_redirs_cons. by destruct r.
Qed.

(** The pipeline and its ampersands, at the end of a line or before a semicolon. *)
Lemma backs_gives n s c : follows [41; 59] s ->
  gives erase (parseback (S (length (show_amps n ++ s))) c) (show_amps n ++ s) (backs n (erase c)) s.
Proof.
  intros Hs. destruct (ended_facts s) as (Hc & _); [revert Hs; apply follows_mono; set_solver|].
  apply amps_gives; [done|revert Hs; apply follows_not; set_solver|lia].
Qed.

Lemma get_Ret (s : list Z) : get s = Ret s s.
Proof. done. Qed.

(** Where a command of the grammar is found. *)
Definition line_gives (l : gline) : Prop := forall k s, line_ok l -> follows [41] s ->
  (4 * length (show_line l ++ s) + 4 <= k)%nat -> gives erase (parseline k) (show_line l ++ s) (tree_line l) s.
Definition pipe_gives (p : gpipe) : Prop := forall k s, pipe_ok p -> follows [41; 38; 59] s ->
  (4 * length (show_pipe p ++ s) + 3 <= k)%nat -> gives erase (parsepipe k) (show_pipe p ++ s) (tree_pipe p) s.
Definition exec_gives (e : gexec) : Prop := forall k s, exec_ok e -> ended s ->
  (4 * length (show_exec e ++ s) + 2 <= k)%nat -> gives erase (parseexec k) (show_exec e ++ s) (tree_exec e) s.

(** The pipeline of a line and its ampersands. *)
Lemma head_gives p n k s : pipe_gives p -> pipe_ok p -> follows [41; 59] s ->
  (4 * length (show_pipe p ++ show_amps n ++ s) + 3 <= k)%nat ->
  gives erase (let! c := parsepipe k in let! s := get in parseback (S (length s)) c) (show_pipe p ++ show_amps n ++ s) (backs n (tree_pipe p)) s.
Proof.
  intros IH Hp Hs Hk. destruct (IH k (show_amps n ++ s) Hp (amps_follow n s Hs) Hk) as (c & E & Ec).
  unfold gives. rewrite (bind_ret _ _ _ _ _ E), (bind_ret _ _ _ _ _ (get_Ret _)), <- Ec. by apply backs_gives.
Qed.

Lemma parseline_eq k s : parseline (S k) s =
  bind (let! c := parsepipe k in let! s := get in parseback (S (length s)) c)
    (fun c => let! b := peek [59] in if b then gettoken ;; (let! r := parseline k in ret (LIST c r)) else ret c) s.
Proof. cbn [parseline]. unfold bind. destruct (parsepipe k s) as [c s'| |]; [|done|done]. cbn [get]. done. Qed.

Lemma line_end_gives p n : pipe_gives p -> line_gives (GEnd p n).
Proof.
  intros IH k s Hl Hs Hk. cbn [show_line line_ok tree_line] in *. destruct k as [|k]; [lia|]. rewrite <- app_assoc in *.
  assert (follows [41; 59] s) as Hs' by (revert Hs; apply follows_mono; set_solver).
  destruct (head_gives p n k s IH Hl Hs') as (c & E & Ec); [lia|]. unfold gives. rewrite parseline_eq, (bind_ret _ _ _ _ _ E).
  destruct (ended_facts s) as (Hc & _); [revert Hs; apply follows_mono; set_solver|].
  rewrite (bind_ret _ _ _ _ _ (peek_clean _ _ Hc)), (follows_not [41] [59] s) by (done || set_solver). by exists c.
Qed.

Lemma line_seq_gives p n l : pipe_gives p -> line_gives l -> line_gives (GSeq p n l).
Proof.
  intros IH IHl k s [Hp Hl] Hs Hk. cbn [show_line tree_line] in *. destruct k as [|k]; [lia|]. rewrite <- !app_assoc in *. cbn [app] in *.
  destruct (head_gives p n k (59 :: 32 :: show_line l ++ s) IH Hp) as (c & E & Ec); [by right|lia|].
  unfold gives. rewrite parseline_eq, (bind_ret _ _ _ _ _ E), (bind_ret _ _ _ _ _ (peek_clean [59] _ (clean_cons 59 _ eq_refl))).
  cbn [starts]. change (among [59] 59) with true. cbn iota.
  destruct (gettoken_sym 59 (show_line l ++ s) eq_refl (line_starts l s Hl Hs)) as [w Ew]. rewrite (bind_ret _ _ _ _ _ Ew).
  rewrite !length_app in Hk. cbn [length] in Hk. rewrite length_app in Hk.
  destruct (IHl k s Hl Hs) as (r & Er & Etr); [rewrite length_app; lia|]. rewrite (bind_ret _ _ _ _ _ Er).
  eexists. split; [done|]. cbn [erase]. by rewrite Ec, Etr.
Qed.

Lemma pipe_one_gives e : exec_gives e -> pipe_gives (GOne e).
Proof.
  intros IH k s He Hs Hk. cbn [show_pipe tree_pipe pipe_ok] in *. destruct k as [|k]; [lia|].
  assert (ended s) as Hs' by (revert Hs; apply follows_mono; set_solver). destruct (IH k s He Hs') as (c & E & Ec); [lia|].
  unfold gives. cbn [parsepipe]. rewrite (bind_ret _ _ _ _ _ E). destruct (ended_facts s Hs') as (Hc & _).
  rewrite (bind_ret _ _ _ _ _ (peek_clean _ _ Hc)), (follows_not [41; 38; 59] [124] s) by (done || set_solver). by exists c.
Qed.

Lemma pipe_more_gives e p : exec_gives e -> pipe_gives p -> pipe_gives (GMore e p).
Proof.
  intros IH IHp k s [He Hp] Hs Hk. cbn [show_pipe tree_pipe] in *. destruct k as [|k]; [lia|]. rewrite <- !app_assoc in *. cbn [app] in *.
  destruct (IH k (124 :: 32 :: show_pipe p ++ s) He) as (c & E & Ec); [by right|lia|].
  unfold gives. cbn [parsepipe]. rewrite (bind_ret _ _ _ _ _ E), (bind_ret _ _ _ _ _ (peek_clean [124] _ (clean_cons 124 _ eq_refl))).
  cbn [starts]. change (among [124] 124) with true. cbn iota.
  assert (clean (show_pipe p ++ s)) as Hc by (apply pipe_starts; [done|revert Hs; apply follows_mono; set_solver]).
  destruct (gettoken_sym 124 (show_pipe p ++ s) eq_refl Hc) as [w Ew]. rewrite (bind_ret _ _ _ _ _ Ew).
  rewrite length_app in Hk. cbn [length] in Hk.
  destruct (IHp k s Hp Hs) as (r & Er & Etr); [lia|]. rewrite (bind_ret _ _ _ _ _ Er).
  eexists. split; [done|]. cbn [erase]. by rewrite Ec, Etr.
Qed.

Lemma simple_gives rs args : exec_gives (GSimple rs args).
Proof.
  intros k s (Hr & Ha & Hn) Hs Hk. cbn [show_exec tree_exec] in *. destruct k as [|k]; [lia|]. rewrite <- !app_assoc in *.
  destruct (args_facts args s Ha Hs) as (Hc & Hst & _ & _). unfold gives. cbn [parseexec].
  rewrite (bind_ret _ _ _ _ _ (peek_clean _ _ (redirs_clean rs _ Hc))), simple_starts by done.
  destruct (redirs_gives rs _ Hr Hc Hst) as (r & E & Er). rewrite (bind_ret _ _ _ _ _ E), (bind_ret _ _ _ _ _ (get_Ret _)).
  destruct (args_gives args s (S (length (show_args args ++ s))) [] r) as (c & E' & Ec); [done|cbn; lia|done|lia|].
  exists c. split; [done|]. by rewrite Ec, Er.
Qed.

Lemma block_gives l rs : line_gives l -> exec_gives (GBlock l rs).
Proof.
  intros IH k s [Hl Hr] Hs Hk. cbn [show_exec tree_exec app] in *. do 2 (destruct k as [|k]; [lia|]). unfold gives. cbn [parseexec].
  rewrite (bind_ret _ _ _ _ _ (peek_clean [40] _ (clean_cons 40 _ eq_refl))). cbn [starts]. change (among [40] 40) with true. cbn iota. cbn [parseblock].
  rewrite (bind_ret _ _ _ _ _ (peek_clean [40] _ (clean_cons 40 _ eq_refl))). cbn [starts]. change (negb (among [40] 40)) with false. cbn iota.
  rewrite <- !app_assoc in *. cbn [app length] in *. rewrite <- ?app_assoc in *.
  assert (follows [41] (41 :: 32 :: show_redirs rs ++ s)) as Hf by by right.
  destruct (gettoken_sym 40 _ eq_refl (line_starts l _ Hl Hf)) as [w Ew]. rewrite (bind_ret _ _ _ _ _ Ew).
  destruct (IH k _ Hl Hf) as (c & E & Ec); [lia|]. rewrite (bind_ret _ _ _ _ _ E).
  rewrite (bind_ret _ _ _ _ _ (peek_clean [41] _ (clean_cons 41 _ eq_refl))). cbn [starts]. change (negb (among [41] 41)) with false. cbn iota.
  destruct (ended_facts s Hs) as (Hc & Hst & _). destruct (gettoken_sym 41 _ eq_refl (redirs_clean rs s Hc)) as [w' Ew']. rewrite (bind_ret _ _ _ _ _ Ew').
  destruct (redirs_gives rs s Hr Hc Hst) as (r & E' & Er). rewrite (bind_ret _ _ _ _ _ E').
  eexists. split; [done|]. by rewrite erase_wrap, Ec, Er.
Qed.

Lemma grammar_gives : (forall l, line_gives l) /\ (forall p, pipe_gives p) /\ (forall e, exec_gives e).
Proof.
  apply grammar_ind; auto using line_end_gives, line_seq_gives, pipe_one_gives, pipe_more_gives, simple_gives, block_gives.
Qed.

(** ** The round trip *)

Lemma parsecmd_text g : line_ok g -> exists c, parsecmd (show_line g) = Ret (c, nulterminate c (show_line g ++ [0])) [] /\ erase c = tree_line g.
Proof.
  intros Hg. destruct (proj1 grammar_gives g (4 * length (show_line g) + 4)%nat [] Hg) as (c & E & Ec); [by left|by rewrite app_nil_r|].
  rewrite app_nil_r in E. exists c. split; [|done]. unfold parsecmd. rewrite (bind_ret _ _ _ _ _ E). done.
Qed.

(** C30: The parser inverts the printer. For every sentence [g] of the shell's
    grammar - lists, pipelines, background commands, blocks and simple commands
    with redirections anywhere among fewer than MAXARGS words - [parsecmd] of
    the text of [g] returns, uses the text up and yields the command that [g]
    stands for, its words being the bytes between the pointers it stores. *)
Theorem parse_print g : line_ok g ->
  exists c buf, parsecmd (show_line g) = Ret (c, buf) [] /\ erase c = tree_line g /\ buf = nulterminate c (show_line g ++ [0]).
Proof. intros Hg. destruct (parsecmd_text g Hg) as (c & E & Ec). by exists c, (nulterminate c (show_line g ++ [0])). Qed.

(** [a < f & ; ( b c > g ) | d]. *)
Definition demo_line : gline :=
  GSeq (GOne (GSimple [] [([97], [GIn [102]])])) 1
    (GEnd (GMore (GBlock (GEnd (GOne (GSimple [] [([98], []); ([99], [GOut [103]])])) 0) []) (GOne (GSimple [] [([100], [])]))) 0).

Lemma parse_print_witness :
  line_ok demo_line /\ exists c buf, parsecmd (show_line demo_line) = Ret (c, buf) [] /\ erase c =
    LIST (BACK (REDIR (EXEC [[97]]) [102] 0 0)) (PIPE (REDIR (EXEC [[98]; [99]]) [103] 513 1) (EXEC [[100]])) /\ buf = nulterminate c (show_line demo_line ++ [0]).
Proof.
  assert (line_ok demo_line) as H.
  { cbn. unfold arg_ok, is_word. repeat split; try discriminate; try (repeat constructor; done); try lia. }
  split; [exact H|]. exact (parse_print demo_line H).
Defined.
