(* ===== verification/Spinlock.v ===== *)
(** * Spin locks and interrupt nesting ([spinlock.c], [mycpu] of [proc.c])

    The first part runs the code of one CPU: [machine] holds the flags
    register, the [cpus] table and the memory that [getcallerpcs] walks.  The
    second part interleaves the lock operations of several CPUs at the level of
    single memory accesses. *)
From S2P Require Import Prelude Str.

Definition FL_IF : Z := 512.
Definition KERNBASE : Z := 2147483648.

(** ** State *)

Record cpu := mkcpu {
  apicid : Z;
  ncli : Z;
  intena : Z;
}.

Record machine := mkmachine {
  lapic_id : Z;       (* what lapicid() returns here *)
  eflags : Z;
  cpus : list cpu;    (* the first [ncpu] entries *)
  ram : mem;
}.

Record spinlock := mkspinlock {
  locked : Z;
  lkcpu : option nat;  (* [None] is the null pointer *)
  pcs : list Z;
}.

Definition set_eflags (f : Z) (m : machine) : machine :=
  mkmachine (lapic_id m) f (cpus m) (ram m).
Definition set_cpus (c : list cpu) (m : machine) : machine :=
  mkmachine (lapic_id m) (eflags m) c (ram m).
Definition set_ncli (n : Z) (c : cpu) : cpu := mkcpu (apicid c) n (intena c).
Definition set_intena (n : Z) (c : cpu) : cpu := mkcpu (apicid c) (ncli c) n.

(** ** Instructions (x86.h) *)

Definition readeflags : M machine Z := gets eflags.
Definition cli : M machine unit :=
  modify (fun m => set_eflags (Z.ldiff (eflags m) FL_IF) m).
Definition sti : M machine unit :=
  modify (fun m => set_eflags (Z.lor (eflags m) FL_IF) m).

(** ** proc.c: the CPU that runs this code *)

Definition find_cpu (m : machine) : option nat :=
  fst <$> list_find (fun a => a = lapic_id m) (apicid <$> cpus m).

Definition mycpu : M machine nat :=
  let! f := readeflags in
  if nz (Z.land f FL_IF) then panic "mycpu called with interrupts enabled"
  else
    let! m := get in
    match find_cpu m with
    | Some i => ret i
    | None => panic "unknown apicid"
    end.

(** Read and write fields of [mycpu()]. *)
Definition cpu_get {A} (f : cpu -> A) : M machine A :=
  let! i := mycpu in
  let! m := get in
  let! c := deref (cpus m !! i) in
  ret (f c).

Definition cpu_set (f : cpu -> cpu) : M machine unit :=
  let! i := mycpu in
  modify (fun m => set_cpus (alter f i (cpus m)) m).

(** ** spinlock.c *)

Definition pushcli : M machine unit :=
  let! f := readeflags in
  cli ;;
  let! n := cpu_get ncli in
  when (n =? 0) (cpu_set (set_intena (Z.land f FL_IF))) ;;
  cpu_set (fun c => set_ncli (s32 (ncli c + 1)) c).

Definition popcli : M machine unit :=
  let! f := readeflags in
  if nz (Z.land f FL_IF) then panic "popcli - interruptible" else
  cpu_set (fun c => set_ncli (s32 (ncli c - 1)) c) ;;
  let! n := cpu_get ncli in
  if n <? 0 then panic "popcli" else
  let! e := cpu_get intena in
  when ((n =? 0) && nz e) sti.

(** [cpuid] and [myproc] of proc.c; [running i] is the field [proc] of [cpus[i]]. *)
Definition cpuid : M machine Z := let! i := mycpu in ret (Z.of_nat i).

Definition myproc {P} (running : nat -> P) : M machine P :=
  pushcli ;;
  let! c := mycpu in
  let p := running c in
  popcli ;;
  ret p.

Fixpoint walk_ebp (m : mem) (ebp : Z) (n : nat) : list Z :=
  match n with
  | O => []
  | S k =>
      if (ebp =? 0) || (ebp <? KERNBASE) || (ebp =? 4294967295)
      then repeat 0 (S k)
      else load32 m (ebp + 4) :: walk_ebp m (load32 m ebp) k
  end.

(** [v] is the address of the caller's first argument. *)
Definition getcallerpcs (m : mem) (v : Z) : list Z := walk_ebp m (u32 (v - 8)) 10.
#[global] Arguments getcallerpcs : simpl never.

Definition initlock : spinlock := mkspinlock 0 None (repeat 0 10).

Definition lockst : Type := machine * spinlock.

Definition on_machine {A} (c : M machine A) : M lockst A :=
  zoom fst (fun m s => (m, snd s)) c.

(** The test [lock->locked && lock->cpu == mycpu()] of [holding], up to the read
    of [locked] and from there on. *)
Definition holding_locked : M lockst Z :=
  on_machine pushcli ;;
  let! lk := gets snd in
  ret (locked lk).

Definition holding_cpu (l : Z) : M lockst bool :=
  let! r :=
    (if nz l then
       let! i := on_machine mycpu in
       let! lk := gets snd in
       ret (bool_decide (lkcpu lk = Some i))
     else ret false) in
  on_machine popcli ;;
  ret r.

Definition holding : M lockst bool := let! l := holding_locked in holding_cpu l.

Definition set_lock (f : spinlock -> spinlock) : M lockst unit := modify (fun s => (fst s, f (snd s))).

(** [xchg(&lk->locked, newval)]. *)
Definition xchg (newval : Z) : M lockst Z :=
  let! lk := gets snd in
  set_lock (fun lk => mkspinlock newval (lkcpu lk) (pcs lk)) ;;
  ret (locked lk).

(** The stores of [acquire] after the exchange and of [release]. *)
Definition record_cpu : M lockst unit :=
  let! i := on_machine mycpu in
  set_lock (fun lk => mkspinlock (locked lk) (Some i) (pcs lk)).

Definition record_pcs (argp : Z) : M lockst unit :=
  let! r := gets (fun s => ram (fst s)) in
  set_lock (fun lk => mkspinlock (locked lk) (lkcpu lk) (getcallerpcs r argp)).

Definition clear_pcs : M lockst unit :=
  set_lock (fun lk => mkspinlock (locked lk) (lkcpu lk) (<[0%nat := 0]> (pcs lk))).

Definition clear_cpu : M lockst unit := set_lock (fun lk => mkspinlock (locked lk) None (pcs lk)).

Definition clear_locked : M lockst unit := set_lock (fun lk => mkspinlock 0 (lkcpu lk) (pcs lk)).

(** One attempt at the lock; a failed [xchg] spins with interrupts off. *)
Definition acquire (argp : Z) : M lockst unit :=
  on_machine pushcli ;;
  let! h := holding in
  if h : bool then panic "acquire" else
  let! old := xchg 1 in
  if nz old then fun s => Wait "spin" s else
  record_cpu ;;
  record_pcs argp.

Definition release : M lockst unit :=
  let! h := holding in
  if negb h then panic "release" else
  clear_pcs ;;
  clear_cpu ;;
  clear_locked ;;
  on_machine popcli.

(** ** Running the code of one CPU *)

(** CPU [i] of the table, with contents [c], runs this code. *)
Definition cpu_is (m : machine) (i : nat) (c : cpu) : Prop :=
  find_cpu m = Some i /\ cpus m !! i = Some c.

Definition upd_cpu (i : nat) (c : cpu) (m : machine) : machine :=
  set_cpus (<[i := c]> (cpus m)) m.

Definition irq_off (m : machine) : Prop := Z.land (eflags m) FL_IF = 0.

Lemma irq_cli f : Z.land (Z.ldiff f FL_IF) FL_IF = 0.
Proof.
  apply Z.bits_inj'; intros n Hn. rewrite Z.land_spec, Z.ldiff_spec, Z.bits_0.
  by destruct (Z.testbit f n), (Z.testbit FL_IF n).
Qed.

Lemma ldiff_irq_off f : Z.land f FL_IF = 0 -> Z.ldiff f FL_IF = f.
Proof.
  intros H. apply Z.bits_inj'; intros n Hn. rewrite Z.ldiff_spec.
  assert (Z.testbit (Z.land f FL_IF) n = false) as E by (rewrite H; apply Z.bits_0).
  rewrite Z.land_spec in E. by destruct (Z.testbit f n), (Z.testbit FL_IF n).
Qed.

Lemma irq_restore f : Z.land f FL_IF <> 0 -> Z.lor (Z.ldiff f FL_IF) FL_IF = f.
Proof.
  intros H. assert (Z.testbit f 9 = true) as H9.
  { apply not_false_is_true. intros E. apply H, Z.bits_inj'. intros n Hn.
    rewrite Z.land_spec, Z.bits_0. change FL_IF with (2 ^ 9).
    rewrite Z.pow2_bits_eqb by lia. destruct (Z.eqb_spec 9 n) as [<-|];
      [by rewrite E|apply andb_false_r]. }
  apply Z.bits_inj'; intros n Hn. rewrite Z.lor_spec, Z.ldiff_spec.
  change FL_IF with (2 ^ 9). rewrite Z.pow2_bits_eqb by lia.
  destruct (Z.eqb_spec 9 n) as [<-|]; [by rewrite H9|]. by destruct (Z.testbit f n).
Qed.

Lemma cpu_is_find m i : find_cpu m = Some i -> exists c, cpus m !! i = Some c.
Proof.
  unfold find_cpu. intros ([j a] & (Hj & _)%list_find_Some & E)%fmap_Some.
  cbn in E. subst. rewrite list_lookup_fmap in Hj.
  destruct (cpus m !! j); naive_solver.
Qed.

Lemma cpu_is_upd m i c c' :
  cpu_is m i c -> apicid c' = apicid c -> cpu_is (upd_cpu i c' m) i c'.
Proof.
  intros [Hf Hc] Ha. split.
  - unfold find_cpu in *. cbn. rewrite list_fmap_insert, Ha.
    rewrite list_insert_id; [done|]. by rewrite list_lookup_fmap, Hc.
  - cbn. apply list_lookup_insert_eq. by eapply lookup_lt_Some.
Qed.

Lemma cpu_is_flags m i c f : cpu_is m i c -> cpu_is (set_eflags f m) i c.
Proof. done. Qed.

Lemma mycpu_run m i c : cpu_is m i c -> irq_off m -> mycpu m = Ret i m.
Proof.
  intros [Hf Hc] Hi. unfold mycpu, readeflags. run.
  unfold irq_off in Hi. rewrite Hi. cbn. by rewrite Hf.
Qed.

Lemma cpu_get_run {A} (f : cpu -> A) m i c :
  cpu_is m i c -> irq_off m -> cpu_get f m = Ret (f c) m.
Proof.
  intros Hc Hi. unfold cpu_get. erewrite bind_ret by (by eapply mycpu_run).
  run. destruct Hc as [_ ->]. done.
Qed.

Lemma cpu_set_run f m i c :
  cpu_is m i c -> irq_off m -> cpu_set f m = Ret tt (upd_cpu i (f c) m).
Proof.
  intros Hc Hi. unfold cpu_set. erewrite bind_ret by (by eapply mycpu_run).
  run. unfold upd_cpu. by rewrite (list_insert_alter _ _ _ c) by apply Hc.
Qed.

Lemma upd_cpu_twice i c c' m : upd_cpu i c' (upd_cpu i c m) = upd_cpu i c' m.
Proof. unfold upd_cpu, set_cpus. cbn. by rewrite list_insert_insert_eq. Qed.

Lemma pushcli_run m i c :
  cpu_is m i c ->
  pushcli m = Ret tt (set_eflags (Z.ldiff (eflags m) FL_IF)
    (upd_cpu i (mkcpu (apicid c) (s32 (ncli c + 1))
       (if ncli c =? 0 then Z.land (eflags m) FL_IF else intena c)) m)).
Proof.
  intros Hc. unfold pushcli, readeflags, gets at 1, bind at 1.
  unfold cli, modify at 1, bind at 1.
  set (m1 := set_eflags _ m).
  assert (irq_off m1) by apply irq_cli.
  assert (cpu_is m1 i c) as H1 by done.
  erewrite bind_ret by (by eapply cpu_get_run).
  destruct (ncli c =? 0).
  - cbn [when]. erewrite bind_ret by (by eapply cpu_set_run).
    erewrite cpu_set_run; [|by eapply cpu_is_upd|done].
    rewrite upd_cpu_twice. done.
  - cbn [when]. erewrite bind_ret by done. by erewrite cpu_set_run by done.
Qed.

Lemma popcli_run m i c :
  cpu_is m i c -> irq_off m -> 1 <= ncli c < 2147483648 ->
  popcli m = Ret tt (set_eflags
      (if (ncli c =? 1) && nz (intena c) then Z.lor (eflags m) FL_IF else eflags m)
      (upd_cpu i (set_ncli (ncli c - 1) c) m)).
Proof.
  intros Hc Hi Hn. unfold popcli, readeflags, gets at 1, bind at 1.
  pose proof Hi as Hi'. unfold irq_off in Hi'. rewrite Hi'. cbn [nz negb Z.eqb].
  erewrite bind_ret by (by eapply cpu_set_run).
  cbv beta. rewrite s32_small by lia.
  set (m1 := upd_cpu i _ m).
  assert (cpu_is m1 i (set_ncli (ncli c - 1) c)) as H1 by (by eapply cpu_is_upd).
  assert (irq_off m1) by done.
  erewrite bind_ret by (by eapply cpu_get_run). cbn [ncli set_ncli].
  destruct (Z.ltb_spec (ncli c - 1) 0); [lia|].
  erewrite bind_ret by (by eapply cpu_get_run). cbn [intena set_ncli].
  destruct (Z.eqb_spec (ncli c - 1) 0), (Z.eqb_spec (ncli c) 1); try lia;
    cbn [andb when]; [destruct (nz (intena c))|]; done.
Qed.

(** ** Nesting of pushcli and popcli *)

Inductive cliop := Push | Pop.

Fixpoint run_cli (ops : list cliop) : M machine unit :=
  match ops with
  | [] => ret tt
  | Push :: r => pushcli ;; run_cli r
  | Pop :: r => popcli ;; run_cli r
  end.

(** The nesting depth after [ops]; undefined when a pop has no push or the
    depth leaves the range of [int]. *)
Fixpoint depth (d : Z) (ops : list cliop) : option Z :=
  match ops with
  | [] => Some d
  | Push :: r => if d + 1 <? 2147483648 then depth (d + 1) r else None
  | Pop :: r => if d <=? 0 then None else depth (d - 1) r
  end.

(** State at depth [d] of a nesting entered with flags [f0], with memory [r]. *)
Definition nested (f0 : Z) (r : mem) (i : nat) (d : Z) (m : machine) : Prop :=
  ram m = r /\
  exists c, cpu_is m i c /\ ncli c = d /\ 0 <= d < 2147483648 /\
    (d = 0 -> eflags m = f0) /\
    (0 < d -> eflags m = Z.ldiff f0 FL_IF /\ intena c = Z.land f0 FL_IF).

Lemma nested_push f0 r i d m :
  nested f0 r i d m -> d + 1 < 2147483648 ->
  exists m', pushcli m = Ret tt m' /\ nested f0 r i (d + 1) m'.
Proof.
  intros (Hm & c & Hc & Hd & Hr & H0 & Hp) Hlt.
  eexists. split; [by apply pushcli_run|]. split; [done|].
  eexists. split; [apply cpu_is_flags; by eapply cpu_is_upd|].
  cbn. rewrite Hd, s32_small by lia. split; [done|]. split; [lia|].
  split; [lia|]. intros _. destruct (Z.eqb_spec d 0) as [E|E].
  - by rewrite H0.
  - destruct Hp as [-> ->]; [lia|]. split; [|done].
    apply ldiff_irq_off, irq_cli.
Qed.

Lemma nested_pop f0 r i d m :
  nested f0 r i d m -> 0 < d ->
  exists m', popcli m = Ret tt m' /\ nested f0 r i (d - 1) m'.
Proof.
  intros (Hm & c & Hc & Hd & Hr & _ & Hp) Hlt. destruct (Hp Hlt) as [Ef Ei].
  eexists. split.
  { apply popcli_run; [done| |lia]. unfold irq_off. rewrite Ef. apply irq_cli. }
  split; [done|]. eexists. split; [apply cpu_is_flags; by eapply cpu_is_upd|].
  cbn. rewrite Hd, Ef, Ei. unfold nz. split; [done|]. split; [lia|].
  destruct (Z.eqb_spec d 1) as [->|E]; (split; [intros E'|intros E']); try lia.
  - destruct (Z.eqb_spec (Z.land f0 FL_IF) 0) as [Z0|Z0]; cbn.
    + by apply ldiff_irq_off.
    + by apply irq_restore.
  - done.
Qed.

Lemma run_cli_nested f0 r i ops d d' m :
  nested f0 r i d m -> depth d ops = Some d' ->
  exists m', run_cli ops m = Ret tt m' /\ nested f0 r i d' m'.
Proof.
  revert d m. induction ops as [|[] ops IH]; intros d m Hn Hd; cbn in Hd.
  - simplify_eq. eauto.
  - destruct (Z.ltb_spec (d + 1) 2147483648) as [Hlt|]; [|done].
    destruct (nested_push _ _ _ _ _ Hn Hlt) as (m1 & E & Hn1).
    destruct (IH _ _ Hn1 Hd) as (m2 & E2 & ?).
    exists m2. split; [|done]. cbn. by erewrite bind_ret.
  - destruct (Z.leb_spec d 0) as [|Hlt]; [done|].
    destruct (nested_pop _ _ _ _ _ Hn Hlt) as (m1 & E & Hn1).
    destruct (IH _ _ Hn1 Hd) as (m2 & E2 & ?).
    exists m2. split; [|done]. cbn. by erewrite bind_ret.
Qed.

Lemma nested_start m i c :
  cpu_is m i c -> ncli c = 0 -> nested (eflags m) (ram m) i 0 m.
Proof.
  intros. split; [done|]. exists c. split; [done|]. split; [done|]. split; [lia|].
  split; [done|]. intros; lia.
Qed.

(** matched [pushcli]/[popcli] calls, however nested, never panic; the
    interrupt flag is off while the depth is positive and is exactly the
    caller's flag again when the depth is back to zero. *)
Theorem cli_nesting (m : machine) (i : nat) (c : cpu) (ops : list cliop) (d : Z)
    (Hc : cpu_is m i c) (H0 : ncli c = 0) (Hd : depth 0 ops = Some d) :
  exists m' c', run_cli ops m = Ret tt m' /\ cpu_is m' i c' /\ ncli c' = d /\
    (d = 0 -> eflags m' = eflags m) /\ (0 < d -> irq_off m').
Proof.
  destruct (run_cli_nested _ _ _ _ _ _ _ (nested_start _ _ _ Hc H0) Hd)
    as (m' & E & _ & c' & Hc' & Hn & _ & Hz & Hp).
  exists m', c'. split_and!; [done..|].
  intros Hlt. unfold irq_off. destruct (Hp Hlt) as [-> _]. apply irq_cli.
Qed.

Definition demo_machine : machine :=
  mkmachine 4 514 [mkcpu 0 0 0; mkcpu 4 0 0] (fun _ => 0).

(** ** acquire and release *)

Definition held_by (lk : spinlock) (i : nat) : bool :=
  nz (locked lk) && bool_decide (lkcpu lk = Some i).

Lemma nested_cpu f0 r i d m : nested f0 r i d m -> exists c, cpu_is m i c.
Proof. intros (_ & c & ? & _). eauto. Qed.

Lemma nested_off f0 r i d m : nested f0 r i d m -> 0 < d -> irq_off m.
Proof.
  intros (_ & c & _ & _ & _ & _ & Hp) H. destruct (Hp H) as [E _].
  unfold irq_off. rewrite E. apply irq_cli.
Qed.

Lemma on_machine_ret {A} (c : M machine A) m lk a m' :
  c m = Ret a m' -> on_machine c (m, lk) = Ret a (m', lk).
Proof. apply (zoom_ret fst (fun m s => (m, snd s)) c (m, lk)). Qed.

Lemma nested_mycpu f0 r i d m lk :
  nested f0 r i d m -> 0 < d -> on_machine mycpu (m, lk) = Ret i (m, lk).
Proof.
  intros Hn Hd. destruct (nested_cpu _ _ _ _ _ Hn) as [c Hc].
  apply on_machine_ret. eapply mycpu_run; [done|by eapply nested_off].
Qed.

(** [myproc] may be called with interrupts enabled, at any depth of [pushcli]: it
    reads the process of the CPU it runs on and leaves the flag as it was. *)
Lemma myproc_run {P} (running : nat -> P) f0 r i d m :
  nested f0 r i d m -> 0 <= d -> d + 1 < 2147483648 ->
  exists m', myproc running m = Ret (running i) m' /\ nested f0 r i d m'.
Proof.
  intros Hn H0 Hd. destruct (nested_push _ _ _ _ _ Hn Hd) as (m1 & E1 & H1).
  destruct (nested_pop _ _ _ _ _ H1 ltac:(lia)) as (m2 & E2 & H2).
  destruct (nested_cpu _ _ _ _ _ H1) as [c Hc].
  pose proof (mycpu_run _ _ _ Hc (nested_off _ _ _ _ _ H1 ltac:(lia))) as E.
  exists m2. split; [|by rewrite Z.add_simpl_r in H2].
  unfold myproc. by rewrite (bind_ret _ _ _ _ _ E1), (bind_ret _ _ _ _ _ E), (bind_ret _ _ _ _ _ E2).
Qed.

Lemma holding_locked_run f0 r i d m lk :
  nested f0 r i d m -> d + 1 < 2147483648 ->
  exists m', pushcli m = Ret tt m' /\ holding_locked (m, lk) = Ret (locked lk) (m', lk) /\ nested f0 r i (d + 1) m'.
Proof.
  intros Hn Hd. destruct (nested_push _ _ _ _ _ Hn Hd) as (m1 & E1 & Hn1). exists m1. split_and!; [done| |done].
  unfold holding_locked. by erewrite bind_ret by (by apply on_machine_ret).
Qed.

Lemma holding_cpu_run f0 r i d m lk l :
  nested f0 r i d m -> 0 < d ->
  exists m', popcli m = Ret tt m' /\ nested f0 r i (d - 1) m' /\
    holding_cpu l (m, lk) = Ret (nz l && bool_decide (lkcpu lk = Some i)) (m', lk).
Proof.
  intros Hn Hd. destruct (nested_pop _ _ _ _ _ Hn Hd) as (m1 & E1 & Hn1). exists m1. split_and!; [done|done|].
  unfold holding_cpu. destruct (nz l); cbn [andb].
  - erewrite bind_ret.
    2: { erewrite bind_ret by (by eapply nested_mycpu). done. }
    by erewrite bind_ret by (by apply on_machine_ret).
  - erewrite bind_ret by done. by erewrite bind_ret by (by apply on_machine_ret).
Qed.

Lemma holding_run f0 r i d m lk :
  nested f0 r i d m -> d + 1 < 2147483648 ->
  exists m', holding (m, lk) = Ret (held_by lk i) (m', lk) /\ nested f0 r i d m'.
Proof.
  intros Hn Hd. assert (0 <= d) by (by destruct Hn as (_ & ? & _ & _ & ? & _); lia).
  destruct (holding_locked_run f0 r i d m lk Hn Hd) as (m1 & _ & E1 & Hn1).
  destruct (holding_cpu_run f0 r i (d + 1) m1 lk (locked lk) Hn1 ltac:(lia)) as (m2 & _ & Hn2 & E2).
  rewrite Z.add_simpl_r in Hn2. exists m2. split; [|done]. unfold holding. by rewrite (bind_ret _ _ _ _ _ E1).
Qed.

Lemma xchg_run v m lk :
  xchg v (m, lk) = Ret (locked lk) (m, mkspinlock v (lkcpu lk) (pcs lk)).
Proof. done. Qed.

Lemma acquire_run (f0 argp : Z) (r : mem) (i : nat) (d : Z) (m : machine) (lk : spinlock)
    (Hn : nested f0 r i d m) (Hd : d + 2 < 2147483648) :
  if held_by lk i then acquire argp (m, lk) = Stop (Panic "acquire")
  else exists m', nested f0 r i (d + 1) m' /\ irq_off m' /\
    if nz (locked lk)
    then acquire argp (m, lk) = Wait "spin" (m', mkspinlock 1 (lkcpu lk) (pcs lk))
    else acquire argp (m, lk) =
         Ret tt (m', mkspinlock 1 (Some i) (getcallerpcs r argp)).
Proof.
  assert (0 <= d) by (by destruct Hn as (_ & ? & _ & _ & ? & _); lia).
  destruct (nested_push _ _ _ _ _ Hn ltac:(lia)) as (m1 & E1 & Hn1).
  destruct (holding_run f0 r i (d + 1) m1 lk Hn1 ltac:(lia)) as (m2 & E2 & Hn2).
  unfold acquire. erewrite bind_ret by (by apply on_machine_ret).
  erewrite bind_ret by exact E2.
  destruct (held_by lk i); [done|]. exists m2.
  split; [done|]. split; [eapply nested_off; [done|lia]|].
  rewrite (bind_ret _ _ _ _ _ (xchg_run 1 m2 lk)).
  destruct (nz (locked lk)); [done|].
  unfold record_cpu. rewrite (bind_ret _ _ _ tt (m2, mkspinlock 1 (Some i) (pcs lk))).
  2: { by erewrite bind_ret by (eapply nested_mycpu; [done|lia]). }
  by destruct Hn2 as [<- _].
Qed.

(** [acquire] panics if this CPU already holds the lock, spins with
    interrupts off if another CPU does, and otherwise returns with interrupts
    off and the lock recorded as held by this CPU, one level deeper. *)
Theorem acquire_cases (f0 argp : Z) (r : mem) (i : nat) (d : Z) (m : machine) (lk : spinlock)
    (Hn : nested f0 r i d m) (Hd : d + 2 < 2147483648) :
  if held_by lk i then acquire argp (m, lk) = Stop (Panic "acquire")
  else exists m', nested f0 r i (d + 1) m' /\ irq_off m' /\
    if nz (locked lk)
    then acquire argp (m, lk) = Wait "spin" (m', mkspinlock 1 (lkcpu lk) (pcs lk))
    else acquire argp (m, lk) =
         Ret tt (m', mkspinlock 1 (Some i) (getcallerpcs r argp)).
Proof. by apply acquire_run. Qed.

Lemma release_run (f0 : Z) (r : mem) (i : nat) (d : Z) (m : machine) (lk : spinlock)
    (Hn : nested f0 r i d m) (H0 : 0 < d) (Hd : d + 1 < 2147483648) :
  if held_by lk i
  then exists m', nested f0 r i (d - 1) m' /\
         release (m, lk) = Ret tt (m', mkspinlock 0 None (<[0%nat := 0]> (pcs lk)))
  else release (m, lk) = Stop (Panic "release").
Proof.
  destruct (holding_run f0 r i d m lk Hn Hd) as (m1 & E1 & Hn1).
  unfold release. erewrite bind_ret by exact E1.
  destruct (held_by lk i); [|done]. cbn [negb].
  destruct (nested_pop _ _ _ _ _ Hn1 H0) as (m2 & E2 & Hn2).
  exists m2. split; [done|]. do 3 (erewrite bind_ret by done).
  by apply on_machine_ret.
Qed.

(** [release] panics unless this CPU holds the lock; otherwise the lock is
    free afterwards and the interrupt nesting is one level shallower. *)
Theorem release_cases (f0 : Z) (r : mem) (i : nat) (d : Z) (m : machine) (lk : spinlock)
    (Hn : nested f0 r i d m) (H0 : 0 < d) (Hd : d + 1 < 2147483648) :
  if held_by lk i
  then exists m', nested f0 r i (d - 1) m' /\
         release (m, lk) = Ret tt (m', mkspinlock 0 None (<[0%nat := 0]> (pcs lk)))
  else release (m, lk) = Stop (Panic "release").
Proof. by apply release_run. Qed.

(** ** Several CPUs on one lock

    Every CPU runs [acquire] and [release] on a shared lock.  The code is cut
    between its accesses to the lock; each [segment] is the code from one access
    to the next, in the machine of its CPU, whose table of CPUs and memory all of
    them share. *)

(** Code of CPU [i] changes no other entry of the table. *)
Record confined (i : nat) (m m' : machine) : Prop := mkconf {
  cf_lapic : lapic_id m' = lapic_id m;
  cf_ram : ram m' = ram m;
  cf_ids : apicid <$> cpus m' = apicid <$> cpus m;
  cf_other j : j <> i -> cpus m' !! j = cpus m !! j;
}.

Lemma confined_upd i c c' f m :
  cpus m !! i = Some c -> apicid c' = apicid c -> confined i m (set_eflags f (upd_cpu i c' m)).
Proof.
  intros Hc Ha. split; [done|done| |].
  - cbn. rewrite list_fmap_insert, Ha, list_insert_id; [done|]. by rewrite list_lookup_fmap, Hc.
  - intros j Hj. cbn. by rewrite list_lookup_insert_ne.
Qed.

Lemma confined_refl i m : confined i m m.
Proof. by split. Qed.

Lemma confined_trans i m m1 m2 : confined i m m1 -> confined i m1 m2 -> confined i m m2.
Proof. intros [A B C E] [A' B' C' E']. split; [congruence..|]. intros j Hj. by rewrite E', E. Qed.

Lemma push_confined f0 r i d m m' : nested f0 r i d m -> pushcli m = Ret tt m' -> confined i m m'.
Proof.
  intros (_ & c & Hc & _) E. rewrite (pushcli_run m i c Hc) in E. injection E as <-.
  eapply confined_upd; [apply Hc|done].
Qed.

Lemma pop_confined f0 r i d m m' : nested f0 r i d m -> 0 < d -> popcli m = Ret tt m' -> confined i m m'.
Proof.
  intros Hn Hd E. pose proof (nested_off _ _ _ _ _ Hn Hd) as Hi. destruct Hn as (_ & c & Hc & Hnc & Hr & _).
  rewrite (popcli_run m i c Hc Hi ltac:(lia)) in E. injection E as <-. eapply confined_upd; [apply Hc|done].
Qed.

Lemma nested_frame f0 r j d a f T T' :
  nested f0 r j d (mkmachine a f T r) -> apicid <$> T' = apicid <$> T -> T' !! j = T !! j ->
  nested f0 r j d (mkmachine a f T' r).
Proof.
  intros (_ & c & [Hf Hc] & H) Hi Hj. split; [done|]. exists c. split; [|done]. split; [|cbn in *; congruence].
  unfold find_cpu in *. cbn in *. by rewrite Hi.
Qed.

Lemma nested_mram f0 r r' j d a f T :
  nested f0 r j d (mkmachine a f T r) -> nested f0 r' j d (mkmachine a f T r').
Proof. by intros (_ & H). Qed.

Module Race.

(** Where a CPU is: outside; in [acquire], having read [locked] as [l] in
    [holding], in the loop, past the exchange, with [cpu] stored; between
    [acquire] and [release]; in [release], having read [locked] as [l], past the
    check, with [pcs[0]], [cpu] and [locked] cleared. *)
Inductive loc :=
| Out | Checking (l : Z) | Spinning | Won | Recorded | In
| Asking (l : Z) | Sure | Marked | Leaving | Unlocked.

#[global] Instance loc_eq_dec : EqDecision loc.
Proof. solve_decision. Defined.

Definition segment (argp : Z) (l : loc) : M lockst loc :=
  match l with
  | Out => on_machine pushcli ;; let! l := holding_locked in ret (Checking l)
  | Checking l => let! h := holding_cpu l in if h : bool then panic "acquire" else ret Spinning
  | Spinning => let! old := xchg 1 in ret (if nz old then Spinning else Won)
  | Won => record_cpu ;; ret Recorded
  | Recorded => record_pcs argp ;; ret In
  | In => let! l := holding_locked in ret (Asking l)
  | Asking l => let! h := holding_cpu l in if negb h then panic "release" else ret Sure
  | Sure => clear_pcs ;; ret Marked
  | Marked => clear_cpu ;; ret Leaving
  | Leaving => clear_locked ;; ret Unlocked
  | Unlocked => on_machine popcli ;; ret Out
  end.

(** [n] segments in a row, as a CPU runs them that no other gets in between; a
    failed exchange is where [acquire] would spin. *)
Fixpoint segments (n : nat) (argp : Z) (l : loc) : M lockst loc :=
  match n with
  | O => ret l
  | S n =>
      let! l' := segment argp l in
      if decide (l = Spinning /\ l' = Spinning) then fun s => Wait "spin" s else segments n argp l'
  end.

(** The segments are the code: five of them are [acquire], six are [release]. *)
Lemma acquire_segments argp s : segments 5 argp Out s = (acquire argp ;; ret In) s.
Proof.
  unfold acquire, holding. cbn [segments segment]. unfold bind, ret.
  destruct (on_machine pushcli s) as [[] s1|?|]; [|done..].
  destruct (holding_locked s1) as [l s2|?|]; [|done..]. rewrite decide_False by naive_solver.
  cbn [segment]. unfold bind, ret. destruct (holding_cpu l s2) as [[] s3|?|]; [done| |done..]. rewrite decide_False by naive_solver.
  cbn [segment]. unfold bind, ret. destruct (xchg 1 s3) as [old s4|?|]; [|done..].
  destruct (nz old); [by rewrite decide_True|]. rewrite decide_False by naive_solver.
  cbn [segment]. unfold bind, ret. destruct (record_cpu s4) as [[] s5|?|]; [|done..]. rewrite decide_False by naive_solver.
  cbn [segment]. unfold bind, ret. destruct (record_pcs argp s5) as [[] s6|?|]; [|done..]. by rewrite decide_False by naive_solver.
Qed.

Lemma release_segments argp s : segments 6 argp In s = (release ;; ret Out) s.
Proof.
  unfold release, holding. cbn [segments segment]. unfold bind, ret.
  destruct (holding_locked s) as [l s1|?|]; [|done..]. rewrite decide_False by naive_solver.
  cbn [segment]. unfold bind, ret. destruct (holding_cpu l s1) as [[] s2|?|]; [|done..]. cbn [negb].
  rewrite decide_False by naive_solver. cbn [segment]. unfold bind, ret.
  destruct (clear_pcs s2) as [[] s3|?|]; [|done..]. rewrite decide_False by naive_solver.
  cbn [segment]. unfold bind, ret. destruct (clear_cpu s3) as [[] s4|?|]; [|done..]. rewrite decide_False by naive_solver.
  cbn [segment]. unfold bind, ret. destruct (clear_locked s4) as [[] s5|?|]; [|done..]. rewrite decide_False by naive_solver.
  cbn [segment]. unfold bind, ret. destruct (on_machine popcli s5) as [[] s6|?|]; [|done..]. by rewrite decide_False by naive_solver.
Qed.

(** ** The system *)

Record st := mk {
  lock : spinlock;
  table : list cpu;        (* cpus *)
  mram : mem;
  regs : list (Z * Z);     (* of each CPU: its APIC id and its flags *)
  pc : list loc;
}.

(** The machine as CPU [i] sees it. *)
Definition machine_of (s : st) (i : nat) : option machine :=
  (fun r => mkmachine (fst r) (snd r) (table s) (mram s)) <$> regs s !! i.

Definition put (i : nat) (l : loc) (m : machine) (lk : spinlock) (s : st) : st :=
  mk lk (cpus m) (ram m) (<[i := (lapic_id m, eflags m)]> (regs s)) (<[i := l]> (pc s)).

(** A CPU runs a segment, or other code stores to memory. *)
Inductive step : st -> st -> Prop :=
| step_cpu s i l m argp l' m' lk' :
    pc s !! i = Some l -> machine_of s i = Some m -> segment argp l (m, lock s) = Ret l' (m', lk') ->
    step s (put i l' m' lk' s)
| step_store s r : step s (mk (lock s) (table s) r (regs s) (pc s)).

(** CPU [i] is at depth [d] of [pushcli], with room for two more. *)
Definition at_depth (s : st) (i : nat) (k : Z) : Prop :=
  exists m f0 d, machine_of s i = Some m /\ nested f0 (mram s) i (d + k) m /\ 0 <= d /\ d + 2 < 2147483648.

(** A free lock, and CPUs outside at any depth. *)
Definition start (s : st) : Prop :=
  lock s = initlock /\ forall i l, pc s !! i = Some l -> l = Out /\ at_depth s i 0.

(** ** The invariant *)

(** Between the exchange that takes the lock and the store that frees it. *)
Definition owns (l : loc) : bool :=
  match l with Won | Recorded | In | Asking _ | Sure | Marked | Leaving => true | _ => false end.

(** Where [lk->cpu] names the owner. *)
Definition named (l : loc) : bool :=
  match l with Recorded | In | Asking _ | Sure | Marked => true | _ => false end.

(** The calls of [pushcli] that the lock code has made. *)
Definition pushes (l : loc) : Z :=
  match l with Out => 0 | Checking _ | Asking _ => 2 | _ => 1 end.

(** Nobody but [except] owns the lock. *)
Definition others_out (p : list loc) (except : option nat) : Prop :=
  forall j l, p !! j = Some l -> except <> Some j -> owns l = false.

Definition lock_inv (lk : spinlock) (p : list loc) : Prop :=
  (locked lk = 0 /\ lkcpu lk = None /\ others_out p None) \/
  (exists i l, locked lk <> 0 /\ p !! i = Some l /\ owns l = true /\
     lkcpu lk = (if named l then Some i else None) /\ others_out p (Some i)).

Record inv (s : st) : Prop := mkinv {
  iv_depth i l : pc s !! i = Some l -> at_depth s i (pushes l);
  iv_lock : lock_inv (lock s) (pc s);
  iv_ask i v : pc s !! i = Some (Asking v) -> v <> 0;
}.

(** A CPU that owns the lock is the one the invariant names. *)
Lemma lock_owner lk p i l :
  lock_inv lk p -> p !! i = Some l -> owns l = true ->
  locked lk <> 0 /\ lkcpu lk = (if named l then Some i else None) /\ others_out p (Some i).
Proof.
  intros [(_ & _ & H)|(j & k & Hw & Hj & Hk & Ho & H)] Hi Hl.
  - by rewrite (H _ _ Hi) in Hl.
  - destruct (decide (j = i)) as [->|Hne]; [by simplify_eq|].
    rewrite (H _ _ Hi) in Hl; naive_solver.
Qed.

(** [holding] is true on the CPU that the lock names. *)
Lemma lock_held lk p i l : lock_inv lk p -> p !! i = Some l -> held_by lk i = named l.
Proof.
  intros HI Hi. unfold held_by, nz. destruct (owns l) eqn:Ho.
  - destruct (lock_owner _ _ _ _ HI Hi Ho) as (Hw & -> & _). rewrite (proj2 (Z.eqb_neq _ _) Hw).
    destruct (named l); cbn; [by rewrite bool_decide_true|by rewrite bool_decide_false].
  - assert (named l = false) as -> by (by destruct l). apply andb_false_iff. right. apply bool_decide_eq_false_2.
    destruct HI as [(_ & -> & _)|(j & k & _ & Hj & Hk & -> & _)]; [done|]. destruct (named k); [|done]. congruence.
Qed.

(** What a segment does to the lock and where it goes on. *)
Definition next (lk : spinlock) (l : loc) : loc :=
  match l with
  | Out => Checking (locked lk) | Checking _ => Spinning
  | Spinning => if nz (locked lk) then Spinning else Won
  | Won => Recorded | Recorded => In | In => Asking (locked lk)
  | Asking _ => Sure | Sure => Marked | Marked => Leaving | Leaving => Unlocked | Unlocked => Out
  end.

Definition effect (argp : Z) (r : mem) (i : nat) (lk : spinlock) (l : loc) : spinlock :=
  match l with
  | Spinning => mkspinlock 1 (lkcpu lk) (pcs lk)
  | Won => mkspinlock (locked lk) (Some i) (pcs lk)
  | Recorded => mkspinlock (locked lk) (lkcpu lk) (getcallerpcs r argp)
  | Sure => mkspinlock (locked lk) (lkcpu lk) (<[0%nat := 0]> (pcs lk))
  | Marked => mkspinlock (locked lk) None (pcs lk)
  | Leaving => mkspinlock 0 (lkcpu lk) (pcs lk)
  | _ => lk
  end.

(** The checks of [holding] come out right. *)
Definition checks (lk : spinlock) (i : nat) (l : loc) : Prop :=
  match l with
  | Checking _ => lkcpu lk <> Some i
  | Asking v => v <> 0 /\ lkcpu lk = Some i
  | _ => True
  end.

Lemma segment_run argp f0 r i d m lk l :
  nested f0 r i (d + pushes l) m -> 0 <= d -> d + 2 < 2147483648 -> checks lk i l ->
  exists m', segment argp l (m, lk) = Ret (next lk l) (m', effect argp r i lk l) /\
    confined i m m' /\ nested f0 r i (d + pushes (next lk l)) m'.
Proof.
  intros Hn H0 H2 Hc. pose proof Hn as [Hr _]. pose proof (confined_refl i m) as Hid.
  destruct l as [|v| | | | |v| | | |]; cbn [pushes next effect segment] in *.
  - destruct (nested_push _ _ _ _ _ Hn ltac:(lia)) as (m1 & E1 & Hn1).
    destruct (holding_locked_run f0 r i (d + 0 + 1) m1 lk Hn1 ltac:(lia)) as (m2 & E2 & E2' & Hn2).
    exists m2. rewrite (bind_ret _ _ _ _ _ (on_machine_ret _ _ lk _ _ E1)), (bind_ret _ _ _ _ _ E2').
    split_and!; [done|eapply confined_trans; eapply push_confined; eassumption|].
    by replace (d + 2) with (d + 0 + 1 + 1) by lia.
  - destruct (holding_cpu_run f0 r i (d + 2) m lk v Hn ltac:(lia)) as (m1 & E1 & Hn1 & E1'). exists m1.
    rewrite (bind_ret _ _ _ _ _ E1'), (bool_decide_eq_false_2 _ Hc), andb_false_r.
    split_and!; [done|eapply pop_confined; [exact Hn|lia|done]|]. by replace (d + 1) with (d + 2 - 1) by lia.
  - exists m. rewrite (bind_ret _ _ _ _ _ (xchg_run 1 m lk)). split_and!; [done|done|]. by destruct (nz _).
  - exists m. split_and!; [|done|done]. unfold record_cpu. rewrite bind_assoc.
    by rewrite (bind_ret _ _ _ _ _ (nested_mycpu f0 r i (d + 1) m lk Hn ltac:(lia))).
  - exists m. split_and!; [|done|done]. by subst r.
  - destruct (holding_locked_run f0 r i (d + 1) m lk Hn ltac:(lia)) as (m1 & E1 & E1' & Hn1). exists m1.
    rewrite (bind_ret _ _ _ _ _ E1'). split_and!; [done|by eapply push_confined|]. by replace (d + 2) with (d + 1 + 1) by lia.
  - destruct (holding_cpu_run f0 r i (d + 2) m lk v Hn ltac:(lia)) as (m1 & E1 & Hn1 & E1'). exists m1. destruct Hc as [Hv Hc].
    rewrite (bind_ret _ _ _ _ _ E1'), (bool_decide_eq_true_2 _ Hc). unfold nz. rewrite (proj2 (Z.eqb_neq _ _) Hv).
    split_and!; [done|eapply pop_confined; [exact Hn|lia|done]|]. by replace (d + 1) with (d + 2 - 1) by lia.
  - by exists m.
  - by exists m.
  - by exists m.
  - destruct (nested_pop _ _ _ _ _ Hn ltac:(lia)) as (m1 & E1 & Hn1). exists m1.
    rewrite (bind_ret _ _ _ _ _ (on_machine_ret _ _ lk _ _ E1)).
    split_and!; [done|eapply pop_confined; [exact Hn|lia|done]|]. by replace (d + 0) with (d + 1 - 1) by lia.
Qed.

Lemma lock_checks lk p i l :
  lock_inv lk p -> p !! i = Some l -> (forall v, l = Asking v -> v <> 0) -> checks lk i l.
Proof.
  intros HI Hi Hv. pose proof (lock_held _ _ _ _ HI Hi) as Hh. destruct l as [|v| | | | |v| | | |]; cbn in *; try done.
  - destruct HI as [(_ & -> & _)|(j & k & _ & Hj & Hk & -> & _)]; [done|]. destruct (named k); [|done].
    intros [= ->]. by simplify_eq.
  - split; [by apply Hv|]. by apply andb_true_iff in Hh as [_ Hh%bool_decide_eq_true].
Qed.

Lemma others_insert p i l e : others_out p e -> owns l = false \/ e = Some i -> others_out (<[i := l]> p) e.
Proof.
  intros H Hl j k Hj Hne. apply list_lookup_insert_Some in Hj as [(? & ? & _)|[_ Hj]]; [|eauto]. subst. by destruct Hl.
Qed.

(** The segments keep the lock's part of the invariant. *)
Lemma lock_next argp r i lk p l :
  lock_inv lk p -> p !! i = Some l -> lock_inv (effect argp r i lk l) (<[i := next lk l]> p).
Proof.
  intros HI Hi. assert (<[i := next lk l]> p !! i = Some (next lk l)) as Hi'
    by (eapply list_lookup_insert_eq, lookup_lt_Some, Hi).
  destruct (owns l) eqn:Ho.
  - destruct (lock_owner _ _ _ _ HI Hi Ho) as (Hw & Hn & H). destruct (decide (l = Leaving)) as [->|Hl].
    + left. split_and!; [done|done|]. intros j k Hj _.
      apply list_lookup_insert_Some in Hj as [(? & ? & _)|[Hne Hj]]; [by subst|]. eapply H; [done|congruence].
    + right. exists i, (next lk l). split_and!; [by destruct l|done|by destruct l|by destruct l|].
      apply others_insert; [done|by right].
  - destruct (decide (l = Spinning /\ locked lk = 0)) as [[-> Hz]|Hn].
    + destruct HI as [(_ & Hcp & H)|(j & k & ? & _)]; [|done]. cbn [next effect] in *. rewrite Hz in *.
      right. exists i, Won. split_and!; [done|done|done|done|]. intros j k Hj Hne.
      rewrite list_lookup_insert_ne in Hj by congruence. by eapply H.
    + assert (owns (next lk l) = false) as Ho'.
      { destruct l; try done. cbn. unfold nz. destruct (Z.eqb_spec (locked lk) 0) as [Hz|]; [|done]. by destruct Hn. }
      destruct HI as [(Hw & Hcp & H)|(j & k & Hw & Hj & Hk & Hcp & H)].
      * left. split_and!; [destruct l; try done; exfalso; by apply Hn|by destruct l|]. apply others_insert; [done|by left].
      * right. exists j, k. assert (i <> j) by (intros ->; congruence).
        split_and!; [by destruct l|by rewrite list_lookup_insert_ne|done|by destruct l|]. apply others_insert; [done|by left].
Qed.

Lemma next_asking lk p i l v :
  lock_inv lk p -> p !! i = Some l -> next lk l = Asking v -> v <> 0.
Proof.
  intros HI Hi E. destruct l; cbn in E; try discriminate E; [by destruct (nz _)|]. injection E as <-.
  by destruct (lock_owner _ _ _ _ HI Hi eq_refl) as (Hw & _).
Qed.

Lemma inv_run argp s i l : inv s -> pc s !! i = Some l ->
  exists m m', machine_of s i = Some m /\ confined i m m' /\
    segment argp l (m, lock s) = Ret (next (lock s) l) (m', effect argp (mram s) i (lock s) l) /\
    forall s', s' = put i (next (lock s) l) m' (effect argp (mram s) i (lock s) l) s -> at_depth s' i (pushes (next (lock s) l)).
Proof.
  intros [Hd HL Ha] Hi. destruct (Hd _ _ Hi) as (m & f0 & d & Hm & Hn & H0 & H2).
  destruct (segment_run argp f0 (mram s) i d m (lock s) l Hn H0 H2) as (m' & E & Hc & Hn').
  { eapply lock_checks; [done|done|]. intros v ->. by eapply Ha. }
  exists m, m'. split_and!; [done|done|done|]. intros s' ->. exists m', f0, d.
  assert (ram m' = mram s) as Hr by (destruct Hn' as [? _]; done). split_and!; [|by cbn; rewrite Hr|done|done].
  unfold machine_of in *. apply fmap_Some in Hm as (rg & Hrg & _). cbn.
  rewrite list_lookup_insert_eq by (by eapply lookup_lt_Some). cbn. by destruct m'.
Qed.

Lemma inv_step s s' : step s s' -> inv s -> inv s'.
Proof.
  intros Hs HI. destruct Hs as [s i l m argp l' m' lk' Hi Hm E|s r].
  - destruct (inv_run argp s i l HI Hi) as (m0 & m1 & Hm0 & Hc & E0 & Hd). destruct HI as [Hdep HL Ha].
    rewrite Hm in Hm0. injection Hm0 as <-. rewrite E in E0. injection E0 as -> -> ->. specialize (Hd _ eq_refl). split.
    + intros j k Hj. destruct (decide (i = j)) as [->|Hne].
      { cbn in Hj. rewrite list_lookup_insert_eq in Hj by (by eapply lookup_lt_Some). by injection Hj as <-. }
      cbn in Hj. rewrite list_lookup_insert_ne in Hj by done. destruct (Hdep _ _ Hj) as (mj & f0 & d & Hmj & Hn & H0 & H2).
      unfold machine_of in *. apply fmap_Some in Hmj as ([a f] & Hrg & ->), Hm as ([a' f'] & _ & ->).
      destruct Hc as [_ Hr Hids Hoth]. cbn in Hr, Hids, Hoth. exists (mkmachine a f (cpus m1) (ram m1)), f0, d.
      split_and!; [unfold machine_of, put; cbn [regs table mram]; by rewrite list_lookup_insert_ne, Hrg| |done|done]. cbn [put mram]. rewrite Hr.
      eapply nested_frame; [exact Hn|done|]. apply Hoth. congruence.
    + by apply lock_next.
    + intros j v Hj. cbn in Hj. apply list_lookup_insert_Some in Hj as [(<- & Hv & _)|[_ Hj]]; [|by eapply Ha].
      by eapply next_asking.
  - destruct HI as [Hdep HL Ha]. split; [|done|done]. intros j k Hj. destruct (Hdep _ _ Hj) as (mj & f0 & d & Hmj & Hn & H0 & H2).
    unfold machine_of in *. apply fmap_Some in Hmj as ([a f] & Hrg & ->). exists (mkmachine a f (table s) r), f0, d.
    split_and!; [unfold machine_of; cbn [regs table mram]; by rewrite Hrg|by eapply nested_mram|done|done].
Qed.

Lemma inv_start s : start s -> inv s.
Proof.
  intros [Hl Hs]. split.
  - intros i l Hi. by destruct (Hs _ _ Hi) as [-> ?].
  - left. rewrite Hl. split_and!; [done|done|]. intros j l Hj _. by destruct (Hs _ _ Hj) as [-> _].
  - intros i v Hi. by destruct (Hs _ _ Hi).
Qed.

(** C6: any number of CPUs run [acquire] and [release] on a lock, cut at every
    access to it and interleaved in any way, from any depth of [pushcli].  At
    most one is between the exchange that took the lock and the store that frees
    it; [holding] is true on exactly the CPU that the lock records; no CPU's next
    segment panics; and interrupts are off on every CPU inside the lock code and
    between [acquire] and [release]. *)
Theorem mutual_exclusion (s0 s : st) (Hs : start s0) (Hr : rtc step s0 s) :
  (forall i j l k, pc s !! i = Some l -> pc s !! j = Some k -> owns l = true -> owns k = true -> i = j) /\
  (forall i l, pc s !! i = Some l -> exists m, machine_of s i = Some m /\
     held_by (lock s) i = named l /\ (l <> Out -> irq_off m) /\
     forall argp, exists l' s', segment argp l (m, lock s) = Ret l' s').
Proof.
  assert (inv s) as HI. { apply inv_start in Hs. induction Hr; eauto using inv_step. }
  split.
  - intros i j l k Hi Hj Hl Hk. destruct (lock_owner _ _ _ _ (iv_lock _ HI) Hi Hl) as (_ & _ & H).
    destruct (decide (i = j)); [done|]. rewrite (H _ _ Hj) in Hk; naive_solver.
  - intros i l Hi. destruct (iv_depth _ HI _ _ Hi) as (m & f0 & d & Hm & Hn & H0 & _). exists m. split_and!; [done| | |].
    + eapply lock_held; [apply HI|done].
    + intros Hl. eapply nested_off; [exact Hn|]. destruct l; cbn; try done; lia.
    + intros argp. destruct (inv_run argp s i l HI Hi) as (m0 & m' & Hm0 & _ & E & _).
      rewrite Hm in Hm0. injection Hm0 as <-. eauto.
Qed.

(** Two CPUs: CPU 1 takes the lock while CPU 0 spins. *)
Definition demo : st := mk initlock [mkcpu 0 0 0; mkcpu 4 0 0] (fun _ => 0) [(0, 514); (4, 514)] [Out; Out].

(** CPU [i] runs its next segment. *)
Definition turn (s : st) (i : nat) : option st :=
  match pc s !! i, machine_of s i with
  | Some l, Some m => match segment 0 l (m, lock s) with Ret l' (m', lk') => Some (put i l' m' lk' s) | _ => None end
  | _, _ => None
  end.

Lemma turn_step s i s' : turn s i = Some s' -> step s s'.
Proof.
  unfold turn. destruct (pc s !! i) as [l|] eqn:Hl; [|done]. destruct (machine_of s i) as [m|] eqn:Hm; [|done].
  destruct (segment 0 l (m, lock s)) as [l' [m' lk']|?|] eqn:E; [|done..]. intros [= <-]. by eapply step_cpu.
Qed.

Lemma turns_steps ts : forall s s', foldl (fun o i => o ≫= fun s => turn s i) (Some s) ts = Some s' -> rtc step s s'.
Proof.
  induction ts as [|i ts IH]; intros s s'; cbn [foldl]; [by intros [= <-]|]. cbn [mbind option_bind].
  destruct (turn s i) as [s1|] eqn:E; [|intros H; exfalso; clear -H; by induction ts].
  intros H. eapply rtc_l; [by eapply turn_step|by apply IH].
Qed.

Lemma demo_start : start demo.
Proof.
  split; [done|]. intros i l Hi. assert (l = Out) as -> by (destruct i as [|[|i]]; cbn in Hi; [congruence..|done]).
  split; [done|]. destruct i as [|[|i]]; [| |done].
  - exists (mkmachine 0 514 (table demo) (mram demo)), 514, 0. split_and!; [done| |lia|lia].
    by apply (nested_start (mkmachine 0 514 (table demo) (mram demo)) 0 (mkcpu 0 0 0)).
  - exists (mkmachine 4 514 (table demo) (mram demo)), 514, 0. split_and!; [done| |lia|lia].
    by apply (nested_start (mkmachine 4 514 (table demo) (mram demo)) 1 (mkcpu 4 0 0)).
Qed.

Lemma mutual_exclusion_witness : exists s, rtc step demo s /\ pc s = [Spinning; In] /\ held_by (lock s) 1 = true.
Proof.
  destruct (foldl (fun o i => o ≫= fun s => turn s i) (Some demo) [0; 1; 0; 1; 1; 0; 1; 0; 1]%nat) as [s|] eqn:E;
    [|vm_compute in E; discriminate E].
  assert (pc s = [Spinning; In]) as Hp by (vm_compute in E; injection E as <-; reflexivity).
  exists s. apply turns_steps in E. split; [exact E|]. split; [exact Hp|].
  destruct (proj2 (mutual_exclusion demo s demo_start E) 1%nat In) as (m & _ & Hh & _); [by rewrite Hp|exact Hh].
Defined.

End Race.
