(* ===== verification/Sleeplock.v ===== *)
(** * Sleep locks ([sleeplock.c])

    The operations, each one step under the lock's inner spin lock, and every
    interleaving of processes that use one sleep lock. *)
From S2P Require Import Prelude.

Record sleeplock := mksleeplock { sl_locked : Z; sl_pid : Z }.

Definition initsleeplock : sleeplock := mksleeplock 0 0.

(** One round of [acquiresleep]'s loop: take the lock or go to sleep on it. *)
Definition acquiresleep (me : Z) : M sleeplock unit :=
  let! lk := get in
  if nz (sl_locked lk) then (fun s => Wait "sleeplock" s)
  else put (mksleeplock 1 me).

(** The flag says that sleepers on the lock are woken. *)
Definition releasesleep : M sleeplock bool := put (mksleeplock 0 0) ;; ret true.

Definition holdingsleep (me : Z) : M sleeplock bool :=
  let! lk := get in ret (nz (sl_locked lk) && (sl_pid lk =? me)).

(** ** Processes that share the lock *)

(** A process is outside, about to try (again), asleep in [acquiresleep] or
    between [acquiresleep] and [releasesleep]. *)
Inductive where_is := Outside | Trying | Asleep | Holding.

Definition wake (w : where_is) : where_is :=
  match w with Asleep => Trying | _ => w end.

Record lsys := mklsys { lk : sleeplock; users : list where_is }.

(** Process [i] has pid [pid_of i]. *)
Definition pid_of (i : nat) : Z := Z.of_nat i + 1.

Inductive lstep : lsys -> lsys -> Prop :=
| ls_start l us i :
    us !! i = Some Outside -> lstep (mklsys l us) (mklsys l (<[i := Trying]> us))
| ls_take l us i l' :
    us !! i = Some Trying -> acquiresleep (pid_of i) l = Ret tt l' ->
    lstep (mklsys l us) (mklsys l' (<[i := Holding]> us))
| ls_sleep l us i c l' :
    us !! i = Some Trying -> acquiresleep (pid_of i) l = Wait c l' ->
    lstep (mklsys l us) (mklsys l' (<[i := Asleep]> us))
| ls_kill l us i :
    (** [kill] makes a sleeper runnable; [acquiresleep] then tests again *)
    us !! i = Some Asleep -> lstep (mklsys l us) (mklsys l (<[i := Trying]> us))
| ls_release l us i w l' :
    us !! i = Some Holding -> releasesleep l = Ret w l' ->
    lstep (mklsys l us)
          (mklsys l' (if w then wake <$> (<[i := Outside]> us) else <[i := Outside]> us)).

(** The lock is free and nobody holds it or sleeps on it, or it is held by the
    one process whose pid it records. *)
Definition linv (s : lsys) : Prop :=
  (sl_locked (lk s) = 0 /\ forall i w, users s !! i = Some w -> w <> Holding /\ w <> Asleep) \/
  (exists h, lk s = mksleeplock 1 (pid_of h) /\
     users s !! h = Some Holding /\
     forall i, users s !! i = Some Holding -> i = h).

Lemma linv_step s s' : lstep s s' -> linv s -> linv s'.
Proof.
  intros Hst. destruct Hst; unfold linv; cbn in *.
  - intros [[Hl Hn]|(h & Hl & Hh & Hu)]; [left|right; exists h].
    + split; [done|]. intros j w Hj. apply list_lookup_insert_Some in Hj as [(_ & <- & _)|[_ Hj]]; eauto.
    + split; [done|]. assert (i <> h) by congruence.
      rewrite list_lookup_insert_ne by done. split; [done|].
      intros j Hj. apply list_lookup_insert_Some in Hj as [(_ & ? & _)|[_ Hj]]; [done|eauto].
  - unfold acquiresleep in H0. run. destruct (nz (sl_locked l)) eqn:E; [done|].
    injection H0 as <-. intros [[Hl Hn]|(h & Hl & _)]; [|by subst l].
    right. exists i. split; [done|]. split.
    + apply list_lookup_insert_eq. by eapply lookup_lt_Some.
    + intros j Hj. apply list_lookup_insert_Some in Hj as [(? & _)|[_ Hj]]; [done|].
      by destruct (Hn _ _ Hj).
  - unfold acquiresleep in H0. run. destruct (nz (sl_locked l)) eqn:E; [|done].
    injection H0 as _ <-. intros [[Hl Hn]|(h & Hl & Hh & Hu)]; [by rewrite Hl in E|].
    right. exists h. split; [done|]. assert (i <> h) by congruence.
    rewrite list_lookup_insert_ne by done. split; [done|].
    intros j Hj. apply list_lookup_insert_Some in Hj as [(_ & ? & _)|[_ Hj]]; [done|eauto].
  - intros [[Hl Hn]|(h & Hl & Hh & Hu)]; [by destruct (Hn _ _ H)|].
    right. exists h. split; [done|]. assert (i <> h) by congruence.
    rewrite list_lookup_insert_ne by done. split; [done|].
    intros j Hj. apply list_lookup_insert_Some in Hj as [(_ & ? & _)|[_ Hj]]; [done|eauto].
  - unfold releasesleep in H0. run. injection H0 as <- <-.
    intros [[Hl Hn]|(h & Hl & Hh & Hu)]; [by destruct (Hn _ _ H)|]. left. split; [done|].
    intros j w Hj. rewrite list_lookup_fmap in Hj. apply fmap_Some in Hj as (v & Hv & ->).
    apply list_lookup_insert_Some in Hv as [(_ & <- & _)|[Hne Hv]]; [done|].
    destruct v; try done. by rewrite (Hu _ Hv), (Hu _ H) in Hne.
Qed.

Lemma linv_reach n s : rtc lstep (mklsys initsleeplock (repeat Outside n)) s -> linv s.
Proof.
  assert (H0 : linv (mklsys initsleeplock (repeat Outside n))).
  { left. split; [done|]. intros i w Hw. by apply repeat_lookup_Some in Hw as [-> _]. }
  intros H. induction H; eauto using linv_step.
Qed.

(** C33: In every interleaving of processes that take and release a sleep lock, are
    killed and wake up, at most one holds it, [holdingsleep] answers true to
    exactly that one, and while the lock is free nobody sleeps on it, so no wakeup
    is lost. *)
Theorem sleeplock_exclusive n s : rtc lstep (mklsys initsleeplock (repeat Outside n)) s ->
  (forall i j, users s !! i = Some Holding -> users s !! j = Some Holding -> i = j) /\
  (forall i w, users s !! i = Some w ->
     (holdingsleep (pid_of i) (lk s) = Ret true (lk s) <-> w = Holding)) /\
  (sl_locked (lk s) = 0 -> forall i, users s !! i <> Some Asleep).
Proof.
  intros [[Hl Hn]|(h & Hl & Hh & Hu)]%linv_reach; (split; [|split]).
  - intros i j Hi. by destruct (Hn _ _ Hi).
  - intros i w Hi. unfold holdingsleep. run. rewrite Hl. cbn. split; [done|].
    intros ->. by destruct (Hn _ _ Hi).
  - intros _ i Hi. by destruct (Hn _ _ Hi).
  - intros i j Hi Hj. by rewrite (Hu _ Hi), (Hu _ Hj).
  - intros i w Hi. unfold holdingsleep. run. rewrite Hl. cbn. split.
    + intros [= E%Z.eqb_eq]. unfold pid_of in E. assert (i = h) as -> by lia. congruence.
    + intros ->. rewrite (Hu _ Hi), Z.eqb_refl. done.
  - by rewrite Hl.
Qed.

(** The first process holds the lock and the second sleeps on it. *)
Lemma sleeplock_exclusive_witness :
  let s := mklsys (mksleeplock 1 1) [Holding; Asleep] in
  (forall i j, users s !! i = Some Holding -> users s !! j = Some Holding -> i = j) /\
  (forall i w, users s !! i = Some w ->
     (holdingsleep (pid_of i) (lk s) = Ret true (lk s) <-> w = Holding)) /\
  (sl_locked (lk s) = 0 -> forall i, users s !! i <> Some Asleep).
Proof.
  apply (sleeplock_exclusive 2). cbn.
  eapply rtc_l; [by apply (ls_start _ _ 0)|].
  eapply rtc_l; [by eapply (ls_take _ _ 0)|].
  eapply rtc_l; [by apply (ls_start _ _ 1)|].
  eapply rtc_l; [by eapply (ls_sleep _ _ 1)|]. done.
Defined.
