(* ===== verification/Kalloc.v ===== *)
(** * The physical page allocator ([kalloc.c])

    Free pages form a list that is threaded through the pages themselves:
    [kmem.freelist] points to a page whose first word points to the next one.
    The memory is [ram] of the machine that runs the code, and the lock is taken
    when [use_lock] says so. *)
From S2P Require Import Prelude Str Spinlock.

Definition PGSIZE : Z := 4096.
Definition PHYSTOP : Z := 234881024.

Definition V2P (a : Z) : Z := u32 (a - KERNBASE).
Definition P2V (a : Z) : Z := u32 (a + KERNBASE).
Definition PGROUNDUP (sz : Z) : Z := Z.land (u32 (sz + PGSIZE - 1)) (Z.lnot (PGSIZE - 1)).
Definition PGROUNDDOWN (a : Z) : Z := Z.land a (Z.lnot (PGSIZE - 1)).

Record kmem := mkkmem {
  mach : machine;
  klock : spinlock;
  use_lock : Z;
  freelist : Z;
}.

Definition set_klock (p : lockst) (s : kmem) : kmem :=
  mkkmem (fst p) (snd p) (use_lock s) (freelist s).
Definition set_use_lock (v : Z) (s : kmem) : kmem :=
  mkkmem (mach s) (klock s) v (freelist s).
Definition set_freelist (v : Z) (s : kmem) : kmem :=
  mkkmem (mach s) (klock s) (use_lock s) v.
Definition kram (s : kmem) : mem := ram (mach s).
Definition set_kram (r : mem) (s : kmem) : kmem :=
  mkkmem (mkmachine (lapic_id (mach s)) (eflags (mach s)) (cpus (mach s)) r)
         (klock s) (use_lock s) (freelist s).

Section Allocator.

(** [kend]: the linker's [end] symbol; [argp]: where the callers keep the lock
    argument on their stack. *)
Context (kend argp : Z).

Definition lock_kmem : M kmem unit :=
  let! u := gets use_lock in
  when (nz u) (zoom (fun s => (mach s, klock s)) set_klock (acquire argp)).

Definition unlock_kmem : M kmem unit :=
  let! u := gets use_lock in
  when (nz u) (zoom (fun s => (mach s, klock s)) set_klock release).

Definition bad_page (v : Z) : bool :=
  nz (v mod PGSIZE) || (v <? kend) || (PHYSTOP <=? V2P v).

Definition kfree (v : Z) : M kmem unit :=
  if bad_page v then panic "kfree" else
  modify (fun s => set_kram (memset (kram s) v 1 PGSIZE) s) ;;
  lock_kmem ;;
  modify (fun s => set_kram (store32 (kram s) v (freelist s)) s) ;;
  modify (set_freelist v) ;;
  unlock_kmem.

Definition kalloc : M kmem Z :=
  lock_kmem ;;
  let! r := gets freelist in
  when (nz r) (modify (fun s => set_freelist (load32 (kram s) r) s)) ;;
  unlock_kmem ;;
  ret r.

(** The loop of [freerange], with one unit of fuel per page. *)
Fixpoint freerange_loop (fuel : nat) (p vend : Z) : M kmem unit :=
  if p + PGSIZE <=? vend then
    match fuel with
    | O => fault "fuel"
    | S k => kfree p ;; freerange_loop k (p + PGSIZE) vend
    end
  else ret tt.

Definition freerange (vstart vend : Z) : M kmem unit :=
  let p := PGROUNDUP vstart in
  freerange_loop (Z.to_nat (vend / PGSIZE)) p vend.

Definition kinit1 (vstart vend : Z) : M kmem unit :=
  modify (fun s => set_klock (mach s, initlock) s) ;;
  modify (set_use_lock 0) ;;
  freerange vstart vend.

Definition kinit2 (vstart vend : Z) : M kmem unit :=
  freerange vstart vend ;;
  modify (set_use_lock 1).

(** ** Invariant *)

(** [p] heads the list of pages [l] in memory [m]. *)
Fixpoint chain (m : mem) (p : Z) (l : list Z) : Prop :=
  match l with
  | [] => p = 0
  | a :: r => p = a /\ chain m (load32 m a) r
  end.

(** A page that [kfree] accepts. *)
Definition page_ok (v : Z) : Prop := 0 < v < 4294967296 /\ bad_page v = false.

Definition kinv (s : kmem) (l : list Z) : Prop :=
  chain (kram s) (freelist s) l /\ NoDup l /\ Forall page_ok l.

(** Between calls: the lock is free, and CPU [i] is at depth [d] of a nesting
    entered with flags [f0]. *)
Definition idle (f0 : Z) (i : nat) (d : Z) (s : kmem) : Prop :=
  nested f0 (kram s) i d (mach s) /\ locked (klock s) = 0 /\
  d + 2 < 2147483648.

(** Inside: the same, with the lock held when it is in use. *)
Definition inside (f0 : Z) (i : nat) (d : Z) (s : kmem) : Prop :=
  nested f0 (kram s) i (if nz (use_lock s) then d + 1 else d) (mach s) /\
  (if nz (use_lock s) then held_by (klock s) i = true else locked (klock s) = 0) /\
  0 <= d /\ d + 2 < 2147483648.

Lemma nested_ram f0 r i d m r' :
  nested f0 r i d m ->
  nested f0 r' i d (mkmachine (lapic_id m) (eflags m) (cpus m) r').
Proof. intros (_ & H). by split. Qed.

Lemma idle_kram f0 i d s r : idle f0 i d s -> idle f0 i d (set_kram r s).
Proof. intros [H ?]. split; [by eapply nested_ram|done]. Qed.

Lemma inside_kram f0 i d s r : inside f0 i d s -> inside f0 i d (set_kram r s).
Proof. intros [H ?]. split; [by eapply nested_ram|done]. Qed.

Lemma lock_run f0 i d s :
  idle f0 i d s ->
  exists s', lock_kmem s = Ret tt s' /\ inside f0 i d s' /\ kram s' = kram s /\
    freelist s' = freelist s /\ use_lock s' = use_lock s.
Proof.
  intros (Hn & Hl & Hd). unfold lock_kmem, gets, bind.
  assert (0 <= d) by (by destruct Hn as (_ & ? & _ & _ & ? & _); lia).
  destruct (nz (use_lock s)) eqn:Eu; cbn [when].
  - pose proof (acquire_run f0 argp _ i d (mach s) (klock s) Hn Hd) as Ha.
    unfold held_by in Ha. rewrite Hl in Ha. cbn in Ha.
    destruct Ha as (m' & Hn' & _ & Ha).
    eexists. split; [exact (zoom_ret (fun s => (mach s, klock s)) set_klock _ s _ _ Ha)|].
    unfold inside, set_klock, kram. cbn. rewrite Eu.
    pose proof (proj1 Hn') as Er. rewrite Er. unfold held_by; cbn.
    rewrite bool_decide_eq_true_2 by done. done.
  - exists s. unfold inside. rewrite Eu. done.
Qed.

Lemma unlock_run f0 i d s :
  inside f0 i d s ->
  exists s', unlock_kmem s = Ret tt s' /\ idle f0 i d s' /\ kram s' = kram s /\
    freelist s' = freelist s /\ use_lock s' = use_lock s.
Proof.
  intros (Hn & Hl & H0 & Hd). unfold unlock_kmem, gets, bind.
  destruct (nz (use_lock s)) eqn:Eu; cbn [when].
  - pose proof (release_run f0 _ i (d + 1) (mach s) (klock s) Hn
                  ltac:(lia) ltac:(lia)) as Hr.
    rewrite Hl in Hr. destruct Hr as (m' & Hn' & Hr).
    replace (d + 1 - 1) with d in Hn' by lia.
    eexists. split; [exact (zoom_ret (fun s => (mach s, klock s)) set_klock _ s _ _ Hr)|].
    unfold idle, set_klock, kram. cbn.
    pose proof (proj1 Hn') as Er. by rewrite Er.
  - by exists s.
Qed.

(** ** The list threaded through the pages *)

Lemma chain_ext m m' p l :
  (forall a k, a ∈ l -> 0 <= k < 4 -> m' (a + k) = m (a + k)) ->
  chain m p l -> chain m' p l.
Proof.
  revert p. induction l as [|a l IH]; intros p He; [done|]. cbn.
  intros [-> Hc]. split; [done|].
  rewrite (load32_ext m m' a) by (intros; apply He; [set_solver|done]).
  apply IH; [|done]. intros; apply He; [set_solver|done].
Qed.

Lemma page_ok_bounds v :
  page_ok v -> v mod PGSIZE = 0 /\ KERNBASE <= v < KERNBASE + PHYSTOP.
Proof.
  intros [Hr Hb]. unfold bad_page, nz, V2P, u32, PGSIZE, PHYSTOP, KERNBASE in *.
  rewrite !orb_false_iff, negb_false_iff, Z.eqb_eq, Z.leb_gt in Hb.
  destruct Hb as [[? _] Hb].
  split; [done|]. Z.to_euclidean_division_equations; lia.
Qed.

(** Two pages are the same or have no byte in common. *)
Lemma page_disjoint a b j k :
  page_ok a -> page_ok b -> 0 <= j < PGSIZE -> 0 <= k < PGSIZE ->
  a + j = b + k -> a = b.
Proof.
  intros [Ha _]%page_ok_bounds [Hb _]%page_ok_bounds. unfold PGSIZE in *. intros.
  Z.to_euclidean_division_equations; lia.
Qed.

Lemma within_page a k v :
  page_ok a -> page_ok v -> a <> v -> 0 <= k < 4 -> within (a + k) v PGSIZE = false.
Proof.
  intros Ha Hv Hne Hk. apply not_true_is_false. unfold within. b2p. intros Hw.
  apply Hne, (page_disjoint a v k (a + k - v)); unfold PGSIZE in *; (done || lia).
Qed.

Lemma chain_link m v p l :
  page_ok v -> Forall page_ok l -> v ∉ l -> 0 <= p < 4294967296 ->
  chain m p l -> chain (store32 (memset m v 1 PGSIZE) v p) v (v :: l).
Proof.
  intros Hv Hl Hni Hp Hc. cbn. split; [done|]. rewrite load32_store32 by done.
  eapply chain_ext; [|done]. intros a k Ha Hk.
  assert (page_ok a) as Hpa by (rewrite Forall_forall in Hl; by apply Hl).
  assert (a <> v) by set_solver.
  pose proof (within_page a k v Hpa Hv ltac:(done) Hk) as Hw.
  rewrite store32_other, memset_at, Hw; [done|done|].
  revert Hw. unfold within, PGSIZE. b2p. lia.
Qed.

Lemma chain_head m p l :
  chain m p l -> Forall page_ok l -> 0 <= p < 4294967296.
Proof.
  destruct l as [|a l]; cbn; [lia|]. intros [-> _] H. inversion H as [|? ? [? _]].
  lia.
Qed.

Lemma kfree_run f0 i d s l v :
  kinv s l -> idle f0 i d s -> page_ok v -> v ∉ l ->
  exists s', kfree v s = Ret tt s' /\ kinv s' (v :: l) /\ idle f0 i d s' /\
    use_lock s' = use_lock s /\
    kram s' = store32 (memset (kram s) v 1 PGSIZE) v (freelist s).
Proof.
  intros (Hc & Hnd & Hok) Hi Hv Hni. unfold kfree.
  rewrite (proj2 Hv). unfold bind at 1, modify at 1.
  destruct (lock_run f0 i d _ (idle_kram _ _ _ _ (memset (kram s) v 1 PGSIZE) Hi))
    as (s1 & E1 & Hi1 & Hr1 & Hf1 & Hu1).
  rewrite (bind_ret _ _ _ _ _ E1). cbn in Hf1, Hu1.
  unfold bind at 1, modify at 1. unfold bind at 1, modify at 1.
  set (s2 := set_freelist v _).
  assert (inside f0 i d s2) as Hi2.
  { apply (inside_kram _ _ _ _ (store32 (kram s1) v (freelist s1))) in Hi1. done. }
  destruct (unlock_run f0 i d s2 Hi2) as (s3 & E3 & Hi3 & Hr3 & Hf3 & Hu3).
  assert (kram s3 = store32 (memset (kram s) v 1 PGSIZE) v (freelist s)) as Hr.
  { rewrite Hr3. cbn. by rewrite Hr1, Hf1. }
  exists s3. split_and!; [done| |done| |done].
  - split_and!; [|by constructor|by constructor].
    rewrite Hr, Hf3. apply chain_link; [done..| |done]. by eapply chain_head.
  - rewrite Hu3. cbn. by rewrite Hu1.
Qed.

Lemma kalloc_run f0 i d s l :
  kinv s l -> idle f0 i d s ->
  exists s', kalloc s = Ret (default 0 (head l)) s' /\ kinv s' (tail l) /\
    idle f0 i d s' /\ use_lock s' = use_lock s /\ kram s' = kram s.
Proof.
  intros (Hc & Hnd & Hok) Hi. unfold kalloc.
  destruct (lock_run f0 i d s Hi) as (s1 & E1 & Hi1 & Hr1 & Hf1 & Hu1).
  rewrite (bind_ret _ _ _ _ _ E1). unfold bind at 1, gets at 1.
  destruct l as [|a l].
  - cbn in Hc. rewrite Hf1, Hc. unfold bind at 1, when, nz at 1. cbn [negb Z.eqb ret].
    destruct (unlock_run f0 i d s1 Hi1) as (s3 & E3 & Hi3 & Hr3 & Hf3 & Hu3).
    rewrite (bind_ret _ _ _ _ _ E3). exists s3. cbn.
    split_and!; [done| |done|congruence|congruence].
    split_and!; [|done..]. cbn. congruence.
  - destruct Hc as [Hh Hc]. rewrite Hf1, Hh. inversion_clear Hnd. inversion_clear Hok as [|? ? Ha Hok'].
    assert (nz a = true) as -> by (unfold nz; b2p; destruct Ha; lia).
    unfold bind at 1, when, modify.
    destruct (unlock_run f0 i d (set_freelist (load32 (kram s1) a) s1) Hi1)
      as (s3 & E3 & Hi3 & Hr3 & Hf3 & Hu3).
    rewrite (bind_ret _ _ _ _ _ E3). exists s3. cbn in *.
    split_and!; [done| |done|congruence|by rewrite Hr3].
    split_and!; [|done..]. rewrite Hf3, Hr3. unfold kram at 1. cbn.
    change (ram (mach s1)) with (kram s1). by rewrite Hr1.
Qed.

(** ** freerange *)

(** [n] consecutive pages starting at [p]. *)
Definition pages (p : Z) (n : nat) : list Z := (fun k => p + PGSIZE * k) <$> seqZ 0 (Z.of_nat n).

Lemma pages_S p n : pages p (S n) = p :: pages (p + PGSIZE) n.
Proof.
  unfold pages. rewrite seqZ_cons by lia. rewrite fmap_cons. f_equal; [lia|].
  replace (Z.pred (Z.of_nat (S n))) with (Z.of_nat n) by lia.
  change (Z.succ 0) with (1 + 0).
  rewrite <- fmap_add_seqZ, <- list_fmap_compose.
  apply list_fmap_ext. intros _ x _. cbn. unfold PGSIZE. lia.
Qed.

Lemma elem_of_pages p n a :
  a ∈ pages p n <-> exists k, a = p + PGSIZE * k /\ 0 <= k < Z.of_nat n.
Proof.
  unfold pages. rewrite list_elem_of_fmap. setoid_rewrite elem_of_seqZ.
  naive_solver lia.
Qed.

Lemma NoDup_pages p n : NoDup (pages p n).
Proof.
  apply (NoDup_fmap_2_strong _); [|apply NoDup_seqZ].
  intros x y _ _. unfold PGSIZE. lia.
Qed.

Lemma freerange_loop_run f0 i d n fuel p vend s l :
  kinv s l -> idle f0 i d s -> (n <= fuel)%nat ->
  p + PGSIZE * Z.of_nat n <= vend < p + PGSIZE * (Z.of_nat n + 1) ->
  Forall page_ok (pages p n) -> (forall a, a ∈ pages p n -> a ∉ l) ->
  exists s', freerange_loop fuel p vend s = Ret tt s' /\
    kinv s' (reverse (pages p n) ++ l) /\ idle f0 i d s' /\ use_lock s' = use_lock s.
Proof.
  revert fuel p s l. induction n as [|n IH]; intros fuel p s l Hk Hi Hf Hv Hok Hni.
  - exists s. cbn. unfold freerange_loop.
    destruct fuel; destruct (Z.leb_spec (p + PGSIZE) vend);
      (unfold PGSIZE in *; lia) || done.
  - destruct fuel as [|fuel]; [lia|]. cbn [freerange_loop].
    destruct (Z.leb_spec (p + PGSIZE) vend); [|unfold PGSIZE in *; lia].
    rewrite pages_S in *. inversion_clear Hok as [|? ? Hp Hok'].
    pose proof (NoDup_pages p (S n)) as Hnd. rewrite pages_S in Hnd.
    inversion_clear Hnd as [|? ? Hpn _].
    destruct (kfree_run f0 i d s l p Hk Hi Hp ltac:(apply Hni; set_solver))
      as (s1 & E1 & Hk1 & Hi1 & Hu1 & _).
    rewrite (bind_ret _ _ _ _ _ E1).
    destruct (IH fuel (p + PGSIZE) s1 (p :: l) Hk1 Hi1 ltac:(lia)
                ltac:(unfold PGSIZE in *; lia) Hok' ltac:(set_solver))
      as (s2 & E2 & Hk2 & Hi2 & Hu2).
    exists s2. rewrite reverse_cons, <- (assoc_L (++)). cbn.
    split_and!; [done..|congruence].
Qed.

Lemma PGROUNDUP_eq x :
  0 <= x -> x + 4095 < 4294967296 -> PGROUNDUP x = (x + 4095) / 4096 * 4096.
Proof.
  intros. unfold PGROUNDUP, PGSIZE. rewrite u32_small by lia.
  change (4096 - 1) with (2 ^ 12 - 1). rewrite land_high_mask by lia.
  change (2 ^ 12) with 4096. Z.to_euclidean_division_equations; lia.
Qed.

(** The pages that lie wholly between two addresses. *)
Definition whole_pages (vstart vend : Z) : list Z :=
  pages (PGROUNDUP vstart) (Z.to_nat ((vend - PGROUNDUP vstart) / PGSIZE)).

(** Addresses from which the kernel may free pages. *)
Definition range_ok (vstart vend : Z) : Prop :=
  kend <= vstart /\ KERNBASE <= vstart /\ vstart <= vend /\ vend <= KERNBASE + PHYSTOP.

Lemma whole_pages_elem vstart vend a :
  range_ok vstart vend ->
  a ∈ whole_pages vstart vend <->
  a mod PGSIZE = 0 /\ vstart <= a /\ a + PGSIZE <= vend.
Proof.
  intros (_ & ? & ? & ?). unfold whole_pages. rewrite elem_of_pages.
  unfold KERNBASE, PHYSTOP, PGSIZE in *. rewrite PGROUNDUP_eq by lia.
  split.
  - intros (k & -> & Hk). Z.to_euclidean_division_equations; lia.
  - intros (Hm & Hs & He). exists ((a - (vstart + 4095) / 4096 * 4096) / 4096).
    Z.to_euclidean_division_equations; lia.
Qed.

Lemma whole_pages_ok vstart vend :
  range_ok vstart vend -> Forall page_ok (whole_pages vstart vend).
Proof.
  intros Hr. apply Forall_forall. intros a Ha.
  apply whole_pages_elem in Ha as (Hm & Hs & He); [|done].
  destruct Hr as (H1 & H2 & H3 & H4). unfold KERNBASE, PHYSTOP, PGSIZE in *.
  split; [lia|]. unfold bad_page, nz, V2P, PGSIZE, KERNBASE, PHYSTOP.
  rewrite u32_small by lia. rewrite Hm. cbn. b2p. lia.
Qed.

Lemma freerange_run f0 i d vstart vend s l :
  kinv s l -> idle f0 i d s -> range_ok vstart vend ->
  (forall a, a ∈ l -> ~ vstart <= a < vend) ->
  exists s', freerange vstart vend s = Ret tt s' /\
    kinv s' (reverse (whole_pages vstart vend) ++ l) /\ idle f0 i d s' /\
    use_lock s' = use_lock s.
Proof.
  intros Hk Hi Hr Hni.
  pose proof (whole_pages_ok _ _ Hr) as Hok.
  assert (forall a, a ∈ whole_pages vstart vend -> a ∉ l) as Hd.
  { intros a (_ & ? & ?)%whole_pages_elem Ha; [|done].
    apply (Hni a Ha). unfold PGSIZE in *; lia. }
  destruct Hr as (H1 & H2 & H3 & H4). unfold KERNBASE, PHYSTOP in *.
  unfold freerange.
  destruct (Z.le_gt_cases (PGROUNDUP vstart) vend) as [Hle|Hgt].
  - apply freerange_loop_run; try done;
      unfold PGSIZE in *; rewrite PGROUNDUP_eq in * by lia;
      Z.to_euclidean_division_equations; lia.
  - exists s. unfold whole_pages.
    replace (Z.to_nat ((vend - PGROUNDUP vstart) / PGSIZE)) with 0%nat
      by (unfold PGSIZE; Z.to_euclidean_division_equations; lia).
    destruct (Z.to_nat (vend / PGSIZE)); cbn [freerange_loop];
      (destruct (Z.leb_spec (PGROUNDUP vstart + PGSIZE) vend);
       [unfold PGSIZE in *; lia|done]).
Qed.

(** ** Clients

    A client that asks for pages and frees only pages it owns. *)

Inductive request := Alloc | Free (v : Z).

Fixpoint client (reqs : list request) (owned : list Z) : M kmem (list Z) :=
  match reqs with
  | [] => ret owned
  | Alloc :: r =>
      let! a := kalloc in
      client r (if nz a then a :: owned else owned)
  | Free v :: r =>
      if decide (v ∈ owned) then kfree v ;; client r (filter (fun a => a <> v) owned)
      else client r owned
  end.

Lemma client_run f0 i d reqs owned s l :
  kinv s l -> idle f0 i d s -> Forall page_ok owned -> NoDup (owned ++ l) ->
  exists owned' s' l', client reqs owned s = Ret owned' s' /\ kinv s' l' /\
    idle f0 i d s' /\ owned' ++ l' ≡ₚ owned ++ l.
Proof.
  revert owned s l. induction reqs as [|[|v] reqs IH]; intros owned s l Hk Hi Ho Hnd.
  - exists owned, s, l. done.
  - destruct (kalloc_run f0 i d s l Hk Hi) as (s1 & E1 & Hk1 & Hi1 & _).
    cbn [client]. rewrite (bind_ret _ _ _ _ _ E1).
    destruct l as [|a l]; cbn in *.
    { by apply IH. }
    destruct Hk as (_ & _ & Hok). inversion_clear Hok as [|? ? Ha _].
    assert (nz a = true) as -> by (unfold nz; b2p; destruct Ha; lia).
    destruct (IH (a :: owned) s1 l Hk1 Hi1) as (o' & s' & l' & E & ? & ? & Hp).
    { by constructor. }
    { by rewrite <- Permutation_middle in Hnd. }
    exists o', s', l'. split_and!; [done..|]. rewrite Hp. apply Permutation_middle.
  - cbn [client]. case_decide as Hv; [|by apply IH].
    assert (page_ok v) as Hpv by (rewrite Forall_forall in Ho; by apply Ho).
    assert (NoDup owned) as Hno by (by apply NoDup_app in Hnd as (? & _)).
    assert (v ∉ l) as Hvl by (apply NoDup_app in Hnd as (_ & H & _); by apply H).
    destruct (kfree_run f0 i d s l v Hk Hi Hpv Hvl) as (s1 & E1 & Hk1 & Hi1 & _).
    rewrite (bind_ret _ _ _ _ _ E1).
    pose proof (filter_out_perm v owned Hno Hv) as Hp.
    assert (filter (fun a => a <> v) owned ++ v :: l ≡ₚ owned ++ l) as Hpm
      by (rewrite <- Permutation_middle, app_comm_cons; by rewrite Hp).
    destruct (IH (filter (fun a => a <> v) owned) s1 (v :: l) Hk1 Hi1)
      as (o' & s' & l' & E & ? & ? & Hp').
    { rewrite Forall_forall in Ho |- *. intros x [_ Hx]%list_elem_of_filter. by apply Ho. }
    { by rewrite Hpm. }
    exists o', s', l'. split_and!; [done..|]. by rewrite Hp'.
Qed.

End Allocator.

Opaque whole_pages.

(** ** Properties *)

(** [kfree] of a page that is not free puts it at the head of the free
    list, fills the rest of the page with junk, leaves all other memory alone,
    and returns with the lock and the interrupt nesting as they were. *)
Theorem kfree_spec (kend argp f0 : Z) (i : nat) (d : Z) (s : kmem) (l : list Z) (v : Z)
    (Hk : kinv kend s l) (Hi : idle f0 i d s) (Hv : page_ok kend v) (Hn : v ∉ l) :
  exists s', kfree kend argp v s = Ret tt s' /\ kinv kend s' (v :: l) /\
    idle f0 i d s' /\
    forall x, within x v 4 = false ->
      kram s' x = if within x v PGSIZE then 1 else kram s x.
Proof.
  destruct (kfree_run kend argp f0 i d s l v Hk Hi Hv Hn)
    as (s' & E & Hk' & Hi' & _ & Hr).
  exists s'. split_and!; [done..|]. intros x Hx.
  by rewrite Hr, store32_other, memset_at.
Qed.

(** [kfree] panics, changing nothing, for an address that is not
    page-aligned, below the end of the kernel or not in physical memory. *)
Theorem kfree_bad (kend argp v : Z) (s : kmem) (Hb : bad_page kend v = true) :
  kfree kend argp v s = Stop (Panic "kfree").
Proof. unfold kfree. by rewrite Hb. Qed.

(** [kalloc] returns the first free page and removes it from the free list,
    or 0 if there is none; memory, lock and interrupt nesting are unchanged. *)
Theorem kalloc_spec (kend argp f0 : Z) (i : nat) (d : Z) (s : kmem) (l : list Z)
    (Hk : kinv kend s l) (Hi : idle f0 i d s) :
  exists s', kalloc argp s = Ret (default 0 (head l)) s' /\ kinv kend s' (tail l) /\
    idle f0 i d s' /\ kram s' = kram s.
Proof.
  destruct (kalloc_run kend argp f0 i d s l Hk Hi) as (s' & ? & ? & ? & _ & ?). eauto.
Qed.

(** after [kinit1(end, P2V(4M))] and [kinit2(P2V(4M), P2V(PHYSTOP))] of
    [main], the free list holds every whole page between the end of the kernel
    and the end of physical memory exactly once, and the lock is in use and
    free. *)
Theorem boot_free_pages (kend argp f0 : Z) (i : nat) (d : Z) (s : kmem)
    (He : KERNBASE <= kend <= KERNBASE + 4194304)
    (Hf : freelist s = 0) (Hn : nested f0 (kram s) i d (mach s))
    (Hd : d + 2 < 2147483648) :
  exists s' l,
    (kinit1 kend argp kend (P2V 4194304) ;;
     kinit2 kend argp (P2V 4194304) (P2V PHYSTOP)) s = Ret tt s' /\
    kinv kend s' l /\ idle f0 i d s' /\ use_lock s' = 1 /\
    forall a, a ∈ l <->
      a mod PGSIZE = 0 /\ kend <= a /\ a + PGSIZE <= KERNBASE + PHYSTOP.
Proof.
  set (s0 := set_use_lock 0 (set_klock (mach s, initlock) s)).
  assert (kinv kend s0 []) as Hk0 by (split_and!; [done|constructor|done]).
  assert (idle f0 i d s0) as Hi0 by done.
  change (P2V 4194304) with (KERNBASE + 4194304).
  change (P2V PHYSTOP) with (KERNBASE + PHYSTOP).
  assert (range_ok kend kend (KERNBASE + 4194304)) as R1
    by (unfold range_ok, KERNBASE, PHYSTOP in *; lia).
  assert (range_ok kend (KERNBASE + 4194304) (KERNBASE + PHYSTOP)) as R2
    by (unfold range_ok, KERNBASE, PHYSTOP in *; lia).
  destruct (freerange_run kend argp f0 i d kend _ s0 [] Hk0 Hi0 R1 ltac:(set_solver))
    as (s1 & E1 & Hk1 & Hi1 & Hu1). rewrite app_nil_r in Hk1.
  destruct (freerange_run kend argp f0 i d _ _ s1 _ Hk1 Hi1 R2)
    as (s2 & E2 & Hk2 & Hi2 & Hu2).
  { intros a Ha. rewrite elem_of_reverse, (whole_pages_elem kend _ _ a R1) in Ha.
    unfold KERNBASE, PGSIZE in *. lia. }
  eexists (set_use_lock 1 s2), _. split_and!.
  - unfold kinit1. rewrite bind_assoc. unfold bind at 1, modify at 1.
    rewrite bind_assoc. unfold bind at 1, modify at 1. fold s0.
    rewrite (bind_ret _ _ _ _ _ E1). unfold kinit2.
    by rewrite (bind_ret _ _ _ _ _ E2).
  - exact Hk2.
  - exact Hi2.
  - done.
  - intros a. rewrite elem_of_app, !elem_of_reverse,
      (whole_pages_elem kend _ _ a R1), (whole_pages_elem kend _ _ a R2).
    clear -He. unfold KERNBASE, PHYSTOP, PGSIZE in *.
    Z.to_euclidean_division_equations; lia.
Qed.

(** The machine of the witnesses: CPU 1 runs, memory is zero. *)
Definition demo_kend : Z := KERNBASE + 1130000.
Definition demo_kmem (fl : Z) : kmem := mkkmem demo_machine initlock 1 fl.

Lemma demo_nested : nested 514 (fun _ => 0) 1 0 demo_machine.
Proof.
  split; [done|]. exists (mkcpu 4 0 0). split; [split; vm_compute; reflexivity|].
  split; [done|]. split; [lia|]. split; [done|intros; lia].
Qed.

Definition demo_page : Z := KERNBASE + 4194304.

Lemma demo_page_ok : page_ok demo_kend demo_page.
Proof. split; [unfold demo_page, KERNBASE; lia|vm_compute; reflexivity]. Qed.

(** C5: whatever sequence of [kalloc] and [kfree] calls a client makes, freeing
    only what it owns, every call returns and the pages owned and free
    afterwards are together a permutation of those before: no page is lost,
    handed out twice or made up. *)
Theorem no_double_allocation (kend argp f0 : Z) (i : nat) (d : Z)
    (reqs : list request) (owned : list Z) (s : kmem) (l : list Z)
    (Hk : kinv kend s l) (Hi : idle f0 i d s) (Ho : Forall (page_ok kend) owned)
    (Hnd : NoDup (owned ++ l)) :
  exists owned' s' l', client kend argp reqs owned s = Ret owned' s' /\
    kinv kend s' l' /\ idle f0 i d s' /\ owned' ++ l' ≡ₚ owned ++ l.
Proof. by apply client_run. Qed.

Lemma no_double_allocation_witness :
  exists owned' s' l',
    client demo_kend 0 [Alloc; Alloc; Free demo_page; Alloc] [] (demo_kmem demo_page)
      = Ret owned' s' /\
    kinv demo_kend s' l' /\ idle 514 1 0 s' /\ owned' ++ l' ≡ₚ [] ++ [demo_page].
Proof.
  apply (no_double_allocation demo_kend 0 514 1 0
           [Alloc; Alloc; Free demo_page; Alloc] [] (demo_kmem demo_page) [demo_page]).
  - split_and!; [split; reflexivity|repeat constructor; set_solver|].
    repeat constructor; apply demo_page_ok.
  - split_and!; [apply demo_nested|reflexivity|lia].
  - constructor.
  - repeat constructor; set_solver.
Defined.
