(* ===== verification/Vm.v ===== *)
(** * Page tables and address spaces ([vm.c], [mmu.h], [memlayout.h])

    Page directories and page tables are pages of kernel memory, so the code
    runs on the state of the page allocator: an entry is a 32-bit word of
    [kram], at the kernel's address of the page.  Nothing here is abstracted:
    [walkpgdir] reads the directory in memory and allocates and clears the
    missing table, as the source does.  The messages that [allocuvm] prints are
    left out. *)
From S2P Require Import Prelude Str Spinlock Kalloc.

Definition EXTMEM : Z := 1048576.
Definition DEVSPACE : Z := 4261412864.
Definition KERNLINK : Z := KERNBASE + EXTMEM.
Definition KSTACKSIZE : Z := 4096.
Definition NPDENTRIES : nat := 1024.

Definition PTE_P : Z := 1.
Definition PTE_W : Z := 2.
Definition PTE_U : Z := 4.

Definition PDX (va : Z) : Z := Z.land (Z.shiftr va 22) 1023.
Definition PTX (va : Z) : Z := Z.land (Z.shiftr va 12) 1023.
Definition PGADDR (d t o : Z) : Z :=
  u32 (Z.lor (Z.lor (Z.shiftl d 22) (Z.shiftl t 12)) o).
Definition PTE_ADDR (pte : Z) : Z := Z.land pte (Z.lnot 4095).
Definition PTE_FLAGS (pte : Z) : Z := Z.land pte 4095.

(** A word of kernel memory. *)
Definition loadw (a : Z) : M kmem Z := gets (fun s => load32 (kram s) a).
Definition storew (a v : Z) : M kmem unit :=
  modify (fun s => set_kram (store32 (kram s) a v) s).
Definition kmemset (dst c n : Z) : M kmem unit :=
  modify (fun s => set_kram (memset (kram s) dst c n) s).
Definition kmemmove (dst src n : Z) : M kmem unit :=
  modify (fun s => set_kram (memmove (kram s) dst src n) s).

Section Vm.

(** [kend] and [kdata]: the linker's symbols [end] and [data]. *)
Context (kend argp kdata : Z).

(** A page table entry's address, 0 for the null pointer. *)
Definition walkpgdir (pgdir va : Z) (alloc : bool) : M kmem Z :=
  let pde := pgdir + 4 * PDX va in
  let! e := loadw pde in
  if nz (Z.land e PTE_P) then ret (P2V (PTE_ADDR e) + 4 * PTX va)
  else if negb alloc then ret 0
  else
    let! pgtab := kalloc argp in
    if pgtab =? 0 then ret 0
    else
      kmemset pgtab 0 PGSIZE ;;
      storew pde (Z.lor (Z.lor (Z.lor (V2P pgtab) PTE_P) PTE_W) PTE_U) ;;
      ret (pgtab + 4 * PTX va).

(** The loop of [mappages]; there is one unit of fuel per page. *)
Fixpoint mappages_loop (fuel : nat) (pgdir a last pa perm : Z) : M kmem Z :=
  match fuel with
  | O => fault "fuel"
  | S k =>
      let! pte := walkpgdir pgdir a true in
      if pte =? 0 then ret (-1)
      else
        let! e := loadw pte in
        if nz (Z.land e PTE_P) then panic "remap"
        else
          storew pte (Z.lor (Z.lor pa perm) PTE_P) ;;
          if a =? last then ret 0
          else mappages_loop k pgdir (u32 (a + PGSIZE)) last (u32 (pa + PGSIZE)) perm
  end.

Definition mappages (pgdir va size pa perm : Z) : M kmem Z :=
  let a := PGROUNDDOWN va in
  let last := PGROUNDDOWN (u32 (va + size - 1)) in
  mappages_loop (Z.to_nat (u32 (last - a) / PGSIZE + 1)) pgdir a last pa perm.

(** The loop of [deallocuvm]: every turn moves up by a page or more. *)
Fixpoint deallocuvm_loop (fuel : nat) (pgdir a oldsz : Z) : M kmem unit :=
  if a <? oldsz then
    match fuel with
    | O => fault "fuel"
    | S k =>
        let! pte := walkpgdir pgdir a false in
        if pte =? 0 then
          let a := u32 (PGADDR (PDX a + 1) 0 0 - PGSIZE) in
          deallocuvm_loop k pgdir (u32 (a + PGSIZE)) oldsz
        else
          let! e := loadw pte in
          (if nz (Z.land e PTE_P) then
             let pa := PTE_ADDR e in
             if pa =? 0 then panic "kfree"
             else kfree kend argp (P2V pa) ;; storew pte 0
           else ret tt) ;;
          deallocuvm_loop k pgdir (u32 (a + PGSIZE)) oldsz
    end
  else ret tt.

Definition deallocuvm (pgdir oldsz newsz : Z) : M kmem Z :=
  if oldsz <=? newsz then ret oldsz
  else
    deallocuvm_loop (Z.to_nat (oldsz / PGSIZE + 1)) pgdir (PGROUNDUP newsz) oldsz ;;
    ret newsz.

(** The loop of [allocuvm]: false when it ran out of memory. *)
Fixpoint allocuvm_loop (fuel : nat) (pgdir a oldsz newsz : Z) : M kmem bool :=
  if a <? newsz then
    match fuel with
    | O => fault "fuel"
    | S k =>
        let! mem := kalloc argp in
        if mem =? 0 then
          deallocuvm pgdir newsz oldsz ;; ret false
        else
          kmemset mem 0 PGSIZE ;;
          let! r := mappages pgdir a PGSIZE (V2P mem) (Z.lor PTE_W PTE_U) in
          if r <? 0 then
            deallocuvm pgdir newsz oldsz ;; kfree kend argp mem ;; ret false
          else allocuvm_loop k pgdir (u32 (a + PGSIZE)) oldsz newsz
    end
  else ret true.

Definition allocuvm (pgdir oldsz newsz : Z) : M kmem Z :=
  if KERNBASE <=? newsz then ret 0
  else if newsz <? oldsz then ret oldsz
  else
    let! ok := allocuvm_loop (Z.to_nat (newsz / PGSIZE + 1)) pgdir (PGROUNDUP oldsz) oldsz newsz in
    ret (if ok : bool then newsz else 0).

Definition freevm (pgdir : Z) : M kmem unit :=
  if pgdir =? 0 then panic "freevm: no pgdir"
  else
    deallocuvm pgdir KERNBASE 0 ;;
    for_each (indices NPDENTRIES) (fun i =>
      let! e := loadw (pgdir + 4 * Z.of_nat i) in
      when (nz (Z.land e PTE_P)) (kfree kend argp (P2V (PTE_ADDR e)))) ;;
    kfree kend argp pgdir.

(** ** The kernel's half *)

Record kmap := mkkmap { virt : Z; phys_start : Z; phys_end : Z; kperm : Z }.

Definition kmaps : list kmap :=
  [ mkkmap KERNBASE 0 EXTMEM PTE_W;
    mkkmap KERNLINK (V2P KERNLINK) (V2P kdata) 0;
    mkkmap kdata (V2P kdata) PHYSTOP PTE_W;
    mkkmap DEVSPACE DEVSPACE 0 PTE_W ].

Definition setupkvm : M kmem Z :=
  let! pgdir := kalloc argp in
  if pgdir =? 0 then ret 0
  else
    kmemset pgdir 0 PGSIZE ;;
    (if DEVSPACE <? P2V PHYSTOP then panic "PHYSTOP too high" else ret tt) ;;
    let! r := for_find kmaps (fun k =>
      let! r := mappages pgdir (virt k) (u32 (phys_end k - phys_start k))
                  (phys_start k) (kperm k) in
      if r <? 0 then freevm pgdir ;; ret (Some 0) else ret None) in
    ret (default pgdir r).

(** ** The user's half *)

(** [init]: where the kernel image keeps the program.  [kalloc]'s null result
    is written through. *)
Definition inituvm (pgdir init sz : Z) : M kmem unit :=
  if PGSIZE <=? sz then panic "inituvm: more than a page"
  else
    let! mem := kalloc argp in
    if mem =? 0 then fault "null pointer"
    else
      kmemset mem 0 PGSIZE ;;
      mappages pgdir 0 PGSIZE (V2P mem) (Z.lor PTE_W PTE_U) ;;
      kmemmove mem init sz.

Definition clearpteu (pgdir uva : Z) : M kmem unit :=
  let! pte := walkpgdir pgdir uva false in
  if pte =? 0 then panic "clearpteu"
  else
    let! e := loadw pte in
    storew pte (Z.land e (Z.lnot PTE_U)).

(** The loop of [copyuvm]: false stands for [goto bad]. *)
Fixpoint copyuvm_loop (fuel : nat) (d pgdir i sz : Z) : M kmem bool :=
  if i <? sz then
    match fuel with
    | O => fault "fuel"
    | S k =>
        let! pte := walkpgdir pgdir i false in
        if pte =? 0 then panic "copyuvm: pte should exist"
        else
          let! e := loadw pte in
          if negb (nz (Z.land e PTE_P)) then panic "copyuvm: page not present"
          else
            let pa := PTE_ADDR e in
            let flags := PTE_FLAGS e in
            let! mem := kalloc argp in
            if mem =? 0 then ret false
            else
              kmemmove mem (P2V pa) PGSIZE ;;
              let! r := mappages d i PGSIZE (V2P mem) flags in
              if r <? 0 then kfree kend argp mem ;; ret false
              else copyuvm_loop k d pgdir (u32 (i + PGSIZE)) sz
    end
  else ret true.

Definition copyuvm (pgdir sz : Z) : M kmem Z :=
  let! d := setupkvm in
  if d =? 0 then ret 0
  else
    let! ok := copyuvm_loop (Z.to_nat (sz / PGSIZE + 1)) d pgdir 0 sz in
    if ok : bool then ret d else freevm d ;; ret 0.

(** [walkpgdir]'s null result is read through. *)
Definition uva2ka (pgdir uva : Z) : M kmem Z :=
  let! pte := walkpgdir pgdir uva false in
  if pte =? 0 then fault "null pointer"
  else
    let! e := loadw pte in
    if negb (nz (Z.land e PTE_P)) then ret 0
    else if negb (nz (Z.land e PTE_U)) then ret 0
    else ret (P2V (PTE_ADDR e)).

(** The loop of [copyout]: a turn copies up to the end of a page. *)
Fixpoint copyout_loop (fuel : nat) (pgdir va buf len : Z) : M kmem Z :=
  if 0 <? len then
    match fuel with
    | O => fault "fuel"
    | S k =>
        let va0 := PGROUNDDOWN va in
        let! pa0 := uva2ka pgdir va0 in
        if pa0 =? 0 then ret (-1)
        else
          let n := u32 (PGSIZE - (va - va0)) in
          let n := if len <? n then len else n in
          kmemmove (u32 (pa0 + (va - va0))) buf n ;;
          copyout_loop k pgdir (u32 (va0 + PGSIZE)) (u32 (buf + n)) (u32 (len - n))
    end
  else ret 0.

Definition copyout (pgdir va p len : Z) : M kmem Z :=
  copyout_loop (Z.to_nat (len / PGSIZE + 2)) pgdir va p len.

End Vm.

(** ** Segments and the page table register *)

Record segdesc := mksegdesc {
  lim_15_0 : Z; base_15_0 : Z; base_23_16 : Z; segtype : Z; seg_s : Z; seg_dpl : Z;
  seg_p : Z; lim_19_16 : Z; avl : Z; seg_rsv1 : Z; db : Z; seg_g : Z; base_31_24 : Z;
}.

Definition SEG (ty base lim dpl : Z) : segdesc :=
  mksegdesc (Z.land (Z.shiftr lim 12) 65535) (Z.land base 65535)
    (Z.land (Z.shiftr base 16) 255) ty 1 dpl 1
    (Z.shiftr lim 28) 0 0 1 1 (Z.shiftr base 24).

Definition SEG16 (ty base lim dpl : Z) : segdesc :=
  mksegdesc (Z.land lim 65535) (Z.land base 65535)
    (Z.land (Z.shiftr base 16) 255) ty 1 dpl 1
    (Z.shiftr lim 16) 0 0 1 0 (Z.shiftr base 24).

Definition set_seg_s (v : Z) (g : segdesc) : segdesc :=
  mksegdesc (lim_15_0 g) (base_15_0 g) (base_23_16 g) (segtype g) v (seg_dpl g)
    (seg_p g) (lim_19_16 g) (avl g) (seg_rsv1 g) (db g) (seg_g g) (base_31_24 g).

Definition STA_X : Z := 8.
Definition STA_W : Z := 2.
Definition STA_R : Z := 2.
Definition STS_T32A : Z := 9.
Definition DPL_USER : Z := 3.
Definition SEG_KCODE : nat := 1.
Definition SEG_KDATA : nat := 2.
Definition SEG_UCODE : nat := 3.
Definition SEG_UDATA : nat := 4.
Definition SEG_TSS : nat := 5.
Definition NSEGS : nat := 6.

(** What a CPU has besides [cpu]: its descriptor table, the fields of its task
    state that the kernel writes, and the registers that [lgdt], [ltr] and
    [lcr3] load. *)
Record hart := mkhart {
  gdt : list segdesc;
  esp0 : Z;
  ss0 : Z;
  iomb : Z;
  gdtr : Z;    (* the limit of the table in use *)
  task : Z;
  cr3 : Z;
}.

Record kvm := mkkvm {
  kmm : kmem;
  kpgdir : Z;
  harts : list hart;   (* one per entry of [cpus] *)
}.

Definition set_gdt (k : nat) (g : segdesc) (h : hart) : hart :=
  mkhart (<[k := g]> (gdt h)) (esp0 h) (ss0 h) (iomb h) (gdtr h) (task h) (cr3 h).
Definition set_esp0 (v : Z) (h : hart) : hart :=
  mkhart (gdt h) v (ss0 h) (iomb h) (gdtr h) (task h) (cr3 h).
Definition set_ss0 (v : Z) (h : hart) : hart :=
  mkhart (gdt h) (esp0 h) v (iomb h) (gdtr h) (task h) (cr3 h).
Definition set_iomb (v : Z) (h : hart) : hart :=
  mkhart (gdt h) (esp0 h) (ss0 h) v (gdtr h) (task h) (cr3 h).
Definition lgdt (size : Z) (h : hart) : hart :=
  mkhart (gdt h) (esp0 h) (ss0 h) (iomb h) (u16 (size - 1)) (task h) (cr3 h).
Definition ltr (sel : Z) (h : hart) : hart :=
  mkhart (gdt h) (esp0 h) (ss0 h) (iomb h) (gdtr h) sel (cr3 h).
Definition lcr3 (val : Z) (h : hart) : hart :=
  mkhart (gdt h) (esp0 h) (ss0 h) (iomb h) (gdtr h) (task h) val.

Definition set_kmm (k : kmem) (s : kvm) : kvm := mkkvm k (kpgdir s) (harts s).
Definition set_kpgdir (p : Z) (s : kvm) : kvm := mkkvm (kmm s) p (harts s).
Definition set_harts (h : list hart) (s : kvm) : kvm := mkkvm (kmm s) (kpgdir s) h.

Definition on_mach {A} (c : M machine A) : M kvm A :=
  zoom (fun s => mach (kmm s))
       (fun m s => set_kmm (set_klock (m, klock (kmm s)) (kmm s)) s) c.

(** An assignment through [mycpu()]. *)
Definition hart_set (f : hart -> hart) : M kvm unit :=
  let! i := on_mach mycpu in
  modify (fun s => set_harts (alter f i (harts s)) s).

(** An instruction acts on the CPU that runs it, interrupts enabled or not. *)
Definition on_hart (f : hart -> hart) : M kvm unit :=
  let! o := gets (fun s => find_cpu (mach (kmm s))) in
  match o with
  | Some i => modify (fun s => set_harts (alter f i (harts s)) s)
  | None => fault "no such CPU"
  end.

Section Switch.

(** [tsaddr i]: the address of [cpus[i].ts]. *)
Context (kend argp kdata : Z) (tsaddr : nat -> Z).

(** [c] is [&cpus[cpuid()]], looked up once. *)
Definition seginit : M kvm unit :=
  let! i := on_mach mycpu in
  let cset f := modify (fun s => set_harts (alter f i (harts s)) s) in
  cset (set_gdt SEG_KCODE (SEG (Z.lor STA_X STA_R) 0 4294967295 0)) ;;
  cset (set_gdt SEG_KDATA (SEG STA_W 0 4294967295 0)) ;;
  cset (set_gdt SEG_UCODE (SEG (Z.lor STA_X STA_R) 0 4294967295 DPL_USER)) ;;
  cset (set_gdt SEG_UDATA (SEG STA_W 0 4294967295 DPL_USER)) ;;
  on_hart (lgdt (8 * Z.of_nat NSEGS)).

Definition switchkvm : M kvm unit :=
  let! p := gets kpgdir in
  on_hart (lcr3 (V2P p)).

Definition kvmalloc : M kvm unit :=
  let! p := zoom kmm set_kmm (setupkvm kend argp kdata) in
  modify (set_kpgdir p) ;;
  switchkvm.

(** [p]: null, or the process's [kstack] and [pgdir].  104 is the size of
    [struct taskstate]. *)
Definition switchuvm (p : option (Z * Z)) : M kvm unit :=
  match p with
  | None => panic "switchuvm: no process"
  | Some (kstack, pgdir) =>
      if kstack =? 0 then panic "switchuvm: no kstack"
      else if pgdir =? 0 then panic "switchuvm: no pgdir"
      else
        on_mach pushcli ;;
        let! i := on_mach mycpu in
        hart_set (set_gdt SEG_TSS (SEG16 STS_T32A (tsaddr i) (104 - 1) 0)) ;;
        hart_set (fun h => match gdt h !! SEG_TSS with
                           | Some g => set_gdt SEG_TSS (set_seg_s 0 g) h
                           | None => h
                           end) ;;
        hart_set (set_ss0 (u16 (Z.shiftl (Z.of_nat SEG_KDATA) 3))) ;;
        hart_set (set_esp0 (u32 (kstack + KSTACKSIZE))) ;;
        hart_set (set_iomb 65535) ;;
        on_hart (ltr (Z.shiftl (Z.of_nat SEG_TSS) 3)) ;;
        on_hart (lcr3 (V2P pgdir)) ;;
        on_mach popcli
  end.

End Switch.
