(* ===== verification/VmTables.v ===== *)
(** * Page tables in memory

    What the words of a page directory and its tables mean, and what
    [walkpgdir] and [mappages] do to that meaning.  An address space is a
    function [E] from page numbers to page table entries; [T] tells which page
    of kernel memory holds the table of a directory slot.  The pages of the
    directory, of the tables, of everything else that is in use ([X]) and of
    the free list ([l]) are distinct, so a store into one of them is seen
    nowhere else. *)
From S2P Require Import Prelude Str Spinlock Kalloc Vm.

(** ** Address arithmetic *)

Lemma PDX_div va : 0 <= va < 4294967296 -> PDX va = va / 4096 / 1024.
Proof.
  intros. unfold PDX. rewrite Z.shiftr_div_pow2 by done.
  change 1023 with (2 ^ 10 - 1). rewrite land_low_mask by done.
  Z.to_euclidean_division_equations; lia.
Qed.

Lemma PTX_mod va : 0 <= va < 4294967296 -> PTX va = (va / 4096) mod 1024.
Proof.
  intros. unfold PTX. rewrite Z.shiftr_div_pow2 by done.
  change 1023 with (2 ^ 10 - 1). by rewrite land_low_mask.
Qed.

Lemma PGROUNDDOWN_div a : PGROUNDDOWN a = 4096 * (a / 4096).
Proof.
  unfold PGROUNDDOWN, PGSIZE. change (4096 - 1) with (2 ^ 12 - 1).
  rewrite land_high_mask by done. change (2 ^ 12) with 4096.
  pose proof (Z.div_mod a 4096). lia.
Qed.

Lemma PGROUNDUP_div a : 0 <= a <= 4294963200 -> PGROUNDUP a = 4096 * ((a + 4095) / 4096).
Proof.
  intros. unfold PGROUNDUP. change (Z.land ?x (Z.lnot (PGSIZE - 1))) with (PGROUNDDOWN x).
  rewrite PGROUNDDOWN_div, u32_small by (unfold PGSIZE; lia). do 2 f_equal. unfold PGSIZE. lia.
Qed.

Lemma PGADDR_dir k : 0 <= k < 1024 -> PGADDR k 0 0 = 4194304 * k.
Proof.
  intros. unfold PGADDR. rewrite Z.shiftl_0_l, !Z.lor_0_r, Z.shiftl_mul_pow2 by done.
  rewrite u32_small; lia.
Qed.

(** A frame's address and its flags do not overlap. *)
Lemma land_frame a f : a mod 4096 = 0 -> 0 <= f < 4096 -> Z.land a f = 0.
Proof.
  intros Ha Hf. apply Z.bits_inj'. intros k Hk.
  rewrite Z.land_spec, Z.bits_0. destruct (Z.lt_ge_cases k 12).
  - replace a with (a / 4096 * 2 ^ 12) by (Z.to_euclidean_division_equations; lia).
    by rewrite Z.mul_pow2_bits_low.
  - rewrite (Z.bits_above_log2 f), andb_false_r; [done|lia|].
    destruct (decide (f = 0)) as [->|]; [cbn; lia|].
    apply Z.lt_le_trans with 12; [|done]. apply Z.log2_lt_pow2; lia.
Qed.

Lemma lor_flags a f : a mod 4096 = 0 -> 0 <= f < 4096 -> Z.lor a f = a + f.
Proof. intros Ha Hf. rewrite <- Z.add_lor_land, land_frame by done. lia. Qed.

Lemma land_flags a f k :
  a mod 4096 = 0 -> 0 <= f < 4096 -> 0 <= k < 4096 -> Z.land (a + f) k = Z.land f k.
Proof.
  intros. rewrite <- lor_flags, Z.land_lor_distr_l, (land_frame a k) by done. done.
Qed.

Lemma PTE_ADDR_sum a f : a mod 4096 = 0 -> 0 <= f < 4096 -> PTE_ADDR (a + f) = a.
Proof.
  intros. unfold PTE_ADDR. change 4095 with (2 ^ 12 - 1). rewrite land_high_mask by done.
  Z.to_euclidean_division_equations; lia.
Qed.

Lemma PTE_FLAGS_sum a f : a mod 4096 = 0 -> 0 <= f < 4096 -> PTE_FLAGS (a + f) = f.
Proof.
  intros. unfold PTE_FLAGS. change 4095 with (2 ^ 12 - 1). rewrite land_low_mask by done.
  Z.to_euclidean_division_equations; lia.
Qed.

Lemma land_PTE_P a : Z.land a PTE_P = a mod 2.
Proof. exact (land_low_mask a 1 ltac:(done)). Qed.

(** Membership in lists and sets that are put together from the same parts. *)
Ltac sub_in H :=
  repeat (rewrite elem_of_app in H || rewrite elem_of_cons in H || rewrite elem_of_nil in H
          || rewrite elem_of_union in H).
Ltac sub_parts :=
  repeat (rewrite elem_of_app || rewrite elem_of_cons || rewrite elem_of_nil
          || rewrite elem_of_union);
  clear; intuition auto.
Ltac sub_plain :=
  lazymatch goal with
  | |- _ ⊆ _ => let x := fresh "x" in let H := fresh "H" in intros x H; sub_in H; revert H; sub_parts
  | |- _ ∈ _ => repeat match goal with S : _ ∈ _ |- _ => sub_in S; revert S end; sub_parts
  end.
Ltac sub_using :=
  let x := fresh "x" in let H := fresh "H" in intros x H; sub_in H;
  repeat match goal with
  | S : _ ⊆ _ |- _ => specialize (S x); sub_in S; revert S
  end;
  revert H; sub_parts.
Ltac sub := first [ solve [ sub_plain ] | solve [ sub_using ] | set_solver ].

(** Every comparison in the goal, with linear arithmetic. *)
Ltac split_tests :=
  repeat (match goal with
    | |- context [ ?a <=? ?b ] => destruct (Z.leb_spec a b)
    | |- context [ ?a <? ?b ] => destruct (Z.ltb_spec a b)
    end; cbn [andb]; try lia).

(** ** Frames: what a call leaves alone *)

Definition frame (P : list Z) (m m' : mem) : Prop :=
  forall x, (forall p, p ∈ P -> within x p PGSIZE = false) -> m' x = m x.

Lemma frame_refl P m : frame P m m.
Proof. by intros x. Qed.

Lemma frame_trans P m1 m2 m3 : frame P m1 m2 -> frame P m2 m3 -> frame P m1 m3.
Proof. intros H1 H2 x Hx. rewrite H2, H1; auto. Qed.

Lemma frame_mono P P' m m' : P ⊆ P' -> frame P m m' -> frame P' m m'.
Proof. intros Hs H x Hx. apply H. auto. Qed.

Lemma frame_store P m p k v :
  p ∈ P -> 0 <= k < 1024 -> frame P m (store32 m (p + 4 * k) v).
Proof.
  intros Hp Hk x Hx. specialize (Hx p Hp). apply store32_other.
  revert Hx. unfold within, PGSIZE. b2p. lia.
Qed.

Lemma frame_memset P m p c : p ∈ P -> frame P m (memset m p c PGSIZE).
Proof. intros Hp x Hx. rewrite memset_at by done. by rewrite (Hx p Hp). Qed.

Definition vals (T : gmap Z Z) : list Z := (map_to_list T).*2.

Lemma vals_insert T k v : T !! k = None -> vals (<[k := v]> T) ≡ₚ v :: vals T.
Proof. intros H. unfold vals. by rewrite map_to_list_insert. Qed.

Lemma elem_of_vals T v : v ∈ vals T <-> exists k, T !! k = Some v.
Proof.
  unfold vals. rewrite list_elem_of_fmap. setoid_rewrite elem_of_map_to_list'.
  split; [intros ([k ?] & -> & ?); eauto|intros [k ?]; by exists (k, v)].
Qed.

Lemma vals_inj T k j v : NoDup (vals T) -> T !! k = Some v -> T !! j = Some v -> k = j.
Proof.
  intros Hn Hk Hj. destruct (decide (k = j)) as [|Hne]; [done|].
  rewrite <- (insert_delete_id T k v Hk), vals_insert in Hn by apply lookup_delete_eq.
  inversion_clear Hn as [|? ? Hv _]. destruct Hv. apply elem_of_vals. exists j.
  by rewrite lookup_delete_ne.
Qed.

(** The entry of page number [n]: 0 when its table does not exist. *)
Definition entry (m : mem) (T : gmap Z Z) (n : Z) : Z :=
  match T !! (n / 1024) with
  | Some t => load32 m (t + 4 * (n mod 1024))
  | None => 0
  end.

Record tables (m : mem) (D : Z) (T : gmap Z Z) (E : Z -> Z) : Prop := mktables {
  tb_dir k : 0 <= k < 1024 ->
    load32 m (D + 4 * k) = match T !! k with Some t => V2P t + 7 | None => 0 end;
  tb_dom k t : T !! k = Some t -> 0 <= k < 1024;
  tb_entry n : 0 <= n < 1048576 -> entry m T n = E n;
}.

(** All the pages of an address space, [X] other ones and the free ones. *)
Definition owned (D : Z) (T : gmap Z Z) (X l : list Z) : list Z := D :: vals T ++ X ++ l.

Section Tables.

(** CPU [i] runs at depth [d] of a nesting entered with flags [f0]. *)
Context (kend argp f0 : Z) (i : nat) (d : Z).

Abbreviation page_ok := (page_ok kend).

Lemma page_phys p : page_ok p -> V2P p = p - KERNBASE /\ (p - KERNBASE) mod 4096 = 0 /\
  0 <= p - KERNBASE < PHYSTOP.
Proof.
  intros [Hm Hb]%page_ok_bounds. unfold V2P, PGSIZE, KERNBASE, PHYSTOP in *.
  rewrite u32_small by lia. split_and!; [done| |lia..].
  Z.to_euclidean_division_equations; lia.
Qed.

Lemma P2V_page p f : page_ok p -> 0 <= f < 4096 -> P2V (PTE_ADDR (V2P p + f)) = p.
Proof.
  intros Hp Hf. destruct (page_phys p Hp) as (-> & Hm & Hr).
  rewrite PTE_ADDR_sum by done. unfold P2V. rewrite u32_small; [lia|].
  unfold PHYSTOP, KERNBASE in *. lia.
Qed.

(** A word of one page is not a byte of another one. *)
Lemma frame_word P m m' q k :
  frame P m m' -> Forall page_ok P -> page_ok q -> q ∉ P -> 0 <= k < 1024 ->
  load32 m' (q + 4 * k) = load32 m (q + 4 * k).
Proof.
  intros Hf HP Hq Hn Hk. apply load32_ext. intros j Hj. apply Hf. intros p Hp.
  apply not_true_is_false. unfold within. b2p. intros Hw. destruct Hn.
  rewrite Forall_forall in HP.
  rewrite (page_disjoint kend q p (4 * k + j) (q + 4 * k + j - p));
    [done|done|by apply HP|unfold PGSIZE in *; lia..].
Qed.

Lemma frame_byte P m m' q k :
  frame P m m' -> Forall page_ok P -> page_ok q -> q ∉ P -> 0 <= k < PGSIZE ->
  m' (q + k) = m (q + k).
Proof.
  intros Hf HP Hq Hn Hk. apply Hf. intros p Hp. apply not_true_is_false. unfold within. b2p.
  intros Hw. destruct Hn. rewrite Forall_forall in HP.
  by rewrite (page_disjoint kend q p k (q + k - p)); [done|done|apply HP|lia..].
Qed.

Lemma load_entry p q k j m v :
  page_ok p -> page_ok q -> 0 <= k < 1024 -> 0 <= j < 1024 -> 0 <= v < 4294967296 ->
  load32 (store32 m (p + 4 * k) v) (q + 4 * j) =
  if (q =? p) && (j =? k) then v else load32 m (q + 4 * j).
Proof.
  intros Hp Hq Hk Hj Hv. btest (q =? p); subst; cbn [andb].
  - btest (j =? k); subst; [by apply load32_store32|].
    apply load32_ext. intros x Hx. apply store32_other. unfold within. b2p. lia.
  - eapply (frame_word [p]); [apply frame_store; [set_solver|done]|by apply Forall_singleton|done|set_solver|done].
Qed.

Lemma load_memset_zero m p k : 0 <= k < 1024 -> load32 (memset m p 0 PGSIZE) (p + 4 * k) = 0.
Proof.
  intros Hk. unfold load32. rewrite !memset_at by done.
  assert (forall j, 0 <= j < 4 -> within (p + 4 * k + j) p PGSIZE = true) as Hw.
  { intros. unfold within, PGSIZE. b2p. lia. }
  rewrite <- (Z.add_0_r (p + 4 * k)) at 1. rewrite !Hw by lia. done.
Qed.

Lemma tables_frame P m m' D T E :
  tables m D T E -> frame P m m' -> Forall page_ok P ->
  Forall page_ok (D :: vals T) -> (forall p, p ∈ D :: vals T -> p ∉ P) -> tables m' D T E.
Proof.
  intros [Hd Hk He] Hf HP HT Hn. rewrite Forall_forall in HT. split; [|done|].
  - intros k Hr. rewrite <- Hd by done.
    eapply frame_word; [done|done|apply HT; set_solver|apply Hn; set_solver|done].
  - intros n Hr. rewrite <- He by done. unfold entry. destruct (T !! _) as [t|] eqn:Et; [|done].
    assert (t ∈ D :: vals T) by (apply list_elem_of_further, elem_of_vals; eauto).
    eapply frame_word; [done|done|by apply HT|by apply Hn|].
    apply Z.mod_pos_bound; lia.
Qed.

(** Writing the entry of page number [n]. *)
Lemma tables_set m D T E n t v :
  tables m D T E -> NoDup (D :: vals T) -> Forall page_ok (D :: vals T) ->
  0 <= n < 1048576 -> T !! (n / 1024) = Some t -> 0 <= v < 4294967296 ->
  tables (store32 m (t + 4 * (n mod 1024)) v) D T (upd E n v).
Proof.
  intros [Hd Hk He] Hnd HT Hn Ht Hv. apply NoDup_cons in Hnd as [HnD HndT].
  rewrite Forall_forall in HT. pose proof (Z.mod_pos_bound n 1024 ltac:(done)) as Hm.
  assert (forall k p, T !! k = Some p -> page_ok p) as Hpage.
  { intros k p Hp. apply HT. apply list_elem_of_further, elem_of_vals; eauto. }
  assert (page_ok D) by (apply HT; set_solver).
  assert (t <> D). { intros ->. apply HnD, elem_of_vals; eauto. }
  split; [|done|].
  - intros k Hr. rewrite load_entry by eauto. rewrite Hd by done.
    btest (D =? t); [congruence|done].
  - intros j Hj. pose proof (Z.mod_pos_bound j 1024 ltac:(done)).
    unfold entry, upd. rewrite <- He by done. unfold entry.
    destruct (T !! (j / 1024)) as [q|] eqn:Eq.
    + rewrite load_entry by eauto. btest (j =? n); subst.
      * simplify_eq. by rewrite !Z.eqb_refl.
      * btest (q =? t); [|done]. btest (j mod 1024 =? n mod 1024); [|done]. subst.
        pose proof (vals_inj _ _ _ _ HndT Eq Ht). Z.to_euclidean_division_equations; lia.
    + btest (j =? n); [congruence|done].
Qed.

(** Hanging an empty table into slot [k] changes no entry. *)
Lemma tables_add m D T E k p :
  tables m D T E -> NoDup (D :: p :: vals T) -> Forall page_ok (D :: p :: vals T) ->
  0 <= k < 1024 -> T !! k = None ->
  tables (store32 (memset m p 0 PGSIZE) (D + 4 * k) (V2P p + 7)) D (<[k := p]> T) E.
Proof.
  intros Ht Hnd HT Hk Hk0.
  apply NoDup_cons in Hnd as [HnD [Hnp HndT]%NoDup_cons]. rewrite Forall_forall in HT.
  assert (page_ok D) by (apply HT; set_solver). assert (page_ok p) as Hp by (apply HT; set_solver).
  assert (0 <= V2P p + 7 < 4294967296).
  { destruct (page_phys p Hp) as (-> & _ & ?). unfold PHYSTOP in *. lia. }
  apply (tables_frame [p] m (memset m p 0 PGSIZE)) in Ht as [Hd Hk' He];
    [|apply frame_memset; set_solver|by apply Forall_singleton|rewrite Forall_forall; set_solver|
     intros q [->|Hq]%elem_of_cons ->%list_elem_of_singleton; set_solver].
  split.
  - intros j Hj. rewrite load_entry, Z.eqb_refl by done. cbn [andb].
    btest (j =? k); subst; [by rewrite lookup_insert_eq|].
    rewrite Hd, lookup_insert_ne by (done || lia). done.
  - intros j t Hj. apply lookup_insert_Some in Hj as [[<- _]|[_ Hj]]; eauto.
  - intros n Hn. rewrite <- He by done. unfold entry.
    pose proof (Z.mod_pos_bound n 1024 ltac:(done)).
    destruct (decide (k = n / 1024)) as [->|].
    + rewrite lookup_insert_eq, Hk0, load_entry by done. btest (p =? D); [set_solver|].
      by apply load_memset_zero.
    + rewrite lookup_insert_ne by done. destruct (T !! (n / 1024)) as [t|] eqn:Et; [|done].
      assert (t ∈ vals T) by (apply elem_of_vals; eauto).
      rewrite load_entry by (done || (apply HT; set_solver)). btest (t =? D); [set_solver|done].
Qed.

Lemma kinv_frame s r P l :
  kinv kend s l -> frame P (kram s) r -> Forall page_ok P -> (forall p, p ∈ P -> p ∉ l) ->
  kinv kend (set_kram r s) l.
Proof.
  intros (Hc & Hn & Hl) Hf HP Hd. split_and!; [|done|done].
  apply (chain_ext (kram s)); [|done]. intros a k Ha Hk. rewrite Forall_forall in Hl.
  eapply frame_byte; [done|done|by apply Hl| |unfold PGSIZE; lia]. intros H. by eapply Hd.
Qed.

(** ** An address space and the allocator *)

Record vmem (s : kmem) (D : Z) (T : gmap Z Z) (E : Z -> Z) (X l : list Z) : Prop := mkvmem {
  vm_free : kinv kend s l;
  vm_idle : idle f0 i d s;
  vm_tables : tables (kram s) D T E;
  vm_nodup : NoDup (owned D T X l);
  vm_pages : Forall page_ok (owned D T X l);
}.

Lemma owned_perm D T T' X l l' :
  vals T' ++ l' ≡ₚ vals T ++ l -> owned D T' X l' ≡ₚ owned D T X l.
Proof.
  intros H. unfold owned. f_equiv. rewrite !(Permutation_app_swap_app _ X). by rewrite H.
Qed.

Lemma vmem_step s s' D T T' E E' X X' l l' :
  vmem s D T E X l -> kinv kend s' l' -> idle f0 i d s' -> tables (kram s') D T' E' ->
  owned D T' X' l' ≡ₚ owned D T X l -> vmem s' D T' E' X' l'.
Proof. intros [_ _ _ Hn Hp] Hk Hi Ht Ho. split; [done..| |]; by rewrite Ho. Qed.

Lemma tables_ext m D T E E' :
  (forall n, 0 <= n < 1048576 -> E n = E' n) -> tables m D T E -> tables m D T E'.
Proof. intros HE [? ? H]. split; [done..|]. intros n Hn. rewrite H; auto. Qed.

Lemma vmem_dir s D T E X l :
  vmem s D T E X l -> NoDup (D :: vals T) /\ Forall page_ok (D :: vals T).
Proof.
  intros [_ _ _ Hn Hp]. unfold owned in *. rewrite app_comm_cons in Hn, Hp.
  apply NoDup_app in Hn as [? _]. by apply Forall_app in Hp as [? _].
Qed.

(** The slot of [va] in the directory. *)
Lemma walk_slot s D T E X l va :
  vmem s D T E X l -> 0 <= va < 4294967296 ->
  load32 (kram s) (D + 4 * PDX va) =
  match T !! (va / 4096 / 1024) with Some t => V2P t + 7 | None => 0 end.
Proof.
  intros Hv Hva. rewrite PDX_div by done.
  apply (tb_dir _ _ _ _ (vm_tables _ _ _ _ _ _ Hv)).
  Z.to_euclidean_division_equations; lia.
Qed.

Lemma walk_found s D T E X l va t alloc :
  vmem s D T E X l -> 0 <= va < 4294967296 -> T !! (va / 4096 / 1024) = Some t ->
  walkpgdir argp D va alloc s = Ret (t + 4 * ((va / 4096) mod 1024)) s.
Proof.
  intros Hv Hva Ht. destruct (vmem_dir _ _ _ _ _ _ Hv) as [_ HT]. rewrite Forall_forall in HT.
  assert (page_ok t) as Hp by (apply HT, list_elem_of_further, elem_of_vals; eauto).
  unfold walkpgdir, bind, loadw, gets. rewrite (walk_slot _ _ _ _ _ _ _ Hv Hva), Ht, PTX_mod by done.
  rewrite land_PTE_P. destruct (page_phys t Hp) as (Hv2 & Hm & _).
  replace ((V2P t + 7) mod 2) with 1 by (Z.to_euclidean_division_equations; lia).
  by rewrite P2V_page.
Qed.

Lemma walk_missing s D T E X l va :
  vmem s D T E X l -> 0 <= va < 4294967296 -> T !! (va / 4096 / 1024) = None ->
  walkpgdir argp D va false s = Ret 0 s.
Proof.
  intros Hv Hva Ht. unfold walkpgdir, bind, loadw, gets.
  by rewrite (walk_slot _ _ _ _ _ _ _ Hv Hva), Ht.
Qed.

Lemma walk_new s D T E X l va :
  vmem s D T E X l -> 0 <= va < 4294967296 -> T !! (va / 4096 / 1024) = None ->
  wp (walkpgdir argp D va true) s (fun r s' =>
    match l with
    | [] => r = 0 /\ vmem s' D T E X [] /\ kram s' = kram s
    | p :: l' =>
        r = p + 4 * ((va / 4096) mod 1024) /\
        vmem s' D (<[va / 4096 / 1024 := p]> T) E X l' /\ frame [D; p] (kram s) (kram s')
    end).
Proof.
  intros Hv Hva Ht. pose proof (walk_slot _ _ _ _ _ _ _ Hv Hva) as Hs. rewrite Ht in Hs.
  unfold walkpgdir. apply wp_bind, wp_gets. rewrite Hs. cbn [nz Z.land Z.eqb negb].
  rewrite PDX_div, PTX_mod by done. set (k := va / 4096 / 1024) in *.
  assert (0 <= k < 1024) by (subst k; Z.to_euclidean_division_equations; lia).
  destruct (kalloc_run kend argp f0 i d s l (vm_free _ _ _ _ _ _ Hv) (vm_idle _ _ _ _ _ _ Hv))
    as (s1 & E1 & Hf1 & Hi1 & _ & Hr1).
  eapply wp_bind, wp_of; [exact E1|]. destruct l as [|p l]; cbn [head default from_option id tail] in *.
  { apply wp_ret. split_and!; [done| |done]. eapply vmem_step; [exact Hv|done..| |done].
    rewrite Hr1. apply Hv. }
  pose proof (vm_nodup _ _ _ _ _ _ Hv) as Hn. pose proof (vm_pages _ _ _ _ _ _ Hv) as Hp.
  assert (owned D (<[k := p]> T) X l ≡ₚ owned D T X (p :: l)) as Ho.
  { apply owned_perm. rewrite vals_insert by done. by rewrite <- Permutation_middle. }
  rewrite <- Ho in Hn, Hp. unfold owned in Hn, Hp.
  assert (page_ok D /\ page_ok p) as [HD Hpp].
  { rewrite vals_insert in Hp by done. inversion_clear Hp as [|? ? ? Hp']. by inversion Hp'. }
  btest (p =? 0); [destruct Hpp; lia|].
  apply wp_bind, wp_modify, wp_bind, wp_modify, wp_ret. split; [done|].
  cbn [kram set_kram mach ram]. rewrite Hr1.
  assert (V2P p + 7 = Z.lor (Z.lor (Z.lor (V2P p) PTE_P) PTE_W) PTE_U) as <-.
  { rewrite <- !Z.lor_assoc. destruct (page_phys p Hpp) as (-> & ? & _). by rewrite lor_flags. }
  set (r := store32 _ _ _).
  assert (frame [D; p] (kram s) r) as Hfr.
  { eapply frame_trans; [apply frame_memset|apply frame_store; [|done]]; set_solver. }
  split; [|done]. rewrite vals_insert in Hn, Hp by done. cbn [app] in Hn, Hp.
  eapply vmem_step; [exact Hv| |by apply idle_kram, idle_kram| |done].
  - apply (kinv_frame s1 r [D; p]); [done|by rewrite Hr1|by repeat apply Forall_cons_2|].
    apply NoDup_cons in Hn as [HnD [Hnp _]%NoDup_cons].
    intros q [->| ->%list_elem_of_singleton]%elem_of_cons Hq; set_solver.
  - rewrite app_comm_cons in Hn, Hp. rewrite app_comm_cons in Hn, Hp.
    apply NoDup_app in Hn as [? _]. apply Forall_app in Hp as [? _].
    by apply tables_add; [apply Hv|..].
Qed.

(** What a call keeps that may add tables for the slots [K]. *)
Definition grown (s s' : kmem) (D : Z) (T T' : gmap Z Z) (l l' : list Z) (K : gset Z) : Prop :=
  vals T' ++ l' ≡ₚ vals T ++ l /\ T ⊆ T' /\ dom T' ⊆ dom T ∪ K /\
  frame (D :: vals T ++ l) (kram s) (kram s').

Lemma grown_trans s1 s2 s3 D T1 T2 T3 l1 l2 l3 K1 K2 K :
  grown s1 s2 D T1 T2 l1 l2 K1 -> grown s2 s3 D T2 T3 l2 l3 K2 -> K1 ∪ K2 ⊆ K ->
  grown s1 s3 D T1 T3 l1 l3 K.
Proof.
  intros (Hp & Hs & Hd & Hf) (Hp' & Hs' & Hd' & Hf') HK.
  split_and!; [by rewrite Hp'|by transitivity T2|set_solver|].
  eapply frame_trans; [done|]. eapply frame_mono; [|done]. by rewrite Hp.
Qed.

Lemma grown_mono s s' D T T' l l' K K' :
  K ⊆ K' -> grown s s' D T T' l l' K -> grown s s' D T T' l l' K'.
Proof. intros HK (? & ? & ? & ?). split_and!; [done|done|set_solver|done]. Qed.

(** The directory slots of the page numbers from [a] to [a + k]. *)
Definition slots (a k : Z) : gset Z :=
  list_to_set (seqZ (a / 1024) ((a + k) / 1024 - a / 1024 + 1)).

Lemma elem_of_slots a k x : x ∈ slots a k <-> a / 1024 <= x <= (a + k) / 1024.
Proof. unfold slots. rewrite elem_of_list_to_set, elem_of_seqZ. lia. Qed.

Lemma slot_first a k : 0 <= k -> {[a / 1024]} ⊆ slots a k.
Proof.
  intros Hk x ->%elem_of_singleton. apply elem_of_slots.
  Z.to_euclidean_division_equations; lia.
Qed.

Lemma slot_next a k : 0 <= k -> {[a / 1024]} ∪ slots (a + 1) k ⊆ slots a (k + 1).
Proof.
  intros Hk x [->%elem_of_singleton|H%elem_of_slots]%elem_of_union; apply elem_of_slots;
    Z.to_euclidean_division_equations; lia.
Qed.

Lemma walk_alloc s D T E X l va :
  vmem s D T E X l -> 0 <= va < 4294967296 ->
  wp (walkpgdir argp D va true) s (fun r s' => exists T' l',
    vmem s' D T' E X l' /\ grown s s' D T T' l l' {[va / 4096 / 1024]} /\
    match T' !! (va / 4096 / 1024) with
    | Some t => r = t + 4 * ((va / 4096) mod 1024)
    | None => r = 0 /\ l' = []
    end).
Proof.
  intros Hv Hva. destruct (T !! (va / 4096 / 1024)) as [t|] eqn:Et.
  - eapply wp_of; [by eapply walk_found|]. exists T, l. rewrite Et.
    split_and!; [done| |done]. split_and!; [done..|set_solver|apply frame_refl].
  - eapply wp_mono; [by eapply walk_new|]. intros r s' H. destruct l as [|p l].
    + destruct H as (-> & Hv' & Hr). exists T, []. rewrite Et.
      split_and!; [done| |done|done]. split_and!; [done..|set_solver|rewrite Hr; apply frame_refl].
    + destruct H as (-> & Hv' & Hf). exists (<[va / 4096 / 1024 := p]> T), l.
      rewrite lookup_insert_eq. split_and!; [done| |done]. split_and!.
      * rewrite vals_insert by done. by rewrite <- Permutation_middle.
      * by apply insert_subseteq.
      * rewrite dom_insert. set_solver.
      * eapply frame_mono; [|done]. set_solver.
Qed.

Lemma vmem_read s D T E X l n t :
  vmem s D T E X l -> 0 <= n < 1048576 -> T !! (n / 1024) = Some t ->
  load32 (kram s) (t + 4 * (n mod 1024)) = E n.
Proof.
  intros Hv Hn Ht. rewrite <- (tb_entry _ _ _ _ (vm_tables _ _ _ _ _ _ Hv) n Hn).
  unfold entry. by rewrite Ht.
Qed.

Lemma vmem_write s D T E X l n t v :
  vmem s D T E X l -> 0 <= n < 1048576 -> T !! (n / 1024) = Some t -> 0 <= v < 4294967296 ->
  vmem (set_kram (store32 (kram s) (t + 4 * (n mod 1024)) v) s) D T (upd E n v) X l.
Proof.
  intros Hv Hn Ht Hr. destruct (vmem_dir _ _ _ _ _ _ Hv) as [HnD HpD].
  assert (t ∈ vals T) as Hin by (apply elem_of_vals; eauto).
  eapply vmem_step; [exact Hv| |by apply idle_kram, Hv|by apply tables_set; [apply Hv|..]|done].
  eapply (kinv_frame _ _ [t]); [apply Hv| | |].
  - apply frame_store; [set_solver|by apply Z.mod_pos_bound].
  - apply Forall_singleton. rewrite Forall_forall in HpD. apply HpD. set_solver.
  - intros p ->%list_elem_of_singleton Hl. pose proof (vm_nodup _ _ _ _ _ _ Hv) as Hnd.
    unfold owned in Hnd. apply NoDup_cons in Hnd as [_ Hnd]. apply NoDup_app in Hnd as (_ & Hd & _).
    apply (Hd t); set_solver.
Qed.

(** ** mappages *)

(** [E] with [k] pages mapped from page number [a] to frames from [pa] on. *)
Definition mapped (E : Z -> Z) (a k pa perm : Z) : Z -> Z :=
  fun n => if (a <=? n) && (n <? a + k) then pa + 4096 * (n - a) + Z.lor perm PTE_P else E n.

Lemma lor_PTE_P perm : 0 <= perm < 4096 -> 0 <= Z.lor perm PTE_P < 4096.
Proof.
  intros H. assert (0 <= Z.lor perm PTE_P) by (apply Z.lor_nonneg; unfold PTE_P; lia).
  split; [done|]. destruct (decide (Z.lor perm PTE_P = 0)) as [->|]; [done|].
  apply (Z.log2_lt_pow2 _ 12); [lia|]. rewrite Z.log2_lor by (unfold PTE_P; lia).
  apply Z.max_lub_lt; [|done].
  destruct (decide (perm = 0)) as [->|]; [done|]. apply Z.log2_lt_pow2; lia.
Qed.

Lemma mapped_cons E a k pa perm n :
  0 <= k ->
  mapped (upd E a (pa + Z.lor perm PTE_P)) (a + 1) k (pa + 4096) perm n =
  mapped E a (k + 1) pa perm n.
Proof.
  intros. unfold mapped, upd.
  destruct (Z.leb_spec (a + 1) n), (Z.ltb_spec n (a + 1 + k)), (Z.eqb_spec n a),
    (Z.leb_spec a n), (Z.ltb_spec n (a + (k + 1))); cbn [andb]; lia.
Qed.

Lemma mapped_one E a pa perm n :
  mapped E a 1 pa perm n = upd E a (pa + Z.lor perm PTE_P) n.
Proof.
  unfold mapped, upd. destruct (Z.leb_spec a n), (Z.ltb_spec n (a + 1)), (Z.eqb_spec n a);
    cbn [andb]; (lia || congruence).
Qed.

Lemma mapped_zero E a pa perm n : mapped E a 0 pa perm n = E n.
Proof.
  unfold mapped. destruct (Z.leb_spec a n), (Z.ltb_spec n (a + 0)); cbn [andb]; (done || lia).
Qed.

Lemma vmem_ext s D T E E' X l :
  (forall n, 0 <= n < 1048576 -> E n = E' n) -> vmem s D T E X l -> vmem s D T E' X l.
Proof. intros HE [? ? ? ? ?]. split; [done|done|by eapply tables_ext|done|done]. Qed.

(** One turn of the loop, up to the test for the last page. *)
Lemma map_step s D T E X l a pa perm (K : M kmem Z) Q :
  vmem s D T E X l -> 0 <= a < 1048576 -> E a mod 2 = 0 ->
  0 <= pa < 4294967296 -> pa mod 4096 = 0 -> 0 <= perm < 4096 ->
  (forall s' T', vmem s' D T' E X [] -> grown s s' D T T' l [] {[a / 1024]} -> Q (-1) s') ->
  (forall s' T' l', vmem s' D T' (upd E a (pa + Z.lor perm PTE_P)) X l' ->
     grown s s' D T T' l l' {[a / 1024]} -> wp K s' Q) ->
  wp (let! pte := walkpgdir argp D (4096 * a) true in
      if pte =? 0 then ret (-1)
      else
        let! e := loadw pte in
        if nz (Z.land e PTE_P) then panic "remap"
        else storew pte (Z.lor (Z.lor pa perm) PTE_P) ;; K) s Q.
Proof.
  intros Hv Ha He Hpa Hpm Hpe Hfail Hok.
  eapply wp_seq; [apply (walk_alloc s D T E X l); [done|lia]|].
  assert (4096 * a / 4096 = a) as -> by (Z.to_euclidean_division_equations; lia).
  intros r s1 (T1 & l1 & Hv1 & (Hp & Hs & Hd & Hf) & Hr).
  destruct (T1 !! (a / 1024)) as [t|] eqn:Et.
  - destruct (vmem_dir _ _ _ _ _ _ Hv1) as [_ HpD]. rewrite Forall_forall in HpD.
    assert (t ∈ vals T1) by (apply elem_of_vals; eauto).
    pose proof (Z.mod_pos_bound a 1024 ltac:(done)).
    destruct (HpD t) as [? _]; [set_solver|]. subst r.
    btest (t + 4 * (a mod 1024) =? 0); [lia|]. apply wp_bind, wp_gets.
    rewrite (vmem_read _ _ _ _ _ _ _ _ Hv1 Ha Et), land_PTE_P, He. cbn [nz Z.eqb negb].
    apply wp_bind, wp_modify. pose proof (lor_PTE_P perm Hpe).
    rewrite <- Z.lor_assoc, lor_flags by done. eapply Hok.
    + eapply vmem_write; [done..|]. Z.to_euclidean_division_equations; lia.
    + split_and!; [done..|]. eapply frame_trans; [done|]. apply frame_store; [|done].
      rewrite <- Hp. set_solver.
  - destruct Hr as [-> ->]. apply wp_ret. by eapply Hfail.
Qed.

Lemma mappages_loop_run k : forall fuel s D T E X l a pa perm,
  vmem s D T E X l -> 0 <= a -> a + Z.of_nat k < 1048576 -> (k < fuel)%nat ->
  pa mod 4096 = 0 -> 0 <= pa -> pa + 4096 * Z.of_nat k < 4294967296 -> 0 <= perm < 4096 ->
  (forall n, a <= n <= a + Z.of_nat k -> E n mod 2 = 0) ->
  wp (mappages_loop argp fuel D (4096 * a) (4096 * (a + Z.of_nat k)) pa perm) s
    (fun r s' => exists T' l' j,
      vmem s' D T' (mapped E a j pa perm) X l' /\ grown s s' D T T' l l' (slots a (Z.of_nat k)) /\
      (r = 0 /\ j = Z.of_nat k + 1 \/ r = -1 /\ 0 <= j <= Z.of_nat k /\ l' = [])).
Proof.
  induction k as [|k IH]; intros [|fuel] s D T E X l a pa perm Hv Ha Hk Hfu Hpa Hp0 Hp1 Hpe He;
    [lia| |lia|]; cbn [mappages_loop].
  - apply (map_step s D T E X l); [done|lia|apply He; lia|lia|done|done| |].
    + intros s' T' Hv' Hg. exists T', [], 0. split_and!; [|by eapply grown_mono, Hg; apply slot_first; lia|right; split_and!; (done || lia)]. 
      eapply vmem_ext; [|done]. intros n _. symmetry. apply mapped_zero.
    + intros s' T' l' Hv' Hg. rewrite Z.add_0_r, Z.eqb_refl. apply wp_ret. exists T', l', 1.
      split_and!; [|by eapply grown_mono, Hg; apply slot_first; lia|left; lia]. eapply vmem_ext; [|done]. intros n _. symmetry. apply mapped_one.
  - apply (map_step s D T E X l); [done|lia|apply He; lia|lia|done|done| |].
    + intros s' T' Hv' Hg. exists T', [], 0. split_and!; [|by eapply grown_mono, Hg; apply slot_first; lia|right; split_and!; (done || lia)]. 
      eapply vmem_ext; [|done]. intros n _. symmetry. apply mapped_zero.
    + intros s' T' l' Hv' Hg. btest (4096 * a =? 4096 * (a + Z.of_nat (S k))); [lia|].
      unfold PGSIZE. rewrite !u32_small by lia.
      replace (4096 * a + 4096) with (4096 * (a + 1)) by lia.
      replace (a + Z.of_nat (S k)) with (a + 1 + Z.of_nat k) by lia.
      eapply wp_mono; [eapply IH; [done|lia|lia|lia| |lia|lia|done|]|].
      * Z.to_euclidean_division_equations; lia.
      * intros j Hj. unfold upd. btest (j =? a); [lia|]. apply He. lia.
      * intros r s2 (T2 & l2 & j & Hv2 & Hg2 & Hr). exists T2, l2, (j + 1).
        split_and!; [|eapply grown_trans; [done|done|rewrite Nat2Z.inj_succ; apply slot_next; lia]|destruct Hr as [[-> ->]|(-> & ? & ->)]; [left|right];
          split_and!; (done || lia)]. eapply vmem_ext; [|done]. intros j0 _.
        apply mapped_cons. lia.
Qed.

(** The whole call: [k + 1] pages, or as many as there was memory for. *)
Lemma mappages_run s D T E X l va size pa perm :
  vmem s D T E X l -> 0 <= va -> 0 < size -> va + size <= 4294967296 ->
  let a := va / 4096 in let k := (va + size - 1) / 4096 - a in
  pa mod 4096 = 0 -> 0 <= pa -> pa + 4096 * k < 4294967296 -> 0 <= perm < 4096 ->
  (forall n, a <= n <= a + k -> E n mod 2 = 0) ->
  wp (mappages argp D va size pa perm) s (fun r s' => exists T' l' j,
      vmem s' D T' (mapped E a j pa perm) X l' /\ grown s s' D T T' l l' (slots a k) /\
      (r = 0 /\ j = k + 1 \/ r = -1 /\ 0 <= j <= k /\ l' = [])).
Proof.
  intros Hv H0 Hs Hb a k Hpm Hp0 Hpk Hpe He. unfold mappages, PGSIZE.
  rewrite !PGROUNDDOWN_div, (u32_small (va + size - 1)) by lia. fold a.
  assert (0 <= a) by (apply Z.div_pos; lia).
  assert (0 <= k) by (subst k a; Z.to_euclidean_division_equations; lia).
  assert (a + k < 1048576) by (subst k a; Z.to_euclidean_division_equations; lia).
  replace ((va + size - 1) / 4096) with (a + k) by lia.
  replace (4096 * (a + k) - 4096 * a) with (k * 4096) by lia.
  rewrite u32_small, Z.div_mul by lia. clearbody k.
  destruct (Z_of_nat_complete k) as [n ->]; [done|]. apply mappages_loop_run; (done || lia).
Qed.

End Tables.
