(* ===== verification/VmUser.v ===== *)
(** * User memory

    The user half of an address space is a map [U] from page numbers to frames
    and flags, and what a process sees of it is [ubyte].  [deallocuvm],
    [allocuvm] and [freevm] are specified on [U]; no page is lost or used
    twice, since the pages in use and the free ones are the same before and
    after, up to order. *)
From S2P Require Import Prelude Str Spinlock Kalloc Vm VmTables.

(** Permutations of appended lists, by counting. *)
Lemma count_cons (a x : Z) l :
  count_occ Z.eq_dec (a :: l) x = ((if Z.eq_dec a x then 1 else 0) + count_occ Z.eq_dec l x)%nat.
Proof. cbn. by destruct (Z.eq_dec a x). Qed.

Lemma count_nil (x : Z) : count_occ Z.eq_dec [] x = 0%nat.
Proof. done. Qed.

Ltac perm :=
  rewrite ?(Permutation_count_occ Z.eq_dec) in *;
  let x := fresh "x" in intros x;
  repeat match goal with
  | H : forall y, count_occ Z.eq_dec _ y = count_occ Z.eq_dec _ y |- _ => specialize (H x)
  end;
  repeat (rewrite count_occ_app in * || rewrite count_cons in * || rewrite count_nil in * );
  lia.

Definition upages (U : gmap Z (Z * Z)) : list Z := ((map_to_list U).*2).*1.

Lemma upages_insert U n p f : U !! n = None -> upages (<[n := (p, f)]> U) ≡ₚ p :: upages U.
Proof. intros H. unfold upages. by rewrite map_to_list_insert. Qed.

Lemma upages_delete U n p f : U !! n = Some (p, f) -> upages U ≡ₚ p :: upages (delete n U).
Proof.
  intros H. rewrite <- (insert_delete_id U n (p, f) H) at 1.
  apply upages_insert, lookup_delete_eq.
Qed.

Lemma elem_of_upages U p : p ∈ upages U <-> exists n f, U !! n = Some (p, f).
Proof.
  unfold upages. rewrite list_elem_of_fmap. setoid_rewrite list_elem_of_fmap.
  setoid_rewrite elem_of_map_to_list'. split.
  - intros ([? f] & -> & [n ?] & E & H). cbn in *. subst. eauto.
  - intros (n & f & H). exists (p, f). split; [done|]. by exists (n, (p, f)).
Qed.

Lemma upages_inj U j k p f g :
  NoDup (upages U) -> U !! j = Some (p, f) -> U !! k = Some (p, g) -> j = k.
Proof.
  intros Hn Hj Hk. destruct (decide (j = k)) as [|Hne]; [done|].
  rewrite (upages_delete _ _ _ _ Hj) in Hn. apply NoDup_cons in Hn as [Hn _]. destruct Hn.
  apply elem_of_upages. exists k, g. by rewrite lookup_delete_ne.
Qed.

(** The byte that the process reads at [va]. *)
Definition ubyte (m : mem) (U : gmap Z (Z * Z)) (va : Z) : option Z :=
  match U !! (va / 4096) with
  | Some (p, _) => Some (m (p + va mod 4096))
  | None => None
  end.

(** The map without the page numbers from [a] to [b]. *)
Definition cut (a b : Z) (U : gmap Z (Z * Z)) : gmap Z (Z * Z) :=
  filter (fun kv => ~ (a <= kv.1 < b)) U.

Lemma lookup_cut a b U n :
  cut a b U !! n = if bool_decide (a <= n < b) then None else U !! n.
Proof.
  unfold cut. rewrite map_lookup_filter. destruct (U !! n); cbn; case_bool_decide; cbn;
    rewrite ?option_guard_True, ?option_guard_False by tauto; done.
Qed.

Lemma cut_skip a a' b U :
  a <= a' -> (forall n, a <= n < a' -> U !! n = None) -> cut a b U = cut a' b U.
Proof.
  intros Ha H. apply map_eq. intros n. rewrite !lookup_cut.
  repeat case_bool_decide; try done; [symmetry|]; (apply H; lia) || lia.
Qed.

Lemma cut_done a b U : b <= a -> cut a b U = U.
Proof. intros. apply map_eq. intros n. rewrite lookup_cut. case_bool_decide; [lia|done]. Qed.

Lemma cut_delete a b U : a < b -> cut (a + 1) b (delete a U) = cut a b U.
Proof.
  intros. apply map_eq. intros n. rewrite !lookup_cut.
  destruct (decide (n = a)) as [->|].
  - rewrite lookup_delete_eq. by repeat case_bool_decide; try lia.
  - rewrite lookup_delete_ne by done. repeat case_bool_decide; (done || lia).
Qed.

Lemma cut_idem a b U : cut a b (cut a b U) = cut a b U.
Proof. apply map_eq. intros n. rewrite !lookup_cut. by case_bool_decide. Qed.

(** The bytes of the pages [P] are the same. *)
Definition keeps (P : list Z) (m m' : mem) : Prop :=
  forall q k, q ∈ P -> 0 <= k < PGSIZE -> m' (q + k) = m (q + k).

Lemma keeps_refl P m : keeps P m m.
Proof. by intros q k. Qed.
Lemma keeps_trans P m1 m2 m3 : keeps P m1 m2 -> keeps P m2 m3 -> keeps P m1 m3.
Proof. intros H1 H2 q k Hq Hk. rewrite H2, H1; auto. Qed.
Lemma keeps_mono P P' m m' : P' ⊆ P -> keeps P m m' -> keeps P' m m'.
Proof. intros Hs H q k Hq. apply H. auto. Qed.

Lemma ubyte_keeps P m m' U va :
  keeps P m m' -> upages U ⊆ P -> ubyte m' U va = ubyte m U va.
Proof.
  intros Hk Hs. unfold ubyte. destruct (U !! _) as [[p f]|] eqn:Eu; [|done]. f_equal. apply Hk.
  - apply Hs, elem_of_upages. eauto.
  - apply Z.mod_pos_bound. done.
Qed.

Record uspace (E : Z -> Z) (U : gmap Z (Z * Z)) : Prop := mkuspace {
  us_entry n : 0 <= n < 524288 ->
    E n = match U !! n with Some (p, f) => V2P p + f | None => 0 end;
  us_dom n q : U !! n = Some q -> 0 <= n < 524288;
  us_flags n p f : U !! n = Some (p, f) -> 0 <= f < 4096 /\ f mod 2 = 1;
}.

Section User.
Context (kend argp f0 : Z) (i : nat) (d : Z).

Abbreviation page_ok := (page_ok kend).
Abbreviation vmem := (vmem kend f0 i d).

(** ** Pages in use and free pages *)

Record heap (s : kmem) (X l : list Z) : Prop := mkheap {
  hp_free : kinv kend s l;
  hp_idle : idle f0 i d s;
  hp_nodup : NoDup (X ++ l);
  hp_pages : Forall page_ok (X ++ l);
}.

Lemma vmem_heap s D T E X l :
  vmem s D T E X l <-> heap s (D :: vals T ++ X) l /\ tables (kram s) D T E.
Proof.
  split.
  - intros [? ? ? Hn Hp]. split; [|done]. unfold owned in *.
    split; [done|done|by rewrite <- app_comm_cons, <- app_assoc..].
  - intros [[? ? Hn Hp] ?]. rewrite <- app_comm_cons, <- app_assoc in Hn, Hp. by split.
Qed.

Lemma heap_perm s X X' l : X ≡ₚ X' -> heap s X l -> heap s X' l.
Proof. intros Hp [? ? Hn Ho]. split; [done|done|by rewrite <- Hp..]. Qed.

Lemma heap_disjoint s X l p : heap s X l -> p ∈ X -> p ∉ l.
Proof. intros [_ _ Hn _] HX Hl. apply NoDup_app in Hn as (_ & H & _). by apply (H p). Qed.

Lemma heap_page s X l p : heap s X l -> p ∈ X ++ l -> page_ok p.
Proof. intros [_ _ _ Hp]. rewrite Forall_forall in Hp. apply Hp. Qed.

(** A call that writes only to the pages [P] keeps the others. *)
Lemma heap_keeps s X l P Y m' :
  heap s X l -> frame P (kram s) m' -> P ⊆ X ++ l -> Y ⊆ X ++ l -> (forall p, p ∈ P -> p ∉ Y) ->
  keeps Y (kram s) m'.
Proof.
  intros Hh Hf HP HY Hd q k Hq Hk. eapply frame_byte; [done| |by eapply heap_page; eauto| |done].
  - rewrite Forall_forall. intros p Hp. eapply heap_page; eauto.
  - intros Hp. by eapply Hd.
Qed.

Lemma heap_touch s X l P r :
  heap s X l -> frame P (kram s) r -> P ⊆ X -> heap (set_kram r s) X l.
Proof.
  intros Hh Hf HP. destruct Hh as [Hk Hi Hn Hp].
  split; [|by apply idle_kram|done|done]. eapply kinv_frame; [done|done| |].
  - rewrite Forall_forall in *. intros p ?. apply Hp, elem_of_app. auto.
  - intros p Hin Hl. apply NoDup_app in Hn as (_ & H & _). apply (H p); auto.
Qed.

Lemma kalloc_heap s X l :
  heap s X l ->
  wp (kalloc argp) s (fun r s' => kram s' = kram s /\
    match l with
    | [] => r = 0 /\ heap s' X []
    | p :: l' => r = p /\ p <> 0 /\ heap s' (p :: X) l'
    end).
Proof.
  intros [Hk Hi Hn Hp]. destruct (kalloc_run kend argp f0 i d s l Hk Hi) as (s' & E & Hk' & Hi' & _ & Hr).
  eapply wp_of; [exact E|]. split; [done|]. destruct l as [|p l]; [by split|].
  cbn. rewrite <- Permutation_middle in Hn, Hp. split_and!; [done| |by split].
  inversion_clear Hp as [|? ? [? _]]. lia.
Qed.

Lemma kfree_heap s X l p :
  heap s (p :: X) l ->
  wp (kfree kend argp p) s (fun _ s' => heap s' X (p :: l) /\ frame [p] (kram s) (kram s')).
Proof.
  intros [Hk Hi Hn Hp]. cbn in Hn, Hp. pose proof Hn as [Hni _]%NoDup_cons.
  pose proof Hp as [Hpp _]%Forall_cons.
  destruct (kfree_run kend argp f0 i d s l p Hk Hi Hpp) as (s' & E & Hk' & Hi' & _ & Hr); [sub|].
  eapply wp_of; [exact E|]. split.
  - split; [done|done|by rewrite <- Permutation_middle..].
  - rewrite Hr. eapply frame_trans; [apply (frame_memset [p] _ p 1); sub|].
    pose proof (frame_store [p] (memset (kram s) p 1 PGSIZE) p 0 (freelist s)) as Hs.
    rewrite Z.mul_0_r, Z.add_0_r in Hs. apply Hs; [sub|lia].
Qed.

Lemma vmem_keeps_app s D T E P X l m' :
  vmem s D T E (P ++ X) l -> frame P (kram s) m' -> keeps X (kram s) m'.
Proof.
  intros [Hh _]%vmem_heap Hf. eapply heap_keeps; [exact Hh|exact Hf|sub|sub|].
  intros q Hq HX. destruct Hh as [_ _ Hn _].
  apply NoDup_app in Hn as [Hn _]. apply NoDup_cons in Hn as [_ Hn].
  apply NoDup_app in Hn as (_ & _ & Hn). apply NoDup_app in Hn as (_ & Hn & _). by apply (Hn q).
Qed.

(** Writing to the tables and to free pages leaves the other pages alone. *)
Lemma vmem_keeps s D T E X l m' :
  vmem s D T E X l -> frame (D :: vals T ++ l) (kram s) m' -> keeps X (kram s) m'.
Proof.
  intros [Hh _]%vmem_heap Hf. eapply heap_keeps; [exact Hh|exact Hf|sub|sub|].
  intros p Hp HX. destruct Hh as [_ _ Hn _]. rewrite <- app_comm_cons, <- app_assoc in Hn.
  apply NoDup_cons in Hn as [HD Hn]. apply NoDup_app in Hn as (_ & H1 & Hn).
  apply NoDup_app in Hn as (_ & H2 & _). apply elem_of_cons in Hp as [->|[Hp|Hp]%elem_of_app].
  - sub.
  - apply (H1 p); sub.
  - by apply (H2 p).
Qed.

Lemma vmem_perm s D T E X X' l : X ≡ₚ X' -> vmem s D T E X l -> vmem s D T E X' l.
Proof.
  intros Hp [Hh Ht]%vmem_heap. apply vmem_heap. split; [|done].
  eapply heap_perm; [|done]. by rewrite Hp.
Qed.

Lemma vmem_page s D T E X l p : vmem s D T E X l -> p ∈ X -> page_ok p.
Proof. intros [Hh _]%vmem_heap Hp. eapply heap_page; [exact Hh|]. sub. Qed.

(** Writing to pages that are in use for something else. *)
Lemma vmem_touch s D T E X l P r :
  vmem s D T E X l -> frame P (kram s) r -> P ⊆ X -> vmem (set_kram r s) D T E X l.
Proof.
  intros Hv Hf HP. pose proof Hv as [Hh Ht]%vmem_heap. apply vmem_heap. split.
  - eapply heap_touch; [done|done|]. sub.
  - eapply tables_frame; [exact Ht|exact Hf| |by eapply vmem_dir|].
    + rewrite Forall_forall. intros p Hp. eapply vmem_page; eauto.
    + intros p Hp HpP. destruct Hh as [_ _ Hn _]. rewrite app_comm_cons in Hn.
      apply NoDup_app in Hn as [Hn _]. apply NoDup_app in Hn as (_ & Hn & _).
      apply (Hn p); auto.
Qed.

Lemma vmem_kalloc s D T E X l :
  vmem s D T E X l ->
  wp (kalloc argp) s (fun r s' => kram s' = kram s /\
    match l with
    | [] => r = 0 /\ vmem s' D T E X []
    | p :: l' => r = p /\ p <> 0 /\ vmem s' D T E (p :: X) l'
    end).
Proof.
  intros [Hh Ht]%vmem_heap. eapply wp_mono; [by apply kalloc_heap|].
  intros r s' [Hr H]. rewrite <- Hr in Ht. split; [done|]. destruct l as [|p l].
  - destruct H as [-> H]. split; [done|]. by apply vmem_heap.
  - destruct H as (-> & ? & H). split_and!; [done..|]. apply vmem_heap. split; [|done].
    eapply heap_perm; [|done]. by rewrite <- Permutation_middle, perm_swap.
Qed.

Lemma vmem_kfree s D T E X l p :
  vmem s D T E (p :: X) l ->
  wp (kfree kend argp p) s (fun _ s' =>
    vmem s' D T E X (p :: l) /\ keeps X (kram s) (kram s')).
Proof.
  intros Hv. pose proof Hv as [Hh Ht]%vmem_heap.
  assert (D :: vals T ++ p :: X ≡ₚ p :: D :: vals T ++ X) as Hperm
    by (by rewrite <- Permutation_middle, perm_swap).
  apply (heap_perm _ _ _ _ Hperm) in Hh as Hh'.
  eapply wp_mono; [by apply kfree_heap|]. intros [] s1 [Hh1 Hf].
  assert (p ∉ (D :: vals T ++ X) ++ l) as Hnp.
  { destruct Hh' as [_ _ Hnd _]. by apply NoDup_cons in Hnd as [? _]. }
  split.
  - apply vmem_heap. split; [done|]. eapply tables_frame; [exact Ht|exact Hf| | |].
    + apply Forall_singleton. eapply heap_page; [exact Hh'|]. sub.
    + by eapply vmem_dir.
    + intros q Hq ->%list_elem_of_singleton. sub.
  - eapply heap_keeps; [exact Hh|exact Hf|sub|sub|].
    intros q ->%list_elem_of_singleton. sub.
Qed.

(** ** deallocuvm *)

(** An address space with user map [U], and other pages [X] in use. *)
Definition aspace (s : kmem) (D : Z) (T : gmap Z Z) (E : Z -> Z) (U : gmap Z (Z * Z))
    (X l : list Z) : Prop :=
  vmem s D T E (upages U ++ X) l /\ uspace E U.

Lemma uspace_delete E U n : uspace E U -> uspace (upd E n 0) (delete n U).
Proof.
  intros [He Hd Hf]. split.
  - intros k Hk. unfold upd. btest (k =? n); subst; [by rewrite lookup_delete_eq|].
    rewrite lookup_delete_ne by done. by apply He.
  - intros k q [_ H]%lookup_delete_Some. eauto.
  - intros k p f [_ H]%lookup_delete_Some. eauto.
Qed.

(** Freeing the frame of page number [n] and clearing its entry. *)
Lemma drop_page s D T E U X l n t p f (Q : unit -> kmem -> Prop) :
  KERNBASE < kend -> aspace s D T E U X l -> 0 <= n < 524288 ->
  T !! (n / 1024) = Some t -> U !! n = Some (p, f) ->
  (forall s', aspace s' D T (upd E n 0) (delete n U) X (p :: l) ->
     keeps (upages (delete n U) ++ X) (kram s) (kram s') -> Q tt s') ->
  wp (let pa := PTE_ADDR (E n) in
      if pa =? 0 then panic "kfree"
      else kfree kend argp (P2V pa) ;; storew (t + 4 * (n mod 1024)) 0) s Q.
Proof.
  intros Hke [Hv Hu] Hn Ht HU HQ.
  assert (upages U ++ X ≡ₚ p :: upages (delete n U) ++ X) as Hup
    by (by rewrite (upages_delete _ _ _ _ HU)).
  apply (vmem_perm _ _ _ _ _ _ _ Hup) in Hv.
  assert (page_ok p) as Hp by (eapply vmem_page; [done|sub]).
  destruct (us_flags _ _ Hu n p f HU) as [Hf Hf1].
  rewrite (us_entry _ _ Hu n Hn), HU. cbv zeta. rewrite (P2V_page kend p f) by done.
  destruct (page_phys kend p Hp) as (Hv2 & Hm & _). rewrite PTE_ADDR_sum by (done || by rewrite Hv2).
  btest (V2P p =? 0); [destruct Hp as [_ Hb]; unfold bad_page in Hb; b2p; lia|].
  eapply wp_seq; [by apply vmem_kfree|]. intros [] s1 [Hv1 Hk1].
  assert (0 <= n < 1048576) by lia. apply wp_modify, HQ.
  - split; [by apply vmem_write|by apply uspace_delete].
  - eapply keeps_trans; [exact Hk1|]. eapply vmem_keeps; [exact Hv1|].
    apply frame_store; [|by apply Z.mod_pos_bound].
    apply list_elem_of_further, elem_of_app. left. apply elem_of_vals. eauto.
Qed.

(** [U] shrank to [U'], and its other pages are free. *)
Definition shrunk (s s' : kmem) D T E (U U' : gmap Z (Z * Z)) (X l : list Z) : Prop :=
  exists E' l',
    aspace s' D T E' U' X l' /\ upages U' ++ l' ≡ₚ upages U ++ l /\
    (forall n, 524288 <= n < 1048576 -> E' n = E n) /\
    keeps (upages U' ++ X) (kram s) (kram s').

Lemma shrunk_refl s D T E U X l : aspace s D T E U X l -> shrunk s s D T E U U X l.
Proof. intros H. exists E, l. split_and!; [done..|apply keeps_refl]. Qed.

Lemma user_page s D T E U X l n p f :
  aspace s D T E U X l -> U !! n = Some (p, f) -> page_ok p.
Proof.
  intros [Hv _] HU. eapply vmem_page; [exact Hv|]. apply elem_of_app. left. apply elem_of_upages. eauto.
Qed.

Lemma user_nodup s D T E U X l : aspace s D T E U X l -> NoDup (upages U).
Proof.
  intros [[[_ _ Hn _] _]%vmem_heap _]. apply NoDup_app in Hn as [Hn _].
  apply NoDup_cons in Hn as [_ Hn]. apply NoDup_app in Hn as (_ & _ & Hn). by apply NoDup_app in Hn as [? _].
Qed.

(** The user's part of an entry that the code can find. *)
Lemma user_entry s D T E U X l n :
  aspace s D T E U X l -> 0 <= n < 524288 -> T !! (n / 1024) = None -> U !! n = None.
Proof.
  intros [Hv Hu] Hn Ht. pose proof (us_entry _ _ Hu n Hn) as He.
  rewrite <- (tb_entry _ _ _ _ (vm_tables _ _ _ _ _ _ _ _ _ _ Hv)) in He by lia.
  unfold entry in He. rewrite Ht in He. destruct (U !! n) as [[p f]|] eqn:EU; [|done].
  destruct (us_flags _ _ Hu _ _ _ EU) as [? Hf]. assert (f <> 0) by (intros ->; done).
  destruct (page_phys kend p) as (E2 & _ & ?); [|lia].
  apply vmem_heap in Hv as [Hh _]. eapply heap_page; [exact Hh|].
  assert (p ∈ upages U) by (apply elem_of_upages; eauto). sub.
Qed.

Lemma cut_pages a b U : upages (cut a b U) ⊆ upages U.
Proof.
  intros p. rewrite !elem_of_upages. intros (n & f & H). rewrite lookup_cut in H.
  case_bool_decide; [done|eauto].
Qed.

Lemma shrunk_trans s s1 s2 D T E U U1 U2 X l E1 l1 :
  aspace s1 D T E1 U1 X l1 -> upages U1 ++ l1 ≡ₚ upages U ++ l ->
  (forall n, 524288 <= n < 1048576 -> E1 n = E n) -> keeps (upages U1 ++ X) (kram s) (kram s1) ->
  upages U2 ⊆ upages U1 ->
  shrunk s1 s2 D T E1 U1 U2 X l1 -> shrunk s s2 D T E U U2 X l.
Proof.
  intros Hs1 Hp1 He1 Hk1 Hsub (E2 & l2 & Hs2 & Hp2 & He2 & Hk2). exists E2, l2.
  split_and!; [done|by rewrite Hp2|intros; rewrite He2, He1 by done; done|].
  eapply keeps_trans; [|done]. eapply keeps_mono; [|done]. sub.
Qed.

Lemma table_nonzero s D T E U X l k t : aspace s D T E U X l -> T !! k = Some t -> 0 < t.
Proof.
  intros [Hv _] Ht. destruct (vmem_dir _ _ _ _ _ _ _ _ _ _ Hv) as [_ HpD].
  rewrite Forall_forall in HpD. destruct (HpD t) as [? _]; [|lia].
  apply list_elem_of_further, elem_of_vals. eauto.
Qed.

(** The body of the loop for an entry that exists. *)
Lemma free_entry s D T E U X l n t :
  KERNBASE < kend -> aspace s D T E U X l -> 0 <= n < 524288 -> T !! (n / 1024) = Some t ->
  wp (if nz (E n mod 2) then
        let pa := PTE_ADDR (E n) in
        if pa =? 0 then panic "kfree"
        else kfree kend argp (P2V pa) ;; storew (t + 4 * (n mod 1024)) 0
      else ret tt) s (fun _ s' => shrunk s s' D T E U (delete n U) X l).
Proof.
  intros Hke Hs Hn Ht. pose proof (us_entry _ _ (proj2 Hs) n Hn) as He.
  destruct (U !! n) as [[p f]|] eqn:EU.
  - assert (nz (E n mod 2) = true) as ->.
    { destruct (us_flags _ _ (proj2 Hs) _ _ _ EU) as [Hf Hf1].
      destruct (page_phys kend p) as (E2 & Hm & ?).
      { destruct Hs as [[Hh _]%vmem_heap _]. eapply heap_page; [exact Hh|].
        assert (p ∈ upages U) by (apply elem_of_upages; eauto). sub. }
      rewrite He. unfold nz. b2p. Z.to_euclidean_division_equations; lia. }
    eapply drop_page; [done..|]. intros s' Hs' Hk. exists (upd E n 0), (p :: l).
    split_and!; [done| |intros k Hk'; unfold upd; btest (k =? n); [lia|done]|done].
    rewrite (upages_delete _ _ _ _ EU). by rewrite <- Permutation_middle.
  - rewrite He. apply wp_ret. rewrite delete_id by done. by apply shrunk_refl.
Qed.

Lemma deallocuvm_loop_run D T X oldsz (Hke : KERNBASE < kend) (Ho : 0 <= oldsz <= KERNBASE) fuel :
  forall s E U l a,
  let b := (oldsz + 4095) / 4096 in
  aspace s D T E U X l -> 0 <= a -> b - a <= Z.of_nat fuel ->
  wp (deallocuvm_loop kend argp fuel D (4096 * a) oldsz) s
     (fun _ s' => shrunk s s' D T E U (cut a b U) X l).
Proof.
  induction fuel as [|fuel IH]; intros s E U l a b Hs Ha Hf.
  all: assert (b <= 524288 /\ (4096 * a < oldsz <-> a < b)) as [Hb Hab]
    by (unfold KERNBASE in *; subst b; Z.to_euclidean_division_equations; lia).
  all: cbn [deallocuvm_loop]; btest (4096 * a <? oldsz);
    [|apply wp_ret; rewrite cut_done by lia; by apply shrunk_refl].
  { lia. }
  assert (0 <= 4096 * a < 4294967296) as Hva by lia.
  assert (4096 * a / 4096 = a) as Hdiv by (Z.to_euclidean_division_equations; lia).
  destruct (T !! (a / 1024)) as [t|] eqn:Et.
  - eapply wp_bind, wp_of; [eapply walk_found; [apply Hs|done|by rewrite Hdiv]|]. rewrite Hdiv.
    pose proof (table_nonzero _ _ _ _ _ _ _ _ _ Hs Et) as Ht0.
    pose proof (Z.mod_pos_bound a 1024 ltac:(done)).
    btest (t + 4 * (a mod 1024) =? 0); [lia|]. apply wp_bind, wp_gets.
    assert (0 <= a < 524288) as Har by lia. assert (0 <= a < 1048576) as Har' by lia.
    rewrite (vmem_read _ _ _ _ _ _ _ _ _ _ _ _ (proj1 Hs) Har' Et), land_PTE_P.
    eapply wp_seq; [by apply free_entry|]. intros [] s1 (E1 & l1 & Hs1 & Hp1 & He1 & Hk1).
    unfold PGSIZE. rewrite u32_small by lia.
    replace (4096 * a + 4096) with (4096 * (a + 1)) by lia.
    eapply wp_mono; [apply IH; [exact Hs1|lia|lia]|]. intros [] s2 H2.
    fold b in H2. rewrite cut_delete in H2 by lia.
    eapply shrunk_trans; [exact Hs1|done..| |exact H2].
    rewrite <- (cut_delete a b U) by lia. apply cut_pages.
  - eapply wp_bind, wp_of; [eapply walk_missing; [apply Hs|done|by rewrite Hdiv]|]. cbn [Z.eqb].
    rewrite PDX_div, Hdiv by done. set (q := a / 1024) in *.
    assert (0 <= q < 512) by (subst q; Z.to_euclidean_division_equations; lia).
    rewrite PGADDR_dir by lia. unfold PGSIZE. rewrite !u32_small by (rewrite ?u32_small; lia).
    replace (4194304 * (q + 1) - 4096 + 4096) with (4096 * (1024 * (q + 1))) by lia.
    rewrite (cut_skip a (1024 * (q + 1))).
    + apply IH; [done|lia|]. subst q. Z.to_euclidean_division_equations; lia.
    + subst q. Z.to_euclidean_division_equations; lia.
    + intros n Hn. eapply user_entry; [done|lia|]. rewrite <- Et. f_equal. subst q.
      Z.to_euclidean_division_equations; lia.
Qed.

(** Sizes in pages, rounded up. *)
Definition npages (sz : Z) : Z := (sz + 4095) / 4096.

Lemma deallocuvm_run s D T E U X l oldsz newsz :
  KERNBASE < kend -> aspace s D T E U X l -> 0 <= newsz < oldsz -> oldsz <= KERNBASE ->
  wp (deallocuvm kend argp D oldsz newsz) s (fun r s' =>
    r = newsz /\ shrunk s s' D T E U (cut (npages newsz) (npages oldsz) U) X l).
Proof.
  intros Hke Hs Hn Ho. unfold deallocuvm. btest (oldsz <=? newsz); [lia|].
  rewrite PGROUNDUP_div by (unfold KERNBASE in *; lia).
  eapply wp_seq; [apply deallocuvm_loop_run with (l := l) (U := U); [done|lia|exact Hs|..]|].
  - Z.to_euclidean_division_equations; lia.
  - unfold PGSIZE. Z.to_euclidean_division_equations; lia.
  - intros [] s' Hs'. apply wp_ret. by split.
Qed.

(** ** allocuvm *)

Lemma lor_PTE_P_odd perm : Z.lor perm PTE_P mod 2 = 1.
Proof. by rewrite Zmod_odd, <- Z.bit0_odd, Z.lor_spec, orb_true_r. Qed.

Lemma uspace_insert E U n p f :
  uspace E U -> 0 <= n < 524288 -> 0 <= f < 4096 -> f mod 2 = 1 ->
  uspace (upd E n (V2P p + f)) (<[n := (p, f)]> U).
Proof.
  intros [He Hd Hf] Hn Hf0 Hf1. split.
  - intros k Hk. unfold upd. btest (k =? n); subst; [by rewrite lookup_insert_eq|].
    rewrite lookup_insert_ne by done. by apply He.
  - intros k q [[<- _]|[_ H]]%lookup_insert_Some; eauto.
  - intros k q g [[<- [= <- <-]]|[_ H]]%lookup_insert_Some; eauto.
Qed.

(** Mapping a page that was just allocated. *)
Lemma place_page s D T E U X l a p perm :
  vmem s D T E (p :: upages U ++ X) l -> uspace E U -> 0 <= a < 524288 -> U !! a = None ->
  0 <= perm < 4096 ->
  wp (mappages argp D (4096 * a) PGSIZE (V2P p) perm) s (fun r s' => exists T' l',
    grown s s' D T T' l l' (slots a 0) /\
    (r = 0 /\ aspace s' D T' (upd E a (V2P p + Z.lor perm PTE_P))
                 (<[a := (p, Z.lor perm PTE_P)]> U) X l' \/
     r = -1 /\ l' = [] /\ aspace s' D T' E U (p :: X) [])).
Proof.
  intros Hv Hu Ha HU Hpe. assert (page_ok p) as Hp by (eapply vmem_page; [done|sub]).
  destruct (page_phys kend p Hp) as (Hv2 & Hm & Hr). unfold PHYSTOP in Hr.
  pose proof (us_entry _ _ Hu a Ha) as He. rewrite HU in He.
  assert (4096 * a / 4096 = a /\ (4096 * a + 4096 - 1) / 4096 - a = 0) as [Hd1 Hd2]
    by (Z.to_euclidean_division_equations; lia).
  eapply wp_mono.
  { apply (mappages_run kend argp f0 i d s D T E (p :: upages U ++ X) l); [exact Hv|lia|done|unfold PGSIZE; lia|..];
      unfold PGSIZE; rewrite ?Hd1, ?Hd2, ?Hv2; try (done || lia).
    intros n Hn. assert (n = a) as -> by lia. by rewrite He. }
  unfold PGSIZE. rewrite Hd1, Hd2. intros r s' (T' & l' & j & Hv' & Hg & Hc). exists T', l'.
  split; [done|]. destruct Hc as [[-> ->]|(-> & Hj & ->)].
  - left. split; [done|]. split.
    + eapply vmem_perm, vmem_ext; [|intros n _; apply mapped_one|exact Hv'].
      rewrite upages_insert by done. done.
    + apply uspace_insert; [done|done| |]; [by apply lor_PTE_P|apply lor_PTE_P_odd].
  - right. split_and!; [done|done|]. split; [|done]. assert (j = 0) as -> by lia.
    eapply vmem_perm, vmem_ext; [|intros n _; apply mapped_zero|exact Hv'].
    apply Permutation_middle.
Qed.

(** [U] became [U'], perhaps with new tables for the slots [K]; the pages [P]
    kept their bytes. *)
Definition resized (s s' : kmem) D T T' E (U U' : gmap Z (Z * Z)) (K : gset Z) (P X l : list Z) : Prop :=
  exists E' l',
    aspace s' D T' E' U' X l' /\ vals T' ++ upages U' ++ l' ≡ₚ vals T ++ upages U ++ l /\
    T ⊆ T' /\ dom T' ⊆ dom T ∪ K /\ (forall n, 524288 <= n < 1048576 -> E' n = E n) /\
    keeps (P ++ X) (kram s) (kram s').

Lemma resized_same s s' D T E U K P X l :
  kram s' = kram s -> aspace s' D T E U X l -> resized s s' D T T E U U K P X l.
Proof. intros Hr H. exists E, l. rewrite Hr. split_and!; [done..|sub|done|apply keeps_refl]. Qed.

Lemma resized_mono s s' D T T' E U U' K K' P P' X l :
  K ⊆ K' -> P' ⊆ P -> resized s s' D T T' E U U' K P X l -> resized s s' D T T' E U U' K' P' X l.
Proof.
  intros HK HP (E' & l' & ? & ? & ? & ? & ? & Hk). exists E', l'.
  split_and!; [done..|sub|done|]. eapply keeps_mono; [|exact Hk]. sub.
Qed.

(** The first of two steps is given with the state between them. *)
Lemma resized_trans s s1 s2 D T T1 T2 E E1 U U1 U2 K P X l l1 :
  aspace s1 D T1 E1 U1 X l1 -> vals T1 ++ upages U1 ++ l1 ≡ₚ vals T ++ upages U ++ l ->
  T ⊆ T1 -> dom T1 ⊆ dom T ∪ K -> (forall n, 524288 <= n < 1048576 -> E1 n = E n) ->
  keeps (P ++ X) (kram s) (kram s1) ->
  resized s1 s2 D T1 T2 E1 U1 U2 K P X l1 -> resized s s2 D T T2 E U U2 K P X l.
Proof.
  intros Hs1 Hp1 Ht1 Hd1 He1 Hk1 (E2 & l2 & Hs2 & Hp2 & Ht2 & Hd2 & He2 & Hk2).
  exists E2, l2. split_and!; [done|by rewrite Hp2|by transitivity T1|sub| |].
  - intros. by rewrite He2, He1.
  - by eapply keeps_trans.
Qed.

Lemma shrunk_resized s s' D T E U U' X l :
  shrunk s s' D T E U U' X l -> resized s s' D T T E U U' ∅ (upages U') X l.
Proof.
  intros (E' & l' & Hs & Hp & He & Hk). exists E', l'. split_and!; [done| |done|sub|done|done].
  by rewrite Hp.
Qed.

Lemma length_vals T : length (vals T) = size T.
Proof. unfold vals. by rewrite length_fmap, length_map_to_list. Qed.
Lemma length_upages U : length (upages U) = size U.
Proof. unfold upages. by rewrite !length_fmap, length_map_to_list. Qed.

Lemma slots_step a k : 0 <= k -> slots a 0 ∪ slots (a + 1) (k - 1) ⊆ slots a k.
Proof.
  intros Hk x [H|H]%elem_of_union; apply elem_of_slots in H; apply elem_of_slots;
    Z.to_euclidean_division_equations; lia.
Qed.

(** The page numbers from [a] to [b] got frames of zeros, with the flags [fl]. *)
Definition zeroed (m : mem) (U U' : gmap Z (Z * Z)) (a b fl : Z) : Prop :=
  forall n, if bool_decide (a <= n < b)
            then exists p, U' !! n = Some (p, fl) /\ forall k, 0 <= k < PGSIZE -> m (p + k) = 0
            else U' !! n = U !! n.

Lemma zeroed_cons m m' U U' a b fl p :
  a < b -> zeroed m' (<[a := (p, fl)]> U) U' (a + 1) b fl ->
  (forall k, 0 <= k < PGSIZE -> m (p + k) = 0) -> keeps [p] m m' -> zeroed m' U U' a b fl.
Proof.
  intros Hab Hz Hp Hk n. specialize (Hz n). destruct (decide (n = a)) as [->|Hne].
  - rewrite bool_decide_eq_false_2 in Hz by lia. rewrite bool_decide_eq_true_2 by lia.
    exists p. rewrite Hz, lookup_insert_eq. split; [done|]. intros k Hr.
    rewrite Hk by (done || sub). by apply Hp.
  - repeat case_bool_decide; try lia; [done|]. by rewrite lookup_insert_ne in Hz.
Qed.

Section Grow.

Context (D : Z) (X : list Z) (oldsz newsz : Z) (U0 : gmap Z (Z * Z)).
Context (Hke : KERNBASE < kend) (Ho : 0 <= oldsz <= newsz) (Hn : newsz < KERNBASE).

(** After growing from page number [a] on: the pages are there, or there was not
    a page for each of them and for the tables. *)
Definition grow_post (s s' : kmem) T E U l a (ok : bool) : Prop :=
  exists T' U',
    resized s s' D T T' E U U' (slots a (npages newsz - 1 - a)) (upages (if ok then U else U0)) X l /\
    if ok then zeroed (kram s') U U' a (npages newsz) 7
    else U' = U0 /\ Z.of_nat (length l + size T) <= npages newsz - a + Z.of_nat (size T').

(** Giving up: the pages that were added are freed again. *)
Lemma grow_undo s T E U Y l :
  aspace s D T E U Y l -> oldsz < newsz -> cut (npages oldsz) (npages newsz) U = U0 ->
  wp (deallocuvm kend argp D newsz oldsz) s (fun _ s' => shrunk s s' D T E U U0 Y l).
Proof.
  intros Hs Hlt Hc. eapply wp_mono; [apply deallocuvm_run; [done|exact Hs|lia|lia]|].
  intros r s' [_ H]. by rewrite Hc in H.
Qed.

(** One page more, or none. *)
Lemma grow_step s T E U l a (K : M kmem bool) (Q : bool -> kmem -> Prop) :
  aspace s D T E U X l -> 0 <= a < npages newsz -> npages oldsz <= a -> U !! a = None ->
  cut (npages oldsz) (npages newsz) U = U0 ->
  (forall s' T', resized s s' D T T' E U U0 (slots a 0) (upages U0) X l ->
     (length l + size T <= 1 + size T')%nat -> Q false s') ->
  (forall s' T' E' l' p,
     aspace s' D T' E' (<[a := (p, 7)]> U) X l' ->
     vals T' ++ upages (<[a := (p, 7)]> U) ++ l' ≡ₚ vals T ++ upages U ++ l -> T ⊆ T' ->
     dom T' ⊆ dom T ∪ slots a 0 ->
     (forall n, 524288 <= n < 1048576 -> E' n = E n) ->
     keeps (upages U ++ X) (kram s) (kram s') ->
     (forall k, 0 <= k < PGSIZE -> kram s' (p + k) = 0) -> wp K s' Q) ->
  wp (let! mem := kalloc argp in
      if mem =? 0 then deallocuvm kend argp D newsz oldsz ;; ret false
      else
        kmemset mem 0 PGSIZE ;;
        let! r := mappages argp D (4096 * a) PGSIZE (V2P mem) (Z.lor PTE_W PTE_U) in
        if r <? 0 then
          deallocuvm kend argp D newsz oldsz ;; kfree kend argp mem ;; ret false
        else K) s Q.
Proof.
  intros [Hv Hu] Ha Hoa HUa Hc Hfail Hok.
  assert (oldsz < newsz /\ npages newsz <= 524288) as [Hlt Hb]
    by (unfold npages, KERNBASE in *; Z.to_euclidean_division_equations; lia).
  assert (upages U0 ⊆ upages U) as HU0 by (rewrite <- Hc; apply cut_pages).
  eapply wp_seq; [by apply vmem_kalloc|]. intros r s1 [Hr1 H]. destruct l as [|p l].
  { destruct H as [-> Hv1]. cbn [Z.eqb].
    eapply wp_seq; [eapply grow_undo; [by split|done|done]|]. intros ? s2 H2.
    apply wp_ret, (Hfail s2 T); [|cbn; lia]. eapply resized_mono; [apply empty_subseteq|reflexivity|].
    apply shrunk_resized in H2. unfold resized in *. by rewrite Hr1 in H2. }
  destruct H as (-> & Hp0 & Hv1). btest (p =? 0); [done|].
  apply wp_bind, wp_modify. set (s2 := set_kram _ s1).
  assert (frame [p] (kram s1) (kram s2)) as Hf2 by (apply frame_memset; sub).
  assert (vmem s2 D T E (p :: upages U ++ X) l) as Hv2
    by (eapply vmem_touch; [exact Hv1|exact Hf2|sub]).
  assert (keeps (upages U ++ X) (kram s) (kram s2)) as Hk2.
  { rewrite <- Hr1. by eapply (vmem_keeps_app _ _ _ _ [p]). }
  eapply wp_seq; [apply place_page; [exact Hv2|done|lia|done|done]|].
  intros r s3 (T' & l' & (Hp & Ht & Hd & Hf) & Hcase). apply (vmem_keeps _ _ _ _ _ _ _ Hv2) in Hf.
  assert (keeps (upages U ++ X) (kram s) (kram s3)) as Hk3.
  { eapply keeps_trans; [done|]. eapply keeps_mono; [|done]. sub. }
  destruct Hcase as [[-> Hs3]|(-> & -> & Hs3)]; cbn [Z.ltb Z.compare].
  - change (Z.lor _ PTE_P) with 7 in Hs3. eapply Hok; [exact Hs3| |done|done| |done|].
    + rewrite upages_insert by done. perm.
    + intros j Hj. unfold upd. btest (j =? a); [lia|done].
    + intros k Hk. rewrite Hf by (done || sub). 
      change (kram s2) with (memset (kram s1) p 0 PGSIZE). rewrite memset_at by done.
      assert (within (p + k) p PGSIZE = true) as -> by (unfold within; b2p; lia). done.
  - eapply wp_seq; [eapply grow_undo; [exact Hs3|done|done]|].
    intros ? s4 (E4 & l4 & [Hv4 Hu4] & Hp4 & He4 & Hk4).
    eapply wp_seq; [apply vmem_kfree; eapply vmem_perm; [|exact Hv4]; by rewrite <- Permutation_middle|].
    intros [] s5 [Hv5 Hk5]. apply wp_ret, (Hfail s5 T').
    + exists E4, (p :: l4). split_and!; [by split|perm|done|done|done|].
      eapply keeps_trans; [|exact Hk5].
      eapply keeps_trans; (eapply keeps_mono; [|done]); sub.
    + apply Permutation_length in Hp. rewrite !length_app, !length_vals in Hp. cbn in Hp |- *. lia.
Qed.

Lemma allocuvm_loop_run fuel : forall s T E U l a,
  aspace s D T E U X l -> 0 <= a -> npages oldsz <= a -> npages newsz - a <= Z.of_nat fuel ->
  (forall n, a <= n < npages newsz -> U !! n = None) ->
  cut (npages oldsz) (npages newsz) U = U0 ->
  wp (allocuvm_loop kend argp fuel D (4096 * a) oldsz newsz) s
     (fun ok s' => grow_post s s' T E U l a ok).
Proof.
  induction fuel as [|fuel IH]; intros s T E U l a Hs Ha Hoa Hf HU Hc.
  all: assert (npages newsz <= 524288 /\ (4096 * a < newsz <-> a < npages newsz)) as [Hb Hab]
    by (unfold KERNBASE, npages in *; Z.to_euclidean_division_equations; lia).
  all: cbn [allocuvm_loop]; btest (4096 * a <? newsz);
    [|apply wp_ret; exists T, U; split;
      [by apply resized_same|];
      intros n; case_bool_decide; [lia|done]].
  { lia. }
  eapply grow_step; [exact Hs|lia|done|apply HU; lia|done| |].
  - intros s' T' H' Hl. exists T', U0. split; [|split; [done|lia]].
    eapply resized_mono; [|done|exact H']. intros x Hx. apply elem_of_slots.
    apply elem_of_slots in Hx. Z.to_euclidean_division_equations; lia.
  - intros s1 T1 E1 l1 p Hs1 Hp1 Ht1 Hd1 He1 Hk1 Hz. unfold PGSIZE.
    rewrite u32_small by lia. replace (4096 * a + 4096) with (4096 * (a + 1)) by lia.
    eapply wp_mono; [apply IH; [exact Hs1|lia..| |]|].
    + intros n Hn'. rewrite lookup_insert_ne by lia. apply HU. lia.
    + rewrite <- Hc. apply map_eq. intros n. rewrite !lookup_cut. case_bool_decide; [done|].
      apply lookup_insert_ne. lia.
    + set (Un := <[a := (p, 7)]> U) in *.
      assert (upages Un ≡ₚ p :: upages U) as Hun by (apply upages_insert, HU; lia).
      assert (upages U0 ⊆ upages U) as HU0 by (rewrite <- Hc; apply cut_pages).
      assert (slots a 0 ∪ slots (a + 1) (npages newsz - 1 - (a + 1)) ⊆ slots a (npages newsz - 1 - a))
        as Hsl.
      { replace (npages newsz - 1 - (a + 1)) with (npages newsz - 1 - a - 1) by lia. apply slots_step. lia. }
      intros ok s2 (T' & U' & Hr & Hz'). exists T', U'. split.
      * eapply resized_trans; [exact Hs1|done|done|sub|done| |].
        -- eapply keeps_mono; [|exact Hk1]. destruct ok; sub.
        -- eapply resized_mono; [|destruct ok|exact Hr]; [sub|rewrite Hun; sub|done].
      * destruct ok.
        -- eapply zeroed_cons; [lia|done|exact Hz|].
           destruct Hr as (? & ? & _ & _ & _ & _ & _ & Hk2). eapply keeps_mono; [|exact Hk2].
           rewrite Hun. sub.
        -- destruct Hz' as [-> Hl]. split; [done|].
           apply Permutation_length in Hp1. rewrite Hun in Hp1. cbn in Hp1.
           rewrite !length_app, !length_vals in Hp1. cbn in Hp1. rewrite !length_app in Hp1. lia.
Qed.

End Grow.

(** The tables that the page numbers from [a] to [b] can need. *)
Definition ntables (a b : Z) : Z := (b - 1) / 1024 - a / 1024 + 1.

Lemma size_slots a k : -1 <= k -> Z.of_nat (size (slots a k)) = (a + k) / 1024 - a / 1024 + 1.
Proof.
  intros Hk. unfold slots. rewrite size_list_to_set by apply NoDup_seqZ.
  rewrite length_seqZ, Z2Nat.id; [done|]. Z.to_euclidean_division_equations; lia.
Qed.

Lemma tables_bound (T T' : gmap Z Z) (K : gset Z) :
  dom T' ⊆ dom T ∪ K -> (size T' <= size T + size K)%nat.
Proof.
  intros H%subseteq_size. rewrite <- !size_dom. pose proof (size_union_alt (dom T) K) as Hu.
  assert (size (K ∖ dom T) <= size K)%nat by (apply subseteq_size; sub). lia.
Qed.

Lemma allocuvm_run s D T E U X l oldsz newsz :
  KERNBASE < kend -> aspace s D T E U X l -> 0 <= oldsz <= newsz -> newsz < KERNBASE ->
  let a := npages oldsz in let b := npages newsz in
  (forall n, a <= n < b -> U !! n = None) ->
  wp (allocuvm kend argp D oldsz newsz) s (fun r s' => exists T' U',
    resized s s' D T T' E U U' (slots a (b - 1 - a)) (upages U) X l /\
    (r = newsz /\ zeroed (kram s') U U' a b 7 \/
     r = 0 /\ U' = U /\ Z.of_nat (length l) <= b - a + ntables a b)).
Proof.
  intros Hke Hs Ho Hn a b HU. unfold allocuvm. btest (KERNBASE <=? newsz); [lia|].
  btest (newsz <? oldsz); [lia|]. rewrite PGROUNDUP_div by (unfold KERNBASE in *; lia). fold a.
  assert (0 <= a <= b) as Hab
    by (subst a b; unfold npages; Z.to_euclidean_division_equations; lia).
  assert (cut a b U = U) as Hcut.
  { apply map_eq. intros n. rewrite lookup_cut. case_bool_decide; [|done]. symmetry. by apply HU. }
  eapply wp_seq.
  { apply (allocuvm_loop_run D X oldsz newsz U Hke Ho Hn _ s T E U l a); [done|lia|done| |done|done].
    unfold PGSIZE. subst a b. unfold npages. Z.to_euclidean_division_equations; lia. }
  intros ok s' (T' & U' & Hr & H'). apply wp_ret. exists T', U'. fold b in Hr, H'. destruct ok.
  - auto.
  - destruct H' as [-> Hl]. split; [done|]. right. split_and!; [done..|].
    destruct Hr as (? & ? & _ & _ & _ & Hd & _). apply tables_bound in Hd.
    pose proof (size_slots a (b - 1 - a)). unfold ntables.
    replace (a + (b - 1 - a)) with (b - 1) in * by lia. lia.
Qed.

(** ** freevm *)

(** The tables of the slots from [j] on. *)
Definition later (j : Z) (T : gmap Z Z) : gmap Z Z := filter (fun kv => j <= kv.1) T.

Lemma lookup_later j T k : later j T !! k = if bool_decide (j <= k) then T !! k else None.
Proof.
  unfold later. rewrite map_lookup_filter. destruct (T !! k); cbn; case_bool_decide; cbn;
    rewrite ?option_guard_True, ?option_guard_False by tauto; done.
Qed.

Lemma later_step j T :
  vals (later j T) ≡ₚ match T !! j with Some t => [t] | None => [] end ++ vals (later (j + 1) T).
Proof.
  assert (later (j + 1) T !! j = None) as Hn
    by (rewrite lookup_later, bool_decide_eq_false_2 by lia; done).
  destruct (T !! j) as [t|] eqn:Et; cbn [app].
  - rewrite <- vals_insert by done. f_equiv. apply map_eq. intros k. rewrite lookup_later.
    destruct (decide (k = j)) as [->|].
    + rewrite bool_decide_eq_true_2, lookup_insert_eq by lia. done.
    + rewrite lookup_insert_ne, lookup_later by done. repeat case_bool_decide; (done || lia).
  - f_equiv. apply map_eq. intros k. rewrite !lookup_later. repeat case_bool_decide; try (done || lia).
    by assert (k = j) as -> by lia.
Qed.

(** The directory while its tables are being freed. *)
Definition dir_words (m : mem) (D : Z) (T : gmap Z Z) : Prop :=
  forall k, 0 <= k < 1024 ->
    load32 m (D + 4 * k) = match T !! k with Some t => V2P t + 7 | None => 0 end.

Lemma free_table s D T j X l :
  heap s (D :: vals (later j T) ++ X) l -> dir_words (kram s) D T -> 0 <= j < 1024 ->
  wp (let! e := loadw (D + 4 * j) in
      when (nz (Z.land e PTE_P)) (kfree kend argp (P2V (PTE_ADDR e)))) s (fun _ s' => exists l',
    heap s' (D :: vals (later (j + 1) T) ++ X) l' /\ dir_words (kram s') D T /\
    vals (later (j + 1) T) ++ l' ≡ₚ vals (later j T) ++ l /\ keeps X (kram s) (kram s')).
Proof.
  intros Hh Hd Hj. apply wp_bind, wp_gets. rewrite Hd by done.
  pose proof (later_step j T) as Hl. destruct (T !! j) as [t|] eqn:Et; cbn [app] in Hl.
  - apply (heap_perm s _ (t :: D :: vals (later (j + 1) T) ++ X)) in Hh; [|perm].
    assert (page_ok t) as Hp by (eapply heap_page; [done|sub]).
    destruct (page_phys kend t Hp) as (Hv2 & Hm & _). rewrite land_PTE_P, (P2V_page kend) by done.
    replace (nz ((V2P t + 7) mod 2)) with true
      by (symmetry; unfold nz; b2p; Z.to_euclidean_division_equations; lia).
    cbn [when]. eapply wp_mono; [by apply kfree_heap|]. intros [] s' [Hh' Hf]. exists (t :: l).
    assert (t ∉ D :: vals (later (j + 1) T) ++ X) as Hnt.
    { destruct Hh as [_ _ Hn _]. apply NoDup_app in Hn as [Hn _]. by apply NoDup_cons in Hn as [? _]. }
    split_and!; [done| |perm|].
    + intros k Hk. rewrite <- Hd by done. eapply (frame_word kend [t]); [done|..|done].
      * by apply Forall_singleton.
      * eapply heap_page; [exact Hh|sub].
      * sub.
    + eapply heap_keeps; [exact Hh|exact Hf|sub|sub|].
      intros q ->%list_elem_of_singleton. sub.
  - apply wp_ret. exists l. split_and!; [|done|by rewrite Hl|apply keeps_refl].
    eapply heap_perm; [|done]. by rewrite Hl.
Qed.

Lemma freevm_run s D T E U X l :
  KERNBASE < kend -> aspace s D T E U X l ->
  wp (freevm kend argp D) s (fun _ s' => exists l',
    heap s' X l' /\ l' ≡ₚ D :: vals T ++ upages U ++ l /\ keeps X (kram s) (kram s')).
Proof.
  intros Hke Hs. unfold freevm.
  assert (page_ok D) as [HD _] by (destruct Hs as [[Hh _]%vmem_heap _]; eapply heap_page; [done|sub]).
  btest (D =? 0); [lia|].
  eapply wp_seq; [apply deallocuvm_run; [done|exact Hs|unfold KERNBASE; lia|lia]|].
  intros ? s1 [_ (E1 & l1 & [Hv1 Hu1] & Hp1 & _ & Hk1)].
  change (npages 0) with 0 in *. change (npages KERNBASE) with 524288 in *.
  replace (cut 0 524288 U) with (∅ : gmap Z (Z * Z)) in *.
  2: { apply map_eq. intros k. rewrite lookup_cut. case_bool_decide as Hk; [by rewrite lookup_empty|].
       destruct (U !! k) eqn:Eu; [|done]. destruct Hk. by eapply us_dom; [apply Hs|]. }
  change (upages ∅) with (@nil Z) in *. cbn [app] in Hv1, Hp1, Hk1.
  apply vmem_heap in Hv1 as [Hh1 Ht1].
  set (I := fun (j : nat) (s' : kmem) => exists l',
      heap s' (D :: vals (later (Z.of_nat j) T) ++ X) l' /\ dir_words (kram s') D T /\
      vals (later (Z.of_nat j) T) ++ l' ≡ₚ vals T ++ l1 /\ keeps X (kram s) (kram s')).
  apply (wp_seq _ _ _ (fun _ => I NPDENTRIES)).
  { apply (wp_for_indices I); [| |done].
    - intros j s2 Hj (l2 & Hh2 & Hd2 & Hp2 & Hk2).
      eapply wp_mono; [apply free_table; [exact Hh2|done|]|].
      { unfold NPDENTRIES in Hj. lia. }
      unfold I. rewrite Nat2Z.inj_succ, <- Z.add_1_r. intros [] s3 (l3 & Hh3 & Hd3 & Hp3 & Hk3). exists l3.
      split_and!; [done|done|by rewrite Hp3|by eapply keeps_trans].
    - unfold I. replace (later (Z.of_nat 0) T) with T.
      { exists l1. split_and!; [done|exact (tb_dir _ _ _ _ Ht1)|done|done]. }
      apply map_eq. intros k. rewrite lookup_later. case_bool_decide; [done|].
      destruct (T !! k) eqn:Et; [|done]. apply (tb_dom _ _ _ _ Ht1) in Et. lia. }
  intros [] s2 (l2 & Hh2 & _ & Hp2 & Hk2).
  replace (later (Z.of_nat NPDENTRIES) T) with (∅ : gmap Z Z) in *.
  2: { apply map_eq. intros k. rewrite lookup_later, lookup_empty. case_bool_decide; [|done].
       destruct (T !! k) eqn:Et; [|done]. apply (tb_dom _ _ _ _ Ht1) in Et.
       unfold NPDENTRIES in *. lia. }
  change (vals ∅) with (@nil Z) in *. cbn [app] in Hh2, Hp2.
  eapply wp_mono; [by apply kfree_heap|]. intros [] s3 [Hh3 Hf3]. exists (D :: l2).
  split_and!; [done|perm|]. eapply keeps_trans; [done|].
  eapply heap_keeps; [exact Hh2|exact Hf3|sub|sub|].
  intros q ->%list_elem_of_singleton HX. destruct Hh2 as [_ _ Hn _].
  apply NoDup_app in Hn as [Hn _]. by apply NoDup_cons in Hn as [? _].
Qed.

End User.
