(* ===== verification/VmSwitch.v ===== *)
(** * Switching address spaces

    What [switchuvm] leaves in the CPU, and that it leaves the memory alone. *)
From S2P Require Import Prelude Str Spinlock Kalloc Vm VmTables VmUser.

Section Switch.
Context (kend f0 : Z) (i : nat) (dd : Z) (tsaddr : nat -> Z).

Lemma on_mach_ret {A} (c : M machine A) m lk ul fl kp hs a m' :
  c m = Ret a m' ->
  on_mach c (mkkvm (mkkmem m lk ul fl) kp hs) = Ret a (mkkvm (mkkmem m' lk ul fl) kp hs).
Proof. intros H. unfold on_mach, zoom. cbn [kmm mach]. by rewrite H. Qed.

(** The CPU after [switchuvm] to a process with this stack and directory. *)
Definition switched (kstack pgdir : Z) (h : hart) : hart :=
  lcr3 (V2P pgdir)
    (ltr 40
       (set_iomb 65535
          (set_esp0 (u32 (kstack + KSTACKSIZE))
             (set_ss0 16 (set_gdt SEG_TSS (set_seg_s 0 (SEG16 STS_T32A (tsaddr i) 103 0)) h))))).

Lemma switchuvm_run kstack pgdir s h :
  idle f0 i dd (kmm s) -> harts s !! i = Some h -> (SEG_TSS < length (gdt h))%nat ->
  kstack <> 0 -> pgdir <> 0 ->
  exists m', switchuvm tsaddr (Some (kstack, pgdir)) s =
    Ret tt (mkkvm (mkkmem m' (klock (kmm s)) (use_lock (kmm s)) (freelist (kmm s))) (kpgdir s)
              (<[i := switched kstack pgdir h]> (harts s))) /\
    nested f0 (kram (kmm s)) i dd m'.
Proof.
  destruct s as [[m lk ul fl] kp hs]. cbn [kmm harts kpgdir klock use_lock freelist].
  intros (Hn & Hl & Hd) Hh Hg Hks Hpg. change (kram _) with (ram m) in *. cbn [mach klock] in Hn, Hl.
  assert (0 <= dd) by (destruct Hn as (_ & ? & _ & _ & ? & _); lia).
  destruct (nested_push _ _ _ _ _ Hn ltac:(lia)) as (m1 & E1 & Hn1).
  destruct (nested_pop _ _ _ _ _ Hn1 ltac:(lia)) as (m2 & E2 & Hn2).
  replace (dd + 1 - 1) with dd in Hn2 by lia. exists m2. split; [|done].
  destruct (nested_cpu _ _ _ _ _ Hn1) as [c Hc]. pose proof (nested_off _ _ _ _ _ Hn1 ltac:(lia)) as Hoff.
  set (st := fun hs => mkkvm (mkkmem m1 lk ul fl) kp hs).
  assert (forall f hs h, hs !! i = Some h -> hart_set f (st hs) = Ret tt (st (<[i := f h]> hs))) as Hset.
  { intros f l x Hx. unfold hart_set, st. rewrite (bind_ret _ _ _ _ _ (on_mach_ret _ _ _ _ _ _ _ _ _ (mycpu_run _ _ _ Hc Hoff))).
    unfold modify, set_harts. cbn. by rewrite (list_insert_alter _ _ _ _ Hx). }
  assert (forall f hs h, hs !! i = Some h -> on_hart f (st hs) = Ret tt (st (<[i := f h]> hs))) as Hon.
  { intros f l x Hx. unfold on_hart, st, bind, gets. cbn [kmm mach]. rewrite (proj1 Hc).
    unfold modify, set_harts. cbn. by rewrite (list_insert_alter _ _ _ _ Hx). }
  unfold switchuvm. rewrite (proj2 (Z.eqb_neq kstack 0) Hks), (proj2 (Z.eqb_neq pgdir 0) Hpg).
  rewrite (bind_ret _ _ _ _ _ (on_mach_ret _ _ _ _ _ _ _ _ _ E1)).
  rewrite (bind_ret _ _ _ _ _ (on_mach_ret _ _ _ _ _ _ _ _ _ (mycpu_run _ _ _ Hc Hoff))).
  change (mkkvm (mkkmem m1 lk ul fl) kp hs) with (st hs).
  rewrite (bind_ret _ _ _ _ _ (Hset _ _ _ Hh)).
  do 4 (erewrite (bind_ret _ _ _ _ _ (Hset _ _ _ (lookup_upd _ _ _ _ Hh))); rewrite list_insert_insert_eq).
  do 2 (erewrite (bind_ret _ _ _ _ _ (Hon _ _ _ (lookup_upd _ _ _ _ Hh))); rewrite list_insert_insert_eq).
  unfold st. rewrite (on_mach_ret _ _ _ _ _ _ _ _ _ E2). do 3 f_equal. unfold switched.
  change (gdt (set_gdt SEG_TSS ?g h)) with (<[SEG_TSS := g]> (gdt h)).
  rewrite list_lookup_insert_eq by done. unfold set_gdt. cbn. rewrite list_insert_insert_eq. done.
Qed.

(** The free pages and the pages in use do not change. *)
Lemma heap_mach s X l m' :
  heap kend f0 i dd s X l -> nested f0 (kram s) i dd m' ->
  heap kend f0 i dd (mkkmem m' (klock s) (use_lock s) (freelist s)) X l /\
  kram (mkkmem m' (klock s) (use_lock s) (freelist s)) = kram s.
Proof.
  intros [[Hc Hk] (Hn & Hl & Hd) Hx Hp] Hm. pose proof (proj1 Hm) as Hr. split; [|exact Hr].
  split; [|split; [|done]|done|done].
  - split; [|done]. change (chain (ram m') (freelist s) l). by rewrite Hr.
  - change (nested f0 (ram m') i dd m'). by rewrite Hr.
Qed.

End Switch.
