(* ===== verification/VmKern.v ===== *)
(** * The kernel's mappings

    [setupkvm] gives every address space the same upper half.  [kern_pte] says
    what that half is, address by address; the table [kmaps] and the calls of
    [mappages] are shown to produce it. *)
From S2P Require Import Prelude Str Spinlock Kalloc Vm VmTables VmUser.

Section Kern.
Context (kend argp kdata f0 : Z) (i : nat) (d : Z).

(** kernel.ld puts [data] on a page boundary, after the text. *)
Definition kdata_ok : Prop :=
  kdata mod 4096 = 0 /\ KERNLINK < kdata < KERNBASE + PHYSTOP.

(** The entry of the page of [va] in every address space, above the user's part:
    physical memory from [KERNBASE] on, with the text read-only, and devices. *)
Definition kern_pte (va : Z) : Z :=
  if (KERNBASE <=? va) && (va <? KERNBASE + PHYSTOP) then
    PGROUNDDOWN va - KERNBASE + (if (KERNLINK <=? va) && (va <? kdata) then 1 else 3)
  else if (DEVSPACE <=? va) && (va <? 4294967296) then PGROUNDDOWN va + 3
  else 0.

Abbreviation vmem := (vmem kend f0 i d).
Abbreviation heap := (heap kend f0 i d).
Abbreviation aspace := (aspace kend f0 i d).

(** One row of the table, as [mappages] maps it. *)
Definition row_map (E : Z -> Z) (k : kmap) : Z -> Z :=
  mapped E (virt k / 4096) (u32 (phys_end k - phys_start k) / 4096) (phys_start k) (kperm k).

Definition kern_space : Z -> Z := fold_left row_map (kmaps kdata) (fun _ => 0).

Lemma kern_space_pte (Hk : kdata_ok) n :
  0 <= n < 1048576 -> kern_space n = kern_pte (4096 * n).
Proof.
  destruct Hk as [Hm Hr]. intros Hn. unfold kern_space, kmaps, row_map. cbn [fold_left virt phys_end phys_start kperm].
  unfold kern_pte. rewrite PGROUNDDOWN_div.
  replace (4096 * n / 4096) with n by (Z.to_euclidean_division_equations; lia).
  unfold V2P, KERNLINK, DEVSPACE, KERNBASE, EXTMEM, PHYSTOP, mapped in *.
  change (Z.lor PTE_W PTE_P) with 3. change (Z.lor 0 PTE_P) with 1.
  rewrite !(u32_small (_ - 2147483648)) by lia.
  set (q := kdata / 4096) in *. assert (kdata = 4096 * q) as Hq by (Z.to_euclidean_division_equations; lia).
  replace (u32 (234881024 - (kdata - 2147483648)) / 4096) with (581632 - q)
    by (rewrite u32_small by lia; Z.to_euclidean_division_equations; lia).
  replace (u32 (kdata - 2147483648 - (2147483648 + 1048576 - 2147483648)) / 4096) with (q - 524544)
    by (rewrite u32_small by lia; Z.to_euclidean_division_equations; lia).
  change (4261412864 / 4096) with 1040384. change (u32 (0 - 4261412864) / 4096) with 8192.
  change ((2147483648 + 1048576) / 4096) with 524544. change (2147483648 / 4096) with 524288.
  change (u32 (1048576 - 0) / 4096) with 256. clearbody q. split_tests.
Qed.

(** The directory slots of the kernel's half. *)
Definition kern_slots : gset Z := slots 524288 57343 ∪ slots 1040384 8191.

Lemma size_kern_slots : (size kern_slots <= 64)%nat.
Proof. vm_compute. lia. Qed.

(** An empty directory. *)
Lemma vmem_empty s D X l :
  heap (set_kram (memset (kram s) D 0 PGSIZE) s) (D :: X) l ->
  vmem (set_kram (memset (kram s) D 0 PGSIZE) s) D ∅ (fun _ => 0) X l.
Proof.
  intros Hh. apply vmem_heap. split; [done|]. split.
  - intros k Hk. by apply load_memset_zero.
  - by intros k t.
  - done.
Qed.

Lemma uspace_empty E : (forall n, 0 <= n < 524288 -> E n = 0) -> uspace E ∅.
Proof. by intros H; split. Qed.

(** A row of [n] pages of the kernel's half. *)
Definition row_ok (k : kmap) (n : Z) : Prop :=
  virt k mod 4096 = 0 /\ phys_start k mod 4096 = 0 /\
  u32 (phys_end k - phys_start k) = 4096 * n /\ 0 < n /\
  KERNBASE <= virt k /\ virt k + 4096 * n <= 4294967296 /\
  0 <= phys_start k /\ phys_start k + 4096 * (n - 1) < 4294967296 /\
  0 <= kperm k < 4096 /\ slots (virt k / 4096) (n - 1) ⊆ kern_slots.

Lemma kern_slots_in a n :
  0 < n -> 524288 <= a /\ a + n <= 581632 \/ 1040384 <= a /\ a + n <= 1048576 ->
  slots a (n - 1) ⊆ kern_slots.
Proof.
  intros Hn H x Hx%elem_of_slots. apply elem_of_union. rewrite !elem_of_slots.
  Z.to_euclidean_division_equations; lia.
Qed.

Lemma rows_ok (Hk : kdata_ok) :
  let row v a b p n := row_ok (mkkmap v a b p) n in
  row KERNBASE 0 EXTMEM PTE_W 256 /\
  row KERNLINK (V2P KERNLINK) (V2P kdata) 0 (kdata / 4096 - 524544) /\
  row kdata (V2P kdata) PHYSTOP PTE_W (581632 - kdata / 4096) /\
  row DEVSPACE DEVSPACE 0 PTE_W 8192.
Proof.
  destruct Hk as [Hm Hr]. intros row. unfold row, row_ok. cbn [virt phys_start phys_end kperm].
  unfold V2P, KERNLINK, DEVSPACE, KERNBASE, EXTMEM, PHYSTOP, PTE_W in *.
  assert (kdata = 4096 * (kdata / 4096)) as Hq by (Z.to_euclidean_division_equations; lia).
  rewrite !(u32_small (_ - 2147483648)) by lia.
  change (2147483648 / 4096) with 524288. change ((2147483648 + 1048576) / 4096) with 524544.
  change (4261412864 / 4096) with 1040384.
  split_and!; try (done || lia || (apply kern_slots_in; lia)).
  2: Z.to_euclidean_division_equations; lia.
  all: rewrite u32_small; lia.
Qed.

(** A row changes no entry but its own. *)
Lemma row_map_other E k n j :
  row_ok k n -> ~ (virt k <= 4096 * j < virt k + 4096 * n) -> row_map E k j = E j.
Proof.
  intros (Hv & _ & Hs & _) Hj. unfold row_map, mapped. rewrite Hs.
  destruct (Z.leb_spec (virt k / 4096) j), (Z.ltb_spec j (virt k / 4096 + 4096 * n / 4096));
    cbn [andb]; try done. destruct Hj. Z.to_euclidean_division_equations; lia.
Qed.

Section Rows.

(** [s0]: the state with the new directory [D] cleared and [l0] free. *)
Context (Hke : KERNBASE < kend) (s0 : kmem) (D : Z) (X l0 : list Z).

Definition building (s : kmem) (E : Z -> Z) : Prop :=
  exists T l, vmem s D T E X l /\ grown s0 s D ∅ T l0 l kern_slots /\ keeps X (kram s0) (kram s).

Definition abandoned (s : kmem) : Prop :=
  (length l0 <= 64)%nat /\
  exists l, heap s X l /\ l ≡ₚ D :: l0 /\ keeps X (kram s0) (kram s).

Lemma row_run s E k n :
  building s E -> (forall j, 0 <= j < 524288 -> E j = 0) ->
  row_ok k n -> (forall j, virt k <= 4096 * j < virt k + 4096 * n -> E j = 0) ->
  wp (let! r := mappages argp D (virt k) (u32 (phys_end k - phys_start k))
                  (phys_start k) (kperm k) in
      if r <? 0 then freevm kend argp D ;; ret (Some 0) else ret None) s
    (fun o s' => match o with
                 | None => building s' (row_map E k) /\
                           (forall j, 0 <= j < 524288 -> row_map E k j = 0)
                 | Some z => z = 0 /\ abandoned s'
                 end).
Proof.
  intros (T & l & Hv & Hg & Hk) Hu (Hvm & Hpm & Hsz & Hn & Ha & Han & Hp0 & Hp1 & Hpe & HK) HE.
  set (a := virt k / 4096) in *. unfold KERNBASE in Ha.
  assert (virt k = 4096 * a) as Hva by (subst a; Z.to_euclidean_division_equations; lia).
  assert (4096 * a / 4096 = a /\ (4096 * a + 4096 * n - 1) / 4096 - a = n - 1) as [Hd1 Hd2]
    by (clearbody a; Z.to_euclidean_division_equations; lia).
  unfold row_map. rewrite Hsz, (Z.mul_comm 4096 n), Z.div_mul, (Z.mul_comm n 4096) by done. fold a.
  assert (forall j m, 0 <= j < 524288 -> mapped E a m (phys_start k) (kperm k) j = 0) as Hlow.
  { intros j m Hj. unfold mapped. destruct (Z.leb_spec a j); [lia|]. by apply Hu. }
  clearbody a.
  eapply wp_seq.
  { apply (mappages_run kend argp f0 i d s D T E X l); [exact Hv|..]; rewrite ?Hva, ?Hd1, ?Hd2; try (done || lia).
    intros j Hj. rewrite HE by lia. done. }
  rewrite Hva, Hd1, Hd2. intros r s' (T' & l' & j & Hv' & Hg' & Hc).
  assert (keeps X (kram s0) (kram s')) as Hk'.
  { eapply keeps_trans; [done|]. eapply vmem_keeps; [exact Hv|]. apply Hg'. }
  assert (grown s0 s' D ∅ T' l0 l' kern_slots) as Hg2 by (eapply grown_trans; [done|done|sub]).
  destruct Hc as [[-> ->]|(-> & Hj & ->)]; cbn [Z.ltb Z.compare].
  - apply wp_ret. replace (n - 1 + 1) with n in Hv' by lia. split; [by exists T', l'|].
    intros. by apply Hlow.
  - eapply wp_seq.
    { apply (freevm_run kend argp f0 i d s' D T' (mapped E a j (phys_start k) (kperm k)) ∅ X [] Hke).
      split; [exact Hv'|]. apply uspace_empty. intros. by apply Hlow. }
    intros [] s2 (l2 & Hh2 & Hp2 & Hk2). apply wp_ret. destruct Hg2 as (Hperm & _ & Hdom & _).
    change (upages ∅) with (@nil Z) in Hp2. change (vals ∅) with (@nil Z) in Hperm.
    split; [done|]. split.
    + apply tables_bound in Hdom. pose proof size_kern_slots. apply Permutation_length in Hperm.
      rewrite length_app, length_vals, map_size_empty in *. cbn in Hperm. lia.
    + exists l2. split_and!; [done|perm|by eapply keeps_trans].
Qed.

(** The pages of a row are not those of an earlier row [R]. *)
Ltac before Hj R :=
  rewrite (row_map_other _ _ _ _ R);
  [try done|cbn; unfold V2P, KERNLINK, DEVSPACE, KERNBASE, EXTMEM, PHYSTOP in *;
   Z.to_euclidean_division_equations; lia].

(** The four rows, one after the other. *)
Lemma rows_run s (Hkd : kdata_ok) :
  building s (fun _ => 0) ->
  wp (for_find (kmaps kdata) (fun k =>
      let! r := mappages argp D (virt k) (u32 (phys_end k - phys_start k))
                  (phys_start k) (kperm k) in
      if r <? 0 then freevm kend argp D ;; ret (Some 0) else ret None)) s
    (fun o s' => match o with
                 | None => building s' kern_space
                 | Some z => z = 0 /\ abandoned s'
                 end).
Proof.
  intros Hb. unfold kern_space, kmaps. cbn [for_find fold_left]. pose proof Hkd as [Hm Hr].
  pose proof (rows_ok Hkd) as (R1 & R2 & R3 & R4).
  eapply wp_seq; [by apply (row_run _ _ _ _ Hb ltac:(done) R1)|].
  intros [?|] s1 H1; [by apply wp_ret|]. destruct H1 as [H1 L1].
  eapply wp_seq; [apply (row_run _ _ _ _ H1 L1 R2); intros j; cbn; intros Hj; before Hj R1|].
  intros [?|] s2 H2; [by apply wp_ret|]. destruct H2 as [H2 L2].
  eapply wp_seq; [apply (row_run _ _ _ _ H2 L2 R3); intros j; cbn; intros Hj; before Hj R2; before Hj R1|].
  intros [?|] s3 H3; [by apply wp_ret|]. destruct H3 as [H3 L3].
  eapply wp_seq; [apply (row_run _ _ _ _ H3 L3 R4); intros j; cbn; intros Hj;
                  before Hj R3; before Hj R2; before Hj R1|].
  intros [?|] s4 H4; [by apply wp_ret|]. apply wp_ret. apply H4.
Qed.

End Rows.

Lemma kern_pte_user n : 0 <= n < 524288 -> kern_pte (4096 * n) = 0.
Proof.
  intros. unfold kern_pte, DEVSPACE, KERNBASE.
  destruct (Z.leb_spec 2147483648 (4096 * n)), (Z.leb_spec 4261412864 (4096 * n)); cbn [andb]; (done || lia).
Qed.

Lemma setupkvm_run s X l :
  KERNBASE < kend -> kdata_ok -> heap s X l ->
  wp (setupkvm kend argp kdata) s (fun D s' =>
    D = 0 /\ (length l <= 65)%nat /\
      (exists l', heap s' X l' /\ l' ≡ₚ l /\ keeps X (kram s) (kram s')) \/
    D <> 0 /\ exists T l',
      aspace s' D T (fun n => kern_pte (4096 * n)) ∅ X l' /\ D :: vals T ++ l' ≡ₚ l /\
      dom T ⊆ kern_slots /\ keeps X (kram s) (kram s')).
Proof.
  intros Hke Hkd Hh. unfold setupkvm. eapply wp_seq; [by apply kalloc_heap|].
  intros r s1 [Hr1 H]. destruct l as [|D l].
  { destruct H as [-> Hh1]. apply wp_ret. left. split_and!; [done|cbn; lia|].
    exists []. rewrite Hr1. split_and!; [done|done|apply keeps_refl]. }
  destruct H as (-> & HD & Hh1). btest (D =? 0); [done|].
  apply wp_bind, wp_modify. set (s2 := set_kram _ s1).
  assert (frame [D] (kram s1) (kram s2)) as Hf2 by (apply frame_memset; sub).
  assert (heap s2 (D :: X) l) as Hh2 by (eapply heap_touch; [exact Hh1|exact Hf2|sub]).
  assert (keeps X (kram s) (kram s2)) as Hk2.
  { rewrite <- Hr1. eapply heap_keeps; [exact Hh1|exact Hf2|sub|sub|].
    intros q ->%list_elem_of_singleton HX. destruct Hh1 as [_ _ Hn _].
    apply NoDup_app in Hn as [Hn _]. by apply NoDup_cons in Hn as [? _]. }
  change (DEVSPACE <? P2V PHYSTOP) with false. apply wp_bind, wp_ret.
  eapply wp_seq; [apply (rows_run Hke s2 D X l); [done|]|].
  - exists ∅, l. split_and!; [by apply vmem_empty| |apply keeps_refl].
    split_and!; [done|done|sub|apply frame_refl].
  - intros [z|] s3; cbn [default].
    + intros [-> (Hl & l3 & Hh3 & Hp3 & Hk3)]. apply wp_ret. left. split_and!; [done|cbn; lia|].
      exists l3. split_and!; [done|done|by eapply keeps_trans].
    + intros (T & l3 & Hv3 & (Hp3 & _ & Hd3 & _) & Hk3). apply wp_ret. right. split; [done|].
      exists T, l3. split_and!; [|by rewrite Hp3|sub|by eapply keeps_trans].
      split; [|apply uspace_empty; apply kern_pte_user].
      eapply vmem_ext; [|exact Hv3]. intros j Hj. by apply kern_space_pte.
Qed.

End Kern.
