(* ===== verification/VmCopy.v ===== *)
(** * Copying address spaces

    [copyuvm] builds a second address space beside the first one: the pages of
    either are among the other pages of the other, so what the invariant says
    of one holds while the code works on the other.  [copyout] writes through
    a page table into the frames behind it. *)
From S2P Require Import Prelude Str Spinlock Kalloc Vm VmTables VmUser VmKern.

Lemma keeps_word P m m' q k :
  keeps P m m' -> q ∈ P -> 0 <= k < 1024 -> load32 m' (q + 4 * k) = load32 m (q + 4 * k).
Proof.
  intros Hk Hq Hr. apply load32_ext. intros j Hj.
  rewrite <- !Z.add_assoc. apply Hk; [done|]. unfold PGSIZE. lia.
Qed.

Lemma tables_keeps m m' D T E :
  tables m D T E -> keeps (D :: vals T) m m' -> tables m' D T E.
Proof.
  intros [Hd Hk He] Hp. split; [|done|].
  - intros k Hr. rewrite <- Hd by done. eapply keeps_word; [done|sub|done].
  - intros n Hn. rewrite <- He by done. unfold entry. destruct (T !! (n / 1024)) as [t|] eqn:Et; [|done].
    eapply keeps_word; [done| |by apply Z.mod_pos_bound].
    apply list_elem_of_further, elem_of_vals. eauto.
Qed.

Section Copy.
Context (kend argp kdata f0 : Z) (i : nat) (d : Z).

Abbreviation vmem := (vmem kend f0 i d).
Abbreviation heap := (heap kend f0 i d).
Abbreviation aspace := (aspace kend f0 i d).
Abbreviation resized := (resized kend f0 i d).

Lemma lor_odd f : 0 <= f -> f mod 2 = 1 -> Z.lor f PTE_P = f.
Proof.
  intros Hf H. apply Z.bits_inj'. intros k Hk. rewrite Z.lor_spec.
  destruct (decide (k = 0)) as [->|].
  - rewrite Z.bit0_odd, Zodd_mod, H. done.
  - change PTE_P with (2 ^ 0). rewrite (Z.pow2_bits_false 0 k) by lia. apply orb_false_r.
Qed.

(** The address space [D0] whose pages are among those in use beside [D]. *)
Lemma other_space s D T E X l D0 T0 E0 Y :
  vmem s D T E X l -> X ≡ₚ D0 :: vals T0 ++ Y -> tables (kram s) D0 T0 E0 ->
  vmem s D0 T0 E0 (D :: vals T ++ Y) l.
Proof.
  intros [Hh _]%vmem_heap HX Ht. apply vmem_heap. split; [|done].
  eapply heap_perm; [|exact Hh]. rewrite HX. perm.
Qed.

(** [U'] has the page numbers from [a] to [b] with the flags and the bytes that
    they have in [U0], and is [U] elsewhere. *)
Definition copied (m : mem) (U0 U U' : gmap Z (Z * Z)) (a b : Z) : Prop :=
  forall n, if bool_decide (a <= n < b)
            then exists p q f, U0 !! n = Some (p, f) /\ U' !! n = Some (q, f) /\
                   forall k, 0 <= k < PGSIZE -> m (q + k) = m (p + k)
            else U' !! n = U !! n.

Lemma copied_cons m m' U0 U U' a b p q f :
  a < b -> U0 !! a = Some (p, f) -> copied m' U0 (<[a := (q, f)]> U) U' (a + 1) b ->
  (forall k, 0 <= k < PGSIZE -> m (q + k) = m (p + k)) -> keeps [p; q] m m' ->
  copied m' U0 U U' a b.
Proof.
  intros Hab H0 Hc Hp Hk n. specialize (Hc n). destruct (decide (n = a)) as [->|Hne].
  - rewrite bool_decide_eq_false_2 in Hc by lia. rewrite bool_decide_eq_true_2 by lia.
    exists p, q, f. rewrite Hc, lookup_insert_eq. split_and!; [done|done|]. intros k Hr.
    rewrite !Hk by (done || sub). by apply Hp.
  - repeat case_bool_decide; try lia; [done|]. by rewrite lookup_insert_ne in Hc.
Qed.

Section Loop.

(** The parent: [D0], [T0], [E0], [U0]; the child's directory: [D]. *)
Context (Hke : KERNBASE < kend) (D0 D : Z) (T0 : gmap Z Z) (E0 : Z -> Z) (U0 : gmap Z (Z * Z)).
Context (Y : list Z) (sz : Z) (Hsz : 0 <= sz <= KERNBASE) (HU0 : uspace E0 U0).
Context (Hall : forall n, 0 <= n < npages sz -> is_Some (U0 !! n)).

Let X := D0 :: vals T0 ++ upages U0 ++ Y.

Definition copy_post (s s' : kmem) T E U l a (ok : bool) : Prop :=
  exists T' U',
    resized s s' D T T' E U U' (slots a (npages sz - 1 - a)) (upages U) X l /\
    if ok then copied (kram s') U0 U U' a (npages sz)
    else Z.of_nat (length l + size T) <= npages sz - a + Z.of_nat (size T').

(** The parent's entry for a page that it has. *)
Lemma parent_entry s T E U l n p f :
  aspace s D T E U X l -> tables (kram s) D0 T0 E0 -> 0 <= n < 524288 -> U0 !! n = Some (p, f) ->
  page_ok kend p /\ 0 <= f < 4096 /\ f mod 2 = 1 /\ p ∈ X /\
  exists t, walkpgdir argp D0 (4096 * n) false s = Ret t s /\ t <> 0 /\ load32 (kram s) t = V2P p + f.
Proof.
  intros [Hv Hu] Ht Hn HU. destruct (us_flags _ _ HU0 _ _ _ HU) as [Hf Hf1].
  assert (p ∈ X) as Hin.
  { apply list_elem_of_further, elem_of_app. right. apply elem_of_app. left. apply elem_of_upages. eauto. }
  assert (page_ok kend p) as Hp by (eapply vmem_page; [exact Hv|sub]).
  split_and!; [done|lia|lia|done|done|].
  assert (vmem s D0 T0 E0 (upages U0 ++ D :: vals T ++ Y ++ upages U) l) as Hv0.
  { eapply vmem_perm, (other_space _ _ _ _ _ _ _ _ _ (upages U0 ++ Y ++ upages U) Hv); [perm| |done].
    unfold X. perm. }
  assert (4096 * n / 4096 = n) as Hdiv by (Z.to_euclidean_division_equations; lia).
  pose proof (us_entry _ _ HU0 n Hn) as He. rewrite HU in He.
  destruct (T0 !! (n / 1024)) as [t|] eqn:Et.
  - exists (t + 4 * (n mod 1024)). split_and!.
    + eapply walk_found in Hv0; [rewrite Hdiv in Hv0; exact Hv0|lia|by rewrite Hdiv].
    + assert (page_ok kend t) as [? _].
      { eapply vmem_page; [exact Hv|]. apply elem_of_app. right. apply list_elem_of_further, elem_of_app.
        left. apply elem_of_vals. eauto. }
      pose proof (Z.mod_pos_bound n 1024 ltac:(done)). lia.
    + rewrite <- He. eapply vmem_read; [exact Hv0|lia|done].
  - exfalso. assert (U0 !! n = None) as HN; [|congruence].
    eapply user_entry; [split; [exact Hv0|done]|done|done].
Qed.

(** One page of the loop. *)
Lemma copy_step s T E U l a (K : M kmem bool) (Q : bool -> kmem -> Prop) :
  aspace s D T E U X l -> tables (kram s) D0 T0 E0 -> 0 <= a < npages sz -> U !! a = None ->
  (forall s' T', resized s s' D T T' E U U (slots a 0) (upages U) X l ->
     (length l + size T <= 1 + size T')%nat -> Q false s') ->
  (forall s' T' E' l' p q f,
     U0 !! a = Some (p, f) -> p ∈ X ->
     aspace s' D T' E' (<[a := (q, f)]> U) X l' ->
     vals T' ++ upages (<[a := (q, f)]> U) ++ l' ≡ₚ vals T ++ upages U ++ l -> T ⊆ T' ->
     dom T' ⊆ dom T ∪ slots a 0 ->
     (forall n, 524288 <= n < 1048576 -> E' n = E n) ->
     keeps (upages U ++ X) (kram s) (kram s') ->
     (forall k, 0 <= k < PGSIZE -> kram s' (q + k) = kram s' (p + k)) -> wp K s' Q) ->
  wp (let! pte := walkpgdir argp D0 (4096 * a) false in
      if pte =? 0 then panic "copyuvm: pte should exist"
      else
        let! e := loadw pte in
        if negb (nz (Z.land e PTE_P)) then panic "copyuvm: page not present"
        else
          let pa := PTE_ADDR e in
          let flags := PTE_FLAGS e in
          let! mem := kalloc argp in
          if mem =? 0 then ret false
          else
            kmemmove mem (P2V pa) PGSIZE ;;
            let! r := mappages argp D (4096 * a) PGSIZE (V2P mem) flags in
            if r <? 0 then kfree kend argp mem ;; ret false else K) s Q.
Proof.
  intros Hs Ht0 Ha HUa Hfail Hok.
  assert (npages sz <= 524288) as Hb
    by (unfold npages, KERNBASE in *; Z.to_euclidean_division_equations; lia).
  destruct (Hall a Ha) as [[p f] HUp].
  destruct (parent_entry s T E U l a p f Hs Ht0 ltac:(lia) HUp) as (Hpp & Hf & Hf1 & HpX & t & Hw & Ht & He).
  eapply wp_bind, wp_of; [exact Hw|]. btest (t =? 0); [done|]. apply wp_bind, wp_gets. rewrite He.
  destruct (page_phys kend p Hpp) as (Hv2 & Hm & _).
  assert (nz (Z.land (V2P p + f) PTE_P) = true) as ->.
  { rewrite land_PTE_P. unfold nz. b2p. Z.to_euclidean_division_equations; lia. }
  cbn [negb]. cbv zeta. rewrite (P2V_page kend p f), PTE_FLAGS_sum by (done || by rewrite Hv2).
  destruct Hs as [Hv Hu].
  eapply wp_seq; [by apply vmem_kalloc|]. intros r s1 [Hr1 H]. destruct l as [|q l].
  { destruct H as [-> Hv1]. cbn [Z.eqb]. apply wp_ret, (Hfail s1 T); [|cbn; lia].
    apply resized_same; [done|by split]. }
  destruct H as (-> & Hq0 & Hv1). btest (q =? 0); [done|].
  apply wp_bind, wp_modify. set (s2 := set_kram _ s1).
  assert (frame [q] (kram s1) (kram s2)) as Hf2.
  { intros x Hx. change (kram s2) with (memmove (kram s1) q p PGSIZE).
    by rewrite memmove_at, (Hx q ltac:(sub)) by done. }
  assert (vmem s2 D T E (q :: upages U ++ X) l) as Hv2'
    by (eapply vmem_touch; [exact Hv1|exact Hf2|sub]).
  assert (keeps (upages U ++ X) (kram s) (kram s2)) as Hk2.
  { rewrite <- Hr1. by eapply (vmem_keeps_app _ _ _ _ _ _ _ _ [q]). }
  eapply wp_seq; [apply place_page; [exact Hv2'|done|lia|done|done]|].
  rewrite lor_odd by lia. intros r s3 (T' & l' & (Hp & Ht' & Hd & Hf3) & Hcase).
  apply (vmem_keeps _ _ _ _ _ _ _ _ _ _ _ Hv2') in Hf3.
  assert (keeps (upages U ++ X) (kram s) (kram s3)) as Hk3.
  { eapply keeps_trans; [done|]. eapply keeps_mono; [|done]. sub. }
  destruct Hcase as [[-> Hs3]|(-> & -> & [Hv3 Hu3])]; cbn [Z.ltb Z.compare].
  - eapply Hok; [exact HUp|done|exact Hs3| |done|done| |done|].
    + rewrite upages_insert by done. perm.
    + intros j Hj. unfold upd. btest (j =? a); [lia|done].
    + intros k Hk. rewrite (Hf3 q k), (Hf3 p k), (Hk2 p k), <- Hr1 by (done || sub).
      change (kram s2) with (memmove (kram s1) q p PGSIZE). rewrite memmove_at by done.
      assert (within (q + k) q PGSIZE = true) as -> by (unfold within; b2p; lia). f_equal. lia.
  - eapply wp_seq; [apply vmem_kfree; eapply vmem_perm; [|exact Hv3]; by rewrite <- Permutation_middle|].
    intros [] s4 [Hv4 Hk4]. apply wp_ret, (Hfail s4 T').
    + exists E, [q]. split_and!; [by split|perm|done|done|done|by eapply keeps_trans].
    + apply Permutation_length in Hp. rewrite !length_app, !length_vals in Hp. cbn in Hp |- *. lia.
Qed.

Lemma copyuvm_loop_run fuel : forall s T E U l a,
  aspace s D T E U X l -> tables (kram s) D0 T0 E0 -> 0 <= a -> npages sz - a <= Z.of_nat fuel ->
  (forall n, a <= n < npages sz -> U !! n = None) ->
  wp (copyuvm_loop kend argp fuel D D0 (4096 * a) sz) s
     (fun ok s' => copy_post s s' T E U l a ok).
Proof.
  induction fuel as [|fuel IH]; intros s T E U l a Hs Ht0 Ha Hf HU.
  all: assert (npages sz <= 524288 /\ (4096 * a < sz <-> a < npages sz)) as [Hb Hab]
    by (unfold KERNBASE, npages in *; Z.to_euclidean_division_equations; lia).
  all: cbn [copyuvm_loop]; btest (4096 * a <? sz);
    [|apply wp_ret; exists T, U; split; [by apply resized_same|];
      intros n; case_bool_decide; [lia|done]].
  { lia. }
  eapply copy_step; [exact Hs|done|lia|apply HU; lia| |].
  - intros s' T' H' Hl. exists T', U. split; [|lia].
    eapply resized_mono; [|reflexivity|exact H']. intros x Hx. apply elem_of_slots.
    apply elem_of_slots in Hx. Z.to_euclidean_division_equations; lia.
  - intros s1 T1 E1 l1 p q f HUp HpX Hs1 Hp1 Ht1 Hd1 He1 Hk1 Hz. unfold PGSIZE.
    rewrite u32_small by lia. replace (4096 * a + 4096) with (4096 * (a + 1)) by lia.
    set (Un := <[a := (q, f)]> U) in *.
    eapply wp_mono; [apply IH; [exact Hs1| |lia..|]|].
    + eapply tables_keeps; [exact Ht0|]. eapply keeps_mono; [|exact Hk1]. unfold X. sub.
    + intros n Hn'. unfold Un. rewrite lookup_insert_ne by lia. apply HU. lia.
    + assert (upages Un ≡ₚ q :: upages U) as Hun by (apply upages_insert, HU; lia).
      pose proof (slots_step a (npages sz - 1 - a) ltac:(lia)) as Hsl.
      replace (npages sz - 1 - a - 1) with (npages sz - 1 - (a + 1)) in Hsl by lia.
      intros ok s2 (T' & U' & Hr & Hz'). exists T', U'. split.
      * eapply resized_trans; [exact Hs1|done|done|sub|done|exact Hk1|].
        eapply resized_mono; [| |exact Hr]; [sub|rewrite Hun; sub].
      * destruct Hr as (? & ? & _ & _ & _ & _ & _ & Hk2). destruct ok.
        -- eapply copied_cons; [lia|done|done|exact Hz|]. eapply keeps_mono; [|exact Hk2].
           rewrite Hun. intros y [->|[->|[]%elem_of_nil]%elem_of_cons]%elem_of_cons; sub.
        -- apply Permutation_length in Hp1. rewrite Hun in Hp1. cbn in Hp1.
           rewrite !length_app, !length_vals in Hp1. cbn in Hp1. rewrite !length_app in Hp1. lia.
Qed.

End Loop.

(** An address space survives what keeps its pages. *)
Lemma space_kept s s' D T E U X l l' :
  aspace s D T E U X l -> heap s' (D :: vals T ++ upages U ++ X) l' ->
  keeps (D :: vals T ++ upages U ++ X) (kram s) (kram s') -> aspace s' D T E U X l'.
Proof.
  intros [[_ Ht]%vmem_heap Hu] Hh Hk. split; [|done]. apply vmem_heap. split; [done|].
  eapply tables_keeps; [exact Ht|]. eapply keeps_mono; [|exact Hk]. sub.
Qed.

Lemma space_beside s s' D T E U X l D' T' E' U' l' :
  aspace s D T E U X l -> aspace s' D' T' E' U' (D :: vals T ++ upages U ++ X) l' ->
  keeps (D :: vals T ++ upages U ++ X) (kram s) (kram s') ->
  aspace s' D T E U (D' :: vals T' ++ upages U' ++ X) l'.
Proof.
  intros [[_ Ht]%vmem_heap Hu] [[Hh _]%vmem_heap _] Hk. split; [|done]. apply vmem_heap. split.
  - eapply heap_perm; [|exact Hh]. perm.
  - eapply tables_keeps; [exact Ht|]. eapply keeps_mono; [|exact Hk]. sub.
Qed.

Lemma copyuvm_run s D T E U X l sz :
  KERNBASE < kend -> kdata_ok kdata -> aspace s D T E U X l -> 0 <= sz <= KERNBASE ->
  (forall n, 0 <= n < npages sz -> is_Some (U !! n)) ->
  wp (copyuvm kend argp kdata D sz) s (fun D' s' =>
    D' = 0 /\ Z.of_nat (length l) <= 65 + npages sz + ntables 0 (npages sz) /\
      (exists l', aspace s' D T E U X l' /\ l' ≡ₚ l /\
         keeps (D :: vals T ++ upages U ++ X) (kram s) (kram s')) \/
    D' <> 0 /\ exists T' E' U' l',
      aspace s' D' T' E' U' (D :: vals T ++ upages U ++ X) l' /\
      (forall n, 524288 <= n < 1048576 -> E' n = kern_pte kdata (4096 * n)) /\
      D' :: vals T' ++ upages U' ++ l' ≡ₚ l /\
      aspace s' D T E U (D' :: vals T' ++ upages U' ++ X) l' /\
      keeps (D :: vals T ++ upages U ++ X) (kram s) (kram s') /\
      copied (kram s') U ∅ U' 0 (npages sz)).
Proof.
  intros Hke Hkd Hs Hsz Hall. pose proof Hs as [[Hh Ht]%vmem_heap Hu]. unfold copyuvm.
  assert (0 <= npages sz) by (unfold npages; Z.to_euclidean_division_equations; lia).
  assert (0 <= ntables 0 (npages sz)) by (unfold ntables; Z.to_euclidean_division_equations; lia).
  eapply wp_seq; [by apply setupkvm_run|].
  intros D' s1 [(-> & Hl & l1 & Hh1 & Hp1 & Hk1)|(HD & T1 & l1 & Hs1 & Hp1 & Hd1 & Hk1)].
  - apply wp_ret. left. split_and!; [done|lia|]. exists l1. split_and!; [by eapply space_kept|done|done].
  - btest (D' =? 0); [done|].
    assert (tables (kram s1) D T E) as Ht1.
    { eapply tables_keeps; [exact Ht|]. eapply keeps_mono; [|exact Hk1]. sub. }
    eapply wp_seq.
    { apply (copyuvm_loop_run D D' T E U X sz Hsz Hu Hall _ s1 T1 _ ∅ l1 0 Hs1 Ht1); [lia| |done].
      unfold npages, PGSIZE. Z.to_euclidean_division_equations; lia. }
    intros ok s2 (T2 & U2 & (E2 & l2 & Hs2 & Hp2 & _ & Hd2 & He2 & Hk2) & Hc).
    change (upages ∅) with (@nil Z) in *. cbn [app] in Hk2, Hp2.
    apply (keeps_trans _ _ _ _ Hk1) in Hk2. destruct ok.
    + apply wp_ret. right. split; [done|]. exists T2, E2, U2, l2.
      split_and!; [exact Hs2|done|perm| |exact Hk2|done].
      eapply space_beside; [exact Hs|exact Hs2|exact Hk2].
    + eapply wp_seq; [eapply freevm_run; [done|exact Hs2]|].
      intros [] s3 (l3 & Hh3 & Hp3 & Hk3). apply (keeps_trans _ _ _ _ Hk2) in Hk3.
      apply wp_ret. left. split_and!; [done| |].
      * apply tables_bound in Hd2. pose proof (size_slots 0 (npages sz - 1 - 0) ltac:(lia)) as Hss.
        pose proof size_kern_slots. apply subseteq_size in Hd1. rewrite size_dom in Hd1.
        apply Permutation_length in Hp1. cbn in Hp1. rewrite length_app, length_vals in Hp1.
        unfold ntables. replace (0 + (npages sz - 1 - 0)) with (npages sz - 1) in Hss by lia. lia.
      * exists l3. split_and!; [by eapply space_kept|perm|done].
Qed.

(** ** copyout *)

Definition user_ok (f : Z) : bool := nz (Z.land f PTE_U).

(** What [uva2ka] answers for a page that the user has. *)
Lemma uva2ka_run s D T E U X l n p f :
  aspace s D T E U X l -> 0 <= n < 524288 -> U !! n = Some (p, f) ->
  uva2ka argp D (4096 * n) s = Ret (if user_ok f then p else 0) s.
Proof.
  intros Hs Hn HU. pose proof Hs as [Hv Hu]. destruct (us_flags _ _ Hu _ _ _ HU) as [Hf Hf1].
  pose proof (user_page _ _ _ _ _ _ _ _ _ _ _ _ _ _ Hs HU) as Hp.
  destruct (page_phys kend p Hp) as (Hv2 & Hm & _).
  destruct (T !! (n / 1024)) as [t|] eqn:Et; [|by rewrite (user_entry _ _ _ _ _ _ _ _ _ _ _ _ Hs Hn Et) in HU].
  assert (4096 * n / 4096 = n) as Hdiv by (Z.to_euclidean_division_equations; lia).
  unfold uva2ka. erewrite bind_ret; [|eapply walk_found; [exact Hv|lia|by rewrite Hdiv]]. rewrite Hdiv.
  pose proof (table_nonzero _ _ _ _ _ _ _ _ _ _ _ _ _ Hs Et). pose proof (Z.mod_pos_bound n 1024 ltac:(done)).
  btest (t + 4 * (n mod 1024) =? 0); [lia|]. unfold bind, loadw, gets.
  assert (0 <= n < 1048576) as Hn' by lia.
  rewrite (vmem_read _ _ _ _ _ _ _ _ _ _ _ _ Hv Hn' Et), (us_entry _ _ Hu n Hn), HU.
  rewrite !land_flags by (done || by rewrite Hv2). rewrite land_PTE_P, Hf1. cbn [nz Z.eqb negb].
  fold (user_ok f). rewrite (P2V_page kend p f) by done. by destruct (user_ok f).
Qed.

(** Storing [n] bytes at offset [o] of the frame of page number [k]. *)
Lemma ubyte_store s D T E U X l k p f o src n x :
  aspace s D T E U X l -> U !! k = Some (p, f) -> 0 <= o -> 0 <= n -> o + n <= 4096 ->
  ubyte (memmove (kram s) (p + o) src n) U x =
  if (4096 * k + o <=? x) && (x <? 4096 * k + o + n) then Some (kram s (src + (x - (4096 * k + o))))
  else ubyte (kram s) U x.
Proof.
  intros Hs HU Ho Hn Hon. unfold ubyte. pose proof (Z.mod_pos_bound x 4096 ltac:(done)) as Hm.
  assert (x = 4096 * (x / 4096) + x mod 4096) as Hx by (apply Z.div_mod; done).
  destruct (U !! (x / 4096)) as [[q g]|] eqn:Eq.
  - rewrite memmove_at by done. destruct (decide (x / 4096 = k)) as [Ek|Hne].
    + rewrite Ek, HU in Eq. injection Eq as -> ->. rewrite Ek in Hx.
      assert (within (q + x mod 4096) (q + o) n = (4096 * k + o <=? x) && (x <? 4096 * k + o + n)) as ->.
      { unfold within. f_equal; apply eq_true_iff_eq; b2p; lia. }
      case_match; [|done]. do 2 f_equal. lia.
    + assert (within (q + x mod 4096) (p + o) n = false) as ->.
      { apply not_true_is_false. unfold within. b2p. intros Hw. destruct Hne.
        eapply upages_inj; [by eapply user_nodup|exact Eq|].
        rewrite (page_disjoint kend q p (x mod 4096) (q + x mod 4096 - p)); [exact HU|..].
        - by eapply user_page. - by eapply user_page. - done. - unfold PGSIZE; lia. - lia. }
      btest (4096 * k + o <=? x); [|done]. btest (x <? 4096 * k + o + n); [|done].
      destruct Hne. Z.to_euclidean_division_equations; lia.
  - btest (4096 * k + o <=? x); [|done]. btest (x <? 4096 * k + o + n); [|done]. exfalso.
    replace (x / 4096) with k in Eq by (Z.to_euclidean_division_equations; lia). congruence.
Qed.

Lemma copyout_loop_run D T E U X l fuel : forall s va buf len,
  aspace s D T E U X l -> 0 <= va -> 0 <= len -> va + len <= KERNBASE ->
  (forall n, va / 4096 <= n <= (va + len - 1) / 4096 ->
     exists p f, U !! n = Some (p, f) /\ user_ok f = true) ->
  0 <= buf -> buf + len < 4294967296 ->
  (forall x p, buf <= x < buf + len -> p ∈ upages U -> within x p PGSIZE = false) ->
  (0 < len -> (va + len - 1) / 4096 - va / 4096 < Z.of_nat fuel) ->
  wp (copyout_loop argp fuel D va buf len) s (fun r s' =>
    r = 0 /\ aspace s' D T E U X l /\ frame (upages U) (kram s) (kram s') /\
    forall x, ubyte (kram s') U x =
              if (va <=? x) && (x <? va + len) then Some (kram s (buf + (x - va)))
              else ubyte (kram s) U x).
Proof.
  induction fuel as [|fuel IH]; intros s va buf len Hs Hva Hlen Hend Hall Hb Hbl Hbuf Hf.
  all: cbn [copyout_loop]; btest (0 <? len);
    [|apply wp_ret; split_and!; [done|done|apply frame_refl|intros x; split_tests; done]].
  { cbn in Hf. Z.to_euclidean_division_equations; lia. }
  set (k := va / 4096). rewrite PGROUNDDOWN_div. fold k.
  assert (va = 4096 * k + va mod 4096) as Hvk by (apply Z.div_mod; done).
  pose proof (Z.mod_pos_bound va 4096 ltac:(done)) as Ho. set (o := va mod 4096) in *.
  assert (k <= (va + len - 1) / 4096) as Hk by (apply Z.div_le_mono; lia).
  destruct (Hall k ltac:(lia)) as (p & f & HU & Hu). unfold KERNBASE in Hend.
  eapply wp_bind, wp_of; [eapply uva2ka_run; [exact Hs|lia|exact HU]|]. rewrite Hu.
  pose proof (user_page _ _ _ _ _ _ _ _ _ _ _ _ _ _ Hs HU) as Hp. pose proof (page_ok_bounds _ _ Hp) as [_ Hpb].
  unfold KERNBASE, PHYSTOP in Hpb.
  destruct (Z.eqb_spec p 0) as [?|_]; [lia|]. cbv zeta.
  replace (va - 4096 * k) with o by lia. 
  assert (u32 (PGSIZE - o) = 4096 - o) as -> by (apply u32_small; unfold PGSIZE; lia).
  rewrite (u32_small (p + o)) by lia.
  set (n := if len <? 4096 - o then len else 4096 - o).
  assert (0 < n <= len /\ o + n <= 4096 /\ (n < len -> o + n = 4096)) as (Hn & Hon & Hnl)
    by (subst n; btest (len <? 4096 - o); lia).
  apply wp_bind, wp_modify. set (s1 := set_kram _ s).
  assert (p ∈ upages U) as Hin by (apply elem_of_upages; eauto).
  assert (frame (upages U) (kram s) (kram s1)) as Hfr.
  { intros x Hx. change (kram s1) with (memmove (kram s) (p + o) buf n). rewrite memmove_at by lia.
    specialize (Hx p Hin). unfold within, PGSIZE in *. revert Hx. split_tests. }
  assert (aspace s1 D T E U X l) as Hs1.
  { destruct Hs as [Hv Hus]. split; [|done]. eapply vmem_touch; [exact Hv|exact Hfr|sub]. }
  rewrite !u32_small by (unfold PGSIZE; lia).
  replace (4096 * k + PGSIZE) with (4096 * (k + 1)) by (unfold PGSIZE; lia).
  eapply wp_mono; [apply (IH s1 (4096 * (k + 1)) (buf + n) (len - n)); [exact Hs1|lia|lia| | |lia|lia| |]|].
  - unfold KERNBASE. lia.
  - intros j Hj. apply Hall. fold k. revert Hj. Z.to_euclidean_division_equations; lia.
  - intros x q Hx. apply Hbuf. lia.
  - intros Hl. specialize (Hf ltac:(lia)). fold k in Hf.
    replace (4096 * (k + 1) + (len - n) - 1) with (va + len - 1) by lia.
    replace (4096 * (k + 1) / 4096) with (k + 1) by (Z.to_euclidean_division_equations; lia). lia.
  - intros r s2 (-> & Hs2 & Hf2 & Hx2). split_and!; [done|done|by eapply frame_trans|].
    intros x. rewrite Hx2. change (kram s1) with (memmove (kram s) (p + o) buf n) at 2.
    rewrite (ubyte_store s D T E U X l k p f o buf n x) by (done || lia).
    replace (4096 * k + o) with va by lia. clear Hx2 IH Hall. split_tests; try done.
    + f_equal. rewrite (Hfr (buf + n + (x - 4096 * (k + 1)))); [f_equal; lia|].
      intros q Hq. apply Hbuf; [lia|done].
Qed.

End Copy.
