(* ===== verification/VmClient.v ===== *)
(** * Processes and their memories

    A kernel that makes any sequence of the calls of [vm.c] on any number of
    address spaces, the way [growproc], [fork], [exec] and [wait] make them,
    and user code that stores bytes in between.  The specification is a list
    of private memories: nothing but a process's own stores changes what it
    reads, a child starts with its parent's bytes, and a page that is added
    holds zeros. *)
From S2P Require Import Prelude Str Spinlock Kalloc Vm VmTables VmUser VmKern VmCopy.

Inductive vmreq :=
| NewSpace
| Grow (k : nat) (sz : Z)
| Shrink (k : nat) (sz : Z)
| Fork (k : nat)
| Exit (k : nat)
| Store (k : nat) (va b : Z).

(** ** The specification *)

(** A process: its size and its bytes, for whole pages. *)
Definition aproc : Type := Z * (Z -> Z).

(** One request; [ok] tells whether it was carried out. *)
Definition aspec (r : vmreq) (ok : bool) (A : list aproc) : list aproc :=
  if ok then
    match r with
    | NewSpace => A ++ [(0, fun _ => 0)]
    | Grow k sz =>
        alter (fun v => (sz, fun va => if va <? 4096 * npages v.1 then v.2 va else 0)) k A
    | Shrink k sz => alter (fun v => (sz, v.2)) k A
    | Fork k => match A !! k with Some v => A ++ [v] | None => A end
    | Exit k => delete k A
    | Store k va b => alter (fun v => (v.1, upd v.2 va b)) k A
    end
  else A.

Fixpoint aruns (rs : list vmreq) (oks : list bool) (A : list aproc) : list aproc :=
  match rs, oks with
  | r :: rs, ok :: oks => aruns rs oks (aspec r ok A)
  | _, _ => A
  end.

(** ** The calls *)

Section Client.
Context (kend argp kdata : Z).

(** A process is what [struct proc] has of it: [pgdir] and [sz]. *)
Definition vm_step (r : vmreq) (ps : list (Z * Z)) : M kmem (bool * list (Z * Z)) :=
  match r with
  | NewSpace =>
      let! d := setupkvm kend argp kdata in
      ret (if d =? 0 then (false, ps) else (true, ps ++ [(d, 0)]))
  | Grow k n =>
      match ps !! k with
      | Some (d, sz) =>
          if sz <? n then
            let! r := allocuvm kend argp d sz n in
            ret (if r =? 0 then (false, ps) else (true, <[k := (d, n)]> ps))
          else ret (false, ps)
      | None => ret (false, ps)
      end
  | Shrink k n =>
      match ps !! k with
      | Some (d, sz) =>
          if (0 <=? n) && (n <? sz) then
            deallocuvm kend argp d sz n ;; ret (true, <[k := (d, n)]> ps)
          else ret (false, ps)
      | None => ret (false, ps)
      end
  | Fork k =>
      match ps !! k with
      | Some (d, sz) =>
          let! c := copyuvm kend argp kdata d sz in
          ret (if c =? 0 then (false, ps) else (true, ps ++ [(c, sz)]))
      | None => ret (false, ps)
      end
  | Exit k =>
      match ps !! k with
      | Some (d, _) => freevm kend argp d ;; ret (true, delete k ps)
      | None => ret (false, ps)
      end
  | Store k va b =>
      match ps !! k with
      | Some (d, sz) =>
          if (0 <=? va) && (va <? sz) then
            let! ka := uva2ka argp d (PGROUNDDOWN va) in
            if ka =? 0 then ret (false, ps)
            else
              modify (fun s => set_kram (upd (kram s) (ka + va mod 4096) b) s) ;;
              ret (true, ps)
          else ret (false, ps)
      | None => ret (false, ps)
      end
  end.

Fixpoint vm_run (rs : list vmreq) (ps : list (Z * Z)) : M kmem (list bool * list (Z * Z)) :=
  match rs with
  | [] => ret ([], ps)
  | r :: rs =>
      let! o := vm_step r ps in
      let! q := vm_run rs (snd o) in
      ret (fst o :: fst q, snd q)
  end.

(** ** The invariant *)

Record space := mkspace {
  sdir : Z;
  ssz : Z;
  stabs : gmap Z Z;
  sent : Z -> Z;
  suser : gmap Z (Z * Z);
}.

Definition spages (a : space) : list Z := sdir a :: vals (stabs a) ++ upages (suser a).
Definition pages_of (L : list space) : list Z := L ≫= spages.

(** The address space [a] in memory [m] shows the process [v]. *)
Record shows (m : mem) (a : space) (v : aproc) : Prop := mkshows {
  sh_sz : ssz a = v.1;
  sh_range : 0 <= ssz a < KERNBASE;
  sh_tables : tables m (sdir a) (stabs a) (sent a);
  sh_uspace : uspace (sent a) (suser a);
  sh_pages n : is_Some (suser a !! n) <-> 0 <= n < npages (ssz a);
  sh_flags n p f : suser a !! n = Some (p, f) -> f = 7;
  sh_bytes va : 0 <= va < 4096 * npages (ssz a) -> ubyte m (suser a) va = Some (v.2 va);
}.

Context (f0 : Z) (i : nat) (d : Z).
Abbreviation heap := (heap kend f0 i d).
Abbreviation aspace := (aspace kend f0 i d).

(** [X]: the pages in use outside the address spaces; [l]: the free ones. *)
Definition world (s : kmem) (ps : list (Z * Z)) (L : list space) (A : list aproc) (X l : list Z) : Prop :=
  heap s (pages_of L ++ X) l /\ Forall2 (shows (kram s)) L A /\
  ps = (fun a => (sdir a, ssz a)) <$> L.

Lemma shows_keeps m m' a v : shows m a v -> keeps (spages a) m m' -> shows m' a v.
Proof.
  intros [? ? Ht ? ? ? Hb] Hk. unfold spages in Hk. split; [done|done| |done|done|done|].
  - eapply tables_keeps; [exact Ht|]. eapply keeps_mono; [|exact Hk]. sub.
  - intros va Hva. rewrite <- Hb by done. eapply ubyte_keeps; [exact Hk|]. sub.
Qed.

Lemma shows_all_keeps m m' L A :
  Forall2 (shows m) L A -> keeps (pages_of L) m m' -> Forall2 (shows m') L A.
Proof.
  intros H. induction H as [|a v L A Ha HL IH]; intros Hk; [constructor|].
  unfold pages_of in *. cbn in Hk. constructor.
  - eapply shows_keeps; [exact Ha|]. eapply keeps_mono; [|exact Hk]. sub.
  - apply IH. eapply keeps_mono; [|exact Hk]. sub.
Qed.

Lemma pages_of_lookup L k a :
  L !! k = Some a -> pages_of L ≡ₚ spages a ++ pages_of (delete k L).
Proof. intros H. unfold pages_of. rewrite (delete_Permutation L k a H) at 1. done. Qed.

(** The address space of process [k], with everything else beside it. *)
Lemma world_space s ps L A X l k a v :
  world s ps L A X l -> L !! k = Some a -> A !! k = Some v ->
  shows (kram s) a v /\
  aspace s (sdir a) (stabs a) (sent a) (suser a) (pages_of (delete k L) ++ X) l.
Proof.
  intros (Hh & HF & _) HL HA. pose proof (Forall2_lookup_lr _ _ _ _ _ _ HF HL HA) as Hs.
  split; [done|]. destruct Hs as [_ _ Ht Hu _ _ _]. split; [|done]. apply vmem_heap. split; [|done].
  eapply heap_perm; [|exact Hh]. rewrite (pages_of_lookup _ _ _ HL). unfold spages. perm.
Qed.

Lemma Forall2_update {B C} (P : B -> C -> Prop) (L : list B) (A : list C) k x y :
  length L = length A -> Forall2 P (delete k L) (delete k A) -> P x y ->
  Forall2 P (<[k := x]> L) (<[k := y]> A).
Proof.
  revert A k. induction L as [|b L IH]; intros [|c A] [|k] Hl HF Hxy; simplify_eq/=; auto.
  inversion_clear HF. constructor; [done|]. by apply IH.
Qed.

Lemma pages_of_insert L k a :
  (k < length L)%nat -> pages_of (<[k := a]> L) ≡ₚ spages a ++ pages_of (delete k L).
Proof.
  revert k. induction L as [|b L IH]; intros [|k] Hk; cbn in Hk; try lia; [done|].
  change (spages b ++ pages_of (<[k := a]> L) ≡ₚ spages a ++ spages b ++ pages_of (delete k L)).
  rewrite IH by lia. generalize (spages a), (spages b). intros. perm.
Qed.

(** What a request leaves: the world of the specification's next state. *)
Definition step_post (r : vmreq) s L A X l (o : bool * list (Z * Z)) (s' : kmem) : Prop :=
  exists L' l', world s' (snd o) L' (aspec r (fst o) A) X l' /\
    pages_of L' ++ l' ≡ₚ pages_of L ++ l /\ keeps X (kram s) (kram s').

Lemma step_refused r s ps L A X l : world s ps L A X l -> step_post r s L A X l (false, ps) s.
Proof. intros H. exists L, l. split_and!; [done..|apply keeps_refl]. Qed.

(** Process [k] got another address space; the others are the same. *)
Lemma step_update r ok s s' ps L A X l k a v n T' E' U' v' l' :
  world s ps L A X l -> L !! k = Some a -> A !! k = Some v ->
  aspace s' (sdir a) T' E' U' (pages_of (delete k L) ++ X) l' ->
  shows (kram s') (mkspace (sdir a) n T' E' U') v' ->
  keeps (pages_of (delete k L) ++ X) (kram s) (kram s') ->
  vals T' ++ upages U' ++ l' ≡ₚ vals (stabs a) ++ upages (suser a) ++ l ->
  aspec r ok A = <[k := v']> A ->
  step_post r s L A X l (ok, <[k := (sdir a, n)]> ps) s'.
Proof.
  intros (Hh & HF & ->) HL HA [[Hh' _]%vmem_heap _] Hsh Hk Hp Hr. pose proof (lookup_lt_Some _ _ _ HL).
  set (a' := mkspace (sdir a) n T' E' U') in *. exists (<[k := a']> L), l'. cbn [fst snd]. rewrite Hr.
  unfold world. split_and!.
  - eapply heap_perm; [|exact Hh']. rewrite pages_of_insert by done. unfold spages. cbn [sdir stabs suser a']. perm.
  - apply Forall2_update; [by eapply Forall2_length| |done].
    eapply shows_all_keeps; [by apply Forall2_delete|]. eapply keeps_mono; [|exact Hk]. sub.
  - by rewrite list_fmap_insert.
  - rewrite pages_of_insert, (pages_of_lookup _ _ _ HL) by done. unfold spages. cbn [sdir stabs suser a']. perm.
  - eapply keeps_mono; [|exact Hk]. sub.
Qed.

(** Process [k] as the caller sees it. *)
Lemma world_lookup s ps L A X l k p :
  world s ps L A X l -> ps !! k = Some p ->
  exists a v, L !! k = Some a /\ A !! k = Some v /\ p = (sdir a, ssz a).
Proof.
  intros (_ & HF & ->) Hp. apply list_lookup_fmap_Some in Hp as (a & -> & HL).
  destruct (Forall2_lookup_l _ _ _ _ _ HF HL) as (v & HA & _). eauto.
Qed.

Lemma npages_range sz : 0 <= sz < KERNBASE -> 0 <= npages sz <= 524288.
Proof. unfold npages, KERNBASE. intros. Z.to_euclidean_division_equations; lia. Qed.

Lemma npages_mono a b : a <= b -> npages a <= npages b.
Proof. intros. unfold npages. apply Z.div_le_mono; lia. Qed.

Lemma page_of_va va n : 0 <= va < 4096 * n <-> 0 <= va /\ 0 <= va / 4096 < n.
Proof. Z.to_euclidean_division_equations; lia. Qed.

(** Memory that was grown shows its old bytes and zeros. *)
Lemma shows_grown m m' a v n T' E' U' :
  shows m a v -> ssz a < n < KERNBASE -> tables m' (sdir a) T' E' -> uspace E' U' ->
  keeps (upages (suser a)) m m' -> zeroed m' (suser a) U' (npages (ssz a)) (npages n) 7 ->
  shows m' (mkspace (sdir a) n T' E' U')
    (n, fun va => if va <? 4096 * npages v.1 then v.2 va else 0).
Proof.
  intros [Hsz Hr Ht Hu Hpg Hfl Hb] Hn Ht' Hu' Hk Hz. pose proof (npages_mono (ssz a) n ltac:(lia)).
  pose proof (npages_range (ssz a) Hr) as Hnr.
  split; cbn [ssz sdir stabs sent suser fst snd]; [done|lia|done|done| | |].
  - intros k. specialize (Hz k). case_bool_decide as Hc.
    + destruct Hz as (p & -> & _). split; [lia|eauto].
    + rewrite Hz, Hpg. lia.
  - intros k p f HU. specialize (Hz k). case_bool_decide; [destruct Hz as (q & E & _); congruence|].
    rewrite Hz in HU. by eapply Hfl.
  - intros va [Hva Hd]%page_of_va. specialize (Hz (va / 4096)). unfold ubyte.
    pose proof (Z.mod_pos_bound va 4096 ltac:(done)). rewrite <- Hsz. case_bool_decide as Hc.
    + destruct Hz as (p & -> & Hp). rewrite Hp by done.
      btest (va <? 4096 * npages (ssz a)); [|done]. exfalso. Z.to_euclidean_division_equations; lia.
    + rewrite Hz. change (ubyte m' (suser a) va = Some (if va <? 4096 * npages (ssz a) then v.2 va else 0)).
      assert (0 <= va < 4096 * npages (ssz a)) as Hv by (apply page_of_va; lia).
      btest (va <? 4096 * npages (ssz a)); [|lia].
      rewrite <- Hb by done. eapply ubyte_keeps; [exact Hk|done].
Qed.

(** The same user memory behind other tables. *)
Lemma shows_same m m' a v T' E' :
  shows m a v -> tables m' (sdir a) T' E' -> uspace E' (suser a) -> keeps (upages (suser a)) m m' ->
  shows m' (mkspace (sdir a) (ssz a) T' E' (suser a)) v.
Proof.
  intros [Hsz Hr Ht Hu Hpg Hfl Hb] Ht' Hu' Hk.
  split; cbn [ssz sdir stabs sent suser]; [done|done|done|done|done|done|].
  intros va Hva. rewrite <- Hb by done. by eapply ubyte_keeps.
Qed.

Lemma vm_grow s ps L A X l k n :
  KERNBASE < kend -> world s ps L A X l ->
  wp (vm_step (Grow k n) ps) s (step_post (Grow k n) s L A X l).
Proof.
  intros Hke Hw. cbn [vm_step]. destruct (ps !! k) as [p|] eqn:Ep; [|by apply wp_ret, step_refused].
  destruct (world_lookup _ _ _ _ _ _ _ _ Hw Ep) as (a & v & HL & HA & ->).
  btest (ssz a <? n); [|by apply wp_ret, step_refused].
  destruct (world_space _ _ _ _ _ _ _ _ _ Hw HL HA) as [Hsh Hs].
  pose proof (sh_range _ _ _ Hsh) as Hr.
  destruct (Z.le_gt_cases KERNBASE n).
  { unfold allocuvm. btest (KERNBASE <=? n); [|lia]. apply wp_ret. cbn. by apply step_refused. }
  eapply wp_seq; [apply allocuvm_run; [done|exact Hs|lia|lia|]|].
  { intros j Hj. apply eq_None_not_Some. rewrite (sh_pages _ _ _ Hsh). lia. }
  intros r s' (T' & U' & (E' & l' & [Hv' Hu'] & Hp' & _ & _ & _ & Hk') & Hc). apply wp_ret.
  pose proof Hv' as [_ Ht']%vmem_heap.
  assert (keeps (pages_of (delete k L) ++ X) (kram s) (kram s')) as Hko by (eapply keeps_mono; [|exact Hk']; sub).
  assert (keeps (upages (suser a)) (kram s) (kram s')) as Hku by (eapply keeps_mono; [|exact Hk']; sub).
  destruct Hc as [[-> Hz]|(-> & -> & _)].
  - btest (n =? 0); [lia|].
    eapply step_update; [exact Hw|done|done|by split| |exact Hko|exact Hp'|].
    + eapply shows_grown; [exact Hsh|lia|done|done|exact Hku|exact Hz].
    + cbn. by rewrite (list_insert_alter _ _ _ _ HA).
  - cbn [Z.eqb]. rewrite <- (list_insert_id ps k (sdir a, ssz a)) by done.
    eapply step_update; [exact Hw|done|done|by split| |exact Hko|exact Hp'|].
    + by eapply (shows_same _ _ a).
    + cbn. by rewrite list_insert_id.
Qed.

Lemma vm_shrink s ps L A X l k n :
  KERNBASE < kend -> world s ps L A X l ->
  wp (vm_step (Shrink k n) ps) s (step_post (Shrink k n) s L A X l).
Proof.
  intros Hke Hw. cbn [vm_step]. destruct (ps !! k) as [p|] eqn:Ep; [|by apply wp_ret, step_refused].
  destruct (world_lookup _ _ _ _ _ _ _ _ Hw Ep) as (a & v & HL & HA & ->).
  destruct ((0 <=? n) && (n <? ssz a)) eqn:Eg; [|by apply wp_ret, step_refused]. b2p.
  destruct (world_space _ _ _ _ _ _ _ _ _ Hw HL HA) as [Hsh Hs].
  pose proof (sh_range _ _ _ Hsh) as Hr. pose proof (npages_mono n (ssz a) ltac:(lia)).
  eapply wp_seq; [apply deallocuvm_run; [done|exact Hs|lia|lia]|].
  intros r s' [-> (E' & l' & [Hv' Hu'] & Hp' & _ & Hk')]. apply wp_ret.
  set (U' := cut _ _ _) in *. pose proof Hv' as [_ Ht']%vmem_heap.
  eapply step_update; [exact Hw|done|done|by split| | | |].
  - destruct Hsh as [Hsz _ Ht Hu Hpg Hfl Hb]. instantiate (1 := (n, v.2)).
    assert (forall j, U' !! j = if bool_decide (npages n <= j < npages (ssz a)) then None else suser a !! j)
      as HU' by (intros; apply lookup_cut).
    split; cbn [ssz sdir stabs sent suser fst snd]; [done|lia|done|done| | |].
    + intros j. rewrite HU'. pose proof (npages_range n ltac:(lia)).
      case_bool_decide; [split; [by intros [? ?]|lia]|]. rewrite Hpg. lia.
    + intros j p f. rewrite HU'. case_bool_decide; [done|]. apply Hfl.
    + intros va [Hva Hd]%page_of_va. rewrite <- Hb by (apply page_of_va; lia).
      transitivity (ubyte (kram s) U' va); [eapply ubyte_keeps; [exact Hk'|sub]|].
      unfold ubyte. by rewrite HU', bool_decide_eq_false_2 by lia.
  - eapply keeps_mono; [|exact Hk']. sub.
  - perm.
  - cbn. by rewrite (list_insert_alter _ _ _ _ HA).
Qed.

(** Nothing happened but that free pages were used and freed again. *)
Lemma step_same r s s' ps L A X l l' :
  world s ps L A X l -> heap s' (pages_of L ++ X) l' -> l' ≡ₚ l ->
  keeps (pages_of L ++ X) (kram s) (kram s') -> step_post r s L A X l (false, ps) s'.
Proof.
  intros (_ & HF & ->) Hh Hp Hk. exists L, l'. cbn [fst snd aspec]. unfold world. split_and!.
  - done.
  - eapply shows_all_keeps; [exact HF|]. eapply keeps_mono; [|exact Hk]. sub.
  - done.
  - by rewrite Hp.
  - eapply keeps_mono; [|exact Hk]. sub.
Qed.

(** A new process beside the others. *)
Lemma step_append r s s' ps L A X l D n T' E' U' v' l' :
  world s ps L A X l -> aspace s' D T' E' U' (pages_of L ++ X) l' ->
  shows (kram s') (mkspace D n T' E' U') v' -> keeps (pages_of L ++ X) (kram s) (kram s') ->
  D :: vals T' ++ upages U' ++ l' ≡ₚ l -> aspec r true A = A ++ [v'] ->
  step_post r s L A X l (true, ps ++ [(D, n)]) s'.
Proof.
  intros (Hh & HF & ->) [[Hh' _]%vmem_heap _] Hsh Hk Hp Hr.
  set (a' := mkspace D n T' E' U') in *. exists (L ++ [a']), l'. cbn [fst snd]. rewrite Hr.
  assert (pages_of (L ++ [a']) ≡ₚ spages a' ++ pages_of L) as Hpg.
  { unfold pages_of. rewrite bind_app. cbn. rewrite app_nil_r. apply Permutation_app_comm. }
  unfold world. split_and!.
  - eapply heap_perm; [|exact Hh']. rewrite Hpg. unfold spages. cbn [sdir stabs suser a']. perm.
  - apply Forall2_app; [|by constructor; [|constructor]].
    eapply shows_all_keeps; [exact HF|]. eapply keeps_mono; [|exact Hk]. sub.
  - by rewrite fmap_app.
  - rewrite Hpg. unfold spages. cbn [sdir stabs suser a']. perm.
  - eapply keeps_mono; [|exact Hk]. sub.
Qed.

Lemma vm_new s ps L A X l :
  KERNBASE < kend -> kdata_ok kdata -> world s ps L A X l ->
  wp (vm_step NewSpace ps) s (step_post NewSpace s L A X l).
Proof.
  intros Hke Hkd Hw. cbn [vm_step]. pose proof Hw as (Hh & _ & _).
  eapply wp_seq; [by apply setupkvm_run|].
  intros D s' [(-> & _ & l' & Hh' & Hp & Hk)|(HD & T' & l' & Hs' & Hp & _ & Hk)]; apply wp_ret.
  - cbn [Z.eqb]. by eapply step_same.
  - btest (D =? 0); [done|]. eapply step_append; [exact Hw|exact Hs'| |exact Hk|exact Hp|done].
    pose proof Hs' as [[_ Ht]%vmem_heap Hu].
    split; cbn [ssz sdir stabs sent suser fst snd]; [done|done|done|done| |done|].
    + intros j. change (npages 0) with 0. rewrite lookup_empty. split; [by intros [? ?]|lia].
    + change (npages 0) with 0. lia.
Qed.

(** A copy shows what the original shows. *)
Lemma shows_copied m m' a v D T' E' U' :
  shows m a v -> tables m' D T' E' -> uspace E' U' -> keeps (upages (suser a)) m m' ->
  copied m' (suser a) ∅ U' 0 (npages (ssz a)) -> shows m' (mkspace D (ssz a) T' E' U') v.
Proof.
  intros [Hsz Hr Ht Hu Hpg Hfl Hb] Ht' Hu' Hk Hc.
  split; cbn [ssz sdir stabs sent suser]; [done|done|done|done| | |].
  - intros n. specialize (Hc n). case_bool_decide as Hn.
    + destruct Hc as (p & q & f & _ & -> & _). split; [lia|eauto].
    + rewrite Hc, lookup_empty. split; [by intros [? ?]|lia].
  - intros n q f HU. specialize (Hc n). case_bool_decide.
    + destruct Hc as (p & q' & g & H0 & H1 & _). rewrite H1 in HU. injection HU as _ <-. by eapply Hfl.
    + by rewrite Hc, lookup_empty in HU.
  - intros va Hva. rewrite <- Hb by done. apply page_of_va in Hva as [_ Hd].
    specialize (Hc (va / 4096)). rewrite bool_decide_eq_true_2 in Hc by lia.
    destruct Hc as (p & q & f & H0 & H1 & Hm).
    rewrite <- (ubyte_keeps _ m m' (suser a) va Hk ltac:(done)). unfold ubyte. rewrite H0, H1.
    rewrite Hm; [done|]. by apply Z.mod_pos_bound.
Qed.

Lemma vm_fork s ps L A X l k :
  KERNBASE < kend -> kdata_ok kdata -> world s ps L A X l ->
  wp (vm_step (Fork k) ps) s (step_post (Fork k) s L A X l).
Proof.
  intros Hke Hkd Hw. cbn [vm_step]. destruct (ps !! k) as [p|] eqn:Ep; [|by apply wp_ret, step_refused].
  destruct (world_lookup _ _ _ _ _ _ _ _ Hw Ep) as (a & v & HL & HA & ->).
  destruct (world_space _ _ _ _ _ _ _ _ _ Hw HL HA) as [Hsh Hs].
  pose proof (sh_range _ _ _ Hsh) as Hr.
  assert (sdir a :: vals (stabs a) ++ upages (suser a) ++ pages_of (delete k L) ++ X ≡ₚ pages_of L ++ X) as Hpg.
  { rewrite (pages_of_lookup _ _ _ HL). unfold spages. perm. }
  eapply wp_seq; [apply copyuvm_run; [done|done|exact Hs|lia|]|].
  { intros n Hn. by apply (sh_pages _ _ _ Hsh). }
  intros D s' [(-> & _ & l' & [[Hh' _]%vmem_heap _] & Hp & Hk)|(HD & T' & E' & U' & l' & Hs' & _ & Hp & _ & Hk & Hc)];
    apply wp_ret.
  - cbn [Z.eqb]. eapply step_same; [exact Hw| |exact Hp|].
    + by eapply heap_perm.
    + eapply keeps_mono; [|exact Hk]. by rewrite Hpg.
  - btest (D =? 0); [done|]. destruct Hs' as [Hv' Hu'].
    eapply step_append; [exact Hw|split; [|exact Hu']; by eapply vmem_perm, Hv'; rewrite Hpg| | |exact Hp|].
    + destruct Hv'. eapply shows_copied; [exact Hsh|done|done|eapply keeps_mono; [|exact Hk]; sub|exact Hc].
    + eapply keeps_mono; [|exact Hk]. by rewrite Hpg.
    + cbn. by rewrite HA.
Qed.

Lemma vm_exit s ps L A X l k :
  KERNBASE < kend -> world s ps L A X l ->
  wp (vm_step (Exit k) ps) s (step_post (Exit k) s L A X l).
Proof.
  intros Hke Hw. cbn [vm_step]. destruct (ps !! k) as [p|] eqn:Ep; [|by apply wp_ret, step_refused].
  destruct (world_lookup _ _ _ _ _ _ _ _ Hw Ep) as (a & v & HL & HA & ->).
  destruct (world_space _ _ _ _ _ _ _ _ _ Hw HL HA) as [Hsh Hs].
  eapply wp_seq; [eapply freevm_run; [done|exact Hs]|].
  intros [] s' (l' & Hh' & Hp & Hk). apply wp_ret. exists (delete k L), l'. cbn [fst snd aspec].
  destruct Hw as (_ & HF & ->). unfold world. split_and!.
  - done.
  - eapply shows_all_keeps; [by apply Forall2_delete|]. eapply keeps_mono; [|exact Hk]. sub.
  - by rewrite list_fmap_delete.
  - rewrite (pages_of_lookup _ _ _ HL). unfold spages. perm.
  - eapply keeps_mono; [|exact Hk]. sub.
Qed.

Lemma frame_upd P m p o b : p ∈ P -> 0 <= o < PGSIZE -> frame P m (upd m (p + o) b).
Proof.
  intros Hp Ho x Hx. specialize (Hx p Hp). unfold upd. btest (x =? p + o); [|done].
  revert Hx. unfold within. b2p. lia.
Qed.

(** A byte stored in the frame of its page. *)
Lemma ubyte_upd s D T E U X l k p f o b va :
  aspace s D T E U X l -> U !! k = Some (p, f) -> 0 <= o < 4096 ->
  ubyte (upd (kram s) (p + o) b) U va =
  if va =? 4096 * k + o then Some b else ubyte (kram s) U va.
Proof.
  intros Hs HU Ho. unfold ubyte, upd. pose proof (Z.mod_pos_bound va 4096 ltac:(done)) as Hm.
  assert (va = 4096 * (va / 4096) + va mod 4096) as Hx by (apply Z.div_mod; done).
  destruct (U !! (va / 4096)) as [[q g]|] eqn:Eq.
  - btest (va =? 4096 * k + o); btest (q + va mod 4096 =? p + o); try done; exfalso.
    + assert (va / 4096 = k) as Ek by (Z.to_euclidean_division_equations; lia).
      rewrite Ek, HU in Eq. injection Eq as -> ->. lia.
    + assert (q = p) as ->.
      { eapply (page_disjoint kend q p (va mod 4096) o); try done; by eapply user_page. }
      pose proof (upages_inj _ _ _ _ _ _ (user_nodup _ _ _ _ _ _ _ _ _ _ _ Hs) Eq HU). lia.
  - btest (va =? 4096 * k + o); [|done]. exfalso.
    assert (va / 4096 = k) as Ek by (Z.to_euclidean_division_equations; lia). congruence.
Qed.

Lemma vm_store s ps L A X l k va b :
  world s ps L A X l ->
  wp (vm_step (Store k va b) ps) s (step_post (Store k va b) s L A X l).
Proof.
  intros Hw. cbn [vm_step]. destruct (ps !! k) as [p|] eqn:Ep; [|by apply wp_ret, step_refused].
  destruct (world_lookup _ _ _ _ _ _ _ _ Hw Ep) as (a & v & HL & HA & ->).
  destruct ((0 <=? va) && (va <? ssz a)) eqn:Eg; [|by apply wp_ret, step_refused]. b2p.
  destruct (world_space _ _ _ _ _ _ _ _ _ Hw HL HA) as [Hsh Hs].
  pose proof (sh_range _ _ _ Hsh) as Hr. pose proof (npages_range _ Hr).
  assert (0 <= va / 4096 < npages (ssz a)) as Hn
    by (unfold npages; Z.to_euclidean_division_equations; lia).
  destruct (proj2 (sh_pages _ _ _ Hsh _) Hn) as [[p f] HU].
  pose proof (sh_flags _ _ _ Hsh _ _ _ HU) as ->. rewrite PGROUNDDOWN_div.
  eapply wp_bind, wp_of; [eapply uva2ka_run; [exact Hs|lia|exact HU]|]. change (user_ok 7) with true.
  pose proof (user_page _ _ _ _ _ _ _ _ _ _ _ _ _ _ Hs HU) as [Hp _].
  destruct (Z.eqb_spec p 0) as [?|_]; [lia|]. apply wp_bind, wp_modify, wp_ret.
  pose proof (Z.mod_pos_bound va 4096 ltac:(done)) as Ho. set (s' := set_kram _ s).
  assert (frame (upages (suser a)) (kram s) (kram s')) as Hf.
  { apply frame_upd; [apply elem_of_upages; eauto|done]. }
  rewrite <- (list_insert_id ps k (sdir a, ssz a)) by done. destruct Hs as [Hv Hu].
  assert (vmem kend f0 i d s' (sdir a) (stabs a) (sent a) (upages (suser a) ++ pages_of (delete k L) ++ X) l) as Hv'.
  { eapply vmem_touch; [exact Hv|exact Hf|sub]. }
  eapply step_update; [exact Hw|done|done|by split| | |done|].
  - instantiate (1 := (v.1, upd v.2 va b)). destruct Hsh as [Hsz _ Ht _ Hpg Hfl Hb].
    split; cbn [ssz sdir stabs sent suser fst snd]; [done|done|by destruct Hv'|done|done|done|].
    intros x Hx. change (kram s') with (upd (kram s) (p + va mod 4096) b).
    rewrite (ubyte_upd s (sdir a) (stabs a) (sent a) (suser a) (pages_of (delete k L) ++ X) l (va / 4096) p 7)
      by (done || by split).
    rewrite Hb, <- Z.div_mod by done. unfold upd. by destruct (x =? va).
  - by eapply vmem_keeps_app.
  - cbn. by rewrite (list_insert_alter _ _ _ _ HA).
Qed.

Lemma vm_step_run r s ps L A X l :
  KERNBASE < kend -> kdata_ok kdata -> world s ps L A X l ->
  wp (vm_step r ps) s (step_post r s L A X l).
Proof.
  destruct r; intros; [by apply vm_new|by apply vm_grow|by apply vm_shrink|by apply vm_fork
                      |by apply vm_exit|by apply vm_store].
Qed.

Lemma vm_run_run rs : forall s ps L A X l,
  KERNBASE < kend -> kdata_ok kdata -> world s ps L A X l ->
  wp (vm_run rs ps) s (fun o s' => length (fst o) = length rs /\ exists L' l',
    world s' (snd o) L' (aruns rs (fst o) A) X l' /\
    pages_of L' ++ l' ≡ₚ pages_of L ++ l /\ keeps X (kram s) (kram s')).
Proof.
  induction rs as [|r rs IH]; intros s ps L A X l Hke Hkd Hw; cbn [vm_run].
  { apply wp_ret. split; [done|]. exists L, l. split_and!; [done..|apply keeps_refl]. }
  eapply wp_seq; [by apply vm_step_run|]. intros [ok ps1] s1 (L1 & l1 & Hw1 & Hp1 & Hk1). cbn [fst snd] in *.
  eapply wp_seq; [by apply IH|]. intros [oks ps2] s2 (Hlen & L2 & l2 & Hw2 & Hp2 & Hk2). cbn [fst snd] in *.
  apply wp_ret. cbn [fst snd aruns length]. split; [lia|]. exists L2, l2.
  split_and!; [done|by rewrite Hp2|by eapply keeps_trans].
Qed.

End Client.
