(* ===== verification/VmSpec.v ===== *)
(** * What the address spaces promise

    The properties of [vm.c], for any state in which the page allocator's
    invariant and the page tables' invariant hold. *)
From S2P Require Import Prelude Str Spinlock Kalloc Vm VmTables VmUser VmKern VmCopy VmClient.

(** A machine that has booted with the memory below 4 MB, for the witnesses. *)
Definition demo_kdata : Z := KERNLINK + 32768.
Definition demo_boot : M kmem unit := kinit1 demo_kend 0 demo_kend (P2V 4194304).
Definition demo_free : list Z := reverse (whole_pages demo_kend (P2V 4194304)).

Lemma demo_kdata_ok : kdata_ok demo_kdata.
Proof. split; [reflexivity|unfold demo_kdata, KERNLINK, KERNBASE, EXTMEM, PHYSTOP; lia]. Qed.

Lemma demo_kend_high : KERNBASE < demo_kend.
Proof. unfold demo_kend. lia. Qed.

Lemma demo_heap :
  exists s, demo_boot (demo_kmem 0) = Ret tt s /\ heap demo_kend 514 1 0 s [] demo_free.
Proof.
  set (s0 := set_use_lock 0 (set_klock (mach (demo_kmem 0), initlock) (demo_kmem 0))).
  assert (kinv demo_kend s0 []) as Hk0 by (split_and!; [done|constructor|done]).
  assert (idle 514 1 0 s0) as Hi0 by (split_and!; [apply demo_nested|done|lia]).
  assert (range_ok demo_kend demo_kend (P2V 4194304)) as R1
    by (unfold range_ok, demo_kend, KERNBASE, PHYSTOP; change (P2V 4194304) with 2151677952; lia).
  destruct (freerange_run demo_kend 0 514 1 0 demo_kend _ s0 [] Hk0 Hi0 R1 ltac:(set_solver))
    as (s & E & Hk & Hi & _). exists s. split; [exact E|]. rewrite app_nil_r in Hk.
  exact (mkheap demo_kend 514 1 0 s [] demo_free Hk Hi (proj1 (proj2 Hk)) (proj2 (proj2 Hk))).
Qed.

Lemma length_demo_free : length demo_free = 748%nat.
Proof. unfold demo_free. rewrite length_reverse. vm_compute. reflexivity. Qed.

(** ** setupkvm *)

(** [setupkvm] returns a page directory in which the user's half is empty
    and every kernel address is mapped as the comment of [kmap] draws it:
    physical memory from [KERNBASE] on, writable except for the text, the
    devices on themselves, and nothing that user code may touch.  It fails only
    when 65 pages or fewer are free, and then it has given all of them back. *)
Theorem setupkvm_spec (kend argp kdata f0 : Z) (i : nat) (d : Z) (s : kmem) (X l : list Z)
    (Hke : KERNBASE < kend) (Hkd : kdata_ok kdata) (Hh : heap kend f0 i d s X l) :
  wp (setupkvm kend argp kdata) s (fun D s' =>
    keeps X (kram s) (kram s') /\
    (D = 0 /\ (length l <= 65)%nat /\
       (exists l', heap kend f0 i d s' X l' /\ l' ≡ₚ l) \/
     D <> 0 /\ exists T l',
       aspace kend f0 i d s' D T (fun n => kern_pte kdata (4096 * n)) ∅ X l' /\
       D :: vals T ++ l' ≡ₚ l)).
Proof.
  eapply wp_mono; [by apply setupkvm_run|].
  intros D s' [(-> & Hl & l' & Hh' & Hp & Hk)|(HD & T & l' & Hs & Hp & _ & Hk)]; (split; [done|]).
  - left. eauto.
  - right. eauto 6.
Qed.

(** ** allocuvm and deallocuvm *)

(** growing an address space from [oldsz] to [newsz] returns [newsz], and
    the process then reads zeros in the new pages and what it read before
    everywhere else; or it returns 0 with the user's memory as it was, and then
    there was not one free page for each new page and for each page table that
    they can need.  In both cases the kernel's half is the same, no page of
    anybody else is touched and no page is lost. *)
Theorem allocuvm_spec (kend argp f0 : Z) (i : nat) (d : Z) (s : kmem) (D : Z) (T : gmap Z Z)
    (E : Z -> Z) (U : gmap Z (Z * Z)) (X l : list Z) (oldsz newsz : Z)
    (Hke : KERNBASE < kend) (Hs : aspace kend f0 i d s D T E U X l)
    (Ho : 0 <= oldsz <= newsz) (Hn : newsz < KERNBASE)
    (HU : forall n, npages oldsz <= n < npages newsz -> U !! n = None) :
  wp (allocuvm kend argp D oldsz newsz) s (fun r s' => exists T' E' U' l',
    aspace kend f0 i d s' D T' E' U' X l' /\
    vals T' ++ upages U' ++ l' ≡ₚ vals T ++ upages U ++ l /\
    (forall n, 524288 <= n < 1048576 -> E' n = E n) /\ keeps X (kram s) (kram s') /\
    (r = newsz /\
       (forall va, ubyte (kram s') U' va =
          if bool_decide (npages oldsz <= va / 4096 < npages newsz) then Some 0
          else ubyte (kram s) U va) \/
     r = 0 /\ U' = U /\ (forall va, ubyte (kram s') U va = ubyte (kram s) U va) /\
       Z.of_nat (length l) <=
         npages newsz - npages oldsz + ntables (npages oldsz) (npages newsz))).
Proof.
  eapply wp_mono; [by apply allocuvm_run|].
  intros r s' (T' & U' & (E' & l' & Hs' & Hp & _ & _ & He & Hk) & Hc). exists T', E', U', l'.
  assert (forall va, ubyte (kram s') U va = ubyte (kram s) U va) as Hub
    by (intros; eapply ubyte_keeps; [exact Hk|sub]).
  split_and!; [done|done|done|eapply keeps_mono; [|exact Hk]; sub|].
  destruct Hc as [[-> Hz]|(-> & -> & Hl)]; [left|by right]. split; [done|]. intros va.
  specialize (Hz (va / 4096)). unfold ubyte at 1. case_bool_decide.
  - destruct Hz as (p & -> & Hp0). by rewrite Hp0 by (by apply Z.mod_pos_bound).
  - rewrite Hz. apply Hub.
Qed.

Lemma demo_aspace s :
  heap demo_kend 514 1 0 s [] demo_free ->
  exists D s' T l', setupkvm demo_kend 0 demo_kdata s = Ret D s' /\
    aspace demo_kend 514 1 0 s' D T (fun n => kern_pte demo_kdata (4096 * n)) ∅ [] l' /\
    Z.of_nat (length l') >= 600.
Proof.
  intros Hh. pose proof (setupkvm_run demo_kend 0 demo_kdata 514 1 0 s [] demo_free
                           demo_kend_high demo_kdata_ok Hh) as H.
  apply wp_exists in H as (D & s' & E & [(_ & Hl & _)|(_ & T & l' & Hs & Hp & Hd & _)]).
  { rewrite length_demo_free in Hl. lia. }
  exists D, s', T, l'. split_and!; [done|done|]. apply Permutation_length in Hp.
  cbn [length] in Hp. rewrite length_app, length_vals, length_demo_free in Hp.
  apply subseteq_size in Hd. rewrite size_dom in Hd. pose proof size_kern_slots. lia.
Qed.

(** [deallocuvm] ends after at most one turn of its loop per page, although a
    missing page table makes it jump ahead, and it frees exactly the pages
    between the two sizes: the process loses those bytes and keeps the others,
    and the pages it loses are the ones the free list gains. *)
Theorem deallocuvm_spec (kend argp f0 : Z) (i : nat) (d : Z) (s : kmem) (D : Z) (T : gmap Z Z)
    (E : Z -> Z) (U : gmap Z (Z * Z)) (X l : list Z) (oldsz newsz : Z)
    (Hke : KERNBASE < kend) (Hs : aspace kend f0 i d s D T E U X l)
    (Hn : 0 <= newsz < oldsz) (Ho : oldsz <= KERNBASE) :
  wp (deallocuvm kend argp D oldsz newsz) s (fun r s' => r = newsz /\ exists E' U' l',
    aspace kend f0 i d s' D T E' U' X l' /\ upages U' ++ l' ≡ₚ upages U ++ l /\
    (forall n, 524288 <= n < 1048576 -> E' n = E n) /\ keeps X (kram s) (kram s') /\
    forall va, ubyte (kram s') U' va =
      if bool_decide (npages newsz <= va / 4096 < npages oldsz) then None
      else ubyte (kram s) U va).
Proof.
  eapply wp_mono; [by apply deallocuvm_run|].
  intros r s' [-> (E' & l' & Hs' & Hp & He & Hk)]. split; [done|]. set (U' := cut _ _ U) in *.
  exists E', U', l'. split_and!; [done|done|done|eapply keeps_mono; [|exact Hk]; sub|].
  intros va. transitivity (ubyte (kram s) U' va); [eapply ubyte_keeps; [exact Hk|sub]|].
  unfold ubyte, U'. rewrite lookup_cut. by case_bool_decide.
Qed.

(** ** Private memories *)

(** C11: whatever sequence of [setupkvm], [allocuvm], [deallocuvm], [copyuvm] and
    [freevm] calls the kernel makes on any number of address spaces, and
    whatever bytes the processes store in between, no call panics or faults,
    and every process reads what the list of private memories says: its own
    stores, its parent's bytes at the fork, zeros in added pages, and nothing
    of anyone else.  All pages in use and free are those from before. *)
Theorem private_memories (kend argp kdata f0 : Z) (i : nat) (d : Z) (rs : list vmreq) (s : kmem)
    (ps : list (Z * Z)) (L : list space) (A : list aproc) (X l : list Z)
    (Hke : KERNBASE < kend) (Hkd : kdata_ok kdata) (Hw : world kend f0 i d s ps L A X l) :
  wp (vm_run kend argp kdata rs ps) s (fun o s' => length (fst o) = length rs /\ exists L' l',
    world kend f0 i d s' (snd o) L' (aruns rs (fst o) A) X l' /\
    pages_of L' ++ l' ≡ₚ pages_of L ++ l /\ keeps X (kram s) (kram s')).
Proof. by apply vm_run_run. Qed.

Lemma private_memories_witness :
  exists s, demo_boot (demo_kmem 0) = Ret tt s /\
    let rs := [NewSpace; Grow 0 8192; Store 0 4100 42; Fork 0; Store 1 4100 7; Shrink 0 10; Exit 0] in
    wp (vm_run demo_kend 0 demo_kdata rs []) s (fun o s' => length (fst o) = 7%nat /\ exists L l',
      world demo_kend 514 1 0 s' (snd o) L (aruns rs (fst o) []) [] l' /\
      pages_of L ++ l' ≡ₚ demo_free).
Proof.
  destruct demo_heap as (s & E & Hh). exists s. split; [exact E|]. intros rs.
  eapply wp_mono.
  { apply (private_memories demo_kend 0 demo_kdata 514 1 0 rs s [] [] [] [] demo_free demo_kend_high demo_kdata_ok).
    split_and!; [exact Hh|constructor|reflexivity]. }
  intros o s' (Hl & L & l' & Hw & Hp & _). split; [exact Hl|]. exists L, l'. split; [exact Hw|exact Hp].
Defined.

(** ** copyout *)

(** [copyout] to pages that the process has and may use returns 0 after
    writing exactly the [len] bytes, across page boundaries and whatever frames
    the pages are in; the process's other bytes, the page tables and the
    kernel's memory are unchanged. *)
Theorem copyout_spec (kend argp f0 : Z) (i : nat) (d : Z) (s : kmem) (D : Z) (T : gmap Z Z)
    (E : Z -> Z) (U : gmap Z (Z * Z)) (X l : list Z) (va buf len : Z)
    (Hs : aspace kend f0 i d s D T E U X l)
    (Hva : 0 <= va) (Hlen : 0 <= len) (Hend : va + len <= KERNBASE)
    (Hall : forall n, va / 4096 <= n <= (va + len - 1) / 4096 ->
       exists p f, U !! n = Some (p, f) /\ user_ok f = true)
    (Hb : 0 <= buf) (Hbl : buf + len < 4294967296)
    (Hbuf : forall x p, buf <= x < buf + len -> p ∈ upages U -> within x p PGSIZE = false) :
  wp (copyout argp D va buf len) s (fun r s' =>
    r = 0 /\ aspace kend f0 i d s' D T E U X l /\ frame (upages U) (kram s) (kram s') /\
    forall x, ubyte (kram s') U x =
              if (va <=? x) && (x <? va + len) then Some (kram s (buf + (x - va)))
              else ubyte (kram s) U x).
Proof.
  unfold copyout. apply copyout_loop_run; [assumption..|]. intros _. unfold PGSIZE.
  Z.to_euclidean_division_equations; lia.
Qed.

(** A user address without a page table: [walkpgdir] answers null and [uva2ka]
    reads through it. *)
Theorem uva2ka_null (kend argp f0 : Z) (i : nat) (d : Z) (s : kmem) (D : Z) (T : gmap Z Z)
    (E : Z -> Z) (X l : list Z) (va : Z)
    (Hv : vmem kend f0 i d s D T E X l) (Hva : 0 <= va < 4294967296)
    (HT : T !! (va / 4096 / 1024) = None) :
  uva2ka argp D va s = Stop (Fault "null pointer").
Proof.
  unfold uva2ka. erewrite bind_ret; [|by eapply walk_missing]. done.
Qed.
