(* ===== verification/Hw.v ===== *)
(** * Device registers ([x86.h], [ioapic.c], [picirq.c], [lapic.c], [uart.c])

    The drivers as programs over any hardware that answers port and memory-mapped
    accesses.  A loop that waits for a device takes the number of times it may
    ask. *)
From S2P Require Import Prelude.

(** The instructions that reach a device: [in], [out], [rep insl], [rep outsl],
    and loads and stores of device memory. *)
Class Hardware (D : Type) := {
  inb : Z -> M D Z;
  outb : Z -> Z -> M D unit;
  insl : Z -> nat -> M D (list Z);
  outsl : Z -> list Z -> M D unit;
  mmio_read : Z -> M D Z;
  mmio_write : Z -> Z -> M D unit;
  mem_write16 : Z -> Z -> M D unit;
}.

Definition T_IRQ0 : Z := 32.
Definition IRQ_TIMER : Z := 0.
Definition IRQ_KBD : Z := 1.
Definition IRQ_COM1 : Z := 4.
Definition IRQ_IDE : Z := 14.
Definition IRQ_ERROR : Z := 19.
Definition IRQ_SPURIOUS : Z := 31.

Section Drivers.
Context {D : Type} {HW : Hardware D}.

(** ** [ioapic.c] *)

Definition IOAPIC : Z := 4273995776.
Definition REG_ID : Z := 0.
Definition REG_VER : Z := 1.
Definition REG_TABLE : Z := 16.
Definition INT_DISABLED : Z := 65536.

(** [struct ioapic]: [reg] at offset 0, [data] at offset 16. *)
Definition ioapicread (reg : Z) : M D Z :=
  mmio_write IOAPIC reg ;;
  mmio_read (IOAPIC + 16).

Definition ioapicwrite (reg data : Z) : M D unit :=
  mmio_write IOAPIC reg ;;
  mmio_write (IOAPIC + 16) data.

Definition ioapic_mask (i : nat) : M D unit :=
  ioapicwrite (REG_TABLE + 2 * Z.of_nat i) (Z.lor INT_DISABLED (T_IRQ0 + Z.of_nat i)) ;;
  ioapicwrite (REG_TABLE + 2 * Z.of_nat i + 1) 0.

(** The flag says that [cprintf] complains about the id. *)
Definition ioapicinit (ioapicid : Z) : M D bool :=
  let! ver := ioapicread REG_VER in
  let maxintr := Z.land (Z.shiftr ver 16) 255 in
  let! id := ioapicread REG_ID in
  for_each (indices (Z.to_nat (maxintr + 1))) ioapic_mask ;;
  ret (negb (Z.shiftr id 24 =? ioapicid)).

Definition ioapicenable (irq cpunum : Z) : M D unit :=
  ioapicwrite (REG_TABLE + 2 * irq) (T_IRQ0 + irq) ;;
  ioapicwrite (REG_TABLE + 2 * irq + 1) (u32 (Z.shiftl cpunum 24)).

(** ** [picirq.c] *)

Definition IO_PIC1 : Z := 32.
Definition IO_PIC2 : Z := 160.

Definition picinit : M D unit :=
  outb (IO_PIC1 + 1) 255 ;;
  outb (IO_PIC2 + 1) 255.

(** ** [lapic.c]

    [lapic]: the address of the registers, 0 before [mpinit]. *)
Context (lapic : Z).

Definition ID : Z := 8.
Definition VER : Z := 12.
Definition TPR : Z := 32.
Definition EOI : Z := 44.
Definition SVR : Z := 60.
Definition ENABLE : Z := 256.
Definition ESR : Z := 160.
Definition ICRLO : Z := 192.
Definition INIT : Z := 1280.
Definition STARTUP : Z := 1536.
Definition DELIVS : Z := 4096.
Definition ASSERT : Z := 16384.
Definition LEVEL : Z := 32768.
Definition BCAST : Z := 524288.
Definition ICRHI : Z := 196.
Definition TIMER : Z := 200.
Definition X1 : Z := 11.
Definition PERIODIC : Z := 131072.
Definition PCINT : Z := 208.
Definition LINT0 : Z := 212.
Definition LINT1 : Z := 216.
Definition ERROR : Z := 220.
Definition MASKED : Z := 65536.
Definition TICR : Z := 224.
Definition TDCR : Z := 248.

Definition lapicr (index : Z) : M D Z := mmio_read (lapic + 4 * index).

Definition lapicw (index value : Z) : M D unit :=
  mmio_write (lapic + 4 * index) value ;;
  lapicr ID ;;
  ret tt.

(** [while(lapic[ICRLO] & DELIVS);] *)
Fixpoint wait_delivered (fuel : nat) : M D unit :=
  match fuel with
  | O => fault "fuel"
  | S k =>
      let! r := lapicr ICRLO in
      if nz (Z.land r DELIVS) then wait_delivered k else ret tt
  end.

Definition lapicinit (polls : nat) : M D unit :=
  if lapic =? 0 then ret tt
  else
    lapicw SVR (Z.lor ENABLE (T_IRQ0 + IRQ_SPURIOUS)) ;;
    lapicw TDCR X1 ;;
    lapicw TIMER (Z.lor PERIODIC (T_IRQ0 + IRQ_TIMER)) ;;
    lapicw TICR 10000000 ;;
    lapicw LINT0 MASKED ;;
    lapicw LINT1 MASKED ;;
    let! ver := lapicr VER in
    when (4 <=? Z.land (Z.shiftr ver 16) 255) (lapicw PCINT MASKED) ;;
    lapicw ERROR (T_IRQ0 + IRQ_ERROR) ;;
    lapicw ESR 0 ;;
    lapicw ESR 0 ;;
    lapicw EOI 0 ;;
    lapicw ICRHI 0 ;;
    lapicw ICRLO (Z.lor (Z.lor BCAST INIT) LEVEL) ;;
    wait_delivered polls ;;
    lapicw TPR 0.

Definition lapicid : M D Z :=
  if lapic =? 0 then ret 0
  else let! r := lapicr ID in ret (Z.shiftr r 24).

Definition lapiceoi : M D unit := if lapic =? 0 then ret tt else lapicw EOI 0.

Definition CMOS_PORT : Z := 112.
Definition CMOS_RETURN : Z := 113.

(** [P2V(0x40<<4 | 0x67)]. *)
Definition warm_reset : Z := 2147484775.

(** [microdelay] does nothing. *)
Definition lapicstartap (apicid addr : Z) : M D unit :=
  outb CMOS_PORT 15 ;;
  outb (CMOS_PORT + 1) 10 ;;
  mem_write16 warm_reset 0 ;;
  mem_write16 (warm_reset + 2) (u16 (Z.shiftr addr 4)) ;;
  lapicw ICRHI (u32 (Z.shiftl apicid 24)) ;;
  lapicw ICRLO (Z.lor (Z.lor INIT LEVEL) ASSERT) ;;
  lapicw ICRLO (Z.lor INIT LEVEL) ;;
  for_each (indices 2) (fun _ =>
    lapicw ICRHI (u32 (Z.shiftl apicid 24)) ;;
    lapicw ICRLO (Z.lor STARTUP (Z.shiftr addr 12))).

(** *** The clock *)

Record rtcdate := mkdate { second : Z; minute : Z; hour : Z; day : Z; month : Z; year : Z }.

#[global] Instance rtcdate_eq : EqDecision rtcdate.
Proof. solve_decision. Defined.

Definition CMOS_STATA : Z := 10.
Definition CMOS_STATB : Z := 11.
Definition CMOS_UIP : Z := 128.

Definition cmos_read (reg : Z) : M D Z :=
  outb CMOS_PORT reg ;;
  inb CMOS_RETURN.

Definition fill_rtcdate : M D rtcdate :=
  let! s := cmos_read 0 in
  let! m := cmos_read 2 in
  let! h := cmos_read 4 in
  let! d := cmos_read 7 in
  let! mo := cmos_read 8 in
  let! y := cmos_read 9 in
  ret (mkdate s m h d mo y).

(** Read until the clock does not change between two readings. *)
Fixpoint cmos_stable (fuel : nat) : M D rtcdate :=
  match fuel with
  | O => fault "fuel"
  | S k =>
      let! t1 := fill_rtcdate in
      let! a := cmos_read CMOS_STATA in
      if nz (Z.land a CMOS_UIP) then cmos_stable k
      else
        let! t2 := fill_rtcdate in
        if bool_decide (t1 = t2) then ret t1 else cmos_stable k
  end.

Definition CONV (x : Z) : Z := Z.shiftr x 4 * 10 + Z.land x 15.

Definition cmostime (polls : nat) : M D rtcdate :=
  let! sb := cmos_read CMOS_STATB in
  let bcd := Z.land sb 4 =? 0 in
  let! t1 := cmos_stable polls in
  let t1 := if bcd then mkdate (CONV (second t1)) (CONV (minute t1)) (CONV (hour t1)) (CONV (day t1)) (CONV (month t1)) (CONV (year t1)) else t1 in
  ret (mkdate (second t1) (minute t1) (hour t1) (day t1) (month t1) (year t1 + 2000)).

End Drivers.

(** ** [uart.c] *)

(** [uart]: is there a serial port?  With the hardware. *)
Record serial (D : Type) := mkserial { uart : Z; sdev : D }.
Arguments mkserial {D} uart sdev.
Arguments uart {D} s.
Arguments sdev {D} s.

Section Uart.
Context {D : Type} {HW : Hardware D}.

Abbreviation UA := (M (serial D)).

Definition on_dev {A} (m : M D A) : UA A := zoom sdev (fun d s => mkserial (uart s) d) m.

Definition COM1 : Z := 1016.

(** Up to 128 times while the transmitter is not ready. *)
Fixpoint wait_transmit (k : nat) : M D unit :=
  match k with
  | O => ret tt
  | S k =>
      let! r := inb (COM1 + 5) in
      if Z.land r 32 =? 0 then wait_transmit k else ret tt
  end.

Definition uartputc (c : Z) : UA unit :=
  let! s := get in
  if uart s =? 0 then ret tt
  else on_dev (wait_transmit 128 ;; outb COM1 (u8 c)).

(** "xv6...\n". *)
Definition announce : list Z := [120; 118; 54; 46; 46; 46; 10].

Definition uartinit : UA unit :=
  on_dev (outb (COM1 + 2) 0 ;;
          outb (COM1 + 3) 128 ;;
          outb COM1 (115200 / 9600) ;;
          outb (COM1 + 1) 0 ;;
          outb (COM1 + 3) 3 ;;
          outb (COM1 + 4) 0 ;;
          outb (COM1 + 1) 1) ;;
  let! st := on_dev (inb (COM1 + 5)) in
  if st =? 255 then ret tt
  else
    modify (fun s => mkserial 1 (sdev s)) ;;
    on_dev (inb (COM1 + 2) ;; inb COM1 ;; ioapicenable IRQ_COM1 0) ;;
    for_each announce uartputc.

(** -1 when there is nothing. *)
Definition uartgetc : UA Z :=
  let! s := get in
  if uart s =? 0 then ret (-1)
  else
    let! st := on_dev (inb (COM1 + 5)) in
    if Z.land st 1 =? 0 then ret (-1) else on_dev (inb COM1).

End Uart.
