(* ===== verification/Mp.v ===== *)
(** * The multiprocessor tables ([mp.c], [mp.h])

    The search for the BIOS tables and the reading of the configuration table.  A
    well-formed table yields exactly its processors and its I/O APIC; a table with
    an entry of an unknown type is never left. *)
From S2P Require Import Prelude Str Kalloc Hw.

Definition NCPU : nat := 8.
Definition MPPROC : Z := 0.
Definition MPBUS : Z := 1.
Definition MPIOAPIC : Z := 2.
Definition MPIOINTR : Z := 3.
Definition MPLINTR : Z := 4.

Definition load16 (m : mem) (a : Z) : Z := m a + 256 * m (a + 1).

(** The fields of [struct mp], of 16 bytes. *)
Definition mp_physaddr (m : mem) (mp : Z) : Z := load32 m (mp + 4).
Definition mp_imcrp (m : mem) (mp : Z) : Z := m (mp + 12).

(** The fields of [struct mpconf], of 44 bytes. *)
Definition conf_length (m : mem) (conf : Z) : Z := load16 m (conf + 4).
Definition conf_version (m : mem) (conf : Z) : Z := m (conf + 6).
Definition conf_lapicaddr (m : mem) (conf : Z) : Z := load32 m (conf + 36).

(** [memcmp(p, lit, 4) == 0] for a string literal. *)
Definition signed_by (m : mem) (p : Z) (lit : list Z) : bool := bool_decide (peek m p (Z.of_nat (length lit)) = lit).

Fixpoint sum_loop (m : mem) (addr : Z) (len : nat) (acc : Z) : Z :=
  match len with
  | O => acc
  | S k => sum_loop m (addr + 1) k (acc + m addr)
  end.

Definition sum (m : mem) (addr len : Z) : Z := u8 (sum_loop m addr (Z.to_nat len) 0).

Fixpoint search_loop (m : mem) (p : Z) (n : nat) : option Z :=
  match n with
  | O => None
  | S k =>
      if signed_by m p [95; 77; 80; 95] && (sum m p 16 =? 0) then Some p
      else search_loop m (p + 16) k
  end.

(** [n]: the structures that fit in [len] bytes, the last one perhaps in part. *)
Definition mpsearch1 (m : mem) (a len : Z) : option Z := search_loop m (P2V a) (Z.to_nat ((len + 15) / 16)).

Definition mpsearch (m : mem) : option Z :=
  let bda := P2V 1024 in
  let p := Z.shiftl (Z.lor (Z.shiftl (m (bda + 15)) 8) (m (bda + 14))) 4 in
  let found :=
    if nz p then mpsearch1 m p 1024
    else mpsearch1 m (u32 (Z.lor (Z.shiftl (m (bda + 20)) 8) (m (bda + 19)) * 1024 - 1024)) 1024 in
  match found with
  | Some mp => Some mp
  | None => mpsearch1 m 983040 65536
  end.

Definition mpconfig (m : mem) : option (Z * Z) :=
  match mpsearch m with
  | None => None
  | Some mp =>
      if mp_physaddr m mp =? 0 then None
      else
        let conf := P2V (mp_physaddr m mp) in
        if negb (signed_by m conf [80; 67; 77; 80]) then None
        else if negb (conf_version m conf =? 1) && negb (conf_version m conf =? 4) then None
        else if negb (sum m conf (conf_length m conf) =? 0) then None
        else Some (mp, conf)
  end.

(** The [apicid]s of [cpus[0..ncpu)], [ioapicid], [lapic] and the hardware. *)
Record mpst (D : Type) := mkmpst { apicids : list Z; ioapicid : Z; lapic : Z; mpdev : D }.
Arguments mkmpst {D} apicids ioapicid lapic mpdev.
Arguments apicids {D} m.
Arguments ioapicid {D} m.
Arguments lapic {D} m.
Arguments mpdev {D} m.

Section Mpinit.
Context {D : Type} {HW : Hardware D}.

Abbreviation MM := (M (mpst D)).

Definition add_cpu (id : Z) (s : mpst D) : mpst D :=
  if (length (apicids s) <? NCPU)%nat then mkmpst (apicids s ++ [id]) (ioapicid s) (lapic s) (mpdev s) else s.

(** The loop over the entries, which keeps [ismp].  Its [break] leaves only the
    switch. *)
Fixpoint entries_loop (fuel : nat) (m : mem) (p e : Z) (ismp : bool) : MM bool :=
  match fuel with
  | O => fault "fuel"
  | S k =>
      if negb (p <? e) then ret ismp
      else if m p =? MPPROC then modify (add_cpu (m (p + 1))) ;; entries_loop k m (p + 20) e ismp
      else if m p =? MPIOAPIC then
        modify (fun s => mkmpst (apicids s) (m (p + 1)) (lapic s) (mpdev s)) ;;
        entries_loop k m (p + 8) e ismp
      else if (m p =? MPBUS) || (m p =? MPIOINTR) || (m p =? MPLINTR) then entries_loop k m (p + 8) e ismp
      else entries_loop k m p e false
  end.

Definition on_mpdev {A} (c : M D A) : MM A := zoom mpdev (fun d s => mkmpst (apicids s) (ioapicid s) (lapic s) d) c.

Definition mpinit (fuel : nat) (m : mem) : MM unit :=
  match mpconfig m with
  | None => panic "Expect to run on an SMP"
  | Some (mp, conf) =>
      modify (fun s => mkmpst (apicids s) (ioapicid s) (conf_lapicaddr m conf) (mpdev s)) ;;
      let! ismp := entries_loop fuel m (conf + 44) (conf + conf_length m conf) true in
      if negb ismp then panic "Didn't find a suitable machine"
      else
        when (nz (mp_imcrp m mp))
          (on_mpdev (outb 34 112 ;;
                     let! v := inb 35 in
                     outb 35 (Z.lor v 1)))
  end.

End Mpinit.

(** ** Tables *)

(** The entries of a configuration table, with the bytes that are not looked at. *)
Inductive entry :=
| EProc (apicid : Z) (rest : list Z)
| EIoapic (apicno : Z) (rest : list Z)
| EOther (type : Z) (rest : list Z).

Definition entry_ok (x : entry) : bool :=
  match x with
  | EProc _ rest => (length rest =? 18)%nat
  | EIoapic _ rest => (length rest =? 6)%nat
  | EOther type rest => ((type =? MPBUS) || (type =? MPIOINTR) || (type =? MPLINTR)) && (length rest =? 7)%nat
  end.

Definition encode (x : entry) : list Z :=
  match x with
  | EProc id rest => MPPROC :: id :: rest
  | EIoapic id rest => MPIOAPIC :: id :: rest
  | EOther type rest => type :: rest
  end.

Definition cpu_of (x : entry) : option Z := match x with EProc id _ => Some id | _ => None end.
Definition ioapic_of (x : entry) : option Z := match x with EIoapic id _ => Some id | _ => None end.

Lemma encode_length x : entry_ok x = true -> length (encode x) = match x with EProc _ _ => 20%nat | _ => 8%nat end.
Proof. destruct x; cbn; intros H; b2p; lia. Qed.

Section Init.
Context {D : Type} {HW : Hardware D}.
Implicit Types s : mpst D.

(** What an entry does. *)
Definition enter s (x : entry) : mpst D :=
  match x with
  | EProc id _ => add_cpu id s
  | EIoapic id _ => mkmpst (apicids s) id (lapic s) (mpdev s)
  | EOther _ _ => s
  end.

Lemma mp_entry_run k m p e ismp x s : p < e -> entry_ok x = true -> holds m p (encode x) ->
  entries_loop (S k) m p e ismp s = entries_loop k m (p + Z.of_nat (length (encode x))) e ismp (enter s x).
Proof.
  intros Hp Hx Hs. rewrite (encode_length x Hx). cbn [entries_loop]. rewrite (proj2 (Z.ltb_lt _ _) Hp). cbn [negb].
  assert (m p = hd 0 (encode x)) as E0.
  { rewrite <- (Hs 0%nat (hd 0 (encode x))) by (by destruct x). f_equal. lia. }
  rewrite E0. destruct x as [id rest|id rest|ty rest]; cbn [encode hd enter] in *.
  - rewrite <- (Hs 1%nat id) by done. done.
  - rewrite <- (Hs 1%nat id) by done. done.
  - cbn in Hx. destruct (Z.eqb_spec ty MPPROC) as [->|]; [done|]. destruct (Z.eqb_spec ty MPIOAPIC) as [->|]; [done|].
    apply andb_true_iff in Hx as [-> _]. done.
Qed.

Lemma entries_run m e es : forall k p ismp s, forallb entry_ok es = true -> holds m p (es ≫= encode) ->
  p + Z.of_nat (length (es ≫= encode)) <= e ->
  entries_loop (length es + k) m p e ismp s = entries_loop k m (p + Z.of_nat (length (es ≫= encode))) e ismp (foldl enter s es).
Proof.
  induction es as [|x es IH]; intros k p ismp s Hes Hs He; [by rewrite Z.add_0_r|].
  cbn [forallb] in Hes. apply andb_true_iff in Hes as [Hx Hes]. change ((x :: es) ≫= encode) with (encode x ++ (es ≫= encode)) in *.
  apply holds_app in Hs as [Hs1 Hs2]. rewrite length_app in He. cbn [length Nat.add foldl].
  rewrite (mp_entry_run _ _ _ _ _ x) by (done || (rewrite (encode_length x Hx) in He; destruct x; lia)).
  rewrite IH by (done || lia). rewrite length_app. f_equal. lia.
Qed.

(** The state after the entries: the first [NCPU] processors and the last I/O APIC. *)
Lemma enter_all es : forall s, (length (apicids s) <= NCPU)%nat -> foldl enter s es =
  mkmpst (take NCPU (apicids s ++ omap cpu_of es)) (default (ioapicid s) (last (omap ioapic_of es))) (lapic s) (mpdev s).
Proof.
  induction es as [|x es IH]; intros s Hs; cbn [foldl omap list_omap].
  - rewrite app_nil_r, take_ge by done. by destruct s.
  - destruct x as [id rest|id rest|ty rest]; cbn [enter cpu_of ioapic_of].
    + unfold add_cpu. destruct (Nat.ltb_spec (length (apicids s)) NCPU) as [H|H].
      * rewrite IH by (cbn [apicids]; rewrite length_app; cbn; lia). cbn [apicids ioapicid lapic mpdev]. by rewrite <- app_assoc.
      * rewrite IH by done. f_equal. rewrite !take_app_le by lia. done.
    + rewrite IH by done. cbn [apicids ioapicid lapic mpdev]. f_equal. rewrite last_cons. by destruct (last _).
    + by rewrite IH.
Qed.

(** An entry of an unknown type: the loop stays where it is. *)
Lemma entries_stuck fuel m p e : forall ismp s, p < e -> ~ (0 <= m p <= 4) -> entries_loop fuel m p e ismp s = Stop (Fault "fuel").
Proof.
  induction fuel as [|k IH]; intros ismp s Hp Hm; [done|]. cbn [entries_loop]. rewrite (proj2 (Z.ltb_lt _ _) Hp). cbn [negb].
  unfold MPPROC, MPIOAPIC, MPBUS, MPIOINTR, MPLINTR. rewrite !(proj2 (Z.eqb_neq (m p) _)) by lia. cbn [orb]. by apply IH.
Qed.

End Init.

(** C27: When the BIOS has a configuration table that [mpconfig] accepts and that
    consists of well-formed entries, [mpinit] ends after one turn per entry: the
    processors are the first 8 of the table in its order, the I/O APIC is the last
    one of the table, the local APIC is where the table says, and the interrupt
    mode register is written exactly if the floating structure asks for it. *)
Theorem mpinit_table {D : Type} {HW : Hardware D} (fuel : nat) (m : mem) (mp conf : Z) (es : list entry) (s : mpst D)
    (Hc : mpconfig m = Some (mp, conf)) (Hes : forallb entry_ok es = true) (Hst : holds m (conf + 44) (es ≫= encode))
    (Hlen : conf_length m conf = 44 + Z.of_nat (length (es ≫= encode))) (Hf : (length es < fuel)%nat) (Hs : apicids s = []) :
  mpinit fuel m s =
    when (nz (mp_imcrp m mp)) (on_mpdev (outb 34 112 ;; let! v := inb 35 in outb 35 (Z.lor v 1)))
      (mkmpst (take NCPU (omap cpu_of es)) (default (ioapicid s) (last (omap ioapic_of es))) (conf_lapicaddr m conf) (mpdev s)).
Proof.
  unfold mpinit. rewrite Hc. replace fuel with (length es + S (fuel - length es - 1))%nat by lia.
  unfold modify. unfold bind at 1. unfold bind at 1. rewrite entries_run by (done || lia).
  cbn [entries_loop]. rewrite Hlen, (proj2 (Z.ltb_ge _ _)) by lia. cbn [negb]. unfold ret at 1. cbn [negb].
  rewrite enter_all by (cbn [apicids]; rewrite Hs; cbn; lia). cbn [apicids ioapicid lapic mpdev]. by rewrite Hs.
Qed.

(** C39: After an entry of a type that [mp.h] does not know, [mpinit] does not reach
    its panic: the loop goes on for ever at that entry, whatever the number of
    turns. *)
Theorem mpinit_unknown_entry {D : Type} {HW : Hardware D} (fuel : nat) (m : mem) (mp conf x : Z) (es : list entry) (s : mpst D)
    (Hc : mpconfig m = Some (mp, conf)) (Hes : forallb entry_ok es = true) (Hst : holds m (conf + 44) ((es ≫= encode) ++ [x]))
    (Hlen : 44 + Z.of_nat (length (es ≫= encode)) < conf_length m conf) (Hx : 4 < x) :
  mpinit fuel m s = Stop (Fault "fuel").
Proof.
  unfold mpinit. rewrite Hc. unfold modify. unfold bind at 1. unfold bind at 1. apply holds_app in Hst as [Hst Hx'].
  specialize (Hx' 0%nat x eq_refl). rewrite Z.add_0_r in Hx'. destruct (Nat.le_gt_cases (length es) fuel) as [Hf|Hf].
  - replace fuel with (length es + (fuel - length es))%nat by lia. rewrite entries_run by (done || lia). rewrite entries_stuck; [done|lia|lia].
  - assert (length (take fuel es) = fuel) as L by (rewrite length_take; lia). rewrite <- (take_drop fuel es) in Hes, Hst, Hlen.
    rewrite forallb_app in Hes. apply andb_true_iff in Hes as [Hes _]. rewrite bind_app in Hst, Hlen. apply holds_app in Hst as [Hst _].
    rewrite length_app in Hlen. rewrite <- L at 1. rewrite <- (Nat.add_0_r (length _)), entries_run by (done || lia). done.
Qed.

(** A machine with two processors for the witnesses: the floating structure at the
    start of the extended BIOS area, the table behind it. *)
Definition demo_proc (id : Z) : entry := EProc id (replicate 18 0).
Definition demo_entries : list entry := [demo_proc 0; EOther MPBUS (replicate 7 0); demo_proc 1; EIoapic 2 (replicate 6 0)].
Definition demo_float : list Z := [95; 77; 80; 95; 16; 252; 9; 0; 1; 4; 139; 0; 0; 0; 0; 0].
Definition demo_conf (last_entry : list Z) (check : Z) : list Z :=
  [80; 67; 77; 80; 44 + Z.of_nat (length ((demo_entries ≫= encode) ++ last_entry)); 0; 4; check] ++ replicate 20 0 ++ replicate 8 0 ++ [0; 0; 224; 254; 0; 0; 0; 0].
Definition demo_mem (last_entry : list Z) (check : Z) : mem :=
  poke (poke (poke (fun _ => 0) (P2V 1038) [192; 159]) (P2V 654336) demo_float) (P2V 654352) (demo_conf last_entry check ++ (demo_entries ≫= encode) ++ last_entry).

#[local] Instance no_hw : Hardware unit :=
  { inb _ := ret 0; outb _ _ := ret tt; insl _ _ := ret []; outsl _ _ := ret tt; mmio_read _ := ret 0; mmio_write _ _ := ret tt; mem_write16 _ _ := ret tt }.

Lemma demo_stored last_entry check : holds (demo_mem last_entry check) (P2V 654352 + 44) ((demo_entries ≫= encode) ++ last_entry).
Proof. apply (holds_app _ _ (demo_conf last_entry check)), holds_poke. Qed.

(** [mpinit_table] for that machine. *)
Lemma mpinit_table_witness : mpinit 5 (demo_mem [] 132) (mkmpst [] 0 0 tt) = Ret tt (mkmpst [0; 1] 2 4276092928 tt).
Proof.
  apply (mpinit_table 5 (demo_mem [] 132) (P2V 654336) (P2V 654352) demo_entries); [by vm_compute|done| |by vm_compute|cbn; lia|done].
  pose proof (demo_stored [] 132) as H. by rewrite app_nil_r in H.
Defined.

(** [mpinit_unknown_entry] for the same table with an entry of type 9. *)
Lemma mpinit_unknown_entry_witness : mpinit 1000 (demo_mem [9] 122) (mkmpst [] 0 0 tt) = Stop (Fault "fuel").
Proof.
  apply (mpinit_unknown_entry 1000 (demo_mem [9] 122) (P2V 654336) (P2V 654352) 9 demo_entries); [by vm_compute|done|apply demo_stored|by vm_compute|lia].
Defined.
