(* ===== verification/Pipe.v ===== *)
(** * Pipes ([pipe.c])

    [pipewrite] and [piperead] hold the pipe's lock except while they sleep, so
    each runs in segments: from the call, or from a wakeup, to the return or the
    next [sleep].  A segment is a function of the pipe; it also says which
    channels it woke.  [System] interleaves the segments of any number of
    readers and writers. *)
From S2P Require Import Prelude.

Definition PIPESIZE : Z := 512.

Record pipe := mkpipe {
  data : list Z;
  nread : Z;
  nwrite : Z;
  readopen : Z;
  writeopen : Z;
}.

(** The two channels processes sleep on: [&p->nread] and [&p->nwrite]. *)
Inductive chan := NREAD | NWRITE.

#[global] Instance chan_eq_dec : EqDecision chan.
Proof. solve_decision. Defined.

(** How a segment ends: with a result, or asleep with work left. *)
Inductive wres := WRet (r : Z) | WSleep (rest : list Z).
Inductive rres := RRet (r : Z) (bytes : list Z) | RSleep.

Definition pipe_full (p : pipe) : bool := nwrite p =? u32 (nread p + PIPESIZE).

Definition put_byte (c : Z) (p : pipe) : pipe :=
  mkpipe (<[Z.to_nat (nwrite p mod PIPESIZE) := c]> (data p))
    (nread p) (u32 (nwrite p + 1)) (readopen p) (writeopen p).

(** The loop over [addr[i..n)], [rest] being the bytes not yet written. *)
Fixpoint pipewrite (n : Z) (rest : list Z) (killed : bool) (p : pipe)
  : wres * pipe * list chan :=
  match rest with
  | [] => (WRet n, p, [NREAD])
  | c :: r =>
      if pipe_full p then
        if (readopen p =? 0) || killed then (WRet (-1), p, [])
        else (WSleep rest, p, [NREAD])
      else pipewrite n r killed (put_byte c p)
  end.

Definition get_byte (p : pipe) : Z * pipe :=
  (data p !!! Z.to_nat (nread p mod PIPESIZE),
   mkpipe (data p) (u32 (nread p + 1)) (nwrite p) (readopen p) (writeopen p)).

Fixpoint read_loop (n : nat) (p : pipe) : list Z * pipe :=
  match n with
  | O => ([], p)
  | S k =>
      if nread p =? nwrite p then ([], p)
      else let (c, p1) := get_byte p in
           let (l, p2) := read_loop k p1 in (c :: l, p2)
  end.

Definition piperead (n : Z) (killed : bool) (p : pipe) : rres * pipe * list chan :=
  if (nread p =? nwrite p) && nz (writeopen p) then
    if killed then (RRet (-1) [], p, []) else (RSleep, p, [])
  else
    let (l, p') := read_loop (Z.to_nat n) p in
    (RRet (Z.of_nat (length l)) l, p', [NWRITE]).

(** [pipeclose]; the boolean says that both ends are closed and the page is
    freed. *)
Definition pipeclose (writable : bool) (p : pipe) : bool * pipe * list chan :=
  let p' :=
    if writable then mkpipe (data p) (nread p) (nwrite p) (readopen p) 0
    else mkpipe (data p) (nread p) (nwrite p) 0 (writeopen p) in
  ((readopen p' =? 0) && (writeopen p' =? 0), p',
   if writable then [NREAD] else [NWRITE]).

(** The initialisation in [pipealloc] of the page at hand. *)
Definition pipe_init (page : list Z) : pipe := mkpipe page 0 0 1 1.

(** ** Abstract contents *)

Definition avail (p : pipe) : Z := u32 (nwrite p - nread p).

Definition contents (p : pipe) : list Z :=
  (fun k => data p !!! Z.to_nat ((nread p + k) mod PIPESIZE)) <$> seqZ 0 (avail p).

Definition pipe_ok (p : pipe) : Prop :=
  length (data p) = 512%nat /\ 0 <= nread p < 4294967296 /\
  0 <= nwrite p < 4294967296 /\ avail p <= PIPESIZE.

Lemma length_contents p : length (contents p) = Z.to_nat (avail p).
Proof. unfold contents. by rewrite length_fmap, length_seqZ. Qed.

Lemma avail_range p : 0 <= avail p < 4294967296.
Proof. apply u32_range. Qed.

Lemma pipe_full_avail p : pipe_ok p -> pipe_full p = (avail p =? PIPESIZE).
Proof.
  intros (_ & Hr & Hw & Ha). unfold pipe_full, avail, u32, PIPESIZE in *.
  apply eq_true_iff_eq. rewrite !Z.eqb_eq.
  split; Z.to_euclidean_division_equations; lia.
Qed.

Lemma pipe_empty_avail p : pipe_ok p -> (nread p =? nwrite p) = (avail p =? 0).
Proof.
  intros (_ & Hr & Hw & Ha). unfold avail, u32, PIPESIZE in *.
  apply eq_true_iff_eq. rewrite !Z.eqb_eq.
  split; Z.to_euclidean_division_equations; lia.
Qed.

(** 512 divides the range of the counters, so the write position follows the
    contents also when a counter wraps around. *)
Lemma write_slot p k :
  pipe_ok p -> 0 <= k <= avail p -> avail p < PIPESIZE ->
  (nread p + k) mod PIPESIZE = nwrite p mod PIPESIZE <-> k = avail p.
Proof.
  intros (_ & Hr & Hw & _). unfold avail, u32, PIPESIZE. intros.
  split; Z.to_euclidean_division_equations; lia.
Qed.

Lemma put_byte_ok c p :
  pipe_ok p -> avail p < PIPESIZE ->
  pipe_ok (put_byte c p) /\ avail (put_byte c p) = avail p + 1.
Proof.
  intros Hp Ha. pose proof (avail_range p).
  assert (avail (put_byte c p) = avail p + 1) as E.
  { destruct Hp as (_ & Hr & Hw & _). unfold avail, put_byte, u32, PIPESIZE in *.
    cbn. Z.to_euclidean_division_equations; lia. }
  split; [|done]. destruct Hp as (Hl & Hr & Hw & _).
  unfold pipe_ok. rewrite E. cbn. rewrite length_insert.
  pose proof (u32_range (nwrite p + 1)). lia.
Qed.

Lemma put_byte_contents c p :
  pipe_ok p -> avail p < PIPESIZE -> contents (put_byte c p) = contents p ++ [c].
Proof.
  intros Hp Ha. pose proof (avail_range p). unfold contents.
  rewrite (proj2 (put_byte_ok c p Hp Ha)).
  rewrite seqZ_app by lia. rewrite fmap_app. f_equal.
  - apply list_fmap_ext. intros i k [-> Hk]%lookup_seqZ. cbn.
    rewrite list_lookup_total_insert_ne; [done|].
    intros E. assert ((nread p + (0 + Z.of_nat i)) mod PIPESIZE = nwrite p mod PIPESIZE)
      as E'%(write_slot p _ Hp) by
      (apply Z2Nat.inj; [apply Z.mod_pos_bound; done..|done]); lia.
  - rewrite seqZ_cons by lia. cbn. f_equal. rewrite Z.add_0_l.
    rewrite (proj2 (write_slot p (avail p) Hp ltac:(lia) Ha) eq_refl).
    apply list_lookup_total_insert_eq. rewrite (proj1 Hp).
    pose proof (Z.mod_pos_bound (nwrite p) PIPESIZE ltac:(done)).
    unfold PIPESIZE in *. lia.
Qed.

Lemma get_byte_ok p :
  pipe_ok p -> 0 < avail p ->
  pipe_ok (get_byte p).2 /\ contents p = (get_byte p).1 :: contents (get_byte p).2.
Proof.
  intros Hp Ha. pose proof (avail_range p).
  assert (avail (get_byte p).2 = avail p - 1) as E.
  { destruct Hp as (_ & Hr & Hw & _). unfold avail, get_byte, u32, PIPESIZE in *.
    cbn. Z.to_euclidean_division_equations; lia. }
  split.
  - destruct Hp as (Hl & Hr & Hw & ?). pose proof (u32_range (nread p + 1)).
    unfold pipe_ok. rewrite E. cbn. lia.
  - unfold contents. rewrite E. rewrite seqZ_cons by lia. cbn. f_equal.
    { by rewrite Z.add_0_r. }
    change (Z.succ 0) with (1 + 0). rewrite <- fmap_add_seqZ, <- list_fmap_compose.
    replace (Z.pred (avail p)) with (avail p - 1) by lia.
    apply list_fmap_ext. intros _ k _. cbn. do 2 f_equal.
    unfold u32, PIPESIZE. Z.to_euclidean_division_equations; lia.
Qed.

Lemma pipewrite_run n rest killed p :
  pipe_ok p ->
  let room := Z.to_nat (PIPESIZE - avail p) in
  let '(res, p', wk) := pipewrite n rest killed p in
  pipe_ok p' /\ contents p' = contents p ++ take room rest /\
  readopen p' = readopen p /\ writeopen p' = writeopen p /\
  (res, wk) =
    if (length rest <=? room)%nat then (WRet n, [NREAD])
    else if (readopen p =? 0) || killed then (WRet (-1), [])
    else (WSleep (drop room rest), [NREAD]).
Proof.
  revert p. induction rest as [|c rest IH]; intros p Hp room; cbn [pipewrite].
  - rewrite take_nil, app_nil_r. done.
  - pose proof (avail_range p). rewrite pipe_full_avail by done.
    destruct (Z.eqb_spec (avail p) PIPESIZE) as [E|E].
    + assert (room = 0%nat) as -> by (subst room; lia).
      cbn [length Nat.leb take drop].
      destruct (_ || killed); rewrite app_nil_r; done.
    + assert (avail p < PIPESIZE) as Ha by (destruct Hp as (_ & _ & _ & ?); lia).
      destruct (put_byte_ok c p Hp Ha) as [Hp1 Ha1].
      specialize (IH _ Hp1). rewrite Ha1 in IH.
      replace room with (S (Z.to_nat (PIPESIZE - (avail p + 1)))) by (subst room; lia).
      destruct (pipewrite n rest killed (put_byte c p)) as [[res p'] wk].
      destruct IH as (H1 & H2 & H3 & H4 & H5).
      rewrite (put_byte_contents c p Hp Ha), <- (assoc_L (++)) in H2. done.
Qed.

Lemma read_loop_run n p :
  pipe_ok p ->
  let '(l, p') := read_loop n p in
  pipe_ok p' /\ l = take n (contents p) /\ contents p' = drop n (contents p) /\
  readopen p' = readopen p /\ writeopen p' = writeopen p.
Proof.
  revert p. induction n as [|n IH]; intros p Hp; cbn [read_loop]; [done|].
  pose proof (avail_range p). rewrite pipe_empty_avail by done.
  destruct (Z.eqb_spec (avail p) 0) as [E|E].
  - assert (contents p = []) as ->
      by (apply nil_length_inv; rewrite length_contents; lia). done.
  - destruct (get_byte_ok p Hp ltac:(lia)) as [Hp1 Hc].
    destruct (get_byte p) as [c p1] eqn:Eg. cbn in *. specialize (IH p1 Hp1).
    destruct (read_loop n p1) as [l p2]. destruct IH as (H1 & -> & H3 & H4 & H5).
    unfold get_byte in Eg. simplify_eq/=. rewrite Hc. done.
Qed.

Lemma piperead_run n killed p :
  pipe_ok p ->
  let '(res, p', wk) := piperead n killed p in
  pipe_ok p' /\ readopen p' = readopen p /\ writeopen p' = writeopen p /\
  if bool_decide (contents p = []) && nz (writeopen p)
  then p' = p /\ wk = [] /\ res = if killed then RRet (-1) [] else RSleep
  else contents p' = drop (Z.to_nat n) (contents p) /\ wk = [NWRITE] /\
       res = RRet (Z.of_nat (length (take (Z.to_nat n) (contents p))))
               (take (Z.to_nat n) (contents p)).
Proof.
  intros Hp. unfold piperead. rewrite pipe_empty_avail by done.
  assert ((avail p =? 0) = bool_decide (contents p = [])) as ->.
  { apply eq_true_iff_eq. rewrite Z.eqb_eq, bool_decide_eq_true.
    rewrite <- length_zero_iff_nil, length_contents. pose proof (avail_range p). lia. }
  destruct (_ && _); [by destruct killed|].
  pose proof (read_loop_run (Z.to_nat n) p Hp) as H.
  destruct (read_loop _ p) as [l p']. by destruct H as (? & -> & ? & ? & ?).
Qed.

(** ** Readers and writers together *)

Module System.

(** A process inside [pipewrite] or [piperead]: about to run a segment, asleep
    on its channel, or back from the call. *)
Inductive thread :=
| Writer (n : Z) (rest : list Z)
| WAsleep (n : Z) (rest : list Z)
| Reader (n : Z)
| RAsleep (n : Z)
| Done (r : Z).

Record sys := mk {
  pp : pipe;
  th : list thread;
  sent : list Z;       (* every byte stored so far, in order *)
  received : list Z;   (* every byte handed to a reader so far, in order *)
}.

(** [wakeup] on the channels [wk]. *)
Definition wake (wk : list chan) (t : thread) : thread :=
  match t with
  | WAsleep n rest => if decide (NWRITE ∈ wk) then Writer n rest else t
  | RAsleep n => if decide (NREAD ∈ wk) then Reader n else t
  | _ => t
  end.

Definition after_write (n : Z) (res : wres) : thread :=
  match res with WRet r => Done r | WSleep rest => WAsleep n rest end.

Definition after_read (n : Z) (res : rres) : thread :=
  match res with RRet r _ => Done r | RSleep => RAsleep n end.

Definition got (res : rres) : list Z :=
  match res with RRet _ l => l | RSleep => [] end.

(** The bytes of [rest] that a write segment stored. *)
Definition stored (rest : list Z) (p : pipe) : list Z :=
  take (Z.to_nat (PIPESIZE - avail p)) rest.

Definition reading (t : thread) : bool :=
  match t with Reader _ | RAsleep _ => true | _ => false end.
Definition writing (t : thread) : bool :=
  match t with Writer _ _ | WAsleep _ _ => true | _ => false end.

(** A call needs its end of the pipe open, and an end is closed only when no
    call on it is in progress: the caller's file reference sees to that.
    [kill]: may a writer find itself killed in [pipewrite]? *)
Inductive step (kill : bool) : sys -> sys -> Prop :=
| step_call_write s bytes :
    writeopen (pp s) <> 0 ->
    step kill s (mk (pp s) (th s ++ [Writer (Z.of_nat (length bytes)) bytes])
                   (sent s) (received s))
| step_call_read s n :
    readopen (pp s) <> 0 ->
    step kill s (mk (pp s) (th s ++ [Reader n]) (sent s) (received s))
| step_write s i n rest killed res p' wk :
    th s !! i = Some (Writer n rest) -> (killed = true -> kill = true) ->
    pipewrite n rest killed (pp s) = (res, p', wk) ->
    step kill s (mk p' (wake wk <$> <[i := after_write n res]> (th s))
                   (sent s ++ stored rest (pp s)) (received s))
| step_read s i n killed res p' wk :
    th s !! i = Some (Reader n) ->
    piperead n killed (pp s) = (res, p', wk) ->
    step kill s (mk p' (wake wk <$> <[i := after_read n res]> (th s))
                   (sent s) (received s ++ got res))
| step_close s (writable : bool) freed p' wk :
    (forall t, t ∈ th s -> (if writable then writing t else reading t) = false) ->
    pipeclose writable (pp s) = (freed, p', wk) ->
    step kill s (mk p' (wake wk <$> th s) (sent s) (received s))
| step_kill s i t :
    th s !! i = Some t ->
    step kill s (mk (pp s) (<[i := wake [NREAD; NWRITE] t]> (th s)) (sent s) (received s)).

Definition init (page : list Z) : sys := mk (pipe_init page) [] [] [].

Definition stream_inv (s : sys) : Prop :=
  pipe_ok (pp s) /\ received s ++ contents (pp s) = sent s.

Lemma stream_init page : length page = 512%nat -> stream_inv (init page).
Proof. intros Hl. split; [|done]. by split_and!. Qed.

Lemma pipeclose_run w p freed p' wk :
  pipeclose w p = (freed, p', wk) ->
  (pipe_ok p -> pipe_ok p') /\ contents p' = contents p /\
  wk = (if w then [NREAD] else [NWRITE]) /\
  readopen p' = (if w then readopen p else 0) /\
  writeopen p' = (if w then 0 else writeopen p).
Proof. unfold pipeclose. destruct w; intros; simplify_eq/=; by split_and!. Qed.

Lemma stream_step kill s s' : step kill s s' -> stream_inv s -> stream_inv s'.
Proof.
  intros Hs [Hp Hr].
  destruct Hs as [s bytes Ho|s n Ho|s i n rest killed res p' wk Hi Hk Hw
                 |s i n killed res p' wk Hi Hw|s w freed p' wk Ho Hw|s i t Ht]; cbn in *.
  - done.
  - done.
  - pose proof (pipewrite_run n rest killed (pp s) Hp) as H. rewrite Hw in H.
    destruct H as (Hp' & Hc & _). split; [done|]. cbn. unfold stored.
    by rewrite Hc, <- Hr, (assoc_L (++)).
  - pose proof (piperead_run n killed (pp s) Hp) as H. rewrite Hw in H.
    destruct H as (Hp' & _ & _ & H). split; [done|]. cbn.
    destruct (bool_decide _ && _).
    + destruct H as (-> & _ & ->). destruct killed; by rewrite app_nil_r.
    + destruct H as (Hc & _ & ->). cbn.
      by rewrite Hc, <- (assoc_L (++)), take_drop.
  - destruct (pipeclose_run _ _ _ _ _ Hw) as (? & Hc & _).
    split; [auto|]. cbn. by rewrite Hc.
  - done.
Qed.

(** C7: a pipe is a bounded FIFO byte stream: whatever readers and writers are
    interleaved, killed, or ends closed, the bytes received so far followed by
    the bytes in the buffer are exactly the bytes sent so far, in order, and the
    buffer never holds more than [PIPESIZE]; the counters may wrap around. *)
Theorem pipe_stream (kill : bool) (page : list Z) (s : sys)
    (Hl : length page = 512%nat) (Hr : rtc (step kill) (init page) s) :
  received s ++ contents (pp s) = sent s /\
  Z.of_nat (length (contents (pp s))) <= PIPESIZE.
Proof.
  assert (stream_inv s) as [Hp Hs].
  { pose proof (stream_init page Hl) as H0. revert H0.
    induction Hr; eauto using stream_step. }
  split; [done|]. rewrite length_contents. pose proof (avail_range (pp s)).
  destruct Hp as (_ & _ & _ & ?). lia.
Qed.

(** *** Wakeups *)

Definition reader_asleep (t : thread) : bool :=
  match t with RAsleep _ => true | _ => false end.
Definition writer_asleep (t : thread) : bool :=
  match t with WAsleep _ _ => true | _ => false end.

(** A reader sleeps only on an empty pipe that can still be written, a writer
    only on a full pipe that can still be read; a call in progress keeps its end
    open. *)
Definition thread_ok (p : pipe) (t : thread) : Prop :=
  (reader_asleep t = true -> avail p = 0 /\ writeopen p <> 0) /\
  (writer_asleep t = true -> avail p = PIPESIZE /\ readopen p <> 0) /\
  (reading t = true -> readopen p <> 0) /\
  (writing t = true -> writeopen p <> 0).

Definition wake_inv (s : sys) : Prop :=
  pipe_ok (pp s) /\ Forall (thread_ok (pp s)) (th s).

(** Waking keeps the threads in order when the segment changed only what the
    woken threads wait for. *)
Lemma wake_threads p p' wk l :
  Forall (thread_ok p) l ->
  (NREAD ∈ wk \/ readopen p = 0 \/ (avail p = 0 -> avail p' = 0 /\ writeopen p' = writeopen p)) ->
  (NWRITE ∈ wk \/ (avail p = PIPESIZE -> avail p' = PIPESIZE /\ readopen p' = readopen p)) ->
  (readopen p' = readopen p \/ forall t, t ∈ l -> reading t = false) ->
  (writeopen p' = writeopen p \/ forall t, t ∈ l -> writing t = false) ->
  Forall (thread_ok p') (wake wk <$> l).
Proof.
  intros H Hr Hw Ho1 Ho2. rewrite Forall_fmap. apply Forall_forall. intros t Ht.
  rewrite Forall_forall in H. destruct (H t Ht) as (H1 & H2 & H3 & H4).
  assert (reading t = true -> readopen p' <> 0) as H3'
    by (intros E; destruct Ho1 as [->|Ho]; [by apply H3|by rewrite Ho in E]).
  assert (writing t = true -> writeopen p' <> 0) as H4'
    by (intros E; destruct Ho2 as [->|Ho]; [by apply H4|by rewrite Ho in E]).
  destruct t; cbn; repeat case_decide; split_and!; cbn in *; try done; intros _.
  - destruct H2 as [E ?]; [done|]. destruct Hw as [|Hw]; [done|].
    destruct (Hw E) as [-> ->]. done.
  - destruct H1 as [E ?]; [done|]. destruct Hr as [|[|Hr]]; [done|by destruct H3|].
    destruct (Hr E) as [-> ->]. done.
Qed.

Lemma avail_same p p' : contents p' = contents p -> avail p' = avail p.
Proof.
  intros E%(f_equal length). rewrite !length_contents in E.
  pose proof (avail_range p). pose proof (avail_range p'). lia.
Qed.

Lemma wake_inv_write s i n rest res p' wk :
  wake_inv s -> th s !! i = Some (Writer n rest) ->
  pipewrite n rest false (pp s) = (res, p', wk) ->
  wake_inv (mk p' (wake wk <$> <[i := after_write n res]> (th s))
              (sent s ++ stored rest (pp s)) (received s)).
Proof.
  intros [Hp Ht] Hi Hw. pose proof (avail_range (pp s)).
  pose proof (pipewrite_run n rest false (pp s) Hp) as H'. rewrite Hw in H'.
  destruct H' as (Hp' & Hc & Ho1 & Ho2 & Hres). split; [done|]. cbn.
  assert (avail p' = avail (pp s) +
            Z.of_nat (length (take (Z.to_nat (PIPESIZE - avail (pp s))) rest))) as Ha.
  { apply (f_equal length) in Hc. rewrite length_app, !length_contents in Hc.
    pose proof (avail_range p'). lia. }
  rewrite length_take in Ha.
  rewrite list_fmap_insert.
  assert (thread_ok (pp s) (Writer n rest)) as (_ & _ & _ & Hwo)
    by (by eapply (Forall_lookup_1 _ _ _ _ Ht)).
  rewrite orb_false_r in Hres.
  destruct (Nat.leb_spec (length rest) (Z.to_nat (PIPESIZE - avail (pp s)))) as [Hle|Hgt].
  - (* everything stored, readers woken *)
    simplify_eq/=. apply Forall_insert.
    + eapply wake_threads; [done|left; set_solver| |by left|by left].
      right. intros E. split; [lia|done].
    + by split_and!.
  - (* the pipe is full *)
    destruct (Z.eqb_spec (readopen (pp s)) 0) as [E0|E0]; simplify_eq/=.
    + apply Forall_insert; [|by split_and!].
      (* no reader is left to sleep *)
      eapply (wake_threads (pp s)); [done|by right; left| |by left|by left].
      right. intros E. split; [lia|done].
    + apply Forall_insert.
      * eapply wake_threads; [done|left; set_solver| |by left|by left].
        right. intros E. split; [lia|done].
      * split_and!; cbn; try done; intros _;
          [split; [destruct Hp as (_ & _ & _ & ?); lia|congruence]|rewrite Ho2; auto].
Qed.

Lemma wake_inv_read s i n killed res p' wk :
  wake_inv s -> th s !! i = Some (Reader n) ->
  piperead n killed (pp s) = (res, p', wk) ->
  wake_inv (mk p' (wake wk <$> <[i := after_read n res]> (th s))
              (sent s) (received s ++ got res)).
Proof.
  intros [Hp Ht] Hi Hw. pose proof (avail_range (pp s)).
  pose proof (piperead_run n killed (pp s) Hp) as H'. rewrite Hw in H'.
  destruct H' as (Hp' & Ho1 & Ho2 & Hres). split; [done|]. cbn.
  rewrite list_fmap_insert.
  assert (thread_ok (pp s) (Reader n)) as (_ & _ & Hro & _)
    by (by eapply (Forall_lookup_1 _ _ _ _ Ht)).
  destruct (bool_decide_reflect (contents (pp s) = [])) as [Hnil|Hne].
  all: cbn [andb] in Hres.
  1: assert (avail (pp s) = 0) as Ha
    by (apply (f_equal length) in Hnil; rewrite length_contents in Hnil; cbn in Hnil; lia).
  1: destruct (nz (writeopen (pp s))) eqn:Ewo.
  - destruct Hres as (-> & -> & ->). apply Forall_insert.
    + by apply (wake_threads (pp s)); [|right; right|right|left|left].
    + unfold nz in Ewo. b2p. destruct killed; by split_and!.
  - destruct Hres as (Hc & -> & ->). rewrite Hnil, drop_nil, <- Hnil in Hc.
    apply avail_same in Hc. apply Forall_insert; [|by split_and!].
    apply (wake_threads (pp s)); [done| |left; set_solver|by left|by left].
    right; right. intros ?. by split; [lia|].
  - destruct Hres as (Hc & -> & ->). apply Forall_insert; [|by split_and!].
    apply (wake_threads (pp s)); [done| |left; set_solver|by left|by left].
    right; right. intros E. exfalso. apply Hne, nil_length_inv.
    rewrite length_contents. lia.
Qed.

Lemma wake_inv_step s s' : step false s s' -> wake_inv s -> wake_inv s'.
Proof.
  intros Hs Hinv.
  destruct Hs as [s bytes Ho|s n Ho|s i n rest killed res p' wk Hi Hk Hw
                 |s i n killed res p' wk Hi Hw|s w freed p' wk Ho Hw|s i t Ht].
  - destruct Hinv as [Hp Ht]. split; [done|]. apply Forall_app. split; [done|].
    apply Forall_singleton. by split_and!.
  - destruct Hinv as [Hp Ht]. split; [done|]. apply Forall_app. split; [done|].
    apply Forall_singleton. by split_and!.
  - destruct killed; [by discriminate Hk|]. by eapply wake_inv_write.
  - by eapply wake_inv_read.
  - destruct Hinv as [Hp Ht].
    destruct (pipeclose_run _ _ _ _ _ Hw) as (Hp' & Hc & -> & E1 & E2).
    apply avail_same in Hc. split; [auto|]. cbn.
    apply (wake_threads (pp s)); [done|..]; destruct w.
    + left; set_solver.
    + right; right. intros ?. split; [lia|done].
    + right. intros ?. split; [lia|done].
    + left; set_solver.
    + by left.
    + by right.
    + by right.
    + by left.
  - destruct Hinv as [Hp Hth]. split; [done|]. cbn. apply Forall_insert; [done|].
    destruct (Forall_lookup_1 _ _ _ _ Hth Ht) as (_ & _ & H3 & H4).
    destruct t; cbn; by split_and!.
Qed.

(** C8: no wakeup is lost among readers and writers that are not killed while
    writing: a reader is asleep only while the buffer is empty and a write end is
    open, a writer only while the buffer is full and a read end is open. *)
Theorem no_lost_wakeup (page : list Z) (s : sys)
    (Hl : length page = 512%nat) (Hr : rtc (step false) (init page) s) :
  forall t, t ∈ th s ->
    (reader_asleep t = true -> contents (pp s) = [] /\ writeopen (pp s) <> 0) /\
    (writer_asleep t = true ->
       Z.of_nat (length (contents (pp s))) = PIPESIZE /\ readopen (pp s) <> 0).
Proof.
  assert (wake_inv s) as [Hp Ht].
  { assert (wake_inv (init page)) as H0 by (split; [by split_and!|constructor]).
    revert H0. induction Hr; eauto using wake_inv_step. }
  intros t Hin. rewrite Forall_forall in Ht. destruct (Ht t Hin) as (H1 & H2 & _).
  rewrite length_contents. split; intros E.
  - destruct (H1 E) as [Ha ?]. split; [|done]. apply nil_length_inv.
    by rewrite length_contents, Ha.
  - destruct (H2 E) as [-> ?]. done.
Qed.

Definition zero_page : list Z := repeat 0 512.

(** A reader goes to sleep on the new pipe; a writer then stores three bytes. *)
Lemma pipe_run_demo kill :
  rtc (step kill) (init zero_page)
    (mk (put_byte 3 (put_byte 2 (put_byte 1 (pipe_init zero_page))))
        [Reader 2; Done 3] [1; 2; 3] []).
Proof.
  eapply rtc_l; [apply (step_call_read kill (init zero_page) 2); discriminate|].
  eapply rtc_l; [eapply (step_read kill _ 0 2 false); reflexivity|].
  eapply rtc_l; [eapply (step_call_write kill _ [1; 2; 3]); discriminate|].
  eapply rtc_l; [eapply (step_write kill _ 1 3 [1; 2; 3] false); try reflexivity; discriminate|].
  apply rtc_refl.
Qed.

Lemma pipe_stream_witness :
  [] ++ contents (put_byte 3 (put_byte 2 (put_byte 1 (pipe_init zero_page)))) = [1; 2; 3].
Proof.
  exact (proj1 (pipe_stream true zero_page _ eq_refl (pipe_run_demo true))).
Defined.

(** A reader goes to sleep on the new pipe. *)
Lemma reader_sleeps kill :
  rtc (step kill) (init zero_page) (mk (pipe_init zero_page) [RAsleep 2] [] []).
Proof.
  eapply rtc_l; [apply (step_call_read kill (init zero_page) 2); discriminate|].
  eapply rtc_l; [eapply (step_read kill _ 0 2 false); reflexivity|]. apply rtc_refl.
Qed.

(** A writer of 513 bytes goes to sleep with one byte left. *)
Definition filled : pipe := foldr (fun _ => put_byte 7) (pipe_init zero_page) (seq 0 512).

Lemma writer_sleeps kill :
  rtc (step kill) (init zero_page) (mk filled [WAsleep 513 [7]] (repeat 7 512) []).
Proof.
  eapply rtc_l; [apply (step_call_write kill (init zero_page) (repeat 7 513)); discriminate|].
  eapply rtc_l; [|apply rtc_refl].
  apply (step_write kill (mk (pipe_init zero_page) [Writer 513 (repeat 7 513)] [] []) 0 513
           (repeat 7 513) false (WSleep [7]) filled [NREAD]);
    [reflexivity|discriminate|vm_compute; reflexivity].
Qed.

Lemma no_lost_wakeup_witness :
  (contents (pipe_init zero_page) = [] /\ writeopen (pipe_init zero_page) <> 0) /\
  (Z.of_nat (length (contents filled)) = PIPESIZE /\ readopen filled <> 0).
Proof.
  split.
  - apply (no_lost_wakeup zero_page _ eq_refl (reader_sleeps false) (RAsleep 2));
      [apply list_elem_of_here|reflexivity].
  - apply (no_lost_wakeup zero_page _ eq_refl (writer_sleeps false) (WAsleep 513 [7]));
      [apply list_elem_of_here|reflexivity].
Defined.

(** C40: whenever a writer that has been killed finds more bytes to write than
    there is room, while a reader is asleep, its segment fills the pipe and
    returns -1, and the reader is still asleep although the pipe is full; the same
    segment of a writer that has not been killed wakes the reader. *)
Theorem killed_writer_strands_reader (page : list Z) (s : sys) (i r : nat) (n m : Z) (rest : list Z)
    (Hl : length page = 512%nat) (Hs : rtc (step true) (init page) s)
    (Hw : th s !! i = Some (Writer n rest)) (Hr : th s !! r = Some (RAsleep m))
    (Hmore : PIPESIZE < Z.of_nat (length (contents (pp s)) + length rest)) (Ho : readopen (pp s) <> 0) :
  (exists p', pipewrite n rest true (pp s) = (WRet (-1), p', []) /\
     let s' := mk p' (wake [] <$> <[i := Done (-1)]> (th s)) (sent s ++ stored rest (pp s)) (received s) in
     step true s s' /\ th s' !! r = Some (RAsleep m) /\
     Z.of_nat (length (contents (pp s'))) = PIPESIZE) /\
  (exists s', step false s s' /\ th s' !! r = Some (Reader m)).
Proof.
  assert (pipe_ok (pp s)) as Hp.
  { assert (stream_inv s) as [? _]; [|done]. pose proof (stream_init page Hl) as H0. revert H0.
    clear -Hs. induction Hs; eauto using stream_step. }
  assert (i <> r) as Hne by congruence. rewrite length_contents in Hmore. pose proof (avail_range (pp s)).
  assert (avail (pp s) <= PIPESIZE) as Ha by apply Hp.
  assert ((length rest <=? Z.to_nat (PIPESIZE - avail (pp s)))%nat = false) as Hlt by (apply Nat.leb_gt; lia).
  split.
  - pose proof (pipewrite_run n rest true (pp s) Hp) as H1. destruct (pipewrite n rest true (pp s)) as [[res p'] wk] eqn:E.
    destruct H1 as (_ & Hc & _ & _ & H1). rewrite Hlt, orb_true_r in H1. injection H1 as -> ->.
    exists p'. split; [done|]. split_and!; [by apply (step_write true s i n rest true (WRet (-1)) p' [])| |].
    + cbn [th]. by rewrite list_lookup_fmap, list_lookup_insert_ne, Hr by done.
    + cbn [pp]. rewrite Hc, length_app, length_contents, length_take. lia.
  - pose proof (pipewrite_run n rest false (pp s) Hp) as H1. destruct (pipewrite n rest false (pp s)) as [[res p'] wk] eqn:E.
    destruct H1 as (_ & _ & _ & _ & H1). rewrite Hlt, (proj2 (Z.eqb_neq _ _) Ho) in H1. injection H1 as -> ->.
    eexists. split; [by eapply (step_write false s i n rest false)|].
    cbn [th]. rewrite list_lookup_fmap, list_lookup_insert_ne, Hr by done. done.
Qed.

(** A reader asleep on the empty pipe, and a writer that has 513 bytes. *)
Lemma killed_writer_strands_reader_witness :
  let s := mk (pipe_init zero_page) [RAsleep 2; Writer 513 (repeat 7 513)] [] [] in
  exists p', pipewrite 513 (repeat 7 513) true (pp s) = (WRet (-1), p', []) /\
    step true s (mk p' (wake [] <$> <[1%nat := Done (-1)]> (th s)) (sent s ++ stored (repeat 7 513) (pp s)) (received s)).
Proof.
  intros s. destruct (killed_writer_strands_reader zero_page s 1 0 513 2 (repeat 7 513) eq_refl) as [(p' & H1 & H2 & _) _].
  - eapply rtc_r; [apply (reader_sleeps true)|]. apply (step_call_write true (mk (pipe_init zero_page) [RAsleep 2] [] []) (repeat 7 513)). discriminate.
  - reflexivity.
  - reflexivity.
  - reflexivity.
  - discriminate.
  - exists p'. exact (conj H1 H2).
Defined.

End System.
