(* ===== verification/Proc.v ===== *)
(** * Processes ([proc.c], [proc.h], [pstat.h])

    The process table, the operations on it and the scheduler's step.  Code that
    holds [ptable.lock] from one point to another is one atomic step here.  What
    [proc.c] asks of the memory and file code goes through the class
    [Services]. *)
From S2P Require Import Prelude Str.

Definition NPROC : nat := 64.
Definition KSTACKSIZE : Z := 4096.
Definition NOFILE : nat := 16.
Definition PGSIZE : Z := 4096.
Definition FL_IF : Z := 512.
Definition SEG_UCODE : Z := 3.
Definition SEG_UDATA : Z := 4.
Definition DPL_USER : Z := 3.

(** ** Data *)

Inductive procstate := UNUSED | EMBRYO | SLEEPING | RUNNABLE | RUNNING | ZOMBIE.

#[global] Instance procstate_eq_dec : EqDecision procstate.
Proof. solve_decision. Defined.

Record trapframe := mktf {
  tf_edi : Z; tf_esi : Z; tf_ebp : Z; tf_oesp : Z; tf_ebx : Z; tf_edx : Z;
  tf_ecx : Z; tf_eax : Z; tf_gs : Z; tf_fs : Z; tf_es : Z; tf_ds : Z;
  tf_trapno : Z; tf_err : Z; tf_eip : Z; tf_cs : Z; tf_eflags : Z; tf_esp : Z;
  tf_ss : Z;
}.

Record context := mkcontext { edi : Z; esi : Z; ebx : Z; ebp : Z; eip : Z }.

(** The top of a kernel stack as [allocproc] lays it out: where [p->tf] points,
    the return address below it, where [p->context] points and what is there. *)
Record kframe := mkkframe { tfp : Z; ret_to : Z; ctxp : Z; regs : context }.

(** What a process may sleep on: the address of a [struct proc] ([wait]) or any
    other address. *)
Inductive wchan := ChProc (i : nat) | ChAddr (a : Z).

#[global] Instance wchan_eq_dec : EqDecision wchan.
Proof. solve_decision. Defined.

(** [None] is the null pointer; files and inodes are named by table index.
    [tf] is the frame [p->tf] points to and [ctx] holds the rest of the kernel
    stack's top. *)
Record proc := mkproc {
  sz : Z;
  pgdir : Z;
  kstack : Z;
  state : procstate;
  pid : Z;
  parent : option nat;
  tf : trapframe;
  ctx : kframe;
  chan : option wchan;
  killed : Z;
  ofile : list (option nat);
  cwd : option nat;
  name : list Z;
  tickets : Z;
  ticks : Z;
}.

Definition set_sz v p := mkproc v (pgdir p) (kstack p) (state p) (pid p) (parent p) (tf p) (ctx p) (chan p) (killed p) (ofile p) (cwd p) (name p) (tickets p) (ticks p).
Definition set_pgdir v p := mkproc (sz p) v (kstack p) (state p) (pid p) (parent p) (tf p) (ctx p) (chan p) (killed p) (ofile p) (cwd p) (name p) (tickets p) (ticks p).
Definition set_kstack v p := mkproc (sz p) (pgdir p) v (state p) (pid p) (parent p) (tf p) (ctx p) (chan p) (killed p) (ofile p) (cwd p) (name p) (tickets p) (ticks p).
Definition set_state v p := mkproc (sz p) (pgdir p) (kstack p) v (pid p) (parent p) (tf p) (ctx p) (chan p) (killed p) (ofile p) (cwd p) (name p) (tickets p) (ticks p).
Definition set_pid v p := mkproc (sz p) (pgdir p) (kstack p) (state p) v (parent p) (tf p) (ctx p) (chan p) (killed p) (ofile p) (cwd p) (name p) (tickets p) (ticks p).
Definition set_parent v p := mkproc (sz p) (pgdir p) (kstack p) (state p) (pid p) v (tf p) (ctx p) (chan p) (killed p) (ofile p) (cwd p) (name p) (tickets p) (ticks p).
Definition set_tf v p := mkproc (sz p) (pgdir p) (kstack p) (state p) (pid p) (parent p) v (ctx p) (chan p) (killed p) (ofile p) (cwd p) (name p) (tickets p) (ticks p).
Definition set_ctx v p := mkproc (sz p) (pgdir p) (kstack p) (state p) (pid p) (parent p) (tf p) v (chan p) (killed p) (ofile p) (cwd p) (name p) (tickets p) (ticks p).
Definition set_chan v p := mkproc (sz p) (pgdir p) (kstack p) (state p) (pid p) (parent p) (tf p) (ctx p) v (killed p) (ofile p) (cwd p) (name p) (tickets p) (ticks p).
Definition set_killed v p := mkproc (sz p) (pgdir p) (kstack p) (state p) (pid p) (parent p) (tf p) (ctx p) (chan p) v (ofile p) (cwd p) (name p) (tickets p) (ticks p).
Definition set_ofile v p := mkproc (sz p) (pgdir p) (kstack p) (state p) (pid p) (parent p) (tf p) (ctx p) (chan p) (killed p) v (cwd p) (name p) (tickets p) (ticks p).
Definition set_cwd v p := mkproc (sz p) (pgdir p) (kstack p) (state p) (pid p) (parent p) (tf p) (ctx p) (chan p) (killed p) (ofile p) v (name p) (tickets p) (ticks p).
Definition set_name v p := mkproc (sz p) (pgdir p) (kstack p) (state p) (pid p) (parent p) (tf p) (ctx p) (chan p) (killed p) (ofile p) (cwd p) v (tickets p) (ticks p).
Definition set_tickets v p := mkproc (sz p) (pgdir p) (kstack p) (state p) (pid p) (parent p) (tf p) (ctx p) (chan p) (killed p) (ofile p) (cwd p) (name p) v (ticks p).
Definition set_ticks v p := mkproc (sz p) (pgdir p) (kstack p) (state p) (pid p) (parent p) (tf p) (ctx p) (chan p) (killed p) (ofile p) (cwd p) (name p) (tickets p) v.

Definition zero_tf : trapframe := mktf 0 0 0 0 0 0 0 0 0 0 0 0 0 0 0 0 0 0 0.
Definition set_eax v t := mktf (tf_edi t) (tf_esi t) (tf_ebp t) (tf_oesp t) (tf_ebx t) (tf_edx t) (tf_ecx t) v (tf_gs t) (tf_fs t) (tf_es t) (tf_ds t) (tf_trapno t) (tf_err t) (tf_eip t) (tf_cs t) (tf_eflags t) (tf_esp t) (tf_ss t).

(** A slot of the zero-initialised table. *)
Definition proc0 : proc :=
  mkproc 0 0 0 UNUSED 0 None zero_tf (mkkframe 0 0 0 (mkcontext 0 0 0 0 0)) None 0
    (repeat None NOFILE) None (repeat 0 16) 0 0.

(** ** What the rest of the kernel does for processes *)

Class Services (W : Type) := {
  sv_kalloc : M W Z;
  sv_kfree : Z -> M W unit;
  sv_setupkvm : M W Z;
  sv_inituvm : Z -> M W unit;
  sv_copyuvm : Z -> Z -> M W Z;
  sv_freevm : Z -> M W unit;
  sv_allocuvm : Z -> Z -> Z -> M W Z;
  sv_deallocuvm : Z -> Z -> Z -> M W Z;
  sv_switchuvm : proc -> M W unit;
  sv_switchkvm : M W unit;
  sv_filedup : nat -> M W unit;
  sv_fileclose : nat -> M W unit;
  sv_idup : nat -> M W unit;
  sv_iput : nat -> M W unit;
  sv_namei : list Z -> M W (option nat);
  sv_begin_op : M W unit;
  sv_end_op : M W unit;
}.

(** [locked] and [ncli] are [ptable.lock] and the running CPU's depth of
    [pushcli]s; interrupts are off exactly when the depth is not 0. *)
Record pst (W : Type) := mkpst {
  procs : list proc;
  nextpid : Z;
  initproc : option nat;
  locked : bool;
  ncli : Z;
  world : W;
}.
Arguments mkpst {W} procs nextpid initproc locked ncli world.
Arguments procs {W} p.
Arguments nextpid {W} p.
Arguments initproc {W} p.
Arguments locked {W} p.
Arguments ncli {W} p.
Arguments world {W} p.

Definition set_procs {W} l (s : pst W) := mkpst l (nextpid s) (initproc s) (locked s) (ncli s) (world s).
Definition set_nextpid {W} n (s : pst W) := mkpst (procs s) n (initproc s) (locked s) (ncli s) (world s).
Definition set_initproc {W} i (s : pst W) := mkpst (procs s) (nextpid s) i (locked s) (ncli s) (world s).
Definition set_lock {W} b n (s : pst W) := mkpst (procs s) (nextpid s) (initproc s) b n (world s).
Definition set_world {W} (w : W) (s : pst W) := mkpst (procs s) (nextpid s) (initproc s) (locked s) (ncli s) w.

(** The locks [sleep] is called with. *)
Inductive lockref := PtableLock | OtherLock.

(** ** Operations *)

Section Operations.
Context {W : Type} `{SV : Services W}.
Variables forkret trapret : Z.

Definition inw {A} (m : M W A) : M (pst W) A := zoom world set_world m.

(** [p->field] and [p->field = ...] for the slot [p = &ptable.proc[i]]. *)
Definition slot (i : nat) : M (pst W) proc := fun s => deref (procs s !! i) s.
Definition on (i : nat) (f : proc -> proc) : M (pst W) unit :=
  slot i ;; modify (fun s => set_procs (alter f i (procs s)) s).

Definition acquire_pt : M (pst W) unit :=
  let! s := get in
  if locked s then panic "acquire" else put (set_lock true (ncli s + 1) s).

Definition release_pt : M (pst W) unit :=
  let! s := get in
  if locked s then put (set_lock false (ncli s - 1) s) else panic "release".

(** [for(p = ptable.proc; p < &ptable.proc[NPROC]; p++) if(test) goto found;] *)
Fixpoint scan (test : proc -> bool) (l : list proc) (i : nat) : option nat :=
  match l with
  | [] => None
  | p :: l => if test p then Some i else scan test l (S i)
  end.

Definition is_unused (p : proc) : bool := bool_decide (state p = UNUSED).

(** [allocproc] while it holds the lock: an unused slot becomes an embryo with the
    next pid. *)
Definition alloc_slot : M (pst W) (option nat) :=
  acquire_pt ;;
  let! s := get in
  match scan is_unused (procs s) 0 with
  | None => release_pt ;; ret None
  | Some p =>
      on p (set_state EMBRYO) ;;
      (if nextpid s =? 2147483647 then fault "signed overflow" else ret tt) ;;
      on p (set_pid (nextpid s)) ;;
      modify (set_nextpid (nextpid s + 1)) ;;
      release_pt ;;
      ret (Some p)
  end.

(** The rest of it: the kernel stack, or back to unused. *)
Definition alloc_stack (p : nat) : M (pst W) bool :=
  let! k := inw sv_kalloc in
  on p (set_kstack k) ;;
  if k =? 0 then on p (set_state UNUSED) ;; ret false
  else
    let sp := k + KSTACKSIZE in
    let tfp := sp - 76 in
    let sp := tfp - 4 in
    let ctxp := sp - 20 in
    on p (set_ctx (mkkframe tfp trapret ctxp (mkcontext 0 0 0 0 forkret))) ;;
    ret true.

Definition allocproc : M (pst W) (option nat) :=
  let! r := alloc_slot in
  match r with
  | None => ret None
  | Some p => let! ok := alloc_stack p in ret (if ok : bool then Some p else None)
  end.

(** [safestrcpy(p->name, src, sizeof(p->name))]: [Str.safestrcpy] on a memory
    that holds the two arrays. *)
Definition copy_name (dst src : list Z) : list Z :=
  let m := fun a => if a <? 4096 then nth (Z.to_nat a) dst 0
                    else nth (Z.to_nat (a - 4096)) src 0 in
  map (fun i => safestrcpy m 0 4096 16 (Z.of_nat i)) (indices 16).

Definition init_tf : trapframe :=
  let ucode := Z.lor (Z.shiftl SEG_UCODE 3) DPL_USER in
  let udata := Z.lor (Z.shiftl SEG_UDATA 3) DPL_USER in
  mktf 0 0 0 0 0 0 0 0 0 0 udata udata 0 0 0 ucode FL_IF PGSIZE udata.

(** "initcode" and "/" *)
Definition initcode_name : list Z := [105; 110; 105; 116; 99; 111; 100; 101; 0].
Definition root_path : list Z := [47; 0].

Definition userinit : M (pst W) unit :=
  let! r := allocproc in
  modify (set_initproc r) ;;
  let! p := deref r in
  let! pd := inw sv_setupkvm in
  on p (set_pgdir pd) ;;
  if pd =? 0 then panic "userinit: out of memory?"
  else
    inw (sv_inituvm pd) ;;
    on p (set_sz PGSIZE) ;;
    on p (set_tf init_tf) ;;
    on p (set_ticks 0) ;;
    on p (set_tickets 10) ;;
    on p (fun q => set_name (copy_name (name q) initcode_name) q) ;;
    let! d := inw (sv_namei root_path) in
    on p (set_cwd d) ;;
    acquire_pt ;;
    on p (set_state RUNNABLE) ;;
    release_pt.

Definition growproc (cur : nat) (n : Z) : M (pst W) Z :=
  let! p := slot cur in
  let finish sz := on cur (set_sz sz) ;; let! q := slot cur in
                   inw (sv_switchuvm q) ;; ret 0 in
  if 0 <? n then
    let! sz' := inw (sv_allocuvm (pgdir p) (sz p) (u32 (sz p + n))) in
    if u32 sz' =? 0 then ret (-1) else finish (u32 sz')
  else if n <? 0 then
    let! sz' := inw (sv_deallocuvm (pgdir p) (sz p) (u32 (sz p + n))) in
    if u32 sz' =? 0 then ret (-1) else finish (u32 sz')
  else finish (sz p).

Definition gettickets (wanted : Z) : M (pst W) Z :=
  acquire_pt ;;
  let! s := get in
  match scan (fun p => (pid p =? wanted) && negb (is_unused p)) (procs s) 0 with
  | Some i => let! p := slot i in release_pt ;; ret (tickets p)
  | None => release_pt ;; ret (-1)
  end.

(** One round of [fork]'s loop over the open files. *)
Definition dup_file (cur np fd : nat) : M (pst W) unit :=
  let! p := slot cur in
  match ofile p !! fd with
  | Some (Some f) =>
      inw (sv_filedup f) ;;
      on np (fun q => set_ofile (<[fd := Some f]> (ofile q)) q)
  | _ => ret tt
  end.

(** [fork] between [allocproc] and that loop; [false] when there is no memory. *)
Definition fork_copy (cur np : nat) : M (pst W) bool :=
  let! p := slot cur in
  let! pd := inw (sv_copyuvm (pgdir p) (sz p)) in
  on np (set_pgdir pd) ;;
  if pd =? 0 then
    let! q := slot np in
    inw (sv_kfree (kstack q)) ;;
    on np (set_kstack 0) ;;
    on np (set_state UNUSED) ;;
    ret false
  else
    on np (set_sz (sz p)) ;;
    on np (set_parent (Some cur)) ;;
    on np (set_tf (tf p)) ;;
    on np (fun q => set_tf (set_eax 0 (tf q)) q) ;;
    ret true.

(** [np->cwd] and [np->name]. *)
Definition fork_cwd (cur np : nat) : M (pst W) unit :=
  let! p := slot cur in
  let! d := deref (cwd p) in
  inw (sv_idup d) ;;
  on np (set_cwd (Some d)) ;;
  on np (fun q => set_name (copy_name (name q) (name p)) q).

Definition fork_tickets (np : nat) (parent_tickets : Z) : M (pst W) unit :=
  on np (set_ticks 0) ;;
  if 10 <? parent_tickets then on np (set_tickets parent_tickets)
  else on np (set_tickets 10).

Definition fork_publish (np : nat) : M (pst W) Z :=
  let! q := slot np in
  acquire_pt ;;
  on np (set_state RUNNABLE) ;;
  release_pt ;;
  ret (pid q).

(** [fork] from the loop over the open files on. *)
Definition fork_finish (cur np : nat) : M (pst W) Z :=
  for_each (indices NOFILE) (dup_file cur np) ;;
  fork_cwd cur np ;;
  let! p := slot cur in
  let! parent_tickets := gettickets (pid p) in
  fork_tickets np parent_tickets ;;
  fork_publish np.

Definition fork (cur : nat) : M (pst W) Z :=
  let! r := allocproc in
  match r with
  | None => ret (-1)
  | Some np =>
      let! ok := fork_copy cur np in
      if ok : bool then fork_finish cur np else ret (-1)
  end.

Definition wakeup1 (c : option wchan) : M (pst W) unit :=
  modify (fun s => set_procs
    (map (fun p => if bool_decide (state p = SLEEPING) && bool_decide (chan p = c)
                   then set_state RUNNABLE p else p) (procs s)) s).

Definition wakeup (c : option wchan) : M (pst W) unit :=
  acquire_pt ;; wakeup1 c ;; release_pt.

(** [sched()] for process [cur] of this CPU: its checks, then the switch to the
    scheduler, which leaves with [ptable.lock] held. *)
Definition sched {A} (cur : nat) : M (pst W) A :=
  let! s := get in
  if negb (locked s) then panic "sched ptable.lock"
  else if negb (ncli s =? 1) then panic "sched locks"
  else
    let! p := slot cur in
    if bool_decide (state p = RUNNING) then panic "sched running"
    else if ncli s =? 0 then panic "sched interruptible"
    else fun s => Wait "sched" s.

Definition yield (cur : nat) : M (pst W) unit :=
  acquire_pt ;; on cur (set_state RUNNABLE) ;; sched cur.

(** What [yield] does when the process is switched to again. *)
Definition yield_resume : M (pst W) unit := release_pt.

(** [release(lk)] and [acquire(lk)] of a lock other than [ptable.lock] change
    this CPU's depth only. *)
Definition sleep {A} (me : option nat) (c : wchan) (lk : option lockref) : M (pst W) A :=
  match me, lk with
  | None, _ => panic "sleep"
  | _, None => panic "sleep without lk"
  | Some cur, Some l =>
      match l with
      | OtherLock => acquire_pt ;; modify (fun s => set_lock (locked s) (ncli s - 1) s)
      | PtableLock => ret tt
      end ;;
      on cur (set_chan (Some c)) ;;
      on cur (set_state SLEEPING) ;;
      sched cur
  end.

Definition sleep_resume (cur : nat) (l : lockref) : M (pst W) unit :=
  on cur (set_chan None) ;;
  match l with
  | OtherLock => release_pt ;; modify (fun s => set_lock (locked s) (ncli s + 1) s)
  | PtableLock => ret tt
  end.

Definition close_file (cur fd : nat) : M (pst W) unit :=
  let! p := slot cur in
  match ofile p !! fd with
  | Some (Some f) =>
      inw (sv_fileclose f) ;;
      on cur (fun q => set_ofile (<[fd := None]> (ofile q)) q)
  | _ => ret tt
  end.

Definition ch (o : option nat) : option wchan := ChProc <$> o.

Definition reparent (cur i : nat) : M (pst W) unit :=
  let! p := slot i in
  if bool_decide (parent p = Some cur) then
    let! s := get in
    on i (set_parent (initproc s)) ;;
    if bool_decide (state p = ZOMBIE) then wakeup1 (ch (initproc s)) else ret tt
  else ret tt.

(** The parts of [exit]: its test, the working directory, and the rest, which
    runs under the lock. *)
Definition exit_check (cur : nat) : M (pst W) unit :=
  let! s := get in
  if bool_decide (Some cur = initproc s) then panic "init exiting" else ret tt.

Definition exit_iput (cur : nat) : M (pst W) unit :=
  let! p := slot cur in
  let! d := deref (cwd p) in
  inw (sv_iput d).

Definition exit_end (cur : nat) : M (pst W) unit :=
  inw sv_end_op ;;
  on cur (set_cwd None).

Definition exit_locked (cur : nat) : M (pst W) unit :=
  acquire_pt ;;
  let! p := slot cur in
  wakeup1 (ch (parent p)) ;;
  for_each (indices NPROC) (reparent cur) ;;
  on cur (set_state ZOMBIE) ;;
  (sched cur : M (pst W) unit) ;;
  panic "zombie exit".

Definition exit (cur : nat) : M (pst W) unit :=
  exit_check cur ;;
  for_each (indices NOFILE) (close_file cur) ;;
  inw sv_begin_op ;;
  exit_iput cur ;;
  exit_end cur ;;
  exit_locked cur.

(** [wait]'s body for a zombie child. *)
Definition reap (i : nat) : M (pst W) Z :=
  let! p := slot i in
  inw (sv_kfree (kstack p)) ;;
  on i (set_kstack 0) ;;
  inw (sv_freevm (pgdir p)) ;;
  on i (set_pid 0) ;;
  on i (set_parent None) ;;
  on i (fun q => set_name (<[0%nat := 0]> (name q)) q) ;;
  on i (set_killed 0) ;;
  on i (set_state UNUSED) ;;
  release_pt ;;
  ret (pid p).

(** The scan of [wait]: a reaped child's pid, or [havekids]. *)
Fixpoint wait_scan (cur : nat) (l : list nat) (havekids : bool) : M (pst W) (Z + bool) :=
  match l with
  | [] => ret (inr havekids)
  | i :: l =>
      let! p := slot i in
      if negb (bool_decide (parent p = Some cur)) then wait_scan cur l havekids
      else if bool_decide (state p = ZOMBIE) then
        let! r := reap i in ret (inl r)
      else wait_scan cur l true
  end.

(** [wait] up to its return or its [sleep]. *)
Definition wait_loop (cur : nat) : M (pst W) Z :=
  let! r := wait_scan cur (indices NPROC) false in
  match r with
  | inl pid => ret pid
  | inr havekids =>
      let! p := slot cur in
      if negb havekids || negb (killed p =? 0) then release_pt ;; ret (-1)
      else sleep (Some cur) (ChProc cur) (Some PtableLock)
  end.

Definition wait (cur : nat) : M (pst W) Z := acquire_pt ;; wait_loop cur.

(** [wait] continued after its [sleep]. *)
Definition wait_resume (cur : nat) : M (pst W) Z :=
  sleep_resume cur PtableLock ;; wait_loop cur.

Definition kill (wanted : Z) : M (pst W) Z :=
  acquire_pt ;;
  let! s := get in
  match scan (fun p => pid p =? wanted) (procs s) 0 with
  | Some i =>
      on i (set_killed 1) ;;
      let! p := slot i in
      (if bool_decide (state p = SLEEPING) then on i (set_state RUNNABLE) else ret tt) ;;
      release_pt ;; ret 0
  | None => release_pt ;; ret (-1)
  end.

(** [sys_settickets] for the argument [argint] fetched ([None] when it failed). *)
Definition sys_settickets (me : option nat) (arg : option Z) : M (pst W) Z :=
  match arg with
  | None => ret (-1)
  | Some n =>
      if n <? 10 then ret (-1)
      else match me with
           | None => ret (-1)
           | Some cur => on cur (set_tickets n) ;; ret 0
           end
  end.

(** [scheduler]'s loop body for slot [i], up to [swtch], on a CPU that holds
    [ptable.lock]: whether it switches. *)
Definition sched_to (i : nat) : M (pst W) bool :=
  let! p := slot i in
  if negb (bool_decide (state p = RUNNABLE)) then ret false
  else
    inw (sv_switchuvm p) ;;
    on i (set_state RUNNING) ;;
    ret true.

End Operations.

(** The tables' sizes stay folded when code is compared. *)
#[global] Strategy 1000 [indices NPROC NOFILE wait_scan for_each].

(** [fillpstat]: the table copied out for [ps]. *)
Record pstat_t := mkpstat {
  st_inuse : Z;
  st_tickets : Z;
  st_pid : Z;
  st_ticks : Z;
  st_name : list Z;
  st_state : Z;
}.

(** 'E', 'R', 'A', 'S', 'Z' and '?' *)
Definition state_char (s : procstate) : Z :=
  match s with
  | EMBRYO => 69
  | RUNNING => 82
  | RUNNABLE => 65
  | SLEEPING => 83
  | ZOMBIE => 90
  | UNUSED => 63
  end.

Definition pstat_of (p : proc) : pstat_t :=
  mkpstat (if is_unused p then 0 else 1) (tickets p) (pid p) (ticks p)
    (map (fun j => nth j (name p) 0) (indices 16)) (state_char (state p)).

Definition fillpstat {W} : M (pst W) (list pstat_t) :=
  acquire_pt ;;
  let! s := get in
  let t := map pstat_of (procs s) in
  release_pt ;;
  ret t.

(** ** The table's invariant *)

Definition alive (p : proc) : bool :=
  match state p with SLEEPING | RUNNABLE | RUNNING => true | _ => false end.

(** Slots in use have distinct positive pids below [nextpid], and those that are
    more than embryos at least 10 tickets and, init apart, a parent; whoever is
    somebody's parent is alive. *)
Record pinv (l : list proc) (n : Z) (ip : nat) : Prop := {
  pi_len : length l = NPROC;
  pi_pid i p : l !! i = Some p -> state p <> UNUSED -> 0 < pid p < n;
  pi_uniq i j p q : l !! i = Some p -> l !! j = Some q -> state p <> UNUSED ->
    state q <> UNUSED -> pid p = pid q -> i = j;
  pi_tickets i p : l !! i = Some p -> state p <> UNUSED -> state p <> EMBRYO -> 10 <= tickets p;
  pi_parent i j p : l !! i = Some p -> parent p = Some j ->
    state p <> UNUSED /\ i <> j /\ exists q, l !! j = Some q /\ alive q = true;
  pi_orphan i p : l !! i = Some p -> state p <> UNUSED -> state p <> EMBRYO -> i <> ip ->
    parent p <> None;
  pi_init : exists p, l !! ip = Some p /\ alive p = true /\ parent p = None;
}.

(** A process asleep in [wait] is asleep on its own channel, has a child and has
    none that has exited. *)
Definition winv (l : list proc) : Prop :=
  forall i j p, l !! i = Some p -> state p = SLEEPING -> chan p = Some (ChProc j) ->
    i = j /\ (exists k q, l !! k = Some q /\ parent q = Some i) /\
    (forall k q, l !! k = Some q -> parent q = Some i -> state q <> ZOMBIE).

(** ** What the primitives do *)

Section Primitives.
Context {W : Type} `{SV : Services W}.
Implicit Types s : pst W.

Lemma slot_inv i s p s' : slot i s = Ret p s' -> procs s !! i = Some p /\ s' = s.
Proof. unfold slot, deref. destruct (procs s !! i); run; naive_solver. Qed.

Lemma on_run i f s p : procs s !! i = Some p ->
  on i f s = Ret tt (set_procs (<[i := f p]> (procs s)) s).
Proof.
  intros H. unfold on, slot. run. rewrite H. cbn.
  by rewrite (list_insert_alter _ _ _ _ H).
Qed.

Lemma on_inv i f s u s' : on i f s = Ret u s' ->
  exists p, procs s !! i = Some p /\ s' = set_procs (<[i := f p]> (procs s)) s.
Proof.
  intros H. assert (Hp : exists p, procs s !! i = Some p).
  { revert H. unfold on, slot. run. destruct (procs s !! i); eauto. done. }
  destruct Hp as [p Hp]. exists p. rewrite (on_run _ _ _ _ Hp) in H. naive_solver.
Qed.

Lemma inw_inv {A} (m : M W A) s a s' : inw m s = Ret a s' ->
  exists w, m (world s) = Ret a w /\ s' = set_world w s.
Proof. unfold inw, zoom. destruct (m (world s)); naive_solver. Qed.

Lemma acquire_inv s u s' : acquire_pt s = Ret u s' ->
  locked s = false /\ s' = set_lock true (ncli s + 1) s.
Proof. unfold acquire_pt. run. destruct (locked s); run; naive_solver. Qed.

Lemma release_inv s u s' : release_pt s = Ret u s' ->
  locked s = true /\ s' = set_lock false (ncli s - 1) s.
Proof. unfold release_pt. run. destruct (locked s); run; naive_solver. Qed.

Lemma sched_inv {A} cur s (o : outcome (pst W) A) : sched cur s = o ->
  (exists e, o = Stop e) \/
  (o = Wait "sched" s /\ locked s = true /\ ncli s = 1 /\
   exists p, procs s !! cur = Some p /\ state p <> RUNNING).
Proof.
  unfold sched, slot. run. destruct (locked s) eqn:?; cbn; [|eauto].
  destruct (Z.eqb_spec (ncli s) 1) as [E|]; cbn; [|eauto].
  destruct (procs s !! cur) as [p|] eqn:?; cbn; [|eauto].
  case_bool_decide; cbn; [eauto|]. rewrite E. cbn. intros <-. right. eauto 10.
Qed.

Lemma scan_Some test l i k : scan test l i = Some k ->
  exists p, (i <= k)%nat /\ l !! (k - i)%nat = Some p /\ test p = true /\
    forall j q, (j < k - i)%nat -> l !! j = Some q -> test q = false.
Proof.
  revert i. induction l as [|p l IH]; intros i H; simplify_eq/=.
  destruct (test p) eqn:E; simplify_eq.
  - exists p. rewrite Nat.sub_diag. split_and!; auto; lia.
  - apply IH in H as (q & Hi & Hq & Ht & Hall). exists q.
    replace (k - i)%nat with (S (k - S i))%nat by lia.
    split_and!; auto; [lia|]. intros [|j] r Hj Hr; simplify_eq/=; [done|].
    apply (Hall j r); [lia|done].
Qed.

Lemma scan_None test l i : scan test l i = None -> forall j q, l !! j = Some q -> test q = false.
Proof.
  revert i. induction l as [|p l IH]; intros i H j q Hq; simplify_eq/=.
  destruct (test p) eqn:E; [done|]. destruct j; simplify_eq/=; eauto.
Qed.

Lemma scan_0 test l k : scan test l 0 = Some k ->
  exists p, l !! k = Some p /\ test p = true /\
    forall j q, (j < k)%nat -> l !! j = Some q -> test q = false.
Proof.
  intros (p & _ & Hp & Ht & Hall)%scan_Some. exists p.
  rewrite Nat.sub_0_r in Hp, Hall. eauto.
Qed.

End Primitives.

(** ** Updates that keep the invariant *)

(** [p'] is [p] with changes that do not concern the family tree. *)
Definition soft (p p' : proc) : Prop :=
  pid p' = pid p /\ parent p' = parent p /\ (10 <= tickets p -> 10 <= tickets p') /\
  (state p' = state p \/ alive p = true /\ alive p' = true).

(** [p'] does not sleep in [wait] unless [p] did. *)
Definition quiet (p p' : proc) : Prop :=
  forall j, state p' = SLEEPING -> chan p' = Some (ChProc j) ->
    state p = SLEEPING /\ chan p = Some (ChProc j).

Lemma soft_refl p : soft p p.
Proof. unfold soft. auto. Qed.

Lemma quiet_refl p : quiet p p.
Proof. by unfold quiet. Qed.
#[export] Hint Resolve soft_refl quiet_refl : kern.

Lemma alive_state p : alive p = true <->
  state p <> UNUSED /\ state p <> EMBRYO /\ state p <> ZOMBIE.
Proof. unfold alive. destruct (state p); naive_solver. Qed.

Lemma soft_used p p' : soft p p' -> state p' <> UNUSED <-> state p <> UNUSED.
Proof. intros (_ & _ & _ & [->|[?%alive_state ?%alive_state]]); naive_solver. Qed.

Lemma soft_alive p p' : soft p p' -> alive p' = alive p.
Proof. intros (_ & _ & _ & [E|[-> ->]]); [|done]. unfold alive. by rewrite E. Qed.

Lemma soft_zombie p p' : soft p p' -> state p' = ZOMBIE <-> state p = ZOMBIE.
Proof. intros (_ & _ & _ & [->|[?%alive_state ?%alive_state]]); naive_solver. Qed.

Lemma soft_embryo p p' : soft p p' -> state p' = EMBRYO <-> state p = EMBRYO.
Proof. intros (_ & _ & _ & [->|[?%alive_state ?%alive_state]]); naive_solver. Qed.

Lemma Forall2_upd {A} (R : A -> A -> Prop) (l : list A) i p p' :
  (forall q, R q q) -> l !! i = Some p -> R p p' -> Forall2 R l (<[i := p']> l).
Proof.
  intros Hr Hi Hp. rewrite <- (list_insert_id l i p Hi) at 1.
  apply Forall2_insert; [|done]. by apply Forall_Forall2_diag, Forall_true.
Qed.

Lemma Forall2_back {A} (R : A -> A -> Prop) l l' i p' :
  Forall2 R l l' -> l' !! i = Some p' -> exists p, l !! i = Some p /\ R p p'.
Proof. intros H Hi. eapply Forall2_lookup_r in H; eauto. Qed.

Lemma Forall2_forth {A} (R : A -> A -> Prop) l l' i p :
  Forall2 R l l' -> l !! i = Some p -> exists p', l' !! i = Some p' /\ R p p'.
Proof. intros H Hi. eapply Forall2_lookup_l in H; eauto. Qed.

(** Name the slot of the old table behind a slot of the new one. *)
Ltac back H :=
  repeat match goal with
  | E : ?l' !! ?i = Some ?p' |- _ =>
      match type of H with Forall2 _ _ l' =>
        let p := fresh "p" in let Ep := fresh "Ep" in let Rp := fresh "Rp" in
        destruct (Forall2_back _ _ _ _ _ H E) as (p & Ep & Rp); clear E
      end
  end.

Lemma pinv_soft l l' n ip : Forall2 soft l l' -> pinv l n ip -> pinv l' n ip.
Proof.
  intros HS HI. pose proof (Forall2_length _ _ _ HS) as HL.
  assert (Hex : forall j q, l !! j = Some q -> alive q = true ->
    exists q', l' !! j = Some q' /\ alive q' = true /\ parent q' = parent q).
  { intros j q Hq Ha. destruct (Forall2_forth _ _ _ _ _ HS Hq) as (q' & Hq' & Rq).
    exists q'. pose proof (soft_alive _ _ Rq). destruct Rq as (_ & -> & _). by rewrite H, Ha. }
  split.
  - rewrite <- HL. by apply HI.
  - intros i p Hp Hu. back HS. apply (soft_used _ _ Rp) in Hu.
    destruct Rp as (-> & _). by eapply pi_pid.
  - intros i j p q Hp Hq Hu Hv. back HS. apply (soft_used _ _ Rp) in Hu || apply (soft_used _ _ Rp0) in Hu.
    apply (soft_used _ _ Rp0) in Hv || apply (soft_used _ _ Rp) in Hv.
    destruct Rp as (-> & _), Rp0 as (-> & _). eauto using pi_uniq.
  - intros i p Hp Hu He. back HS. apply (soft_used _ _ Rp) in Hu. rewrite (soft_embryo _ _ Rp) in He.
    destruct Rp as (_ & _ & Ht & _). by eapply Ht, pi_tickets.
  - intros i j p Hp Hj. back HS. rewrite (soft_used _ _ Rp).
    destruct Rp as (_ & E & _). rewrite E in Hj.
    destruct (pi_parent _ _ _ HI _ _ _ Ep Hj) as (? & ? & q & Hq & Ha).
    destruct (Hex _ _ Hq Ha) as (q' & ? & ? & _). eauto.
  - intros i p Hp Hu He Hi. back HS. apply (soft_used _ _ Rp) in Hu. rewrite (soft_embryo _ _ Rp) in He.
    destruct Rp as (_ & -> & _). by eapply pi_orphan.
  - destruct (pi_init _ _ _ HI) as (p & Hp & Ha & Hn).
    destruct (Hex _ _ Hp Ha) as (q' & ? & ? & E). exists q'. by rewrite E.
Qed.

Lemma winv_soft l l' : Forall2 soft l l' -> Forall2 quiet l l' -> winv l -> winv l'.
Proof.
  intros HS HQ HW i j p' Hp Hs Hc.
  destruct (Forall2_back _ _ _ _ _ HQ Hp) as (p & Ep & Qp).
  destruct (Qp _ Hs Hc) as [Hs' Hc'].
  destruct (HW _ _ _ Ep Hs' Hc') as (-> & (k & q & Hk & Hq) & Hz).
  split; [done|]. split.
  - destruct (Forall2_forth _ _ _ _ _ HS Hk) as (q' & Hk' & _ & E & _).
    exists k, q'. by rewrite E.
  - intros k' r' Hr Er. destruct (Forall2_back _ _ _ _ _ HS Hr) as (r & Hr' & Rr).
    rewrite (soft_zombie _ _ Rr). destruct Rr as (_ & E & _). rewrite E in Er. eauto.
Qed.

(** ** Inversion of runs *)

Lemma ret_inv {S A} (a b : A) (s t : S) : ret a s = Ret b t -> a = b /\ s = t.
Proof. by injection 1. Qed.

Ltac inv1 :=
  match goal with
  | H : bind _ _ _ = Ret _ _ |- _ =>
      apply bind_inv in H; destruct H as (? & ? & ? & H)
  | H : slot _ _ = Ret _ _ |- _ => apply slot_inv in H as [? ->]
  | H : on _ _ _ = Ret _ _ |- _ => apply on_inv in H as (? & ? & ->)
  | H : inw _ _ = Ret _ _ |- _ => apply inw_inv in H as (? & ? & ->)
  | H : acquire_pt _ = Ret _ _ |- _ => apply acquire_inv in H as [? ->]
  | H : release_pt _ = Ret _ _ |- _ => apply release_inv in H as [? ->]
  | H : ret _ _ = Ret _ _ |- _ => apply ret_inv in H as [? ?]; subst
  | H : modify _ _ = Ret _ _ |- _ => injection H as ? ?; subst
  | H : put _ _ = Ret _ _ |- _ => injection H as ? ?; subst
  | H : get _ = Ret _ _ |- _ => injection H as ? ?; subst
  | H : panic _ _ = Ret _ _ |- _ => discriminate H
  | H : fault _ _ = Ret _ _ |- _ => discriminate H
  | H : deref ?o _ = Ret _ _ |- _ =>
      destruct o eqn:?; [|discriminate H]; injection H as ? ?; subst
  | E : ?l !! ?i = Some _, H : <[?j := _]> ?m !! ?k = Some _ |- _ =>
      constr_eq l m; constr_eq i j; constr_eq i k;
      rewrite (lookup_upd _ _ _ _ E) in H; injection H as ?; subst
  | H : ?l !! ?i = Some ?q, E : ?m !! ?j = Some ?p |- _ =>
      is_var q; constr_eq l m; constr_eq i j;
      first [constr_eq p q; clear H | rewrite E in H; injection H as ?; subst q]
  end.

Ltac fields :=
  unfold set_procs, set_nextpid, set_initproc, set_lock, set_world in *;
  cbn [procs nextpid initproc locked ncli world] in *.

Ltac inv_run := repeat (inv1; fields; rewrite ?list_insert_insert_eq in *).

Section ForkEffect.
Context {W : Type} `{SV : Services W}.
Variables forkret trapret : Z.
Implicit Types s : pst W.

Definition fresh_frame (k : Z) : kframe :=
  mkkframe (k + KSTACKSIZE - 76) trapret (k + KSTACKSIZE - 76 - 4 - 20)
    (mkcontext 0 0 0 0 forkret).

(** A slot that [alloc_slot] took, with the stack of [alloc_stack] or given back
    without one. *)
Definition claimed (n : Z) (p : proc) : proc := set_pid n (set_state EMBRYO p).

Definition stacked (k : Z) (p : proc) : proc :=
  if k =? 0 then set_state UNUSED (set_kstack k p) else set_ctx (fresh_frame k) (set_kstack k p).

Definition embryo (n k : Z) (p : proc) : proc :=
  set_ctx (fresh_frame k) (set_kstack k (set_pid n (set_state EMBRYO p))).

Lemma alloc_slot_inv s r s' : alloc_slot s = Ret r s' ->
  locked s = false /\
  match r with
  | None => (forall j q, procs s !! j = Some q -> state q <> UNUSED) /\ s' = s
  | Some i =>
      exists p, procs s !! i = Some p /\ state p = UNUSED /\
        (forall j q, (j < i)%nat -> procs s !! j = Some q -> state q <> UNUSED) /\
        s' = mkpst (<[i := claimed (nextpid s) p]> (procs s)) (nextpid s + 1)
               (initproc s) false (ncli s) (world s)
  end.
Proof.
  unfold alloc_slot. intros H. inv_run. split; [done|].
  destruct (scan is_unused (procs s) 0) as [i|] eqn:Hs.
  - apply scan_0 in Hs as (p & Hp & Hu & Hl). unfold is_unused in Hu. b2p.
    inv_run. destruct (nextpid s =? 2147483647) eqn:?; inv_run.
    eexists. split_and!; eauto.
    + intros j q Hj Hq. specialize (Hl _ _ Hj Hq). unfold is_unused in Hl. by b2p.
    + f_equal; lia.
  - inv_run. split.
    + intros j q Hq. eapply scan_None in Hs; [|done]. unfold is_unused in Hs. by b2p.
    + destruct s; fields. subst. f_equal; lia.
Qed.

Lemma alloc_stack_inv np s b s' q : alloc_stack forkret trapret np s = Ret b s' -> procs s !! np = Some q ->
  exists k w, b = negb (k =? 0) /\
    s' = mkpst (<[np := stacked k q]> (procs s)) (nextpid s) (initproc s) (locked s) (ncli s) w.
Proof.
  unfold alloc_stack. intros H Hq. apply bind_inv in H as (k & s1 & Hk & H). apply inw_inv in Hk as (w & _ & ->).
  exists k, w. unfold stacked. destruct (Z.eqb_spec k 0) as [E|E]; inv_run; done.
Qed.

Lemma allocproc_inv s r s' : allocproc forkret trapret s = Ret r s' ->
  forall i, r = Some i -> exists p k w, procs s !! i = Some p /\ state p = UNUSED /\ k <> 0 /\
    s' = mkpst (<[i := embryo (nextpid s) k p]> (procs s)) (nextpid s + 1) (initproc s) false (ncli s) w.
Proof.
  unfold allocproc. intros H i ->. apply bind_inv in H as (r & s1 & Ha & H).
  apply alloc_slot_inv in Ha as [_ Ha]. destruct r as [np|]; [|by inv_run].
  destruct Ha as (p & Hp & Hu & _ & ->). apply bind_inv in H as (b & s2 & Hb & H).
  destruct (alloc_stack_inv _ _ _ _ _ Hb (lookup_upd _ _ _ _ Hp)) as (k & w & -> & ->). unfold stacked in *.
  destruct (Z.eqb_spec k 0) as [|Hk]; cbn in H; inv_run; simplify_eq. exists p, k, w. split_and!; auto.
Qed.

(** The open files of the child: the parent's, where the parent has one. *)
Definition dupped (l : list nat) (src dst : list (option nat)) : list (option nat) :=
  foldl (fun d fd => match src !! fd with
                     | Some (Some f) => <[fd := Some f]> d
                     | _ => d
                     end) dst l.

Lemma set_ofile_id q : set_ofile (ofile q) q = q.
Proof. by destruct q. Qed.

Lemma dup_files_inv l cur np s u s' p q :
  for_each l (dup_file cur np) s = Ret u s' -> cur <> np ->
  procs s !! cur = Some p -> procs s !! np = Some q ->
  exists w, s' = mkpst (<[np := set_ofile (dupped l (ofile p) (ofile q)) q]> (procs s))
                   (nextpid s) (initproc s) (locked s) (ncli s) w.
Proof.
  intros H Hne Hp. revert s q H Hp. induction l as [|fd l IH]; intros s q H Hp Hq; cbn in *.
  - inv_run. exists (world s'). rewrite set_ofile_id, list_insert_id by done. by destruct s'.
  - inv_run. unfold dup_file in *. inv_run.
    destruct (ofile p !! fd) as [[f|]|] eqn:Hf; inv_run; [|by apply IH..].
    apply (IH _ (set_ofile (<[fd := Some f]> (ofile q)) q)) in H as [w ->]; fields.
    + exists w. by rewrite list_insert_insert_eq.
    + by rewrite list_lookup_insert_ne.
    + by eapply lookup_upd.
Qed.

Lemma gettickets_inv n s t s' : gettickets n s = Ret t s' -> s' = s /\ locked s = false /\
  ((exists i p, procs s !! i = Some p /\ pid p = n /\ state p <> UNUSED /\ t = tickets p) \/
   (t = -1 /\ forall i p, procs s !! i = Some p -> state p <> UNUSED -> pid p <> n)).
Proof.
  unfold gettickets. intros H. inv_run.
  destruct (scan _ (procs s) 0) as [i|] eqn:Hs; inv_run.
  - apply scan_0 in Hs as (p & Hp & Ht & _). inv_run. unfold is_unused in Ht. b2p.
    destruct Ht as [? Hu]. split_and!; [|done|eauto 10].
    destruct s; fields; subst; f_equal; lia.
  - split_and!; [|done|].
    + destruct s; fields; subst; f_equal; lia.
    + right. split; [done|]. intros i p Hp Hu. eapply scan_None in Hs; [|done].
      unfold is_unused in Hs. b2p. naive_solver.
Qed.

(** What [fork_finish] makes of the child [q] of [p]. *)
Definition finished (d : nat) (p q : proc) : proc :=
  set_state RUNNABLE (set_tickets (Z.max 10 (tickets p)) (set_ticks 0
    (set_name (copy_name (name q) (name p)) (set_cwd (Some d)
      (set_ofile (dupped (indices NOFILE) (ofile p) (ofile q)) q))))).

(** The child [fork] makes of the free slot [q] for the process [p]. *)
Definition child (cur : nat) (n k pd : Z) (d : nat) (p q : proc) : proc :=
  finished d p (set_tf (set_eax 0 (tf p)) (set_parent (Some cur) (set_sz (sz p)
    (set_pgdir pd (embryo n k q))))).

(** The segments change the slot of the child only. *)

Lemma fork_copy_inv cur np s b s' q : fork_copy cur np s = Ret b s' -> cur <> np -> procs s !! np = Some q ->
  exists q' w, s' = mkpst (<[np := q']> (procs s)) (nextpid s) (initproc s) (locked s) (ncli s) w /\
    pid q' = pid q /\ tickets q' = tickets q /\
    if b then state q' = state q /\ parent q' = Some cur else state q' = UNUSED /\ parent q' = parent q.
Proof.
  unfold fork_copy. intros H Hne Hq. apply bind_inv in H as (p & s1 & Hp & H). apply slot_inv in Hp as [Hp ->].
  apply bind_inv in H as (pd & s1 & Hw & H). apply inw_inv in Hw as (w & _ & ->). fields.
  apply bind_inv in H as (u & s1 & Hon & H). rewrite (on_run _ _ _ q) in Hon by done. injection Hon as _ <-.
  destruct (pd =? 0); inv_run; do 2 eexists; (split; [reflexivity|]); by split_and!.
Qed.

Lemma dup_file_inv cur np fd s u s' q : dup_file cur np fd s = Ret u s' -> procs s !! np = Some q ->
  exists q' w, s' = mkpst (<[np := q']> (procs s)) (nextpid s) (initproc s) (locked s) (ncli s) w /\
    pid q' = pid q /\ tickets q' = tickets q /\ state q' = state q /\ parent q' = parent q.
Proof.
  unfold dup_file. intros H Hq. apply bind_inv in H as (p & s1 & Hp & H). apply slot_inv in Hp as [Hp ->].
  destruct (ofile p !! fd) as [[f|]|]; [|apply ret_inv in H as [_ <-]; exists q, (world s); rewrite list_insert_id by done; by destruct s..].
  inv_run. do 2 eexists. split; [reflexivity|]. done.
Qed.

Lemma fork_cwd_inv cur np s u s' q : fork_cwd cur np s = Ret u s' -> procs s !! np = Some q ->
  exists q' w, s' = mkpst (<[np := q']> (procs s)) (nextpid s) (initproc s) (locked s) (ncli s) w /\
    pid q' = pid q /\ tickets q' = tickets q /\ state q' = state q /\ parent q' = parent q.
Proof.
  unfold fork_cwd. intros H Hq. apply bind_inv in H as (p & s1 & Hp & H). apply slot_inv in Hp as [Hp ->].
  inv_run. do 2 eexists. split; [reflexivity|]. done.
Qed.

Lemma fork_tickets_inv np t s u s' q : fork_tickets np t s = Ret u s' -> procs s !! np = Some q ->
  s' = set_procs (<[np := set_tickets (Z.max 10 t) (set_ticks 0 q)]> (procs s)) s.
Proof.
  unfold fork_tickets. intros H Hq. apply bind_inv in H as (v & s1 & Hon & H).
  rewrite (on_run _ _ _ q) in Hon by done. injection Hon as _ <-.
  destruct (Z.ltb_spec 10 t); [rewrite Z.max_r by lia|rewrite Z.max_l by lia]; inv_run; done.
Qed.

Lemma fork_publish_inv np s r s' q : fork_publish np s = Ret r s' -> procs s !! np = Some q ->
  locked s = false /\ r = pid q /\
  s' = mkpst (<[np := set_state RUNNABLE q]> (procs s)) (nextpid s) (initproc s) false (ncli s) (world s).
Proof.
  unfold fork_publish. intros H Hq. inv_run. split_and!; try done. f_equal. lia.
Qed.

End ForkEffect.

(** ** Taking a free slot *)

Ltac upds := repeat match goal with
  | H : <[_ := _]> _ !! _ = Some _ |- _ =>
      apply list_lookup_insert_Some in H;
      destruct H as [(? & ? & ?)|[? ?]]; subst
  end.

Lemma alive_kept (l : list proc) (i j : nat) p q x : l !! i = Some q -> state q = UNUSED ->
  l !! j = Some p -> alive p = true -> <[i := x]> l !! j = Some p.
Proof.
  intros Hq Hu Hp Ha. rewrite list_lookup_insert_ne; [done|]. intros ->.
  apply alive_state in Ha. naive_solver.
Qed.

Lemma free_parent l n ip i q : pinv l n ip -> l !! i = Some q -> state q = UNUSED ->
  parent q = None.
Proof.
  intros HI Hq Hu. destruct (parent q) eqn:E; [|done].
  by destruct (pi_parent _ _ _ HI _ _ _ Hq E).
Qed.

Lemma pinv_claimed l n ip i q : pinv l n ip -> 0 < n -> l !! i = Some q -> state q = UNUSED ->
  pinv (<[i := claimed n q]> l) (n + 1) ip.
Proof.
  intros HI H0 Hq Hu. pose proof (free_parent _ _ _ _ _ HI Hq Hu) as Hn. split.
  - rewrite length_insert. by apply HI.
  - intros j p Hp Hs. upds; [cbn; lia|]. pose proof (pi_pid _ _ _ HI _ _ H1 Hs). lia.
  - intros j k r t Hr Ht' Hsr Hst E. upds; [done|..|by eapply pi_uniq]; cbn in E.
    all: match goal with HI : pinv ?m _ _, Hx : ?m !! _ = Some ?y, Hy : state ?y <> UNUSED |- _ =>
      pose proof (pi_pid _ _ _ HI _ _ Hx Hy); lia end.
  - intros j p Hp. upds; [done|]. by eapply pi_tickets.
  - intros j k p Hp Hk. upds; [cbn in Hk; congruence|].
    destruct (pi_parent _ _ _ HI _ _ _ H1 Hk) as (? & ? & r & Hr & Ha).
    split_and!; auto. exists r. eauto using alive_kept.
  - intros j p Hp. upds; [done|]. by eapply pi_orphan.
  - destruct (pi_init _ _ _ HI) as (p & Hp & Ha & ?). exists p. eauto using alive_kept.
Qed.

Lemma winv_claimed l n ip i q : pinv l n ip -> winv l -> l !! i = Some q -> state q = UNUSED ->
  winv (<[i := claimed n q]> l).
Proof.
  intros HI HW Hq Hu. pose proof (free_parent _ _ _ _ _ HI Hq Hu) as Hn.
  intros j k p Hp Hs Hc. upds; [done|].
  destruct (HW _ _ _ H0 Hs Hc) as (-> & (c & r & Hr & Ec) & Hz). split_and!; [done|..].
  - exists c, r. rewrite list_lookup_insert_ne; [done|]. intros ->. congruence.
  - intros c' r' Hr' Er. upds; [done|eauto].
Qed.

(** What the running process [cur] may do to the embryo it is making. *)
Definition grown (cur : nat) (q q' : proc) : Prop :=
  pid q' = pid q /\ (parent q = None \/ parent q = Some cur) /\
  (parent q' = None \/ parent q' = Some cur /\ state q' <> UNUSED) /\
  (state q' = EMBRYO \/ state q' = UNUSED \/ state q' = RUNNABLE /\ 10 <= tickets q' /\ parent q' <> None).

Lemma pinv_grown l n ip i q q' cur p : pinv l n ip -> l !! i = Some q -> state q = EMBRYO ->
  l !! cur = Some p -> alive p = true -> grown cur q q' -> pinv (<[i := q']> l) n ip.
Proof.
  intros HI Hq He Hp Ha (Hpid & _ & Hpar & Hst).
  assert (Hk : forall j r, l !! j = Some r -> alive r = true -> <[i := q']> l !! j = Some r).
  { intros j r Hr Hra. rewrite list_lookup_insert_ne; [done|]. intros ->. apply alive_state in Hra. naive_solver. }
  assert (Hu : state q <> UNUSED) by congruence.
  assert (Hne : i <> cur) by (intros ->; apply alive_state in Ha; naive_solver).
  split.
  - rewrite length_insert. by apply HI.
  - intros j r Hr Hs. upds; [rewrite Hpid|]; by eapply pi_pid.
  - intros j k r t Hr Ht Hsr Hst' E. upds; [done|rewrite Hpid in E|rewrite Hpid in E|]; by eapply pi_uniq.
  - intros j r Hr Hs He'. upds; [naive_solver congruence|]. by eapply pi_tickets.
  - intros j k r Hr Hk'. upds.
    + destruct Hpar as [E|[E Hs]]; rewrite E in Hk'; [done|]. injection Hk' as <-. eauto 10.
    + destruct (pi_parent _ _ _ HI _ _ _ H0 Hk') as (? & ? & t & Ht & Hta). eauto 10.
  - intros j r Hr Hs He'. upds; [naive_solver congruence|]. by eapply pi_orphan.
  - destruct (pi_init _ _ _ HI) as (r & Hr & Hra & ?). eauto.
Qed.

Lemma winv_grown l i q q' cur p : winv l -> l !! i = Some q -> state q = EMBRYO ->
  l !! cur = Some p -> state p = RUNNING -> grown cur q q' -> winv (<[i := q']> l).
Proof.
  intros HW Hq He Hp Hr (_ & Hq0 & Hpar & Hst) j k x Hx Hs Hc. upds; [naive_solver congruence|].
  assert (j <> cur) by congruence.
  destruct (HW _ _ _ H0 Hs Hc) as (-> & (d & y & Hy & Ed) & Hn). split_and!; [done|..].
  - exists d, y. rewrite list_lookup_insert_ne; [done|]. intros ->. naive_solver congruence.
  - intros d' y' Hy' Ey. upds; [naive_solver congruence|eauto].
Qed.

Lemma pinv_pos l n ip : pinv l n ip -> 0 < n.
Proof.
  intros HI. destruct (pi_init _ _ _ HI) as (p & Hp & Ha%alive_state & _).
  assert (0 < pid p < n) by (eapply pi_pid; naive_solver). lia.
Qed.

(** ** Reaping a child *)

(** The slot of the zombie [p] after [wait] took it. *)
Definition reaped (p : proc) : proc :=
  set_state UNUSED (set_killed 0 (set_name (<[0%nat := 0]> (name p))
    (set_parent None (set_pid 0 (set_kstack 0 p))))).

Section Blocking.
Context {W : Type} `{SV : Services W}.
Implicit Types s : pst W.

Lemma reap_inv i s r s' p : reap i s = Ret r s' -> procs s !! i = Some p ->
  r = pid p /\ locked s = true /\ exists w,
    s' = mkpst (<[i := reaped p]> (procs s)) (nextpid s) (initproc s) false (ncli s - 1) w.
Proof.
  intros H Hp. unfold reap in H. inv_run. split_and!; auto. eexists. done.
Qed.

Lemma wait_scan_inv cur l hk s r s' : wait_scan cur l hk s = Ret r s' ->
  match r with
  | inl v => exists i p w, procs s !! i = Some p /\ parent p = Some cur /\
      state p = ZOMBIE /\ v = pid p /\ locked s = true /\
      s' = mkpst (<[i := reaped p]> (procs s)) (nextpid s) (initproc s) false (ncli s - 1) w
  | inr hk' => s' = s /\
      (forall i p, i ∈ l -> procs s !! i = Some p -> parent p = Some cur -> state p <> ZOMBIE) /\
      (hk' = true <-> hk = true \/ exists i p, i ∈ l /\ procs s !! i = Some p /\ parent p = Some cur)
  end.
Proof.
  revert hk s. induction l as [|i l IH]; intros hk s H; cbn in H.
  { inv_run. split_and!; [done|..]; [set_solver|]. naive_solver set_solver. }
  apply bind_inv in H as (p & s1 & Hp & H). apply slot_inv in Hp as [Hp ->].
  case_bool_decide as Hpar; cbn in H; [case_bool_decide as Hz|].
  - apply bind_inv in H as (v & s1 & Hr & H). apply ret_inv in H as [<- <-].
    destruct (reap_inv _ _ _ _ _ Hr Hp) as (-> & ? & w & ->). eauto 10.
  - apply IH in H. destruct r as [v|hk']; [done|]. destruct H as (-> & Hno & Hk).
    split_and!; [done|..].
    + intros j q [->|Hj]%elem_of_cons Hq; naive_solver.
    + split; [|by intros _; apply Hk; left]. intros _. right. exists i, p. set_solver.
  - apply IH in H. destruct r as [v|hk']; [done|]. destruct H as (-> & Hno & Hk).
    split_and!; [done|..].
    + intros j q [->|Hj]%elem_of_cons Hq; naive_solver.
    + rewrite Hk. split; (intros [?|(j & q & Hj & ?)]; [by left|right]).
      * exists j, q. set_solver.
      * apply elem_of_cons in Hj as [->|Hj]; [naive_solver|eauto].
Qed.

End Blocking.

Lemma pinv_reaped l n ip i p : pinv l n ip -> l !! i = Some p -> state p = ZOMBIE ->
  pinv (<[i := reaped p]> l) n ip.
Proof.
  intros HI Hp Hz.
  assert (Hk : forall j q, l !! j = Some q -> alive q = true ->
    <[i := reaped p]> l !! j = Some q).
  { intros j q Hq Ha. rewrite list_lookup_insert_ne; [done|]. intros ->.
    apply alive_state in Ha. naive_solver. }
  split.
  - rewrite length_insert. by apply HI.
  - intros j q Hq. upds; [done|]. by eapply pi_pid.
  - intros j k q r Hq Hr. upds; try done. by eapply pi_uniq.
  - intros j q Hq. upds; [done|]. by eapply pi_tickets.
  - intros j k q Hq E. upds; [done|].
    destruct (pi_parent _ _ _ HI _ _ _ H0 E) as (? & ? & r & Hr & Ha). eauto 10.
  - intros j q Hq. upds; [done|]. by eapply pi_orphan.
  - destruct (pi_init _ _ _ HI) as (q & Hq & Ha & ?). eauto.
Qed.

(** The parent is running, so it is not the one asleep in [wait]. *)
Lemma winv_reaped l i p cur q : winv l -> l !! i = Some p -> state p = ZOMBIE ->
  parent p = Some cur -> l !! cur = Some q -> state q = RUNNING ->
  winv (<[i := reaped p]> l).
Proof.
  intros HW Hp Hz Hpar Hq Hr j k x Hx Hs Hc. upds; [done|].
  destruct (HW _ _ _ H0 Hs Hc) as (-> & (d & y & Hy & Ed) & Hn). split_and!; [done|..].
  - exists d, y. rewrite list_lookup_insert_ne; [done|]. intros ->. congruence.
  - intros d' y' Hy' Ey. upds; [done|eauto].
Qed.

(** ** Leaving a family *)

Definition wake (c : option wchan) (p : proc) : proc :=
  if bool_decide (state p = SLEEPING) && bool_decide (chan p = c)
  then set_state RUNNABLE p else p.

(** [p'] is [p], perhaps woken up and given another parent. *)
Definition kept (p p' : proc) : Prop :=
  pid p' = pid p /\ tickets p' = tickets p /\ chan p' = chan p /\
  (state p' = state p \/ state p = SLEEPING /\ state p' = RUNNABLE).

Definition adopted (cur ip : nat) (js : list nat) (l l' : list proc) : Prop :=
  length l' = length l /\
  forall i p, l !! i = Some p -> exists p', l' !! i = Some p' /\ kept p p' /\
    parent p' = if bool_decide (i ∈ js /\ parent p = Some cur) then Some ip else parent p.

(** Nobody sleeps on the channel of process [i]. *)
Definition none_on (i : nat) (l : list proc) : Prop :=
  forall j q, l !! j = Some q -> state q = SLEEPING -> chan q <> Some (ChProc i).

Lemma wake_kept c p : kept p (wake c p) /\ parent (wake c p) = parent p.
Proof.
  unfold wake, kept. repeat case_bool_decide; cbn; auto 10.
Qed.

Lemma wake_soft c p : soft p (wake c p) /\ quiet p (wake c p).
Proof.
  unfold wake. destruct (bool_decide (state p = SLEEPING) && _) eqn:H; [|auto with kern].
  b2p. destruct H as [H _]. unfold soft, quiet, alive. cbn. rewrite H. split; [tauto|done].
Qed.

Lemma wake_none i l : none_on i (wake (Some (ChProc i)) <$> l).
Proof.
  intros j q. rewrite list_lookup_fmap. intros [p [Hp ->]]%fmap_Some.
  unfold wake. repeat case_bool_decide; cbn; naive_solver.
Qed.

Lemma kept_trans p q r : kept p q -> kept q r -> kept p r.
Proof. unfold kept. naive_solver congruence. Qed.

Lemma adopted_back cur ip js l l' i p' : adopted cur ip js l l' -> l' !! i = Some p' ->
  exists p, l !! i = Some p /\ kept p p' /\
    parent p' = if bool_decide (i ∈ js /\ parent p = Some cur) then Some ip else parent p.
Proof.
  intros [HL HA] Hp'. pose proof (lookup_lt_Some _ _ _ Hp') as Hlt. rewrite HL in Hlt.
  apply lookup_lt_is_Some in Hlt as [p Hp]. destruct (HA _ _ Hp) as (q & Hq & ?).
  rewrite Hp' in Hq. injection Hq as <-. eauto.
Qed.

Lemma none_on_adopted cur ip js l l' i : adopted cur ip js l l' -> none_on i l -> none_on i l'.
Proof.
  intros HA Hn j q' Hq' Hs. destruct (adopted_back _ _ _ _ _ _ _ HA Hq') as (q & Hq & Hk & _).
  destruct Hk as (_ & _ & -> & [E|[_ E]]); [|congruence]. apply (Hn _ _ Hq). congruence.
Qed.

Lemma adopted_trans cur ip i js l1 l2 l3 : ip <> cur ->
  adopted cur ip [i] l1 l2 -> adopted cur ip js l2 l3 -> adopted cur ip (i :: js) l1 l3.
Proof.
  intros Hne [L1 H1] [L2 H2]. split; [congruence|]. intros j p Hp.
  destruct (H1 _ _ Hp) as (q & Hq & Kq & Eq). destruct (H2 _ _ Hq) as (r & Hr & Kr & Er).
  exists r. split_and!; [done|by eapply kept_trans|].
  rewrite Er, Eq. repeat case_bool_decide; set_solver.
Qed.

Section ExitEffect.
Context {W : Type} `{SV : Services W}.
Implicit Types s : pst W.

Lemma wakeup1_run c s :
  wakeup1 c s = Ret tt (set_procs (wake c <$> procs s) s).
Proof. done. Qed.

Lemma reparent_inv cur ip i s u s' : reparent cur i s = Ret u s' -> initproc s = Some ip ->
  exists l', s' = set_procs l' s /\ adopted cur ip [i] (procs s) l' /\
    forall p, procs s !! i = Some p -> parent p = Some cur -> state p = ZOMBIE -> none_on ip l'.
Proof.
  unfold reparent. intros H Hi. apply bind_inv in H as (p & s1 & Hp & H).
  apply slot_inv in Hp as [Hp ->]. case_bool_decide as Hpar.
  - assert (HA : adopted cur ip [i] (procs s) (<[i := set_parent (Some ip) p]> (procs s))).
    { split; [by rewrite length_insert|]. intros j q Hq.
      destruct (decide (i = j)) as [<-|Hij].
      - rewrite (lookup_upd _ _ _ _ Hp). replace q with p in * by congruence.
        rewrite bool_decide_true by set_solver. eexists. split; [done|]. unfold kept. cbn. tauto.
      - rewrite list_lookup_insert_ne by done. exists q.
        rewrite bool_decide_false by set_solver. unfold kept. auto 10. }
    inv_run. rewrite Hi in *. case_bool_decide as Hz.
    + rewrite wakeup1_run in H. injection H as _ <-. eexists. split; [done|]. fields. split.
      * destruct HA as [L HA]. split; [by rewrite length_fmap|]. intros j q Hq.
        destruct (HA _ _ Hq) as (q' & Hq' & Kq & Eq).
        exists (wake (ch (Some ip)) q'). rewrite list_lookup_fmap, Hq'.
        destruct (wake_kept (ch (Some ip)) q') as [Kw ->].
        split_and!; [done|by eapply kept_trans|done].
      * intros _ _ _ _. apply wake_none.
    + inv_run. eexists. split; [reflexivity|]. split; [done|]. naive_solver.
  - inv_run. exists (procs s'). split; [by destruct s'|]. split; [|naive_solver].
    split; [done|]. intros j q Hq. exists q. unfold kept. split_and!; auto.
    case_bool_decide; set_solver.
Qed.

Lemma reparents_inv cur ip js s u s' : for_each js (reparent cur) s = Ret u s' ->
  initproc s = Some ip -> ip <> cur ->
  exists l', s' = set_procs l' s /\ adopted cur ip js (procs s) l' /\
    forall i p, i ∈ js -> procs s !! i = Some p -> parent p = Some cur ->
      state p = ZOMBIE -> none_on ip l'.
Proof.
  revert s. induction js as [|i js IH]; intros s H Hi Hne; cbn in H.
  { inv_run. exists (procs s'). split; [by destruct s'|]. split; [|set_solver].
    split; [done|]. intros j q Hq. exists q. unfold kept.
    rewrite bool_decide_false by set_solver. auto 10. }
  apply bind_inv in H as (u1 & s1 & H1 & H2).
  destruct (reparent_inv _ _ _ _ _ _ H1 Hi) as (l1 & -> & A1 & Z1).
  destruct (IH _ H2 Hi Hne) as (l2 & -> & A2 & Z2). cbn in A2, Z2.
  exists l2. split; [done|]. split; [by eapply adopted_trans|].
  intros j p Hj Hp Hpar Hz. destruct (decide (i = j)) as [<-|Hij].
  { eapply none_on_adopted; [done|]. eauto. }
  destruct A1 as [_ A1]. destruct (A1 _ _ Hp) as (q & Hq & (_ & _ & _ & Sq) & Eq).
  rewrite bool_decide_false in Eq by set_solver.
  apply (Z2 j q); [set_solver|done|congruence|].
  destruct Sq as [?|[? _]]; congruence.
Qed.

End ExitEffect.

(** The tables of [exit]: [l1] when it holds the lock and has woken the parent,
    [l2] after the loop that hands its children to init. *)
Section ExitTables.
Variables (l1 l2 : list proc) (n : Z) (ip cur : nat) (p1 p2 : proc).
Hypothesis HI : pinv l1 n ip.
Hypothesis HA : adopted cur ip (indices NPROC) l1 l2.
Hypothesis Hne : ip <> cur.
Hypothesis Hp1 : l1 !! cur = Some p1.
Hypothesis Hrun : state p1 = RUNNING.
Hypothesis Hp2 : l2 !! cur = Some p2.

Let l3 := <[cur := set_state ZOMBIE p2]> l2.

Lemma exit_back i q' : l3 !! i = Some q' -> exists q, l1 !! i = Some q /\
  pid q' = pid q /\ tickets q' = tickets q /\ chan q' = chan q /\
  parent q' = (if bool_decide (parent q = Some cur) then Some ip else parent q) /\
  (i = cur /\ state q' = ZOMBIE /\ state q = RUNNING \/
   i <> cur /\ (state q' = state q \/ state q = SLEEPING /\ state q' = RUNNABLE)).
Proof.
  intros H. apply list_lookup_insert_Some in H as [(<- & <- & _)|[Hi H]].
  - destruct (adopted_back _ _ _ _ _ _ _ HA Hp2) as (q & Hq & (E1 & E2 & E3 & _) & E4).
    exists q. rewrite Hp1 in Hq. injection Hq as <-. split_and!; auto. cbn. rewrite E4.
    repeat case_bool_decide; try tauto. exfalso. apply H. split; [|done].
    apply elem_of_indices. rewrite <- (pi_len _ _ _ HI). by eapply lookup_lt_Some.
  - destruct (adopted_back _ _ _ _ _ _ _ HA H) as (q & Hq & (E1 & E2 & E3 & E5) & E4).
    exists q. split_and!; auto. rewrite E4. repeat case_bool_decide; try tauto.
    exfalso. apply H0. split; [|done]. apply elem_of_indices.
    rewrite <- (pi_len _ _ _ HI). by eapply lookup_lt_Some.
Qed.

Lemma exit_alive i q : l1 !! i = Some q -> alive q = true -> i <> cur ->
  exists q', l3 !! i = Some q' /\ alive q' = true /\
    parent q' = (if bool_decide (parent q = Some cur) then Some ip else parent q).
Proof.
  intros Hq Ha Hi. destruct HA as [_ A]. destruct (A _ _ Hq) as (q' & Hq' & _).
  assert (H3 : l3 !! i = Some q') by (unfold l3; by rewrite list_lookup_insert_ne).
  exists q'. destruct (exit_back _ _ H3) as (r & Hr & _ & _ & _ & E & S).
  rewrite Hq in Hr. injection Hr as <-. split_and!; auto.
  apply alive_state. apply alive_state in Ha. destruct S as [[? _]|[_ [->|[_ ->]]]]; done.
Qed.

Lemma exit_used i q q' : l1 !! i = Some q -> state q' <> UNUSED ->
  (i = cur /\ state q' = ZOMBIE /\ state q = RUNNING \/
   i <> cur /\ (state q' = state q \/ state q = SLEEPING /\ state q' = RUNNABLE)) ->
  state q <> UNUSED.
Proof. naive_solver congruence. Qed.

Lemma pinv_exit : pinv l3 n ip.
Proof.
  split.
  - unfold l3. rewrite length_insert. destruct HA as [-> _]. by apply HI.
  - intros i q' H Hu. destruct (exit_back _ _ H) as (q & Hq & -> & _ & _ & _ & S).
    eapply pi_pid; eauto using exit_used.
  - intros i j q' r' Hq' Hr' Hu Hv.
    destruct (exit_back _ _ Hq') as (q & Hq & -> & _ & _ & _ & S).
    destruct (exit_back _ _ Hr') as (r & Hr & -> & _ & _ & _ & S').
    eapply pi_uniq; eauto using exit_used.
  - intros i q' H Hu He. destruct (exit_back _ _ H) as (q & Hq & _ & -> & _ & _ & S).
    eapply pi_tickets; eauto using exit_used. naive_solver congruence.
  - intros i j q' H E. destruct (exit_back _ _ H) as (q & Hq & _ & _ & _ & E' & S).
    rewrite E in E'. case_bool_decide as Hc.
    + injection E' as ->. destruct (pi_parent _ _ _ HI _ _ _ Hq Hc) as (? & ? & _).
      destruct (pi_init _ _ _ HI) as (r & Hr & Ha & Hn).
      destruct (exit_alive _ _ Hr Ha Hne) as (r' & ? & ? & _).
      split_and!; [naive_solver congruence| |eauto]. congruence.
    + destruct (pi_parent _ _ _ HI _ _ _ Hq (eq_sym E')) as (? & ? & r & Hr & Ha).
      assert (Hj : j <> cur) by congruence.
      destruct (exit_alive _ _ Hr Ha Hj) as (r' & ? & ? & _).
      split_and!; [naive_solver congruence|done|eauto].
  - intros i q' H Hu He Hi. destruct (exit_back _ _ H) as (q & Hq & _ & _ & _ & -> & S).
    case_bool_decide; [done|]. eapply pi_orphan; eauto using exit_used. naive_solver congruence.
  - destruct (pi_init _ _ _ HI) as (r & Hr & Ha & Hn).
    destruct (exit_alive _ _ Hr Ha Hne) as (r' & ? & ? & E). exists r'.
    rewrite E, Hn. split_and!; auto.
Qed.

Hypothesis HW : winv l1.
Hypothesis Hparent : forall j, parent p1 = Some j -> none_on j l1.
Hypothesis Hzombie : forall i q, l1 !! i = Some q -> parent q = Some cur ->
  state q = ZOMBIE -> none_on ip l2.

Lemma winv_exit : winv l3.
Proof.
  intros i j q' H Hs Hc. destruct (exit_back _ _ H) as (q & Hq & _ & _ & Ec & _ & S).
  assert (Hi : i <> cur /\ state q = SLEEPING) by naive_solver congruence.
  destruct Hi as [Hi Hsq]. rewrite Ec in Hc.
  destruct (HW _ _ _ Hq Hsq Hc) as (<- & (k & r & Hr & Er) & Hz). split_and!; [done|..].
  - destruct HA as [_ A]. destruct (A _ _ Hr) as (r' & Hr' & _).
    assert (H3 : exists r', l3 !! k = Some r').
    { apply lookup_lt_is_Some. unfold l3. rewrite length_insert. by eapply lookup_lt_Some. }
    destruct H3 as [r3 H3]. destruct (exit_back _ _ H3) as (r0 & Hr0 & _ & _ & _ & E & _).
    replace r0 with r in * by congruence. exists k, r3. split; [done|].
    rewrite E. case_bool_decide; congruence.
  - intros k' r' Hr' Er'. destruct (exit_back _ _ Hr') as (r0 & Hr0 & _ & _ & _ & E & S').
    rewrite Er' in E. destruct S' as [(-> & _)|[Hk S']].
    + replace r0 with p1 in * by congruence. case_bool_decide as Hpc.
      { by destruct (pi_parent _ _ _ HI _ _ _ Hp1 Hpc) as (_ & ? & _). }
      exfalso. exact (Hparent _ (eq_sym E) _ _ Hq Hsq Hc).
    + case_bool_decide as Hpc; [|intros Z; apply (Hz _ _ Hr0); [done|]; naive_solver congruence].
      injection E as ->. intros Z. assert (Hz0 : state r0 = ZOMBIE) by naive_solver congruence.
      assert (Hn : none_on ip l2) by eauto. apply list_lookup_insert_Some in H as [[? _]|[_ H]].
      * congruence.
      * eapply (Hn _ _ H Hs). congruence.
Qed.

End ExitTables.

(** ** Runs that end in the scheduler *)

Definition never_waits {S A} (m : M S A) : Prop := forall s c s', m s <> Wait c s'.

(** [kfree] and [freevm], which [wait] calls under the lock, take spin locks only:
    they do not sleep. *)
Class Nonblocking (W : Type) `{SV : Services W} : Prop := {
  nb_kfree a : never_waits (sv_kfree a);
  nb_freevm a : never_waits (sv_freevm a);
}.
#[export] Hint Resolve nb_kfree nb_freevm : nowait.

Section NoWait.
Context {W : Type} `{NB : Nonblocking W}.

Lemma nw_bind {S A B} (m : M S A) (f : A -> M S B) :
  never_waits m -> (forall a, never_waits (f a)) -> never_waits (bind m f).
Proof.
  intros Hm Hf s c s'. unfold bind. destruct (m s) eqn:E; [apply Hf|done|].
  by destruct (Hm _ _ _ E).
Qed.

Lemma nw_ret {S A} (a : A) : never_waits (ret a : M S A).
Proof. done. Qed.
Lemma nw_get {S} : never_waits (get : M S S).
Proof. done. Qed.
Lemma nw_put {S} (s : S) : never_waits (put s).
Proof. done. Qed.
Lemma nw_modify {S} (f : S -> S) : never_waits (modify f).
Proof. done. Qed.
Lemma nw_panic {S A} e : never_waits (panic e : M S A).
Proof. done. Qed.
Lemma nw_fault {S A} e : never_waits (fault e : M S A).
Proof. done. Qed.
Lemma nw_deref {S A} (o : option A) : never_waits (deref o : M S A).
Proof. by destruct o. Qed.
Lemma nw_slot i : never_waits (slot i : M (pst W) proc).
Proof. intros s c s'. unfold slot. apply nw_deref. Qed.
Lemma nw_inw {A} (m : M W A) : never_waits m -> never_waits (inw m).
Proof.
  intros H s c s'. unfold inw, zoom. destruct (m (world s)) eqn:E; try done.
  by destruct (H _ _ _ E).
Qed.
Lemma nw_if {S A} (b : bool) (m k : M S A) :
  never_waits m -> never_waits k -> never_waits (if b then m else k).
Proof. by destruct b. Qed.
Lemma nw_for_each {S X} (l : list X) (body : X -> M S unit) :
  (forall x, never_waits (body x)) -> never_waits (for_each l body).
Proof. intros H. induction l; cbn; auto using nw_ret, nw_bind. Qed.

Lemma bind_wait {S A B} (m : M S A) (f : A -> M S B) s c s2 :
  bind m f s = Wait c s2 -> never_waits m ->
  exists a s1, m s = Ret a s1 /\ f a s1 = Wait c s2.
Proof.
  unfold bind. intros H Hm. destruct (m s) eqn:E; [eauto|done|]. by destruct (Hm _ _ _ E).
Qed.

End NoWait.

#[export] Hint Resolve nw_bind nw_ret nw_get nw_put nw_modify nw_panic nw_fault nw_deref
  nw_slot nw_inw nw_if nw_for_each : nowait.

(** Prove that a piece of straight-line code never waits. *)
Ltac nowait := repeat first
  [ match goal with |- never_waits (for_each _ _) => apply nw_for_each; intros ? end
  | apply nw_bind; [|intros ?] | apply nw_if | apply nw_inw | case_match | solve [auto with nowait] | progress cbn ].

Section NoWaitOps.
Context {W : Type} `{NB : Nonblocking W}.

Lemma nw_on i f : never_waits (on i f : M (pst W) unit).
Proof. unfold on. nowait. Qed.
Lemma nw_acquire : never_waits (acquire_pt : M (pst W) unit).
Proof. unfold acquire_pt. nowait. Qed.
Lemma nw_release : never_waits (release_pt : M (pst W) unit).
Proof. unfold release_pt. nowait. Qed.
#[local] Hint Resolve nw_on nw_acquire nw_release : nowait.

Lemma nw_reap i : never_waits (reap i : M (pst W) Z).
Proof. unfold reap. nowait. Qed.
#[local] Hint Resolve nw_reap : nowait.

Lemma nw_wait_scan cur l hk : never_waits (wait_scan cur l hk : M (pst W) _).
Proof. revert hk. induction l; intros hk; cbn; nowait. Qed.

Lemma nw_reparent cur i : never_waits (reparent cur i : M (pst W) unit).
Proof. unfold reparent, wakeup1. nowait. Qed.

End NoWaitOps.

#[export] Hint Resolve nw_on nw_acquire nw_release nw_reap nw_wait_scan nw_reparent : nowait.
