(* ===== verification/ProcSteps.v ===== *)
(** * Processes and CPUs together ([proc.c])

    Every interleaving of the code of [Proc] by the processes that run, of
    wakeups by interrupts and other kernel code, and of the scheduler of each CPU.
    Code is cut wherever the process holds no lock: [fork] and [exit] run in
    pieces, between which other CPUs run and a timer interrupt may take the CPU
    away, and the scheduler looks at one slot at a time.  The table's invariant
    holds in every state that can be reached, for any number of CPUs. *)
From S2P Require Import Prelude Str Proc.

Definition tbl_ok (l : list proc) (n : Z) (ip : nat) : Prop := pinv l n ip /\ winv l.

Definition running (l : list proc) (i : nat) : Prop :=
  exists p, l !! i = Some p /\ state p = RUNNING.

Definition same_running (l l' : list proc) : Prop :=
  forall i, running l' i <-> running l i.

Section Tables.
Implicit Types (l : list proc) (i : nat).

Lemma tbl_upd l n ip i p p' : tbl_ok l n ip -> l !! i = Some p -> soft p p' -> quiet p p' ->
  tbl_ok (<[i := p']> l) n ip.
Proof.
  intros [HI HW] Hi Hs Hq. split.
  - eapply pinv_soft; [|done]. eapply Forall2_upd; eauto with kern.
  - eapply winv_soft; [..|done]; eapply Forall2_upd; eauto with kern.
Qed.

Lemma tbl_wake l n ip c : tbl_ok l n ip -> tbl_ok (wake c <$> l) n ip.
Proof.
  intros [HI HW].
  assert (HF : Forall2 (fun p q => soft p q /\ quiet p q) l (wake c <$> l)).
  { apply Forall2_fmap_r, Forall_Forall2_diag, Forall_true. intros. apply wake_soft. }
  split.
  - eapply pinv_soft; [|done]. eapply Forall2_impl; [done|]. naive_solver.
  - eapply winv_soft; [..|done]; (eapply Forall2_impl; [done|]); naive_solver.
Qed.

Lemma running_upd l i p p' : l !! i = Some p -> (state p' = RUNNING <-> state p = RUNNING) ->
  same_running l (<[i := p']> l).
Proof.
  intros Hp E j. unfold running. destruct (decide (i = j)) as [<-|Hne].
  - rewrite (lookup_upd _ _ _ _ Hp), Hp. naive_solver.
  - by rewrite list_lookup_insert_ne.
Qed.

Lemma running_stop l i p p' : l !! i = Some p -> state p' <> RUNNING ->
  forall j, running (<[i := p']> l) j <-> running l j /\ j <> i.
Proof.
  intros Hp E j. unfold running. destruct (decide (i = j)) as [<-|Hne].
  - rewrite (lookup_upd _ _ _ _ Hp). naive_solver.
  - rewrite list_lookup_insert_ne by done. naive_solver.
Qed.

Lemma running_wake l c : same_running l (wake c <$> l).
Proof.
  intros j. unfold running. rewrite list_lookup_fmap. unfold wake.
  destruct (l !! j) as [p|]; cbn; [|naive_solver].
  split; intros (q & [= <-] & E); eexists; (split; [done|]);
    revert E; repeat case_bool_decide; cbn; congruence.
Qed.

Lemma running_kept l l' : length l' = length l ->
  (forall i p, l !! i = Some p -> exists p', l' !! i = Some p' /\ kept p p') ->
  same_running l l'.
Proof.
  intros HL HK i. unfold running. split.
  - intros (p' & Hp' & E). assert (is_Some (l !! i)) as [p Hp].
    { apply lookup_lt_is_Some. rewrite <- HL. by eapply lookup_lt_Some. }
    destruct (HK _ _ Hp) as (q & Hq & (_ & _ & _ & S)). exists p. naive_solver congruence.
  - intros (p & Hp & E). destruct (HK _ _ Hp) as (q & Hq & (_ & _ & _ & S)).
    exists q. naive_solver congruence.
Qed.

Lemma same_running_trans l1 l2 l3 :
  same_running l1 l2 -> same_running l2 l3 -> same_running l1 l3.
Proof. unfold same_running. intros H1 H2 i. by rewrite H2, H1. Qed.

End Tables.

(** ** What happens to the slots of others *)

(** [p'] is the slot [p] after a step of another process: embryos stay as they
    are, except that one whose parent is [out] may get another parent, a runnable
    process stays runnable and a live one alive. *)
Definition sedate (out : option nat) (p p' : proc) : Prop :=
  (state p = EMBRYO -> state p' = EMBRYO /\ tickets p' = tickets p /\
     ((forall c, out = Some c -> parent p <> Some c) -> parent p' = parent p)) /\
  (state p = RUNNABLE -> state p' = RUNNABLE) /\
  (alive p = true -> alive p' = true) /\
  (state p' = EMBRYO -> state p = EMBRYO).

(** Only the slots of [X] change in other ways. *)
Definition others (out : option nat) (X : list nat) (l l' : list proc) : Prop :=
  length l' = length l /\
  forall j p, l !! j = Some p -> j ∉ X -> exists p', l' !! j = Some p' /\ sedate out p p'.

Lemma sedate_refl out p : sedate out p p.
Proof. unfold sedate. tauto. Qed.

Lemma sedate_trans out p q r : sedate out p q -> sedate out q r -> sedate out p r.
Proof.
  intros (A1 & A2 & A3 & A4) (B1 & B2 & B3 & B4). split_and!; auto. intros E.
  destruct (A1 E) as (E1 & T1 & P1). destruct (B1 E1) as (E2 & T2 & P2). split_and!; [done|congruence|].
  intros Hc. rewrite P2; [by apply P1|]. by rewrite P1.
Qed.

Lemma sedate_kept out p p' : kept p p' -> ((forall c, out = Some c -> parent p <> Some c) -> parent p' = parent p) ->
  sedate out p p'.
Proof.
  intros (_ & Ht & _ & Hs) Hp. unfold sedate, alive. split_and!.
  - intros E. rewrite E in Hs. destruct Hs as [Hs|[? _]]; [auto|done].
  - intros E. rewrite E in Hs. by destruct Hs as [Hs|[? _]].
  - by destruct Hs as [->|[-> ->]].
  - intros E. rewrite E in Hs. by destruct Hs as [Hs|[_ ?]].
Qed.

(** A slot that is neither an embryo nor alive before, nor an embryo after. *)
Lemma sedate_dead out p p' : state p <> EMBRYO -> alive p = false -> state p' <> EMBRYO -> sedate out p p'.
Proof.
  intros H1 H2 H3. unfold sedate. split_and!; try done; [|congruence].
  intros E. unfold alive in H2. by rewrite E in H2.
Qed.

Lemma others_refl out X l : others out X l l.
Proof. split; [done|]. eauto using sedate_refl. Qed.

Lemma others_trans out X l1 l2 l3 : others out X l1 l2 -> others out X l2 l3 -> others out X l1 l3.
Proof.
  intros [L1 H1] [L2 H2]. split; [congruence|]. intros j p Hp Hj.
  destruct (H1 _ _ Hp Hj) as (q & Hq & Sq). destruct (H2 _ _ Hq Hj) as (r & Hr & Sr). eauto using sedate_trans.
Qed.

Lemma others_upd out X l i p p' : l !! i = Some p -> i ∈ X \/ sedate out p p' -> others out X l (<[i := p']> l).
Proof.
  intros Hp Hs. split; [apply length_insert|]. intros j q Hq Hj. destruct (decide (i = j)) as [<-|Hne].
  - rewrite (lookup_upd _ _ _ _ Hp). replace q with p in * by congruence. destruct Hs; [done|]. eauto.
  - rewrite list_lookup_insert_ne by done. eauto using sedate_refl.
Qed.

Lemma others_mono out X Y l l' : X ⊆ Y -> others out X l l' -> others out Y l l'.
Proof. intros HXY [L H]. split; [done|]. intros j p Hp Hj. apply H; [done|set_solver]. Qed.

Lemma frame_wake out X l c : others out X l (wake c <$> l).
Proof.
  split; [apply length_fmap|]. intros j p Hp _. exists (wake c p). rewrite list_lookup_fmap, Hp. split; [done|].
  destruct (wake_kept c p) as [Hk E]. by apply sedate_kept.
Qed.

(** A slot of the new table outside [X] that is an embryo was one before. *)
Lemma frame_embryo out X l l' j p' : others out X l l' -> l' !! j = Some p' -> j ∉ X -> state p' = EMBRYO ->
  exists p, l !! j = Some p /\ state p = EMBRYO /\ sedate out p p'.
Proof.
  intros [L H] Hp' Hj He. assert (is_Some (l !! j)) as [p Hp].
  { apply lookup_lt_is_Some. rewrite <- L. by eapply lookup_lt_Some. }
  destruct (H _ _ Hp Hj) as (q & Hq & Sq). rewrite Hp' in Hq. injection Hq as <-.
  exists p. split_and!; [done| |done]. by apply Sq.
Qed.

(** ** What a process is in the middle of *)

Inductive fstage := FStack | FCopy | FFile (fd : nat) | FCwd | FTickets | FSet (t : Z) | FPublish.
Inductive xstage := XFile (fd : nat) | XBegin | XPut | XEnd | XLast.

(** [Free]: nothing that concerns the table; [Waiting], [Dozing]: asleep in [wait]
    or, in the middle of something else, in another call of [sleep]; [Forking]:
    making the process of slot [np]. *)
Inductive task := Free | Waiting | Dozing (t : task) | Forking (np : nat) (st : fstage) | Exiting (st : xstage).

(** The system calls, and the ways to leave the CPU. *)
Inductive pop := Fork | WaitChild | Kill (n : Z) | SetTickets (arg : option Z) | Exit | Grow (n : Z) | Pinfo.
Inductive leave := Yields | Sleeps (a : Z) | Waits | Exits.

(** A CPU: at the top of [scheduler]'s endless loop, at a slot in the loop over the
    table, where it holds the lock, or running a process, its [c->proc]. *)
Inductive cpu := Top | Scan (pos : nat) | Runs (i : nat).

#[global] Instance cpu_eq_dec : EqDecision cpu.
Proof. solve_decision. Defined.

Section Steps.
Context {W : Type} `{NB : Nonblocking W}.
Variables forkret trapret : Z.
Implicit Types s : pst W.

(** A system call from its start to its return or to the first point where it
    holds no lock. *)
Definition begin (cur : nat) (o : pop) : M (pst W) task :=
  match o with
  | Fork => let! r := alloc_slot in
            ret (match r with Some np => Forking np FStack | None => Free end)
  | WaitChild => wait cur ;; ret Free
  | Kill n => kill n ;; ret Free
  | SetTickets arg => sys_settickets (Some cur) arg ;; ret Free
  | Exit => exit_check cur ;; ret (Exiting (XFile 0))
  | Grow n => growproc cur n ;; ret Free
  | Pinfo => fillpstat ;; ret Free
  end.

(** The next piece of [fork] and of [exit]. *)
Definition continue (cur : nat) (t : task) : M (pst W) task :=
  match t with
  | Forking np FStack =>
      let! ok := alloc_stack forkret trapret np in ret (if ok : bool then Forking np FCopy else Free)
  | Forking np FCopy =>
      let! ok := fork_copy cur np in ret (if ok : bool then Forking np (FFile 0) else Free)
  | Forking np (FFile fd) =>
      if (fd <? NOFILE)%nat then dup_file cur np fd ;; ret (Forking np (FFile (S fd)))
      else ret (Forking np FCwd)
  | Forking np FCwd => fork_cwd cur np ;; ret (Forking np FTickets)
  | Forking np FTickets =>
      let! p := slot cur in let! t := gettickets (pid p) in ret (Forking np (FSet t))
  | Forking np (FSet t) => fork_tickets np t ;; ret (Forking np FPublish)
  | Forking np FPublish => fork_publish np ;; ret Free
  | Exiting (XFile fd) =>
      if (fd <? NOFILE)%nat then close_file cur fd ;; ret (Exiting (XFile (S fd)))
      else ret (Exiting XBegin)
  | Exiting XBegin => inw sv_begin_op ;; ret (Exiting XPut)
  | Exiting XPut => exit_iput cur ;; ret (Exiting XEnd)
  | Exiting XEnd => exit_end cur ;; ret (Exiting XLast)
  | _ => fault "nothing to do"
  end.

(** The code up to the switch to the scheduler, and what the process is then in
    the middle of.  A timer interrupt may make it yield anywhere here; the code
    that [exit] calls in other files may sleep, that of [fork] does not. *)
Definition park (cur : nat) (w : leave) : M (pst W) unit :=
  match w with
  | Yields => yield cur
  | Sleeps a =>
      modify (fun s => set_lock (locked s) (ncli s + 1) s) ;;
      sleep (Some cur) (ChAddr a) (Some OtherLock)
  | Waits => wait cur ;; ret tt
  | Exits => exit_locked cur
  end.

Definition parked (t : task) (w : leave) : option task :=
  match w, t with
  | Yields, _ => Some t
  | Sleeps _, (Free | Exiting (XFile _ | XBegin | XPut | XEnd)) => Some (Dozing t)
  | Waits, Free => Some Waiting
  | Exits, Exiting XLast => Some Free
  | _, _ => None
  end.

(** What a process does when it is switched to, the lock being held: the rest of
    [wait], of [sleep], of [yield], or for a new process [forkret]. *)
Definition resume (cur : nat) (t : task) : M (pst W) task :=
  match t with
  | Waiting => wait_resume cur ;; ret Free
  | Dozing t =>
      sleep_resume cur OtherLock ;;
      modify (fun s => set_lock (locked s) (ncli s - 1) s) ;;
      ret t
  | _ => yield_resume ;; ret t
  end.

(** [scheduler], from one of its points to the next; [Runs i] is where it calls
    [swtch], and where it goes on when that returns. *)
Definition scheduler (k : cpu) : M (pst W) cpu :=
  match k with
  | Top => acquire_pt ;; ret (Scan 0)
  | Scan pos =>
      if (pos <? NPROC)%nat then
        let! b := sched_to pos in ret (if b : bool then Runs pos else Scan (S pos))
      else release_pt ;; ret Top
  | Runs i => inw sv_switchkvm ;; ret (Scan (S i))
  end.

(** ** The system *)

Record sys := mksys { core : pst W; cpus : list cpu; tasks : gmap nat task }.

Definition task_of (ts : gmap nat task) (i : nat) : task := default Free (ts !! i).

Definition runs (k : cpu) : bool := match k with Runs _ => true | _ => false end.
Definition scans (k : cpu) : bool := match k with Scan _ => true | _ => false end.

(** The core as a CPU sees it: its own depth of [pushcli]. *)
Definition seen (k : cpu) (s : pst W) : pst W :=
  set_lock (locked s) (if scans k then 1 else 0) s.

(** A step, with the CPU and the process when a CPU switches to a process.  The
    process resumes at once, as it holds the lock.  The last two: interrupts and
    other code wake sleepers, and change the rest of the kernel's memory. *)
Inductive step : sys -> option (nat * nat) -> sys -> Prop :=
| step_begin s cs ts c i o t s' :
    cs !! c = Some (Runs i) -> task_of ts i = Free -> begin i o (seen (Runs i) s) = Ret t s' ->
    step (mksys s cs ts) None (mksys s' cs (<[i := t]> ts))
| step_continue s cs ts c i t s' :
    cs !! c = Some (Runs i) -> continue i (task_of ts i) (seen (Runs i) s) = Ret t s' ->
    step (mksys s cs ts) None (mksys s' cs (<[i := t]> ts))
| step_park s cs ts c i w t s1 k s2 :
    cs !! c = Some (Runs i) -> parked (task_of ts i) w = Some t ->
    park i w (seen (Runs i) s) = Wait "sched" s1 -> scheduler (Runs i) s1 = Ret k s2 ->
    step (mksys s cs ts) None (mksys s2 (<[c := k]> cs) (<[i := t]> ts))
| step_scheduler s cs ts c k k' s' :
    cs !! c = Some k -> runs k = false -> scheduler k (seen k s) = Ret k' s' -> runs k' = false ->
    step (mksys s cs ts) None (mksys s' (<[c := k']> cs) ts)
| step_switch s cs ts c k i s1 t s2 :
    cs !! c = Some k -> runs k = false -> scheduler k (seen k s) = Ret (Runs i) s1 ->
    resume i (task_of ts i) s1 = Ret t s2 ->
    step (mksys s cs ts) (Some (c, i)) (mksys s2 (<[c := Runs i]> cs) (<[i := t]> ts))
| step_again s cs ts c k i s1 s2 k' s3 :
    cs !! c = Some k -> runs k = false -> scheduler k (seen k s) = Ret (Runs i) s1 ->
    resume i (task_of ts i) s1 = Wait "sched" s2 -> scheduler (Runs i) s2 = Ret k' s3 ->
    step (mksys s cs ts) (Some (c, i)) (mksys s3 (<[c := k']> cs) ts)
| step_wake s cs ts a s' :
    wakeup (Some (ChAddr a)) (seen Top s) = Ret tt s' ->
    step (mksys s cs ts) None (mksys s' cs ts)
| step_other s cs ts w :
    step (mksys s cs ts) None (mksys (set_world w s) cs ts).

(** The state [userinit] leaves: one process, in the first slot. *)
Definition booted (w0 : W) (ncpu : nat) (S : sys) : Prop :=
  exists s', userinit forkret trapret (mkpst (repeat proc0 NPROC) 1 None false 0 w0) = Ret tt s' /\
    S = mksys s' (repeat Top ncpu) ∅.

(** A run, with the switches on the way. *)
Inductive run : sys -> list (nat * nat) -> sys -> Prop :=
| run_nil S : run S [] S
| run_cons S e S1 es S' : step S e S1 -> run S1 es S' -> run S (option_list e ++ es) S'.

Definition reachable (w0 : W) (ncpu : nat) (S : sys) : Prop :=
  exists S0 es, booted w0 ncpu S0 /\ run S0 es S.

(** ** The pieces are the code *)

(** Where [fork] has returned and [exit] takes the lock. *)
Definition over (t : task) : bool := match t with Free | Exiting XLast => true | _ => false end.

(** A process runs the pieces of its task in a row. *)
Fixpoint run_task (fuel cur : nat) (t : task) : M (pst W) task :=
  match fuel with
  | O => ret t
  | S k => if over t then ret t else let! t' := continue cur t in run_task k cur t'
  end.

Lemma run_over k cur t s : over t = true -> run_task k cur t s = Ret t s.
Proof. intros H. destruct k; cbn; [done|]. by rewrite H. Qed.

Lemma run_step k cur t s : over t = false ->
  run_task (S k) cur t s = (let! t' := continue cur t in run_task k cur t') s.
Proof. intros H. cbn. by rewrite H. Qed.

Lemma fork_files_segments cur np k : forall n fd s, (fd + n = NOFILE)%nat ->
  run_task (n + S k) cur (Forking np (FFile fd)) s =
  (for_each (seq fd n) (dup_file cur np) ;; run_task k cur (Forking np FCwd)) s.
Proof.
  induction n as [|n IH]; intros fd s E; cbn [Nat.add run_task continue over seq for_each].
  - by rewrite (proj2 (Nat.ltb_ge fd NOFILE)) by lia.
  - rewrite (proj2 (Nat.ltb_lt fd NOFILE)) by lia. unfold bind, ret.
    destruct (dup_file cur np fd s); [|done..]. rewrite IH by lia. done.
Qed.

Lemma exit_files_segments cur k : forall n fd s, (fd + n = NOFILE)%nat ->
  run_task (n + S k) cur (Exiting (XFile fd)) s =
  (for_each (seq fd n) (close_file cur) ;; run_task k cur (Exiting XBegin)) s.
Proof.
  induction n as [|n IH]; intros fd s E; cbn [Nat.add run_task continue over seq for_each].
  - by rewrite (proj2 (Nat.ltb_ge fd NOFILE)) by lia.
  - rewrite (proj2 (Nat.ltb_lt fd NOFILE)) by lia. unfold bind, ret.
    destruct (close_file cur fd s); [|done..]. rewrite IH by lia. done.
Qed.

(** With nobody in between the pieces are [fork] and [exit]. *)
Lemma fork_segments cur s :
  (let! t := begin cur Fork in run_task 23 cur t) s = (fork forkret trapret cur ;; ret Free) s.
Proof.
  unfold fork, allocproc. cbn [begin]. unfold bind, ret.
  destruct (alloc_slot s) as [[np|] s1|?|]; [|by rewrite run_over|done..].
  rewrite run_step by done. cbn [continue]. unfold bind, ret. destruct (alloc_stack forkret trapret np s1) as [[] s2|?|]; [|done..].
  rewrite run_step by done. cbn [continue]. unfold bind, ret. destruct (fork_copy cur np s2) as [[] s3|?|]; [|done..].
  rewrite (fork_files_segments cur np 4 16 0 s3 eq_refl : run_task 21 _ _ _ = _). unfold fork_finish. change (indices NOFILE) with (seq 0 16). unfold bind, ret.
  destruct (for_each (seq 0 16) (dup_file cur np) s3) as [[] s4|?|]; [|done..].
  rewrite run_step by done. cbn [continue]. unfold bind, ret. destruct (fork_cwd cur np s4) as [[] s5|?|]; [|done..].
  rewrite run_step by done. cbn [continue]. unfold bind, ret. destruct (slot cur s5) as [p s6|?|]; [|done..].
  destruct (gettickets (pid p) s6) as [t s7|?|]; [|done..].
  rewrite run_step by done. cbn [continue]. unfold bind, ret. destruct (fork_tickets np t s7) as [[] s8|?|]; [|done..].
  rewrite run_step by done. cbn [continue]. unfold bind, ret. by destruct (fork_publish np s8) as [? s9|?|].
Qed.

Lemma exit_segments cur s :
  (let! t := begin cur Exit in run_task 20 cur t ;; exit_locked cur) s = exit cur s.
Proof.
  unfold exit. cbn [begin]. unfold bind, ret. destruct (exit_check cur s) as [[] s1|?|]; [|done..].
  rewrite (exit_files_segments cur 3 16 0 s1 eq_refl : run_task 20 _ _ _ = _). change (indices NOFILE) with (seq 0 16). unfold bind, ret.
  destruct (for_each (seq 0 16) (close_file cur) s1) as [[] s2|?|]; [|done..].
  rewrite run_step by done. cbn [continue]. unfold bind, ret. destruct (inw sv_begin_op s2) as [[] s3|?|]; [|done..].
  rewrite run_step by done. cbn [continue]. unfold bind, ret. destruct (exit_iput cur s3) as [[] s4|?|]; [|done..].
  rewrite run_step by done. cbn [continue]. unfold bind, ret. by destruct (exit_end cur s4) as [[] s5|?|].
Qed.

(** ** Every piece keeps the table *)

Record okst (s : pst W) (ip : nat) : Prop := {
  ok_init : initproc s = Some ip;
  ok_tbl : tbl_ok (procs s) (nextpid s) ip;
}.

(** A piece that returns and changes more than others may in the slots [X] only. *)
Record moved (X : list nat) (s s' : pst W) (ip : nat) : Prop := {
  mv_ok : okst s' ip;
  mv_run : same_running (procs s) (procs s');
  mv_lock : locked s' = locked s;
  mv_frame : others None X (procs s) (procs s');
}.

Lemma moved_upd X s ip i p p' b n w : okst s ip -> procs s !! i = Some p -> soft p p' -> quiet p p' ->
  (state p' = RUNNING <-> state p = RUNNING) -> i ∈ X \/ sedate None p p' -> b = locked s ->
  moved X s (mkpst (<[i := p']> (procs s)) (nextpid s) (initproc s) b n w) ip.
Proof.
  intros HO Hp Hs Hq Hr Hx ->. split; cbn.
  - split; cbn; [apply HO|]. eapply tbl_upd; eauto. apply HO.
  - eapply running_upd; eauto.
  - done.
  - eapply others_upd; eauto.
Qed.

Lemma moved_same X s ip b n w : okst s ip -> b = locked s ->
  moved X s (mkpst (procs s) (nextpid s) (initproc s) b n w) ip.
Proof. intros [H1 H2] ->. split; cbn; [by split|done|done|apply others_refl]. Qed.

Lemma moved_refl X s ip : okst s ip -> moved X s s ip.
Proof. intros HO. split; [done|done|done|apply others_refl]. Qed.

Lemma moved_world X s ip s' w : moved X s s' ip -> moved X s (set_world w s') ip.
Proof. intros [[? ?] ? ? ?]. split; [by split|done..]. Qed.

(** A change of the process's own slot that leaves its family, state and channel. *)
Lemma moved_on s ip cur (g : proc -> proc) u s' : okst s ip ->
  (forall p, soft p (g p) /\ quiet p (g p) /\ state (g p) = state p) ->
  on cur g s = Ret u s' -> moved [cur] s s' ip.
Proof.
  intros HO Hg H. apply on_inv in H as (p & Hp & ->). destruct (Hg p) as (? & ? & E).
  unfold set_procs. eapply moved_upd; eauto; [by rewrite E|left; set_solver].
Qed.

Lemma soft_set_sz v p : soft p (set_sz v p) /\ quiet p (set_sz v p) /\ state (set_sz v p) = state p.
Proof. unfold soft, quiet. cbn. tauto. Qed.

Lemma okst_world s ip w : okst s ip -> okst (set_world w s) ip.
Proof. by intros [? ?]. Qed.

Lemma okst_lock s ip b n : okst s ip -> okst (set_lock b n s) ip.
Proof. by intros [? ?]. Qed.

Lemma grow_ok s ip cur n r s' : okst s ip -> growproc cur n s = Ret r s' -> moved [cur] s s' ip.
Proof.
  intros HO H. unfold growproc in H. apply bind_inv in H as (p & s1 & Hp & H).
  apply slot_inv in Hp as [Hp ->].
  assert (Hfin : forall w v x y, (on cur (set_sz v) ;; let! q := slot cur in
    inw (sv_switchuvm q) ;; ret 0) (set_world w s) = Ret x y -> moved [cur] s y ip).
  { intros w v x y Hy. apply bind_inv in Hy as (u & s1 & Hon & Hy).
    pose proof (moved_on _ _ _ _ _ _ (okst_world _ _ w HO) (soft_set_sz v) Hon) as Hk.
    clear Hon. inv_run. destruct Hk as [[? ?] ? ? ?]. by split; [split|..]. }
  assert (Hw : set_world (world s) s = s) by (by destruct s).
  repeat case_test; [..|by rewrite <- Hw in H; eapply Hfin];
    (apply bind_inv in H as (v & s1 & Hv & H); apply inw_inv in Hv as (w & _ & ->);
     case_test; [apply ret_inv in H as [_ <-]; by apply moved_world, moved_refl
                |by eapply Hfin]).
Qed.

Lemma kill_ok X s ip n r s' : okst s ip -> kill n s = Ret r s' -> moved X s s' ip.
Proof.
  intros HO H. unfold kill in H. inv_run.
  destruct (scan _ (procs s) 0) as [i|] eqn:Hs.
  - apply scan_0 in Hs as (p & Hp & _ & _).
    apply bind_inv in H as (u & s1 & Hon & H). apply on_inv in Hon as (p' & Hp' & ->).
    cbn in Hp'. replace p' with p in * by congruence. inv_run. case_bool_decide as Hsl.
    + inv_run. cbn in Hsl. eapply moved_upd; eauto; [| |cbn; split; congruence|right].
      * unfold soft, alive. cbn. rewrite Hsl. tauto.
      * by unfold quiet.
      * apply sedate_kept; [|done]. split_and!; try done. by right.
    + inv_run. eapply moved_upd; eauto; [|done|right].
      * unfold soft. cbn. tauto.
      * apply sedate_kept; [|done]. split_and!; try done. by left.
  - inv_run. by apply moved_same.
Qed.

Lemma wakeup_ok X s ip c r s' : okst s ip -> wakeup c s = Ret r s' -> moved X s s' ip.
Proof.
  intros HO H. unfold wakeup in H. inv_run.
  match goal with Hw : wakeup1 _ _ = _ |- _ =>
    rewrite wakeup1_run in Hw; injection Hw as ? <- end.
  inv_run. split; cbn; [|apply running_wake|done|apply frame_wake].
  split; cbn; [apply HO|]. apply tbl_wake, HO.
Qed.

Lemma settickets_ok s ip cur a r s' : okst s ip ->
  sys_settickets (Some cur) a s = Ret r s' -> moved [cur] s s' ip.
Proof.
  intros HO H. unfold sys_settickets in H.
  destruct a as [n|]; [case_test|]; inv_run; try by apply moved_refl.
  eapply moved_upd; eauto; [|done|left; set_solver].
  unfold soft. cbn. split_and!; auto.
Qed.

Lemma pinfo_ok X s ip r s' : okst s ip -> fillpstat s = Ret r s' -> moved X s s' ip.
Proof. intros HO H. unfold fillpstat in H. inv_run. by apply moved_same. Qed.

(** ** wait *)

(** A switch to the scheduler: the lock is held and [cur] does not run any more. *)
Record gone (out : option nat) (cur : nat) (s s' : pst W) (ip : nat) : Prop := {
  gn_ok : okst s' ip;
  gn_run i : running (procs s') i <-> running (procs s) i /\ i <> cur;
  gn_lock : locked s' = true;
  gn_frame : others out [cur] (procs s) (procs s');
  gn_cur : exists p', procs s' !! cur = Some p' /\ (out = None -> alive p' = true) /\ state p' <> EMBRYO;
}.

Lemma sched_no_ret {A} cur s (r : A) s' : sched cur s <> Ret r s'.
Proof. intros H. destruct (sched_inv _ _ _ H) as [[e ?]|[? _]]; congruence. Qed.

Lemma sched_wait {A} cur s x s' : sched (A := A) cur s = Wait x s' -> s' = s /\ locked s = true.
Proof. intros H. destruct (sched_inv _ _ _ H) as [[e ?]|(? & ? & _)]; [congruence|]. split; [congruence|done]. Qed.

Definition asleep (c : wchan) (p : proc) : proc := set_state SLEEPING (set_chan (Some c) p).

(** The part of [sleep] under [ptable.lock]. *)
Definition doze {A} (cur : nat) (c : wchan) : M (pst W) A :=
  on cur (set_chan (Some c)) ;; on cur (set_state SLEEPING) ;; sched cur.

Lemma doze_wait {A} cur c s p x s' : doze (A := A) cur c s = Wait x s' ->
  procs s !! cur = Some p -> s' = set_procs (<[cur := asleep c p]> (procs s)) s /\ locked s = true.
Proof.
  intros H Hp. unfold doze in H.
  apply bind_wait in H as (u & s1 & H1 & H); [|auto with nowait].
  rewrite (on_run _ _ _ _ Hp) in H1. injection H1 as _ <-.
  apply bind_wait in H as (u2 & s1 & H1 & H); [|auto with nowait].
  rewrite (on_run _ _ _ (set_chan (Some c) p)) in H1 by (by eapply lookup_upd).
  injection H1 as _ <-. apply sched_wait in H as [-> HL]. split; [|done]. unfold set_procs. cbn.
  by rewrite list_insert_insert_eq.
Qed.

Lemma soft_asleep c p : state p = RUNNING -> soft p (asleep c p).
Proof. intros H. unfold soft, alive, asleep. cbn. rewrite H. tauto. Qed.

Lemma winv_sleep l cur p : winv l -> l !! cur = Some p -> state p = RUNNING ->
  (exists k q, l !! k = Some q /\ parent q = Some cur) ->
  (forall k q, l !! k = Some q -> parent q = Some cur -> state q <> ZOMBIE) ->
  winv (<[cur := asleep (ChProc cur) p]> l).
Proof.
  intros HW Hp Hr Hkid Hno i j q Hq Hs Hc.
  assert (HF : Forall2 soft l (<[cur := asleep (ChProc cur) p]> l)).
  { eapply Forall2_upd; eauto with kern. by apply soft_asleep. }
  assert (Hfam : i = j /\ (exists k q, l !! k = Some q /\ parent q = Some i) /\
    forall k q, l !! k = Some q -> parent q = Some i -> state q <> ZOMBIE).
  { apply list_lookup_insert_Some in Hq as [(<- & <- & _)|[_ Hq]]; [|eauto].
    cbn in Hc. injection Hc as <-. auto. }
  destruct Hfam as (-> & (k & r & Hk & Er) & Hz). split_and!; [done|..].
  - destruct (Forall2_forth _ _ _ _ _ HF Hk) as (r' & Hr' & _ & E & _).
    exists k, r'. by rewrite E.
  - intros k' x' Hx Ex. destruct (Forall2_back _ _ _ _ _ HF Hx) as (x & Hx' & Rx).
    rewrite (soft_zombie _ _ Rx). destruct Rx as (_ & E & _). rewrite E in Ex. eauto.
Qed.

Lemma wait_loop_ret s ip cur r s' : okst s ip -> running (procs s) cur ->
  wait_loop cur s = Ret r s' ->
  okst s' ip /\ same_running (procs s) (procs s') /\ locked s' = false /\ forall X, others None X (procs s) (procs s').
Proof.
  intros [H1 [HI HW]] (p & Hp & Hrun) H. unfold wait_loop in H.
  apply bind_inv in H as (v & s1 & Hs & H). apply wait_scan_inv in Hs. destruct v as [v|hk].
  - destruct Hs as (i & q & w & Hq & Hpar & Hz & _ & _ & ->). apply ret_inv in H as [_ <-]. split_and!; cbn.
    + split; cbn; [done|]. split; [exact (pinv_reaped _ _ _ _ _ HI Hq Hz)|].
      exact (winv_reaped _ _ _ _ _ HW Hq Hz Hpar Hp Hrun).
    + apply (running_upd _ _ _ _ Hq). by rewrite Hz.
    + done.
    + intros X. eapply others_upd; [done|]. right. apply sedate_dead; [congruence| |done]. unfold alive. by rewrite Hz.
  - destruct Hs as (-> & _ & _). apply bind_inv in H as (q & s1 & Hq & H).
    apply slot_inv in Hq as [Hq ->]. destruct (negb hk || _).
    + inv_run. split_and!; cbn; [by split|done|done|]. intros X. apply others_refl.
    + cbn in H. inv_run. by apply sched_no_ret in H.
Qed.

Lemma gone_upd s ip cur p p' b n w : okst s ip -> procs s !! cur = Some p -> soft p p' -> alive p = true ->
  winv (<[cur := p']> (procs s)) -> state p' <> RUNNING -> b = true ->
  gone None cur s (mkpst (<[cur := p']> (procs s)) (nextpid s) (initproc s) b n w) ip.
Proof.
  intros [H1 [HI HW]] Hp Hs Ha Hw Hr ->. pose proof (soft_alive _ _ Hs) as Ha'. rewrite Ha in Ha'. split; cbn.
  - split; cbn; [done|]. split; [|done]. eapply pinv_soft; [|done]. eapply Forall2_upd; eauto with kern.
  - by apply running_stop with (p := p).
  - done.
  - eapply others_upd; [done|]. left. set_solver.
  - exists p'. rewrite (lookup_upd _ _ _ _ Hp). split_and!; [done|done|]. apply alive_state in Ha'. tauto.
Qed.

Lemma wait_loop_wait s ip cur x s' : okst s ip -> running (procs s) cur ->
  wait_loop cur s = Wait x s' -> gone None cur s s' ip.
Proof.
  intros HO (p & Hp & Hrun) H. pose proof HO as [H1 [HI HW]]. unfold wait_loop in H.
  apply bind_wait in H as (v & s1 & Hs & H); [|auto with nowait].
  apply wait_scan_inv in Hs. destruct v as [v|hk]; [done|]. destruct Hs as (-> & Hno & Hk).
  apply bind_wait in H as (q & s1 & Hq & H); [|auto with nowait].
  apply slot_inv in Hq as [Hq ->]. rewrite Hp in Hq. injection Hq as <-.
  destruct hk; cbn in H.
  2:{ by apply bind_wait in H as (? & ? & _ & H); [|auto with nowait]. }
  destruct (negb (killed p =? 0)).
  { by apply bind_wait in H as (? & ? & _ & H); [|auto with nowait]. }
  change ((ret tt ;; (doze cur (ChProc cur) : M (pst W) Z)) s = Wait x s') in H.
  apply bind_wait in H as (? & ? & [_ <-]%ret_inv & H); [|done].
  apply (doze_wait _ _ _ p) in H as [-> HL]; [|done].
  assert (Hall : forall k y, procs s !! k = Some y -> k ∈ indices NPROC).
  { intros k y Hy. apply elem_of_indices. rewrite <- (pi_len _ _ _ HI). by eapply lookup_lt_Some. }
  apply (gone_upd s ip cur p (asleep (ChProc cur) p)); [done|done|by apply soft_asleep|unfold alive; by rewrite Hrun| |done|done].
  apply winv_sleep; eauto. destruct (proj1 Hk eq_refl) as [?|(k & y & _ & ? & ?)]; [done|eauto].
Qed.

(** ** Giving the CPU up *)

Lemma yield_wait s ip cur x s' : okst s ip -> running (procs s) cur ->
  yield cur s = Wait x s' -> gone None cur s s' ip.
Proof.
  intros HO (p & Hp & Hr) H. unfold yield in H.
  apply bind_wait in H as (u & s1 & H1 & H); [|auto with nowait].
  apply acquire_inv in H1 as [_ ->].
  apply bind_wait in H as (u2 & s1 & H1 & H); [|auto with nowait].
  rewrite (on_run _ _ _ p) in H1 by done. injection H1 as _ <-.
  apply sched_wait in H as [-> _].
  assert (soft p (set_state RUNNABLE p)) as Hs by (unfold soft, alive; cbn; rewrite Hr; tauto).
  apply (gone_upd s ip cur p (set_state RUNNABLE p)); [done|done|done|unfold alive; by rewrite Hr| |done|done].
  eapply (tbl_upd _ _ ip); [apply HO|done|done|by unfold quiet].
Qed.

Lemma sleep_wait s ip cur a x s' : okst s ip -> running (procs s) cur ->
  park cur (Sleeps a) s = Wait x s' -> gone None cur s s' ip.
Proof.
  intros HO (p & Hp & Hr) H. unfold park in H.
  apply bind_wait in H as (u & s1 & H1 & H); [|done]. injection H1 as _ <-.
  unfold sleep in H. apply bind_wait in H as (u2 & s1 & H1 & H); [|nowait].
  apply bind_inv in H1 as (u3 & s2 & H1 & H2). apply acquire_inv in H1 as [_ ->].
  injection H2 as _ <-. apply (doze_wait _ _ _ p) in H as [-> _]; [|done].
  apply (gone_upd s ip cur p (asleep (ChAddr a) p)); [done|done|by apply soft_asleep|unfold alive; by rewrite Hr| |done|done].
  eapply (tbl_upd _ _ ip); [apply HO|done|by apply soft_asleep|by unfold quiet].
Qed.

(** ** exit *)

Lemma adopted_frame cur ip js l l' : adopted cur ip js l l' -> others (Some cur) [cur] l l'.
Proof.
  intros [HL HA]. split; [done|]. intros j p Hp _. destruct (HA _ _ Hp) as (p' & Hp' & Hk & E).
  exists p'. split; [done|]. apply sedate_kept; [done|]. intros Hc. rewrite E.
  rewrite bool_decide_false; [done|]. intros [_ ?]. by eapply Hc.
Qed.

Lemma exit_locked_wait s ip cur x s' : okst s ip -> running (procs s) cur -> ip <> cur ->
  exit_locked cur s = Wait x s' -> gone (Some cur) cur s s' ip.
Proof.
  intros [Hi HT] (p & Hp & Hr) Hne H. unfold exit_locked in H.
  apply bind_wait in H as (u0 & s1 & H1 & H); [|auto with nowait]. apply acquire_inv in H1 as [_ ->].
  apply bind_wait in H as (r & s1 & H1 & H); [|auto with nowait].
  apply slot_inv in H1 as [H1 ->]. fields. rewrite Hp in H1. injection H1 as <-.
  apply bind_wait in H as (u & s1 & H1 & H); [|done]. rewrite wakeup1_run in H1.
  injection H1 as _ <-. pose proof (tbl_wake _ _ _ (ch (parent p)) HT) as [HI HW]. fields.
  apply bind_wait in H as (u1 & s1 & H1 & H); [|apply nw_for_each; intros; apply nw_reparent].
  destruct (reparents_inv _ ip _ _ _ _ H1 Hi Hne) as (l2 & -> & HA & HZ). fields.
  apply bind_wait in H as (u2 & s1 & H2 & H); [|nowait].
  apply on_inv in H2 as (p2 & Hp2 & ->). fields.
  assert (Hs : s' = mkpst (<[cur := set_state ZOMBIE p2]> l2) (nextpid s) (initproc s) true (ncli s + 1) (world s)).
  { revert H. unfold bind. destruct (sched cur _) as [a t|e|y t] eqn:E; [done..|].
    apply sched_wait in E as [-> _]. by intros [= _ <-]. }
  subst s'. set (l1 := wake (ch (parent p)) <$> procs s) in *.
  set (p1 := wake (ch (parent p)) p).
  assert (Hp1 : l1 !! cur = Some p1) by (unfold l1; by rewrite list_lookup_fmap, Hp).
  assert (E1 : p1 = p) by (unfold p1, wake; rewrite bool_decide_false by congruence; done).
  assert (Hpar : forall j, parent p1 = Some j -> none_on j l1).
  { rewrite E1. intros j Ej. unfold l1. rewrite Ej. apply wake_none. }
  assert (Hr1 : state p1 = RUNNING) by (by rewrite E1).
  split; cbn.
  - split; cbn; [done|]. split; [eapply pinv_exit; eauto|]. eapply winv_exit; eauto.
    intros i q Hq Eq Zq. apply (HZ i q); auto.
    apply elem_of_indices. rewrite <- (pi_len _ _ _ HI). by eapply lookup_lt_Some.
  - intros j. rewrite (running_stop _ _ _ _ Hp2) by done. apply and_iff_compat_r.
    transitivity (running l1 j); [|apply running_wake].
    apply (running_kept l1 l2 (proj1 HA)). intros i q Hq. destruct (proj2 HA _ _ Hq) as (q' & ? & ? & _). eauto.
  - done.
  - eapply others_trans; [apply frame_wake|]. eapply others_trans; [by eapply adopted_frame|].
    eapply others_upd; [done|]. left. set_solver.
  - eexists. rewrite (lookup_upd _ _ _ _ Hp2). done.
Qed.

Lemma soft_set_ofile v p : soft p (set_ofile v p) /\ quiet p (set_ofile v p) /\ state (set_ofile v p) = state p.
Proof. unfold soft, quiet. cbn. tauto. Qed.

Lemma soft_set_cwd v p : soft p (set_cwd v p) /\ quiet p (set_cwd v p) /\ state (set_cwd v p) = state p.
Proof. unfold soft, quiet. cbn. tauto. Qed.

Lemma moved_inw X s ip {A} (m : M W A) a s' : okst s ip -> inw m s = Ret a s' -> moved X s s' ip.
Proof. intros HO (w & _ & ->)%inw_inv. by apply moved_world, moved_refl. Qed.

Lemma moved_trans X s s1 s2 ip : moved X s s1 ip -> moved X s1 s2 ip -> moved X s s2 ip.
Proof.
  intros [_ R1 L1 F1] [O2 R2 L2 F2]. split; [done|by eapply same_running_trans|congruence|by eapply others_trans].
Qed.

Lemma close_file_ok s ip cur fd u s' : okst s ip -> close_file cur fd s = Ret u s' -> moved [cur] s s' ip.
Proof.
  intros HO H. unfold close_file in H. apply bind_inv in H as (p & s1 & Hp & H). apply slot_inv in Hp as [Hp ->].
  destruct (ofile p !! fd) as [[g|]|]; [|apply ret_inv in H as [_ <-]; by apply moved_refl..].
  apply bind_inv in H as (v & s1 & Hw & H). pose proof (moved_inw [cur] _ _ _ _ _ HO Hw) as M1.
  eapply moved_trans; [exact M1|]. eapply moved_on; [apply M1| |exact H]. intros q. apply soft_set_ofile.
Qed.

Lemma exit_iput_ok s ip cur u s' : okst s ip -> exit_iput cur s = Ret u s' -> moved [cur] s s' ip.
Proof.
  intros HO H. unfold exit_iput in H. apply bind_inv in H as (p & s1 & Hp & H). apply slot_inv in Hp as [Hp ->].
  apply bind_inv in H as (d & s1 & Hd & H). destruct (cwd p); [|done]. injection Hd as <- <-. by eapply moved_inw.
Qed.

Lemma exit_end_ok s ip cur u s' : okst s ip -> exit_end cur s = Ret u s' -> moved [cur] s s' ip.
Proof.
  intros HO H. unfold exit_end in H. apply bind_inv in H as (v & s1 & Hw & H).
  pose proof (moved_inw [cur] _ _ _ _ _ HO Hw) as M1.
  eapply moved_trans; [exact M1|]. eapply moved_on; [apply M1| |exact H]. intros q. apply soft_set_cwd.
Qed.

(** ** fork *)

Lemma grown_moved s ip cur np q q' b n w : okst s ip -> running (procs s) cur -> procs s !! np = Some q ->
  state q = EMBRYO -> grown cur q q' -> state q' <> RUNNING -> b = locked s ->
  moved [np] s (mkpst (<[np := q']> (procs s)) (nextpid s) (initproc s) b n w) ip.
Proof.
  intros [Hi [HI HW]] (p & Hp & Hr) Hq He Hg Hnr ->. split; cbn.
  - split; cbn; [done|]. assert (alive p = true) by (unfold alive; by rewrite Hr).
    split; [by apply (pinv_grown _ _ _ _ q q' cur p)|by apply (winv_grown _ np q q' cur p)].
  - apply (running_upd _ _ _ _ Hq). split; congruence.
  - done.
  - eapply others_upd; [done|]. left. set_solver.
Qed.

Lemma claimed_moved s ip cur np q n w : okst s ip -> running (procs s) cur -> procs s !! np = Some q -> state q = UNUSED ->
  locked s = false ->
  moved [np] s (mkpst (<[np := claimed (nextpid s) q]> (procs s)) (nextpid s + 1) (initproc s) false n w) ip.
Proof.
  intros [Hi [HI HW]] _ Hq Hu Hl. split; cbn.
  - split; cbn; [done|]. split; [apply pinv_claimed; auto; by eapply pinv_pos|by eapply winv_claimed].
  - apply (running_upd _ _ _ _ Hq). cbn. split; congruence.
  - done.
  - eapply others_upd; [done|]. left. set_solver.
Qed.

(** The child's parent as the stages of [fork] set it. *)
Definition early (st : fstage) : bool := match st with FStack | FCopy => true | _ => false end.
Definition begun (cur : nat) (st : fstage) (q : proc) : Prop :=
  state q = EMBRYO /\ parent q = (if early st then None else Some cur) /\ (st = FPublish -> 10 <= tickets q).

(** A piece of [fork] by [cur] for the slot [np]: the next stage, or the end. *)
Lemma fork_continue s ip cur np st q t s' : okst s ip -> running (procs s) cur -> procs s !! np = Some q ->
  begun cur st q -> continue cur (Forking np st) s = Ret t s' ->
  moved [np] s s' ip /\ exists q', procs s' !! np = Some q' /\
    ((exists st', t = Forking np st' /\ begun cur st' q') \/ (t = Free /\ state q' <> EMBRYO)).
Proof.
  intros HO HR Hq (He & Hpar & Ht) H. assert (Hne : cur <> np).
  { intros ->. destruct HR as (p & Hp & E). congruence. }
  assert (Hup : forall x, <[np := x]> (procs s) !! np = Some x) by (intros; by eapply lookup_upd).
  destruct st as [| |fd| | |t0|]; cbn [continue early] in *; cbv iota in Hpar.
  - apply bind_inv in H as (b & s1 & H & [<- <-]%ret_inv).
    destruct (alloc_stack_inv _ _ _ _ _ _ _ H Hq) as (k & w & -> & ->). clear H. unfold stacked in *. split.
    + eapply grown_moved; eauto; destruct (k =? 0); cbn; try congruence; split_and!; cbn; auto.
    + eexists. split; [apply Hup|]. destruct (k =? 0); cbn; [right|left; exists FCopy]; done.
  - apply bind_inv in H as (b & s1 & H & [<- <-]%ret_inv).
    destruct (fork_copy_inv _ _ _ _ _ _ H Hne Hq) as (q' & w & -> & E1 & E2 & E3). clear H. split.
    + eapply grown_moved; eauto; destruct b, E3 as [E3 E4]; try congruence; split_and!; auto;
        [right; split; congruence|left; congruence|left; congruence].
    + exists q'. split; [apply Hup|]. destruct b, E3 as [E3 E4]; [left; exists (FFile 0); split; [done|]; split_and!; cbn; congruence|right; split; [done|congruence]].
  - destruct (fd <? NOFILE)%nat.
    + apply bind_inv in H as (u & s1 & H & [<- <-]%ret_inv).
      destruct (dup_file_inv _ _ _ _ _ _ _ H Hq) as (q' & w & -> & E1 & E2 & E3 & E4). clear H. split.
      * eapply grown_moved; eauto; [|congruence]. split_and!; auto; [right; split; congruence|left; congruence].
      * exists q'. split; [apply Hup|]. left. exists (FFile (S fd)). split; [done|]. split_and!; cbn; congruence.
    + apply ret_inv in H as [<- <-]. split; [by apply moved_refl|]. exists q. split; [done|]. left. by exists FCwd.
  - apply bind_inv in H as (u & s1 & H & [<- <-]%ret_inv).
    destruct (fork_cwd_inv _ _ _ _ _ _ H Hq) as (q' & w & -> & E1 & E2 & E3 & E4). clear H. split.
    + eapply grown_moved; eauto; [|congruence]. split_and!; auto; [right; split; congruence|left; congruence].
    + exists q'. split; [apply Hup|]. left. exists FTickets. split; [done|]. split_and!; cbn; congruence.
  - apply bind_inv in H as (p & s1 & [Hp ->]%slot_inv & H). apply bind_inv in H as (t1 & s1 & H & [<- <-]%ret_inv).
    apply gettickets_inv in H as (-> & _). split; [by apply moved_refl|]. exists q. split; [done|]. left. by exists (FSet t1).
  - apply bind_inv in H as (u & s1 & H & [<- <-]%ret_inv). apply (fork_tickets_inv _ _ _ _ _ q) in H as ->; [|done].
    unfold set_procs. split.
    + eapply grown_moved; eauto; [|cbn; congruence]. split_and!; cbn; auto. right. split; congruence.
    + eexists. split; [apply Hup|]. left. exists FPublish. split; [done|]. split_and!; cbn; auto. intros _. lia.
  - apply bind_inv in H as (u & s1 & H & [<- <-]%ret_inv). destruct (fork_publish_inv _ _ _ _ _ H Hq) as (Hl & _ & ->). split.
    + apply (grown_moved s ip cur np q); [done|done|done|done| |done|done]. split_and!; cbn; [done|by right|by right|].
      right; right. split_and!; [done|by apply Ht|congruence].
    + eexists. split; [apply Hup|]. by right.
Qed.

Lemma bind_inv_wait {A B} (m : M (pst W) A) (g : A -> M (pst W) B) s x s' : bind m g s = Wait x s' ->
  m s = Wait x s' \/ exists a s1, m s = Ret a s1 /\ g a s1 = Wait x s'.
Proof. unfold bind. destruct (m s); naive_solver. Qed.

(** ** The pieces by kind *)

Definition forking (t : task) : bool := match t with Forking _ _ => true | _ => false end.
Definition exiting (t : task) : bool := match t with Exiting _ | Dozing (Exiting _) => true | _ => false end.

(** [fork] does not sleep. *)
Definition doze_ok (t : task) : Prop := match t with Dozing (Free | Exiting _) => True | Dozing _ => False | _ => True end.

(** What a process goes on with after a switch. *)
Definition awake (t : task) : task := match t with Waiting => Free | Dozing t => t | _ => t end.

Lemma okst_acquire s ip u s1 : okst s ip -> acquire_pt s = Ret u s1 ->
  okst s1 ip /\ procs s1 = procs s /\ locked s = false.
Proof. intros HO H. apply acquire_inv in H as [? ->]. split_and!; [by apply okst_lock|done|done]. Qed.

Lemma begin_ok s ip cur o t s' : okst s ip -> running (procs s) cur -> o <> Fork ->
  begin cur o s = Ret t s' ->
  moved [cur] s s' ip /\ forking t = false /\ doze_ok t /\ (exiting t = true -> cur <> ip).
Proof.
  intros HO HR Hf H. destruct o; [done|..]; cbn [begin] in H;
    apply bind_inv in H as (u & s1 & H & [<- <-]%ret_inv); (split; [|try done]).
  - unfold wait in H. apply bind_inv in H as (v & s2 & Ha & H).
    destruct (okst_acquire _ _ _ _ HO Ha) as (HI & E & Hl). rewrite <- E in HR.
    destruct (wait_loop_ret s2 ip cur u s1 HI HR H) as (H1 & H2 & H3 & H4). rewrite E in H2, H4.
    split; [done|done|congruence|done].
  - by eapply kill_ok.
  - by eapply settickets_ok.
  - unfold exit_check in H. inv_run. case_bool_decide; inv_run. by apply moved_refl.
  - unfold exit_check in H. inv_run. case_bool_decide as Hi; inv_run. rewrite (ok_init _ _ HO) in Hi.
    split_and!; [done|done|]. intros _ ->. done.
  - by eapply grow_ok.
  - by eapply pinfo_ok.
Qed.

Lemma exit_continue s ip cur st t s' : okst s ip -> continue cur (Exiting st) s = Ret t s' ->
  moved [cur] s s' ip /\ exists st', t = Exiting st'.
Proof.
  intros HO H. destruct st as [fd| | | |]; cbn [continue] in H; [destruct (fd <? NOFILE)%nat| | | |done].
  2: { apply ret_inv in H as [<- <-]. split; [by apply moved_refl|eauto]. }
  all: apply bind_inv in H as (u & s1 & H & [<- <-]%ret_inv); split; [|eauto].
  - by eapply close_file_ok.
  - by eapply moved_inw.
  - by eapply exit_iput_ok.
  - by eapply exit_end_ok.
Qed.

Lemma park_ok s ip cur t w t' x s' : okst s ip -> running (procs s) cur -> parked t w = Some t' ->
  (exiting t = true -> cur <> ip) -> park cur w s = Wait x s' ->
  exists out, gone out cur s s' ip /\ forall c, out = Some c -> c = cur /\ forking t = false /\ t' = Free.
Proof.
  intros HO HR Ht Hx H. destruct w; cbn [park parked] in *.
  - exists None. split; [by eapply yield_wait|done].
  - exists None. split; [by eapply (sleep_wait _ _ _ a)|done].
  - exists None. split; [|done]. apply bind_inv_wait in H as [H|(r & s1 & _ & H)]; [|done].
    unfold wait in H. apply bind_wait in H as (u & s1 & Ha & H); [|auto with nowait].
    destruct (okst_acquire _ _ _ _ HO Ha) as (HI & E & Hl). rewrite <- E in HR.
    destruct (wait_loop_wait s1 ip cur x s' HI HR H) as [G1 G2 G3 G4 G5]. rewrite E in G2, G4. by split.
  - destruct t as [| | | |[]]; try done. injection Ht as <-. exists (Some cur). split; [|by intros c [= <-]].
    eapply exit_locked_wait; eauto. intros ->. by apply Hx.
Qed.

Lemma resume_ok s ip cur t t' s' : okst s ip -> running (procs s) cur -> resume cur t s = Ret t' s' ->
  okst s' ip /\ same_running (procs s) (procs s') /\ locked s' = false /\
  others None [cur] (procs s) (procs s') /\ t' = awake t.
Proof.
  intros HO HR H.
  assert (Hy : (yield_resume ;; ret t) s = Ret t' s' -> okst s' ip /\ same_running (procs s) (procs s') /\
    locked s' = false /\ others None [cur] (procs s) (procs s') /\ t' = t).
  { intros Hy. unfold yield_resume in Hy. inv_run. split_and!; [by apply okst_lock|done|done|apply others_refl|done]. }
  destruct t; cbn [resume awake] in *; auto.
  - apply bind_inv in H as (u & s1 & H & [<- <-]%ret_inv). unfold wait_resume, sleep_resume in H.
    apply bind_inv in H as (v & s2 & Hr & H). apply bind_inv in Hr as (v2 & s3 & Hr & [_ <-]%ret_inv).
    assert (M : moved [cur] s s3 ip) by (eapply moved_on; [done| |exact Hr]; intros q; unfold soft, quiet; cbn; split_and!; auto; naive_solver).
    destruct M as [M1 M2 M3 M4]. destruct (wait_loop_ret s3 ip cur u s1 M1 (proj2 (M2 cur) HR) H) as (H1 & H2 & H3 & H4).
    split_and!; [done|by eapply same_running_trans|done|by eapply others_trans|done].
  - apply bind_inv in H as (u & s1 & Hr & H). unfold sleep_resume in Hr. apply bind_inv in Hr as (v & s2 & Hr & Hl).
    assert (M : moved [cur] s s2 ip) by (eapply moved_on; [done| |exact Hr]; intros q; unfold soft, quiet; cbn; split_and!; auto; naive_solver).
    destruct M as [M1 M2 M3 M4]. inv_run. split_and!; try done. by apply (okst_lock _ _ _ _ M1).
Qed.

Lemma resume_wait s ip cur t x s' : okst s ip -> running (procs s) cur -> resume cur t s = Wait x s' ->
  t = Waiting /\ gone None cur s s' ip.
Proof.
  intros HO HR H. destruct t; cbn [resume] in H.
  2: { split; [done|]. apply bind_inv_wait in H as [H|(r & s1 & _ & H)]; [|done].
       unfold wait_resume, sleep_resume in H. apply bind_wait in H as (v & s2 & Hr & H); [|nowait].
       apply bind_inv in Hr as (v2 & s3 & Hr & [_ <-]%ret_inv).
       assert (M : moved [cur] s s3 ip) by (eapply moved_on; [done| |exact Hr]; intros q; unfold soft, quiet; cbn; split_and!; auto; naive_solver).
       destruct M as [M1 M2 M3 M4]. destruct (wait_loop_wait s3 ip cur x s' M1 (proj2 (M2 cur) HR) H) as [G1 G2 G3 G4 G5].
       split; [done| |done|by eapply others_trans|done]. intros i. by rewrite G2, (M2 i). }
  all: exfalso; revert H; apply nw_bind; unfold yield_resume, sleep_resume; intros; nowait.
Qed.

(** ** scheduler *)

Lemma scheduler_inv k s k' s' : scheduler k s = Ret k' s' ->
  match k with
  | Top => k' = Scan 0 /\ locked s = false /\ s' = set_lock true (ncli s + 1) s
  | Scan pos =>
      k' = Scan (S pos) /\ s' = s /\ (exists p, procs s !! pos = Some p /\ state p <> RUNNABLE) \/
      k' = Top /\ s' = set_lock false (ncli s - 1) s /\ locked s = true /\ (NPROC <= pos)%nat \/
      k' = Runs pos /\ exists p w, procs s !! pos = Some p /\ state p = RUNNABLE /\
        s' = mkpst (<[pos := set_state RUNNING p]> (procs s)) (nextpid s) (initproc s) (locked s) (ncli s) w
  | Runs i => k' = Scan (S i) /\ exists w, s' = set_world w s
  end.
Proof.
  intros H. destruct k as [|pos|i]; cbn [scheduler] in H.
  - inv_run. done.
  - destruct (Nat.ltb_spec pos NPROC) as [Hlt|Hge].
    + apply bind_inv in H as (b & s1 & Hb & [<- <-]%ret_inv). unfold sched_to in Hb.
      apply bind_inv in Hb as (p & s2 & Hp & Hb). apply slot_inv in Hp as [Hp ->].
      case_bool_decide as Hr; cbn [negb] in Hb.
      * right; right. apply bind_inv in Hb as (u1 & s2 & Hw & Hb). apply inw_inv in Hw as (w & _ & ->).
        apply bind_inv in Hb as (u2 & s2 & Hon & [<- <-]%ret_inv). rewrite (on_run _ _ _ p) in Hon by done.
        injection Hon as _ <-. split; [done|]. exists p, w. done.
      * left. apply ret_inv in Hb as [<- <-]. eauto.
    + right; left. inv_run. done.
  - inv_run. eauto.
Qed.

(** ** Every reachable state *)

(** A process runs on the one CPU that says so. *)
Record cinv (l : list proc) (cs : list cpu) : Prop := {
  ci_runs c i : cs !! c = Some (Runs i) -> running l i;
  ci_uniq c c' i : cs !! c = Some (Runs i) -> cs !! c' = Some (Runs i) -> c = c';
  ci_has i : running l i -> exists c, cs !! c = Some (Runs i);
}.

(** The lock is held between steps exactly when a CPU, and then one only, is in
    the loop over the table. *)
Definition locks (b : bool) (cs : list cpu) : Prop :=
  (forall c c' k k', cs !! c = Some k -> cs !! c' = Some k' -> scans k = true -> scans k' = true -> c = c') /\
  (b = true <-> exists c k, cs !! c = Some k /\ scans k = true).

(** Embryos are what live processes are forking. *)
Record tinv (l : list proc) (ts : gmap nat task) (ip : nat) : Prop := {
  ti_fork i np st : task_of ts i = Forking np st ->
    (exists p, l !! i = Some p /\ alive p = true) /\ exists q, l !! np = Some q /\ begun i st q;
  ti_uniq i j np st st' : task_of ts i = Forking np st -> task_of ts j = Forking np st' -> i = j;
  ti_embryo np q : l !! np = Some q -> state q = EMBRYO -> exists i st, task_of ts i = Forking np st;
  ti_doze i : doze_ok (task_of ts i);
  ti_exit i : exiting (task_of ts i) = true -> i <> ip;
}.

Definition sysinv (S : sys) : Prop :=
  exists ip, okst (core S) ip /\ cinv (procs (core S)) (cpus S) /\
    locks (locked (core S)) (cpus S) /\ tinv (procs (core S)) (tasks S) ip.

Lemma task_upd ts i t j : task_of (<[i := t]> ts) j = if decide (i = j) then t else task_of ts j.
Proof. unfold task_of. case_decide; subst; [by rewrite lookup_insert_eq|by rewrite lookup_insert_ne]. Qed.

Lemma cinv_same l l' cs : same_running l l' -> cinv l cs -> cinv l' cs.
Proof. intros HR [C1 C2 C3]. split; [intros; apply HR; eauto|done|intros i Hi; apply C3, HR, Hi]. Qed.

Lemma cinv_idle l l' cs c k k' : same_running l l' -> cinv l cs -> cs !! c = Some k -> runs k = false -> runs k' = false ->
  cinv l' (<[c := k']> cs).
Proof.
  intros HR [C1 C2 C3] Hc Hk Hk'. split.
  - intros d i Hd. upds; [done|]. apply HR. eauto.
  - intros d d' i Hd Hd'. upds; [done..|]. eauto.
  - intros i [d Hd]%HR%C3. exists d. rewrite list_lookup_insert_ne; [done|]. intros ->. rewrite Hc in Hd. by injection Hd as ->.
Qed.

Lemma cinv_stop l l' cs c i k : (forall j, running l' j <-> running l j /\ j <> i) -> cinv l cs ->
  cs !! c = Some (Runs i) -> runs k = false -> cinv l' (<[c := k]> cs).
Proof.
  intros HR [C1 C2 C3] Hc Hk. split.
  - intros d j Hd. upds; [done|]. apply HR. split; [eauto|]. intros ->. naive_solver.
  - intros d d' j Hd Hd'. upds; [done..|]. eauto.
  - intros j [Hj Hne]%HR. destruct (C3 _ Hj) as [d Hd]. exists d.
    rewrite list_lookup_insert_ne; [done|]. congruence.
Qed.

Lemma cinv_start l l' cs c i k : (forall j, running l' j <-> running l j \/ j = i) -> ~ running l i -> cinv l cs ->
  cs !! c = Some k -> runs k = false -> cinv l' (<[c := Runs i]> cs).
Proof.
  intros HR Hn [C1 C2 C3] Hc Hk. split.
  - intros d j Hd. apply HR. upds; [right; congruence|left; eauto].
  - intros d d' j Hd Hd'. upds; [done|..|by eauto]; simplify_eq; by destruct Hn; eauto.
  - intros j [Hj| ->]%HR.
    + destruct (C3 _ Hj) as [d Hd]. exists d. rewrite list_lookup_insert_ne; [done|]. intros ->. simplify_eq.
    + exists c. by eapply lookup_upd.
Qed.

Lemma locks_upd b cs c k k' b' : locks b cs -> cs !! c = Some k ->
  (scans k' = true -> scans k = true \/ b = false) ->
  b' = (if scans k' then true else if scans k then false else b) -> locks b' (<[c := k']> cs).
Proof.
  intros [L1 L2] Hc Hs ->.
  assert (forall d kd, cs !! d = Some kd -> scans kd = true -> d <> c -> scans k = false /\ b = true) as Ho.
  { intros d kd Hd Hkd Hne. split; [|apply L2; eauto]. destruct (scans k) eqn:E; [|done]. destruct Hne. eauto. }
  split.
  - assert (forall d kd, scans k' = true -> cs !! d = Some kd -> scans kd = true -> d <> c -> False) as Hx.
    { intros d kd H1 H2 H3 H4. destruct (Ho d kd H2 H3 H4). destruct (Hs H1); congruence. }
    intros d d' kd kd' Hd Hd' Hk1 Hk2. destruct (decide (c = d)) as [<-|N1], (decide (c = d')) as [<-|N2]; [done|..].
    + rewrite (lookup_upd _ _ _ _ Hc) in Hd. rewrite list_lookup_insert_ne in Hd' by done. injection Hd as <-. by destruct (Hx d' kd').
    + rewrite (lookup_upd _ _ _ _ Hc) in Hd'. rewrite list_lookup_insert_ne in Hd by done. injection Hd' as <-. by destruct (Hx d kd).
    + rewrite list_lookup_insert_ne in Hd, Hd' by done. eauto.
  - destruct (scans k') eqn:Ek'; [split; [|done]; intros _; exists c, k'; by rewrite (lookup_upd _ _ _ _ Hc)|].
    destruct (scans k) eqn:Ek.
    + split; [done|]. intros (d & kd & Hd & Hkd). upds; [congruence|]. by destruct (Ho d kd) as [? _].
    + rewrite L2. split; intros (d & kd & Hd & Hkd).
      * exists d, kd. rewrite list_lookup_insert_ne; [done|]. intros ->. congruence.
      * upds; [congruence|eauto].
Qed.

(** An embryo through a step that is not its maker's. *)
Lemma begun_frame out X l l' i st np q : others out X l l' -> l !! np = Some q -> np ∉ X -> begun i st q ->
  (forall c, out = Some c -> c <> i) -> exists q', l' !! np = Some q' /\ begun i st q'.
Proof.
  intros [_ HF] Hq Hx (He & Hp & Ht) Hc. destruct (HF _ _ Hq Hx) as (q' & Hq' & (S1 & _)).
  destruct (S1 He) as (He' & Et & Ep). exists q'. split; [done|]. split_and!; [done| |by rewrite Et].
  rewrite Ep; [done|]. intros c Hoc. rewrite Hp. destruct (early st); [done|]. intros [= <-]. by apply (Hc i).
Qed.

Lemma alive_frame out X l l' i : others out X l l' -> i ∉ X -> (exists p, l !! i = Some p /\ alive p = true) ->
  exists p, l' !! i = Some p /\ alive p = true.
Proof. intros [_ HF] Hx (p & Hp & Ha). destruct (HF _ _ Hp Hx) as (p' & Hp' & (_ & _ & S3 & _)). eauto. Qed.

(** A step of [cur] in its own slot, perhaps with another task. *)
Lemma tinv_own l l' ts ip cur p p' t' out : tinv l ts ip -> others out [cur] l l' ->
  l !! cur = Some p -> state p <> EMBRYO -> l' !! cur = Some p' -> state p' <> EMBRYO ->
  (forall c, out = Some c -> c = cur /\ forking (task_of ts cur) = false) ->
  (t' = task_of ts cur /\ alive p' = true \/ forking (task_of ts cur) = false /\ forking t' = false) ->
  doze_ok t' -> (exiting t' = true -> cur <> ip) -> tinv l' (<[cur := t']> ts) ip.
Proof.
  intros [T1 T2 T3 T4 T5] HF Hp He Hp' He' Ho Ht Hd Hx.
  assert (Hb : forall i np st, task_of (<[cur := t']> ts) i = Forking np st -> task_of ts i = Forking np st).
  { intros i np st. rewrite task_upd. case_decide as E; [subst i|done]. intros ->.
    destruct Ht as [[-> _]|[_ ?]]; [done|discriminate]. }
  split.
  - intros i np st Hi. destruct (T1 _ _ _ (Hb _ _ _ Hi)) as (Ha & q & Hq & Hbg).
    assert (np <> cur) by (intros ->; destruct Hbg as [? _]; congruence). split.
    + destruct (decide (i = cur)) as [->|Hne]; [|eapply alive_frame; eauto; set_solver].
      exists p'. split; [done|]. apply Hb in Hi. destruct Ht as [[_ ?]|[E _]]; [done|by rewrite Hi in E].
    + eapply begun_frame; [exact HF|done|set_solver|done|]. intros c Hc ->. destruct (Ho _ Hc) as [-> E].
      apply Hb in Hi. by rewrite Hi in E.
  - intros i j np st st' Hi%Hb Hj%Hb. eauto.
  - intros np q' Hq' Hqe. assert (np <> cur) by (intros ->; congruence).
    destruct (frame_embryo _ _ _ _ _ _ HF Hq' ltac:(set_solver) Hqe) as (q & Hq & Hqe' & _).
    destruct (T3 _ _ Hq Hqe') as (i & st & Hi). exists i, st. rewrite task_upd. case_decide as E; [subst i|done].
    destruct Ht as [[-> _]|[E' _]]; [done|by rewrite Hi in E'].
  - intros i. rewrite task_upd. by case_decide.
  - intros i. rewrite task_upd. case_decide; subst; auto.
Qed.

Lemma tinv_ext l ts ts' ip : (forall i, task_of ts' i = task_of ts i) -> tinv l ts ip -> tinv l ts' ip.
Proof.
  intros E [T1 T2 T3 T4 T5]. split.
  - intros i np st. rewrite E. apply T1.
  - intros i j np st st'. rewrite !E. apply T2.
  - intros np q Hq He. destruct (T3 _ _ Hq He) as (i & st & Hi). exists i, st. by rewrite E.
  - intros i. by rewrite E.
  - intros i. rewrite E. apply T5.
Qed.

(** A step of nobody. *)
Lemma tinv_all l l' ts ip : tinv l ts ip -> others None [] l l' -> tinv l' ts ip.
Proof.
  intros [T1 T2 T3 T4 T5] HF. split; [|done| |done|done].
  - intros i np st Hi. destruct (T1 _ _ _ Hi) as (Ha & q & Hq & Hbg).
    split; [eapply alive_frame; eauto; set_solver|eapply begun_frame; eauto; set_solver].
  - intros np q' Hq' Hqe. destruct (frame_embryo _ _ _ _ _ _ HF Hq' ltac:(set_solver) Hqe) as (q & Hq & Hqe' & _). eauto.
Qed.

(** A step of [cur] in the slot of the process it is making. *)
Lemma tinv_slot l l' ts ip cur np q' t' : tinv l ts ip -> others None [np] l l' ->
  (exists p, l !! cur = Some p /\ alive p = true) -> (forall q, l !! np = Some q -> alive q = false) ->
  (forall i st, task_of ts i = Forking np st -> i = cur) -> (forall m st, task_of ts cur = Forking m st -> m = np) ->
  l' !! np = Some q' ->
  ((exists st', t' = Forking np st' /\ begun cur st' q') \/ (t' = Free /\ state q' <> EMBRYO)) ->
  tinv l' (<[cur := t']> ts) ip.
Proof.
  intros [T1 T2 T3 T4 T5] HF Hcur Hnp Hmine Hone Hq' Ht.
  assert (Hal : forall i, (exists p, l !! i = Some p /\ alive p = true) -> exists p, l' !! i = Some p /\ alive p = true).
  { intros i Hi. eapply alive_frame; [exact HF| |done]. intros ->%list_elem_of_singleton.
    destruct Hi as (p & Hp & Ha). rewrite (Hnp _ Hp) in Ha. done. }
  assert (Hoth : forall i m st, i <> cur -> task_of ts i = Forking m st -> m <> np) by (intros i m st Hi E ->; eauto).
  split.
  - intros i m st. rewrite task_upd. case_decide as E; [subst i|intros Hi].
    + intros ->. destruct Ht as [(st' & [= -> ->] & Hb)|[? _]]; [|done]. split; [by apply Hal|eauto].
    + destruct (T1 _ _ _ Hi) as (Ha & q & Hq & Hbg). split; [by apply Hal|].
      eapply begun_frame; [exact HF|done| |done|done]. intros ->%list_elem_of_singleton. by eapply Hoth.
  - intros i j m st st'. rewrite !task_upd. destruct (decide (cur = i)) as [<-|N1], (decide (cur = j)) as [<-|N2]; [done|..|eauto].
    + intros -> Hj. destruct Ht as [(st1 & [= -> ->] & _)|[? _]]; [|done]. symmetry. eauto.
    + intros Hi ->. destruct Ht as [(st1 & [= -> ->] & _)|[? _]]; [|done]. eauto.
  - intros m q Hq Hqe. destruct (decide (m = np)) as [->|Hne].
    + rewrite Hq' in Hq. injection Hq as <-. destruct Ht as [(st' & -> & _)|[_ ?]]; [|done].
      exists cur, st'. rewrite task_upd. by case_decide.
    + destruct (frame_embryo _ _ _ _ _ _ HF Hq ltac:(set_solver) Hqe) as (q0 & Hq0 & Hqe' & _).
      destruct (T3 _ _ Hq0 Hqe') as (i & st & Hi). exists i, st. rewrite task_upd. case_decide as E; [subst i|done].
      by rewrite (Hone _ _ Hi) in Hne.
  - intros i. rewrite task_upd. case_decide; [|done]. destruct Ht as [(st' & -> & _)|[-> _]]; done.
  - intros i. rewrite task_upd. case_decide; [|auto]. destruct Ht as [(st' & -> & _)|[-> _]]; done.
Qed.

(** A process cannot leave the CPU while another CPU holds the lock. *)
Lemma park_locked cur w s x s' : park cur w s = Wait x s' -> locked s = true -> False.
Proof.
  intros H Hl. destruct w; cbn [park] in H; unfold yield, sleep, wait, exit_locked, acquire_pt, bind, modify, get in H;
    cbn in H; rewrite Hl in H; done.
Qed.

(** A process that is runnable stays so unless it is switched to. *)
Definition stays (e : option (nat * nat)) (l l' : list proc) : Prop :=
  forall i p, l !! i = Some p -> state p = RUNNABLE ->
    (exists c, e = Some (c, i)) \/ exists p', l' !! i = Some p' /\ state p' = RUNNABLE.

Lemma stays_frame e out X l l' : others out X l l' ->
  (forall i p, i ∈ X -> l !! i = Some p -> state p = RUNNABLE -> exists c, e = Some (c, i)) -> stays e l l'.
Proof.
  intros [_ HF] HX i p Hp Hr. destruct (decide (i ∈ X)) as [Hi|Hi]; [left; eauto|right].
  destruct (HF _ _ Hp Hi) as (p' & Hp' & (_ & S2 & _)). eauto.
Qed.

Section OneStep.
Variables (s : pst W) (cs : list cpu) (ts : gmap nat task) (ip : nat).
Hypothesis HO : okst s ip.
Hypothesis HC : cinv (procs s) cs.
Hypothesis HL : locks (locked s) cs.
Hypothesis HT : tinv (procs s) ts ip.

Lemma seen_ok k : okst (seen k s) ip.
Proof. by apply okst_lock. Qed.

(** The process [i] of CPU [c] goes on running. *)
Section Running.
Variables (c i : nat).
Hypothesis Hc : cs !! c = Some (Runs i).

Lemma cur_runs : running (procs s) i.
Proof. by eapply ci_runs. Qed.

Lemma own_step t s' : moved [i] (seen (Runs i) s) s' ip -> forking (task_of ts i) = false -> forking t = false ->
  doze_ok t -> (exiting t = true -> i <> ip) ->
  sysinv (mksys s' cs (<[i := t]> ts)) /\ stays None (procs s) (procs s').
Proof.
  intros [M1 M2 M3 M4] Hf Ht Hd Hx. cbn in M2, M3, M4. destruct cur_runs as (p & Hp & Hr).
  destruct (proj2 (M2 i) cur_runs) as (p' & Hp' & Hr'). split.
  - exists ip. cbn. split_and!; [done|by eapply cinv_same|by rewrite M3|].
    eapply tinv_own; eauto; congruence.
  - eapply stays_frame; [exact M4|]. intros j q ->%list_elem_of_singleton Hq. congruence.
Qed.

Lemma slot_step np t s' q' : moved [np] (seen (Runs i) s) s' ip ->
  (forall q, procs s !! np = Some q -> state q = UNUSED \/ state q = EMBRYO) ->
  (forall j st, task_of ts j = Forking np st -> j = i) -> (forall m st, task_of ts i = Forking m st -> m = np) ->
  procs s' !! np = Some q' ->
  ((exists st', t = Forking np st' /\ begun i st' q') \/ (t = Free /\ state q' <> EMBRYO)) ->
  sysinv (mksys s' cs (<[i := t]> ts)) /\ stays None (procs s) (procs s').
Proof.
  intros [M1 M2 M3 M4] Hnp Hmine Hone Hq' Ht. cbn in M2, M3, M4. destruct cur_runs as (p & Hp & Hr). split.
  - exists ip. cbn. split_and!; [done|by eapply cinv_same|by rewrite M3|].
    eapply tinv_slot; eauto.
    + exists p. split; [done|]. unfold alive. by rewrite Hr.
    + intros q Hq. unfold alive. by destruct (Hnp _ Hq) as [-> | ->].
  - eapply stays_frame; [exact M4|]. intros j q ->%list_elem_of_singleton Hq. destruct (Hnp _ Hq); congruence.
Qed.

Lemma begin_step o t s' : task_of ts i = Free -> begin i o (seen (Runs i) s) = Ret t s' ->
  sysinv (mksys s' cs (<[i := t]> ts)) /\ stays None (procs s) (procs s').
Proof.
  intros Hf H. assert (o = Fork \/ o <> Fork) as [->|Hne] by (destruct o; [by left|by right..]).
  - cbn [begin] in H. apply bind_inv in H as (r & s1 & H & [<- <-]%ret_inv). apply alloc_slot_inv in H as [Hl H].
    destruct r as [np|].
    + destruct H as (q & Hq & Hu & _ & ->). cbn in Hl, Hq.
      apply (slot_step np _ _ (claimed (nextpid s) q)).
      * apply (claimed_moved (seen (Runs i) s) ip i); [apply seen_ok|apply cur_runs|done|done|done].
      * intros q' Hq'. left. congruence.
      * intros j st Hj. destruct (ti_fork _ _ _ HT _ _ _ Hj) as (_ & q' & Hq' & [He _]). congruence.
      * intros m st Hm. congruence.
      * cbn. by eapply lookup_upd.
      * left. exists FStack. split; [done|]. split_and!; [done| |done]. cbn. eapply free_parent; [apply HO|done|done].
    + destruct H as [_ ->]. apply own_step; try done; [apply moved_refl, seen_ok|by rewrite Hf].
  - destruct (begin_ok (seen (Runs i) s) ip i o t s') as (M & H1 & H2 & H3); [apply seen_ok|apply cur_runs|done|done|].
    apply own_step; auto. by rewrite Hf.
Qed.

Lemma continue_step t s' : continue i (task_of ts i) (seen (Runs i) s) = Ret t s' ->
  sysinv (mksys s' cs (<[i := t]> ts)) /\ stays None (procs s) (procs s').
Proof.
  intros H. destruct (task_of ts i) as [| |t0|np st|st] eqn:Et; [done|done|done|..].
  - destruct (ti_fork _ _ _ HT _ _ _ Et) as (_ & q & Hq & Hb).
    destruct (fork_continue (seen (Runs i) s) ip i np st q t s') as (M & q' & Hq' & Ht);
      [apply seen_ok|apply cur_runs|done|done|done|].
    apply (slot_step np _ _ q'); auto.
    + intros q0 Hq0. right. destruct Hb as [? _]. congruence.
    + intros j st' Hj. by eapply ti_uniq.
    + intros m st' Hm. congruence.
  - destruct (exit_continue (seen (Runs i) s) ip i st t s') as (M & st' & ->); [apply seen_ok|done|].
    apply own_step; [done|by rewrite Et|done|done|]. intros _. apply (ti_exit _ _ _ HT). by rewrite Et.
Qed.

Lemma park_step w t s1 k s2 : parked (task_of ts i) w = Some t -> park i w (seen (Runs i) s) = Wait "sched" s1 ->
  scheduler (Runs i) s1 = Ret k s2 ->
  sysinv (mksys s2 (<[c := k]> cs) (<[i := t]> ts)) /\ stays None (procs s) (procs s2).
Proof.
  intros Hp H Hk. destruct cur_runs as (p & Hi & Hr).
  destruct (park_ok (seen (Runs i) s) ip i (task_of ts i) w t "sched" s1) as (out & [G1 G2 G3 G4 (p' & Hp' & Ha & He)] & Ho);
    [apply seen_ok|apply cur_runs|done|apply HT|done|]. cbn in G2, G4.
  apply scheduler_inv in Hk as (-> & w' & ->). split.
  - exists ip. cbn. split_and!.
    + by apply okst_world.
    + by eapply cinv_stop.
    + rewrite G3. eapply locks_upd; [exact HL|exact Hc| |done]. intros _. right.
      assert (Hlk : forall b, locked s = b -> b = false); [|by apply Hlk].
      intros b Hb. destruct b; [|done]. exfalso. eapply (park_locked i w (seen (Runs i) s)); eauto.
    + eapply tinv_own; eauto; [congruence|..].
      * intros d Hd. destruct (Ho d Hd) as (-> & ? & _). done.
      * destruct out as [d|]; [right; destruct (Ho d eq_refl) as (_ & ? & ->); done|].
        destruct w, (task_of ts i) as [| | | |[]] eqn:Et; cbn in Hp; simplify_eq; auto.
      * pose proof (ti_doze _ _ _ HT i) as Hdz. destruct w, (task_of ts i) as [| | | |[]]; cbn in Hp; simplify_eq; done.
      * intros Hx. apply (ti_exit _ _ _ HT). destruct w, (task_of ts i) as [| | | |[]]; cbn in Hp; simplify_eq; done.
  - eapply stays_frame; [exact G4|]. intros j q ->%list_elem_of_singleton Hq. congruence.
Qed.

End Running.

(** CPU [c] is in the scheduler. *)
Section Scheduling.
Variables (c : nat) (k : cpu).
Hypothesis Hc : cs !! c = Some k.
Hypothesis Hk : runs k = false.

Lemma scanning : scans k = true -> locked s = true.
Proof. intros H. apply HL. eauto. Qed.

Lemma scheduler_step k' s' : scheduler k (seen k s) = Ret k' s' -> runs k' = false ->
  sysinv (mksys s' (<[c := k']> cs) ts) /\ stays None (procs s) (procs s').
Proof.
  intros H Hk'. pose proof scanning as Hlk. apply scheduler_inv in H.
  assert (exists b n, s' = set_lock b n (seen k s) /\ (scans k' = true -> scans k = true \/ locked s = false) /\
    b = (if scans k' then true else if scans k then false else locked s)) as (b & n & -> & Hs & ->).
  { destruct k as [|pos|]; [..|done].
    - destruct H as (-> & Hl & ->). do 2 eexists. split; [done|]. split; [|done]. intros _. by right.
    - destruct H as [(-> & -> & _)|[(-> & -> & _)|(-> & _)]]; [..|done]; [|do 2 eexists; by split].
      exists true, 1. split; [|by split_and!; auto]. unfold seen, set_lock. cbn. by rewrite Hlk. }
  split; [|intros i p Hp Hr; right; eauto]. exists ip. cbn. split_and!; [by do 2 apply okst_lock|by eapply cinv_idle|by eapply locks_upd|done].
Qed.

(** The process that the CPU has chosen. *)
Lemma chosen i s1 : scheduler k (seen k s) = Ret (Runs i) s1 ->
  scans k = true /\ okst s1 ip /\ ~ running (procs s) i /\
  (forall j, running (procs s1) j <-> running (procs s) j \/ j = i) /\ others None [i] (procs s) (procs s1) /\
  exists p, procs s !! i = Some p /\ state p = RUNNABLE.
Proof.
  intros H. apply scheduler_inv in H. destruct k as [|pos|]; [by destruct H| |done].
  destruct H as [(? & _)|[(? & _)|([= ->] & p & w & Hp & Hr & ->)]]; [done..|]. cbn in *.
  assert (soft p (set_state RUNNING p)) as Hs by (unfold soft, alive; cbn; rewrite Hr; tauto).
  split_and!; [done| | | | |eauto].
  - split; cbn; [apply HO|]. eapply tbl_upd; [apply HO|done|done|by unfold quiet].
  - intros (q & Hq & E). congruence.
  - intros j. unfold running. destruct (decide (pos = j)) as [<-|Hij].
    + rewrite (lookup_upd _ _ _ _ Hp). naive_solver.
    + rewrite list_lookup_insert_ne by done. naive_solver.
  - eapply others_upd; [done|]. left. set_solver.
Qed.

Lemma awake_cases t : doze_ok t -> (awake t = t \/ forking t = false /\ forking (awake t) = false) /\
  doze_ok (awake t) /\ (exiting (awake t) = true -> exiting t = true).
Proof. destruct t as [| |[]| |]; cbn; auto; done. Qed.

Lemma switch_step i s1 t s2 : scheduler k (seen k s) = Ret (Runs i) s1 -> resume i (task_of ts i) s1 = Ret t s2 ->
  sysinv (mksys s2 (<[c := Runs i]> cs) (<[i := t]> ts)) /\ stays (Some (c, i)) (procs s) (procs s2).
Proof.
  intros H H2. destruct (chosen _ _ H) as (Hs & HO1 & Hn & Hr1 & F1 & p & Hp & Hr).
  assert (running (procs s1) i) as Hi1 by (apply Hr1; by right).
  destruct (resume_ok _ _ _ _ _ _ HO1 Hi1 H2) as (HO2 & Hr2 & Hl2 & F2 & ->).
  pose proof (others_trans _ _ _ _ _ F1 F2) as F. destruct (proj2 (Hr2 i) Hi1) as (p' & Hp' & Hrun).
  destruct (awake_cases _ (ti_doze _ _ _ HT i)) as (A1 & A2 & A3). split.
  - exists ip. cbn. split_and!; [done| | |].
    + eapply cinv_start; [|exact Hn|exact HC|exact Hc|done]. intros j. by rewrite (Hr2 j).
    + rewrite Hl2. eapply locks_upd; [exact HL|exact Hc|done|]. cbn. by rewrite Hs.
    + eapply tinv_own; [exact HT|exact F|exact Hp|congruence|exact Hp'|congruence|done| |done|].
      * destruct A1 as [->|A1]; [left|by right]. split; [done|]. unfold alive. by rewrite Hrun.
      * intros Hx. by apply (ti_exit _ _ _ HT), A3.
  - eapply stays_frame; [exact F|]. intros j q ->%list_elem_of_singleton _ _. eauto.
Qed.

Lemma again_step i s1 s2 k' s3 : scheduler k (seen k s) = Ret (Runs i) s1 ->
  resume i (task_of ts i) s1 = Wait "sched" s2 -> scheduler (Runs i) s2 = Ret k' s3 ->
  sysinv (mksys s3 (<[c := k']> cs) ts) /\ stays (Some (c, i)) (procs s) (procs s3).
Proof.
  intros H H2 H3. destruct (chosen _ _ H) as (Hs & HO1 & Hn & Hr1 & F1 & p & Hp & Hr).
  assert (running (procs s1) i) as Hi1 by (apply Hr1; by right).
  destruct (resume_wait _ _ _ _ _ _ HO1 Hi1 H2) as (Ht & [G1 G2 G3 G4 (p' & Hp' & Ha & He)]).
  apply scheduler_inv in H3 as (-> & w & ->). cbn.
  pose proof (others_trans _ _ _ _ _ F1 G4) as F. split.
  - exists ip. cbn. split_and!; [by apply okst_world| | |].
    + eapply cinv_idle; [|exact HC|exact Hc|done|done]. intros j. rewrite G2, Hr1. split; [tauto|].
      intros Hj. split; [by left|]. by intros ->.
    + rewrite G3. eapply locks_upd; [exact HL|exact Hc|by left|done].
    + eapply (tinv_ext _ (<[i := task_of ts i]> ts)); [intros j; rewrite task_upd; case_decide; by subst|].
      eapply tinv_own; [exact HT|exact F|exact Hp|congruence|exact Hp'|done|done| |apply HT|apply HT].
      left. auto.
  - eapply stays_frame; [exact F|]. intros j q ->%list_elem_of_singleton _ _. eauto.
Qed.

End Scheduling.

End OneStep.

Lemma step_ok S e S' : step S e S' -> sysinv S -> sysinv S' /\ stays e (procs (core S)) (procs (core S')).
Proof.
  intros Hst (ip & HO & HC & HL & HT).
  destruct Hst as [s cs ts c i o t s' Hc Ht H|s cs ts c i t s' Hc H|s cs ts c i w t s1 k s2 Hc Ht H Hk
    |s cs ts c k k' s' Hc Hk H Hk'|s cs ts c k i s1 t s2 Hc Hk H H2|s cs ts c k i s1 s2 k' s3 Hc Hk H H2 H3
    |s cs ts a s' H|s cs ts w]; cbn in *.
  - by eapply begin_step.
  - by eapply continue_step.
  - by eapply park_step.
  - by eapply scheduler_step.
  - by eapply switch_step.
  - by eapply again_step.
  - destruct (wakeup_ok [] (seen Top s) ip _ _ _ (okst_lock _ _ _ _ HO) H) as [M1 M2 M3 M4]. cbn in *. split.
    + exists ip. cbn. split_and!; [done|by eapply cinv_same|by rewrite M3|by eapply tinv_all].
    + eapply stays_frame; [exact M4|]. intros j q Hj. by apply elem_of_nil in Hj.
  - split; [|intros i p Hp Hr; right; eauto]. exists ip. cbn. split_and!; [by apply okst_world|done..].
Qed.

(** [userinit] on the empty table. *)
Lemma boot_ok w0 s' : userinit forkret trapret (mkpst (repeat proc0 NPROC) 1 None false 0 w0) = Ret tt s' ->
  exists ip, okst s' ip /\ locked s' = false /\ (forall j q, procs s' !! j = Some q -> state q <> EMBRYO) /\
    forall j, ~ running (procs s') j.
Proof.
  intros H. unfold userinit in H. apply bind_inv in H as (r & s1 & Ha & H).
  destruct r as [i|]; [|cbn in H; by inv_run].
  destruct (allocproc_inv _ _ _ _ _ Ha i eq_refl) as (p & k & w & Hp & _ & _ & ->). fields.
  assert (p = proc0) as -> by (by apply repeat_lookup_Some in Hp as [? _]).
  set (l0 := repeat proc0 NPROC) in *.
  apply bind_inv in H as (u & s1 & Hm & H). injection Hm as _ <-.
  apply bind_inv in H as (i' & s1 & Hd & H). injection Hd as <- <-.
  inv_run. case_test; [inv_run|]. inv_run.
  match goal with |- exists ip, okst (mkpst (<[_ := ?q]> _) _ _ _ _ _) _ /\ _ => set (p1 := q) end.
  assert (Htab : forall j q, <[i := p1]> l0 !! j = Some q -> j = i /\ q = p1 \/ j <> i /\ q = proc0).
  { intros j q Hq. apply list_lookup_insert_Some in Hq as [(-> & -> & _)|[? Hq]]; [auto|].
    apply repeat_lookup_Some in Hq as [-> _]. auto. }
  exists i. split; [split; [done|fields; split]|split; [done|split; [|fields]]].
  - split; try (intros j q Hq; destruct (Htab _ _ Hq) as [[-> ->]|[? ->]]; cbn; done || lia).
    + unfold l0. by rewrite length_insert, repeat_length.
    + intros j j' q q' Hq Hq'. destruct (Htab _ _ Hq) as [[-> ->]|[? ->]],
        (Htab _ _ Hq') as [[-> ->]|[? ->]]; done.
    + intros j j' q Hq. by destruct (Htab _ _ Hq) as [[-> ->]|[? ->]].
    + exists p1. rewrite (lookup_upd _ _ _ _ Hp). done.
  - intros j j' q Hq. by destruct (Htab _ _ Hq) as [[-> ->]|[? ->]].
  - intros j q Hq. by destruct (Htab _ _ Hq) as [[-> ->]|[? ->]].
  - intros j (q & Hq & E). by destruct (Htab _ _ Hq) as [[-> ->]|[? ->]].
Qed.

Lemma reachable_sysinv w0 ncpu S : reachable w0 ncpu S -> sysinv S.
Proof.
  intros (S0 & es & (s' & Hb & ->) & HS). assert (H0 : sysinv (mksys s' (repeat Top ncpu) ∅)).
  { destruct (boot_ok _ _ Hb) as (ip & HO & Hl & He & Hn). exists ip. cbn.
    assert (forall c k, repeat Top ncpu !! c = Some k -> k = Top) as Htop by (intros c k [? _]%repeat_lookup_Some; done).
    split_and!; [done|split|split|split].
    - intros c i Hc. by apply Htop in Hc.
    - intros c c' i Hc. by apply Htop in Hc.
    - intros i Hi. by destruct (Hn i).
    - intros c c' k k' Hk _ Hs. by rewrite (Htop _ _ Hk) in Hs.
    - rewrite Hl. split; [done|]. intros (c & k & Hk & Hs). by rewrite (Htop _ _ Hk) in Hs.
    - done.
    - done.
    - intros np q Hq Hqe. by destruct (He np q Hq).
    - done.
    - done. }
  induction HS as [|S e S1 es S' Hst _ IH]; [done|]. apply IH, (step_ok _ _ _ Hst), H0.
Qed.

(** ** The scheduler's progress *)











End Steps.

(** ** Runs to try the theorems on *)

(** What a CPU does next. *)
Inductive move := MBegin (o : pop) | MContinue | MPark (w : leave) | MSched.

Section Replay.
Context {W : Type} `{NB : Nonblocking W}.
Variables forkret trapret : Z.

Definition make_move (S : sys (W := W)) (c : nat) (m : move) : option (option (nat * nat) * sys (W := W)) :=
  let s := core S in let cs := cpus S in let ts := tasks S in
  match cs !! c, m with
  | Some (Runs i), MBegin o =>
      match task_of ts i, begin i o (seen (Runs i) s) with
      | Free, Ret t s' => Some (None, mksys s' cs (<[i := t]> ts))
      | _, _ => None
      end
  | Some (Runs i), MContinue =>
      match continue forkret trapret i (task_of ts i) (seen (Runs i) s) with
      | Ret t s' => Some (None, mksys s' cs (<[i := t]> ts))
      | _ => None
      end
  | Some (Runs i), MPark w =>
      match parked (task_of ts i) w, park i w (seen (Runs i) s) with
      | Some t, Wait x s1 =>
          if decide (x = "sched"%string) then
            match scheduler (Runs i) s1 with
            | Ret k s2 => Some (None, mksys s2 (<[c := k]> cs) (<[i := t]> ts))
            | _ => None
            end
          else None
      | _, _ => None
      end
  | Some k, MSched =>
      if runs k then None
      else match scheduler k (seen k s) with
           | Ret (Runs i) s1 =>
               match resume i (task_of ts i) s1 with
               | Ret t s2 => Some (Some (c, i), mksys s2 (<[c := Runs i]> cs) (<[i := t]> ts))
               | _ => None
               end
           | Ret k' s' => Some (None, mksys s' (<[c := k']> cs) ts)
           | _ => None
           end
  | _, _ => None
  end.

Lemma make_move_step S c m e S' : make_move S c m = Some (e, S') -> step forkret trapret S e S'.
Proof.
  destruct S as [s cs ts]. unfold make_move. cbn [core cpus tasks]. destruct (cs !! c) as [k|] eqn:Hc; [|done].
  destruct m as [o| |w|].
  - destruct k as [| |i]; try done. destruct (task_of ts i) eqn:Ht; try done.
    destruct (begin i o _) as [t s'|?|] eqn:E; try done. intros [= <- <-]. by eapply step_begin.
  - destruct k as [| |i]; try done. destruct (continue _ _ i _ _) as [t s'|?|] eqn:E; try done.
    intros [= <- <-]. by eapply step_continue.
  - destruct k as [| |i]; try done. destruct (parked _ w) as [t|] eqn:Ht; try done.
    destruct (park i w _) as [|?|x s1] eqn:E; try done. case_decide as Hx; [subst x|done].
    destruct (scheduler (Runs i) s1) as [k s2|?|] eqn:E2; try done. intros [= <- <-]. by eapply step_park.
  - destruct (runs k) eqn:Hk; [by destruct k|].
    assert (H : (match scheduler k (seen k s) with
           | Ret (Runs i) s1 =>
               match resume i (task_of ts i) s1 with
               | Ret t s2 => Some (Some (c, i), mksys s2 (<[c := Runs i]> cs) (<[i := t]> ts))
               | _ => None
               end
           | Ret k' s' => Some (None, mksys s' (<[c := k']> cs) ts)
           | _ => None
           end) = Some (e, S') -> step forkret trapret (mksys s cs ts) e S'); [|by destruct k].
    destruct (scheduler k (seen k s)) as [k' s1|?|] eqn:E; try done. destruct k' as [|pos|i].
    + intros [= <- <-]. by eapply step_scheduler.
    + intros [= <- <-]. by eapply step_scheduler.
    + destruct (resume i _ s1) as [t s2|?|] eqn:E2; try done. intros [= <- <-]. by eapply step_switch.
Qed.

Fixpoint replay (S : sys (W := W)) (ms : list (nat * move)) : option (list (nat * nat) * sys (W := W)) :=
  match ms with
  | [] => Some ([], S)
  | (c, m) :: ms =>
      match make_move S c m with
      | Some (e, S1) => match replay S1 ms with Some (es, S') => Some (option_list e ++ es, S') | None => None end
      | None => None
      end
  end.

Lemma replay_run ms : forall S es S', replay S ms = Some (es, S') -> run forkret trapret S es S'.
Proof.
  induction ms as [|[c m] ms IH]; intros S es S' H; cbn in H; [injection H as <- <-; constructor|].
  destruct (make_move S c m) as [[e S1]|] eqn:E; [|done]. destruct (replay S1 ms) as [[es1 S2]|] eqn:E2; [|done].
  injection H as <- <-. econstructor; [by eapply make_move_step|by apply IH].
Qed.

End Replay.

Lemma run_app {W : Type} `{NB : Nonblocking W} fr tr (S S1 S2 : sys (W := W)) es es' :
  run fr tr S es S1 -> run fr tr S1 es' S2 -> run fr tr S (es ++ es') S2.
Proof.
  intros H H2. induction H as [|S e S1' es S' Hst _ IH]; [done|]. rewrite <- app_assoc. econstructor; [done|by apply IH].
Qed.

Module Demo.

#[export] Instance services : Services Z := {
  sv_kalloc := fun n => Ret (n + 4096) (n + 4096);
  sv_kfree _ := ret tt;
  sv_setupkvm := ret 4096;
  sv_inituvm _ := ret tt;
  sv_copyuvm _ _ := ret 8192;
  sv_freevm _ := ret tt;
  sv_allocuvm _ _ n := ret n;
  sv_deallocuvm _ _ n := ret n;
  sv_switchuvm _ := ret tt;
  sv_switchkvm := ret tt;
  sv_filedup _ := ret tt;
  sv_fileclose _ := ret tt;
  sv_idup _ := ret tt;
  sv_iput _ := ret tt;
  sv_namei _ := ret (Some 0%nat);
  sv_begin_op := ret tt;
  sv_end_op := ret tt;
}.

#[export] Instance nonblocking : Nonblocking Z.
Proof. by split. Qed.

Definition empty : pst Z := mkpst (repeat proc0 NPROC) 1 None false 0 0.
Definition final {A} (o : outcome (pst Z) A) : pst Z :=
  match o with Ret _ s => s | Wait _ s => s | Stop _ => empty end.

Definition start : sys (W := Z) := mksys (final (userinit 1 2 empty)) [Top; Top] ∅.
Definition after (ms : list (nat * move)) : sys (W := Z) :=
  match replay 1 2 start ms with Some (_, T) => T | None => start end.

Definition slot_of (s : pst Z) (i : nat) : proc := nth i (procs s) proc0.

(** CPU 0 starts init. *)
Definition init_runs : list (nat * move) := [(0, MSched); (0, MSched)]%nat.

(** Init forks: the embryo has its stack, and then everything. *)
Definition half_forked : list (nat * move) := init_runs ++ [(0, MBegin Fork); (0, MContinue)]%nat.
Definition forked : list (nat * move) := half_forked ++ repeat (0%nat, MContinue) 22.

(** CPU 1 starts the child. *)
Definition both_run : list (nat * move) := forked ++ repeat (1%nat, MSched) 3.

(** Init sleeps in [wait]. *)
Definition waiting : list (nat * move) := both_run ++ [(0%nat, MPark Waits)].

(** The child exits. *)
Definition exited : list (nat * move) :=
  both_run ++ [(1%nat, MBegin Exit)] ++ repeat (1%nat, MContinue) 20 ++ [(1%nat, MPark Exits)].

Lemma boots : booted 1 2 0 2 start.
Proof. eexists. split; [|reflexivity]. by vm_compute. Qed.

Lemma after_run ms : bool_decide (is_Some (replay 1 2 start ms)) = true -> reachable 1 2 0 2 (after ms).
Proof.
  intros H%bool_decide_eq_true. unfold after. destruct (replay 1 2 start ms) as [[es S]|] eqn:E; [|by destruct H].
  exists start, es. split; [apply boots|by eapply replay_run].
Qed.

Lemma reach_half : reachable 1 2 0 2 (after half_forked).
Proof. apply after_run. by vm_compute. Qed.

Lemma reach_both : reachable 1 2 0 2 (after both_run).
Proof. apply after_run. by vm_compute. Qed.

Lemma reach_waiting : reachable 1 2 0 2 (after waiting).
Proof. apply after_run. by vm_compute. Qed.

End Demo.

(** ** The properties *)

Section Properties.
Context {W : Type} `{NB : Nonblocking W}.
Variables (forkret trapret : Z) (w0 : W) (ncpu : nat) (S : sys (W := W)).

(** In every state the kernel can reach, on any number of CPUs, two slots of
    the process table that are in use hold different positive pids, all below
    [nextpid]. *)
Theorem pids_distinct i j p q :
  reachable forkret trapret w0 ncpu S ->
  procs (core S) !! i = Some p -> procs (core S) !! j = Some q ->
  state p <> UNUSED -> state q <> UNUSED -> i <> j ->
  0 < pid p < nextpid (core S) /\ pid p <> pid q.
Proof.
  intros HR. destruct (reachable_sysinv _ _ _ _ _ HR) as (ip & [_ [HI _]] & _).
  intros Hp Hq Hup Huq Hne. split; [by eapply pi_pid|].
  intros E. apply Hne. by eapply pi_uniq.
Qed.

(** In every reachable state a process that is more than an embryo has at least 10
    tickets, whatever [settickets], [fork] and [exit] did before. *)
Theorem tickets_at_least_ten i p :
  reachable forkret trapret w0 ncpu S ->
  procs (core S) !! i = Some p -> state p <> UNUSED -> state p <> EMBRYO -> 10 <= tickets p.
Proof.
  intros HR. destruct (reachable_sysinv _ _ _ _ _ HR) as (ip & [_ [HI _]] & _).
  by apply HI.
Qed.

(** C4: In every reachable state, also in the middle of other processes' [fork]
    and [exit], each process in use but init has a parent that is alive (neither
    unused nor an embryo nor a zombie), so some process can still reap it; an
    embryo is being made by a live process, and has that one as its parent or
    none yet. *)
Theorem parent_alive i p :
  reachable forkret trapret w0 ncpu S ->
  procs (core S) !! i = Some p -> state p <> UNUSED -> initproc (core S) <> Some i ->
  exists j q, i <> j /\ procs (core S) !! j = Some q /\ alive q = true /\
    if bool_decide (state p = EMBRYO)
    then (exists st, task_of (tasks S) j = Forking i st) /\ (parent p = None \/ parent p = Some j)
    else parent p = Some j.
Proof.
  intros HR. destruct (reachable_sysinv _ _ _ _ _ HR) as (ip & [Hi [HI _]] & _ & _ & HT).
  intros Hp Hu Hne. rewrite Hi in Hne. case_bool_decide as He.
  - destruct (ti_embryo _ _ _ HT _ _ Hp He) as (j & st & Hj).
    destruct (ti_fork _ _ _ HT _ _ _ Hj) as ((q & Hq & Ha) & p' & Hp' & _ & Hpar & _).
    rewrite Hp in Hp'. injection Hp' as <-. exists j, q. split_and!; eauto.
    + intros ->. rewrite Hp in Hq. injection Hq as <-. apply alive_state in Ha. tauto.
    + rewrite Hpar. destruct (early st); auto.
  - destruct (parent p) as [j|] eqn:E; [|by destruct (pi_orphan _ _ _ HI _ _ Hp Hu He ltac:(congruence))].
    destruct (pi_parent _ _ _ HI _ _ _ Hp E) as (_ & ? & q & ? & ?). eauto 10.
Qed.

(** C2: No exit is lost: in every reachable state a process asleep in [wait] sleeps
    on its own channel, has a child, and none of its children is a zombie that it
    should have been woken for. *)
Theorem wait_misses_no_exit i j p :
  reachable forkret trapret w0 ncpu S ->
  procs (core S) !! i = Some p -> state p = SLEEPING -> chan p = Some (ChProc j) ->
  i = j /\ (exists k q, procs (core S) !! k = Some q /\ parent q = Some i) /\
  forall k q, procs (core S) !! k = Some q -> parent q = Some i -> state q <> ZOMBIE.
Proof.
  intros HR. destruct (reachable_sysinv _ _ _ _ _ HR) as (ip & [_ [_ HW]] & _).
  apply HW.
Qed.

(** C3: In every reachable state a process is [RUNNING] exactly when some CPU runs
    it, and no two CPUs run the same process. *)
Theorem one_cpu_each i :
  reachable forkret trapret w0 ncpu S ->
  (running (procs (core S)) i <-> exists c, cpus S !! c = Some (Runs i)) /\
  forall c c', cpus S !! c = Some (Runs i) -> cpus S !! c' = Some (Runs i) -> c = c'.
Proof.
  intros HR. destruct (reachable_sysinv _ _ _ _ _ HR) as (ip & _ & [C1 C2 C3] & _).
  split; [|eauto]. split; [apply C3|]. intros [c Hc]. eauto.
Qed.


End Properties.

Import Demo.

Lemma parent_alive_witness :
  (exists j q, 1%nat <> j /\ procs (core (after both_run)) !! j = Some q /\ alive q = true /\
     parent (slot_of (core (after both_run)) 1) = Some j) /\
  (exists j q, 1%nat <> j /\ procs (core (after half_forked)) !! j = Some q /\ alive q = true /\
     (exists st, task_of (tasks (after half_forked)) j = Forking 1 st) /\
     (parent (slot_of (core (after half_forked)) 1) = None \/ parent (slot_of (core (after half_forked)) 1) = Some j)).
Proof.
  split.
  - apply (parent_alive 1 2 0 2 _ 1 (slot_of (core (after both_run)) 1) reach_both); by vm_compute.
  - apply (parent_alive 1 2 0 2 _ 1 (slot_of (core (after half_forked)) 1) reach_half); by vm_compute.
Defined.

Lemma wait_misses_no_exit_witness : 0%nat = 0%nat /\
  (exists k q, procs (core (after waiting)) !! k = Some q /\ parent q = Some 0%nat) /\
  forall k q, procs (core (after waiting)) !! k = Some q -> parent q = Some 0%nat -> state q <> ZOMBIE.
Proof.
  apply (wait_misses_no_exit 1 2 0 2 _ 0 0 (slot_of (core (after waiting)) 0) reach_waiting);
    by vm_compute.
Defined.

Lemma one_cpu_each_witness :
  (running (procs (core (after both_run))) 1 <-> exists c, cpus (after both_run) !! c = Some (Runs 1)) /\
  forall c c', cpus (after both_run) !! c = Some (Runs 1) -> cpus (after both_run) !! c' = Some (Runs 1) -> c = c'.
Proof.
  apply (one_cpu_each 1 2 0 2 _ 1 reach_both).
Defined.


