(* ===== verification/ProcSpec.v ===== *)
(** * What each process operation does ([proc.c], [sysproc.c])

    Forward descriptions: given what the services answer, the operation returns
    and this is the state it leaves. *)
From S2P Require Import Prelude Str Proc ProcSteps.
Import ProcSteps.Demo.

Section Forward.
Context {W : Type} `{SV : Services W}.
Implicit Types s : pst W.

Lemma pt_acquire_run s : locked s = false ->
  acquire_pt s = Ret tt (set_lock true (ncli s + 1) s).
Proof. intros H. unfold acquire_pt. run. by rewrite H. Qed.

Lemma pt_release_run s : locked s = true ->
  release_pt s = Ret tt (set_lock false (ncli s - 1) s).
Proof. intros H. unfold release_pt. run. by rewrite H. Qed.

Lemma slot_run i s p : procs s !! i = Some p -> slot i s = Ret p s.
Proof. intros H. unfold slot. by rewrite H. Qed.

Lemma inw_run {A} (m : M W A) s a w : m (world s) = Ret a w ->
  inw m s = Ret a (set_world w s).
Proof. intros H. unfold inw, zoom. by rewrite H. Qed.

End Forward.

(** One step of a run whose next call is known to return. *)
Ltac known := first [eassumption|reflexivity|eapply lookup_upd; eassumption].
Ltac fwd :=
  match goal with
  | |- context [bind acquire_pt ?f ?s] =>
      rewrite (bind_ret acquire_pt f s _ _ (pt_acquire_run s ltac:(known)))
  | |- context [bind release_pt ?f ?s] =>
      rewrite (bind_ret release_pt f s _ _ (pt_release_run s ltac:(known)))
  | |- context [bind (slot ?i) ?f ?s] =>
      rewrite (bind_ret (slot i) f s _ _ (slot_run i s _ ltac:(known)))
  | |- context [bind (on ?i ?g) ?f ?s] =>
      rewrite (bind_ret (on i g) f s _ _ (on_run i g s _ ltac:(known)))
  | |- context [bind (inw ?m) ?f ?s] =>
      rewrite (bind_ret (inw m) f s _ _ (inw_run m s _ _ ltac:(known)))
  | |- context [bind (modify ?g) ?f ?s] =>
      rewrite (bind_ret (modify g) f s _ _ eq_refl)
  | |- context [bind get ?f ?s] => rewrite (bind_ret get f s _ _ eq_refl)
  | |- context [bind (ret ?a) ?f ?s] => rewrite (bind_ret (ret a) f s _ _ eq_refl)
  end; fields; rewrite ?list_insert_insert_eq.

Section ForkSpec.
Context {W : Type} `{SV : Services W}.
Variables forkret trapret : Z.
Implicit Types s : pst W.



Lemma scan_found test l k i p : l !! k = Some p -> test p = true ->
  (forall j q, l !! j = Some q -> test q = true -> j = k) -> scan test l i = Some (i + k)%nat.
Proof.
  revert k i. induction l as [|x l IH]; intros k i Hk Ht Hu; [done|]. cbn.
  destruct k as [|k]; simplify_eq/=.
  - rewrite Ht. f_equal. lia.
  - destruct (test x) eqn:E; [by specialize (Hu 0%nat x eq_refl E)|].
    rewrite (IH k); [f_equal; lia|done..|]. intros j q Hj Hq.
    specialize (Hu (S j) q Hj Hq). lia.
Qed.








End ForkSpec.

(** ** fork *)




Section ForkTheorem.
Context {W : Type} `{SV : Services W}.
Variables forkret trapret : Z.


End ForkTheorem.




(** ** wait *)

Section WaitSpec.
Context {W : Type} `{SV : Services W}.
Implicit Types s : pst W.

Lemma reap_run i s p w1 w2 : procs s !! i = Some p -> locked s = true ->
  sv_kfree (kstack p) (world s) = Ret tt w1 -> sv_freevm (pgdir p) w1 = Ret tt w2 ->
  reap i s = Ret (pid p)
    (mkpst (<[i := reaped p]> (procs s)) (nextpid s) (initproc s) false (ncli s - 1) w2).
Proof. intros Hp Hl H1 H2. unfold reap. do 10 fwd. done. Qed.

(** The zombie child of [cur] that comes first in the table, from slot [k] on. *)
Lemma wait_scan_run cur n k hk s i p w1 w2 :
  procs s !! i = Some p -> parent p = Some cur -> state p = ZOMBIE -> locked s = true ->
  sv_kfree (kstack p) (world s) = Ret tt w1 -> sv_freevm (pgdir p) w1 = Ret tt w2 ->
  (k <= i < k + n)%nat -> (k + n <= length (procs s))%nat ->
  (forall j q, (k <= j < i)%nat -> procs s !! j = Some q -> parent q = Some cur -> state q <> ZOMBIE) ->
  wait_scan cur (seq k n) hk s = Ret (inl (pid p))
    (mkpst (<[i := reaped p]> (procs s)) (nextpid s) (initproc s) false (ncli s - 1) w2).
Proof.
  intros Hp Hpar Hz Hl H1 H2. revert k hk. induction n as [|n IH]; intros k hk Hk Hlen Hno; [lia|].
  cbn [seq wait_scan]. assert (is_Some (procs s !! k)) as [q Hq] by (apply lookup_lt_is_Some; lia).
  fwd. destruct (decide (i = k)) as [->|Hne].
  - replace q with p in * by congruence. rewrite !bool_decide_true by done. cbn [negb].
    by rewrite (bind_ret _ _ _ _ _ (reap_run _ _ _ _ _ Hp Hl H1 H2)).
  - assert (HIH : forall b, wait_scan cur (seq (S k) n) b s = Ret (inl (pid p))
      (mkpst (<[i := reaped p]> (procs s)) (nextpid s) (initproc s) false (ncli s - 1) w2)).
    { intros b. apply IH; [lia..|]. intros j r Hj. apply Hno. lia. }
    case_bool_decide as E1; cbn [negb]; [|apply HIH].
    rewrite bool_decide_false; [apply HIH|]. apply (Hno k); [lia|done..].
Qed.

Lemma wait_scan_none cur l hk s :
  (forall i, i ∈ l -> is_Some (procs s !! i)) ->
  (forall i p, procs s !! i = Some p -> parent p <> Some cur) ->
  wait_scan cur l hk s = Ret (inr hk) s.
Proof.
  intros Hl Hno. induction l as [|i l IH]; [done|]. cbn [wait_scan].
  destruct (Hl i) as [p Hp]; [set_solver|]. fwd.
  rewrite bool_decide_false by (by eapply Hno). cbn [negb]. apply IH. set_solver.
Qed.

(** [wait] by a process with an exited child takes the first such child of the
    table: it returns that child's pid, frees its stack and address space and
    leaves its slot unused, nameless, without pid, parent and kill mark; no other
    slot changes and the lock is released. *)
Theorem wait_reaps cur s i p w1 w2 :
  length (procs s) = NPROC -> locked s = false ->
  procs s !! i = Some p -> parent p = Some cur -> state p = ZOMBIE ->
  (forall j q, (j < i)%nat -> procs s !! j = Some q -> parent q = Some cur -> state q <> ZOMBIE) ->
  sv_kfree (kstack p) (world s) = Ret tt w1 -> sv_freevm (pgdir p) w1 = Ret tt w2 ->
  wait cur s = Ret (pid p)
    (mkpst (<[i := reaped p]> (procs s)) (nextpid s) (initproc s) false (ncli s) w2).
Proof.
  intros HL Hl Hp Hpar Hz Hno H1 H2. unfold wait, wait_loop. fwd.
  pose proof (lookup_lt_Some _ _ _ Hp) as Hlt.
  erewrite bind_ret by (apply (wait_scan_run cur NPROC 0 false _ i p w1 w2);
    cbn; auto; [lia|lia|]; intros j q Hj; apply Hno; lia).
  cbn. unfold ret. f_equal. f_equal. lia.
Qed.

(** [wait] by a process without children returns -1 at once and changes
    nothing. *)
Theorem wait_no_children cur s p :
  length (procs s) = NPROC -> locked s = false -> procs s !! cur = Some p ->
  (forall i q, procs s !! i = Some q -> parent q <> Some cur) ->
  wait cur s = Ret (-1) s.
Proof.
  intros HL Hl Hp Hno. unfold wait, wait_loop. fwd.
  erewrite bind_ret by (apply wait_scan_none; [|done];
    intros i Hi%elem_of_indices; cbn [procs]; apply lookup_lt_is_Some; lia).
  cbv beta iota. fwd. cbn [negb orb]. fwd. unfold ret. f_equal.
  destruct s; cbn in *; subst. f_equal. lia.
Qed.

End WaitSpec.

(** ** kill *)

Section KillSpec.
Context {W : Type} `{SV : Services W}.
Implicit Types s : pst W.

(** [kill] on a well-formed table with the pid of a slot in use marks that
    process and wakes it if it sleeps, returns 0 and changes no other slot;
    a pid that no slot has gives -1 and changes nothing. *)
Theorem kill_spec s ip n :
  pinv (procs s) (nextpid s) ip -> locked s = false ->
  (forall i p, procs s !! i = Some p -> state p = UNUSED -> pid p <> n) ->
  (forall i p, procs s !! i = Some p -> pid p = n ->
    let p1 := set_killed 1 p in
    let p2 := if bool_decide (state p = SLEEPING) then set_state RUNNABLE p1 else p1 in
    kill n s = Ret 0 (set_procs (<[i := p2]> (procs s)) s)) /\
  ((forall i p, procs s !! i = Some p -> pid p <> n) -> kill n s = Ret (-1) s).
Proof.
  intros HI Hl Hfree. unfold kill. split.
  - intros i p Hp Hn. cbv zeta. do 2 fwd. rewrite (scan_found _ _ i 0 p); [|done|by b2p|].
    + do 2 fwd. cbn [state set_killed].
      case_bool_decide; [fwd|fwd]; fwd; unfold ret; f_equal; destruct s; cbn in *;
        subst; f_equal; lia.
    + intros j q Hq Ht. b2p. eapply pi_uniq; eauto; try congruence; naive_solver.
  - intros Hno. do 2 fwd. destruct (scan _ (procs s) 0) as [i|] eqn:E.
    + apply scan_0 in E as (p & Hp & Ht & _). b2p. by destruct (Hno _ _ Hp).
    + fwd. unfold ret. f_equal. destruct s; cbn in *; subst; f_equal; lia.
Qed.

(** [settickets] refuses a missing argument and every number below 10 and
    changes nothing then; any other number becomes exactly the caller's tickets
    and no other process is touched. *)
Theorem settickets_spec s cur p arg : procs s !! cur = Some p ->
  match arg with
  | Some n => if n <? 10 then sys_settickets (Some cur) arg s = Ret (-1) s
              else sys_settickets (Some cur) arg s =
                   Ret 0 (set_procs (<[cur := set_tickets n p]> (procs s)) s)
  | None => sys_settickets (Some cur) arg s = Ret (-1) s
  end.
Proof.
  intros Hp. destruct arg as [n|]; [|done]. unfold sys_settickets.
  destruct (n <? 10); [done|]. by fwd.
Qed.

(** The snapshot [getpinfo] hands to [ps] has one entry per slot, says [inuse]
    exactly for the slots in use, copies pid, tickets, ticks and name, and its
    state letter determines the process's state. *)
Theorem fillpstat_spec s : locked s = false -> length (procs s) = NPROC ->
  exists t, fillpstat s = Ret t s /\ length t = NPROC /\
    forall i p e, procs s !! i = Some p -> t !! i = Some e ->
      (st_inuse e = 1 <-> state p <> UNUSED) /\ st_pid e = pid p /\
      st_tickets e = tickets p /\ st_ticks e = ticks p /\
      (length (name p) = 16%nat -> st_name e = name p) /\
      forall st, state_char st = st_state e -> st = state p.
Proof.
  intros Hl HL. exists (map pstat_of (procs s)). split_and!.
  - unfold fillpstat. do 3 fwd. unfold ret. f_equal. destruct s; cbn in *; subst; f_equal; lia.
  - by rewrite length_map.
  - intros i p e Hp He. apply list_lookup_fmap_Some in He as (p' & -> & Hp').
    replace p' with p in * by congruence. unfold pstat_of. cbn [st_inuse st_pid st_tickets
      st_ticks st_name st_state]. split_and!; try done.
    + unfold is_unused. case_bool_decide; split; congruence.
    + generalize (name p). intros nm Hn. do 16 (destruct nm as [|? nm]; [done|]).
      by destruct nm.
    + intros st. by destruct st, (state p).
Qed.

End KillSpec.

(** The slot that [kill] marks when a free one has the pid. *)
Section KillFree.
Context {W : Type} `{SV : Services W}.
Variables forkret trapret : Z.
Implicit Types s : pst W.




End KillFree.

