(* ===== verification/Console.v ===== *)
(** * The console ([console.c])

    Output goes to the serial port and to the memory of the screen; input is
    edited in a ring of 128 bytes until a line is complete.  Code that holds
    [cons.lock] is one step, except that a reader gives the lock up while it
    sleeps: [consoleread] runs in segments, as [pipewrite] does. *)
From S2P Require Import Prelude Hw Str Spinlock Proc.

Definition BACKSPACE : Z := 256.
Definition CRTPORT : Z := 980.
Definition INPUT_BUF : nat := 128.

(** Control-x. *)
Definition C (x : Z) : Z := x - 64.

(** The bytes of a string literal. *)
Definition text (s : string) : list Z := (fun a => Z.of_N (Ascii.N_of_ascii a)) <$> String.list_ascii_of_string s.

(** [input]: the read, write and edit index run through [uint]. *)
Record input_t := mkinput { ibuf : list Z; ir : Z; iw : Z; ie : Z }.

Definition set_ie (v : Z) (i : input_t) : input_t := mkinput (ibuf i) (ir i) (iw i) v.
Definition set_iw (v : Z) (i : input_t) : input_t := mkinput (ibuf i) (ir i) v (ie i).
Definition set_ir (v : Z) (i : input_t) : input_t := mkinput (ibuf i) v (iw i) (ie i).

(** The static variables of [console.c], whether [cons.lock] is held, the words of
    the screen's memory, the [shift] of [kbdgetc], and the serial port with the
    hardware. *)
Record con (D : Type) := mkcon {
  panicked : Z;
  locking : Z;
  held : bool;
  crt : list Z;
  input : input_t;
  shift : Z;
  port : serial D;
}.
Arguments mkcon {D} panicked locking held crt input shift port.
Arguments panicked {D} c.
Arguments locking {D} c.
Arguments held {D} c.
Arguments crt {D} c.
Arguments input {D} c.
Arguments shift {D} c.
Arguments port {D} c.

Definition set_panicked {D} (v : Z) (s : con D) : con D := mkcon v (locking s) (held s) (crt s) (input s) (shift s) (port s).
Definition set_locking {D} (v : Z) (s : con D) : con D := mkcon (panicked s) v (held s) (crt s) (input s) (shift s) (port s).
Definition set_held {D} (v : bool) (s : con D) : con D := mkcon (panicked s) (locking s) v (crt s) (input s) (shift s) (port s).
Definition set_crt {D} (v : list Z) (s : con D) : con D := mkcon (panicked s) (locking s) (held s) v (input s) (shift s) (port s).
Definition set_input {D} (v : input_t) (s : con D) : con D := mkcon (panicked s) (locking s) (held s) (crt s) v (shift s) (port s).
Definition set_shift {D} (v : Z) (s : con D) : con D := mkcon (panicked s) (locking s) (held s) (crt s) (input s) v (port s).
Definition set_port {D} (v : serial D) (s : con D) : con D := mkcon (panicked s) (locking s) (held s) (crt s) (input s) (shift s) v.

Section Console.
Context {D : Type} {HW : Hardware D}.

Abbreviation CM := (M (con D)).

Definition on_port {A} (m : M (serial D) A) : CM A := zoom port set_port m.
Definition io {A} (m : M D A) : CM A := on_port (on_dev m).

(** [acquire(&cons.lock)] by the CPU that holds it already panics. *)
Definition lock_cons : CM unit := let! s := get in if held s then panic "acquire" else modify (set_held true).
Definition unlock_cons : CM unit := let! s := get in if held s then modify (set_held false) else panic "release".

(** [for(;;);]: the CPU does nothing more. *)
Definition spin {A} : CM A := fun _ => Stop (Panic "spin").

(** ** The screen *)

Definition put_cell (pos v : Z) : CM unit :=
  let! s := get in
  if (0 <=? pos) && (pos <? Z.of_nat (length (crt s))) then modify (set_crt (<[Z.to_nat pos := v]> (crt s)))
  else fault "crt".

(** [memmove(crt, crt+80, sizeof(crt[0])*23*80)]. *)
Definition move_up : CM unit :=
  let! s := get in
  if (1920 <=? Z.of_nat (length (crt s))) then modify (set_crt (take 1840 (drop 80 (crt s)) ++ drop 1840 (crt s)))
  else fault "crt".

(** [memset(crt+pos, 0, sizeof(crt[0])*(24*80 - pos))]. *)
Definition clear_from (pos : Z) : CM unit :=
  let! s := get in
  if (1920 <=? Z.of_nat (length (crt s))) && (0 <=? pos) && (pos <=? 1920)
  then modify (set_crt (take (Z.to_nat pos) (crt s) ++ replicate (Z.to_nat (1920 - pos)) 0 ++ drop 1920 (crt s)))
  else fault "crt".

Definition cgaputc (c : Z) : CM unit :=
  io (outb CRTPORT 14) ;;
  let! h := io (inb (CRTPORT + 1)) in
  let pos := Z.shiftl h 8 in
  io (outb CRTPORT 15) ;;
  let! l := io (inb (CRTPORT + 1)) in
  let pos := Z.lor pos l in
  let! pos :=
    (if c =? 10 then ret (pos + (80 - pos mod 80))
     else if c =? BACKSPACE then ret (if 0 <? pos then pos - 1 else pos)
     else put_cell pos (Z.lor (Z.land c 255) 1792) ;; ret (pos + 1)) in
  if (pos <? 0) || (25 * 80 <? pos) then panic "pos under/overflow"
  else
    let! pos :=
      (if 24 <=? pos / 80 then
         move_up ;;
         clear_from (pos - 80) ;;
         ret (pos - 80)
       else ret pos) in
    io (outb CRTPORT 14) ;;
    io (outb (CRTPORT + 1) (u8 (Z.shiftr pos 8))) ;;
    io (outb CRTPORT 15) ;;
    io (outb (CRTPORT + 1) (u8 pos)) ;;
    put_cell pos (Z.lor 32 1792).

Definition consputc (c : Z) : CM unit :=
  let! s := get in
  if nz (panicked s) then spin
  else
    (if c =? BACKSPACE then on_port (uartputc 8 ;; uartputc 32 ;; uartputc 8)
     else on_port (uartputc c)) ;;
    cgaputc c.

(** ** [cprintf] *)

Definition digits : list Z := text "0123456789abcdef".

(** The do-while loop, whose fuel is the width of [x]. *)
Fixpoint int_digits (fuel : nat) (x base : Z) (buf : list Z) : list Z :=
  match fuel with
  | O => buf
  | S k =>
      let buf := buf ++ [nth (Z.to_nat (x mod base)) digits 0] in
      if x / base =? 0 then buf else int_digits k (x / base) base buf
  end.

(** [buf] has 16 bytes. *)
Definition printint (xx base sign : Z) : CM unit :=
  let sign := nz sign && (xx <? 0) in
  let x := if sign then u32 (- xx) else u32 xx in
  let buf := int_digits 32 x base [] in
  let buf := if sign then buf ++ [45] else buf in
  if (length buf <=? 16)%nat then for_each (rev buf) consputc else fault "printint: buf".

(** An argument: a word, or a pointer to a string, null or with its bytes. *)
Inductive parg := AInt (x : Z) | AStr (s : option (list Z)).

Definition int_arg (ap : list parg) : CM Z :=
  match head ap with Some (AInt x) => ret x | _ => fault "argument" end.
Definition str_arg (ap : list parg) : CM (option (list Z)) :=
  match head ap with Some (AStr s) => ret s | _ => fault "argument" end.

(** The switch after a %; the arguments that are left. *)
Definition convert (c : Z) (ap : list parg) : CM (list parg) :=
  if c =? 100 then
    let! a := int_arg ap in printint (s32 a) 10 1 ;; ret (tail ap)
  else if (c =? 120) || (c =? 112) then
    let! a := int_arg ap in printint (s32 a) 16 0 ;; ret (tail ap)
  else if c =? 115 then
    let! s := str_arg ap in
    for_each (default (text "(null)") s) consputc ;;
    ret (tail ap)
  else if c =? 37 then consputc 37 ;; ret ap
  else consputc 37 ;; consputc c ;; ret ap.

Fixpoint cprintf_loop (fmt : list Z) (ap : list parg) : CM unit :=
  match fmt with
  | [] => ret tt
  | c :: fmt =>
      if negb (c =? 37) then consputc c ;; cprintf_loop fmt ap
      else match fmt with
           | [] => ret tt
           | c :: fmt => let! ap := convert c ap in cprintf_loop fmt ap
           end
  end.

Definition cprintf (fmt : option (list Z)) (ap : list parg) : CM unit :=
  let! lk := gets locking in
  when (nz lk) lock_cons ;;
  match fmt with
  | None => panic "null fmt"
  | Some fmt => cprintf_loop fmt ap
  end ;;
  when (nz lk) unlock_cons.

(** [panic] up to its last loop; [apic]: the result of [lapicid], [argp]: the
    address of the argument. *)
Definition con_panic (m : mem) (apic argp : Z) (s : option (list Z)) : CM unit :=
  modify (set_locking 0) ;;
  cprintf (Some (text "lapicid %d: panic: ")) [AInt apic] ;;
  cprintf s [] ;;
  cprintf (Some [10]) [] ;;
  for_each (getcallerpcs m argp) (fun pc => cprintf (Some (text " %p")) [AInt pc]) ;;
  modify (set_panicked 1).

(** ** The process listing ([procdump] of [proc.c]) *)

Definition state_name (s : procstate) : list Z :=
  match s with
  | UNUSED => text "unused"
  | EMBRYO => text "embryo"
  | SLEEPING => text "sleep "
  | RUNNABLE => text "runble"
  | RUNNING => text "run   "
  | ZOMBIE => text "zombie"
  end.

(** The bytes of an array before its null byte. *)
Fixpoint c_string (l : list Z) : list Z :=
  match l with
  | [] => []
  | c :: l => if c =? 0 then [] else c :: c_string l
  end.

(** The addresses before the first 0. *)
Fixpoint print_pcs (pc : list Z) : CM unit :=
  match pc with
  | [] => ret tt
  | a :: pc => if a =? 0 then ret tt else cprintf (Some (text " %p")) [AInt a] ;; print_pcs pc
  end.

Definition dump_one (m : mem) (p : proc) : CM unit :=
  if bool_decide (state p = UNUSED) then ret tt
  else
    cprintf (Some (text "%d %s %s")) [AInt (pid p); AStr (Some (state_name (state p))); AStr (Some (c_string (name p)))] ;;
    when (bool_decide (state p = SLEEPING)) (print_pcs (getcallerpcs m (ebp (regs (ctx p)) + 8))) ;;
    cprintf (Some [10]) [].

Definition procdump (m : mem) (ps : list proc) : CM unit := for_each ps (dump_one m).

(** ** Input *)

Definition upd_input (f : input_t -> input_t) : CM unit := modify (fun s => set_input (f (input s)) s).

(** [input.buf[i % INPUT_BUF]]. *)
Definition in_slot (i : Z) : nat := Z.to_nat (i mod Z.of_nat INPUT_BUF).
Definition in_byte (i : Z) : CM Z := let! s := get in deref (ibuf (input s) !! in_slot i).

(** Control-U: the fuel is the size of the ring. *)
Fixpoint kill_line (fuel : nat) : CM unit :=
  match fuel with
  | O => fault "fuel"
  | S k =>
      let! s := get in
      let i := input s in
      if ie i =? iw i then ret tt
      else
        let! c := in_byte (u32 (ie i - 1)) in
        if c =? 10 then ret tt
        else
          upd_input (set_ie (u32 (ie i - 1))) ;;
          consputc BACKSPACE ;;
          kill_line k
  end.

(** Whether [procdump] is asked for and whether readers are woken. *)
Definition intr_char (c : Z) : CM (bool * bool) :=
  let! s := get in
  let i := input s in
  if c =? C 80 then ret (true, false)
  else if c =? C 85 then kill_line (S INPUT_BUF) ;; ret (false, false)
  else if (c =? C 72) || (c =? 127) then
    (if ie i =? iw i then ret tt
     else upd_input (set_ie (u32 (ie i - 1))) ;; consputc BACKSPACE) ;;
    ret (false, false)
  else if nz c && (u32 (ie i - ir i) <? Z.of_nat INPUT_BUF) then
    let c := if c =? 13 then 10 else c in
    upd_input (fun i => mkinput (<[in_slot (ie i) := u8 c]> (ibuf i)) (ir i) (iw i) (u32 (ie i + 1))) ;;
    consputc c ;;
    let! s := get in
    let i := input s in
    if (c =? 10) || (c =? C 68) || (ie i =? u32 (ir i + Z.of_nat INPUT_BUF))
    then upd_input (set_iw (ie i)) ;; ret (false, true)
    else ret (false, false)
  else ret (false, false).

(** [fuel] bounds the characters that [getc] has. *)
Fixpoint intr_loop (fuel : nat) (getc : CM Z) (doprocdump woken : bool) : CM (bool * bool) :=
  match fuel with
  | O => fault "fuel"
  | S k =>
      let! c := getc in
      if c <? 0 then ret (doprocdump, woken)
      else
        let! (d, w) := intr_char c in
        intr_loop k getc (doprocdump || d) (woken || w)
  end.

(** [dump]: the call of [procdump].  The result: whether [wakeup(&input.r)] was
    called. *)
Definition consoleintr (fuel : nat) (dump : CM unit) (getc : CM Z) : CM bool :=
  lock_cons ;;
  let! (doprocdump, woken) := intr_loop fuel getc false false in
  unlock_cons ;;
  when doprocdump dump ;;
  ret woken.

(** How a segment of [consoleread] ends: with the result and the bytes stored, or
    asleep on [&input.r] with [n] bytes wanted and some stored. *)
Inductive cres := CRet (r : Z) (bytes : list Z) | CSleep (n : nat) (bytes : list Z).

(** The loop from where [n] bytes are wanted of [target] and [got] are stored. *)
Fixpoint read_loop (n : nat) (target : nat) (killed : bool) (got : list Z) : CM cres :=
  match n with
  | O => ret (CRet (Z.of_nat target) got)
  | S k =>
      let! s := get in
      let i := input s in
      if ir i =? iw i then ret (if killed then CRet (-1) got else CSleep n got)
      else
        let! c := in_byte (ir i) in
        upd_input (set_ir (u32 (ir i + 1))) ;;
        if c =? C 68 then
          when (n <? target)%nat (upd_input (fun i => set_ir (u32 (ir i - 1)) i)) ;;
          ret (CRet (Z.of_nat (target - n)) got)
        else if c =? 10 then ret (CRet (Z.of_nat (target - k)) (got ++ [c]))
        else read_loop k target killed (got ++ [c])
  end.

(** From the call, or from the wakeup of [sleep], to the return or the next
    [sleep]; [iunlock], [ilock]: these calls on the inode. *)
Definition read_segment (ilock : CM unit) (n target : nat) (killed : bool) (got : list Z) : CM cres :=
  lock_cons ;;
  let! r := read_loop n target killed got in
  unlock_cons ;;
  match r with
  | CRet _ _ => ilock
  | CSleep _ _ => ret tt
  end ;;
  ret r.

Definition consoleread (iunlock ilock : CM unit) (n : Z) (killed : bool) : CM cres :=
  iunlock ;;
  read_segment ilock (Z.to_nat n) (Z.to_nat n) killed [].

Definition consolewrite (iunlock ilock : CM unit) (buf : list Z) (n : Z) : CM Z :=
  iunlock ;;
  lock_cons ;;
  for_each (indices (Z.to_nat n)) (fun i => let! c := deref (buf !! i) in consputc (Z.land c 255)) ;;
  unlock_cons ;;
  ilock ;;
  ret n.

(** The console's entry of [devsw] is [consoleread] and [consolewrite]. *)
Definition consoleinit : CM unit :=
  modify (set_held false) ;;
  modify (set_locking 1) ;;
  io (ioapicenable IRQ_KBD 0).

End Console.
