(* ===== verification/Kbd.v ===== *)
(** * The keyboard ([kbd.c], [kbd.h])

    The key maps, the decoding of scan codes and the interrupt handlers that feed
    the console; every character that has a key can be typed with it. *)
From S2P Require Import Prelude Hw Str Proc Console.

Definition KBSTATP : Z := 100.
Definition KBS_DIB : Z := 1.
Definition KBDATAP : Z := 96.
Definition SHIFT : Z := 1.
Definition CTL : Z := 2.
Definition ALT : Z := 4.
Definition CAPSLOCK : Z := 8.
Definition NUMLOCK : Z := 16.
Definition SCROLLLOCK : Z := 32.
Definition E0ESC : Z := 64.
Definition KEY_HOME : Z := 224.
Definition KEY_END : Z := 225.
Definition KEY_UP : Z := 226.
Definition KEY_DN : Z := 227.
Definition KEY_LF : Z := 228.
Definition KEY_RT : Z := 229.
Definition KEY_PGUP : Z := 230.
Definition KEY_PGDN : Z := 231.
Definition KEY_INS : Z := 232.
Definition KEY_DEL : Z := 233.

(** An array of 256 bytes given by its first elements and by single ones. *)
Definition array256 (first : list Z) (at_ : list (nat * Z)) : list Z :=
  foldl (fun l x => <[fst x := snd x]> l) (first ++ replicate (256 - length first) 0) at_.

Definition shiftcode : list Z :=
  array256 [] [(29, CTL); (42, SHIFT); (54, SHIFT); (56, ALT); (157, CTL); (184, ALT)]%nat.

Definition togglecode : list Z := array256 [] [(58, CAPSLOCK); (69, NUMLOCK); (70, SCROLLLOCK)]%nat.

(** The entries that the three maps share. *)
Definition keypad : list (nat * Z) :=
  [(200, KEY_UP); (208, KEY_DN); (201, KEY_PGUP); (209, KEY_PGDN); (203, KEY_LF); (205, KEY_RT);
   (151, KEY_HOME); (207, KEY_END); (210, KEY_INS); (211, KEY_DEL)]%nat.

Definition normalmap : list Z :=
  array256
    ([0; 27] ++ text "1234567890-=" ++ [8; 9] ++
     text "qwertyuiop[]" ++ [10; 0] ++
     text "asdfghjkl;'`" ++ [0] ++
     text "\zxcvbnm,./" ++ [0] ++ text "*" ++
     [0] ++ text " " ++ replicate 6 0 ++
     replicate 7 0 ++ text "789-456+1230." ++ replicate 4 0)
    ([(156%nat, 10); (181%nat, 47)] ++ keypad).

Definition shiftmap : list Z :=
  array256
    ([0; 27] ++ text "!@#$%^&*()_+" ++ [8; 9] ++
     text "QWERTYUIOP{}" ++ [10; 0] ++
     text "ASDFGHJKL:" ++ [34] ++ text "~" ++ [0] ++
     text "|ZXCVBNM<>?" ++ [0] ++ text "*" ++
     [0] ++ text " " ++ replicate 6 0 ++
     replicate 7 0 ++ text "789-456+1230." ++ replicate 4 0)
    ([(156%nat, 10); (181%nat, 47)] ++ keypad).

(** [C('/')] is -17, a byte 239. *)
Definition ctlmap : list Z :=
  array256
    (replicate 16 0 ++
     (C <$> text "QWERTYUIOP") ++ [0; 0; 13; 0] ++
     (C <$> text "ASDFGHJKL") ++ [0; 0; 0; 0] ++
     (C <$> text "\ZXCVBNM") ++ [0; 0; u8 (C 47); 0; 0])
    ([(156%nat, 13); (181%nat, u8 (C 47))] ++ keypad).

Definition charcode : list (list Z) := [normalmap; shiftmap; ctlmap; ctlmap].

Section Kbd.
Context {D : Type} {HW : Hardware D}.

Abbreviation CM := (M (con D)).

Definition byte_at {S} (l : list Z) (i : Z) : M S Z :=
  if 0 <=? i then deref (l !! Z.to_nat i) else fault "kbd".

Definition set_mods (v : Z) : CM unit := modify (set_shift v).

(** [c += 'A' - 'a'] and back. *)
Definition swap_case (c : Z) : Z :=
  if (97 <=? c) && (c <=? 122) then u32 (c - 32)
  else if (65 <=? c) && (c <=? 90) then u32 (c + 32)
  else c.

Definition kbdgetc : CM Z :=
  let! st := io (inb KBSTATP) in
  if Z.land st KBS_DIB =? 0 then ret (-1)
  else
    let! data := io (inb KBDATAP) in
    let! sh := gets shift in
    if data =? 224 then set_mods (Z.lor sh E0ESC) ;; ret 0
    else if nz (Z.land data 128) then
      let data := if nz (Z.land sh E0ESC) then data else Z.land data 127 in
      let! m := byte_at shiftcode data in
      set_mods (Z.land sh (Z.lnot (Z.lor m E0ESC))) ;;
      ret 0
    else
      let esc := nz (Z.land sh E0ESC) in
      let data := if esc then Z.lor data 128 else data in
      let sh := if esc then Z.land sh (Z.lnot E0ESC) else sh in
      let! m := byte_at shiftcode data in
      let! t := byte_at togglecode data in
      let sh := Z.lxor (Z.lor sh m) t in
      set_mods sh ;;
      let! map := deref (charcode !! Z.to_nat (Z.land sh (Z.lor CTL SHIFT))) in
      let! c := byte_at map data in
      ret (if nz (Z.land sh CAPSLOCK) then swap_case c else c).

Definition kbdintr (fuel : nat) (dump : CM unit) : CM bool := consoleintr fuel dump kbdgetc.

(** [uartintr] of [uart.c]. *)
Definition uartintr (fuel : nat) (dump : CM unit) : CM bool := consoleintr fuel dump (on_port uartgetc).

End Kbd.
