(* ===== verification/ConsoleScreen.v ===== *)
(** * The screen of the console ([console.c])

    Over any hardware with a cursor, a keyboard and a serial port, [consputc],
    [cprintf] and [procdump] never fail and the screen shows what a plain terminal
    shows. *)
From S2P Require Import Prelude Hw Str Proc Console Kbd.

(** ** The hardware *)

(** The register selected on the screen's controller, the two bytes of its cursor,
    the scan codes and the serial bytes that wait to be read. *)
Record tdev := mktdev { t_sel : Z; t_hi : Z; t_lo : Z; t_codes : list Z; t_bytes : list Z }.

Definition t_select (v : Z) (t : tdev) : tdev := mktdev v (t_hi t) (t_lo t) (t_codes t) (t_bytes t).
Definition t_data (t : tdev) : Z := if t_sel t =? 14 then t_hi t else t_lo t.
Definition t_store (v : Z) (t : tdev) : tdev :=
  if t_sel t =? 14 then mktdev (t_sel t) v (t_lo t) (t_codes t) (t_bytes t)
  else mktdev (t_sel t) (t_hi t) v (t_codes t) (t_bytes t).

Class Terminal (D : Type) `{Hardware D} := {
  trepr : D -> tdev -> Prop;
  tm_bytes d t : trepr d t -> 0 <= t_hi t < 256 /\ 0 <= t_lo t < 256 /\ Forall (fun c => 0 <= c < 256) (t_codes t ++ t_bytes t);
  tm_select d t v : trepr d t -> wp (outb CRTPORT v) d (fun _ d' => trepr d' (t_select v t));
  tm_data d t : trepr d t -> t_sel t = 14 \/ t_sel t = 15 -> wp (inb (CRTPORT + 1)) d (fun r d' => r = t_data t /\ trepr d' t);
  tm_store d t v : trepr d t -> t_sel t = 14 \/ t_sel t = 15 -> 0 <= v < 256 ->
    wp (outb (CRTPORT + 1) v) d (fun _ d' => trepr d' (t_store v t));
  tm_status d t : trepr d t ->
    wp (inb KBSTATP) d (fun r d' => (Z.land r KBS_DIB =? 0) = bool_decide (t_codes t = []) /\ trepr d' t);
  tm_code d t c cs : trepr d t -> t_codes t = c :: cs ->
    wp (inb KBDATAP) d (fun r d' => r = c /\ trepr d' (mktdev (t_sel t) (t_hi t) (t_lo t) cs (t_bytes t)));
  tm_line d t : trepr d t ->
    wp (inb (COM1 + 5)) d (fun r d' => (Z.land r 1 =? 0) = bool_decide (t_bytes t = []) /\ trepr d' t);
  tm_recv d t c cs : trepr d t -> t_bytes t = c :: cs ->
    wp (inb COM1) d (fun r d' => r = c /\ trepr d' (mktdev (t_sel t) (t_hi t) (t_lo t) (t_codes t) cs));
  tm_send d t v : trepr d t -> wp (outb COM1 v) d (fun _ d' => trepr d' t);
}.

(** ** A plain terminal *)

(** What a cell shows: its character, and nothing for 0. *)
Definition glyph (v : Z) : Z := let b := Z.land v 255 in if b =? 0 then 32 else b.

(** The characters before the cursor, on at most 24 rows of 80: a newline fills
    the row, a backspace takes one back, and a full screen loses its first row. *)
Definition term (t : list Z) (c : Z) : list Z :=
  let t :=
    if c =? 10 then t ++ replicate (80 - length t mod 80) 32
    else if c =? BACKSPACE then take (length t - 1) t
    else t ++ [glyph c] in
  if 1920 <=? Z.of_nat (length t) then drop 80 t else t.

(** ** The memory of the screen *)

Section Cells.
Context (n : nat).

(** The first [n] cells show [t] and blanks after it. *)
Definition cells (m t : list Z) : Prop :=
  (n + 80 <= length m)%nat /\ (length t <= n)%nat /\ glyph <$> take n m = t ++ replicate (n - length t) 32.

Lemma insert_at_end {A} (l : list A) x y k : <[length l := x]> (l ++ y :: k) = l ++ x :: k.
Proof. rewrite <- (Nat.add_0_r (length l)), insert_app_r. done. Qed.

Lemma cells_put m t v : cells m t -> (length t < n)%nat -> cells (<[length t := v]> m) (t ++ [glyph v]).
Proof.
  intros (Hm & Hl & E) Ht. split_and!; [by rewrite length_insert|rewrite length_app; cbn; lia|].
  rewrite take_insert_lt, list_fmap_insert, E by lia. rewrite length_app. cbn [length].
  replace (n - length t)%nat with (S (n - (length t + 1))) by lia. cbn [replicate]. rewrite insert_at_end. by rewrite <- app_assoc.
Qed.

Lemma cells_blank m t v : cells m t -> glyph v = 32 -> cells (<[length t := v]> m) t.
Proof.
  intros (Hm & Hl & E) Hv. split_and!; [by rewrite length_insert|done|].
  destruct (decide (length t = n)%nat) as [E'|]; [by rewrite take_insert_ge by lia|].
  rewrite take_insert_lt, list_fmap_insert, E, Hv by lia.
  replace (n - length t)%nat with (S (n - S (length t))) by lia. cbn [replicate]. by rewrite insert_at_end.
Qed.

Lemma cells_back m t x v : cells m (t ++ [x]) -> glyph v = 32 -> cells (<[length t := v]> m) t.
Proof.
  intros (Hm & Hl & E) Hv. rewrite length_app in Hl, E. cbn [length] in Hl, E. split_and!; [by rewrite length_insert|lia|].
  rewrite take_insert_lt, list_fmap_insert, E, Hv by lia. rewrite <- app_assoc. cbn [app]. rewrite insert_at_end.
  by replace (n - length t)%nat with (S (n - (length t + 1))) by lia.
Qed.

Lemma cells_fill m t k : cells m t -> (length t + k <= n)%nat -> cells m (t ++ replicate k 32).
Proof.
  intros (Hm & Hl & E) Hk. split_and!; [done|rewrite length_app, length_replicate; lia|].
  rewrite E, <- app_assoc, <- replicate_add, length_app, length_replicate. do 2 f_equal. lia.
Qed.

Lemma cells_scroll m t : cells m t -> length t = n ->
  (80 <= n)%nat -> let m1 := take (n - 80) (drop 80 m) ++ drop (n - 80) m in
  cells (take (n - 80) m1 ++ replicate 80 0 ++ drop n m1) (drop 80 t).
Proof.
  intros (Hm & Hl & E) Ht Hn m1.
  assert (length (take (n - 80) (drop 80 m)) = (n - 80)%nat) as L1 by (rewrite length_take, length_drop; lia).
  assert (take (n - 80) m1 = take (n - 80) (drop 80 m)) as -> by (unfold m1; by rewrite take_app_length').
  assert (length m1 = length m) as L2 by (unfold m1; rewrite length_app, L1, length_drop; lia).
  split_and!; [rewrite !length_app, L1, length_replicate, length_drop; lia|rewrite length_drop; lia|].
  rewrite app_assoc, take_app_length' by (rewrite length_app, L1, length_replicate; lia).
  rewrite fmap_app, fmap_replicate. change (glyph 0) with 32. rewrite length_drop, Ht. f_equal; [|f_equal; lia].
  rewrite Ht, Nat.sub_diag in E. cbn [replicate] in E. rewrite app_nil_r in E.
  rewrite <- E, <- fmap_drop, skipn_firstn_comm. done.
Qed.

End Cells.

(** The end of the row of cell [n]. *)
Lemma row_end n : Z.of_nat n < 1920 ->
  (n + (80 - n mod 80) <= 1920)%nat /\ Z.of_nat (n + (80 - n mod 80)) = Z.of_nat n + (80 - Z.of_nat n mod 80).
Proof.
  intros Hn. pose proof (Nat2Z.inj_mod n 80) as Em. change (Z.of_nat 80) with 80 in Em. rewrite <- Em.
  pose proof (Nat.div_mod_eq n 80) as E. pose proof (Nat.mod_upper_bound n 80 ltac:(done)).
  set (q := (n / 80)%nat) in *. set (r := (n mod 80)%nat) in *. clearbody q r. lia.
Qed.

(** ** What [cprintf] prints *)

Definition int_text (xx base sign : Z) : list Z :=
  let neg := nz sign && (xx <? 0) in
  rev (int_digits 32 (if neg then u32 (- xx) else u32 xx) base [] ++ if neg then [45] else []).

(** The text of one conversion and the arguments after it. *)
Definition convert_text (c : Z) (ap : list parg) : option (list Z * list parg) :=
  if c =? 100 then match ap with AInt x :: ap => Some (int_text (s32 x) 10 1, ap) | _ => None end
  else if (c =? 120) || (c =? 112) then match ap with AInt x :: ap => Some (int_text (s32 x) 16 0, ap) | _ => None end
  else if c =? 115 then match ap with AStr s :: ap => Some (default (text "(null)") s, ap) | _ => None end
  else if c =? 37 then Some ([37], ap)
  else Some ([37; c], ap).

(** None when an argument is missing or of the other kind. *)
Fixpoint format (fmt : list Z) (ap : list parg) : option (list Z) :=
  match fmt with
  | [] => Some []
  | c :: fmt =>
      if negb (c =? 37) then cons c <$> format fmt ap
      else match fmt with
           | [] => Some []
           | c :: fmt => '(cs, ap) ← convert_text c ap; app cs <$> format fmt ap
           end
  end.

Lemma int_digits_length base fuel : forall x buf k, 2 <= base -> 0 <= x < base ^ Z.of_nat k -> (1 <= k)%nat ->
  (length (int_digits fuel x base buf) <= length buf + k)%nat.
Proof.
  induction fuel as [|fuel IH]; intros x buf k Hb Hx Hk; cbn [int_digits]; [lia|].
  destruct (Z.eqb_spec (x / base) 0) as [E|E]; [rewrite length_app; cbn; lia|].
  destruct k as [|[|k]]; [lia| |].
  - exfalso. apply E, Z.div_small. rewrite Z.pow_1_r in Hx. lia.
  - specialize (IH (x / base) (buf ++ [nth (Z.to_nat (x mod base)) digits 0]) (S k) Hb). rewrite length_app in IH. cbn [length] in IH.
    enough (0 <= x / base < base ^ Z.of_nat (S k)) by (specialize (IH ltac:(done) ltac:(lia)); lia).
    replace (Z.of_nat (S (S k))) with (Z.succ (Z.of_nat (S k))) in Hx by lia. rewrite Z.pow_succ_r in Hx by lia.
    split; [apply Z.div_pos; lia|apply Z.div_lt_upper_bound; lia].
Qed.

Lemma int_text_length xx base sign : base = 10 \/ base = 16 -> (length (int_text xx base sign) <= 16)%nat.
Proof.
  intros Hb. unfold int_text. rewrite length_rev, length_app. set (x := if nz sign && (xx <? 0) then _ else _).
  assert (0 <= x < 4294967296) as Hx by (unfold x; destruct (_ && _); apply u32_range).
  pose proof (int_digits_length base 32 x [] 10) as H. cbn [length Nat.add] in H.
  assert (x < base ^ Z.of_nat 10) by (destruct Hb as [-> | ->]; [change (10 ^ Z.of_nat 10) with 10000000000|change (16 ^ Z.of_nat 10) with 1099511627776]; lia).
  destruct (_ && _); cbn [length]; lia.
Qed.

Section Screen.
Context {D : Type} {HW : Hardware D} {TM : Terminal D}.
Implicit Types s : con D.

(** The screen shows [t]; [codes] and [bytes] wait at the keyboard and at the
    serial port. *)
Definition screen s (t codes bytes : list Z) : Prop :=
  panicked s = 0 /\ Z.of_nat (length t) < 1920 /\ cells 1920 (crt s) t /\
  exists a, trepr (sdev (port s)) a /\ t_hi a * 256 + t_lo a = Z.of_nat (length t) /\ t_codes a = codes /\ t_bytes a = bytes.

(** Everything but the screen and the hardware. *)
Definition keeps s s' : Prop :=
  locking s' = locking s /\ held s' = held s /\ input s' = input s /\ shift s' = shift s /\ uart (port s') = uart (port s).

Lemma con_keeps_refl s : keeps s s.
Proof. by split_and!. Qed.

Lemma con_keeps_trans s1 s2 s3 : keeps s1 s2 -> keeps s2 s3 -> keeps s1 s3.
Proof. unfold keeps. intros (? & ? & ? & ? & ?) (? & ? & ? & ? & ?). split_and!; congruence. Qed.

(** The hardware alone. *)
Definition with_dev (d : D) s : con D := set_port (mkserial (uart (port s)) d) s.

Lemma io_run {A} (m : M D A) s (Q : A -> con D -> Prop) :
  wp m (sdev (port s)) (fun a d => Q a (with_dev d s)) -> wp (io m) s Q.
Proof. intros H. unfold io, on_port, on_dev. by apply wp_zoom, wp_zoom. Qed.

Lemma glyph_cell c : glyph (Z.lor (Z.land c 255) 1792) = glyph c.
Proof.
  unfold glyph. rewrite Z.land_lor_distr_l. change (Z.land 1792 255) with 0. rewrite Z.lor_0_r.
  by rewrite <- Z.land_assoc.
Qed.

Lemma put_cell_run pos v s (Q : unit -> con D -> Prop) : 0 <= pos < Z.of_nat (length (crt s)) ->
  Q tt (set_crt (<[Z.to_nat pos := v]> (crt s)) s) -> wp (put_cell pos v) s Q.
Proof.
  intros Hp HQ. unfold put_cell. apply wp_bind, wp_gets. rewrite (proj2 (Z.leb_le _ _)), (proj2 (Z.ltb_lt _ _)) by lia. by apply wp_modify.
Qed.

(** Reading and writing the cursor. *)
Lemma select_run v s a (Q : unit -> con D -> Prop) : trepr (sdev (port s)) a ->
  (forall d, trepr d (t_select v a) -> Q tt (with_dev d s)) -> wp (io (outb CRTPORT v)) s Q.
Proof. intros HR HQ. apply io_run. eapply wp_mono; [by apply (tm_select _ a)|]. cbn beta. intros [] d H. auto. Qed.

Lemma data_run s a (Q : Z -> con D -> Prop) : trepr (sdev (port s)) a -> t_sel a = 14 \/ t_sel a = 15 ->
  (forall d, trepr d a -> Q (t_data a) (with_dev d s)) -> wp (io (inb (CRTPORT + 1))) s Q.
Proof. intros HR Hs HQ. apply io_run. eapply wp_mono; [by apply (tm_data _ a)|]. cbn beta. intros r d [-> H]. auto. Qed.

Lemma store_run v s a (Q : unit -> con D -> Prop) : trepr (sdev (port s)) a -> t_sel a = 14 \/ t_sel a = 15 -> 0 <= v < 256 ->
  (forall d, trepr d (t_store v a) -> Q tt (with_dev d s)) -> wp (io (outb (CRTPORT + 1) v)) s Q.
Proof. intros HR Hs Hv HQ. apply io_run. eapply wp_mono; [by apply (tm_store _ a)|]. cbn beta. intros [] d H. auto. Qed.

(** A word in two bytes. *)
Lemma word_bytes h l : 0 <= h < 256 -> 0 <= l < 256 -> Z.lor (Z.shiftl h 8) l = h * 256 + l.
Proof.
  intros Hh Hl. assert (Z.land (Z.shiftl h 8) l = 0) as E.
  { apply Z.bits_inj'. intros n Hn. rewrite Z.land_spec, Z.bits_0. destruct (Z.lt_ge_cases n 8).
    - by rewrite Z.shiftl_spec_low.
    - replace (Z.testbit l n) with false; [by rewrite andb_false_r|]. symmetry.
      rewrite <- (Z.mod_small l (2 ^ 8)) by (change (2 ^ 8) with 256; lia). by apply Z.mod_pow2_bits_high. }
  rewrite <- Z.lxor_lor, <- Z.add_nocarry_lxor, Z.shiftl_mul_pow2 by (done || lia). done.
Qed.

Lemma cells_length n m t : cells n m t -> (n + 80 <= length m)%nat.
Proof. by intros [? _]. Qed.

(** The cells show [t], except perhaps where the cursor is. *)
Definition nearly (m t : list Z) : Prop := cells 1920 m t \/ exists x, cells 1920 m (t ++ [x]).

Lemma nearly_blank m t v : nearly m t -> glyph v = 32 -> cells 1920 (<[length t := v]> m) t.
Proof. intros [H|[x H]] Hv; [by apply cells_blank|by eapply cells_back]. Qed.

Lemma nearly_length m t : nearly m t -> (1920 + 80 <= length m)%nat /\ (length t <= 1920)%nat.
Proof. intros [(H1 & H2 & _)|[x (H1 & H2 & _)]]; [done|]. rewrite length_app in H2. lia. Qed.

(** The rows move up when the cursor leaves the last one. *)
Definition wrapped (t : list Z) : list Z := if 1920 <=? Z.of_nat (length t) then drop 80 t else t.

Lemma scroll_run s t (Q : Z -> con D -> Prop) : nearly (crt s) t ->
  (forall m, nearly m (wrapped t) -> Q (Z.of_nat (length (wrapped t))) (set_crt m s)) ->
  wp (if 24 <=? Z.of_nat (length t) / 80 then move_up ;; clear_from (Z.of_nat (length t) - 80) ;; ret (Z.of_nat (length t) - 80)
      else ret (Z.of_nat (length t))) s Q.
Proof.
  intros Hc HQ. pose proof (nearly_length _ _ Hc) as (Hm & Hl). unfold wrapped in HQ.
  destruct (Z.leb_spec 1920 (Z.of_nat (length t))) as [H|H].
  - assert (length t = 1920)%nat as E by lia. rewrite E. change (24 <=? Z.of_nat 1920 / 80) with true. cbn iota.
    destruct Hc as [Hc|[x (_ & Hc & _)]]; [|rewrite length_app in Hc; cbn in Hc; lia].
    change (Z.of_nat 1920 - 80) with 1840. unfold move_up, clear_from.
    apply wp_bind, wp_bind, wp_gets. rewrite (proj2 (Z.leb_le _ _)) by lia. apply wp_modify, wp_bind, wp_bind, wp_gets. cbn [crt set_crt].
    rewrite (proj2 (Z.leb_le 1920 _)) by (rewrite length_app, length_take, !length_drop; lia). cbn [andb Z.leb Z.compare Pos.compare Pos.compare_cont].
    apply wp_modify, wp_ret. pose proof (cells_scroll 1920 _ _ Hc E ltac:(lia)) as C1.
    replace 1840 with (Z.of_nat (length (drop 80 t))) at 1 by (rewrite length_drop; lia). apply HQ. by left.
  - replace (24 <=? Z.of_nat (length t) / 80) with false; [|symmetry; apply Z.leb_gt; Z.to_euclidean_division_equations; lia].
    apply wp_ret. specialize (HQ (crt s) Hc). by destruct s.
Qed.

(** Where the cursor goes, and what the cells before it show. *)
Definition moved (t : list Z) (c : Z) : list Z :=
  if c =? 10 then t ++ replicate (80 - length t mod 80) 32
  else if c =? BACKSPACE then take (length t - 1) t
  else t ++ [glyph c].

Lemma term_moved t c : term t c = wrapped (moved t c).
Proof. done. Qed.

Lemma move_run c s t (Q : Z -> con D -> Prop) : cells 1920 (crt s) t -> Z.of_nat (length t) < 1920 ->
  (forall m, nearly m (moved t c) -> Q (Z.of_nat (length (moved t c))) (set_crt m s)) ->
  wp (if c =? 10 then ret (Z.of_nat (length t) + (80 - Z.of_nat (length t) mod 80))
      else if c =? BACKSPACE then ret (if 0 <? Z.of_nat (length t) then Z.of_nat (length t) - 1 else Z.of_nat (length t))
      else put_cell (Z.of_nat (length t)) (Z.lor (Z.land c 255) 1792) ;; ret (Z.of_nat (length t) + 1)) s Q.
Proof.
  intros Hc Ht HQ. pose proof (cells_length _ _ _ Hc) as Hm. unfold moved in HQ. destruct (c =? 10); [|destruct (c =? BACKSPACE)].
  - apply wp_ret. specialize (HQ (crt s)). rewrite length_app, length_replicate in HQ.
    destruct (row_end (length t) Ht) as [Hb <-].
    assert (s = set_crt (crt s) s) as E by (by destruct s). rewrite E at 1. apply HQ. left. by apply cells_fill.
  - apply wp_ret. specialize (HQ (crt s)). assert (s = set_crt (crt s) s) as E by (by destruct s). rewrite E at 1.
    destruct t as [|x t _] using rev_ind; [by apply HQ; left|].
    rewrite length_app in HQ |- *. cbn [length] in HQ |- *. rewrite Nat.add_sub, take_app_length in HQ.
    rewrite (proj2 (Z.ltb_lt _ _)) by lia. replace (Z.of_nat (length t + 1) - 1) with (Z.of_nat (length t)) by lia. apply HQ. right. by exists x.
  - apply wp_bind, put_cell_run; [lia|]. apply wp_ret. rewrite Nat2Z.id. rewrite length_app in HQ. cbn [length] in HQ.
    replace (Z.of_nat (length t) + 1) with (Z.of_nat (length t + 1)) by lia. apply HQ. left. rewrite <- glyph_cell. apply cells_put; [done|lia].
Qed.

(** The eight bits above and below of a cursor position. *)
Lemma cursor_bytes n : Z.of_nat n <= 2000 ->
  0 <= u8 (Z.shiftr (Z.of_nat n) 8) < 256 /\ 0 <= u8 (Z.of_nat n) < 256 /\ u8 (Z.shiftr (Z.of_nat n) 8) * 256 + u8 (Z.of_nat n) = Z.of_nat n.
Proof.
  intros Hn. rewrite Z.shiftr_div_pow2 by lia. change (2 ^ 8) with 256.
  pose proof (u8_range (Z.of_nat n)). pose proof (u8_range (Z.of_nat n / 256)). unfold u8 in *. split_and!; try lia.
  Z.to_euclidean_division_equations. lia.
Qed.

Lemma moved_length t c : Z.of_nat (length t) < 1920 -> (length (moved t c) <= 1920)%nat /\ Z.of_nat (length (wrapped (moved t c))) < 1920.
Proof.
  intros Ht. assert (length (moved t c) <= 1920)%nat as H.
  { unfold moved. destruct (c =? 10); [|destruct (c =? BACKSPACE)]; rewrite ?length_app, ?length_replicate, ?length_take; cbn [length]; [|lia..].
    by apply row_end. }
  split; [done|]. unfold wrapped. destruct (Z.leb_spec 1920 (Z.of_nat (length (moved t c)))); [rewrite length_drop|]; lia.
Qed.

Lemma cgaputc_run c s t codes bytes (Q : unit -> con D -> Prop) : screen s t codes bytes ->
  (forall s', screen s' (term t c) codes bytes -> keeps s s' -> Q tt s') -> wp (cgaputc c) s Q.
Proof.
  intros (Hp & Ht & Hc & a & HR & Ha & Hcs & Hbs) HQ. destruct (tm_bytes _ _ HR) as (Hh & Hl & _). unfold cgaputc.
  apply wp_bind. eapply select_run; [exact HR|]. clear HR. intros d1 HR.
  apply wp_bind. eapply data_run; [exact HR|by left|]. clear HR. intros d2 HR. cbn zeta.
  apply wp_bind. eapply select_run; [exact HR|]. clear HR. intros d3 HR.
  apply wp_bind. eapply data_run; [exact HR|by right|]. clear HR. intros d4 HR. cbn zeta.
  cbn [t_data t_select t_sel t_hi t_lo Z.eqb Pos.eqb]. rewrite word_bytes, Ha by done.
  destruct (moved_length t c Ht) as [L1 L2]. rewrite term_moved in HQ.
  apply wp_bind, (move_run c _ t); [done|done|]. intros m1 N1.
  rewrite (proj2 (Z.ltb_ge _ _)), (proj2 (Z.ltb_ge _ _)) by lia. cbn [orb].
  apply wp_bind, (scroll_run _ (moved t c)); [exact N1|]. intros m2 N2.
  destruct (cursor_bytes (length (wrapped (moved t c)))) as (B1 & B2 & B3); [lia|].
  apply wp_bind. eapply select_run; [exact HR|]. clear HR. intros d5 HR.
  apply wp_bind. eapply store_run; [exact HR|by left|done|]. clear HR. intros d6 HR.
  apply wp_bind. eapply select_run; [exact HR|]. clear HR. intros d7 HR.
  apply wp_bind. eapply store_run; [exact HR|by right|done|]. clear HR. intros d8 HR.
  cbn [t_store t_data t_select t_sel t_hi t_lo t_codes t_bytes Z.eqb Pos.eqb] in HR.
  pose proof (nearly_length _ _ N2) as [Hm _].
  apply put_cell_run; [change (0 <= Z.of_nat (length (wrapped (moved t c))) < Z.of_nat (length m2)); lia|].
  apply HQ; [|by split_and!]. split_and!; [done|done| |].
  - change (cells 1920 (<[Z.to_nat (Z.of_nat (length (wrapped (moved t c)))) := Z.lor 32 1792]> m2) (wrapped (moved t c))).
    rewrite Nat2Z.id. by apply nearly_blank.
  - eexists. split; [exact HR|]. by cbn [t_hi t_lo t_codes t_bytes].
Qed.

(** The serial port takes a character without touching the rest. *)
Lemma wait_transmit_run k d a (Q : unit -> D -> Prop) : trepr d a -> (forall d', trepr d' a -> Q tt d') -> wp (wait_transmit k) d Q.
Proof.
  revert d. induction k as [|k IH]; intros d HR HQ; cbn [wait_transmit]; [by apply wp_ret, HQ|].
  eapply wp_seq; [by apply (tm_line _ a)|]. cbn beta. intros r d' [_ HR']. destruct (_ =? 0); [by apply IH|by apply wp_ret, HQ].
Qed.

Lemma uartputc_run c (p : serial D) a (Q : unit -> serial D -> Prop) : trepr (sdev p) a ->
  (forall d, trepr d a -> Q tt (mkserial (uart p) d)) -> wp (uartputc c) p Q.
Proof.
  intros HR HQ. unfold uartputc. apply wp_bind, wp_gets. destruct (uart p =? 0).
  - apply wp_ret. specialize (HQ _ HR). by destruct p.
  - apply wp_zoom, wp_bind, (wait_transmit_run _ _ a); [done|]. intros d HR1.
    eapply wp_mono; [by apply (tm_send _ a)|]. cbn beta. intros [] d' HR2. auto.
Qed.

Lemma consputc_run c s t codes bytes (Q : unit -> con D -> Prop) : screen s t codes bytes ->
  (forall s', screen s' (term t c) codes bytes -> keeps s s' -> Q tt s') -> wp (consputc c) s Q.
Proof.
  intros Hs HQ. pose proof Hs as (Hp & Ht & Hc & a & HR & Ha & Hcs & Hbs). unfold consputc. apply wp_bind, wp_gets. rewrite Hp. cbn [nz Z.eqb negb].
  assert (Hend : forall d, trepr d a -> wp (cgaputc c) (set_port (mkserial (uart (port s)) d) s) Q).
  { intros d HR'. eapply (cgaputc_run c _ t codes bytes); [split_and!; [done..|]; by exists a|]. intros s' H1 H2. by apply HQ. }
  apply wp_bind. destruct (c =? BACKSPACE); apply wp_zoom.
  - apply wp_bind, (uartputc_run _ _ a); [done|]. intros d1 H1. apply wp_bind, (uartputc_run _ _ a); [done|]. intros d2 H2.
    apply (uartputc_run _ _ a); [done|]. intros d3 H3. by apply Hend.
  - apply (uartputc_run _ _ a); [done|]. intros d1 H1. by apply Hend.
Qed.

Lemma consputs_run cs s t codes bytes (Q : unit -> con D -> Prop) : screen s t codes bytes ->
  (forall s', screen s' (foldl term t cs) codes bytes -> keeps s s' -> Q tt s') -> wp (for_each cs consputc) s Q.
Proof.
  revert s t. induction cs as [|c cs IH]; intros s t Hs HQ; cbn [for_each]; [by apply wp_ret, HQ; [|apply con_keeps_refl]|].
  apply wp_bind. eapply consputc_run; [exact Hs|]. intros s1 H1 K1. eapply IH; [exact H1|]. intros s2 H2 K2.
  apply HQ; [exact H2|by eapply con_keeps_trans].
Qed.

Lemma con_printint_run xx base sign s t codes bytes (Q : unit -> con D -> Prop) : base = 10 \/ base = 16 -> screen s t codes bytes ->
  (forall s', screen s' (foldl term t (int_text xx base sign)) codes bytes -> keeps s s' -> Q tt s') -> wp (printint xx base sign) s Q.
Proof.
  intros Hb Hs HQ. pose proof (int_text_length xx base sign Hb) as Hl. unfold printint, int_text in *. cbv zeta in *.
  rewrite length_rev in Hl. destruct (nz sign && (xx <? 0)); rewrite ?app_nil_r in *; rewrite (proj2 (Nat.leb_le _ _) Hl); by eapply consputs_run.
Qed.

Lemma convert_run c ap cs ap' s t codes bytes (Q : list parg -> con D -> Prop) : convert_text c ap = Some (cs, ap') -> screen s t codes bytes ->
  (forall s', screen s' (foldl term t cs) codes bytes -> keeps s s' -> Q ap' s') -> wp (convert c ap) s Q.
Proof.
  intros E Hs HQ. unfold convert_text, convert in *.
  destruct (c =? 100); [|destruct (_ || _); [|destruct (c =? 115); [|destruct (c =? 37)]]].
  - destruct ap as [|[x|x] ap]; [done| |done]. injection E as <- <-. apply wp_bind, wp_ret, wp_bind. eapply con_printint_run; [by left|done|]. intros s' H K. apply wp_ret. auto.
  - destruct ap as [|[x|x] ap]; [done| |done]. injection E as <- <-. apply wp_bind, wp_ret, wp_bind. eapply con_printint_run; [by right|done|]. intros s' H K. apply wp_ret. auto.
  - destruct ap as [|[x|x] ap]; [done|done|]. injection E as <- <-. apply wp_bind, wp_ret, wp_bind. eapply consputs_run; [done|]. intros s' H K. apply wp_ret. auto.
  - injection E as <- <-. apply wp_bind. eapply consputc_run; [done|]. intros s' H K. apply wp_ret. auto.
  - injection E as <- <-. apply wp_bind. eapply consputc_run; [done|]. intros s1 H1 K1. apply wp_bind. eapply consputc_run; [done|]. intros s2 H2 K2.
    apply wp_ret. apply HQ; [done|by eapply con_keeps_trans].
Qed.

Lemma cprintf_loop_run fmt : forall ap cs s t codes bytes (Q : unit -> con D -> Prop), format fmt ap = Some cs -> screen s t codes bytes ->
  (forall s', screen s' (foldl term t cs) codes bytes -> keeps s s' -> Q tt s') -> wp (cprintf_loop fmt ap) s Q.
Proof.
  induction fmt as [fmt IH] using (induction_ltof1 _ length). unfold ltof in IH. intros ap cs s t codes bytes Q E Hs HQ.
  destruct fmt as [|c fmt]; [injection E as <-; by apply wp_ret, HQ; [|apply con_keeps_refl]|]. cbn [format cprintf_loop] in *.
  destruct (negb (c =? 37)).
  - apply fmap_Some in E as (cs' & E & ->). apply wp_bind. eapply consputc_run; [done|]. intros s1 H1 K1.
    eapply (IH fmt); [cbn; lia|exact E|exact H1|]. intros s2 H2 K2. apply HQ; [done|by eapply con_keeps_trans].
  - destruct fmt as [|c' fmt]; [injection E as <-; by apply wp_ret, HQ; [|apply con_keeps_refl]|].
    apply bind_Some in E as ([cs1 ap'] & E1 & E2). apply fmap_Some in E2 as (cs2 & E2 & ->).
    apply wp_bind. eapply convert_run; [exact E1|done|]. intros s1 H1 K1.
    eapply (IH fmt); [cbn; lia|exact E2|exact H1|]. intros s2 H2 K2. rewrite <- foldl_app in H2. apply HQ; [done|by eapply con_keeps_trans].
Qed.

Lemma lock_cons_run s (Q : unit -> con D -> Prop) : held s = false -> Q tt (set_held true s) -> wp lock_cons s Q.
Proof. intros H HQ. unfold lock_cons. apply wp_bind, wp_gets. rewrite H. by apply wp_modify. Qed.

Lemma unlock_cons_run s (Q : unit -> con D -> Prop) : held s = true -> Q tt (set_held false s) -> wp unlock_cons s Q.
Proof. intros H HQ. unfold unlock_cons. apply wp_bind, wp_gets. rewrite H. by apply wp_modify. Qed.

Lemma cprintf_run fmt ap cs s t codes bytes (Q : unit -> con D -> Prop) : format fmt ap = Some cs -> held s = false -> screen s t codes bytes ->
  (forall s', screen s' (foldl term t cs) codes bytes -> keeps s s' -> Q tt s') -> wp (cprintf (Some fmt) ap) s Q.
Proof.
  intros E Hh Hs HQ. unfold cprintf. apply wp_bind, wp_gets. destruct (nz (locking s)); cbn [when].
  - apply wp_bind, lock_cons_run; [done|]. apply wp_bind. eapply cprintf_loop_run; [exact E|exact Hs|]. intros s1 H1 (K1 & K2 & K3 & K4 & K5).
    apply unlock_cons_run; [done|]. apply HQ; [exact H1|]. by split_and!.
  - apply wp_bind, wp_ret, wp_bind. eapply cprintf_loop_run; [exact E|exact Hs|]. intros s1 H1 K. by apply wp_ret, HQ.
Qed.

(** [procdump], like any code that only prints, may be called without the lock. *)
Definition prints (m : M (con D) unit) : Prop := forall s t codes bytes, screen s t codes bytes -> held s = false ->
  wp m s (fun _ s' => keeps s s' /\ exists t', screen s' t' codes bytes).

Lemma prints_ret : prints (ret tt).
Proof. intros s t codes bytes Hs Hh. apply wp_ret. split; [apply con_keeps_refl|eauto]. Qed.

Lemma prints_seq m k : prints m -> prints k -> prints (m ;; k).
Proof.
  intros Hm Hk s t codes bytes Hs Hh. eapply wp_seq; [by eapply Hm|]. cbn beta. intros [] s1 (K1 & t1 & H1).
  eapply wp_mono; [eapply Hk; [exact H1|destruct K1 as (_ & -> & _); done]|]. cbn beta. intros [] s2 (K2 & t2 & H2).
  split; [by eapply con_keeps_trans|eauto].
Qed.

Lemma prints_cprintf fmt ap : is_Some (format fmt ap) -> prints (cprintf (Some fmt) ap).
Proof. intros [cs E] s t codes bytes Hs Hh. eapply cprintf_run; [exact E|done|exact Hs|]. intros s' H K. split; eauto. Qed.

Lemma prints_procdump m ps : prints (procdump m ps).
Proof.
  induction ps as [|p ps IH]; [apply prints_ret|]. apply prints_seq; [|done]. unfold dump_one.
  destruct (bool_decide _); [apply prints_ret|]. apply prints_seq; [apply prints_cprintf; by eexists|].
  apply prints_seq; [|apply prints_cprintf; by eexists]. destruct (bool_decide _); [|apply prints_ret]. cbn [when].
  induction (Spinlock.getcallerpcs m _) as [|a pc IHpc]; [apply prints_ret|]. cbn [print_pcs].
  destruct (a =? 0); [apply prints_ret|]. apply prints_seq; [apply prints_cprintf; by eexists|done].
Qed.

End Screen.
