(* ===== verification/ConsoleSpec.v ===== *)
(** * The console is a line editor ([console.c], [kbd.c])

    The ring of the console holds what a line editor on lists holds, whatever the
    interleaving of interrupts and readers, and a line typed on the keyboard
    reaches the process that reads the console. *)
From S2P Require Import Prelude Hw Str Proc Console Kbd ConsoleScreen.

(** ** A line editor *)

(** The lines that are ready and the line being edited. *)
Abbreviation lines := (list Z * list Z)%type.

Definition printable (c : Z) : Prop := 32 <= c < 127.

Definition enter (c : Z) : Z := if c =? 13 then 10 else c.
Definition ends_line (l : lines) (c : Z) : bool :=
  (enter c =? 10) || (enter c =? C 68) || (length l.1 + length l.2 + 1 =? INPUT_BUF)%nat.
Definition accepts (l : lines) (c : Z) : bool :=
  negb (c =? C 80) && negb (c =? C 85) && negb (c =? C 72) && negb (c =? 127) && nz c && (length l.1 + length l.2 <? INPUT_BUF)%nat.

Definition key (l : lines) (c : Z) : lines :=
  if c =? C 85 then (l.1, [])
  else if (c =? C 72) || (c =? 127) then (l.1, take (length l.2 - 1) l.2)
  else if accepts l c then
    if ends_line l c then (l.1 ++ l.2 ++ [enter c], []) else (l.1, l.2 ++ [enter c])
  else l.

(** What a key prints. *)
Definition echo (l : lines) (c : Z) : list Z :=
  if c =? C 85 then replicate (length l.2) BACKSPACE
  else if (c =? C 72) || (c =? 127) then replicate (Nat.min 1 (length l.2)) BACKSPACE
  else if accepts l c then [enter c]
  else [].

(** A call of [read]: [n] bytes wanted of [target], [got] stored so far. *)
Fixpoint line_read (n target : nat) (killed : bool) (got rdy : list Z) : cres * list Z :=
  match n with
  | O => (CRet (Z.of_nat target) got, rdy)
  | S k =>
      match rdy with
      | [] => (if killed then CRet (-1) got else CSleep n got, [])
      | c :: rest =>
          if c =? C 68 then (CRet (Z.of_nat (target - n)) got, if (n <? target)%nat then rdy else rest)
          else if c =? 10 then (CRet (Z.of_nat (target - k)) (got ++ [c]), rest)
          else line_read k target killed (got ++ [c]) rest
      end
  end.

(** ** The ring *)

Record ring (i : input_t) (l : lines) : Prop := {
  rg_buf : length (ibuf i) = INPUT_BUF;
  rg_r : 0 <= ir i < 4294967296;
  rg_w : iw i = u32 (ir i + Z.of_nat (length l.1));
  rg_e : ie i = u32 (ir i + Z.of_nat (length l.1 + length l.2));
  rg_room : (length l.1 + length l.2 <= INPUT_BUF)%nat;
  rg_data k x : (fst l ++ snd l) !! k = Some x -> ibuf i !! in_slot (ir i + Z.of_nat k) = Some x;
}.

(** Between two characters the line being edited has no newline, and a full ring
    has no such line. *)
Definition settled (l : lines) : Prop := (10 ∉ l.2) /\ ((length l.1 + length l.2 = INPUT_BUF)%nat -> l.2 = []).

Lemma in_slot_u32 x : in_slot (u32 x) = in_slot x.
Proof. unfold in_slot, u32. change (Z.of_nat INPUT_BUF) with 128. f_equal. Z.to_euclidean_division_equations. lia. Qed.

Lemma in_slot_lt x : (in_slot x < INPUT_BUF)%nat.
Proof. unfold in_slot. change (Z.of_nat INPUT_BUF) with 128. pose proof (Z.mod_pos_bound x 128). change INPUT_BUF with (Z.to_nat 128). lia. Qed.

Lemma in_slot_inj x j k : (j <= INPUT_BUF)%nat -> (k < j)%nat -> in_slot (x + Z.of_nat k) = in_slot (x + Z.of_nat j) -> j = (k + INPUT_BUF)%nat.
Proof.
  unfold in_slot. change (Z.of_nat INPUT_BUF) with 128. intros Hj Hk E. change INPUT_BUF with (Z.to_nat 128) in *.
  apply Z2Nat.inj in E; [|apply Z.mod_pos_bound; lia..]. revert E. Z.to_euclidean_division_equations. lia.
Qed.

Section Ring.
Context (i : input_t) (rdy edit : list Z) (R : ring i (rdy, edit)).

Lemma ring_e_w : (ie i =? iw i) = bool_decide (edit = []).
Proof.
  destruct R as [_ Hr Hw He Hm _]. cbn [fst snd] in *. rewrite He, Hw. change INPUT_BUF with (Z.to_nat 128) in Hm.
  apply eq_true_iff_eq. rewrite Z.eqb_eq, bool_decide_eq_true. unfold u32. split.
  - intros E. destruct edit; [done|]. exfalso. cbn [length] in *. revert E. Z.to_euclidean_division_equations. lia.
  - intros ->. cbn. by rewrite Nat.add_0_r.
Qed.

Lemma ring_r_w : (ir i =? iw i) = bool_decide (rdy = []).
Proof.
  destruct R as [_ Hr Hw He Hm _]. cbn [fst snd] in *. rewrite Hw. change INPUT_BUF with (Z.to_nat 128) in Hm.
  apply eq_true_iff_eq. rewrite Z.eqb_eq, bool_decide_eq_true. unfold u32. split.
  - intros E. destruct rdy; [done|]. exfalso. cbn [length] in *. revert E. Z.to_euclidean_division_equations. lia.
  - intros ->. cbn. rewrite Z.add_0_r. by rewrite Z.mod_small.
Qed.

Lemma ring_size : u32 (ie i - ir i) = Z.of_nat (length rdy + length edit).
Proof.
  destruct R as [_ Hr Hw He Hm _]. cbn [fst snd] in *. rewrite He. change INPUT_BUF with (Z.to_nat 128) in Hm. unfold u32.
  Z.to_euclidean_division_equations. lia.
Qed.

(** Storing a character at the end. *)
Lemma ring_push x : (length rdy + length edit < INPUT_BUF)%nat ->
  ring (mkinput (<[in_slot (ie i) := x]> (ibuf i)) (ir i) (iw i) (u32 (ie i + 1))) (rdy, edit ++ [x]).
Proof.
  intros Hn. destruct R as [Hb Hr Hw He Hm Hd]. cbn [fst snd] in *. split; cbn [ibuf ir iw ie fst snd]; [by rewrite length_insert|done|done| | |].
  - rewrite He, u32_add_l, length_app. cbn. f_equal. lia.
  - rewrite length_app. cbn. lia.
  - intros k y Hk. rewrite He, in_slot_u32, app_assoc in *. apply lookup_app_Some in Hk as [Hk|[Hge Hk]].
    + rewrite list_lookup_insert_ne; [by apply Hd|]. intros E. symmetry in E. apply lookup_lt_Some in Hk. rewrite length_app in Hk.
      apply in_slot_inj in E; lia.
    + rewrite length_app in Hge, Hk. destruct (k - (length rdy + length edit))%nat eqn:Ek; [|done]. injection Hk as <-.
      replace k with (length rdy + length edit)%nat by lia. apply list_lookup_insert_eq. rewrite Hb. apply in_slot_lt.
Qed.

Lemma ring_commit : ring (set_iw (ie i) i) (rdy ++ edit, []).
Proof.
  destruct R as [Hb Hr Hw He Hm Hd]. cbn [fst snd] in *. split; cbn [set_iw ibuf ir iw ie fst snd length]; rewrite ?length_app, ?app_nil_r, ?Nat.add_0_r; done.
Qed.

Lemma ring_read c rest : rdy = c :: rest -> ibuf i !! in_slot (ir i) = Some c /\ ring (set_ir (u32 (ir i + 1)) i) (rest, edit) /\
  set_ir (u32 (u32 (ir i + 1) - 1)) (set_ir (u32 (ir i + 1)) i) = i.
Proof.
  intros ->. destruct R as [Hb Hr Hw He Hm Hd]. cbn [fst snd] in *. split_and!.
  - rewrite <- (Z.add_0_r (ir i)). by apply (Hd 0%nat).
  - split; cbn [set_ir ibuf ir iw ie fst snd length] in *; [done|apply u32_range| | |lia|].
    + rewrite Hw, u32_add_l. f_equal. lia.
    + rewrite He, u32_add_l. f_equal. lia.
    + intros k x Hk. specialize (Hd (S k) x Hk). rewrite <- Hd. f_equal. rewrite <- in_slot_u32, u32_add_l, in_slot_u32. f_equal. lia.
  - destruct i as [b r w e]. unfold set_ir. cbn in *. f_equal. unfold u32. rewrite Zminus_mod_idemp_l, Z.add_simpl_r. by apply Z.mod_small.
Qed.

End Ring.

Lemma ring_pop i rdy edit x : ring i (rdy, edit ++ [x]) ->
  ibuf i !! in_slot (u32 (ie i - 1)) = Some x /\ ring (set_ie (u32 (ie i - 1)) i) (rdy, edit).
Proof.
  intros [Hb Hr Hw He Hm Hd]. cbn [fst snd] in *. rewrite length_app in *. cbn [length] in *.
  assert (u32 (ie i - 1) = u32 (ir i + Z.of_nat (length rdy + length edit))) as E.
  { rewrite He. unfold u32. rewrite Zminus_mod_idemp_l. f_equal. lia. }
  rewrite E. split.
  - rewrite in_slot_u32. apply Hd. rewrite app_assoc, lookup_app_r by (rewrite length_app; lia). rewrite length_app, Nat.sub_diag. done.
  - split; cbn [set_ie ibuf ir iw ie fst snd]; [done|done|done|done|lia|].
    intros k y Hk. apply Hd. rewrite app_assoc. by apply lookup_app_l_Some.
Qed.

Lemma settled_nil rdy : settled (rdy, []).
Proof. split; [apply not_elem_of_nil|done]. Qed.

Lemma key_settled l c : (length l.1 + length l.2 <= INPUT_BUF)%nat -> settled l -> settled (key l c).
Proof.
  destruct l as [rdy edit]. intros Hm [H1 H2]. cbn [fst snd] in *. unfold key. cbn [fst snd]. destruct (c =? C 85); [apply settled_nil|].
  destruct (_ || _); [|destruct (accepts _ c); [destruct (ends_line _ c) eqn:E|by split]].
  - split; cbn [fst snd].
    + intros H. by apply H1, (subseteq_take (length edit - 1)).
    + rewrite length_take. intros E. apply length_zero_iff_nil. rewrite length_take. lia.
  - apply settled_nil.
  - unfold ends_line in E. cbn [fst snd] in E. b2p. destruct E as [[E1 E2] E3]. split; cbn [fst snd].
    + rewrite elem_of_app, list_elem_of_singleton. intros [|]; auto.
    + rewrite length_app. cbn. lia.
Qed.

Section Intr.
Context {D : Type} {HW : Hardware D} {TM : Terminal D}.
Implicit Types s : con D.

(** Everything but the screen, the hardware and the ring. *)
Definition stays s s' : Prop :=
  locking s' = locking s /\ held s' = held s /\ shift s' = shift s /\ uart (port s') = uart (port s).

Lemma stays_refl s : stays s s.
Proof. by split_and!. Qed.

Lemma stays_trans s1 s2 s3 : stays s1 s2 -> stays s2 s3 -> stays s1 s3.
Proof. unfold stays. intros (? & ? & ? & ?) (? & ? & ? & ?). split_and!; congruence. Qed.

Lemma keeps_stays s s' : keeps s s' -> input s' = input s /\ stays s s'.
Proof. intros (? & ? & ? & ? & ?). by split_and!. Qed.

(** A console that shows [t], with the lines [l]. *)
Definition console s (t codes bytes : list Z) (l : lines) : Prop :=
  screen s t codes bytes /\ ring (input s) l /\ settled l.

Lemma erase_run s t codes bytes rdy edit x (Q : unit -> con D -> Prop) : screen s t codes bytes -> ring (input s) (rdy, edit ++ [x]) ->
  (forall s', screen s' (term t BACKSPACE) codes bytes -> ring (input s') (rdy, edit) -> stays s s' -> Q tt s') ->
  wp (consputc BACKSPACE) (set_input (set_ie (u32 (ie (input s) - 1)) (input s)) s) Q.
Proof.
  intros Hs R HQ. apply ring_pop in R as [_ R]. eapply consputc_run; [exact Hs|].
  intros s' H (K1 & K2)%keeps_stays. apply HQ; [done| |done]. by rewrite K1.
Qed.

Lemma kill_line_run k : forall s t codes bytes rdy edit (Q : unit -> con D -> Prop), (length edit < k)%nat -> 10 ∉ edit ->
  screen s t codes bytes -> ring (input s) (rdy, edit) ->
  (forall s', screen s' (foldl term t (replicate (length edit) BACKSPACE)) codes bytes -> ring (input s') (rdy, []) -> stays s s' -> Q tt s') ->
  wp (kill_line k) s Q.
Proof.
  induction k as [|k IH]; intros s t codes bytes rdy edit Q Hk Hn Hs R HQ; [lia|]. cbn [kill_line]. apply wp_bind, wp_gets.
  rewrite (ring_e_w _ _ _ R). destruct edit as [|x edit _] using rev_ind; [by apply wp_ret, HQ; [| |apply stays_refl]|].
  rewrite bool_decide_eq_false_2 by (by destruct edit). destruct (ring_pop _ _ _ _ R) as [Hb _].
  apply wp_bind, wp_bind, wp_gets, (wp_deref _ x); [done|]. rewrite (proj2 (Z.eqb_neq x 10)) by set_solver.
  rewrite length_app in Hk, HQ. cbn [length] in *. apply wp_bind, wp_modify, wp_bind. eapply erase_run; [exact Hs|exact R|]. intros s1 H1 R1 K1.
  eapply (IH _ _ _ _ rdy edit); [lia|set_solver|exact H1|exact R1|]. intros s2 H2 R2 K2.
  rewrite Nat.add_1_r in HQ. apply HQ; [exact H2|exact R2|by eapply stays_trans].
Qed.

(** Whether a key completes a line, and so wakes the readers. *)
Definition wakes (l : lines) (c : Z) : bool :=
  negb (c =? C 85) && negb ((c =? C 72) || (c =? 127)) && accepts l c && ends_line l c.

(** The default case of the switch, with room in the ring. *)
Lemma store_key_run c s t codes bytes rdy edit (Q : bool * bool -> con D -> Prop) : 0 <= c < 256 -> screen s t codes bytes ->
  ring (input s) (rdy, edit) -> (length rdy + length edit < INPUT_BUF)%nat ->
  (forall s', screen s' (term t c) codes bytes ->
     ring (input s') (if (c =? 10) || (c =? C 68) || (length rdy + length edit + 1 =? INPUT_BUF)%nat then (rdy ++ edit ++ [c], []) else (rdy, edit ++ [c])) ->
     stays s s' -> Q (false, (c =? 10) || (c =? C 68) || (length rdy + length edit + 1 =? INPUT_BUF)%nat) s') ->
  wp (upd_input (fun i => mkinput (<[in_slot (ie i) := u8 c]> (ibuf i)) (ir i) (iw i) (u32 (ie i + 1))) ;;
      consputc c ;;
      let! s := get in
      let i := input s in
      if (c =? 10) || (c =? C 68) || (ie i =? u32 (ir i + Z.of_nat INPUT_BUF))
      then upd_input (set_iw (ie i)) ;; ret (false, true)
      else ret (false, false)) s Q.
Proof.
  intros Hc Hs R Hn HQ. apply wp_bind, wp_modify, wp_bind. eapply consputc_run; [exact Hs|]. intros s1 H1 (K1 & K2)%keeps_stays.
  pose proof (ring_push _ _ _ R c Hn) as R1. rewrite u8_small in K1 by lia. cbn [input set_input] in K1.
  apply wp_bind, wp_gets. rewrite K1. cbn [ie ir].
  assert ((u32 (ie (input s) + 1) =? u32 (ir (input s) + Z.of_nat INPUT_BUF)) = (length rdy + length edit + 1 =? INPUT_BUF)%nat) as ->.
  { rewrite (rg_e _ _ R), u32_add_l. pose proof (rg_r _ _ R). cbn [fst snd]. change (Z.of_nat INPUT_BUF) with 128. change INPUT_BUF with (Z.to_nat 128) in *.
    apply eq_true_iff_eq. rewrite Z.eqb_eq, Nat.eqb_eq. unfold u32. Z.to_euclidean_division_equations. lia. }
  destruct (_ || _).
  - apply wp_bind, wp_modify, wp_ret. apply HQ; [exact H1| |exact K2]. cbn [input set_input]. rewrite K1. by apply ring_commit in R1.
  - apply wp_ret, HQ; [exact H1| |exact K2]. by rewrite K1.
Qed.

Lemma intr_char_run c s t codes bytes l (Q : bool * bool -> con D -> Prop) : 0 <= c < 256 -> console s t codes bytes l ->
  (forall s', console s' (foldl term t (echo l c)) codes bytes (key l c) -> stays s s' -> Q (c =? C 80, wakes l c) s') ->
  wp (intr_char c) s Q.
Proof.
  destruct l as [rdy edit]. intros Hc (Hs & R & Hst) HQ. pose proof (rg_room _ _ R) as Hm. cbn [fst snd] in Hm.
  pose proof (key_settled (rdy, edit) c Hm Hst) as Hst'. unfold console in HQ. unfold intr_char. apply wp_bind, wp_gets.
  unfold key, echo, wakes, accepts in *. cbn [fst snd] in *.
  destruct (Z.eqb_spec c (C 80)) as [->|N1]; [by apply wp_ret, HQ; [|apply stays_refl]|].
  destruct (Z.eqb_spec c (C 85)) as [->|N2].
  { apply wp_bind. eapply (kill_line_run _ _ _ _ _ rdy edit); [lia|apply Hst|exact Hs|exact R|]. intros s' H1 H2 H3. by apply wp_ret, HQ. }
  destruct ((c =? C 72) || (c =? 127)) eqn:N3.
  { rewrite (ring_e_w _ _ _ R). destruct edit as [|x edit _] using rev_ind.
    - by apply wp_bind, wp_ret, wp_ret, HQ; [|apply stays_refl].
    - rewrite bool_decide_eq_false_2 by (by destruct edit). apply wp_bind, wp_bind, wp_modify.
      eapply erase_run; [exact Hs|exact R|]. intros s' H1 H2 H3. apply wp_ret.
      rewrite !length_app in HQ. rewrite !length_app in Hst'. cbn [length] in HQ, Hst'. rewrite Nat.add_sub, take_app_length in HQ, Hst'.
      replace (Nat.min 1 _) with 1%nat in HQ by lia. by apply HQ. }
  cbn [negb andb orb] in *. apply orb_false_iff in N3 as [N3 N4]. rewrite N3, N4 in *. cbn [negb andb] in *.
  rewrite (ring_size _ _ _ R). replace (Z.of_nat (length rdy + length edit) <? Z.of_nat INPUT_BUF) with (length rdy + length edit <? INPUT_BUF)%nat
    by (apply eq_true_iff_eq; rewrite Nat.ltb_lt, Z.ltb_lt; apply Nat2Z.inj_lt).
  destruct (nz c && _) eqn:E; [|by apply wp_ret, HQ; [|apply stays_refl]]. apply andb_true_iff in E as [E1 E2]. apply Nat.ltb_lt in E2.
  fold (enter c). cbv zeta. unfold ends_line in *. cbn [fst snd] in *.
  eapply store_key_run; [unfold enter; destruct (c =? 13); lia|exact Hs|exact R|done|]. intros s' H1 H2 H3. by apply HQ.
Qed.

(** ** Interrupts *)

(** The echo of several keys, and whether one of them completes a line. *)
Fixpoint echoes (l : lines) (cs : list Z) : list Z :=
  match cs with [] => [] | c :: cs => echo l c ++ echoes (key l c) cs end.
Fixpoint completes (l : lines) (cs : list Z) : bool :=
  match cs with [] => false | c :: cs => wakes l c || completes (key l c) cs end.

(** A [getc] for [consoleintr]: the characters it will return, as a function of
    [uart], [shift] and what waits at the keyboard and at the serial port. *)
Class Source (getc : M (con D) Z) := {
  chars : Z -> Z -> list Z -> list Z -> list Z;
  getc_run s t codes bytes : screen s t codes bytes ->
    wp getc s (fun r s' => locking s' = locking s /\ held s' = held s /\ input s' = input s /\ uart (port s') = uart (port s) /\
      exists codes' bytes', screen s' t codes' bytes' /\
        match chars (uart (port s)) (shift s) codes bytes with
        | [] => r = -1 /\ chars (uart (port s)) (shift s') codes' bytes' = []
        | c :: cs => r = c /\ 0 <= c < 256 /\ chars (uart (port s)) (shift s') codes' bytes' = cs
        end);
}.

Lemma intr_loop_run getc {SC : Source getc} fuel : forall d w s t codes bytes l cs (Q : bool * bool -> con D -> Prop),
  console s t codes bytes l -> chars (uart (port s)) (shift s) codes bytes = cs -> (length cs < fuel)%nat ->
  (forall s' codes' bytes', console s' (foldl term t (echoes l cs)) codes' bytes' (foldl key l cs) ->
     chars (uart (port s)) (shift s') codes' bytes' = [] ->
     locking s' = locking s -> held s' = held s -> uart (port s') = uart (port s) ->
     Q (d || existsb (Z.eqb (C 80)) cs, w || completes l cs) s') ->
  wp (intr_loop fuel getc d w) s Q.
Proof.
  induction fuel as [|fuel IH]; intros d w s t codes bytes l cs Q (Hs & R & Hst) Hcs Hf HQ; [lia|]. cbn [intr_loop].
  eapply wp_seq; [by eapply getc_run|]. cbn beta. intros c s1 (E1 & E2 & E3 & E4 & codes1 & bytes1 & S1 & H). rewrite Hcs in H. rewrite <- E3 in R.
  destruct cs as [|c' cs].
  - destruct H as [-> H]. apply wp_ret. specialize (HQ s1 codes1 bytes1). cbn [existsb completes] in HQ. rewrite !orb_false_r in HQ. by apply HQ.
  - destruct H as (-> & Hc & H). rewrite (proj2 (Z.ltb_ge _ _)) by lia. apply wp_bind.
    eapply (intr_char_run c' s1); [done|by split_and!|]. intros s2 C2 (K1 & K2 & K3 & K4).
    eapply (IH _ _ s2 _ _ _ _ cs); [exact C2|by rewrite K4, K3, E4|cbn in Hf; lia|]. intros s3 codes3 bytes3 C3 N3 L3 L3' L3''.
    cbn [existsb completes echoes foldl] in HQ. rewrite Z.eqb_sym, <- !orb_assoc. rewrite <- foldl_app in C3. rewrite K4, E4 in N3.
    apply (HQ s3 codes3 bytes3); [exact C3|exact N3|congruence..].
Qed.

Lemma consoleintr_run getc {SC : Source getc} fuel dump s t codes bytes l cs (Q : bool -> con D -> Prop) :
  console s t codes bytes l -> held s = false -> chars (uart (port s)) (shift s) codes bytes = cs -> (length cs < fuel)%nat -> prints dump ->
  (forall s' t' codes' bytes', console s' t' codes' bytes' (foldl key l cs) -> (C 80 ∉ cs -> t' = foldl term t (echoes l cs)) ->
     chars (uart (port s)) (shift s') codes' bytes' = [] ->
     locking s' = locking s -> held s' = false -> uart (port s') = uart (port s) -> Q (completes l cs) s') ->
  wp (consoleintr fuel dump getc) s Q.
Proof.
  intros Hc Hh Hcs Hf Hd HQ. unfold consoleintr. apply wp_bind, lock_cons_run; [done|]. apply wp_bind.
  eapply (intr_loop_run getc); [exact Hc|exact Hcs|done|]. intros s1 codes1 bytes1 (S1 & R1 & T1) N1 L1 L2 L3. cbn [orb].
  apply wp_bind, unlock_cons_run; [done|]. apply wp_bind. destruct (existsb (Z.eqb (C 80)) cs) eqn:E; cbn [when].
  - eapply wp_mono; [by eapply Hd|]. cbn beta. intros [] s2 ((K1 & K2 & K3 & K4 & K5) & t2 & S2). apply wp_ret.
    apply (HQ s2 t2 codes1 bytes1); [|intros N|by rewrite K4|by rewrite K1|exact K2|by rewrite K5].
    + split_and!; [done| |done]. rewrite K3. exact R1.
    + apply existsb_exists in E as (x & Hx & <-%Z.eqb_eq). by apply list_elem_of_In in Hx.
  - apply wp_ret, wp_ret. by apply (HQ _ (foldl term t (echoes l cs)) codes1 bytes1).
Qed.

(** ** Readers *)

Lemma line_read_short n target killed : forall got rdy, (length (line_read n target killed got rdy).2 <= length rdy)%nat.
Proof.
  induction n as [|n IH]; intros got rdy; cbn [line_read]; [done|]. destruct rdy as [|c rest]; [done|].
  destruct (c =? C 68); [destruct (S n <? target)%nat; cbn; lia|]. destruct (c =? 10); [cbn; lia|]. specialize (IH (got ++ [c]) rest). cbn. lia.
Qed.

Lemma con_read_loop_run n target killed : forall got s rdy edit (Q : cres -> con D -> Prop), ring (input s) (rdy, edit) ->
  (forall i, ring i ((line_read n target killed got rdy).2, edit) -> Q (line_read n target killed got rdy).1 (set_input i s)) ->
  wp (read_loop n target killed got) s Q.
Proof.
  induction n as [|n IH]; intros got s rdy edit Q R HQ; cbn [read_loop line_read] in *.
  { apply wp_ret. specialize (HQ (input s) R). by destruct s. }
  apply wp_bind, wp_gets. rewrite (ring_r_w _ _ _ R). destruct rdy as [|c rest].
  { apply wp_ret. specialize (HQ (input s) R). by destruct s. }
  rewrite bool_decide_eq_false_2 by done. destruct (ring_read _ _ _ R c rest eq_refl) as (Hb & R1 & Ei).
  apply wp_bind, wp_bind, wp_gets, (wp_deref _ c); [done|]. apply wp_bind, wp_modify.
  destruct (c =? C 68); [|destruct (c =? 10)].
  - apply wp_bind. destruct (S n <? target)%nat; cbn [when].
    + apply wp_modify, wp_ret. cbn [input set_input ir set_ir]. change (ir (set_ir ?v _)) with v. rewrite Ei. exact (HQ (input s) R).
    + apply wp_ret, wp_ret. exact (HQ _ R1).
  - apply wp_ret. exact (HQ _ R1).
  - eapply (IH _ _ rest edit); [exact R1|]. intros i Hi. exact (HQ i Hi).
Qed.

Lemma read_segment_run ilock n target killed got s t codes bytes rdy edit (Q : cres -> con D -> Prop) :
  (forall s, ilock s = Ret tt s) -> console s t codes bytes (rdy, edit) -> held s = false ->
  (forall i, console (set_input i s) t codes bytes ((line_read n target killed got rdy).2, edit) ->
     Q (line_read n target killed got rdy).1 (set_input i s)) ->
  wp (read_segment ilock n target killed got) s Q.
Proof.
  intros Hi (Hs & R & H1 & H2) Hh HQ. unfold read_segment. apply wp_bind, lock_cons_run; [done|]. apply wp_bind.
  eapply (con_read_loop_run _ _ _ _ _ rdy edit); [exact R|]. intros i Ri. apply wp_bind, unlock_cons_run; [done|].
  assert (console (set_input i s) t codes bytes ((line_read n target killed got rdy).2, edit)) as Hc.
  { split_and!; [exact Hs|exact Ri|]. split; cbn [fst snd] in *; [done|]. intros E. apply H2.
    pose proof (line_read_short n target killed got rdy). pose proof (rg_room _ _ R). cbn [fst snd] in *. lia. }
  specialize (HQ i Hc). assert (set_held false (set_input i (set_held true s)) = set_input i s) as Es by (destruct s; cbn in *; by subst).
  rewrite Es. apply wp_bind. destruct (line_read n target killed got rdy) as [[r bs|k bs] rdy']; cbn [fst snd] in *.
  - unfold wp at 1. by rewrite Hi.
  - by apply wp_ret, wp_ret.
Qed.

End Intr.

(** ** The keyboard and the serial port as sources *)

Definition at_ (l : list Z) (i : Z) : Z := l !!! Z.to_nat i.

(** The character of a scan code and the [shift] after it. *)
Definition scan (sh data : Z) : Z * Z :=
  let esc := nz (Z.land sh E0ESC) in
  if data =? 224 then (0, Z.lor sh E0ESC)
  else if nz (Z.land data 128) then
    (0, Z.land sh (Z.lnot (Z.lor (at_ shiftcode (if esc then data else Z.land data 127)) E0ESC)))
  else
    let data := if esc then Z.lor data 128 else data in
    let sh := if esc then Z.land sh (Z.lnot E0ESC) else sh in
    let sh := Z.lxor (Z.lor sh (at_ shiftcode data)) (at_ togglecode data) in
    let c := at_ (charcode !!! Z.to_nat (Z.land sh 3)) data in
    (if nz (Z.land sh CAPSLOCK) then swap_case c else c, sh).

Fixpoint decode (sh : Z) (codes : list Z) : list Z :=
  match codes with [] => [] | d :: codes => (scan sh d).1 :: decode (scan sh d).2 codes end.

Definition is_byte (c : Z) : bool := (0 <=? c) && (c <? 256).

(** The tables have 256 bytes. *)
Definition table_ok (l : list Z) : bool := (length l =? 256)%nat && forallb is_byte l.

Lemma tables : forallb table_ok (shiftcode :: togglecode :: charcode) = true.
Proof. by vm_compute. Qed.

Lemma table_at l i : table_ok l = true -> 0 <= i < 256 -> l !! Z.to_nat i = Some (at_ l i) /\ 0 <= at_ l i < 256.
Proof.
  intros [Hl%Nat.eqb_eq Hf]%andb_true_iff Hi. assert (Z.to_nat i < length l)%nat as H by (rewrite Hl; lia).
  apply lookup_lt_is_Some_2 in H as [x Hx]. unfold at_. rewrite (list_lookup_total_correct _ _ _ Hx). split; [done|].
  rewrite forallb_forall in Hf. apply list_elem_of_lookup_2, list_elem_of_In, Hf in Hx. unfold is_byte in Hx. b2p. lia.
Qed.

Lemma table_in l : l ∈ shiftcode :: togglecode :: charcode -> table_ok l = true.
Proof. intros Hl%list_elem_of_In. pose proof tables as T. rewrite forallb_forall in T. auto. Qed.

Lemma map_at sh : exists m, charcode !! Z.to_nat (Z.land sh 3) = Some m /\ charcode !!! Z.to_nat (Z.land sh 3) = m /\ table_ok m = true.
Proof.
  pose proof (land_low_mask sh 2 ltac:(lia)) as E. change (2 ^ 2 - 1) with 3 in E. change (2 ^ 2) with 4 in E.
  pose proof (Z.mod_pos_bound sh 4). assert (is_Some (charcode !! Z.to_nat (Z.land sh 3))) as [m Hm] by (apply lookup_lt_is_Some_2; cbn [length charcode]; lia).
  exists m. split_and!; [done|by apply list_lookup_total_correct|]. apply table_in. do 2 right. by eapply list_elem_of_lookup_2.
Qed.

Lemma byte_at_run {S} l i (s : S) (Q : Z -> S -> Prop) : l ∈ shiftcode :: togglecode :: charcode -> 0 <= i < 256 -> Q (at_ l i) s -> wp (byte_at l i) s Q.
Proof.
  intros Hl Hi HQ. unfold byte_at. rewrite (proj2 (Z.leb_le _ _)) by lia.
  apply (wp_deref _ (at_ l i)); [|done]. by apply table_at; [apply table_in|].
Qed.

Lemma lor_byte x y : 0 <= x < 256 -> 0 <= y < 256 -> 0 <= Z.lor x y < 256.
Proof.
  intros Hx Hy. assert (0 <= Z.lor x y) as H0 by (apply Z.lor_nonneg; lia). split; [done|].
  replace x with (x mod 2 ^ 8) by (by apply Z.mod_small). replace y with (y mod 2 ^ 8) by (by apply Z.mod_small).
  rewrite <- !Z.land_ones, <- Z.land_lor_distr_l, Z.land_ones by lia. by apply Z.mod_pos_bound.
Qed.

Lemma land_127 x : 0 <= Z.land x 127 < 256.
Proof. change 127 with (2 ^ 7 - 1). rewrite land_low_mask by lia. pose proof (Z.mod_pos_bound x (2 ^ 7) ltac:(done)). change (2 ^ 7) with 128 in *. lia. Qed.

Lemma swap_case_byte c : 0 <= c < 256 -> 0 <= swap_case c < 256.
Proof. 
  intros Hc. unfold swap_case. destruct ((97 <=? c) && (c <=? 122)) eqn:E1; [|destruct ((65 <=? c) && (c <=? 90)) eqn:E2; [|done]].
  - b2p. rewrite u32_small; lia.
  - apply andb_true_iff in E2 as [E2 E3]. b2p. rewrite u32_small; lia.
Qed.

Section Sources.
Context {D : Type} {HW : Hardware D} {TM : Terminal D}.
Implicit Types s : con D.

Lemma screen_dev s t codes bytes a d a' : screen s t codes bytes -> trepr (sdev (port s)) a ->
  t_hi a * 256 + t_lo a = Z.of_nat (length t) -> trepr d a' -> t_hi a' = t_hi a -> t_lo a' = t_lo a ->
  screen (with_dev d s) t (t_codes a') (t_bytes a').
Proof. intros (H1 & H2 & H3 & _) _ Ha HR E1 E2. split_and!; [done..|]. exists a'. by rewrite E1, E2. Qed.

Lemma scan_run data s (Q : Z -> con D -> Prop) : 0 <= data < 256 ->
  (0 <= (scan (shift s) data).1 < 256 -> Q (scan (shift s) data).1 (set_shift (scan (shift s) data).2 s)) ->
  wp (let! sh := gets shift in
      if data =? 224 then set_mods (Z.lor sh E0ESC) ;; ret 0
      else if nz (Z.land data 128) then
        let data := if nz (Z.land sh E0ESC) then data else Z.land data 127 in
        let! m := byte_at shiftcode data in
        set_mods (Z.land sh (Z.lnot (Z.lor m E0ESC))) ;;
        ret 0
      else
        let esc := nz (Z.land sh E0ESC) in
        let data := if esc then Z.lor data 128 else data in
        let sh := if esc then Z.land sh (Z.lnot E0ESC) else sh in
        let! m := byte_at shiftcode data in
        let! t := byte_at togglecode data in
        let sh := Z.lxor (Z.lor sh m) t in
        set_mods sh ;;
        let! map := deref (charcode !! Z.to_nat (Z.land sh (Z.lor CTL SHIFT))) in
        let! c := byte_at map data in
        ret (if nz (Z.land sh CAPSLOCK) then swap_case c else c)) s Q.
Proof.
  intros Hd HQ. unfold scan in HQ. apply wp_bind, wp_gets. destruct (data =? 224).
  { apply wp_bind, wp_modify, wp_ret, HQ. cbn [fst]. lia. }
  destruct (nz (Z.land data 128)).
  { apply wp_bind, byte_at_run; [left|destruct (nz _); [done|apply land_127]|]. apply wp_bind, wp_modify, wp_ret, HQ. cbn [fst]. lia. }
  cbv zeta in *. set (esc := nz (Z.land (shift s) E0ESC)) in *. set (data' := if esc then Z.lor data 128 else data) in *.
  assert (0 <= data' < 256) as Hd' by (unfold data'; destruct esc; [apply lor_byte; lia|done]). clearbody data'.
  apply wp_bind, byte_at_run; [left|done|]. apply wp_bind, byte_at_run; [right; left|done|]. apply wp_bind, wp_modify.
  set (sh := Z.lxor _ _) in *. change (Z.lor CTL SHIFT) with 3. destruct (map_at sh) as (m & E1 & E2 & E3). rewrite E2 in HQ.
  apply wp_bind, (wp_deref _ m); [done|]. apply wp_bind, byte_at_run; [do 2 right; by eapply list_elem_of_lookup_2|done|].
  apply wp_ret, HQ. cbn [fst]. destruct (table_at m data' E3 Hd') as [_ Hb]. destruct (nz (Z.land sh CAPSLOCK)); [by apply swap_case_byte|done].
Qed.

#[global] Program Instance kbd_source : Source kbdgetc := {| chars uart sh codes bytes := decode sh codes |}.
Next Obligation.
  intros s t codes bytes Hs. pose proof Hs as (_ & _ & _ & a & HR & Ha & <- & <-). unfold kbdgetc.
  apply wp_bind, io_run. eapply wp_mono; [by apply (tm_status _ a)|]. cbn beta. intros r d1 [-> HR1].
  pose proof (screen_dev s t _ _ a d1 a Hs HR Ha HR1 eq_refl eq_refl) as S1. destruct (tm_bytes _ _ HR) as (_ & _ & Hb).
  destruct (t_codes a) as [|c cs] eqn:Ec; cbn [decode].
  - rewrite bool_decide_eq_true_2 by done. apply wp_ret. split_and!; [done..|]. exists [], (t_bytes a). by split_and!.
  - rewrite bool_decide_eq_false_2 by done. apply wp_bind, io_run. eapply wp_mono; [by apply (tm_code _ a c cs)|]. cbn beta. intros r' d2 [-> HR2].
    apply scan_run; [by apply Forall_cons in Hb as [? _]|]. intros Hr. split_and!; [done..|].
    exists cs, (t_bytes a). split; [|done]. exact (screen_dev s t _ _ a d2 _ Hs HR Ha HR2 eq_refl eq_refl).
Qed.

#[global] Program Instance uart_source : Source (on_port uartgetc) := {| chars uart sh codes bytes := if uart =? 0 then [] else bytes |}.
Next Obligation.
  intros s t codes bytes Hs. pose proof Hs as (_ & _ & _ & a & HR & Ha & <- & <-). apply wp_zoom. unfold uartgetc. apply wp_bind, wp_gets.
  destruct (uart (port s) =? 0) eqn:Eu.
  - apply wp_ret. split_and!; [done..|]. exists (t_codes a), (t_bytes a). split; [by destruct s|done].
  - apply wp_bind, wp_zoom. eapply wp_mono; [by apply (tm_line _ a)|]. cbn beta. intros r d1 [-> HR1].
    pose proof (screen_dev s t _ _ a d1 a Hs HR Ha HR1 eq_refl eq_refl) as S1. destruct (tm_bytes _ _ HR) as (_ & _ & Hb).
    destruct (t_bytes a) as [|c cs] eqn:Ec.
    + rewrite bool_decide_eq_true_2 by done. apply wp_ret. split_and!; [done..|]. exists (t_codes a), []. by split_and!.
    + rewrite bool_decide_eq_false_2 by done. apply wp_zoom. eapply wp_mono; [by apply (tm_recv _ a c cs)|]. cbn beta. intros r' d2 [-> HR2].
      split_and!; [done..|]. exists (t_codes a), cs.
      split; [exact (screen_dev s t _ _ a d2 _ Hs HR Ha HR2 eq_refl eq_refl)|]. apply Forall_app in Hb as [_ [H _]%Forall_cons]. done.
Qed.

End Sources.

(** ** Typing a line *)

Fixpoint position (c : Z) (l : list Z) (k : Z) : option Z :=
  match l with [] => None | x :: l => if x =? c then Some k else position c l (k + 1) end.

(** The US keyboard: its rows with the scan code of their first key and the
    characters of the keys without and with shift. *)
Definition us_layout : list (Z * list Z * list Z) :=
  [(2, text "1234567890-=", text "!@#$%^&*()_+");
   (16, text "qwertyuiop[]", text "QWERTYUIOP{}");
   (28, [10], []);
   (30, text "asdfghjkl;'`", text "ASDFGHJKL:" ++ [34] ++ text "~");
   (43, text "\zxcvbnm,./", text "|ZXCVBNM<>?");
   (57, text " ", [])].

(** The scan code of the key of a character and whether it takes shift. *)
Fixpoint key_in (rows : list (Z * list Z * list Z)) (c : Z) : option (Z * bool) :=
  match rows with
  | [] => None
  | (k, plain, shifted) :: rows =>
      match position c plain k, position c shifted k with
      | Some k', _ => Some (k', false)
      | None, Some k' => Some (k', true)
      | None, None => key_in rows c
      end
  end.

(** Pressing and releasing the key of a character, with the left shift key held
    down when it takes one: the release of a key is its code with bit 7 set. *)
Definition stroke (c : Z) : list Z :=
  match key_in us_layout c with
  | Some (k, false) => [k; k + 128]
  | Some (k, true) => [42; k; k + 128; 42 + 128]
  | None => []
  end.

Definition shift_after (sh : Z) (codes : list Z) : Z := foldl (fun sh d => (scan sh d).2) sh codes.

Lemma decode_app sh l k : decode sh (l ++ k) = decode sh l ++ decode (shift_after sh l) k.
Proof. revert sh. induction l as [|d l IH]; intros sh; [done|]. cbn. f_equal. apply IH. Qed.

Lemma decode_length sh l : length (decode sh l) = length l.
Proof. revert sh. induction l as [|d l IH]; intros sh; [done|]. cbn. f_equal. apply IH. Qed.

(** Every printable character and the newline has a key. *)
Definition typed (c : Z) : bool := bool_decide (filter (.≠ 0) (decode 0 (stroke c)) = [c]) && (shift_after 0 (stroke c) =? 0).

Lemma all_typed : forallb typed (10 :: seqZ 32 95) = true.
Proof. by vm_compute. Qed.

Lemma typed_char c : c = 10 \/ printable c -> filter (.≠ 0) (decode 0 (stroke c)) = [c] /\ shift_after 0 (stroke c) = 0.
Proof.
  intros Hc. pose proof all_typed as T. rewrite forallb_forall in T. assert (typed c = true) as H.
  { apply T, list_elem_of_In. destruct Hc as [->|Hc]; [left|right]. apply elem_of_seqZ. unfold printable in Hc. lia. }
  unfold typed in H. apply andb_true_iff in H as [H1%bool_decide_eq_true H2%Z.eqb_eq]. done.
Qed.

Lemma typed_text cs : Forall (fun c => c = 10 \/ printable c) cs ->
  filter (.≠ 0) (decode 0 (cs ≫= stroke)) = cs /\ shift_after 0 (cs ≫= stroke) = 0.
Proof.
  induction 1 as [|c cs Hc Hcs [IH1 IH2]]; [done|]. destruct (typed_char c Hc) as [E1 E2].
  change ((c :: cs) ≫= stroke) with (stroke c ++ (cs ≫= stroke)). split.
  - rewrite decode_app, filter_app, E1, E2. change ([c] ++ filter (.≠ 0) (decode 0 (cs ≫= stroke)) = c :: cs). by rewrite IH1.
  - unfold shift_after in *. by rewrite foldl_app, E2.
Qed.

(** The key 0 does nothing. *)
Lemma key_zero l : key l 0 = l /\ echo l 0 = [] /\ wakes l 0 = false.
Proof. done. Qed.

Lemma keys_nonzero cs : forall l, foldl key l cs = foldl key l (filter (.≠ 0) cs) /\ echoes l cs = echoes l (filter (.≠ 0) cs) /\
  completes l cs = completes l (filter (.≠ 0) cs).
Proof.
  induction cs as [|c cs IH]; intros l; [done|]. rewrite filter_cons. destruct (decide (c <> 0)) as [Hc|Hc].
  - cbn. destruct (IH (key l c)) as (E1 & E2 & E3). by rewrite E1, E2, E3.
  - apply dec_stable in Hc as ->. cbn [foldl echoes completes]. destruct (key_zero l) as (-> & -> & ->). apply IH.
Qed.

(** A printable character is stored and shown. *)
Lemma printable_key l c : printable c -> (length l.1 + length l.2 + 1 < INPUT_BUF)%nat -> key l c = (l.1, l.2 ++ [c]) /\ echo l c = [c].
Proof.
  intros Hc Hn. unfold printable in Hc. unfold key, echo, accepts, ends_line, enter, C, nz.
  rewrite !(proj2 (Z.eqb_neq c _)) by lia. rewrite (proj2 (Nat.ltb_lt _ _)), (proj2 (Nat.eqb_neq _ _)) by lia. done.
Qed.

Lemma printable_keys cs : forall l, Forall printable cs -> (length l.1 + length l.2 + length cs < INPUT_BUF)%nat ->
  foldl key l cs = (l.1, l.2 ++ cs) /\ echoes l cs = cs.
Proof.
  induction cs as [|c cs IH]; intros l Hc Hn; [cbn; by rewrite app_nil_r; destruct l|]. apply Forall_cons in Hc as [Hc Hcs]. cbn [length] in Hn.
  cbn [foldl echoes]. destruct (printable_key l c Hc ltac:(lia)) as [-> ->]. destruct (IH (l.1, l.2 ++ [c]) Hcs) as [-> ->].
  { cbn [fst snd]. rewrite length_app. cbn. lia. }
  cbn [fst snd app]. by rewrite <- app_assoc.
Qed.

Lemma newline_key rdy edit : (length rdy + length edit < INPUT_BUF)%nat ->
  key (rdy, edit) 10 = (rdy ++ edit ++ [10], []) /\ echo (rdy, edit) 10 = [10] /\ wakes (rdy, edit) 10 = true.
Proof. intros Hn. unfold key, echo, wakes, accepts, ends_line. cbn [fst snd]. by rewrite (proj2 (Nat.ltb_lt _ _) Hn). Qed.

Lemma completes_app l cs ds : completes l (cs ++ ds) = completes l cs || completes (foldl key l cs) ds.
Proof. revert l. induction cs as [|c cs IH]; intros l; [done|]. cbn. by rewrite IH, orb_assoc. Qed.

Lemma echoes_app l cs ds : echoes l (cs ++ ds) = echoes l cs ++ echoes (foldl key l cs) ds.
Proof. revert l. induction cs as [|c cs IH]; intros l; [done|]. cbn. by rewrite IH, app_assoc. Qed.

(** Reading up to the newline. *)
Lemma read_line n target killed : forall got cs rest, Forall printable cs -> (length cs < n <= target)%nat ->
  line_read n target killed got (cs ++ 10 :: rest) = (CRet (Z.of_nat (target - (n - (length cs + 1)))) (got ++ cs ++ [10]), rest).
Proof.
  induction n as [|n IH]; intros got cs rest Hc Hn; [lia|]. cbn [line_read]. destruct cs as [|c cs]; cbn [app length].
  - change (10 =? C 68) with false. change (10 =? 10) with true. cbn iota. do 3 f_equal. lia.
  - apply Forall_cons in Hc as [Hc Hcs]. unfold printable in Hc. rewrite !(proj2 (Z.eqb_neq c _)) by (unfold C; lia).
    cbn [length] in Hn. rewrite (IH _ cs rest Hcs) by lia. rewrite <- app_assoc. cbn [app]. done.
Qed.

Definition keystrokes (cs : list Z) : list Z := cs ≫= stroke.

Lemma line_keys cs : Forall printable cs -> (length cs < INPUT_BUF)%nat ->
  let ks := decode 0 (keystrokes (cs ++ [10])) in
  foldl key ([], []) ks = (cs ++ [10], []) /\ echoes ([], []) ks = cs ++ [10] /\ completes ([], []) ks = true /\ C 80 ∉ ks.
Proof.
  intros Hc Hn ks. destruct (typed_text (cs ++ [10])) as [E _].
  { apply Forall_app. split; [|by constructor; [left|]]. eapply Forall_impl; [exact Hc|]. by right. }
  change (filter (.≠ 0) ks = cs ++ [10]) in E. destruct (keys_nonzero ks ([], [])) as (E1 & E2 & E3). rewrite E1, E2, E3, E, foldl_app, echoes_app, completes_app.
  destruct (printable_keys cs ([], []) Hc) as [-> ->]; [done|]. cbn [fst snd app foldl echoes completes].
  destruct (newline_key [] cs) as (-> & -> & ->); [done|]. rewrite orb_true_r. split_and!; [done..|].
  intros H. assert (C 80 ∈ filter (.≠ 0) ks) as H' by (by apply list_elem_of_filter). rewrite E in H'.
  apply elem_of_app in H' as [H'|H']; [|by apply list_elem_of_singleton in H'].
  rewrite Forall_forall in Hc. apply Hc in H'. unfold printable, C in H'. lia.
Qed.

(** C24: A line typed on a US keyboard is read.  When nothing is being edited and
    the scan codes that the keyboard's layout ([us_layout]) gives for a line of at
    most 127 printable characters and for the return key wait, [kbdintr] returns
    and wakes the readers, the screen shows the line as a plain terminal would, and
    [consoleread] of enough bytes returns exactly the line with its newline and
    leaves nothing behind. *)
Theorem typed_line_read {D : Type} {HW : Hardware D} {TM : Terminal D} (s : con D) (t bytes cs : list Z) (fuel : nat) (dump iunlock ilock : M (con D) unit) (n : Z) (killed : bool)
    (Hs : console s t (keystrokes (cs ++ [10])) bytes ([], [])) (Hh : held s = false) (Hsh : shift s = 0)
    (Hd : prints dump) (Hu : forall s, iunlock s = Ret tt s) (Hi : forall s, ilock s = Ret tt s)
    (Hcs : Forall printable cs) (Hlen : (length cs < INPUT_BUF)%nat) (Hf : (length (keystrokes (cs ++ [10]%Z)) < fuel)%nat)
    (Hn : Z.of_nat (length cs) < n) :
  exists s1 s2, kbdintr fuel dump s = Ret true s1 /\
    consoleread iunlock ilock n killed s1 = Ret (CRet (Z.of_nat (length cs) + 1) (cs ++ [10])) s2 /\
    held s2 = false /\ exists bytes', console s2 (foldl term t (cs ++ [10])) [] bytes' ([], []).
Proof.
  destruct (line_keys cs Hcs Hlen) as (E1 & E2 & E3 & E4).
  enough (wp (kbdintr fuel dump) s (fun w s1 => w = true /\ wp (consoleread iunlock ilock n killed) s1 (fun r s2 =>
    r = CRet (Z.of_nat (length cs) + 1) (cs ++ [10]) /\ held s2 = false /\ exists bytes', console s2 (foldl term t (cs ++ [10])) [] bytes' ([], [])))) as W.
  { apply wp_exists in W as (w & s1 & -> & -> & W). apply wp_exists in W as (r & s2 & W & -> & H). by exists s1, s2. }
  unfold kbdintr. eapply consoleintr_run; [exact Hs|exact Hh|cbn [chars kbd_source]; by rewrite Hsh| |exact Hd|].
  { rewrite decode_length. done. }
  rewrite E1, E2, E3. intros s1 t1 codes1 bytes1 C1 T1 N1 L1 L2 L3. specialize (T1 E4) as ->. split; [done|]. unfold consoleread.
  apply wp_bind. unfold wp at 1. rewrite Hu. eapply (read_segment_run _ _ _ _ _ _ _ _ _ (cs ++ [10]) []); [exact Hi|exact C1|exact L2|].
  rewrite (read_line _ _ _ [] cs []) by (done || lia). cbn [fst snd app]. intros i C2. split; [f_equal; lia|]. split; [exact L2|].
  exists bytes1. cbn [chars kbd_source] in N1. by destruct codes1.
Qed.

(** ** Interrupts, readers and writers in any order *)

#[global] Instance cres_eq : EqDecision cres.
Proof. solve_decision. Defined.

(** Keys that an interrupt took, and a segment of a read with its result. *)
Inductive cevent := Keys (cs : list Z) | Reads (n target : nat) (killed : bool) (got : list Z) (r : cres).

(** The line editor does what happened, if it can have the same results. *)
Definition event (l : lines) (e : cevent) : option lines :=
  match e with
  | Keys cs => Some (foldl key l cs)
  | Reads n target killed got r =>
      let '(r', rdy) := line_read n target killed got l.1 in
      if decide (r' = r) then Some (rdy, l.2) else None
  end.

Definition retrace (h : list cevent) : option lines := foldl (fun o e => o ≫= fun l => event l e) (Some ([], [])) h.

Lemma retrace_snoc h e l : retrace h = Some l -> retrace (h ++ [e]) = event l e.
Proof. intros H. unfold retrace in *. by rewrite foldl_app, H. Qed.

(** A process in [consoleread]: asleep, woken, or with its result. *)
Inductive reader := RAsleep (n target : nat) (got : list Z) | RWoken (n target : nat) (got : list Z) | RDone (r : Z) (got : list Z).

Definition after_read (target : nat) (r : cres) : reader :=
  match r with CRet r bs => RDone r bs | CSleep n bs => RAsleep n target bs end.
Definition wake (r : reader) : reader := match r with RAsleep n target got => RWoken n target got | _ => r end.

(** A sleeping reader has nothing to read. *)
Definition no_line (rdy : list Z) (r : reader) : Prop := match r with RAsleep _ _ _ => rdy = [] | _ => True end.

Lemma completes_ready cs : forall l, completes l cs = false -> (foldl key l cs).1 = l.1.
Proof.
  induction cs as [|c cs IH]; intros l H; [done|]. cbn [completes foldl] in *. apply orb_false_iff in H as [H1 H2]. rewrite (IH _ H2).
  unfold key, wakes in *. destruct (c =? C 85); [done|]. destruct (_ || _); [done|]. destruct (accepts l c); [|done].
  cbn [negb andb] in H1. by rewrite H1.
Qed.

Lemma line_read_sleep n target killed : forall got rdy k bs rdy', line_read n target killed got rdy = (CSleep k bs, rdy') -> rdy' = [].
Proof.
  induction n as [|n IH]; intros got rdy k bs rdy' H; cbn [line_read] in H; [done|]. destruct rdy as [|c rest]; [by destruct killed; injection H as _ <-|].
  destruct (c =? C 68); [done|]. destruct (c =? 10); [done|]. by eapply IH.
Qed.

Lemma line_read_nil n target killed got : (line_read n target killed got []).2 = [].
Proof. by destruct n. Qed.

Section System.
Context {D : Type} {HW : Hardware D} {TM : Terminal D}.

Record csys := mkcsys { cstate : con D; readers : list reader; trace : list cevent }.

(** Keys are pressed and bytes arrive; an interrupt takes what there is; a process
    writes; a process reads, or goes on reading once it is woken, by an interrupt
    or because it is killed.  The lock of the console's inode is not part of the
    console. *)
Inductive cstep : csys -> csys -> Prop :=
| cs_hardware s p t codes bytes codes' bytes' :
    screen (cstate s) t codes bytes -> screen (set_port p (cstate s)) t codes' bytes' -> uart p = uart (port (cstate s)) ->
    cstep s (mkcsys (set_port p (cstate s)) (readers s) (trace s))
| cs_intr s getc `{!Source getc} fuel m ps t codes bytes w c :
    screen (cstate s) t codes bytes -> (length (chars (uart (port (cstate s))) (shift (cstate s)) codes bytes) < fuel)%nat ->
    consoleintr fuel (procdump m ps) getc (cstate s) = Ret w c ->
    cstep s (mkcsys c (if w then wake <$> readers s else readers s) (trace s ++ [Keys (chars (uart (port (cstate s))) (shift (cstate s)) codes bytes)]))
| cs_write s buf n r c :
    n <= Z.of_nat (length buf) -> consolewrite (ret tt) (ret tt) buf n (cstate s) = Ret r c ->
    cstep s (mkcsys c (readers s) (trace s))
| cs_read s n killed r c :
    consoleread (ret tt) (ret tt) n killed (cstate s) = Ret r c ->
    cstep s (mkcsys c (readers s ++ [after_read (Z.to_nat n) r]) (trace s ++ [Reads (Z.to_nat n) (Z.to_nat n) killed [] r]))
| cs_kill s i n target got :
    readers s !! i = Some (RAsleep n target got) -> cstep s (mkcsys (cstate s) (<[i := RWoken n target got]> (readers s)) (trace s))
| cs_resume s i n target got killed r c :
    readers s !! i = Some (RWoken n target got) -> read_segment (ret tt) n target killed got (cstate s) = Ret r c ->
    cstep s (mkcsys c (<[i := after_read target r]> (readers s)) (trace s ++ [Reads n target killed got r])).

Record cinv (s : csys) (l : lines) : Prop := {
  ci_console : exists t codes bytes, console (cstate s) t codes bytes l;
  ci_lock : held (cstate s) = false;
  ci_trace : retrace (trace s) = Some l;
  ci_readers : Forall (no_line l.1) (readers s);
}.

Lemma consolewrite_run buf n s t codes bytes (Q : Z -> con D -> Prop) : n <= Z.of_nat (length buf) -> held s = false -> screen s t codes bytes ->
  (forall s', screen s' (foldl term t ((fun c => Z.land c 255) <$> take (Z.to_nat n) buf)) codes bytes -> keeps s s' -> Q n s') ->
  wp (consolewrite (ret tt) (ret tt) buf n) s Q.
Proof.
  intros Hn Hh Hs HQ. unfold consolewrite. apply wp_bind, wp_ret, wp_bind, lock_cons_run; [done|]. apply wp_bind.
  apply (wp_for_indices (fun j s' => screen s' (foldl term t ((fun c => Z.land c 255) <$> take j buf)) codes bytes /\ keeps (set_held true s) s')).
  - intros j s1 Hj [S1 K1]. assert (is_Some (buf !! j)) as [c Hc] by (apply lookup_lt_is_Some_2; lia).
    apply wp_bind, (wp_deref _ c); [done|]. eapply consputc_run; [exact S1|]. intros s2 S2 K2. split; [|by eapply con_keeps_trans].
    rewrite (take_S_r _ _ _ Hc), fmap_app, foldl_app. done.
  - rewrite take_0. split; [exact Hs|apply con_keeps_refl].
  - intros s1 [S1 (K1 & K2 & K3 & K4 & K5)]. apply wp_bind, unlock_cons_run; [done|]. apply wp_bind, wp_ret, wp_ret. apply HQ; [exact S1|by split_and!].
Qed.

Lemma readers_read (l : lines) n target killed got rds : Forall (no_line l.1) rds ->
  Forall (no_line (line_read n target killed got l.1).2) rds /\ no_line (line_read n target killed got l.1).2 (after_read target (line_read n target killed got l.1).1).
Proof.
  intros H. split.
  - eapply Forall_impl; [exact H|]. intros [] Hr; [|done..]. cbn in *. rewrite Hr. apply line_read_nil.
  - destruct (line_read n target killed got l.1) as [[r bs|k bs] rdy'] eqn:E; cbn; [done|]. by eapply line_read_sleep.
Qed.

(** One segment of a read, from either place. *)
Lemma cinv_read s l n target killed got : cinv s l ->
  wp (read_segment (ret tt) n target killed got) (cstate s) (fun r c => forall rds,
    Forall (no_line l.1) rds -> exists l', cinv (mkcsys c rds (trace s ++ [Reads n target killed got r])) l' /\ no_line l'.1 (after_read target r)).
Proof.
  intros [(t & codes & bytes & Hc) Hl Ht Hr]. destruct l as [rdy edit].
  eapply read_segment_run; [done|exact Hc|exact Hl|]. intros i Hi rds Hrds.
  destruct (readers_read (rdy, edit) n target killed got rds Hrds) as [H1 H2]. cbn [fst snd] in H1, H2.
  exists ((line_read n target killed got rdy).2, edit). split; [|exact H2]. split; cbn [cstate readers trace]; [by eexists _, _, _|done| |done].
  rewrite (retrace_snoc _ _ _ Ht). cbn [event fst snd]. destruct (line_read n target killed got rdy). cbn [fst snd]. by rewrite decide_True.
Qed.

Lemma cinv_intr s l getc {SC : Source getc} fuel m ps t codes bytes : cinv s l -> screen (cstate s) t codes bytes ->
  (length (chars (uart (port (cstate s))) (shift (cstate s)) codes bytes) < fuel)%nat ->
  wp (consoleintr fuel (procdump m ps) getc) (cstate s) (fun w c => exists l',
    cinv (mkcsys c (if w then wake <$> readers s else readers s) (trace s ++ [Keys (chars (uart (port (cstate s))) (shift (cstate s)) codes bytes)])) l').
Proof.
  intros [(t0 & codes0 & bytes0 & _ & R & Hst) Hl Ht Hr] Hs Hf. eapply (consoleintr_run getc); [by split_and!|done|done|done|apply prints_procdump|].
  intros s' t' codes' bytes' C1 _ _ _ L1 _. eexists. split; cbn [cstate readers trace]; [by eexists _, _, _|done|by rewrite (retrace_snoc _ _ _ Ht)|].
  destruct (completes l _) eqn:E; [|by rewrite completes_ready]. apply Forall_fmap, Forall_true. by intros [].
Qed.

Lemma cinv_step s s' l : cinv s l -> cstep s s' -> exists l', cinv s' l'.
Proof.
  intros I Hs. pose proof I as [(t0 & codes0 & bytes0 & S0 & R & Hst) Hl Ht Hr].
  destruct Hs as [s p t codes bytes codes' bytes' S1 S2 Eu|s getc SC fuel m ps t codes bytes w c S1 Hf E|s buf n r c Hn E|s n killed r c E|s i n target got Hi|s i n target got killed r c Hi E].
  - exists l. split; cbn [cstate readers trace]; [|done..]. by exists t, codes', bytes'.
  - pose proof (cinv_intr s l getc fuel m ps t codes bytes I S1 Hf) as W. unfold wp in W. by rewrite E in W.
  - exists l. enough (wp (consolewrite (ret tt) (ret tt) buf n) (cstate s) (fun _ c => cinv (mkcsys c (readers s) (trace s)) l)) as W by (unfold wp in W; by rewrite E in W).
    eapply consolewrite_run; [done|done|exact S0|]. intros s1 S1 (K1 & K2 & K3 & K4 & K5). split; cbn [cstate readers trace]; [|by rewrite K2|done..].
    eexists _, _, _. split_and!; [exact S1| |done]. by rewrite K3.
  - pose proof (cinv_read s l (Z.to_nat n) (Z.to_nat n) killed [] I) as W. unfold wp in W.
    change (read_segment (ret tt) (Z.to_nat n) (Z.to_nat n) killed [] (cstate s)) with (consoleread (ret tt) (ret tt) n killed (cstate s)) in W. rewrite E in W.
    destruct (W (readers s) Hr) as (l' & [I1 I2 I3 I4] & H). exists l'. split; cbn [cstate readers trace] in *; [done..|]. by apply Forall_app; split; [|constructor].
  - exists l. split; cbn [cstate readers trace]; [by eexists _, _, _|done..|]. by apply Forall_insert.
  - pose proof (cinv_read s l n target killed got I) as W. unfold wp in W. rewrite E in W. destruct (W (readers s) Hr) as (l' & [I1 I2 I3 I4] & H).
    exists l'. split; cbn [cstate readers trace] in *; [done..|]. by apply Forall_insert.
Qed.

Lemma cinv_reach s0 s : readers s0 = [] -> trace s0 = [] -> held (cstate s0) = false ->
  (exists t codes bytes, console (cstate s0) t codes bytes ([], [])) -> rtc cstep s0 s -> exists l, cinv s l.
Proof.
  intros H1 H2 H3 H4 Hr. assert (exists l, cinv s0 l) as HI.
  { exists ([], []). split; [done|done|by rewrite H2|by rewrite H1]. }
  clear H1 H2 H3 H4. induction Hr as [s|s s1 s2 Hs _ IH]; [done|]. apply IH. destruct HI as [l I]. by eapply cinv_step.
Qed.

End System.

(** C23: The console is a line editor.  Whatever the order in which keys and serial
    bytes arrive, interrupts take them, and processes write, read, sleep, are
    woken or killed: everything that readers got is what the editor on lists gives
    for the same events; the ring holds its lines; a reader sleeps only while no
    line is ready; and the next call of the interrupt handler, also with a process
    listing, and of [consoleread] returns, with [cons.lock] free again. *)
Theorem console_lines {D : Type} {HW : Hardware D} {TM : Terminal D} (c0 : con D) (t0 codes0 bytes0 : list Z) (s : csys)
    (Hc : console c0 t0 codes0 bytes0 ([], [])) (Hh : held c0 = false) (Hr : rtc cstep (mkcsys c0 [] []) s) :
  exists l t codes bytes, retrace (trace s) = Some l /\ console (cstate s) t codes bytes l /\
    (forall n target got, RAsleep n target got ∈ readers s -> l.1 = []) /\
    (forall fuel m ps, (length codes < fuel)%nat -> exists w c, kbdintr fuel (procdump m ps) (cstate s) = Ret w c /\ held c = false) /\
    (forall n killed, exists r c, consoleread (ret tt) (ret tt) n killed (cstate s) = Ret r c /\ held c = false).
Proof.
  destruct (cinv_reach (mkcsys c0 [] []) s eq_refl eq_refl Hh (ex_intro _ t0 (ex_intro _ codes0 (ex_intro _ bytes0 Hc))) Hr) as [l I].
  pose proof I as [(t & codes & bytes & C1) Hl Ht Hrd]. exists l, t, codes, bytes. split_and!; [done|done| | |].
  - intros n target got H. rewrite Forall_forall in Hrd. exact (Hrd _ H).
  - intros fuel m ps Hf. enough (wp (kbdintr fuel (procdump m ps)) (cstate s) (fun _ c => held c = false)) as W.
    { apply wp_exists in W as (w & c & H). by exists w, c. }
    eapply consoleintr_run; [exact C1|exact Hl|done|by cbn [chars kbd_source]; rewrite decode_length|apply prints_procdump|]. done.
  - intros n killed. enough (wp (consoleread (ret tt) (ret tt) n killed) (cstate s) (fun _ c => held c = false)) as W.
    { apply wp_exists in W as (w & c & H). by exists w, c. }
    unfold consoleread. apply wp_bind, wp_ret. destruct l as [rdy edit]. eapply read_segment_run; [done|exact C1|exact Hl|]. done.
Qed.

(** A terminal for the witnesses. *)
#[local] Instance demo_hw : Hardware tdev := {
  inb p t := Ret (if p =? CRTPORT + 1 then t_data t
                  else if p =? KBSTATP then match t_codes t with [] => 0 | _ => KBS_DIB end
                  else if p =? KBDATAP then default 0 (head (t_codes t))
                  else if p =? COM1 + 5 then match t_bytes t with [] => 32 | _ => 33 end
                  else default 0 (head (t_bytes t)))
                 (if p =? KBDATAP then mktdev (t_sel t) (t_hi t) (t_lo t) (tail (t_codes t)) (t_bytes t)
                  else if p =? COM1 then mktdev (t_sel t) (t_hi t) (t_lo t) (t_codes t) (tail (t_bytes t))
                  else t);
  outb p v t := Ret tt (if p =? CRTPORT then t_select v t else if p =? CRTPORT + 1 then t_store v t else t);
  insl p n t := Ret [] t;
  outsl p bs t := Ret tt t;
  mmio_read p t := Ret 0 t;
  mmio_write p v t := Ret tt t;
  mem_write16 p v t := Ret tt t;
}.

#[local] Instance demo_terminal : Terminal tdev.
Proof.
  refine {| trepr := fun d t => d = t /\ 0 <= t_hi t < 256 /\ 0 <= t_lo t < 256 /\ Forall (fun c => 0 <= c < 256) (t_codes t ++ t_bytes t) |}.
  - by intros d t [_ H].
  - by intros d t v [-> H].
  - by intros d t [-> H] _.
  - intros d t v [-> (H1 & H2 & H3)] _ Hv. split; [done|]. unfold t_store. by destruct (t_sel t =? 14).
  - intros d t [-> H]. split; [|done]. by destruct (t_codes t).
  - intros d t c cs [-> (H1 & H2 & H3)] E. unfold wp. cbn. rewrite E in H3 |- *. split_and!; try done; [lia..|]. by apply Forall_cons in H3 as [_ H3].
  - intros d t [-> H]. split; [|done]. by destruct (t_bytes t).
  - intros d t c cs [-> (H1 & H2 & H3)] E. unfold wp. cbn. rewrite E in H3 |- *. split_and!; try done; [lia..|].
    apply Forall_app in H3 as [H3 [_ H4]%Forall_cons]. by apply Forall_app.
  - by intros d t v [-> H].
Defined.

Definition demo_con (codes : list Z) : con tdev :=
  mkcon 0 1 false (replicate 2000 0) (mkinput (replicate 128 0) 0 0 0) 0 (mkserial 1 (mktdev 0 0 0 codes [])).

Lemma demo_console codes : forallb is_byte codes = true -> console (demo_con codes) [] codes [] ([], []).
Proof.
  intros Hb. assert (Forall (fun c => 0 <= c < 256) codes) as Hf.
  { apply Forall_forall. intros c Hc%list_elem_of_In. rewrite forallb_forall in Hb. apply Hb in Hc. unfold is_byte in Hc. b2p. lia. }
  split_and!; [| |apply settled_nil].
  - split_and!; [done|done|split_and!; [apply Nat.leb_le; by vm_compute|cbn; lia|by vm_compute]|]. exists (mktdev 0 0 0 codes []). split; [|done].
    split; [done|]. cbn. rewrite app_nil_r. split; [lia|split; [lia|done]].
  - split; [done|by cbn|done|done|cbn; lia|done].
Qed.

(** [typed_line_read] for a short line. *)
Lemma typed_line_read_witness : exists s1 s2, kbdintr 100 (ret tt) (demo_con (keystrokes (text "Hi!" ++ [10]))) = Ret true s1 /\
  consoleread (ret tt) (ret tt) 100 false s1 = Ret (CRet 4 (text "Hi!" ++ [10])) s2.
Proof.
  destruct (typed_line_read (demo_con (keystrokes (text "Hi!" ++ [10]))) [] [] (text "Hi!") 100 (ret tt) (ret tt) (ret tt) 100 false)
    as (s1 & s2 & H1 & H2 & _); [by apply demo_console; vm_compute|done|done|apply prints_ret|done|done|change (Forall printable [72; 105; 33]); repeat (apply Forall_cons_2; [unfold printable; lia|]); apply Forall_nil_2|by apply Nat.ltb_lt; vm_compute|by apply Nat.ltb_lt; vm_compute|done|].
  exists s1, s2. split; [exact H1|exact H2].
Defined.

Definition demo_line : list Z := keystrokes (text "ls" ++ [10]).
Definition demo1 : con tdev := set_port (mkserial 1 (mktdev 0 0 0 demo_line [])) (demo_con []).
Definition demo2 : con tdev := match consoleintr 20 (procdump (fun _ => 0) []) kbdgetc demo1 with Ret _ c => c | _ => demo1 end.
Definition demo_end : csys := mkcsys demo2 [RWoken 64 64 []] [Reads 64 64 false [] (CSleep 64 []); Keys (decode 0 demo_line)].

(** [console_lines] for a process that waits for a line that is then typed. *)
Lemma console_lines_witness : rtc cstep (mkcsys (demo_con []) [] []) demo_end /\
  exists l, retrace (trace demo_end) = Some l /\ exists t codes bytes, console (cstate demo_end) t codes bytes l.
Proof.
  assert (rtc cstep (mkcsys (demo_con []) [] []) demo_end) as Hr.
  { eapply rtc_l; [eapply (cs_read _ 64 false (CSleep 64 [])); vm_compute; reflexivity|].
    eapply rtc_l; [eapply (cs_hardware _ (port demo1) [] [] [] demo_line []); [apply demo_console; by vm_compute|apply (demo_console demo_line); by vm_compute|done]|].
    eapply rtc_l; [eapply (cs_intr _ kbdgetc 20 (fun _ => 0) [] [] demo_line [] true demo2); [apply (demo_console demo_line); by vm_compute|by apply Nat.ltb_lt; vm_compute|vm_compute; reflexivity]|].
    apply rtc_refl. }
  split; [exact Hr|].
  destruct (console_lines (demo_con []) [] [] [] demo_end) as (l & t & codes & bytes & H1 & H2 & _); [by apply demo_console|done|exact Hr|].
  exists l. split; [exact H1|by exists t, codes, bytes].
Defined.
