(* ===== verification/Bio.v ===== *)
(** * Buffer cache ([bio.c], [buf.h], [memide.c])

    The array of buffers with its ring of [prev] and [next] pointers, over the
    memory disk of [memide.c].  The disk keeps the list of its writes, so that
    later files can say what a crash leaves behind.  Code under [bcache.lock] is
    one step. *)
From S2P Require Import Prelude Sleeplock.

Definition BSIZE : nat := 512.
Definition NBUF : nat := 30.
Definition B_VALID : Z := 2.
Definition B_DIRTY : Z := 4.

Abbreviation block := (list Z) (only parsing).

Record buf := mkbuf {
  flags : Z;
  dev : Z;
  blockno : Z;
  lock : sleeplock;
  refcnt : Z;
  data : block;
}.

Definition set_flags v b := mkbuf v (dev b) (blockno b) (lock b) (refcnt b) (data b).
Definition set_lock v b := mkbuf (flags b) (dev b) (blockno b) v (refcnt b) (data b).
Definition set_refcnt v b := mkbuf (flags b) (dev b) (blockno b) (lock b) v (data b).
Definition set_data v b := mkbuf (flags b) (dev b) (blockno b) (lock b) (refcnt b) v.

(** The nodes of the ring are the buffers 0 .. NBUF-1 and the head, node NBUF.
    [hist] is every write the disk has seen, oldest first. *)
Record bst := mkbst {
  bufs : list buf;
  prevs : list nat;
  nexts : list nat;
  disk : Z -> block;
  hist : list (Z * block);
}.

Definition set_bufs l s := mkbst l (prevs s) (nexts s) (disk s) (hist s).
Definition set_links pv nx s := mkbst (bufs s) pv nx (disk s) (hist s).

Definition head : nat := NBUF.

Definition buf0 : buf := mkbuf 0 0 0 initsleeplock 0 (repeat 0 BSIZE).

(** The zero-initialised cache over a disk. *)
Definition bcache0 (d : Z -> block) : bst :=
  mkbst (repeat buf0 NBUF) (repeat 0%nat (S NBUF)) (repeat 0%nat (S NBUF)) d [].

Definition write_disk (b : Z) (v : block) (d : Z -> block) : Z -> block :=
  fun x => if x =? b then v else d x.

(** ** The ring *)

Definition next_of (b : nat) : M bst nat := fun s => deref (nexts s !! b) s.
Definition prev_of (b : nat) : M bst nat := fun s => deref (prevs s !! b) s.
Definition set_next (b v : nat) : M bst unit :=
  modify (fun s => set_links (prevs s) (<[b := v]> (nexts s)) s).
Definition set_prev (b v : nat) : M bst unit :=
  modify (fun s => set_links (<[b := v]> (prevs s)) (nexts s) s).

(** [b->next = head.next; b->prev = &head; head.next->prev = b; head.next = b] *)
Definition insert_front (b : nat) : M bst unit :=
  let! n := next_of head in
  set_next b n ;;
  set_prev b head ;;
  let! n := next_of head in
  set_prev n b ;;
  set_next head b.

(** [b->next->prev = b->prev; b->prev->next = b->next] *)
Definition unlink (b : nat) : M bst unit :=
  let! n := next_of b in
  let! p := prev_of b in
  set_prev n p ;;
  let! p := prev_of b in
  let! n := next_of b in
  set_next p n.

(** ** Buffers *)

Definition getb (b : nat) : M bst buf := fun s => deref (bufs s !! b) s.
Definition setb (b : nat) (f : buf -> buf) : M bst unit :=
  getb b ;; modify (fun s => set_bufs (alter f b (bufs s)) s).

Definition init_buf (b : nat) : M bst unit :=
  let! n := next_of head in
  set_next b n ;;
  set_prev b head ;;
  setb b (set_lock initsleeplock) ;;
  let! n := next_of head in
  set_prev n b ;;
  set_next head b.

Definition binit : M bst unit :=
  set_prev head head ;;
  set_next head head ;;
  for_each (indices NBUF) init_buf.

(** [for(b = head.next; b != &head; b = b->next)] until the test holds; a ring
    of NBUF buffers and the head is left after NBUF rounds. *)
Fixpoint walk (step : nat -> M bst nat) (test : buf -> bool) (fuel b : nat) : M bst (option nat) :=
  if bool_decide (b = head) then ret None
  else match fuel with
       | O => fault "ring"
       | S fuel =>
           let! x := getb b in
           if test x then ret (Some b)
           else let! b' := step b in walk step test fuel b'
       end.

Definition has_flag (f : Z) (b : buf) : bool := nz (Z.land (flags b) f).

Section Process.

(** [me]: the pid of the running process; [disksize]: the memory disk's blocks. *)
Variables (me disksize : Z).

Definition lock_buf (b : nat) : M bst unit :=
  let! x := getb b in
  fun s => match acquiresleep me (lock x) with
           | Ret _ lk => setb b (set_lock lk) s
           | Stop e => Stop e
           | Wait c _ => Wait c s
           end.

Definition unlock_buf (b : nat) : M bst unit :=
  let! x := getb b in
  fun s => match releasesleep (lock x) with
           | Ret _ lk => setb b (set_lock lk) s
           | Stop e => Stop e
           | Wait c _ => Wait c s
           end.

Definition holding_buf (b : nat) : M bst bool :=
  let! x := getb b in
  fun s => match holdingsleep me (lock x) with
           | Ret r _ => Ret r s
           | Stop e => Stop e
           | Wait c _ => Wait c s
           end.

Definition bget (d n : Z) : M bst nat :=
  let! b := next_of head in
  let! r := walk next_of (fun x => (dev x =? d) && (blockno x =? n)) NBUF b in
  match r with
  | Some b =>
      setb b (fun x => set_refcnt (u32 (refcnt x + 1)) x) ;;
      lock_buf b ;;
      ret b
  | None =>
      let! b := prev_of head in
      let! r := walk prev_of (fun x => (refcnt x =? 0) && negb (has_flag B_DIRTY x)) NBUF b in
      match r with
      | Some b =>
          setb b (fun x => mkbuf 0 d n (lock x) 1 (data x)) ;;
          lock_buf b ;;
          ret b
      | None => panic "bget: no buffers"
      end
  end.

Definition iderw (b : nat) : M bst unit :=
  let! h := holding_buf b in
  if negb h then panic "iderw: buf not locked"
  else
    let! x := getb b in
    if Z.land (flags x) (Z.lor B_VALID B_DIRTY) =? B_VALID then panic "iderw: nothing to do"
    else if negb (dev x =? 1) then panic "iderw: request not for disk 1"
    else if disksize <=? blockno x then panic "iderw: block out of range"
    else
      (if has_flag B_DIRTY x then
         setb b (fun x => set_flags (Z.land (flags x) (Z.lnot B_DIRTY)) x) ;;
         modify (fun s => mkbst (bufs s) (prevs s) (nexts s)
                   (write_disk (blockno x) (data x) (disk s))
                   (hist s ++ [(blockno x, data x)]))
       else
         let! s := get in
         setb b (set_data (disk s (blockno x)))) ;;
      setb b (fun x => set_flags (Z.lor (flags x) B_VALID) x).

Definition bread (d n : Z) : M bst nat :=
  let! b := bget d n in
  let! x := getb b in
  (if has_flag B_VALID x then ret tt else iderw b) ;;
  ret b.

Definition bwrite (b : nat) : M bst unit :=
  let! h := holding_buf b in
  if negb h then panic "bwrite"
  else
    setb b (fun x => set_flags (Z.lor (flags x) B_DIRTY) x) ;;
    iderw b.

Definition brelse (b : nat) : M bst unit :=
  let! h := holding_buf b in
  if negb h then panic "brelse"
  else
    unlock_buf b ;;
    setb b (fun x => set_refcnt (u32 (refcnt x - 1)) x) ;;
    let! x := getb b in
    if refcnt x =? 0 then unlink b ;; insert_front b else ret tt.

End Process.

(** ** The ring is a list *)

Definition link (nx pv : list nat) (x y : nat) : Prop := nx !! x = Some y /\ pv !! y = Some x.

Fixpoint linked (nx pv : list nat) (c : list nat) : Prop :=
  match c with
  | [] => True
  | x :: t => match t with
              | [] => True
              | y :: _ => link nx pv x y /\ linked nx pv t
              end
  end.

(** The ring holds the buffers [l], first the most recently used. *)
Record ring (nx pv l : list nat) : Prop := {
  ring_links : linked nx pv (head :: l ++ [head]);
  ring_nodup : NoDup (head :: l);
  ring_all : forall b, b ∈ l <-> (b < NBUF)%nat;
  ring_nx : length nx = S NBUF;
  ring_pv : length pv = S NBUF;
}.

Section Ring.
Implicit Types (nx pv l c : list nat).

Lemma linked_app nx pv A p n B :
  linked nx pv (A ++ p :: n :: B) <->
  linked nx pv (A ++ [p]) /\ link nx pv p n /\ linked nx pv (n :: B).
Proof.
  induction A as [|x A IH]; [cbn; tauto|].
  destruct A as [|y A]; cbn in *; [tauto|]. rewrite IH. tauto.
Qed.

(** Updates elsewhere do not disturb a chain: [nx] may change at nodes that are
    not the source of a link, [pv] at nodes that are not its target. *)
Lemma linked_frame nx pv nx' pv' c :
  (forall x, x ∈ removelast c -> nx' !! x = nx !! x) ->
  (forall y, y ∈ tail c -> pv' !! y = pv !! y) ->
  linked nx pv c -> linked nx' pv' c.
Proof.
  induction c as [|x [|y c] IH]; intros Hn Hp H; [done..|].
  destruct H as [[H1 H2] H]. split; [split|].
  - rewrite Hn; [done|]. cbn. set_solver.
  - rewrite Hp; [done|]. cbn. set_solver.
  - apply IH; [| |done].
    + intros z Hz. apply Hn. change (removelast (x :: y :: c)) with (x :: removelast (y :: c)). set_solver.
    + intros z Hz. apply Hp. cbn in *. set_solver.
Qed.

Lemma removelast_snoc {A} (l : list A) x : removelast (l ++ [x]) = l.
Proof. rewrite removelast_app by done. cbn. by rewrite app_nil_r. Qed.

Lemma snoc_split (x : nat) l : exists A p, x :: l = A ++ [p].
Proof. destruct (exists_last (l := x :: l)) as (A & p & E); [done|]. eauto. Qed.

Lemma cons_split l (x : nat) : exists n B, l ++ [x] = n :: B.
Proof. destruct l; eauto. Qed.

Lemma linked_unlink nx pv l1 b l2 p n : NoDup (head :: l1 ++ b :: l2) ->
  length nx = S NBUF -> length pv = S NBUF ->
  (forall x, x ∈ head :: l1 ++ b :: l2 -> (x <= NBUF)%nat) ->
  linked nx pv (head :: (l1 ++ b :: l2) ++ [head]) ->
  nx !! b = Some n -> pv !! b = Some p ->
  linked (<[p := n]> nx) (<[n := p]> pv) (head :: (l1 ++ l2) ++ [head]).
Proof.
  intros Hnd Hnx Hpv Hle H Hn Hp.
  destruct (snoc_split head l1) as (A & p' & EA). destruct (cons_split l2 head) as (n' & B & EB).
  assert (E : head :: (l1 ++ b :: l2) ++ [head] = A ++ p' :: b :: n' :: B).
  { rewrite <- !app_assoc. cbn. rewrite EB. change (head :: l1 ++ b :: n' :: B) with ((head :: l1) ++ b :: n' :: B).
    by rewrite EA, <- app_assoc. }
  rewrite E in H. apply linked_app in H as (HA & Hpb & HB).
  destruct HB as [Hbn HB].
  assert (p' = p) as -> by (destruct Hpb; congruence).
  assert (n' = n) as -> by (destruct Hbn; congruence).
  assert (E' : head :: (l1 ++ l2) ++ [head] = A ++ p :: n :: B).
  { rewrite <- app_assoc. rewrite EB. change (head :: l1 ++ n :: B) with ((head :: l1) ++ n :: B).
    by rewrite EA, <- app_assoc. }
  rewrite E'. apply linked_app.
  change (head :: l1 ++ b :: l2) with ((head :: l1) ++ b :: l2) in Hnd, Hle. rewrite EA in Hnd, Hle.
  apply NoDup_app in Hnd as (Hnd1 & Hdis & Hnd2). apply NoDup_cons in Hnd2 as [Hb2 Hnd2].
  assert (HhA : n = head \/ n ∈ l2) by (destruct l2; cbn in EB; simplify_eq; set_solver).
  assert (HnB : n ∉ B).
  { destruct l2 as [|z l2]; cbn in EB; simplify_eq; [set_solver|].
    apply NoDup_cons in Hnd2 as [? ?]. intros [?|E2%list_elem_of_singleton]%elem_of_app; [done|].
    apply (Hdis head); [rewrite <- EA; set_solver|rewrite <- E2; set_solver]. }
  assert (HpA : p ∉ A) by (apply NoDup_app in Hnd1 as (_ & Hd & _); set_solver).
  assert (HpN : (p <= NBUF)%nat) by (apply Hle; set_solver).
  assert (HnN : (n <= NBUF)%nat) by (destruct HhA as [-> |]; [unfold head; lia|apply Hle; set_solver]).
  split; [|split; [split|]].
  - eapply linked_frame; [..|exact HA].
    + rewrite removelast_snoc. intros x Hx. apply list_lookup_insert_ne. set_solver.
    + intros y Hy. apply list_lookup_insert_ne. intros <-.
      assert (Hy' : n ∈ l1) by (by rewrite <- EA in Hy).
      destruct HhA as [-> |Hn2].
      * assert (HN : NoDup (head :: l1)) by (by rewrite EA). apply NoDup_cons in HN as [? _]. done.
      * apply (Hdis n); [rewrite <- EA; set_solver|set_solver].
  - apply list_lookup_insert_eq. lia.
  - apply list_lookup_insert_eq. lia.
  - eapply linked_frame; [..|exact HB].
    + intros x Hx. apply list_lookup_insert_ne. intros <-.
      assert (Hx' : p ∈ l2) by (by rewrite <- EB, removelast_snoc in Hx).
      apply (Hdis p); set_solver.
    + intros y Hy. apply list_lookup_insert_ne. cbn in Hy. set_solver.
Qed.

Lemma linked_insert nx pv l b n : NoDup (head :: l) -> b ∉ head :: l -> (b <= NBUF)%nat ->
  length nx = S NBUF -> length pv = S NBUF -> (forall x, x ∈ l -> (x <= NBUF)%nat) ->
  linked nx pv (head :: l ++ [head]) -> nx !! head = Some n ->
  linked (<[head := b]> (<[b := n]> nx)) (<[n := b]> (<[b := head]> pv))
    (head :: (b :: l) ++ [head]).
Proof.
  intros Hnd Hb Hble Hnx Hpv Hle H Hn. apply NoDup_cons in Hnd as [Hh Hnd].
  destruct (cons_split l head) as (n' & B & EB). cbn [app]. rewrite EB in *.
  destruct H as [[H1 _] H]. assert (n' = n) as -> by congruence.
  assert (HnN : n = head \/ n ∈ l) by (destruct l; cbn in EB; simplify_eq; set_solver).
  assert (Hbn : n <> b) by set_solver.
  assert (HnL : (n <= NBUF)%nat) by (destruct HnN as [-> |]; [unfold head; lia|auto]).
  assert (HnB : n ∉ B).
  { destruct l as [|z l]; cbn in EB; simplify_eq; [set_solver|].
    apply NoDup_cons in Hnd as [? ?]. intros [?|E2%list_elem_of_singleton]%elem_of_app; [done|].
    set_solver. }
  assert (HbB : b ∉ B) by (assert (b ∉ n :: B) by (rewrite <- EB; set_solver); set_solver).
  assert (HhN : (head < length nx)%nat) by (rewrite Hnx; unfold head; lia).
  split; [split|split; [split|]].
  - by apply list_lookup_insert_eq; rewrite length_insert.
  - rewrite list_lookup_insert_ne by done. apply list_lookup_insert_eq. lia.
  - rewrite list_lookup_insert_ne by set_solver. apply list_lookup_insert_eq. lia.
  - apply list_lookup_insert_eq. rewrite length_insert. lia.
  - eapply linked_frame; [..|exact H].
    + rewrite <- EB, removelast_snoc. intros x Hx.
      rewrite !list_lookup_insert_ne by set_solver. done.
    + cbn. intros y Hy. rewrite !list_lookup_insert_ne by set_solver. done.
Qed.

Lemma linked_rev nx pv c : linked nx pv c -> linked pv nx (rev c).
Proof.
  induction c as [|x [|y c] IH]; intros H; [done..|].
  destruct H as [[H1 H2] H]. cbn. rewrite <- app_assoc. cbn.
  apply linked_app. split; [by apply IH|]. done.
Qed.

Lemma ring_rev nx pv l : ring nx pv l -> ring pv nx (rev l).
Proof.
  intros [H1 H2 H3 H4 H5]. split; auto.
  - apply linked_rev in H1. cbn in H1. rewrite rev_app_distr in H1. done.
  - apply NoDup_cons in H2 as [? ?]. apply NoDup_cons. rewrite (rev_alt l). fold (reverse l).
    split; [by rewrite elem_of_reverse|by rewrite reverse_Permutation].
  - intros b. rewrite rev_alt. fold (reverse l). rewrite elem_of_reverse. apply H3.
Qed.

Lemma linked_first nx pv l : linked nx pv (head :: l ++ [head]) ->
  exists b t, l ++ [head] = b :: t /\ nx !! head = Some b.
Proof. destruct (cons_split l head) as (n & B & ->). intros [[H _] _]. eauto. Qed.

(** Walking the ring finds a buffer that passes the test, or there is none. *)
Lemma walk_linked s (step : nat -> M bst nat) test nx pv :
  (forall x y, nx !! x = Some y -> step x s = Ret y s) ->
  forall c fuel b t, c ++ [head] = b :: t -> linked nx pv (c ++ [head]) ->
  (length c <= fuel)%nat -> (forall x, x ∈ c -> x <> head /\ is_Some (bufs s !! x)) ->
  exists r, walk step test fuel b s = Ret r s /\
    match r with
    | Some i => i ∈ c /\ exists x, bufs s !! i = Some x /\ test x = true
    | None => forall i x, i ∈ c -> bufs s !! i = Some x -> test x = false
    end.
Proof.
  intros Hstep. induction c as [|z c IH]; intros fuel b t E HL Hlen Hin.
  { cbn in E. injection E as <- _. exists None. split; [by destruct fuel|set_solver]. }
  cbn in E. injection E as <- <-. destruct (Hin z) as [Hz [x Hx]]; [set_solver|].
  destruct fuel as [|fuel]; [cbn in Hlen; lia|]. cbn [walk].
  rewrite bool_decide_false by done. unfold getb. run. rewrite Hx. run.
  destruct (test x) eqn:Ht; [exists (Some z); set_solver|].
  destruct (cons_split c head) as (n & B & EB).
  assert (Hzn : nx !! z = Some n) by (cbn in HL; rewrite EB in HL; by destruct HL as [[? _] _]).
  rewrite (Hstep _ _ Hzn). cbn in Hlen.
  destruct (IH fuel n B EB) as (r & Hr & Hres); [|lia|set_solver|].
  { cbn in HL. rewrite EB in *. by destruct HL. }
  exists r. rewrite Hr. split; [done|]. destruct r as [i|]; [set_solver|].
  intros i y Hi Hy. apply elem_of_cons in Hi as [->|Hi]; [congruence|eauto].
Qed.

End Ring.
