(* ===== verification/Ide.v ===== *)
(** * The disk driver ([ide.c])

    The queue of requests as the [qnext] pointers make it, over the controller's
    registers.  Code under [idelock] is one step: [iderw] is the step up to its
    sleep and [iderw_wait] the test that it repeats when it is woken.  A buffer
    pointer is the buffer's index. *)
From S2P Require Import Prelude Sleeplock Bio Hw.

Definition IDE_BSY : Z := 128.
Definition IDE_DRDY : Z := 64.
Definition IDE_DF : Z := 32.
Definition IDE_ERR : Z := 1.
Definition IDE_CMD_READ : Z := 32.
Definition IDE_CMD_WRITE : Z := 48.
Definition IDE_CMD_RDMUL : Z := 196.
Definition IDE_CMD_WRMUL : Z := 197.
Definition SECTOR_SIZE : nat := 512.
Definition IDE_FSSIZE : Z := 1000.

(** The buffers with their [qnext], [idequeue], [havedisk1] and the hardware. *)
Record ist (D : Type) := mkist {
  ibufs : list buf;
  qnexts : list (option nat);
  idequeue : option nat;
  havedisk1 : Z;
  hw : D;
}.
Arguments mkist {D} ibufs qnexts idequeue havedisk1 hw.
Arguments ibufs {D} i.
Arguments qnexts {D} i.
Arguments idequeue {D} i.
Arguments havedisk1 {D} i.
Arguments hw {D} i.

Section Ide.
Context {D : Type} {HW : Hardware D}.

(** How often [idewait] may ask. *)
Context (polls : nat).

Abbreviation IM := (M (ist D)).

Definition dev_do {A} (m : M D A) : IM A :=
  zoom hw (fun d s => mkist (ibufs s) (qnexts s) (idequeue s) (havedisk1 s) d) m.

Definition buf_at (b : nat) : IM buf := fun s => deref (ibufs s !! b) s.
Definition upd_buf (b : nat) (f : buf -> buf) : IM unit :=
  buf_at b ;;
  modify (fun s => mkist (alter f b (ibufs s)) (qnexts s) (idequeue s) (havedisk1 s) (hw s)).
Definition qnext_of (b : nat) : IM (option nat) := fun s => deref (qnexts s !! b) s.
Definition set_qnext (b : nat) (q : option nat) : IM unit :=
  qnext_of b ;;
  modify (fun s => mkist (ibufs s) (<[b := q]> (qnexts s)) (idequeue s) (havedisk1 s) (hw s)).
Definition set_queue (q : option nat) : IM unit :=
  modify (fun s => mkist (ibufs s) (qnexts s) q (havedisk1 s) (hw s)).

(** ** The controller *)

Fixpoint idewait_loop (fuel : nat) : M D Z :=
  match fuel with
  | O => fault "fuel"
  | S k =>
      let! r := inb 503 in
      if Z.land r (Z.lor IDE_BSY IDE_DRDY) =? IDE_DRDY then ret r else idewait_loop k
  end.

Definition idewait (checkerr : Z) : M D Z :=
  let! r := idewait_loop polls in
  if nz checkerr && nz (Z.land r (Z.lor IDE_DF IDE_ERR)) then ret (-1) else ret 0.

(** The loop that looks for disk 1. *)
Fixpoint probe (k : nat) : M D bool :=
  match k with
  | O => ret false
  | S k => let! r := inb 503 in if nz r then ret true else probe k
  end.

Definition ideinit (ncpu : Z) : IM unit :=
  dev_do (ioapicenable IRQ_IDE (ncpu - 1) ;; idewait 0 ;; outb 502 (Z.lor 224 (Z.shiftl 1 4))) ;;
  let! found := dev_do (probe 1000) in
  when found (modify (fun s => mkist (ibufs s) (qnexts s) (idequeue s) 1 (hw s))) ;;
  dev_do (outb 502 (Z.lor 224 (Z.shiftl 0 4))).

(** The register writes for one request. *)
Definition program (x : buf) : M D unit :=
  let sector_per_block := Z.of_nat (BSIZE / SECTOR_SIZE) in
  let sector := blockno x * sector_per_block in
  let read_cmd := if sector_per_block =? 1 then IDE_CMD_READ else IDE_CMD_RDMUL in
  let write_cmd := if sector_per_block =? 1 then IDE_CMD_WRITE else IDE_CMD_WRMUL in
  if 7 <? sector_per_block then panic "idestart"
  else
    idewait 0 ;;
    outb 1014 0 ;;
    outb 498 sector_per_block ;;
    outb 499 (Z.land sector 255) ;;
    outb 500 (Z.land (Z.shiftr sector 8) 255) ;;
    outb 501 (Z.land (Z.shiftr sector 16) 255) ;;
    outb 502 (Z.lor (Z.lor 224 (Z.shiftl (Z.land (dev x) 1) 4)) (Z.land (Z.shiftr sector 24) 15)) ;;
    if nz (Z.land (flags x) B_DIRTY) then
      outb 503 write_cmd ;;
      outsl 496 (data x)
    else outb 503 read_cmd.

Definition idestart (b : option nat) : IM unit :=
  match b with
  | None => panic "idestart"
  | Some b =>
      let! x := buf_at b in
      if IDE_FSSIZE <=? blockno x then panic "incorrect blockno"
      else dev_do (program x)
  end.

(** ** Requests *)

(** The buffer whose sleepers are woken. *)
Definition ideintr : IM (option nat) :=
  let! s := get in
  match idequeue s with
  | None => ret None
  | Some b =>
      let! q := qnext_of b in
      set_queue q ;;
      let! x := buf_at b in
      (if negb (nz (Z.land (flags x) B_DIRTY)) then
         let! r := dev_do (idewait 1) in
         if 0 <=? r then
           let! d := dev_do (insl 496 (BSIZE / 4)) in
           upd_buf b (set_data d)
         else ret tt
       else ret tt) ;;
      upd_buf b (fun x => set_flags (Z.lor (flags x) B_VALID) x) ;;
      upd_buf b (fun x => set_flags (Z.land (flags x) (Z.lnot B_DIRTY)) x) ;;
      (match q with Some _ => idestart q | None => ret tt end) ;;
      ret (Some b)
  end.

(** The loop that follows [pp] to the end of the queue and [*pp = b], where [pp]
    points to a pointer to [p]. *)
Fixpoint append_after (fuel : nat) (p b : nat) : IM unit :=
  match fuel with
  | O => fault "queue"
  | S k =>
      let! q := qnext_of p in
      match q with
      | Some p => append_after k p b
      | None => set_qnext p (Some b)
      end
  end.

Definition append_queue (b : nat) : IM unit :=
  let! s := get in
  match idequeue s with
  | None => set_queue (Some b)
  | Some p => append_after (length (qnexts s)) p b
  end.

Definition need_mask : Z := Z.lor B_VALID B_DIRTY.

(** [while((b->flags & (B_VALID|B_DIRTY)) != B_VALID) sleep(b, &idelock)]. *)
Definition iderw_wait (b : nat) : IM unit :=
  let! x := buf_at b in
  if Z.land (flags x) need_mask =? B_VALID then ret tt else (fun s => Wait "buf" s).

Definition iderw (me : Z) (b : nat) : IM unit :=
  let! x := buf_at b in
  let held := match holdingsleep me (lock x) with Ret h _ => h | _ => false end in
  if negb held then panic "iderw: buf not locked"
  else if Z.land (flags x) need_mask =? B_VALID then panic "iderw: nothing to do"
  else
    let! s := get in
    if nz (dev x) && negb (nz (havedisk1 s)) then panic "iderw: ide disk 1 not present"
    else
      set_qnext b None ;;
      append_queue b ;;
      let! s := get in
      (if bool_decide (idequeue s = Some b) then idestart (Some b) else ret tt) ;;
      iderw_wait b.

End Ide.
