(* ===== verification/IdeSpec.v ===== *)
(** * The disk driver serves its requests in order ([ide.c])

    Any number of processes call [iderw] while the disk interrupts: every request
    is carried out once, in the order of the calls, as the memory disk of
    [memide.c] would carry it out, and no caller is forgotten. *)
From S2P Require Import Prelude Sleeplock Bio Hw Ide.

(** ** The controller *)

(** Between commands, with a sector ready to be read, waiting for the bytes of a
    sector, or done with writing it. *)
Inductive awork := AIdle | ARead (drive lba : Z) | AWrite (drive lba : Z) | AWritten.

Record adev := mkadev { a_blocks : Z -> Z -> block; a_regs : Z -> Z; a_work : awork }.

Definition set_reg (p v : Z) (a : adev) : adev :=
  mkadev (a_blocks a) (fun q => if q =? p then v else a_regs a q) (a_work a).
Definition put_sector (drive lba : Z) (d : block) (B : Z -> Z -> block) : Z -> Z -> block :=
  fun dr n => if (dr =? drive) && (n =? lba) then d else B dr n.

(** The drive and the sector in the registers. *)
Definition reg_drive (a : adev) : Z := Z.land (Z.shiftr (a_regs a 502) 4) 1.
Definition reg_lba (a : adev) : Z :=
  a_regs a 499 + 256 * a_regs a 500 + 65536 * a_regs a 501 + 16777216 * Z.land (a_regs a 502) 15.

(** Programmed input and output of one sector, without errors; the disk is ready
    again after fewer than [polls] looks at its status. *)
Class AtaDisk (D : Type) `{Hardware D} (polls : nat) := {
  arepr : D -> adev -> Prop;
  a_busy : D -> nat;
  a_busy_lt d a : arepr d a -> (a_busy d < polls)%nat;
  a_status d a : arepr d a ->
    wp (inb 503) d (fun r d' => arepr d' a /\
      if Z.land r (Z.lor IDE_BSY IDE_DRDY) =? IDE_DRDY then Z.land r (Z.lor IDE_DF IDE_ERR) = 0 else (a_busy d' < a_busy d)%nat);
  a_outb d a p v : arepr d a -> p ∈ [1014; 498; 499; 500; 501; 502] ->
    wp (outb p v) d (fun _ d' => arepr d' (set_reg p v a));
  a_read d a : arepr d a -> a_regs a 498 = 1 ->
    wp (outb 503 IDE_CMD_READ) d (fun _ d' => arepr d' (mkadev (a_blocks a) (a_regs a) (ARead (reg_drive a) (reg_lba a))));
  a_write d a : arepr d a -> a_regs a 498 = 1 ->
    wp (outb 503 IDE_CMD_WRITE) d (fun _ d' => arepr d' (mkadev (a_blocks a) (a_regs a) (AWrite (reg_drive a) (reg_lba a))));
  a_outsl d a dr n bs : arepr d a -> a_work a = AWrite dr n -> length bs = BSIZE ->
    wp (outsl 496 bs) d (fun _ d' => arepr d' (mkadev (put_sector dr n bs (a_blocks a)) (a_regs a) AWritten));
  a_insl d a dr n : arepr d a -> a_work a = ARead dr n ->
    wp (insl 496 (BSIZE / 4)) d (fun bs d' => bs = a_blocks a dr n /\ arepr d' (mkadev (a_blocks a) (a_regs a) AIdle));
}.

(** ** Requests *)

(** The drive, the sector, and the bytes to be written, if any. *)
Record req := mkreq { q_drive : Z; q_sector : Z; q_data : option block }.

Definition is_dirty (x : buf) : bool := nz (Z.land (flags x) B_DIRTY).
Definition done (x : buf) : bool := Z.land (flags x) need_mask =? B_VALID.

Definition req_of (x : buf) : req := mkreq (Z.land (dev x) 1) (blockno x) (if is_dirty x then Some (data x) else None).

(** What a request does to the disks, and the bytes in its buffer afterwards. *)
Definition carry_out (B : Z -> Z -> block) (r : req) : Z -> Z -> block :=
  match q_data r with Some d => put_sector (q_drive r) (q_sector r) d B | None => B end.
Definition outcome_of (B : Z -> Z -> block) (r : req) : block :=
  match q_data r with Some d => d | None => B (q_drive r) (q_sector r) end.

(** The bytes in the buffers when the requests are carried out one by one. *)
Fixpoint replay (B : Z -> Z -> block) (rs : list req) : list block :=
  match rs with
  | [] => []
  | r :: rs => outcome_of B r :: replay (carry_out B r) rs
  end.

Definition disks_after (B : Z -> Z -> block) (rs : list req) : Z -> Z -> block := foldl carry_out B rs.

Lemma replay_snoc B rs r : replay B (rs ++ [r]) = replay B rs ++ [outcome_of (disks_after B rs) r].
Proof. revert B. induction rs as [|x rs IH]; intros B; [done|]. cbn. by rewrite IH. Qed.

Lemma disks_snoc B rs r : disks_after B (rs ++ [r]) = carry_out (disks_after B rs) r.
Proof. unfold disks_after. by rewrite foldl_app. Qed.

(** A request that the driver accepts. *)
Definition req_ok (x : buf) : Prop := 0 <= blockno x < IDE_FSSIZE /\ length (data x) = BSIZE /\ done x = false.

(** ** Programming the controller *)

Section Device.
Context {D : Type} {HW : Hardware D} {polls : nat} {AD : AtaDisk D polls}.
Implicit Types (d : D) (a : adev).

Lemma idewait_run c d a (Q : Z -> D -> Prop) : arepr d a -> (forall d', arepr d' a -> Q 0 d') -> wp (idewait polls c) d Q.
Proof.
  intros HR HQ. unfold idewait. apply (wp_seq _ _ _ (fun r d' => arepr d' a /\ Z.land r (Z.lor IDE_DF IDE_ERR) = 0)).
  - assert (forall k d, arepr d a -> (a_busy d < k)%nat ->
      wp (idewait_loop k) d (fun r d' => arepr d' a /\ Z.land r (Z.lor IDE_DF IDE_ERR) = 0)) as H; [|apply H; [done|by eapply a_busy_lt]].
    clear. induction k as [|k IH]; intros d HR Hb; [lia|].
    cbn [idewait_loop]. eapply wp_seq; [by apply (a_status d a)|]. cbn beta. intros r d' [HR' H].
    destruct (Z.land r _ =? _); [by apply wp_ret|]. apply IH; [done|lia].
  - intros r d' [HR' E]. rewrite E. cbn [nz Z.eqb negb]. rewrite andb_false_r. apply wp_ret. auto.
Qed.

Lemma outb_run p v d a (Q : unit -> D -> Prop) : arepr d a -> p ∈ [1014; 498; 499; 500; 501; 502] ->
  (forall d', arepr d' (set_reg p v a) -> Q tt d') -> wp (outb p v) d Q.
Proof. intros HR Hp HQ. eapply wp_mono; [by apply (a_outb d a)|]. intros [] d' H. auto. Qed.

(** The sector number in four registers. *)
Lemma lba_parts n : 0 <= n < 1000 ->
  Z.land n 255 + 256 * Z.land (Z.shiftr n 8) 255 + 65536 * Z.land (Z.shiftr n 16) 255 + 16777216 * Z.land (Z.shiftr n 24) 15 = n.
Proof.
  intros Hn. change 255 with (2 ^ 8 - 1). change 15 with (2 ^ 4 - 1). rewrite !land_low_mask, !Z.shiftr_div_pow2 by lia.
  change (2 ^ 8) with 256. change (2 ^ 16) with 65536. change (2 ^ 24) with 16777216. change (2 ^ 4) with 16.
  Z.to_euclidean_division_equations. lia.
Qed.

Lemma drive_bits dr s : dr = 0 \/ dr = 1 -> s = 0 ->
  Z.land (Z.shiftr (Z.lor (Z.lor 224 (Z.shiftl dr 4)) s) 4) 1 = dr /\ Z.land (Z.lor (Z.lor 224 (Z.shiftl dr 4)) s) 15 = s.
Proof. intros [->| ->] ->; split; reflexivity. Qed.

Lemma land1 x : Z.land x 1 = 0 \/ Z.land x 1 = 1.
Proof.
  pose proof (land_low_mask x 1 ltac:(lia)) as E. change (2 ^ 1 - 1) with 1 in E. change (2 ^ 1) with 2 in E. rewrite E.
  pose proof (Z.mod_pos_bound x 2). lia.
Qed.

(** The controller works on the request of [x]. *)
Definition works (x : buf) (a : adev) : Prop :=
  a_work a = if is_dirty x then AWritten else ARead (Z.land (dev x) 1) (blockno x).

Lemma program_run x d a (Q : unit -> D -> Prop) : arepr d a -> req_ok x ->
  (forall d' a', arepr d' a' -> works x a' -> (forall dr n, a_blocks a' dr n = carry_out (a_blocks a) (req_of x) dr n) -> Q tt d') ->
  wp (program polls x) d Q.
Proof.
  intros HR (Hn & Hl & _) HQ. unfold program. change (Z.of_nat (BSIZE / SECTOR_SIZE)) with 1. rewrite Z.mul_1_r. cbn [Z.ltb Z.eqb Z.compare Pos.compare Pos.compare_cont Pos.eqb].
  unfold IDE_FSSIZE in Hn. apply wp_bind. apply (idewait_run 0 d a); [done|]. clear d HR. intros d HR.
  do 6 (apply wp_bind; eapply outb_run; [exact HR|set_solver|]; clear d HR; intros d HR).
  match type of HR with arepr d ?a' => set (a1 := a') in * end.
  assert (Hdrive : reg_drive a1 = Z.land (dev x) 1 /\ reg_lba a1 = blockno x).
  { unfold reg_drive, reg_lba, a1. cbn [a_regs set_reg Z.eqb Pos.eqb].
    assert (Z.land (Z.shiftr (blockno x) 24) 15 = 0) as E.
    { rewrite Z.shiftr_div_pow2 by lia. change (2 ^ 24) with 16777216. by rewrite Z.div_small by lia. }
    destruct (drive_bits (Z.land (dev x) 1) _ (land1 (dev x)) E) as [-> ->]. split; [done|]. by apply lba_parts. }
  destruct Hdrive as [Ed El]. unfold works, req_of, is_dirty in HQ. unfold is_dirty in HQ. destruct (nz (Z.land (flags x) B_DIRTY)).
  - eapply wp_seq; [by apply (a_write d a1)|]. cbn beta. intros [] d1 HR1. rewrite Ed, El in HR1.
    eapply wp_mono; [by apply (a_outsl d1 _ (Z.land (dev x) 1) (blockno x) (data x) HR1)|]. cbn beta. intros [] d2 HR2. by apply (HQ d2 _ HR2).
  - eapply wp_mono; [by apply (a_read d a1)|]. cbn beta. intros [] d1 HR1. rewrite Ed, El in HR1. by apply (HQ d1 _ HR1).
Qed.

End Device.

(** ** The queue *)

(** The buffers from [o] on along [qnext]. *)
Fixpoint chain (qn : list (option nat)) (o : option nat) (q : list nat) : Prop :=
  match q with
  | [] => o = None
  | b :: q => o = Some b /\ exists n, qn !! b = Some n /\ chain qn n q
  end.

Lemma chain_lt qn o q b : chain qn o q -> b ∈ q -> (b < length qn)%nat.
Proof.
  revert o. induction q as [|c q IH]; intros o H Hb; [by apply not_elem_of_nil in Hb|].
  destruct H as (_ & n & Hn & H). apply elem_of_cons in Hb as [->|Hb]; [by eapply lookup_lt_Some|eauto].
Qed.

Lemma chain_other qn o q b n : chain qn o q -> b ∉ q -> chain (<[b := n]> qn) o q.
Proof.
  revert o. induction q as [|c q IH]; intros o H Hb; [done|]. destruct H as (-> & m & Hm & H).
  apply not_elem_of_cons in Hb as [Hne Hb]. split; [done|]. exists m. rewrite list_lookup_insert_ne by done. eauto.
Qed.

Lemma chain_length qn o q : chain qn o q -> NoDup q -> (length q <= length qn)%nat.
Proof.
  intros H Hd. assert (q ⊆ seq 0 (length qn)) as Hs.
  { intros b Hb. apply elem_of_seq. pose proof (chain_lt qn o q b H Hb). lia. }
  pose proof (submseteq_length _ _ (NoDup_submseteq _ _ Hd Hs)) as Hl. by rewrite length_seq in Hl.
Qed.

(** The end of the queue gets another buffer. *)
Lemma chain_snoc qn c q b : chain qn (Some c) (c :: q) -> NoDup (c :: q) -> b ∉ c :: q -> qn !! b = Some None ->
  exists l, list.last (c :: q) = Some l /\ chain (<[l := Some b]> qn) (Some c) (c :: q ++ [b]).
Proof.
  revert c. induction q as [|e q IH]; intros c (_ & n & Hn & H) Hd Hb Hq.
  - cbn in H. subst n. exists c. split; [done|]. split; [done|]. exists (Some b). split.
    + apply list_lookup_insert_eq. by eapply lookup_lt_Some.
    + split; [done|]. exists None. rewrite list_lookup_insert_ne; [done|]. set_solver.
  - pose proof H as (-> & _). apply NoDup_cons in Hd as [Hc Hd]. apply not_elem_of_cons in Hb as [Hbc Hb].
    destruct (IH e H Hd Hb Hq) as (l & Hl & H'). exists l. split; [by rewrite last_cons_cons|].
    split; [done|]. exists (Some e). split; [|exact H']. rewrite list_lookup_insert_ne; [done|]. intros ->. apply Hc.
    by apply last_Some_elem_of in Hl.
Qed.

(** [append_after] finds the end. *)
Lemma append_after_run {D} (s : ist D) b q : forall c (k : nat), chain (qnexts s) (Some c) (c :: q) -> (length q < k)%nat ->
  exists l, list.last (c :: q) = Some l /\
    append_after k c b s = Ret tt (mkist (ibufs s) (<[l := Some b]> (qnexts s)) (idequeue s) (havedisk1 s) (hw s)).
Proof.
  induction q as [|e q IH]; intros c k (_ & n & Hn & H) Hk; (destruct k as [|k]; [lia|]); cbn [append_after].
  - cbn in H. subst n. exists c. split; [done|]. unfold bind, set_qnext, qnext_of. rewrite Hn. cbn. unfold bind. by rewrite Hn.
  - pose proof H as (-> & _). destruct (IH e k H ltac:(cbn in Hk; lia)) as (l & Hl & E). exists l. split; [by rewrite last_cons_cons|].
    unfold bind, qnext_of at 1. rewrite Hn. cbn. exact E.
Qed.

(** ** Callers and interrupts *)

Section System.
Context {D : Type} {HW : Hardware D} (polls : nat) {AD : AtaDisk D polls}.

(** The driver; the buffers whose callers are inside [iderw]; the requests in
    the order of the calls; those carried out, with the bytes they left in their
    buffers. *)
Record isys := mkisys { drv : ist D; waiting : list nat; asked : list req; served : list (req * block) }.

Definition edit (b : nat) (x : buf) (s : ist D) : ist D :=
  mkist (<[b := x]> (ibufs s)) (qnexts s) (idequeue s) (havedisk1 s) (hw s).

(** A caller that holds the buffer's lock enters [iderw] and goes to sleep; the
    disk interrupts, at any time; a caller finds its request done and returns; a
    buffer that is not in the driver changes. *)
Inductive istep : isys -> isys -> Prop :=
| is_call s me b x c d' :
    b ∉ waiting s -> ibufs (drv s) !! b = Some x -> lock x = mksleeplock 1 me -> req_ok x ->
    (dev x = 0 \/ havedisk1 (drv s) <> 0) ->
    iderw polls me b (drv s) = Wait c d' ->
    istep s (mkisys d' (b :: waiting s) (asked s ++ [req_of x]) (served s))
| is_idle s d' :
    ideintr polls (drv s) = Ret None d' -> istep s (mkisys d' (waiting s) (asked s) (served s))
| is_intr s b x y d' :
    ideintr polls (drv s) = Ret (Some b) d' -> ibufs (drv s) !! b = Some x -> ibufs d' !! b = Some y ->
    istep s (mkisys d' (waiting s) (asked s) (served s ++ [(req_of x, data y)]))
| is_return s b w d' :
    waiting s ≡ₚ b :: w -> iderw_wait b (drv s) = Ret tt d' -> istep s (mkisys d' w (asked s) (served s))
| is_edit s b x :
    b ∉ waiting s -> istep s (mkisys (edit b x (drv s)) (waiting s) (asked s) (served s)).

(** ** The invariant *)

(** The requests of the buffers in the queue. *)
Definition queued (s : ist D) (q : list nat) (xs : list buf) : Prop :=
  Forall2 (fun b x => ibufs s !! b = Some x /\ req_ok x) q xs.

(** The disks once the request that the controller works on is counted. *)
Definition active (xs : list buf) : list req :=
  match xs with [] => [] | x :: _ => if is_dirty x then [req_of x] else [] end.

Record iinv (B : Z -> Z -> block) (s : isys) (q : list nat) (xs : list buf) (a : adev) : Prop := {
  ii_dev : arepr (hw (drv s)) a;
  ii_len : length (qnexts (drv s)) = length (ibufs (drv s));
  ii_chain : chain (qnexts (drv s)) (idequeue (drv s)) q;
  ii_dup : NoDup q /\ NoDup (waiting s);
  ii_waiting b : b ∈ q -> b ∈ waiting s;
  ii_queued : queued (drv s) q xs;
  ii_done b : b ∈ waiting s -> b ∉ q -> exists x, ibufs (drv s) !! b = Some x /\ done x = true;
  ii_asked : asked s = (served s).*1 ++ (req_of <$> xs);
  ii_served : (served s).*2 = replay B (served s).*1;
  ii_disk dr n : a_blocks a dr n = disks_after B ((served s).*1 ++ active xs) dr n;
  ii_work : match xs with [] => True | x :: _ => works x a end;
}.

Lemma carry_ext B B' r dr n : (forall dr n, B dr n = B' dr n) -> carry_out B r dr n = carry_out B' r dr n.
Proof. intros E. unfold carry_out. destruct (q_data r); [|done]. unfold put_sector. destruct (_ && _); [done|apply E]. Qed.

Lemma active_carry B x dr n : disks_after B (active [x]) dr n = carry_out B (req_of x) dr n.
Proof. unfold active, carry_out, req_of. cbn [q_data]. by destruct (is_dirty x). Qed.

Lemma active_app xs x : xs <> [] -> active (xs ++ [x]) = active xs.
Proof. by destruct xs. Qed.

Lemma disks_app B r1 r2 : disks_after B (r1 ++ r2) = disks_after (disks_after B r1) r2.
Proof. apply foldl_app. Qed.

Lemma buf_at_run s b x (Q : buf -> ist D -> Prop) : ibufs s !! b = Some x -> Q x s -> wp (buf_at b) s Q.
Proof. intros H HQ. unfold wp, buf_at. by rewrite H. Qed.

Lemma qnext_run s b n (Q : option nat -> ist D -> Prop) : qnexts s !! b = Some n -> Q n s -> wp (qnext_of b) s Q.
Proof. intros H HQ. unfold wp, qnext_of. by rewrite H. Qed.

Lemma upd_buf_run s b x f (Q : unit -> ist D -> Prop) : ibufs s !! b = Some x -> Q tt (edit b (f x) s) -> wp (upd_buf b f) s Q.
Proof.
  intros H HQ. unfold upd_buf. apply wp_bind. eapply buf_at_run; [done|]. apply wp_modify. by rewrite (list_insert_alter f _ _ x).
Qed.

(** The disk starts on the request of [x]. *)
Lemma idestart_run s b x a (Q : unit -> ist D -> Prop) : arepr (hw s) a -> ibufs s !! b = Some x -> req_ok x ->
  (forall d' a', arepr d' a' -> works x a' -> (forall dr n, a_blocks a' dr n = carry_out (a_blocks a) (req_of x) dr n) ->
     Q tt (mkist (ibufs s) (qnexts s) (idequeue s) (havedisk1 s) d')) ->
  wp (idestart polls (Some b)) s Q.
Proof.
  intros HR Hb Hok HQ. unfold idestart. apply wp_bind. eapply buf_at_run; [done|].
  pose proof Hok as (Hn & _). rewrite (proj2 (Z.leb_gt _ _)) by lia. apply wp_zoom.
  apply (program_run x (hw s) a); [done|done|]. intros d' a' H1 H2 H3. by apply (HQ d' a').
Qed.

(** The request is in the queue and the disk works if it did not. *)
Lemma enqueue_run s b x q xs a : arepr (hw s) a -> length (qnexts s) = length (ibufs s) -> chain (qnexts s) (idequeue s) q -> NoDup q ->
  queued s q xs -> match xs with [] => True | x :: _ => works x a end -> ibufs s !! b = Some x -> req_ok x -> b ∉ q ->
  wp (set_qnext b None ;;
      append_queue b ;;
      let! s := get in
      if bool_decide (idequeue s = Some b) then idestart polls (Some b) else ret tt) s
    (fun _ s' => exists a', arepr (hw s') a' /\ ibufs s' = ibufs s /\ length (qnexts s') = length (qnexts s) /\ havedisk1 s' = havedisk1 s /\
       chain (qnexts s') (idequeue s') (q ++ [b]) /\ match xs ++ [x] with [] => True | x :: _ => works x a' end /\
       forall dr n, a_blocks a' dr n = disks_after (a_blocks a) (match xs with [] => active [x] | _ => [] end) dr n).
Proof.
  intros HR Hlen Hch Hd Hq Hw Hb Hok Hbq. pose proof (lookup_lt_Some _ _ _ Hb) as Hlt. rewrite <- Hlen in Hlt.
  destruct (lookup_lt_is_Some_2 _ _ Hlt) as [n0 Hn0]. apply wp_bind. unfold set_qnext. apply wp_bind. eapply qnext_run; [done|]. apply wp_modify.
  set (qn := <[b := None]> (qnexts s)). apply wp_bind. unfold append_queue. apply wp_bind, wp_gets. cbn [idequeue qnexts].
  pose proof (chain_other _ _ _ b None Hch Hbq) as Hch'. fold qn in Hch'.
  assert (Hqb : qn !! b = Some None) by (by apply list_lookup_insert_eq).
  assert (Hql : length qn = length (qnexts s)) by apply length_insert.
  destruct Hq as [|c x0 q xs [Hc Hc'] Hq].
  - cbn in Hch. rewrite Hch. apply wp_modify. apply wp_bind, wp_gets. cbn [idequeue]. rewrite bool_decide_true by done.
    apply (idestart_run _ b x a); [done|done|done|]. intros d' a' H1 H2 H3. exists a'. cbn [hw ibufs qnexts idequeue havedisk1].
    split_and!; [done|done|done|done|by split; [|exists None]|done|]. intros dr n. by rewrite H3, active_carry.
  - pose proof Hch as (E & _). rewrite E in *. pose proof (chain_length _ _ _ Hch' Hd) as Hle. cbn [length] in Hle.
    destruct (chain_snoc qn c q b Hch' Hd Hbq Hqb) as (l & Hl & Hsn).
    destruct (append_after_run (mkist (ibufs s) qn (Some c) (havedisk1 s) (hw s)) b q c (length qn) Hch' ltac:(lia)) as (l' & Hl' & Ea).
    rewrite Hl in Hl'. injection Hl' as <-. eapply wp_of; [exact Ea|]. cbn [ibufs qnexts idequeue havedisk1 hw]. apply wp_bind, wp_gets. cbn [idequeue].
    rewrite bool_decide_false by (intros [= ->]; apply Hbq; left). apply wp_ret. exists a. cbn [hw ibufs qnexts idequeue havedisk1].
    split_and!; [done|done|by rewrite length_insert|done|done|done|done].
Qed.

(** Past the tests. *)
Lemma iderw_eq s me b x : ibufs s !! b = Some x -> lock x = mksleeplock 1 me -> done x = false -> (dev x = 0 \/ havedisk1 s <> 0) ->
  iderw polls me b s =
  bind (set_qnext b None ;;
        append_queue b ;;
        let! s := get in
        if bool_decide (idequeue s = Some b) then idestart polls (Some b) else ret tt) (fun _ => iderw_wait b) s.
Proof.
  intros Hb Hlk Hd Hdev. unfold iderw. rewrite (bind_ret (buf_at b) _ s x s) by (unfold buf_at; by rewrite Hb). rewrite Hlk.
  unfold holdingsleep, bind at 1, get, ret. cbn [sl_locked sl_pid]. rewrite Z.eqb_refl. cbn [nz Z.eqb negb andb].
  unfold done in Hd. rewrite Hd. unfold bind at 1.
  assert (nz (dev x) && negb (nz (havedisk1 s)) = false) as ->.
  { unfold nz. destruct Hdev as [->|Hne]; [done|]. rewrite (proj2 (Z.eqb_neq (havedisk1 s) 0)) by done. by rewrite andb_false_r. }
  unfold bind. destruct (set_qnext b None s) as [[] s1| |]; [|done|done]. by destruct (append_queue b s1) as [[] s2| |].
Qed.

Lemma iderw_wait_busy (s : ist D) b x : ibufs s !! b = Some x -> done x = false -> iderw_wait b s = Wait "buf" s.
Proof. intros Hb Hd. unfold iderw_wait. rewrite (bind_ret (buf_at b) _ s x s) by (unfold buf_at; by rewrite Hb). unfold done in Hd. by rewrite Hd. Qed.

(** A call is queued. *)
Lemma step_call B s q xs a me b x : iinv B s q xs a -> b ∉ waiting s -> ibufs (drv s) !! b = Some x -> lock x = mksleeplock 1 me -> req_ok x ->
  (dev x = 0 \/ havedisk1 (drv s) <> 0) ->
  exists d' a', iderw polls me b (drv s) = Wait "buf" d' /\
    iinv B (mkisys d' (b :: waiting s) (asked s ++ [req_of x]) (served s)) (q ++ [b]) (xs ++ [x]) a'.
Proof.
  intros I Hbw Hb Hlk Hok Hdev. pose proof I as [I1 I2 I3 [I4 I4'] I5 I6 I7 I8 I9 I10 I11].
  assert (Hbq : b ∉ q) by (intros H; by apply Hbw, I5).
  pose proof (enqueue_run (drv s) b x q xs a I1 I2 I3 I4 I6 I11 Hb Hok Hbq) as W. apply wp_exists in W as ([] & s1 & E1 & a' & J1 & J2 & J3 & J4 & J5 & J6 & J7).
  exists s1, a'. split.
  { rewrite (iderw_eq _ me b x) by (done || exact (proj2 (proj2 Hok))). rewrite (bind_ret _ _ _ _ _ E1).
    apply (iderw_wait_busy s1 b x); [by rewrite J2|exact (proj2 (proj2 Hok))]. }
  split; cbn [drv waiting asked served]; [done|by rewrite J2, J3|done| | | | | |done| |done].
  - split; [apply NoDup_app; split_and!; [done|set_solver|apply NoDup_singleton]|by apply NoDup_cons].
  - intros c Hc. set_solver.
  - unfold queued. rewrite J2. apply Forall2_app; [exact I6|]. apply Forall2_cons. split; [done|]. apply Forall2_nil_2.
  - intros c Hc Hcq. rewrite J2. apply I7; set_solver.
  - by rewrite I8, fmap_app, app_assoc.
  - intros dr n. rewrite J7. destruct xs as [|x0 xs].
    + cbn [app]. rewrite disks_app, !active_carry. apply carry_ext. intros. rewrite I10. by rewrite app_nil_r.
    + rewrite active_app by done. apply I10.
Qed.

(** ** Interrupts *)

Lemma flags_done f : Z.land (Z.land (Z.lor f B_VALID) (Z.lnot B_DIRTY)) need_mask = B_VALID.
Proof.
  apply Z.bits_inj'. intros n Hn. rewrite !Z.land_spec, Z.lor_spec, Z.lnot_spec by done.
  destruct (decide (n < 3)) as [Hlt|Hge].
  - assert (n = 0 \/ n = 1 \/ n = 2) as [->|[->| ->]] by lia; unfold B_VALID, B_DIRTY, need_mask; cbn; by rewrite ?orb_true_r, ?andb_false_r.
  - change need_mask with 6. change B_VALID with 2. rewrite (Z.bits_above_log2 6 n) by (try change (Z.log2 6) with 2; lia).
    rewrite (Z.bits_above_log2 2 n) by (try change (Z.log2 2) with 1; lia). apply andb_false_r.
Qed.

(** The data are in the buffer. *)
Lemma transfer_run s b x a (Q : unit -> ist D -> Prop) : arepr (hw s) a -> ibufs s !! b = Some x -> works x a ->
  (forall d' a', arepr d' a' -> (forall dr n, a_blocks a' dr n = a_blocks a dr n) ->
     Q tt (edit b (if is_dirty x then x else set_data (a_blocks a (Z.land (dev x) 1) (blockno x)) x)
             (mkist (ibufs s) (qnexts s) (idequeue s) (havedisk1 s) d'))) ->
  wp (if negb (nz (Z.land (flags x) B_DIRTY)) then
        let! r := dev_do (idewait polls 1) in
        if 0 <=? r then
          let! d := dev_do (insl 496 (BSIZE / 4)) in
          upd_buf b (set_data d)
        else ret tt
      else ret tt) s Q.
Proof.
  intros HR Hb Hw HQ. unfold works in Hw. change (nz (Z.land (flags x) B_DIRTY)) with (is_dirty x). destruct (is_dirty x); cbn [negb].
  - apply wp_ret. specialize (HQ (hw s) a HR (fun _ _ => eq_refl)). unfold edit in HQ. cbn in HQ. rewrite list_insert_id in HQ by done.
    by destruct s.
  - apply wp_bind, wp_zoom. apply (idewait_run 1 (hw s) a); [done|]. intros d1 HR1. cbn [Z.leb Z.compare].
    apply wp_bind, wp_zoom. eapply wp_mono; [by apply (a_insl d1 a _ _ HR1 Hw)|]. cbn beta. intros bs d2 [-> HR2].
    apply (upd_buf_run _ b x); [done|]. by apply (HQ d2 _ HR2).
Qed.

(** An interrupt completes the first request of the queue and starts the next. *)
Lemma intr_run s q b x xs a : arepr (hw s) a -> length (qnexts s) = length (ibufs s) -> chain (qnexts s) (idequeue s) (b :: q) -> NoDup (b :: q) ->
  queued s (b :: q) (x :: xs) -> works x a ->
  exists s' a' y, ideintr polls s = Ret (Some b) s' /\ arepr (hw s') a' /\ ibufs s' = <[b := y]> (ibufs s) /\ qnexts s' = qnexts s /\
    chain (qnexts s') (idequeue s') q /\ done y = true /\ data y = outcome_of (a_blocks a) (req_of x) /\
    match xs with [] => True | x :: _ => works x a' end /\
    forall dr n, a_blocks a' dr n = disks_after (a_blocks a) (active xs) dr n.
Proof.
  intros HR Hlen (Hq & n & Hn & Hch) Hd Hqd Hw. apply Forall2_cons in Hqd as [[Hb Hok] Hqd]. apply NoDup_cons in Hd as [Hbq Hd].
  set (x1 := if is_dirty x then x else set_data (a_blocks a (Z.land (dev x) 1) (blockno x)) x).
  set (y := set_flags (Z.land (Z.lor (flags x1) B_VALID) (Z.lnot B_DIRTY)) x1).
  assert (wp (ideintr polls) s (fun w s' => w = Some b /\ exists a', arepr (hw s') a' /\ ibufs s' = <[b := y]> (ibufs s) /\ qnexts s' = qnexts s /\
    idequeue s' = n /\ match xs with [] => True | x :: _ => works x a' end /\
    forall dr k, a_blocks a' dr k = disks_after (a_blocks a) (active xs) dr k)) as W.
  { unfold ideintr. apply wp_bind, wp_gets. rewrite Hq. apply wp_bind. eapply qnext_run; [exact Hn|]. apply wp_bind, wp_modify. apply wp_bind.
    eapply buf_at_run; [exact Hb|]. apply wp_bind. eapply transfer_run; [exact HR|exact Hb|exact Hw|]. intros d1 a1 HR1 H1. fold x1.
    assert (b < length (ibufs s))%nat as Hlt by (by eapply lookup_lt_Some).
    apply wp_bind. eapply (upd_buf_run _ b x1); [cbn; by apply list_lookup_insert_eq|].
    apply wp_bind. eapply (upd_buf_run _ b); [cbn; rewrite list_insert_insert_eq; by apply list_lookup_insert_eq|].
    unfold edit. cbn [ibufs qnexts idequeue havedisk1 hw]. rewrite !list_insert_insert_eq. fold y. apply wp_bind.
    destruct Hqd as [|c z q xs [Hc Hcok] Hqd].
    - cbn in Hch. subst n. apply wp_ret, wp_ret. split; [done|]. exists a1. by split_and!.
    - pose proof Hch as (-> & _). apply not_elem_of_cons in Hbq as [Hbc _].
      eapply (idestart_run _ c z a1); [done|cbn; by rewrite list_lookup_insert_ne|done|]. intros d2 a2 HR2 Hw2 H2. apply wp_ret. split; [done|]. exists a2.
      split_and!; [done|done|done|done|done|]. intros dr k. rewrite H2. change (active (z :: xs)) with (active [z]). rewrite active_carry. by apply carry_ext. }
  apply wp_exists in W as (w & s' & E & -> & a' & W1 & W2 & W3 & W4 & W5 & W6). exists s', a', y.
  split_and!; [done|done|done|done|by rewrite W3, W4| | |done|done].
  - unfold done. cbn [flags y set_flags]. rewrite flags_done. done.
  - unfold outcome_of, req_of. cbn [q_data q_drive q_sector y set_flags data]. unfold x1. by destruct (is_dirty x).
Qed.

Lemma queued_edit s s' b y q xs : ibufs s' = <[b := y]> (ibufs s) -> b ∉ q -> queued s q xs -> queued s' q xs.
Proof.
  intros E Hb Hq. induction Hq as [|c x q xs [Hc Hok] Hq IH]; [constructor|]. apply not_elem_of_cons in Hb as [Hne Hb].
  constructor; [|by apply IH]. split; [|done]. by rewrite E, list_lookup_insert_ne.
Qed.

Lemma disks_ext B B' rs dr n : (forall dr n, B dr n = B' dr n) -> disks_after B rs dr n = disks_after B' rs dr n.
Proof. revert B B'. induction rs as [|r rs IH]; intros B B' E; [apply E|]. cbn. apply IH. intros. by apply carry_ext. Qed.

Lemma step_intr B s q b x xs a : iinv B s (b :: q) (x :: xs) a ->
  exists d' a' y, ideintr polls (drv s) = Ret (Some b) d' /\ ibufs d' !! b = Some y /\
    iinv B (mkisys d' (waiting s) (asked s) (served s ++ [(req_of x, data y)])) q xs a'.
Proof.
  intros I. pose proof I as [I1 I2 I3 [I4 I4'] I5 I6 I7 I8 I9 I10 I11].
  destruct (intr_run (drv s) q b x xs a I1 I2 I3 I4 I6 I11) as (s' & a' & y & E & J1 & J2 & J3 & J4 & J5 & J6 & J7 & J8).
  apply NoDup_cons in I4 as [Hbq Hd]. apply Forall2_cons in I6 as [[Hb Hok] I6].
  assert (b < length (ibufs (drv s)))%nat as Hlt by (by eapply lookup_lt_Some).
  assert (Hpre : forall dr n, a_blocks a dr n = disks_after B (((served s).*1 ++ [req_of x])) dr n).
  { intros dr n. rewrite I10, !disks_app. change (active (x :: xs)) with (active [x]). by rewrite active_carry. }
  exists s', a', y. split; [done|]. split; [rewrite J2; by apply list_lookup_insert_eq|].
  split; cbn [drv waiting asked served]; rewrite ?fmap_app; cbn [fmap list_fmap fst snd]; [done|by rewrite J2, J3, length_insert|done|done| | | | | | |done].
  - intros c Hc. apply I5. by right.
  - eapply (queued_edit (drv s)); [exact J2|done|exact I6].
  - intros c Hc Hcq. rewrite J2. destruct (decide (c = b)) as [->|Hne].
    + rewrite list_lookup_insert_eq by done. by exists y.
    + rewrite list_lookup_insert_ne by done. apply I7; [done|]. by apply not_elem_of_cons.
  - rewrite I8. cbn [fmap list_fmap]. by rewrite <- app_assoc.
  - rewrite replay_snoc, I9, J6. do 2 f_equal. unfold outcome_of. destruct (q_data (req_of x)) eqn:Eq; [done|].
    rewrite Hpre, disks_snoc. unfold carry_out. by rewrite Eq.
  - intros dr n. rewrite J8, disks_app. by apply disks_ext.
Qed.

(** ** Every interleaving *)

Lemma iinv_step B s q xs a s' : iinv B s q xs a -> istep s s' -> exists q' xs' a', iinv B s' q' xs' a'.
Proof.
  intros I Hs. destruct Hs as [s me b x c d' Hbw Hb Hlk Hok Hdev E|s d' E|s b x y d' E Hx Hy|s b w d' Hw E|s b x Hbw].
  - destruct (step_call B s q xs a me b x I Hbw Hb Hlk Hok Hdev) as (d'' & a' & E' & I'). rewrite E in E'. injection E' as _ <-. eauto.
  - destruct q as [|b q]; [|destruct xs as [|x xs]; [by apply ii_queued, Forall2_length in I|]].
    + exists [], xs, a. unfold ideintr, bind, get in E. pose proof (ii_chain _ _ _ _ _ I) as Hc. cbn in Hc. rewrite Hc in E. injection E as <-. by destruct s.
    + destruct (step_intr B s q b x xs a I) as (d'' & a' & y & E' & _). congruence.
  - destruct q as [|b' q].
    { pose proof (ii_chain _ _ _ _ _ I) as Hc. cbn in Hc. unfold ideintr, bind, get in E. by rewrite Hc in E. }
    destruct xs as [|x' xs]; [by apply ii_queued, Forall2_length in I|].
    destruct (step_intr B s q b' x' xs a I) as (d'' & a' & y' & E' & Hy' & I'). rewrite E in E'. injection E' as -> <-.
    pose proof (ii_queued _ _ _ _ _ I) as Hq. apply Forall2_cons in Hq as [[Hx' _] _]. rewrite Hx in Hx'. injection Hx' as <-. rewrite Hy in Hy'. injection Hy' as <-. eauto.
  - exists q, xs, a. unfold iderw_wait in E.
    destruct (ibufs (drv s) !! b) as [x|] eqn:Hb; [|unfold bind, buf_at in E; by rewrite Hb in E].
    rewrite (bind_ret (buf_at b) _ (drv s) x (drv s)) in E by (unfold buf_at; by rewrite Hb).
    fold (done x) in E. destruct (done x) eqn:Ed; [|done]. injection E as <-. pose proof I as [I1 I2 I3 [I4 I4'] I5 I6 I7 I8 I9 I10 I11].
    rewrite Hw in I4'. apply NoDup_cons in I4' as [Hbw Hnd].
    split; cbn [drv waiting asked served]; auto.
    + intros c Hc. pose proof (I5 c Hc) as Hcw. rewrite Hw in Hcw. apply elem_of_cons in Hcw as [->|]; [|done]. exfalso.
      apply list_elem_of_lookup in Hc as [i Hi]. destruct (Forall2_lookup_l _ _ _ _ _ I6 Hi) as (z & _ & Hz & _ & _ & Hnd'). rewrite Hb in Hz. injection Hz as <-. congruence.
    + intros c Hc. apply I7. rewrite Hw. by right.
  - exists q, xs, a. pose proof I as [I1 I2 I3 [I4 I4'] I5 I6 I7 I8 I9 I10 I11].
    assert (b ∉ q) as Hbq by (intros H; by apply Hbw, I5).
    split; cbn [drv waiting asked served edit hw qnexts ibufs idequeue]; auto.
    + by rewrite length_insert.
    + by eapply (queued_edit (drv s)).
    + intros c Hc Hcq. rewrite list_lookup_insert_ne by (intros ->; done). by apply I7.
Qed.

Lemma iinv_init d a : arepr (hw d) a -> idequeue d = None -> length (qnexts d) = length (ibufs d) ->
  iinv (a_blocks a) (mkisys d [] [] []) [] [] a.
Proof.
  intros HR Hq Hl. split; cbn [drv waiting asked served]; first [done|split; apply NoDup_nil_2|apply Forall2_nil_2|by intros ? ?%not_elem_of_nil].
Qed.

Lemma iinv_reach d a s : arepr (hw d) a -> idequeue d = None -> length (qnexts d) = length (ibufs d) ->
  rtc istep (mkisys d [] [] []) s -> exists q xs a', iinv (a_blocks a) s q xs a'.
Proof.
  intros HR Hq Hl Hr. pose proof (iinv_init d a HR Hq Hl) as I. revert I. generalize (@nil nat) at 2, (@nil buf) at 1, a at 2.
  induction Hr as [s|s s1 s2 H1 _ IH]; intros q xs a' I; [eauto|].
  destruct (iinv_step _ _ _ _ _ _ I H1) as (q' & xs' & a'' & I'). eauto.
Qed.

Lemma iderw_wait_done (s : ist D) b x : ibufs s !! b = Some x -> done x = true -> iderw_wait b s = Ret tt s.
Proof. intros Hb Hd. unfold iderw_wait. rewrite (bind_ret (buf_at b) _ s x s) by (unfold buf_at; by rewrite Hb). unfold done in Hd. by rewrite Hd. Qed.

End System.

(** C22: The driver serves its requests in order.  Whatever the callers of [iderw]
    do and whenever the disk interrupts, the requests asked for so far are those
    carried out, in the order of the calls, followed by those in the queue; the
    bytes that each left in its buffer are those that carrying the requests out
    one after the other leaves, as the memory disk does; every caller inside
    [iderw] is in the queue or finds its request done; and the next interrupt
    completes the first request of the queue and lets its caller go on. *)
Theorem ide_in_order {D : Type} {HW : Hardware D} (polls : nat) {AD : AtaDisk D polls} (d : ist D) (a : adev) (s : isys)
    (HR : arepr (hw d) a) (Hq : idequeue d = None) (Hl : length (qnexts d) = length (ibufs d))
    (Hr : rtc (istep polls) (mkisys d [] [] []) s) :
  exists q xs, chain (qnexts (drv s)) (idequeue (drv s)) q /\
    Forall2 (fun b x => ibufs (drv s) !! b = Some x /\ done x = false) q xs /\
    asked s = (served s).*1 ++ (req_of <$> xs) /\ (served s).*2 = replay (a_blocks a) (served s).*1 /\
    (forall b, b ∈ waiting s -> b ∈ q \/ iderw_wait b (drv s) = Ret tt (drv s)) /\
    (forall b q', q = b :: q' -> exists d', ideintr polls (drv s) = Ret (Some b) d' /\ iderw_wait b d' = Ret tt d').
Proof.
  destruct (iinv_reach polls d a s HR Hq Hl Hr) as (q & xs & a' & I). exists q, xs. pose proof I as [I1 I2 I3 I4 I5 I6 I7 I8 I9 I10 I11].
  split_and!; [done| |done|done| |].
  - eapply Forall2_impl; [exact I6|]. intros b x (Hb & _ & _ & Hd). done.
  - intros b Hb. destruct (decide (b ∈ q)) as [|Hn]; [by left|right]. destruct (I7 b Hb Hn) as (x & Hx & Hd). by eapply iderw_wait_done.
  - intros b q' ->. destruct xs as [|x xs]; [by apply Forall2_length in I6|].
    destruct (step_intr polls _ s q' b x xs a' I) as (d' & a'' & y & E & Hy & I'). exists d'. split; [done|].
    assert (b ∈ waiting s) as Hw by (apply I5; left). 
    destruct (ii_done _ _ _ _ _ _ I' b Hw) as (z & Hz & Hd); [|by eapply iderw_wait_done].
    destruct I4 as [[Hbq _]%NoDup_cons _]. exact Hbq.
Qed.

(** A disk for [ide_in_order_witness]: ready again on the third look after a command. *)
Definition toy : Type := adev * nat.
Definition set_work (w : awork) (a : adev) : adev := mkadev (a_blocks a) (a_regs a) w.

#[local] Instance toy_hw : Hardware toy := {
  inb p d := match d with (a, O) => Ret IDE_DRDY d | (a, S k) => Ret IDE_BSY (a, k) end;
  outb p v d := Ret tt (
    if p =? 503
    then (set_work (if v =? IDE_CMD_READ then ARead (reg_drive d.1) (reg_lba d.1) else AWrite (reg_drive d.1) (reg_lba d.1)) d.1, 2%nat)
    else (set_reg p v d.1, d.2));
  insl p n d := match a_work d.1 with ARead dr lba => Ret (a_blocks d.1 dr lba) (set_work AIdle d.1, d.2) | _ => Ret [] d end;
  outsl p bs d := match a_work d.1 with
                  | AWrite dr lba => Ret tt (mkadev (put_sector dr lba bs (a_blocks d.1)) (a_regs d.1) AWritten, d.2)
                  | _ => Ret tt d
                  end;
  mmio_read p d := Ret 0 d;
  mmio_write p v d := Ret tt d;
  mem_write16 p v d := Ret tt d;
}.

#[local] Instance toy_disk : AtaDisk toy 3.
Proof.
  refine {| arepr := fun d a => d.1 = a /\ (d.2 < 3)%nat; a_busy := snd |}.
  - by intros d a [_ H].
  - intros [a' [|k]] a [<- H]; cbn; [by split|]. split; [split; [done|cbn in H |- *; lia]|]. change (k < S k)%nat. lia.
  - intros [a' k] a p v [<- H] Hp. unfold wp. cbn [outb toy_hw fst snd]. rewrite (proj2 (Z.eqb_neq p 503)) by set_solver. done.
  - intros [a' k] a [<- H] _. cbn. split; [done|lia].
  - intros [a' k] a [<- H] _. cbn. split; [done|lia].
  - intros [a' k] a dr n bs [<- H] E _. unfold wp. cbn [outsl toy_hw fst snd] in *. by rewrite E.
  - intros [a' k] a dr n [<- H] E. unfold wp. cbn [insl toy_hw fst snd] in *. rewrite E. by split_and!.
Defined.

Definition toy_data : block := replicate BSIZE 7.
Definition toy_start : ist toy :=
  mkist [mkbuf B_DIRTY 0 5 (mksleeplock 1 1) 1 toy_data; mkbuf 0 0 5 (mksleeplock 1 2) 1 (replicate BSIZE 0)]
    [None; None] None 0 (mkadev (fun _ _ => replicate BSIZE 0) (fun _ => 0) AIdle, 0%nat).
Definition after {A} (o : outcome (ist toy) A) : ist toy :=
  match o with Ret _ s | Wait _ s => s | Stop _ => toy_start end.
Definition toy_asked : list req := [mkreq 0 5 (Some toy_data); mkreq 0 5 None].
Definition toy1 : ist toy := after (iderw 3 1 0 toy_start).
Definition toy2 : ist toy := after (iderw 3 2 1 toy1).
Definition toy3 : ist toy := after (ideintr 3 toy2).
Definition toy_end : isys := mkisys (after (ideintr 3 toy3)) [1%nat; 0%nat] toy_asked (zip toy_asked [toy_data; toy_data]).

(** [ide_in_order] for a write by one process and a read of the same sector by another. *)
Lemma ide_in_order_witness :
  rtc (istep 3) (mkisys toy_start [] [] []) toy_end /\ exists q xs,
    chain (qnexts (drv toy_end)) (idequeue (drv toy_end)) q /\ asked toy_end = (served toy_end).*1 ++ (req_of <$> xs) /\
    (served toy_end).*2 = replay (fun _ _ => replicate BSIZE 0) (served toy_end).*1.
Proof.
  assert (rtc (istep 3) (mkisys toy_start [] [] []) toy_end) as Hr.
  { eapply rtc_l; [eapply (is_call 3 _ 1 0); [set_solver|reflexivity|reflexivity|by split_and!|by left|vm_compute; reflexivity]|].
    eapply rtc_l; [eapply (is_call 3 _ 2 1); [set_solver|reflexivity|reflexivity|by split_and!|by left|vm_compute; reflexivity]|].
    eapply rtc_l; [eapply (is_intr 3 _ 0); [vm_compute; reflexivity|reflexivity|reflexivity]|].
    eapply rtc_l; [eapply (is_intr 3 _ 1); [vm_compute; reflexivity|reflexivity|reflexivity]|].
    apply rtc_refl. }
  split; [exact Hr|].
  destruct (ide_in_order 3 toy_start (toy_start.(hw)).1 toy_end) as (q & xs & H1 & _ & H3 & H4 & _); [by split; [|cbn; lia]|done|done|exact Hr|].
  by exists q, xs.
Defined.
