(* ===== verification/Boot.v ===== *)
(** * The boot loader ([bootmain.c])

    The loader reads the kernel's ELF image from the disk, sector by sector, into
    physical memory.  Over any disk of the kind the driver assumes, every segment
    of a kernel whose segments lie in increasing order ends up in memory with its
    bytes of the file and zeroes behind them. *)
From S2P Require Import Prelude Str Bio Hw Ide IdeSpec.

Definition SECTSIZE : Z := 512.

(** Physical memory and the hardware. *)
Record boot (D : Type) := mkboot { ram : mem; bdev : D }.
Arguments mkboot {D} ram bdev.
Arguments ram {D} b.
Arguments bdev {D} b.

Section Boot.
Context {D : Type} {HW : Hardware D}.

Abbreviation BM := (M (boot D)).

Definition on_disk {A} (c : M D A) : BM A := zoom bdev (fun d s => mkboot (ram s) d) c.
Definition set_ram (m : mem) : BM unit := modify (fun s => mkboot m (bdev s)).

(** [polls]: how often the status may be read. *)
Fixpoint waitdisk (polls : nat) : M D unit :=
  match polls with
  | O => fault "fuel"
  | S k =>
      let! r := inb 503 in
      if negb (Z.land r 192 =? 64) then waitdisk k else ret tt
  end.

Definition readsect (polls : nat) (dst offset : Z) : BM unit :=
  on_disk (waitdisk polls ;;
       outb 498 1 ;;
       outb 499 (u8 offset) ;;
       outb 500 (u8 (Z.shiftr offset 8)) ;;
       outb 501 (u8 (Z.shiftr offset 16)) ;;
       outb 502 (u8 (Z.lor (Z.shiftr offset 24) 224)) ;;
       outb 503 32 ;;
       waitdisk polls) ;;
  let! bs := on_disk (insl 496 (Z.to_nat (SECTSIZE / 4))) in
  let! s := get in
  set_ram (poke (ram s) dst bs).

(** The loop of [readseg]: the fuel bounds its sectors. *)
Fixpoint readseg_loop (fuel : nat) (polls : nat) (pa epa offset : Z) : BM unit :=
  match fuel with
  | O => fault "fuel"
  | S k =>
      if pa <? epa then readsect polls pa offset ;; readseg_loop k polls (u32 (pa + SECTSIZE)) epa (u32 (offset + 1))
      else ret tt
  end.

Definition readseg (polls : nat) (pa count offset : Z) : BM unit :=
  let epa := u32 (pa + count) in
  let pa := u32 (pa - offset mod SECTSIZE) in
  let offset := offset / SECTSIZE + 1 in
  readseg_loop (Z.to_nat (count / SECTSIZE) + 3) polls pa epa offset.

(** The fields of [struct elfhdr] and [struct proghdr] that are used. *)
Definition elf_magic (m : mem) (elf : Z) : Z := load32 m elf.
Definition elf_entry (m : mem) (elf : Z) : Z := load32 m (elf + 24).
Definition elf_phoff (m : mem) (elf : Z) : Z := load32 m (elf + 28).
Definition elf_phnum (m : mem) (elf : Z) : Z := m (elf + 44) + 256 * m (elf + 45).
Definition ph_off (m : mem) (ph : Z) : Z := load32 m (ph + 4).
Definition ph_paddr (m : mem) (ph : Z) : Z := load32 m (ph + 12).
Definition ph_filesz (m : mem) (ph : Z) : Z := load32 m (ph + 16).
Definition ph_memsz (m : mem) (ph : Z) : Z := load32 m (ph + 20).

Definition scratch : Z := 65536.

(** One turn of the loop over the program headers. *)
Definition load_one (polls : nat) (ph : Z) : BM unit :=
  let! s := get in
  let pa := ph_paddr (ram s) ph in
  readseg polls pa (ph_filesz (ram s) ph) (ph_off (ram s) ph) ;;
  let! s := get in
  when (ph_filesz (ram s) ph <? ph_memsz (ram s) ph)
    (set_ram (stosb (ram s) (u32 (pa + ph_filesz (ram s) ph)) 0 (Z.to_nat (ph_memsz (ram s) ph - ph_filesz (ram s) ph)))).

(** The address that is called, or [None] when [bootasm.S] handles the error. *)
Definition bootmain (polls : nat) : BM (option Z) :=
  readseg polls scratch 4096 0 ;;
  let! s := get in
  if negb (elf_magic (ram s) scratch =? 1179403647) then ret None
  else
    let ph := u32 (scratch + elf_phoff (ram s) scratch) in
    for_each (indices (Z.to_nat (elf_phnum (ram s) scratch))) (fun i => load_one polls (ph + 32 * Z.of_nat i)) ;;
    let! s := get in
    ret (Some (elf_entry (ram s) scratch)).

End Boot.

(** ** Reading sectors *)

(** The disk's bytes from its sector 1 on: the file with the kernel. *)
Definition kernel (B : Z -> Z -> block) : mem := fun o => nth (Z.to_nat (o mod 512)) (B 0 (1 + o / 512)) 0.

Lemma high_bits h : 0 <= h < 16 -> Z.land (u8 (Z.lor h 224)) 15 = h /\ Z.land (Z.shiftr (u8 (Z.lor h 224)) 4) 1 = 0.
Proof.
  intros Hh. assert (forallb (fun h => (Z.land (u8 (Z.lor h 224)) 15 =? h) && (Z.land (Z.shiftr (u8 (Z.lor h 224)) 4) 1 =? 0)) (seqZ 0 16) = true) as T by (by vm_compute).
  rewrite forallb_forall in T. assert (In h (seqZ 0 16)) as Hi by (apply list_elem_of_In, elem_of_seqZ; lia). apply T in Hi. b2p. lia.
Qed.

Lemma sector_bytes n : 0 <= n < 268435456 ->
  u8 n + 256 * u8 (Z.shiftr n 8) + 65536 * u8 (Z.shiftr n 16) + 16777216 * Z.shiftr n 24 = n /\ 0 <= Z.shiftr n 24 < 16.
Proof.
  intros Hn. unfold u8. rewrite !Z.shiftr_div_pow2 by lia. change (2 ^ 8) with 256. change (2 ^ 16) with 65536. change (2 ^ 24) with 16777216.
  Z.to_euclidean_division_equations. lia.
Qed.

Section Read.
Context {D : Type} {HW : Hardware D} {polls : nat} {AD : AtaDisk D polls}.
Implicit Types s : boot D.

Lemma waitdisk_run d a (Q : unit -> D -> Prop) : arepr d a -> (forall d', arepr d' a -> Q tt d') -> wp (waitdisk polls) d Q.
Proof.
  intros HR HQ. enough (forall k d, arepr d a -> (a_busy d < k)%nat -> wp (waitdisk k) d Q) as H by (apply H; [done|by eapply a_busy_lt]).
  clear d HR. induction k as [|k IH]; intros d HR Hb; [lia|].
  cbn [waitdisk]. eapply wp_seq; [by apply (a_status d a)|]. cbn beta. intros r d' [HR' H].
  change (Z.lor IDE_BSY IDE_DRDY) with 192 in H. change IDE_DRDY with 64 in H. destruct (Z.land r 192 =? 64); [by apply wp_ret, HQ|]. apply IH; [done|lia].
Qed.

Lemma readsect_run dst n s a (Q : unit -> boot D -> Prop) : arepr (bdev s) a -> 0 <= n < 268435456 ->
  (forall d a', arepr d a' -> a_blocks a' = a_blocks a -> Q tt (mkboot (poke (ram s) dst (a_blocks a 0 n)) d)) -> wp (readsect polls dst n) s Q.
Proof.
  intros HR Hn HQ. destruct (sector_bytes n Hn) as [En Hh]. destruct (high_bits _ Hh) as [E1 E2]. unfold readsect. apply wp_bind, wp_zoom.
  generalize dependent (bdev s). intros d HR. apply wp_bind. eapply waitdisk_run; [exact HR|]. clear d HR. intros d HR.
  do 5 (apply wp_bind; eapply outb_run; [exact HR|set_solver|]; clear d HR; intros d HR).
  apply wp_bind. eapply wp_mono; [apply (a_read d _ HR); done|]. cbn beta. clear d HR. intros [] d HR.
  eapply waitdisk_run; [exact HR|]. clear d HR. intros d HR.
  match type of HR with context [ARead ?x ?y] => assert (x = 0) as Ex; [|assert (y = n) as Ey; [|rewrite Ex, Ey in HR]] end.
  { unfold reg_drive. cbn [a_regs set_reg Z.eqb Pos.eqb]. exact E2. }
  { unfold reg_lba. cbn [a_regs set_reg Z.eqb Pos.eqb]. rewrite E1. exact En. }
  apply wp_bind, wp_zoom. eapply wp_mono; [by apply (a_insl d _ 0 n HR)|]. cbn beta. intros bs d2 [-> HR2].
  apply wp_bind, wp_gets, wp_modify. cbn [ram bdev a_blocks set_reg]. eapply HQ; [exact HR2|done].
Qed.

(** A byte of a sector that was stored at [pa]. *)
Lemma poke_sector (m : mem) pa (bs : list Z) x : length bs = BSIZE ->
  poke m pa bs x = if (pa <=? x) && (x <? pa + 512) then nth (Z.to_nat (x - pa)) bs 0 else m x.
Proof. intros E. unfold poke. rewrite E. done. Qed.

Lemma readseg_loop_run B fuel : (forall dr n, length (B dr n) = BSIZE) -> forall pa epa n s a (Q : unit -> boot D -> Prop),
  arepr (bdev s) a -> a_blocks a = B -> 0 <= pa -> epa + 512 <= 4294967296 -> 0 <= n -> n + Z.of_nat fuel < 268435456 -> epa - pa <= 512 * (Z.of_nat fuel - 1) ->
  (1 <= fuel)%nat ->
  (forall s' a', arepr (bdev s') a' -> a_blocks a' = B ->
     (forall x, pa <= x < epa -> ram s' x = nth (Z.to_nat ((x - pa) mod 512)) (B 0 (n + (x - pa) / 512)) 0) ->
     (forall x, x < pa \/ Z.max pa (epa + 511) <= x -> ram s' x = ram s x) -> Q tt s') ->
  wp (readseg_loop fuel polls pa epa n) s Q.
Proof.
  intros HB. induction fuel as [|fuel IH]; intros pa epa n s a Q HR Ha Hpa Hepa Hn Hf He H1 HQ; [lia|]. cbn [readseg_loop].
  destruct (Z.ltb_spec pa epa) as [Hlt|Hge]; [|apply wp_ret; eapply HQ; [exact HR|done|lia|done]].
  unfold SECTSIZE. rewrite !u32_small by lia. apply wp_bind. eapply readsect_run; [exact HR|lia|]. intros d a1 HR1 Ha1. rewrite Ha in Ha1 |- *.
  eapply (IH (pa + 512) epa (n + 1)); [exact HR1|done|lia..|].
  intros s2 a2 HR2 Ha2 H2 H3. eapply HQ; [exact HR2|done| |].
  - intros x Hx. destruct (Z.lt_ge_cases x (pa + 512)) as [Hx'|Hx'].
    + rewrite H3 by lia. cbn [ram]. rewrite poke_sector by done. rewrite (proj2 (Z.leb_le _ _)), (proj2 (Z.ltb_lt _ _)) by lia.
      rewrite Z.mod_small, Z.div_small, Z.add_0_r by lia. done.
    + rewrite H2 by lia. replace (x - pa) with (x - (pa + 512) + 1 * 512) by lia. rewrite Z.mod_add, Z.div_add by lia.
      by replace (n + 1 + (x - (pa + 512)) / 512) with (n + ((x - (pa + 512)) / 512 + 1)) by lia.
  - intros x Hx. rewrite H3 by lia. cbn [ram]. rewrite poke_sector by done.
    destruct (Z.leb_spec pa x), (Z.ltb_spec x (pa + 512)); cbn [andb]; [lia|done..].
Qed.

(** A segment of the file is in memory, with nothing below it touched. *)
Lemma readseg_run B pa count off s a (Q : unit -> boot D -> Prop) : (forall dr n, length (B dr n) = BSIZE) ->
  arepr (bdev s) a -> a_blocks a = B -> off mod 512 <= pa -> 0 <= count -> pa + count + 512 <= 4294967296 -> 0 <= off -> off + count < 137438000000 ->
  (forall s' a', arepr (bdev s') a' -> a_blocks a' = B ->
     (forall x, pa <= x < pa + count -> ram s' x = kernel B (off + (x - pa))) ->
     (forall x, x < pa - off mod 512 \/ pa + count + 511 <= x -> ram s' x = ram s x) -> Q tt s') ->
  wp (readseg polls pa count off) s Q.
Proof.
  intros HB HR Ha Hpa Hc Hend Hoff Hlim HQ. unfold readseg, SECTSIZE. pose proof (Z.mod_pos_bound off 512 ltac:(lia)) as Hm.
  rewrite !u32_small by lia. pose proof (Z.div_mod off 512 ltac:(lia)) as Eo. pose proof (Z.div_mod count 512 ltac:(lia)) as Ec.
  pose proof (Z.mod_pos_bound count 512 ltac:(lia)). assert (0 <= off / 512) by (apply Z.div_pos; lia). assert (0 <= count / 512) by (apply Z.div_pos; lia).
  eapply (readseg_loop_run B); [done|exact HR|done|lia..|]. intros s' a' HR' Ha' HA HB'. eapply HQ; [exact HR'|done| |].
  - intros x Hx. rewrite HA by lia. unfold kernel.
    replace (off + (x - pa)) with (x - (pa - off mod 512) + off / 512 * 512) by lia. rewrite Z.mod_add, Z.div_add by lia.
    by replace (1 + ((x - (pa - off mod 512)) / 512 + off / 512)) with (off / 512 + 1 + (x - (pa - off mod 512)) / 512) by lia.
  - intros x Hx. apply HB'. lia.
Qed.

End Read.

(** ** Loading the kernel *)

(** The header page in the scratch memory is the start of the file. *)
Definition header (K m : mem) : Prop := forall x, 0 <= x < 4096 -> m (scratch + x) = K x.

Lemma header_word K m a : header K m -> 0 <= a -> a + 4 <= 4096 -> load32 m (scratch + a) = load32 K a.
Proof. intros H H0 H1. unfold load32. rewrite <- !Z.add_assoc. by rewrite !H by lia. Qed.

(** Where the program header [i] of the file is. *)
Definition ph_at (K : mem) (i : nat) : Z := elf_phoff K 0 + 32 * Z.of_nat i.

(** The segment of a program header is in memory: the bytes of the file, then zeroes. *)
Definition loaded (K m : mem) (ph : Z) : Prop := forall k, 0 <= k < ph_memsz K ph ->
  m (ph_paddr K ph + k) = if k <? ph_filesz K ph then K (ph_off K ph + k) else 0.

(** The first address that loading the segment may touch. *)
Definition seg_start (K : mem) (ph : Z) : Z := ph_paddr K ph - ph_off K ph mod 512.

(** A kernel that can be loaded: its program headers are in the first page, its
    segments are above the scratch page and in increasing order, also when their
    starts are rounded down to sectors, and end 512 bytes before the end of memory
    and of the disk. *)
Record bootable (K : mem) : Prop := {
  bt_magic : elf_magic K 0 = 1179403647;
  bt_headers : 0 <= elf_phoff K 0 /\ 0 <= elf_phnum K 0 /\ elf_phoff K 0 + 32 * elf_phnum K 0 <= 4096;
  bt_segment i : Z.of_nat i < elf_phnum K 0 -> let ph := ph_at K i in
    scratch + 4096 <= seg_start K ph /\ 0 <= ph_filesz K ph <= ph_memsz K ph /\ ph_paddr K ph + ph_memsz K ph + 512 <= 4294967296 /\
    0 <= ph_off K ph /\ ph_off K ph + ph_filesz K ph < 137438000000;
  bt_order i j : (i < j)%nat -> Z.of_nat j < elf_phnum K 0 -> ph_paddr K (ph_at K i) + ph_memsz K (ph_at K i) <= seg_start K (ph_at K j);
}.

Section Load.
Context {D : Type} {HW : Hardware D} {polls : nat} {AD : AtaDisk D polls} (B : Z -> Z -> block) (HB : forall dr n, length (B dr n) = BSIZE).
Implicit Types s : boot D.
Let K : mem := kernel B.

Lemma load_one_run i s a (Q : unit -> boot D -> Prop) : bootable K -> Z.of_nat i < elf_phnum K 0 -> arepr (bdev s) a -> a_blocks a = B -> header K (ram s) ->
  (forall s' a', arepr (bdev s') a' -> a_blocks a' = B -> loaded K (ram s') (ph_at K i) ->
     (forall x, x < seg_start K (ph_at K i) -> ram s' x = ram s x) -> Q tt s') ->
  wp (load_one polls (scratch + elf_phoff K 0 + 32 * Z.of_nat i)) s Q.
Proof.
  intros HK Hi HR Ha Hh HQ. destruct (bt_headers _ HK) as (P1 & P0 & P2). destruct (bt_segment _ HK i Hi) as (S1 & S2 & S3 & S4 & S5). cbv zeta in *.
  set (ph := ph_at K i) in *. replace (scratch + elf_phoff K 0 + 32 * Z.of_nat i) with (scratch + ph) by (unfold ph, ph_at; lia).
  assert (0 <= ph /\ ph + 32 <= 4096) as Hp by (unfold ph, ph_at; lia).
  assert (Hw : forall m, header K m -> ph_paddr m (scratch + ph) = ph_paddr K ph /\ ph_filesz m (scratch + ph) = ph_filesz K ph /\
    ph_memsz m (scratch + ph) = ph_memsz K ph /\ ph_off m (scratch + ph) = ph_off K ph).
  { intros m Hm. unfold ph_paddr, ph_filesz, ph_memsz, ph_off. rewrite <- !Z.add_assoc. by rewrite !(header_word K) by (done || lia). }
  unfold load_one. apply wp_bind, wp_gets. destruct (Hw _ Hh) as (-> & -> & _ & ->). unfold seg_start in *.
  pose proof (Z.mod_pos_bound (ph_off K ph) 512 ltac:(lia)). apply wp_bind.
  eapply (readseg_run B); [done|exact HR|done|unfold scratch in *; lia..|]. intros s1 a1 HR1 Ha1 H1 H2. apply wp_bind, wp_gets.
  assert (header K (ram s1)) as Hh1 by (intros x Hx; rewrite H2 by lia; by apply Hh).
  destruct (Hw _ Hh1) as (_ & -> & -> & _). destruct (Z.ltb_spec (ph_filesz K ph) (ph_memsz K ph)) as [Hlt|Hge]; cbn [when].
  - rewrite u32_small by (unfold scratch in *; lia). apply wp_modify. eapply HQ; [exact HR1|done| |]; cbn [ram].
    + intros k Hk. rewrite stosb_spec. unfold within. destruct (Z.ltb_spec k (ph_filesz K ph)) as [Hk'|Hk'].
      * rewrite (proj2 (Z.leb_gt _ _)) by lia. cbn [andb]. rewrite H1 by lia. unfold K. f_equal. lia.
      * rewrite (proj2 (Z.leb_le _ _)), (proj2 (Z.ltb_lt _ _)) by lia. done.
    + intros x Hx. rewrite stosb_spec. unfold within. rewrite (proj2 (Z.leb_gt _ _)) by lia. cbn [andb]. apply H2. lia.
  - apply wp_ret. eapply HQ; [exact HR1|done| |intros x Hx; apply H2; lia].
    intros k Hk. rewrite (proj2 (Z.ltb_lt _ _)) by lia. rewrite H1 by lia. unfold K. f_equal. lia.
Qed.

(** A segment stays loaded when nothing below a higher address changes. *)
Lemma loaded_below m m' ph b : loaded K m ph -> ph_paddr K ph + ph_memsz K ph <= b -> (forall x, x < b -> m' x = m x) -> loaded K m' ph.
Proof. intros H Hb E k Hk. rewrite E by lia. by apply H. Qed.

Lemma load_all_run s a (Q : unit -> boot D -> Prop) : bootable K -> arepr (bdev s) a -> a_blocks a = B -> header K (ram s) ->
  (forall s', header K (ram s') -> (forall i, Z.of_nat i < elf_phnum K 0 -> loaded K (ram s') (ph_at K i)) -> Q tt s') ->
  wp (for_each (indices (Z.to_nat (elf_phnum K 0))) (fun i => load_one polls (scratch + elf_phoff K 0 + 32 * Z.of_nat i))) s Q.
Proof.
  intros HK HR Ha Hh HQ.
  apply (wp_for_indices (fun j s => header K (ram s) /\ (forall i, (i < j)%nat -> loaded K (ram s) (ph_at K i)) /\ exists a, arepr (bdev s) a /\ a_blocks a = B)).
  - intros j s1 Hj (H1 & H2 & a1 & HR1 & Ha1). assert (Z.of_nat j < elf_phnum K 0) as Hj' by lia.
    eapply load_one_run; [done|done|exact HR1|done|done|]. intros s2 a2 HR2 Ha2 L2 E2. split_and!; [| |by exists a2].
    + intros x Hx. rewrite E2; [by apply H1|]. pose proof (bt_segment _ HK j Hj') as (S1 & _). cbv zeta in S1. lia.
    + intros i Hi. destruct (decide (i = j)) as [->|Hne]; [done|].
      eapply loaded_below; [apply H2; lia|apply (bt_order _ HK i j); lia|exact E2].
  - split_and!; [done|lia|by exists a].
  - intros s' (H1 & H2 & _). apply HQ; [done|]. intros i Hi. apply H2. lia.
Qed.

End Load.

(** C26: The boot loader loads the kernel.  From a disk whose file, from sector 1
    on, is a bootable ELF image, [bootmain] ends with a call of the image's entry
    point, and every segment lies at its physical address with its bytes of the
    file and zeroes up to its size in memory. *)
Theorem bootmain_loads {D : Type} {HW : Hardware D} (polls : nat) {AD : AtaDisk D polls} (B : Z -> Z -> block) (m : mem) (d : D) (a : adev)
    (HB : forall dr n, length (B dr n) = BSIZE) (HR : arepr d a) (Ha : a_blocks a = B) (HK : bootable (kernel B)) :
  exists s, bootmain polls (mkboot m d) = Ret (Some (elf_entry (kernel B) 0)) s /\
    forall i, Z.of_nat i < elf_phnum (kernel B) 0 -> loaded (kernel B) (ram s) (ph_at (kernel B) i).
Proof.
  enough (wp (bootmain polls) (mkboot m d) (fun r s => r = Some (elf_entry (kernel B) 0) /\
    forall i, Z.of_nat i < elf_phnum (kernel B) 0 -> loaded (kernel B) (ram s) (ph_at (kernel B) i))) as W.
  { apply wp_exists in W as (r & s & E & -> & H). by exists s. }
  unfold bootmain. apply wp_bind. eapply (readseg_run B); [done|exact HR|done|change (0 mod 512) with 0; unfold scratch; lia..|].
  intros s1 a1 HR1 Ha1 H1 _. apply wp_bind, wp_gets. assert (header (kernel B) (ram s1)) as Hh.
  { intros x Hx. rewrite H1 by lia. f_equal. lia. }
  destruct (bt_headers _ HK) as (P1 & P0 & P2). assert (elf_magic (ram s1) scratch = elf_magic (kernel B) 0) as ->.
  { unfold elf_magic. rewrite <- (header_word (kernel B) (ram s1) 0) by (done || lia). by rewrite Z.add_0_r. }
  assert (elf_phoff (ram s1) scratch = elf_phoff (kernel B) 0) as -> by (apply (header_word _ _ 28); [done|lia..]).
  assert (elf_phnum (ram s1) scratch = elf_phnum (kernel B) 0) as -> by (unfold elf_phnum; by rewrite !Hh by lia).
  rewrite (bt_magic _ HK). cbn [Z.eqb Pos.eqb negb].
  rewrite u32_small by (unfold scratch; lia). apply wp_bind. eapply (load_all_run B); [done|done|exact HR1|done|done|].
  intros s2 Hh2 H2. apply wp_bind, wp_gets, wp_ret. split; [|done]. f_equal. apply (header_word _ _ 24); [done|lia..].
Qed.

(** [bootmain_loads] for a kernel with one small segment. *)
Definition demo_sector (n : Z) : block :=
  if n =? 1 then
    [127; 69; 76; 70] ++ replicate 20 0 ++ le32 1048578 ++ le32 52 ++ replicate 12 0 ++ [1; 0] ++ replicate 6 0 ++
    le32 1 ++ le32 1024 ++ le32 0 ++ le32 1048576 ++ le32 3 ++ le32 10 ++ replicate 436 0
  else if n =? 3 then [11; 22; 33] ++ replicate 509 44
  else replicate 512 0.
Definition demo_disk (dr n : Z) : block := demo_sector n.
Definition demo_kernel : mem := kernel demo_disk.

Lemma demo_bootable : bootable demo_kernel.
Proof.
  assert (elf_phnum demo_kernel 0 = 1) as E by (by vm_compute).
  split; [by vm_compute|rewrite E; by vm_compute| |].
  - intros i Hi. assert (i = 0%nat) as -> by lia. by vm_compute.
  - intros i j Hij Hj. lia.
Qed.

Lemma bootmain_loads_witness : exists s,
  bootmain (HW := toy_hw) 3 (mkboot (fun _ => 0) (mkadev demo_disk (fun _ => 0) AIdle, 0%nat)) = Ret (Some 1048578) s /\
  ram s 1048577 = 22 /\ ram s 1048585 = 0.
Proof.
  destruct (bootmain_loads (HW := toy_hw) (AD := toy_disk) 3 demo_disk (fun _ => 0) (mkadev demo_disk (fun _ => 0) AIdle, 0%nat) (mkadev demo_disk (fun _ => 0) AIdle))
    as (s & E & H); [|split; [done|cbn; lia]|done|exact demo_bootable|].
  - intros dr n. unfold demo_disk, demo_sector. destruct (n =? 1); [done|]. by destruct (n =? 3).
  - exists s. split; [exact E|]. assert (Z.of_nat 0 < elf_phnum (kernel demo_disk) 0) as H0 by (by vm_compute).
    pose proof (H 0%nat H0) as L. assert (ph_paddr (kernel demo_disk) (ph_at (kernel demo_disk) 0) = 1048576) as Ep by (by vm_compute).
    assert (ph_memsz (kernel demo_disk) (ph_at (kernel demo_disk) 0) = 10) as Em by (by vm_compute).
    assert (ph_filesz (kernel demo_disk) (ph_at (kernel demo_disk) 0) = 3) as Ef by (by vm_compute).
    assert (kernel demo_disk (ph_off (kernel demo_disk) (ph_at (kernel demo_disk) 0) + 1) = 22) as Ek by (by vm_compute).
    unfold loaded in L. rewrite Ep, Em, Ef in L. pose proof (L 1 ltac:(lia)) as L1. pose proof (L 9 ltac:(lia)) as L9. clear L H E.
    change (1 <? 3) with true in L1. change (9 <? 3) with false in L9. cbn iota in L1, L9. rewrite Ek in L1. split; [exact L1|exact L9].
Defined.
