(* ===== verification/BufCache.v ===== *)
(** * What the buffer cache promises to the code above it

    [BufOps] names the operations of [bio.c] as [log.c] and [fs.c] use them,
    [cspec] is the state a client reasons with, and [BufferCache] states what
    each operation does to it.  [BioSpec] proves it of [bio.c]. *)
From S2P Require Import Prelude Bio.

(** A buffer is named by its index in [bcache.buf]. *)
Class BufOps (S : Type) := {
  bo_read : Z -> Z -> M S nat;          (* bread(dev, blockno) *)
  bo_write : nat -> M S unit;           (* bwrite(b) *)
  bo_relse : nat -> M S unit;           (* brelse(b) *)
  bo_data : nat -> M S block;           (* b->data *)
  bo_set : nat -> block -> M S unit;    (* stores into b->data *)
  bo_blockno : nat -> M S Z;            (* b->blockno *)
  bo_pin : nat -> M S unit;             (* b->flags |= B_DIRTY *)
}.

(** Blocks on disk with the writes so far; the contents of the blocks that are
    locked or pinned in memory; the locked blocks with their buffers; the
    pinned ones. *)
Record cspec := mkcspec {
  cs_disk : Z -> block;
  cs_hist : list (Z * block);
  cs_mem : gmap Z block;
  cs_held : gmap Z nat;
  cs_pin : gset Z;
}.

(** The block as [bread] would return it. *)
Definition cur (a : cspec) (n : Z) : block := default (cs_disk a n) (cs_mem a !! n).

(** There is a buffer for block [n]. *)
Definition room (a : cspec) (n : Z) : Prop :=
  is_Some (cs_mem a !! n) \/ (size (cs_mem a) < NBUF)%nat.

Definition read_spec (n : Z) (b : nat) (a : cspec) : cspec :=
  mkcspec (cs_disk a) (cs_hist a) (<[n := cur a n]> (cs_mem a)) (<[n := b]> (cs_held a)) (cs_pin a).
Definition set_spec (n : Z) (d : block) (a : cspec) : cspec :=
  mkcspec (cs_disk a) (cs_hist a) (<[n := d]> (cs_mem a)) (cs_held a) (cs_pin a).
Definition pin_spec (n : Z) (a : cspec) : cspec :=
  mkcspec (cs_disk a) (cs_hist a) (cs_mem a) (cs_held a) ({[n]} ∪ cs_pin a).
Definition write_spec (n : Z) (a : cspec) : cspec :=
  mkcspec (write_disk n (cur a n) (cs_disk a)) (cs_hist a ++ [(n, cur a n)])
    (cs_mem a) (cs_held a) (cs_pin a ∖ {[n]}).
Definition relse_spec (n : Z) (a : cspec) : cspec :=
  mkcspec (cs_disk a) (cs_hist a)
    (if bool_decide (n ∈ cs_pin a) then cs_mem a else delete n (cs_mem a))
    (delete n (cs_held a)) (cs_pin a).

(** Nothing is in memory: the machine has just started over disk [d]. *)
Definition fresh (d : Z -> block) : cspec := mkcspec d [] ∅ ∅ ∅.

(** [disksize]: the number of blocks of device 1; [dev_disk] and [dev_hist] are
    its blocks and the writes it has seen. *)
Class BufferCache (S : Type) `{BufOps S} (disksize : Z) := {
  repr : S -> cspec -> Prop;
  dev_disk : S -> Z -> block;
  dev_hist : S -> list (Z * block);
  repr_disk s a : repr s a -> dev_disk s = cs_disk a;
  repr_hist s a : repr s a -> dev_hist s = cs_hist a;
  repr_len s a n : repr s a -> length (cur a n) = BSIZE;
  repr_dlen s a n : repr s a -> length (cs_disk a n) = BSIZE;
  repr_mem s a n : repr s a -> is_Some (cs_mem a !! n) <-> is_Some (cs_held a !! n) \/ n ∈ cs_pin a;
  read_ok s a n : repr s a -> 0 <= n < disksize -> cs_held a !! n = None -> room a n ->
    exists b s', bo_read 1 n s = Ret b s' /\ repr s' (read_spec n b a);
  data_ok s a n b : repr s a -> cs_held a !! n = Some b ->
    bo_data b s = Ret (cur a n) s /\ bo_blockno b s = Ret n s;
  set_ok s a n b d : repr s a -> cs_held a !! n = Some b -> length d = BSIZE ->
    exists s', bo_set b d s = Ret tt s' /\ repr s' (set_spec n d a);
  pin_ok s a n b : repr s a -> cs_held a !! n = Some b ->
    exists s', bo_pin b s = Ret tt s' /\ repr s' (pin_spec n a);
  write_ok s a n b : repr s a -> 0 <= n < disksize -> cs_held a !! n = Some b ->
    exists s', bo_write b s = Ret tt s' /\ repr s' (write_spec n a);
  relse_ok s a n b : repr s a -> cs_held a !! n = Some b ->
    n ∈ cs_pin a \/ cur a n = cs_disk a n ->
    exists s', bo_relse b s = Ret tt s' /\ repr s' (relse_spec n a);
}.
