(* ===== verification/BioSpec.v ===== *)
(** * [bio.c] keeps the promises of [BufCache] *)
From S2P Require Import Prelude Sleeplock Bio BufCache.

Section Runs.
Implicit Types (s : bst).

Lemma getb_run b s x : bufs s !! b = Some x -> getb b s = Ret x s.
Proof. intros H. unfold getb. by rewrite H. Qed.

Lemma setb_run b f s x : bufs s !! b = Some x ->
  setb b f s = Ret tt (set_bufs (<[b := f x]> (bufs s)) s).
Proof.
  intros H. unfold setb. rewrite (bind_ret _ _ _ _ _ (getb_run _ _ _ H)).
  unfold modify. by rewrite (list_insert_alter _ _ _ _ H).
Qed.

Lemma set_bufs_twice l l' s : set_bufs l (set_bufs l' s) = set_bufs l s.
Proof. done. Qed.

Lemma next_run b s n : nexts s !! b = Some n -> next_of b s = Ret n s.
Proof. intros H. unfold next_of. by rewrite H. Qed.

Lemma prev_run b s n : prevs s !! b = Some n -> prev_of b s = Ret n s.
Proof. intros H. unfold prev_of. by rewrite H. Qed.

Lemma unlink_run b s l1 l2 : ring (nexts s) (prevs s) (l1 ++ b :: l2) ->
  exists nx pv, unlink b s = Ret tt (set_links pv nx s) /\
    length nx = S NBUF /\ length pv = S NBUF /\ linked nx pv (head :: (l1 ++ l2) ++ [head]).
Proof.
  intros [HL HN HA Hnx Hpv]. assert (Hb : (b < NBUF)%nat) by (apply HA; set_solver).
  assert (is_Some (nexts s !! b)) as [n Hn] by (apply lookup_lt_is_Some; lia).
  assert (is_Some (prevs s !! b)) as [p Hp] by (apply lookup_lt_is_Some; lia).
  assert (Hnb : n <> b /\ p <> b).
  { destruct (snoc_split head l1) as (A & p' & EA). destruct (cons_split l2 head) as (n' & B & EB).
    assert (E : head :: (l1 ++ b :: l2) ++ [head] = A ++ p' :: b :: n' :: B).
    { rewrite <- app_assoc. cbn. rewrite EB. change (head :: l1 ++ b :: n' :: B)
        with ((head :: l1) ++ b :: n' :: B). by rewrite EA, <- app_assoc. }
    rewrite E in HL. apply linked_app in HL as (_ & [_ H1] & [[H2 _] _]).
    assert (p' = p) as -> by congruence. assert (n' = n) as -> by congruence.
    assert (Hh : b <> head) by (unfold head; lia).
    change (head :: l1 ++ b :: l2) with ((head :: l1) ++ b :: l2) in HN. rewrite EA in HN.
    apply NoDup_app in HN as (_ & Hd & [Hb2 _]%NoDup_cons). split.
    - intros ->. destruct l2; cbn in EB; simplify_eq; set_solver.
    - intros ->. apply (Hd b); set_solver. }
  destruct Hnb as [Hnb Hpb]. exists (<[p := n]> (nexts s)), (<[n := p]> (prevs s)). split.
  - unfold unlink. rewrite (bind_ret _ _ _ _ _ (next_run _ _ _ Hn)).
    rewrite (bind_ret _ _ _ _ _ (prev_run _ _ _ Hp)). unfold set_prev at 1.
    rewrite (bind_ret (modify _) _ _ _ _ eq_refl).
    erewrite bind_ret by (apply prev_run; cbn; by rewrite list_lookup_insert_ne).
    erewrite bind_ret by (apply next_run; exact Hn). done.
  - split_and!; [by rewrite length_insert..|]. eapply linked_unlink; eauto.
    intros x [->|Hx]%elem_of_cons; [done|]. apply HA in Hx. lia.
Qed.

Lemma insert_front_run b s l : linked (nexts s) (prevs s) (head :: l ++ [head]) ->
  length (nexts s) = S NBUF -> length (prevs s) = S NBUF -> NoDup (head :: b :: l) ->
  (forall x, x ∈ b :: l <-> (x < NBUF)%nat) ->
  exists nx pv, insert_front b s = Ret tt (set_links pv nx s) /\ ring nx pv (b :: l).
Proof.
  intros HL Hnx Hpv HN HA. destruct (linked_first _ _ _ HL) as (n & t & _ & Hn).
  assert (Hb : (b < NBUF)%nat) by (apply HA; set_solver).
  assert (Hbh : b <> head) by (unfold head; lia).
  exists (<[head := b]> (<[b := n]> (nexts s))), (<[n := b]> (<[b := head]> (prevs s))). split.
  - unfold insert_front. rewrite (bind_ret _ _ _ _ _ (next_run _ _ _ Hn)).
    unfold set_next at 1. rewrite (bind_ret (modify _) _ _ _ _ eq_refl).
    unfold set_prev at 1. rewrite (bind_ret (modify _) _ _ _ _ eq_refl).
    erewrite bind_ret by (apply next_run; cbn; rewrite list_lookup_insert_ne by done; exact Hn).
    done.
  - split; [|done|done|by rewrite !length_insert..].
    apply NoDup_cons in HN as [Hh HN]. apply NoDup_cons in HN as [Hbl HN].
    apply linked_insert; auto; [apply NoDup_cons; set_solver|set_solver|lia|].
    intros x Hx. assert (x < NBUF)%nat by (apply HA; set_solver). lia.
Qed.

(** [brelse] moves the buffer to the front of the ring. *)
Lemma filter_remove (b : nat) l1 l2 : NoDup (head :: l1 ++ b :: l2) ->
  filter (.≠ b) (l1 ++ b :: l2) = l1 ++ l2.
Proof.
  intros [_ (_ & H & [? _]%NoDup_cons)%NoDup_app]%NoDup_cons.
  rewrite filter_app, filter_cons_False by tauto.
  f_equal; apply filter_all; apply Forall_forall; set_solver.
Qed.

Lemma move_front_run b s l : ring (nexts s) (prevs s) l -> b ∈ l ->
  exists nx pv, (unlink b ;; insert_front b) s = Ret tt (set_links pv nx s) /\
    ring nx pv (b :: filter (.≠ b) l).
Proof.
  intros HR (l1 & l2 & ->)%list_elem_of_split.
  destruct (unlink_run _ _ _ _ HR) as (nx & pv & E & H1 & H2 & HL). destruct HR as [_ HN HA _ _].
  assert (HP : b :: l1 ++ l2 ≡ₚ l1 ++ b :: l2) by apply Permutation_middle.
  destruct (insert_front_run b (set_links pv nx s) (l1 ++ l2)) as (nx' & pv' & E' & HR'); auto.
  - by rewrite HP.
  - intros x. rewrite HP. apply HA.
  - exists nx', pv'. rewrite (bind_ret _ _ _ _ _ E). split; [done|]. by rewrite filter_remove.
Qed.

Lemma ring_len nx pv l : ring nx pv l -> length l = NBUF.
Proof.
  intros [_ [Hh HN]%NoDup_cons HA _ _].
  assert (HP : l ≡ₚ seq 0 NBUF).
  { apply NoDup_Permutation; [done|apply NoDup_seq|]. intros x. rewrite HA, elem_of_seq. lia. }
  by rewrite HP.
Qed.

(** Both scans of [bget]. *)
Lemma walk_ring s l test : ring (nexts s) (prevs s) l -> length (bufs s) = NBUF ->
  exists b r, nexts s !! head = Some b /\ walk next_of test NBUF b s = Ret r s /\
    match r with
    | Some i => exists x, bufs s !! i = Some x /\ test x = true
    | None => forall i x, bufs s !! i = Some x -> test x = false
    end.
Proof.
  intros HR HL. pose proof (ring_len _ _ _ HR) as Hlen. destruct HR as [HK HN HA Hnx Hpv].
  destruct (linked_first _ _ _ HK) as (b & t & E & Hb).
  destruct (walk_linked s next_of test (nexts s) (prevs s)
    (fun x y H => next_run x s y H) l NBUF b t) as (r & Hr & Hres); [done| |lia| |].
  - rewrite E in *. by destruct HK.
  - intros x Hx. apply HA in Hx. split; [unfold head; lia|apply lookup_lt_is_Some; lia].
  - exists b, r. split_and!; auto. destruct r; [naive_solver|].
    intros i x Hi. apply (Hres i x); [|done]. apply HA. rewrite <- HL. by eapply lookup_lt_Some.
Qed.

Lemma walk_ring_back s l test : ring (nexts s) (prevs s) l -> length (bufs s) = NBUF ->
  exists b r, prevs s !! head = Some b /\ walk prev_of test NBUF b s = Ret r s /\
    match r with
    | Some i => exists x, bufs s !! i = Some x /\ test x = true
    | None => forall i x, bufs s !! i = Some x -> test x = false
    end.
Proof.
  intros HR%ring_rev HL. pose proof (ring_len _ _ _ HR) as Hlen. destruct HR as [HK HN HA Hnx Hpv].
  destruct (linked_first _ _ _ HK) as (b & t & E & Hb).
  destruct (walk_linked s prev_of test (prevs s) (nexts s)
    (fun x y H => prev_run x s y H) (rev l) NBUF b t) as (r & Hr & Hres); [done| |lia| |].
  - rewrite E in *. by destruct HK.
  - intros x Hx. apply HA in Hx. split; [unfold head; lia|apply lookup_lt_is_Some; lia].
  - exists b, r. split_and!; auto. destruct r; [naive_solver|].
    intros i x Hi. apply (Hres i x); [|done]. apply HA. rewrite <- HL. by eapply lookup_lt_Some.
Qed.

End Runs.

(** ** The state behind the abstract one *)

Section Repr.
Variables (me disksize : Z).
Implicit Types (s : bst) (a : cspec).

(** What a buffer is: locked by the process, pinned, a clean copy of its disk
    block, or not used yet. *)
Inductive shape (a : cspec) (i : nat) (x : buf) : Prop :=
| sh_held : dev x = 1 -> cs_held a !! blockno x = Some i -> lock x = mksleeplock 1 me ->
    refcnt x = 1 -> cs_mem a !! blockno x = Some (data x) ->
    flags x = (if bool_decide (blockno x ∈ cs_pin a) then 6 else 2) -> shape a i x
| sh_pinned : dev x = 1 -> cs_held a !! blockno x = None -> blockno x ∈ cs_pin a ->
    lock x = initsleeplock -> refcnt x = 0 -> cs_mem a !! blockno x = Some (data x) ->
    flags x = 6 -> shape a i x
| sh_clean : dev x = 1 -> cs_mem a !! blockno x = None -> lock x = initsleeplock ->
    refcnt x = 0 -> data x = cs_disk a (blockno x) -> flags x = 2 -> shape a i x
| sh_blank : dev x <> 1 -> lock x = initsleeplock -> refcnt x = 0 -> flags x = 0 ->
    shape a i x.

Record brepr (s : bst) (a : cspec) : Prop := {
  br_ring : exists l, ring (nexts s) (prevs s) l;
  br_len : length (bufs s) = NBUF;
  br_disk : disk s = cs_disk a;
  br_hist : hist s = cs_hist a;
  br_shape i x : bufs s !! i = Some x -> shape a i x;
  br_data i x : bufs s !! i = Some x -> length (data x) = BSIZE;
  br_dlen n : length (cs_disk a n) = BSIZE;
  br_uniq i j x y : bufs s !! i = Some x -> bufs s !! j = Some y ->
    dev x = 1 -> dev y = 1 -> blockno x = blockno y -> i = j;
  br_held n b : cs_held a !! n = Some b ->
    exists x, bufs s !! b = Some x /\ dev x = 1 /\ blockno x = n;
  br_pin n : n ∈ cs_pin a -> exists i x, bufs s !! i = Some x /\ dev x = 1 /\ blockno x = n;
  br_dom n : is_Some (cs_mem a !! n) <-> is_Some (cs_held a !! n) \/ n ∈ cs_pin a;
}.

(** The two states agree on every block but [n]. *)
Definition agree (n : Z) (a a' : cspec) : Prop := forall m, m <> n ->
  cs_disk a' m = cs_disk a m /\ cs_mem a' !! m = cs_mem a !! m /\
  cs_held a' !! m = cs_held a !! m /\ (m ∈ cs_pin a' <-> m ∈ cs_pin a).

Lemma shape_agree n a a' i x : agree n a a' -> shape a i x ->
  (dev x = 1 -> blockno x <> n) -> shape a' i x.
Proof.
  intros HA HS Hn. destruct HS as [Hd|Hd|Hd|Hd]; [..|by apply sh_blank].
  - destruct (HA _ (Hn Hd)) as (E1 & E2 & E3 & E4). apply sh_held; try congruence.
    rewrite (bool_decide_ext _ _ E4). done.
  - destruct (HA _ (Hn Hd)) as (E1 & E2 & E3 & E4). apply sh_pinned; try congruence. by apply E4.
  - destruct (HA _ (Hn Hd)) as (E1 & E2 & E3 & E4). apply sh_clean; congruence.
Qed.

(** Replacing buffer [i] by one for block [n]. *)
Lemma brepr_upd s a a' i x x' n pv nx :
  brepr s a -> bufs s !! i = Some x -> dev x' = 1 -> blockno x' = n -> agree n a a' ->
  (forall j y, bufs s !! j = Some y -> dev y = 1 -> blockno y = n -> j = i) ->
  (dev x = 1 -> blockno x <> n -> cs_mem a !! blockno x = None) ->
  shape a' i x' -> length (data x') = BSIZE -> length (cs_disk a' n) = BSIZE ->
  (forall b, cs_held a' !! n = Some b -> b = i) ->
  (is_Some (cs_mem a' !! n) <-> is_Some (cs_held a' !! n) \/ n ∈ cs_pin a') ->
  (exists l, ring nx pv l) ->
  brepr (mkbst (<[i := x']> (bufs s)) pv nx (cs_disk a') (cs_hist a')) a'.
Proof.
  intros HB Hi Hd Hn HA Hown Hold HS HL HDL Hheld Hdom Hring.
  assert (Hkeep : forall j y, bufs s !! j = Some y -> dev y = 1 -> blockno y <> n ->
    is_Some (cs_mem a !! blockno y) -> <[i := x']> (bufs s) !! j = Some y).
  { intros j y Hj Hy Hne [z Hz]. destruct (decide (i = j)) as [<-|Hij].
    - rewrite Hi in Hj. injection Hj as <-. rewrite Hold in Hz by done. done.
    - by rewrite list_lookup_insert_ne. }
  split; cbn; auto.
  - rewrite length_insert. apply HB.
  - intros j y Hj. apply list_lookup_insert_Some in Hj as [(<- & <- & _)|[Hij Hj]]; [done|].
    eapply shape_agree; [done|by eapply br_shape|]. intros Hy E. by destruct (Hij (eq_sym (Hown _ _ Hj Hy E))).
  - intros j y Hj. apply list_lookup_insert_Some in Hj as [(<- & <- & _)|[Hij Hj]]; [done|].
    by eapply br_data.
  - intros m. destruct (decide (m = n)) as [->|Hm]; [done|].
    destruct (HA _ Hm) as (-> & _). apply HB.
  - intros j k y z Hj Hk Hy Hz E.
    apply list_lookup_insert_Some in Hj as [(<- & <- & _)|[Hij Hj]],
      Hk as [(<- & <- & _)|[Hik Hk]]; [done|..|by eapply br_uniq].
    + symmetry. apply (Hown _ _ Hk Hz). congruence.
    + apply (Hown _ _ Hj Hy). congruence.
  - intros m b Hm. destruct (decide (m = n)) as [->|Hne].
    + rewrite (Hheld _ Hm). exists x'. rewrite list_lookup_insert_eq; [done|by eapply lookup_lt_Some].
    + destruct (HA _ Hne) as (_ & _ & E & _). rewrite E in Hm.
      destruct (br_held _ _ HB _ _ Hm) as (y & Hy & Hdy & <-). exists y.
      split_and!; auto. apply Hkeep; auto. apply (br_dom _ _ HB). left. eauto.
  - intros m Hm. destruct (decide (m = n)) as [->|Hne].
    + exists i, x'. rewrite list_lookup_insert_eq; [done|by eapply lookup_lt_Some].
    + destruct (HA _ Hne) as (_ & _ & _ & E). apply E in Hm.
      destruct (br_pin _ _ HB _ Hm) as (j & y & Hy & Hdy & <-). exists j, y.
      split_and!; auto. apply Hkeep; auto. apply (br_dom _ _ HB). by right.
  - intros m. destruct (decide (m = n)) as [->|Hne]; [done|].
    destruct (HA _ Hne) as (_ & -> & -> & ->). apply HB.
Qed.

(** ** The steps of the operations *)

Lemma lock_buf_run b s x : bufs s !! b = Some x -> lock x = initsleeplock ->
  lock_buf me b s = Ret tt (set_bufs (<[b := set_lock (mksleeplock 1 me) x]> (bufs s)) s).
Proof.
  intros Hb Hl. unfold lock_buf. rewrite (bind_ret _ _ _ _ _ (getb_run _ _ _ Hb)). rewrite Hl. cbn.
  by apply setb_run.
Qed.

Lemma unlock_buf_run b s x : bufs s !! b = Some x ->
  unlock_buf b s = Ret tt (set_bufs (<[b := set_lock initsleeplock x]> (bufs s)) s).
Proof.
  intros Hb. unfold unlock_buf. rewrite (bind_ret _ _ _ _ _ (getb_run _ _ _ Hb)). cbn.
  by apply setb_run.
Qed.

Lemma holding_buf_run b s x : bufs s !! b = Some x -> lock x = mksleeplock 1 me ->
  holding_buf me b s = Ret true s.
Proof.
  intros Hb Hl. unfold holding_buf. rewrite (bind_ret _ _ _ _ _ (getb_run _ _ _ Hb)).
  rewrite Hl. cbn. by rewrite Z.eqb_refl.
Qed.

(** [iderw] on a locked buffer that is not valid: the disk block is read. *)
Lemma iderw_read b s x : bufs s !! b = Some x -> lock x = mksleeplock 1 me ->
  flags x = 0 -> dev x = 1 -> blockno x < disksize ->
  iderw me disksize b s = Ret tt
    (set_bufs (<[b := set_flags 2 (set_data (disk s (blockno x)) x)]> (bufs s)) s).
Proof.
  intros Hb Hl Hf Hd Hn. unfold iderw. rewrite (bind_ret _ _ _ _ _ (holding_buf_run _ _ _ Hb Hl)).
  cbn [negb]. rewrite (bind_ret _ _ _ _ _ (getb_run _ _ _ Hb)). rewrite Hf, Hd.
  rewrite (proj2 (Z.leb_gt _ _) Hn). unfold has_flag. rewrite Hf.
  change (Z.land 0 (Z.lor B_VALID B_DIRTY) =? B_VALID) with false.
  change (nz (Z.land 0 B_DIRTY)) with false. change (1 =? 1) with true. cbn [negb].
  rewrite bind_assoc. rewrite (bind_ret get _ _ _ _ eq_refl).
  rewrite (bind_ret _ _ _ _ _ (setb_run _ _ _ _ Hb)).
  erewrite setb_run by (cbn; by eapply lookup_upd). unfold set_bufs. cbn.
  by rewrite list_insert_insert_eq, Hf.
Qed.

(** [iderw] on a locked dirty buffer: the disk block is written. *)
Lemma iderw_write b s x : bufs s !! b = Some x -> lock x = mksleeplock 1 me ->
  flags x = 6 -> dev x = 1 -> blockno x < disksize ->
  iderw me disksize b s = Ret tt
    (mkbst (<[b := set_flags 2 x]> (bufs s)) (prevs s) (nexts s)
       (write_disk (blockno x) (data x) (disk s)) (hist s ++ [(blockno x, data x)])).
Proof.
  intros Hb Hl Hf Hd Hn. unfold iderw. rewrite (bind_ret _ _ _ _ _ (holding_buf_run _ _ _ Hb Hl)).
  cbn [negb]. rewrite (bind_ret _ _ _ _ _ (getb_run _ _ _ Hb)). rewrite Hf, Hd.
  rewrite (proj2 (Z.leb_gt _ _) Hn). unfold has_flag. rewrite Hf.
  change (Z.land 6 (Z.lor B_VALID B_DIRTY) =? B_VALID) with false.
  change (nz (Z.land 6 B_DIRTY)) with true. change (1 =? 1) with true. cbn [negb].
  rewrite bind_assoc. rewrite (bind_ret _ _ _ _ _ (setb_run _ _ _ _ Hb)).
  rewrite (bind_ret (modify _) _ _ _ _ eq_refl).
  erewrite setb_run by (cbn; by eapply lookup_upd). unfold set_bufs. cbn.
  by rewrite list_insert_insert_eq, Hf.
Qed.

Lemma held_buf s a n b : brepr s a -> cs_held a !! n = Some b ->
  exists x, bufs s !! b = Some x /\ dev x = 1 /\ blockno x = n /\ lock x = mksleeplock 1 me /\
    refcnt x = 1 /\ cs_mem a !! n = Some (data x) /\
    flags x = (if bool_decide (n ∈ cs_pin a) then 6 else 2).
Proof.
  intros HB Hn. destruct (br_held _ _ HB _ _ Hn) as (x & Hx & Hd & <-). exists x.
  destruct (br_shape _ _ HB _ _ Hx); try congruence; [by split_and!|].
  assert (is_Some (cs_mem a !! blockno x)) as [? ?] by (apply (br_dom _ _ HB); eauto). congruence.
Qed.

Lemma own_block s a b x : brepr s a -> bufs s !! b = Some x -> dev x = 1 ->
  forall j y, bufs s !! j = Some y -> dev y = 1 -> blockno y = blockno x -> j = b.
Proof. intros HB Hb Hd j y Hj Hy E. by eapply br_uniq. Qed.

(** If every buffer is locked or pinned, the blocks in memory fill the cache. *)
Lemma cache_full s a : brepr s a ->
  (forall i x, bufs s !! i = Some x -> (refcnt x =? 0) && negb (has_flag B_DIRTY x) = false) ->
  (NBUF <= size (cs_mem a))%nat.
Proof.
  intros HB Hbusy.
  assert (Hmem : forall i x, bufs s !! i = Some x -> dev x = 1 /\ is_Some (cs_mem a !! blockno x)).
  { intros i x Hx. specialize (Hbusy _ _ Hx). unfold has_flag in Hbusy.
    destruct (br_shape _ _ HB _ _ Hx) as [? _ _ Hr Hm|? _ _ _ _ Hm|? _ _ Hr _ Hf|? _ Hr Hf];
      [eauto..| |]; rewrite Hr, Hf in Hbusy; done. }
  assert (HN : NoDup (blockno <$> bufs s)).
  { apply NoDup_alt. intros i j n Hi Hj.
    apply list_lookup_fmap_Some in Hi as (x & -> & Hx), Hj as (y & E & Hy).
    eapply br_uniq; eauto; [by eapply Hmem..]. }
  assert (HS : list_to_set (blockno <$> bufs s) ⊆ dom (cs_mem a)).
  { intros n. rewrite elem_of_list_to_set, list_elem_of_fmap. intros (x & -> & Hx).
    apply list_elem_of_lookup in Hx as [i Hx]. apply elem_of_dom. by eapply Hmem. }
  apply subseteq_size in HS. rewrite size_list_to_set in HS by done.
  rewrite length_fmap, (br_len _ _ HB) in HS. by rewrite size_dom in HS.
Qed.

(** ** The laws *)

Lemma agree_read n b a : agree n a (read_spec n b a).
Proof. intros m Hm. cbn. rewrite !lookup_insert_ne by done. done. Qed.

Lemma lock_shape a i x n : dev x = 1 -> blockno x = n -> cur a n = data x ->
  (n ∈ cs_pin a -> flags x = 6) -> (n ∉ cs_pin a -> flags x = 2) ->
  shape (read_spec n i a) i (set_lock (mksleeplock 1 me) (set_refcnt 1 x)).
Proof.
  intros Hd <- Hc H6 H2. apply sh_held; cbn; auto.
  - by rewrite lookup_insert_eq.
  - by rewrite lookup_insert_eq, Hc.
  - case_bool_decide; auto.
Qed.

Lemma read_repr s a n i x x' : brepr s a -> bufs s !! i = Some x -> dev x' = 1 -> blockno x' = n ->
  (forall j y, bufs s !! j = Some y -> dev y = 1 -> blockno y = n -> j = i) ->
  (dev x = 1 -> blockno x <> n -> cs_mem a !! blockno x = None) ->
  shape (read_spec n i a) i x' -> length (data x') = BSIZE ->
  brepr (set_bufs (<[i := x']> (bufs s)) s) (read_spec n i a).
Proof.
  intros HB Hx Hd Hn Hown Hold HS HL. unfold set_bufs.
  rewrite (br_disk _ _ HB), (br_hist _ _ HB).
  eapply (brepr_upd s a (read_spec n i a)); eauto using agree_read.
  - apply (br_dlen _ _ HB).
  - cbn. rewrite lookup_insert_eq. congruence.
  - cbn. rewrite !lookup_insert_eq. split; eauto.
  - apply HB.
Qed.

(** [bread] once [bget]'s first scan found the block in buffer [i]. *)
Lemma bread_hit s a n i x : brepr s a -> cs_held a !! n = None ->
  bufs s !! i = Some x -> dev x = 1 -> blockno x = n ->
  exists s', (let! b := (setb i (fun x => set_refcnt (u32 (refcnt x + 1)) x) ;; lock_buf me i ;; ret i) in
              let! x := getb b in
              (if has_flag B_VALID x then ret tt else iderw me disksize b) ;; ret b) s = Ret i s' /\
    brepr s' (read_spec n i a).
Proof.
  intros HB Hfree Hx Hd Hbn.
  assert (Hs : lock x = initsleeplock /\ refcnt x = 0 /\ cur a n = data x /\
    (n ∈ cs_pin a -> flags x = 6) /\ (n ∉ cs_pin a -> flags x = 2) /\ has_flag B_VALID x = true).
  { unfold cur, has_flag. destruct (br_shape _ _ HB _ _ Hx) as
      [? ? ? ? ? ?|? ? ? ? ? Hm Hf|? Hm ? ? Hdt Hf|? ? ? ?]; try congruence; rewrite Hbn in *.
    - rewrite Hm, Hf. naive_solver.
    - rewrite Hm, Hf, <- Hdt. split_and!; auto. intros Hp.
      assert (is_Some (cs_mem a !! n)) as [? ?] by (apply (br_dom _ _ HB); auto). congruence. }
  destruct Hs as (Hl & Hrf & Hc & H6 & H2 & Hv).
  rewrite !bind_assoc, (bind_ret _ _ _ _ _ (setb_run _ _ _ _ Hx)). rewrite Hrf.
  rewrite bind_assoc. erewrite bind_ret by (apply lock_buf_run; [by eapply lookup_upd|done]).
  rewrite (bind_ret (ret i) _ _ _ _ eq_refl).
  erewrite bind_ret by (apply getb_run; cbn; eapply lookup_upd; by eapply lookup_upd).
  match goal with |- context [has_flag B_VALID ?y] =>
    change (has_flag B_VALID y) with (has_flag B_VALID x) end.
  rewrite Hv. rewrite (bind_ret (ret tt) _ _ _ _ eq_refl). eexists. split; [done|].
  rewrite set_bufs_twice. cbn [bufs set_bufs]. rewrite list_insert_insert_eq.
  change (u32 (0 + 1)) with 1.
  eapply read_repr; eauto; [by rewrite <- Hbn; eapply own_block| |by apply lock_shape|].
  - intros _ ?. congruence.
  - exact (br_data _ _ HB _ _ Hx).
Qed.

Lemma not_cached s a n : brepr s a -> cs_held a !! n = None ->
  (forall i x, bufs s !! i = Some x -> dev x = 1 -> blockno x <> n) -> cs_mem a !! n = None.
Proof.
  intros HB Hfree Hnone. destruct (cs_mem a !! n) eqn:E; [|done].
  assert (Hm : is_Some (cs_mem a !! n)) by eauto.
  apply (br_dom _ _ HB) in Hm as [[c Hc]|Hp]; [congruence|].
  destruct (br_pin _ _ HB _ Hp) as (j & y & Hy & Hdy & Ey). by destruct (Hnone _ _ Hy Hdy).
Qed.

(** [bread] once [bget] recycles buffer [i] for a block that is not cached. *)
Lemma bread_miss s a n i x : brepr s a -> 0 <= n < disksize -> cs_held a !! n = None ->
  (forall i x, bufs s !! i = Some x -> dev x = 1 -> blockno x <> n) ->
  bufs s !! i = Some x -> refcnt x = 0 -> has_flag B_DIRTY x = false ->
  exists s', (let! b := (setb i (fun x => mkbuf 0 1 n (lock x) 1 (data x)) ;; lock_buf me i ;; ret i) in
              let! x := getb b in
              (if has_flag B_VALID x then ret tt else iderw me disksize b) ;; ret b) s = Ret i s' /\
    brepr s' (read_spec n i a).
Proof.
  intros HB Hn Hfree Hnone Hx Hrf Hdirty.
  assert (Hs : lock x = initsleeplock /\ (dev x = 1 -> cs_mem a !! blockno x = None)).
  { destruct (br_shape _ _ HB _ _ Hx) as [|? ? ? ? ? ? Hf| |]; try done; [congruence|].
    unfold has_flag in Hdirty. by rewrite Hf in Hdirty. }
  destruct Hs as [Hl Hclean]. pose proof (not_cached _ _ _ HB Hfree Hnone) as Hcur.
  rewrite !bind_assoc, (bind_ret _ _ _ _ _ (setb_run _ _ _ _ Hx)).
  rewrite bind_assoc. erewrite bind_ret by (apply lock_buf_run; [by eapply lookup_upd|done]).
  rewrite (bind_ret (ret i) _ _ _ _ eq_refl).
  erewrite bind_ret by (apply getb_run; cbn; eapply lookup_upd; by eapply lookup_upd).
  change (has_flag B_VALID _) with false. cbn iota.
  erewrite bind_ret by (apply iderw_read; [cbn; eapply lookup_upd; by eapply lookup_upd|done..|cbn; lia]).
  eexists. split; [done|]. rewrite !set_bufs_twice. cbn [bufs set_bufs disk blockno].
  rewrite !list_insert_insert_eq. eapply read_repr; eauto; cbn.
  - intros j y Hj Hy E. by destruct (Hnone _ _ Hj Hy).
  - apply sh_held; cbn; auto; [by rewrite lookup_insert_eq| |].
    + rewrite lookup_insert_eq. unfold cur. by rewrite Hcur, (br_disk _ _ HB).
    + rewrite bool_decide_false; [done|]. intros Hp.
      assert (is_Some (cs_mem a !! n)) as [? ?] by (apply (br_dom _ _ HB); auto). congruence.
  - rewrite (br_disk _ _ HB). apply (br_dlen _ _ HB).
Qed.

Lemma bread_law s a n : brepr s a -> 0 <= n < disksize -> cs_held a !! n = None -> room a n ->
  exists b s', bread me disksize 1 n s = Ret b s' /\ brepr s' (read_spec n b a).
Proof.
  intros HB Hn Hfree Hroom. destruct (br_ring _ _ HB) as [l HR].
  destruct (walk_ring s l (fun x => (dev x =? 1) && (blockno x =? n)) HR (br_len _ _ HB))
    as (b & r & Hb & Hr & Hres).
  unfold bread, bget. rewrite !bind_assoc, (bind_ret _ _ _ _ _ (next_run _ _ _ Hb)).
  rewrite bind_assoc, (bind_ret _ _ _ _ _ Hr). destruct r as [i|].
  { destruct Hres as (x & Hx & Ht). b2p. destruct Ht as [Hd Hbn].
    exists i. by eapply bread_hit. }
  assert (Hnone : forall i x, bufs s !! i = Some x -> dev x = 1 -> blockno x <> n).
  { intros i x Hx Hd E. specialize (Hres _ _ Hx). b2p. naive_solver. }
  destruct (walk_ring_back s l (fun x => (refcnt x =? 0) && negb (has_flag B_DIRTY x)) HR (br_len _ _ HB))
    as (b' & r' & Hb' & Hr' & Hres').
  rewrite !bind_assoc, (bind_ret _ _ _ _ _ (prev_run _ _ _ Hb')).
  rewrite bind_assoc, (bind_ret _ _ _ _ _ Hr'). destruct r' as [i|].
  - destruct Hres' as (x & Hx & Ht). b2p. destruct Ht as [Hrf Hdirty].
    exists i. by eapply bread_miss.
  - exfalso. pose proof (cache_full _ _ HB Hres').
    destruct Hroom as [[v Hv]|?]; [|lia]. by rewrite (not_cached _ _ _ HB Hfree Hnone) in Hv.
Qed.

Lemma data_law s a n b : brepr s a -> cs_held a !! n = Some b ->
  (let! x := getb b in ret (data x)) s = Ret (cur a n) s /\
  (let! x := getb b in ret (blockno x)) s = Ret n s.
Proof.
  intros HB Hn. destruct (held_buf _ _ _ _ HB Hn) as (x & Hx & _ & <- & _ & _ & Hm & _).
  rewrite !(bind_ret _ _ _ _ _ (getb_run _ _ _ Hx)). unfold cur. by rewrite Hm.
Qed.

(** A change of the locked buffer [b] of block [n] alone. *)
Lemma held_upd s a a' n b x x' : brepr s a -> bufs s !! b = Some x -> dev x = 1 ->
  dev x' = 1 -> blockno x = n -> blockno x' = n -> agree n a a' -> shape a' b x' ->
  length (data x') = BSIZE -> length (cs_disk a' n) = BSIZE ->
  (forall c, cs_held a' !! n = Some c -> c = b) ->
  (is_Some (cs_mem a' !! n) <-> is_Some (cs_held a' !! n) \/ n ∈ cs_pin a') ->
  brepr (mkbst (<[b := x']> (bufs s)) (prevs s) (nexts s) (cs_disk a') (cs_hist a')) a'.
Proof.
  intros HB Hx Hd Hd' Hn Hn' HA HS HL HDL Hh Hm.
  eapply (brepr_upd s a a' b x x' n); eauto; [|congruence|apply HB].
  rewrite <- Hn. by eapply own_block.
Qed.

Lemma set_law s a n b d : brepr s a -> cs_held a !! n = Some b -> length d = BSIZE ->
  exists s', setb b (set_data d) s = Ret tt s' /\ brepr s' (set_spec n d a).
Proof.
  intros HB Hn Hlen. destruct (held_buf _ _ _ _ HB Hn) as (x & Hx & Hd & Hbn & Hl & Hr & Hm & Hf).
  rewrite (setb_run _ _ _ _ Hx). eexists. split; [done|]. unfold set_bufs.
  rewrite (br_disk _ _ HB), (br_hist _ _ HB).
  apply (held_upd s a (set_spec n d a) n b x); auto; cbn.
  - intros m Hm'. cbn. rewrite lookup_insert_ne by done. done.
  - apply sh_held; cbn; rewrite ?Hbn; auto. by rewrite lookup_insert_eq.
  - apply (br_dlen _ _ HB).
  - congruence.
  - rewrite lookup_insert_eq, Hn. split; eauto.
Qed.

Lemma pin_law s a n b : brepr s a -> cs_held a !! n = Some b ->
  exists s', setb b (fun x => set_flags (Z.lor (flags x) B_DIRTY) x) s = Ret tt s' /\
    brepr s' (pin_spec n a).
Proof.
  intros HB Hn. destruct (held_buf _ _ _ _ HB Hn) as (x & Hx & Hd & Hbn & Hl & Hr & Hm & Hf).
  rewrite (setb_run _ _ _ _ Hx). eexists. split; [done|]. unfold set_bufs.
  rewrite (br_disk _ _ HB), (br_hist _ _ HB).
  apply (held_upd s a (pin_spec n a) n b x); auto; cbn.
  - intros m Hm'. cbn. set_solver.
  - apply sh_held; cbn; rewrite ?Hbn; auto.
    rewrite (bool_decide_true (n ∈ {[n]} ∪ _)) by set_solver. rewrite Hf. by case_bool_decide.
  - by eapply br_data.
  - apply (br_dlen _ _ HB).
  - congruence.
  - rewrite Hm, Hn. split; eauto.
Qed.

Lemma write_law s a n b : brepr s a -> 0 <= n < disksize -> cs_held a !! n = Some b ->
  exists s', bwrite me disksize b s = Ret tt s' /\ brepr s' (write_spec n a).
Proof.
  intros HB Hr Hn. destruct (held_buf _ _ _ _ HB Hn) as (x & Hx & Hd & Hbn & Hl & Hrf & Hm & Hf).
  unfold bwrite. rewrite (bind_ret _ _ _ _ _ (holding_buf_run _ _ _ Hx Hl)). cbn [negb].
  rewrite (bind_ret _ _ _ _ _ (setb_run _ _ _ _ Hx)).
  erewrite iderw_write; [|cbn; by eapply lookup_upd|done| |done|cbn; lia].
  2:{ cbn. rewrite Hf. by case_bool_decide. }
  eexists. split; [done|]. cbn. rewrite list_insert_insert_eq, Hbn.
  assert (Hc : cur a n = data x) by (unfold cur; by rewrite Hm).
  rewrite (br_disk _ _ HB), (br_hist _ _ HB), <- Hc.
  apply (held_upd s a (write_spec n a) n b x); auto; cbn.
  - intros m Hm'. cbn. unfold write_disk. rewrite (proj2 (Z.eqb_neq _ _) Hm'). set_solver.
  - apply sh_held; cbn; rewrite ?Hbn; auto. by rewrite bool_decide_false by set_solver.
  - by eapply br_data.
  - unfold write_disk. rewrite Z.eqb_refl, Hc. by eapply br_data.
  - congruence.
  - rewrite Hm, Hn. split; eauto.
Qed.

Lemma relse_run s a n b l : brepr s a -> cs_held a !! n = Some b ->
  n ∈ cs_pin a \/ cur a n = cs_disk a n -> ring (nexts s) (prevs s) l ->
  exists s', brelse me b s = Ret tt s' /\ brepr s' (relse_spec n a) /\
    ring (nexts s') (prevs s') (b :: filter (.≠ b) l).
Proof.
  intros HB Hn Hok HR. destruct (held_buf _ _ _ _ HB Hn) as (x & Hx & Hd & Hbn & Hl & Hrf & Hm & Hf).
  unfold brelse. rewrite (bind_ret _ _ _ _ _ (holding_buf_run _ _ _ Hx Hl)). cbn [negb].
  rewrite (bind_ret _ _ _ _ _ (unlock_buf_run _ _ _ Hx)).
  erewrite bind_ret by (apply setb_run; cbn; by eapply lookup_upd).
  erewrite bind_ret by (apply getb_run; cbn; eapply lookup_upd; by eapply lookup_upd).
  cbn [refcnt set_refcnt set_lock]. rewrite Hrf. change (u32 (1 - 1) =? 0) with true. cbn iota.
  match goal with |- context [(unlink b ;; insert_front b) ?s1] =>
    destruct (move_front_run b s1 l) as (nx & pv & E & HR'); [exact HR| |] end.
  { apply HR. rewrite <- (br_len _ _ HB). by eapply lookup_lt_Some. }
  rewrite E. eexists. split; [done|]. split; [|exact HR'].
  unfold set_links, set_bufs. cbn. rewrite list_insert_insert_eq.
  assert (Hc : cur a n = data x) by (unfold cur; by rewrite Hm).
  rewrite (br_disk _ _ HB), (br_hist _ _ HB).
  assert (Hnd : n ∉ cs_pin a -> data x = cs_disk a n) by (intros; rewrite <- Hc; tauto).
  eapply (brepr_upd s a (relse_spec n a) b x _ n); auto; cbn; rewrite ?Hbn.
  - intros m Hm'. cbn. rewrite lookup_delete_ne by done.
    case_bool_decide; [done|]. by rewrite lookup_delete_ne by done.
  - rewrite <- Hbn. by eapply own_block.
  - done.
  - case_bool_decide as Hp; [apply sh_pinned|apply sh_clean]; cbn; rewrite ?Hbn; auto;
      rewrite ?bool_decide_true by done; rewrite ?bool_decide_false by done; auto;
      by rewrite lookup_delete_eq.
  - by eapply br_data.
  - apply (br_dlen _ _ HB).
  - by rewrite lookup_delete_eq.
  - rewrite lookup_delete_eq. case_bool_decide; [rewrite Hm; naive_solver|].
    rewrite lookup_delete_eq. split; [intros [? ?]; done|intros [[? ?]|?]; done].
  - eauto.
Qed.

Lemma relse_law s a n b : brepr s a -> cs_held a !! n = Some b ->
  n ∈ cs_pin a \/ cur a n = cs_disk a n ->
  exists s', brelse me b s = Ret tt s' /\ brepr s' (relse_spec n a).
Proof.
  intros HB Hn Hok. destruct (br_ring _ _ HB) as [l HR].
  destruct (relse_run s a n b l) as (s' & ? & ? & _); eauto.
Qed.

End Repr.

(** ** The instance *)

Definition bio_ops (me disksize : Z) : BufOps bst := {|
  bo_read := bread me disksize;
  bo_write := bwrite me disksize;
  bo_relse := brelse me;
  bo_data b := let! x := getb b in ret (data x);
  bo_set b d := setb b (set_data d);
  bo_blockno b := let! x := getb b in ret (blockno x);
  bo_pin b := setb b (fun x => set_flags (Z.lor (flags x) B_DIRTY) x);
|}.

Lemma brepr_cur_len me s a n : brepr me s a -> length (cur a n) = BSIZE.
Proof.
  intros HB. unfold cur. destruct (cs_mem a !! n) as [v|] eqn:E; cbn; [|apply (br_dlen _ _ _ HB)].
  assert (Hm : is_Some (cs_mem a !! n)) by eauto.
  apply (br_dom _ _ _ HB) in Hm as [[b Hb]|Hp].
  - destruct (held_buf _ _ _ _ _ HB Hb) as (x & Hx & _ & _ & _ & _ & Hv & _).
    rewrite E in Hv. injection Hv as ->. exact (br_data _ _ _ HB _ _ Hx).
  - destruct (br_pin _ _ _ HB _ Hp) as (i & x & Hx & Hd & <-).
    assert (Hv : v = data x).
    { destruct (br_shape _ _ _ HB _ _ Hx) as [? ? ? ? Hv|? ? ? ? ? Hv|? Hv|]; try congruence. }
    rewrite Hv. exact (br_data _ _ _ HB _ _ Hx).
Qed.

Definition bio_cache (me disksize : Z) : BufferCache bst (H := bio_ops me disksize) disksize.
Proof.
  refine (Build_BufferCache bst (bio_ops me disksize) disksize (brepr me) disk hist
    (br_disk me) (br_hist me) (brepr_cur_len me) (fun s a n HB => br_dlen _ _ _ HB n) (fun s a n HB => br_dom _ _ _ HB n) _ _ _ _ _ _).
  - exact (bread_law me disksize).
  - exact (data_law me).
  - exact (set_law me).
  - exact (pin_law me).
  - exact (write_law me disksize).
  - exact (relse_law me).
Defined.

Definition ring0 : list nat := rev (seq 0 NBUF).

Lemma binit_run d : exists nx pv,
  binit (bcache0 d) = Ret tt (mkbst (repeat buf0 NBUF) pv nx d []) /\ ring nx pv ring0.
Proof.
  do 2 eexists. split; [vm_compute; reflexivity|]. split.
  - vm_compute. tauto.
  - apply (bool_decide_unpack _). by vm_compute.
  - intros b. unfold ring0. rewrite rev_alt. fold (reverse (seq 0 NBUF)).
    rewrite elem_of_reverse, elem_of_seq. lia.
  - done.
  - done.
Qed.

Lemma binit_brepr me d : (forall n, length (d n) = BSIZE) ->
  exists s, binit (bcache0 d) = Ret tt s /\ brepr me s (fresh d).
Proof.
  intros Hd. destruct (binit_run d) as (nx & pv & E & HR). eexists. split; [exact E|].
  assert (Hall : forall i x, repeat buf0 NBUF !! i = Some x -> x = buf0).
  { intros i x Hx. by apply repeat_lookup_Some in Hx as [-> _]. }
  assert (HL : length (repeat buf0 NBUF) = NBUF) by apply repeat_length.
  clear E. set (L := repeat buf0 NBUF) in *. clearbody L.
  split; cbn; [by exists ring0|done|done|done|..|done| | |set_solver|].
  - intros i x ->%Hall. by apply sh_blank.
  - by intros i x ->%Hall.
  - intros i j x y ->%Hall. done.
  - intros n b. by rewrite lookup_empty.
  - intros n. rewrite !lookup_empty. split; [by intros [? ?]|]. by intros [[? ?]|[]%elem_of_empty].
Qed.

(** ** Claims *)

(** [binit] leaves a proper ring of the 30 buffers in which nothing is cached:
    every block reads as its disk contents. *)
Theorem binit_spec me d : (forall n, length (d n) = BSIZE) ->
  exists s, binit (bcache0 d) = Ret tt s /\ brepr me s (fresh d) /\
    ring (nexts s) (prevs s) ring0 /\ forall n, cur (fresh d) n = d n.
Proof.
  intros Hd. destruct (binit_brepr me d Hd) as (s & E & HB). exists s. split_and!; auto.
  destruct (binit_run d) as (nx & pv & E' & HR). rewrite E in E'. by injection E' as ->.
Qed.

(** C32: [bread] of a block that is not locked, when it is cached or some buffer is
    neither locked nor pinned, returns a buffer locked by the caller that holds
    the block's current contents: the pinned version if there is one and the disk
    block otherwise.  The disk and all other blocks are as before. *)
Theorem bread_spec me disksize s a n : brepr me s a -> 0 <= n < disksize ->
  cs_held a !! n = None -> room a n ->
  exists b s' x, bread me disksize 1 n s = Ret b s' /\ brepr me s' (read_spec n b a) /\
    bufs s' !! b = Some x /\ data x = cur a n /\ blockno x = n /\
    lock x = mksleeplock 1 me /\ disk s' = disk s /\ hist s' = hist s.
Proof.
  intros HB Hn Hf Hr. destruct (bread_law _ _ _ _ _ HB Hn Hf Hr) as (b & s' & E & HB').
  destruct (held_buf me s' _ n b HB') as (x & Hx & _ & Hbn & Hl & _ & Hm & _).
  { cbn. by rewrite lookup_insert_eq. }
  exists b, s', x. cbn in Hm. rewrite lookup_insert_eq in Hm. injection Hm as Hm.
  split_and!; auto.
  - rewrite (br_disk _ _ _ HB'), (br_disk _ _ _ HB). done.
  - rewrite (br_hist _ _ _ HB'), (br_hist _ _ _ HB). done.
Qed.

(** [bwrite] of a locked buffer writes exactly its block to the disk, once, and
    the block is no longer pinned. *)
Theorem bwrite_spec me disksize s a n b : brepr me s a -> 0 <= n < disksize ->
  cs_held a !! n = Some b ->
  exists s', bwrite me disksize b s = Ret tt s' /\ brepr me s' (write_spec n a) /\
    disk s' = write_disk n (cur a n) (disk s) /\ hist s' = hist s ++ [(n, cur a n)].
Proof.
  intros HB Hn Hb. destruct (write_law _ _ _ _ _ _ HB Hn Hb) as (s' & E & HB').
  exists s'. split_and!; auto.
  - rewrite (br_disk _ _ _ HB'), (br_disk _ _ _ HB). done.
  - rewrite (br_hist _ _ _ HB'), (br_hist _ _ _ HB). done.
Qed.

(** [brelse] of a locked buffer that is pinned or equal to its disk block
    unlocks it and puts it at the front of the ring; a pinned block keeps its
    contents in memory, any other can be read back from the disk. *)
Theorem brelse_spec me s a n b l : brepr me s a -> cs_held a !! n = Some b ->
  n ∈ cs_pin a \/ cur a n = cs_disk a n -> ring (nexts s) (prevs s) l ->
  exists s', brelse me b s = Ret tt s' /\ brepr me s' (relse_spec n a) /\
    ring (nexts s') (prevs s') (b :: filter (.≠ b) l) /\
    forall m, cur (relse_spec n a) m = cur a m.
Proof.
  intros HB Hb Hok HR. destruct (relse_run _ _ _ _ _ _ HB Hb Hok HR) as (s' & E & HB' & HR').
  exists s'. split_and!; auto. intros m. unfold cur. cbn. case_bool_decide; [done|].
  destruct (decide (m = n)) as [->|Hne]; [|by rewrite lookup_delete_ne].
  rewrite lookup_delete_eq. cbn. destruct Hok as [?|Hok]; [done|]. by symmetry.
Qed.

(** A disk of zero blocks, the cache over it, and the cache with block 5 locked. *)
Definition demo_disk : Z -> block := fun _ => repeat 0 BSIZE.

Lemma demo_cache : exists s, brepr 7 s (fresh demo_disk).
Proof. destruct (binit_brepr 7 demo_disk) as (s & _ & H); [done|eauto]. Qed.

Lemma demo_locked : exists b s, brepr 7 s (read_spec 5 b (fresh demo_disk)).
Proof.
  destruct demo_cache as [s H].
  destruct (bread_law 7 1000 s _ 5 H) as (b & s' & _ & H'); [lia|done| |eauto].
  right. vm_compute; lia.
Qed.

Lemma bread_spec_witness : exists s b s' x, bread 7 1000 1 5 s = Ret b s' /\
  bufs s' !! b = Some x /\ data x = repeat 0 BSIZE.
Proof.
  destruct demo_cache as [s H].
  destruct (bread_spec 7 1000 s _ 5 H) as (b & s' & x & E & _ & Hx & Hd & _).
  - lia.
  - reflexivity.
  - right. vm_compute. lia.
  - exists s, b, s', x. split; [exact E|]. split; [exact Hx|]. rewrite Hd. reflexivity.
Defined.

