(* ===== verification/Log.v ===== *)
(** * The log ([log.c])

    The transaction code over any buffer cache that keeps the promises of
    [BufCache].  Code under [log.lock] is one step.  A block write is atomic: a
    crash falls between two writes of the disk's history. *)
From S2P Require Import Prelude Bio BufCache.

Definition MAXOPBLOCKS : Z := 10.
Definition LOGSIZE : Z := 30.

(** ** Words in a block *)

Definition get32 (d : block) (o : nat) : Z :=
  de32 (nth o d 0) (nth (o + 1) d 0) (nth (o + 2) d 0) (nth (o + 3) d 0).

Fixpoint put_bytes (d : block) (o : nat) (l : list Z) : block :=
  match l with
  | [] => d
  | x :: l => put_bytes (<[o := x]> d) (S o) l
  end.

Definition put32 (d : block) (o : nat) (v : Z) : block := put_bytes d o (le32 v).

(** [struct logheader] in a block: [n], then [block[]]. *)
Definition hdr_block (i : nat) : nat := (4 + 4 * i)%nat.

Record logst := mklogst {
  start : Z;
  lsize : Z;
  outstanding : Z;
  committing : Z;
  ldev : Z;
  lh_n : Z;
  lh_block : list Z;
}.

Definition set_outstanding v l := mklogst (start l) (lsize l) v (committing l) (ldev l) (lh_n l) (lh_block l).
Definition set_committing v l := mklogst (start l) (lsize l) (outstanding l) v (ldev l) (lh_n l) (lh_block l).
Definition set_lh n b l := mklogst (start l) (lsize l) (outstanding l) (committing l) (ldev l) n b.

(** The zero-initialised [struct log]. *)
Definition log0 : logst := mklogst 0 0 0 0 0 0 (repeat 0 30).

Record lst (C : Type) := mklst { lg : logst; cache : C }.
Arguments mklst {C} lg cache.
Arguments lg {C} l.
Arguments cache {C} l.

(** The first [i] with [log.lh.block[i] == blockno], or [n]. *)
Fixpoint find_block (bl : list Z) (b : Z) (n : nat) : nat :=
  match n, bl with
  | S n, x :: bl => if x =? b then 0%nat else S (find_block bl b n)
  | _, _ => 0%nat
  end.

Section Log.
Context {C : Type} `{BO : BufOps C}.

Definition inc {A} (m : M C A) : M (lst C) A := zoom cache (fun c s => mklst (lg s) c) m.
Definition lget {A} (f : logst -> A) : M (lst C) A := gets (fun s => f (lg s)).
Definition lmod (f : logst -> logst) : M (lst C) unit :=
  modify (fun s => mklst (f (lg s)) (cache s)).

(** One round of [install_trans]'s loop. *)
Definition install_block (tail : nat) : M (lst C) unit :=
  let! l := lget id in
  let! lbuf := inc (bo_read (ldev l) (start l + Z.of_nat tail + 1)) in
  let! dst := deref (lh_block l !! tail) in
  let! dbuf := inc (bo_read (ldev l) dst) in
  let! v := inc (bo_data lbuf) in
  inc (bo_set dbuf v) ;;
  inc (bo_write dbuf) ;;
  inc (bo_relse lbuf) ;;
  inc (bo_relse dbuf).

Definition install_trans : M (lst C) unit :=
  let! n := lget lh_n in
  for_each (indices (Z.to_nat n)) install_block.

(** [log.lh.block[i] = lh->block[i]] for [i < n]; writing past the array is not
    C. *)
Definition load_block (h : block) (i : nat) : M (lst C) unit :=
  let! l := lget id in
  if bool_decide (i < 30)%nat then
    lmod (set_lh (lh_n l) (<[i := s32 (get32 h (hdr_block i))]> (lh_block l)))
  else fault "lh.block".

Definition read_head : M (lst C) unit :=
  let! l := lget id in
  let! b := inc (bo_read (ldev l) (start l)) in
  let! h := inc (bo_data b) in
  let n := s32 (get32 h 0) in
  lmod (fun l => set_lh n (lh_block l) l) ;;
  for_each (indices (Z.to_nat n)) (load_block h) ;;
  inc (bo_relse b).

(** The header block with [hb->block[i]] stored for the [i] of a list. *)
Definition store_blocks (bl : list Z) (js : list nat) (h : block) : block :=
  foldl (fun h i => put32 h (hdr_block i) (nth i bl 0)) h js.

Definition store_head (n : Z) (bl : list Z) (h : block) : block :=
  store_blocks bl (indices (Z.to_nat n)) (put32 h 0 n).

Definition write_head : M (lst C) unit :=
  let! l := lget id in
  let! b := inc (bo_read (ldev l) (start l)) in
  let! h := inc (bo_data b) in
  inc (bo_set b (store_head (lh_n l) (lh_block l) h)) ;;
  inc (bo_write b) ;;
  inc (bo_relse b).

Definition recover_from_log : M (lst C) unit :=
  read_head ;;
  install_trans ;;
  lmod (fun l => set_lh 0 (lh_block l) l) ;;
  write_head.

(** [initlog] with [readsb]'s copy of the super block's [nlog] and [logstart]. *)
Definition initlog (dev : Z) : M (lst C) unit :=
  let! b := inc (bo_read dev 1) in
  let! sb := inc (bo_data b) in
  inc (bo_relse b) ;;
  lmod (fun l => mklogst (s32 (get32 sb 16)) (s32 (get32 sb 12)) (outstanding l) (committing l)
                   dev (lh_n l) (lh_block l)) ;;
  recover_from_log.

(** One round of [begin_op]'s loop. *)
Definition begin_op : M (lst C) unit :=
  let! l := lget id in
  if nz (committing l) then (fun s => Wait "log" s)
  else if LOGSIZE <? lh_n l + (outstanding l + 1) * MAXOPBLOCKS then (fun s => Wait "log" s)
  else lmod (set_outstanding (outstanding l + 1)).

(** One round of [write_log]'s loop. *)
Definition log_block (tail : nat) : M (lst C) unit :=
  let! l := lget id in
  let! to := inc (bo_read (ldev l) (start l + Z.of_nat tail + 1)) in
  let! src := deref (lh_block l !! tail) in
  let! from := inc (bo_read (ldev l) src) in
  let! v := inc (bo_data from) in
  inc (bo_set to v) ;;
  inc (bo_write to) ;;
  inc (bo_relse from) ;;
  inc (bo_relse to).

Definition write_log : M (lst C) unit :=
  let! n := lget lh_n in
  for_each (indices (Z.to_nat n)) log_block.

Definition commit : M (lst C) unit :=
  let! n := lget lh_n in
  if 0 <? n then
    write_log ;;
    write_head ;;
    install_trans ;;
    lmod (fun l => set_lh 0 (lh_block l) l) ;;
    write_head
  else ret tt.

(** The flag says that sleepers on [&log] are woken. *)
Definition end_op : M (lst C) bool :=
  let! l := lget id in
  lmod (set_outstanding (outstanding l - 1)) ;;
  if nz (committing l) then panic "log.committing"
  else if outstanding l - 1 =? 0 then
    lmod (set_committing 1) ;;
    commit ;;
    lmod (set_committing 0) ;;
    ret true
  else ret true.

Definition log_write (b : nat) : M (lst C) unit :=
  let! l := lget id in
  if (LOGSIZE <=? lh_n l) || (lsize l - 1 <=? lh_n l) then panic "too big a transaction"
  else if outstanding l <? 1 then panic "log_write outside of trans"
  else
    let! n := inc (bo_blockno b) in
    let i := find_block (lh_block l) n (Z.to_nat (lh_n l)) in
    lmod (set_lh (if Z.of_nat i =? lh_n l then lh_n l + 1 else lh_n l)
            (<[i := n]> (lh_block l))) ;;
    inc (bo_pin b).

End Log.
