(* ===== verification/LogSpec.v ===== *)
(** * Transactions and crashes ([log.c])

    What the log does to the disk, write by write, and what recovery makes of the
    disk a crash leaves: all of a transaction's blocks or none. *)
From S2P Require Import Prelude Bio BufCache Log.

(** ** The header in its block *)

Lemma length_put_bytes d o l : length (put_bytes d o l) = length d.
Proof. revert d o. induction l as [|x l IH]; intros; cbn [put_bytes]; [done|]. by rewrite IH, length_insert. Qed.

Lemma length_put32 d o v : length (put32 d o v) = length d.
Proof. apply length_put_bytes. Qed.

Lemma nth_insert (d : block) o x i : (o < length d)%nat ->
  nth i (<[o := x]> d) 0 = if bool_decide (i = o) then x else nth i d 0.
Proof.
  intros Ho. rewrite !nth_lookup. case_bool_decide as E.
  - subst. by rewrite list_lookup_insert_eq.
  - by rewrite list_lookup_insert_ne.
Qed.

Lemma nth_put_bytes d o l i : (o + length l <= length d)%nat ->
  nth i (put_bytes d o l) 0 =
  if bool_decide (o <= i < o + length l)%nat then nth (i - o) l 0 else nth i d 0.
Proof.
  revert d o. induction l as [|x l IH]; intros d o Ho; cbn [length put_bytes] in *.
  { rewrite bool_decide_false by lia. done. }
  rewrite IH by (rewrite length_insert; lia). rewrite nth_insert by lia.
  repeat case_bool_decide; try lia; subst; rewrite ?Nat.sub_diag; try done.
  replace (i - o)%nat with (S (i - S o)) by lia. done.
Qed.

Lemma get32_put32 d o v : (o + 4 <= length d)%nat -> get32 (put32 d o v) o = u32 v.
Proof.
  intros Ho. unfold get32, put32. rewrite !nth_put_bytes by (cbn; lia).
  rewrite !bool_decide_true by (cbn; lia).
  rewrite Nat.sub_diag. replace (o + 1 - o)%nat with 1%nat by lia.
  replace (o + 2 - o)%nat with 2%nat by lia. replace (o + 3 - o)%nat with 3%nat by lia.
  apply de32_le32.
Qed.

Lemma get32_other d o o' v : (o + 4 <= length d)%nat -> (o' + 4 <= o \/ o + 4 <= o')%nat ->
  get32 (put32 d o v) o' = get32 d o'.
Proof.
  intros Ho Hd. unfold get32, put32. rewrite !nth_put_bytes by (cbn; lia).
  rewrite !bool_decide_false by (cbn; lia). done.
Qed.

Lemma length_store_blocks bl js h : length (store_blocks bl js h) = length h.
Proof.
  unfold store_blocks. revert h. induction js; intros h; cbn [foldl]; [done|].
  by rewrite IHjs, length_put32.
Qed.

Lemma get32_store_blocks bl js h i : length h = BSIZE -> (forall j, j ∈ js -> (j < 30)%nat) ->
  (i < 30)%nat -> get32 (store_blocks bl js h) (hdr_block i) =
  if bool_decide (i ∈ js) then u32 (nth i bl 0) else get32 h (hdr_block i).
Proof.
  unfold store_blocks. revert h. induction js as [|j js IH] using rev_ind; intros h Hh Hjs Hi.
  { rewrite bool_decide_false by set_solver. done. }
  rewrite foldl_app. cbn [foldl].
  assert (Hj : (j < 30)%nat) by (apply Hjs; set_solver).
  assert (Hlen : length (foldl (fun h i => put32 h (hdr_block i) (nth i bl 0)) h js) = BSIZE)
    by (fold (store_blocks bl js h); by rewrite length_store_blocks).
  unfold BSIZE in Hlen. destruct (decide (i = j)) as [->|Hij].
  - rewrite bool_decide_true by set_solver. apply get32_put32. rewrite Hlen. unfold hdr_block. lia.
  - rewrite get32_other by (rewrite ?Hlen; unfold hdr_block in *; lia). rewrite IH by (try done; set_solver).
    repeat case_bool_decide; set_solver.
Qed.

Lemma get32_store_blocks_0 bl js h : length h = BSIZE -> (forall j, j ∈ js -> (j < 30)%nat) ->
  get32 (store_blocks bl js h) 0 = get32 h 0.
Proof.
  unfold store_blocks. revert h. induction js as [|j js IH] using rev_ind; intros h Hh Hjs; [done|].
  rewrite foldl_app. cbn [foldl]. assert (Hj : (j < 30)%nat) by (apply Hjs; set_solver).
  assert (Hlen : length (foldl (fun h i => put32 h (hdr_block i) (nth i bl 0)) h js) = BSIZE)
    by (fold (store_blocks bl js h); by rewrite length_store_blocks).
  unfold BSIZE in Hlen. rewrite get32_other by (rewrite ?Hlen; unfold hdr_block in *; lia). apply IH; set_solver.
Qed.

(** The number of blocks a header says and the blocks it names. *)
Definition head_n (h : block) : Z := s32 (get32 h 0).
Definition head_block (h : block) (i : nat) : Z := s32 (get32 h (hdr_block i)).

Lemma length_store_head n bl h : length (store_head n bl h) = length h.
Proof. unfold store_head. by rewrite length_store_blocks, length_put32. Qed.

Lemma s32_u32 x : - 2 ^ 31 <= x < 2 ^ 31 -> s32 (u32 x) = x.
Proof. intros H. unfold s32, u32. Z.to_euclidean_division_equations. lia. Qed.

Lemma store_head_n n bl h : length h = BSIZE -> 0 <= n <= 30 -> head_n (store_head n bl h) = n.
Proof.
  intros Hh Hn. unfold head_n, store_head. rewrite get32_store_blocks_0.
  - rewrite get32_put32 by (rewrite Hh; unfold BSIZE; lia). apply s32_u32. lia.
  - by rewrite length_put32.
  - intros j Hj%elem_of_indices. lia.
Qed.

Lemma store_head_block n bl h i : length h = BSIZE -> 0 <= n <= 30 -> Z.of_nat i < n ->
  - 2 ^ 31 <= nth i bl 0 < 2 ^ 31 -> head_block (store_head n bl h) i = nth i bl 0.
Proof.
  intros Hh Hn Hi Hr. unfold head_block, store_head. rewrite get32_store_blocks.
  - rewrite bool_decide_true by (apply elem_of_indices; lia). by apply s32_u32.
  - by rewrite length_put32.
  - intros j Hj%elem_of_indices. lia.
  - lia.
Qed.

(** ** Writes *)

Definition apply_writes (ws : list (Z * block)) (d : Z -> block) : Z -> block :=
  foldl (fun d w => write_disk w.1 w.2 d) d ws.

Lemma write_disk_eq b v d : write_disk b v d b = v.
Proof. unfold write_disk. by rewrite Z.eqb_refl. Qed.

Lemma write_disk_ne b v d x : x <> b -> write_disk b v d x = d x.
Proof. intros H. unfold write_disk. by rewrite (proj2 (Z.eqb_neq _ _) H). Qed.

Lemma apply_app ws ws' d : apply_writes (ws ++ ws') d = apply_writes ws' (apply_writes ws d).
Proof. apply foldl_app. Qed.

Lemma apply_cons w ws d : apply_writes (w :: ws) d = apply_writes ws (write_disk w.1 w.2 d).
Proof. done. Qed.

Lemma apply_other ws d b : b ∉ ws.*1 -> apply_writes ws d b = d b.
Proof.
  revert d. induction ws as [|[x v] ws IH]; intros d Hb; [done|]. rewrite fmap_cons in Hb.
  rewrite apply_cons, IH by set_solver. unfold write_disk. cbn.
  rewrite (proj2 (Z.eqb_neq _ _)); [done|]. set_solver.
Qed.

Lemma apply_in ws d b v : NoDup ws.*1 -> (b, v) ∈ ws -> apply_writes ws d b = v.
Proof.
  revert d. induction ws as [|[x w] ws IH]; intros d HN Hin; [set_solver|].
  cbn in HN. apply NoDup_cons in HN as [Hx HN].
  apply elem_of_cons in Hin as [[= -> ->]|Hin]; [|by apply IH].
  rewrite apply_cons, apply_other by done. unfold write_disk. cbn. by rewrite Z.eqb_refl.
Qed.

(** ** The loops, block by block *)

Section Runs.
Context {C : Type} {BO : BufOps C} {disksize : Z} {BC : BufferCache C disksize}.
Implicit Types (s : lst C) (a : cspec).

Lemma inc_ret {A} (m : M C A) l c x c' : m c = Ret x c' -> inc m (mklst l c) = Ret x (mklst l c').
Proof. intros H. unfold inc, zoom. cbn. by rewrite H. Qed.

(** No buffer is locked. *)
Definition idle a : Prop := cs_held a = ∅.

Lemma cur_read n b a m : cur (read_spec n b a) m = cur a m.
Proof.
  unfold cur. cbn. destruct (decide (m = n)) as [->|Hne].
  - by rewrite lookup_insert_eq.
  - by rewrite lookup_insert_ne.
Qed.

Lemma cur_set n d a : cur (set_spec n d a) n = d.
Proof. unfold cur. cbn. by rewrite lookup_insert_eq. Qed.

Lemma cur_out c a n : repr c a -> idle a -> n ∉ cs_pin a -> cs_mem a !! n = None.
Proof.
  intros HR Hi Hp. destruct (cs_mem a !! n) eqn:E; [|done].
  assert (Hm : is_Some (cs_mem a !! n)) by eauto.
  apply (repr_mem c a n HR) in Hm as [[b Hb]|?]; [|done]. by rewrite Hi in Hb.
Qed.

Lemma pin_in c a n : repr c a -> n ∈ cs_pin a -> cs_mem a !! n = Some (cur a n).
Proof.
  intros HR Hp. assert (Hm : is_Some (cs_mem a !! n)) by (apply (repr_mem c a n HR); auto).
  destruct Hm as [v Hv]. unfold cur. by rewrite Hv.
Qed.

(** Two blocks were locked and released. *)
Lemma two_released {V} (m : gmap Z V) (i j : Z) x y : i <> j -> m = ∅ ->
  delete i (delete j (<[j := y]> (<[i := x]> m))) = ∅.
Proof.
  intros Hij ->. apply map_eq. intros k. rewrite lookup_empty.
  destruct (decide (k = i)) as [->|Hi]; [by rewrite lookup_delete_eq|].
  rewrite lookup_delete_ne by done.
  destruct (decide (k = j)) as [->|Hj]; [by rewrite lookup_delete_eq|].
  by rewrite lookup_delete_ne, !lookup_insert_ne by done.
Qed.

Ltac lstep E := rewrite (bind_ret _ _ _ _ _ (inc_ret _ _ _ _ _ E)).

(** [write_log]'s round: home block [b] is copied to log block [t]. *)
Lemma log_block_run l c a tail b t : repr c a -> idle a -> ldev l = 1 ->
  lh_block l !! tail = Some b -> t = start l + Z.of_nat tail + 1 ->
  0 <= t < disksize -> 0 <= b < disksize -> b ∈ cs_pin a -> t ∉ cs_pin a ->
  (size (cs_mem a) < NBUF)%nat ->
  exists c', log_block tail (mklst l c) = Ret tt (mklst l c') /\
    repr c' (mkcspec (write_disk t (cur a b) (cs_disk a)) (cs_hist a ++ [(t, cur a b)])
               (cs_mem a) ∅ (cs_pin a)).
Proof.
  intros HR Hi Hdev Hb -> Ht Hbr Hbp Htp Hsz. set (t := start l + Z.of_nat tail + 1) in *.
  assert (Htb : t <> b) by (intros E; rewrite E in Htp; done).
  pose proof (pin_in _ _ _ HR Hbp) as Hbm. pose proof (cur_out _ _ _ HR Hi Htp) as Htm.
  destruct (read_ok c a t HR Ht) as (bt & c1 & E1 & R1); [by rewrite Hi|by right|].
  destruct (read_ok c1 _ b R1 Hbr) as (bf & c2 & E2 & R2).
  { cbn. rewrite lookup_insert_ne by done. by rewrite Hi. }
  { left. cbn. rewrite lookup_insert_ne by done. eauto. }
  destruct (data_ok c2 _ b bf R2) as [E3 _]; [cbn; by rewrite lookup_insert_eq|].
  rewrite !cur_read in E3. pose proof (repr_len c a b HR) as Hlen.
  destruct (set_ok c2 _ t bt (cur a b) R2) as (c3 & E4 & R3);
    [cbn; rewrite lookup_insert_ne, lookup_insert_eq by done; done|done|].
  destruct (write_ok c3 _ t bt R3 Ht) as (c4 & E5 & R4);
    [cbn; rewrite lookup_insert_ne, lookup_insert_eq by done; done|].
  destruct (relse_ok c4 _ b bf R4) as (c5 & E6 & R5);
    [cbn; by rewrite lookup_insert_eq|left; cbn; set_solver|].
  destruct (relse_ok c5 _ t bt R5) as (c6 & E7 & R6).
  { cbn. rewrite lookup_delete_ne, lookup_insert_ne, lookup_insert_eq by done. done. }
  { right. unfold cur at 1. cbn [cs_mem cs_disk cs_pin relse_spec write_spec set_spec read_spec].
    rewrite bool_decide_true by set_solver. rewrite lookup_insert_eq, write_disk_eq.
    by rewrite cur_set. }
  exists c6. split.
  - unfold log_block, lget. rewrite (bind_ret (gets _) _ _ _ _ eq_refl). cbn [lg id].
    rewrite Hdev. fold t. lstep E1. rewrite Hb. cbn [deref].
    rewrite (bind_ret (ret b) _ _ _ _ eq_refl). lstep E2. lstep E3. lstep E4. lstep E5. lstep E6. apply (inc_ret _ _ _ _ _ E7).
  - eapply eq_ind; [exact R6|].
    unfold relse_spec, write_spec. rewrite cur_set. cbn.
    rewrite (bool_decide_true (b ∈ _)) by set_solver. rewrite bool_decide_false by set_solver.
    f_equal.
    + rewrite delete_insert_eq. rewrite delete_insert_ne by done.
      rewrite delete_insert_eq, (delete_id _ t) by done.
      rewrite cur_read. by rewrite insert_id.
    + apply two_released; [done|]. by rewrite Hi.
    + set_solver.
Qed.

(** [install_trans]'s round: log block [t] is copied to home block [b], which is
    no longer pinned then. *)
Lemma install_block_run l c a tail b t : repr c a -> idle a -> ldev l = 1 ->
  lh_block l !! tail = Some b -> t = start l + Z.of_nat tail + 1 -> t <> b ->
  0 <= t < disksize -> 0 <= b < disksize -> t ∉ cs_pin a ->
  (size (cs_mem a) < NBUF)%nat -> b ∈ cs_pin a \/ (size (cs_mem a) + 1 < NBUF)%nat ->
  exists c', install_block tail (mklst l c) = Ret tt (mklst l c') /\
    repr c' (mkcspec (write_disk b (cs_disk a t) (cs_disk a)) (cs_hist a ++ [(b, cs_disk a t)])
               (delete b (cs_mem a)) ∅ (cs_pin a ∖ {[b]})).
Proof.
  intros HR Hi Hdev Hb -> Htb Ht Hbr Htp Hsz Hroom. set (t := start l + Z.of_nat tail + 1) in *.
  pose proof (cur_out _ _ _ HR Hi Htp) as Htm.
  assert (Hct : cur a t = cs_disk a t) by (unfold cur; by rewrite Htm).
  destruct (read_ok c a t HR Ht) as (bt & c1 & E1 & R1); [by rewrite Hi|by right|].
  destruct (read_ok c1 _ b R1 Hbr) as (bd & c2 & E2 & R2).
  { cbn. rewrite lookup_insert_ne by done. by rewrite Hi. }
  { destruct Hroom as [Hp|Hs].
    - left. cbn. rewrite lookup_insert_ne by done. rewrite (pin_in _ _ _ HR Hp). eauto.
    - right. cbn. rewrite map_size_insert_None by done. lia. }
  destruct (data_ok c2 _ t bt R2) as [E3 _];
    [cbn; rewrite lookup_insert_ne, lookup_insert_eq by done; done|].
  rewrite !cur_read, Hct in E3. pose proof (repr_len c a t HR) as Hlen. rewrite Hct in Hlen.
  destruct (set_ok c2 _ b bd (cs_disk a t) R2) as (c3 & E4 & R3);
    [cbn; by rewrite lookup_insert_eq|done|].
  destruct (write_ok c3 _ b bd R3 Hbr) as (c4 & E5 & R4); [cbn; by rewrite lookup_insert_eq|].
  destruct (relse_ok c4 _ t bt R4) as (c5 & E6 & R5).
  { cbn. rewrite lookup_insert_ne, lookup_insert_eq by done. done. }
  { right. unfold cur at 1. cbn [cs_mem cs_disk write_spec set_spec read_spec].
    rewrite !lookup_insert_ne, lookup_insert_eq, write_disk_ne by done. done. }
  destruct (relse_ok c5 _ b bd R5) as (c6 & E7 & R6).
  { cbn. rewrite lookup_delete_ne, lookup_insert_eq by done. done. }
  { right. unfold cur at 1. cbn [cs_mem cs_disk cs_pin relse_spec write_spec set_spec read_spec].
    rewrite bool_decide_false by set_solver. rewrite lookup_delete_ne, lookup_insert_eq by done.
    by rewrite write_disk_eq, cur_set. }
  exists c6. split.
  - unfold install_block, lget. rewrite (bind_ret (gets _) _ _ _ _ eq_refl). cbn [lg id].
    rewrite Hdev. fold t. lstep E1. rewrite Hb. cbn [deref].
    rewrite (bind_ret (ret b) _ _ _ _ eq_refl). lstep E2. lstep E3. lstep E4. lstep E5. lstep E6.
    apply (inc_ret _ _ _ _ _ E7).
  - eapply eq_ind; [exact R6|]. unfold relse_spec, write_spec. rewrite cur_set. cbn.
    rewrite (bool_decide_false (t ∈ _)) by set_solver. rewrite bool_decide_false by set_solver.
    f_equal.
    + rewrite (delete_insert_ne _ t b) by done. rewrite delete_insert_eq.
      rewrite (delete_insert_ne _ t b) by done. rewrite delete_insert_eq.
      by rewrite delete_insert_eq, (delete_id _ t) by done.
    + rewrite (delete_insert_ne _ t b) by done. rewrite !delete_insert_eq. rewrite Hi.
      by rewrite !delete_id by done.
Qed.

Lemma write_head_run l c a : repr c a -> idle a -> ldev l = 1 -> 0 <= start l < disksize ->
  start l ∉ cs_pin a -> (size (cs_mem a) < NBUF)%nat ->
  let h := store_head (lh_n l) (lh_block l) (cs_disk a (start l)) in
  exists c', write_head (mklst l c) = Ret tt (mklst l c') /\
    repr c' (mkcspec (write_disk (start l) h (cs_disk a)) (cs_hist a ++ [(start l, h)])
               (cs_mem a) ∅ (cs_pin a)).
Proof.
  intros HR Hi Hdev Hs Hp Hsz h. pose proof (cur_out _ _ _ HR Hi Hp) as Hm.
  assert (Hc : cur a (start l) = cs_disk a (start l)) by (unfold cur; by rewrite Hm).
  destruct (read_ok c a (start l) HR Hs) as (b & c1 & E1 & R1); [by rewrite Hi|by right|].
  destruct (data_ok c1 _ (start l) b R1) as [E2 _]; [cbn; by rewrite lookup_insert_eq|].
  rewrite cur_read, Hc in E2. pose proof (repr_len c a (start l) HR) as Hlen. rewrite Hc in Hlen.
  destruct (set_ok c1 _ (start l) b h R1) as (c2 & E3 & R2);
    [cbn; by rewrite lookup_insert_eq|unfold h; by rewrite length_store_head|].
  destruct (write_ok c2 _ (start l) b R2 Hs) as (c3 & E4 & R3); [cbn; by rewrite lookup_insert_eq|].
  destruct (relse_ok c3 _ (start l) b R3) as (c4 & E5 & R4).
  { cbn. by rewrite lookup_insert_eq. }
  { right. unfold cur at 1. cbn [cs_mem cs_disk write_spec set_spec].
    by rewrite lookup_insert_eq, write_disk_eq, cur_set. }
  exists c4. split.
  - unfold write_head, lget. rewrite (bind_ret (gets _) _ _ _ _ eq_refl). cbn [lg id].
    rewrite Hdev. lstep E1. lstep E2. fold h. lstep E3. lstep E4. apply (inc_ret _ _ _ _ _ E5).
  - eapply eq_ind; [exact R4|]. unfold relse_spec, write_spec. rewrite cur_set. cbn.
    rewrite bool_decide_false by set_solver. f_equal.
    + rewrite !delete_insert_eq. by rewrite delete_id by done.
    + rewrite Hi, delete_insert_eq. by rewrite delete_id by done.
    + set_solver.
Qed.

(** ** The loops *)

(** The writes of [write_log] for the blocks [bs] from slot [k] on, and those of
    [install_trans] over a disk [d]. *)
Fixpoint log_writes (st : Z) (k : nat) (bs : list Z) (f : Z -> block) : list (Z * block) :=
  match bs with
  | [] => []
  | b :: bs => (st + Z.of_nat k + 1, f b) :: log_writes st (S k) bs f
  end.

Fixpoint home_writes (st : Z) (k : nat) (bs : list Z) (d : Z -> block) : list (Z * block) :=
  match bs with
  | [] => []
  | b :: bs => (b, d (st + Z.of_nat k + 1)) :: home_writes st (S k) bs d
  end.

Lemma log_writes_ext st k bs f g : (forall b, b ∈ bs -> f b = g b) ->
  log_writes st k bs f = log_writes st k bs g.
Proof.
  revert k. induction bs as [|b bs IH]; intros k H; cbn; [done|].
  rewrite (H b) by set_solver. f_equal. apply IH. set_solver.
Qed.

Lemma home_writes_ext st k bs d e :
  (forall i, (i < length bs)%nat -> d (st + Z.of_nat (k + i) + 1) = e (st + Z.of_nat (k + i) + 1)) ->
  home_writes st k bs d = home_writes st k bs e.
Proof.
  revert k. induction bs as [|b bs IH]; intros k H; cbn; [done|]. f_equal.
  - f_equal. specialize (H 0%nat). rewrite Nat.add_0_r in H. apply H. cbn. lia.
  - apply IH. intros i Hi. specialize (H (S i)). rewrite Nat.add_succ_r in H. apply H. cbn. lia.
Qed.

(** The home blocks [bs] of a transaction whose slots start at [k]. *)
Definition slots_ok (l : logst) (k : nat) (bs : list Z) : Prop :=
  (forall i b, bs !! i = Some b -> lh_block l !! (k + i)%nat = Some b) /\
  (forall i, (i < length bs)%nat -> 0 <= start l + Z.of_nat (k + i) + 1 < disksize) /\
  (forall b, b ∈ bs -> 0 <= b < disksize).

Lemma slots_cons l k b bs : slots_ok l k (b :: bs) ->
  lh_block l !! k = Some b /\ 0 <= start l + Z.of_nat k + 1 < disksize /\
  0 <= b < disksize /\ slots_ok l (S k) bs.
Proof.
  intros (H1 & H2 & H3). split_and!.
  - rewrite <- (Nat.add_0_r k). by apply H1.
  - specialize (H2 0%nat). rewrite Nat.add_0_r in H2. apply H2. cbn. lia.
  - specialize (H2 0%nat). rewrite Nat.add_0_r in H2. apply H2. cbn. lia.
  - apply H3. set_solver.
  - apply H3. set_solver.
  - split_and!.
    + intros i x Hi. specialize (H1 (S i) x Hi). by rewrite Nat.add_succ_r in H1.
    + intros i Hi. specialize (H2 (S i)). rewrite Nat.add_succ_r in H2. apply H2. cbn. lia.
    + set_solver.
Qed.

Lemma write_log_loop l bs : forall k c a, repr c a -> idle a -> ldev l = 1 -> slots_ok l k bs ->
  (forall b, b ∈ bs -> b ∈ cs_pin a) ->
  (forall i, (i < length bs)%nat -> start l + Z.of_nat (k + i) + 1 ∉ cs_pin a) ->
  (size (cs_mem a) < NBUF)%nat ->
  let ws := log_writes (start l) k bs (cur a) in
  exists c', for_each (seq k (length bs)) log_block (mklst l c) = Ret tt (mklst l c') /\
    repr c' (mkcspec (apply_writes ws (cs_disk a)) (cs_hist a ++ ws) (cs_mem a) ∅ (cs_pin a)).
Proof.
  induction bs as [|b bs IH]; intros k c a HR Hi Hdev HS Hpin Hlog Hsz ws; cbn [length seq for_each].
  { exists c. split; [done|]. subst ws. cbn. rewrite app_nil_r. destruct a; unfold idle in Hi; cbn in *.
    by subst. }
  apply slots_cons in HS as (Hb & Ht & Hbr & HS).
  destruct (log_block_run l c a k b _ HR Hi Hdev Hb eq_refl Ht Hbr) as (c1 & E1 & R1).
  { apply Hpin. set_solver. }
  { specialize (Hlog 0%nat). rewrite Nat.add_0_r in Hlog. apply Hlog. cbn. lia. }
  { done. }
  destruct (IH (S k) c1 _ R1) as (c2 & E2 & R2); [done|done|done|set_solver| |done|].
  { intros i Hi'. specialize (Hlog (S i)). rewrite Nat.add_succ_r in Hlog. apply Hlog. cbn. lia. }
  exists c2. rewrite (bind_ret _ _ _ _ _ E1). split; [done|]. cbn in R2.
  erewrite (log_writes_ext _ _ _ _ (cur a)) in R2.
  - subst ws. cbn [log_writes]. rewrite apply_cons. by rewrite <- app_assoc in R2.
  - intros x Hx. unfold cur. cbn. rewrite (pin_in _ _ _ HR (Hpin x ltac:(set_solver))). done.
Qed.

Definition del_all (bs : list Z) (m : gmap Z block) : gmap Z block :=
  foldl (fun m b => delete b m) m bs.

Lemma install_loop l bs : forall k c a, repr c a -> idle a -> ldev l = 1 -> slots_ok l k bs ->
  NoDup bs -> (forall i b, (i < length bs)%nat -> b ∈ bs -> start l + Z.of_nat (k + i) + 1 <> b) ->
  (forall i, (i < length bs)%nat -> start l + Z.of_nat (k + i) + 1 ∉ cs_pin a) ->
  (size (cs_mem a) < NBUF)%nat ->
  (forall b, b ∈ bs -> b ∈ cs_pin a) \/ (size (cs_mem a) + 1 < NBUF)%nat ->
  let ws := home_writes (start l) k bs (cs_disk a) in
  exists c', for_each (seq k (length bs)) install_block (mklst l c) = Ret tt (mklst l c') /\
    repr c' (mkcspec (apply_writes ws (cs_disk a)) (cs_hist a ++ ws) (del_all bs (cs_mem a)) ∅
               (cs_pin a ∖ list_to_set bs)).
Proof.
  induction bs as [|b bs IH]; intros k c a HR Hi Hdev HS HN Hdis Hlog Hsz Hroom ws;
    cbn [length seq for_each].
  { exists c. split; [done|]. subst ws. cbn. rewrite app_nil_r. destruct a; unfold idle in Hi; cbn in *.
    subst. by rewrite difference_empty_L. }
  apply slots_cons in HS as (Hb & Ht & Hbr & HS). apply NoDup_cons in HN as [Hnb HN].
  assert (Htb : start l + Z.of_nat k + 1 <> b).
  { specialize (Hdis 0%nat b). rewrite Nat.add_0_r in Hdis. apply Hdis; [cbn; lia|set_solver]. }
  destruct (install_block_run l c a k b _ HR Hi Hdev Hb eq_refl Htb Ht Hbr) as (c1 & E1 & R1).
  { specialize (Hlog 0%nat). rewrite Nat.add_0_r in Hlog. apply Hlog. cbn. lia. }
  { done. }
  { destruct Hroom as [Hp|?]; [left; apply Hp; set_solver|by right]. }
  assert (Hle : (size (delete b (cs_mem a)) <= size (cs_mem a))%nat) by (rewrite map_size_delete; destruct (cs_mem a !! b); cbn; lia).
  destruct (IH (S k) c1 _ R1) as (c2 & E2 & R2); [done|done|done|done| | |cbn; lia| |].
  { intros i x Hi' Hx. specialize (Hdis (S i) x). rewrite Nat.add_succ_r in Hdis.
    apply Hdis; [cbn; lia|set_solver]. }
  { intros i Hi'. specialize (Hlog (S i)). rewrite Nat.add_succ_r in Hlog.
    cbn in Hlog |- *. specialize (Hlog ltac:(lia)). set_solver. }
  { cbn. destruct Hroom as [Hp|?]; [left|right; lia]. set_solver. }
  exists c2. rewrite (bind_ret _ _ _ _ _ E1). split; [done|]. cbn in R2.
  rewrite (home_writes_ext _ _ _ _ (cs_disk a)) in R2.
  - subst ws. cbn [home_writes]. rewrite apply_cons. rewrite <- app_assoc in R2.
    eapply eq_ind; [exact R2|]. f_equal. cbn. set_solver.
  - intros i Hi'. apply write_disk_ne. specialize (Hdis (S i) b). rewrite Nat.add_succ_r in Hdis.
    apply Hdis; [cbn; lia|set_solver].
Qed.

(** ** Where the writes go *)

Lemma log_writes_dom st k bs f x : x ∈ (log_writes st k bs f).*1 ->
  exists i, (i < length bs)%nat /\ x = st + Z.of_nat (k + i) + 1.
Proof.
  revert k. induction bs as [|b bs IH]; intros k; cbn [log_writes]; [set_solver|].
  rewrite fmap_cons. intros [->|Hx]%elem_of_cons.
  - exists 0%nat. cbn. split; [lia|f_equal; lia].
  - destruct (IH _ Hx) as (i & Hi & ->). exists (S i). cbn. split; [lia|f_equal; lia].
Qed.

Lemma log_writes_at st k bs f d i b : bs !! i = Some b ->
  apply_writes (log_writes st k bs f) d (st + Z.of_nat (k + i) + 1) = f b.
Proof.
  revert k d i. induction bs as [|x bs IH]; intros k d i Hi; [done|]. cbn [log_writes].
  rewrite apply_cons. destruct i as [|i]; cbn in Hi.
  - injection Hi as ->. rewrite apply_other.
    + cbn. rewrite Nat.add_0_r. apply write_disk_eq.
    + intros (j & Hj & E)%log_writes_dom. lia.
  - rewrite <- (IH (S k) (write_disk (st + Z.of_nat k + 1) (f x) d) i Hi). f_equal. f_equal. lia.
Qed.

Lemma home_writes_of st k bs d f :
  (forall i b, bs !! i = Some b -> d (st + Z.of_nat (k + i) + 1) = f b) ->
  home_writes st k bs d = (fun b => (b, f b)) <$> bs.
Proof.
  revert k. induction bs as [|b bs IH]; intros k H; [done|]. cbn [home_writes]. rewrite fmap_cons.
  f_equal.
  - f_equal. rewrite <- (H 0%nat b eq_refl). f_equal. lia.
  - apply IH. intros i x Hi. rewrite <- (H (S i) x Hi). f_equal. lia.
Qed.

Lemma fst_pairs (f : Z -> block) bs : ((fun b => (b, f b)) <$> bs).*1 = bs.
Proof. induction bs as [|b bs IH]; [done|]. cbn. by f_equal. Qed.

Lemma fst_home st k bs d : (home_writes st k bs d).*1 = bs.
Proof. revert k. induction bs as [|b bs IH]; intros k; [done|]. cbn. f_equal. apply IH. Qed.

Lemma del_all_lookup bs m n : del_all bs m !! n = if bool_decide (n ∈ bs) then None else m !! n.
Proof.
  unfold del_all. revert m. induction bs as [|b bs IH]; intros m; cbn; [done|]. rewrite IH.
  destruct (decide (n = b)) as [->|Hne].
  - rewrite lookup_delete_eq, (bool_decide_true (b ∈ b :: bs)) by set_solver. by case_bool_decide.
  - rewrite lookup_delete_ne by done. repeat case_bool_decide; set_solver.
Qed.

(** ** A transaction *)

(** The log of device 1 lies in [start, start + lsize), its header first. *)
Record area (l : logst) : Prop := {
  ar_dev : ldev l = 1;
  ar_start : 0 <= start l;
  ar_size : 1 <= lsize l <= LOGSIZE;
  ar_end : start l + lsize l <= disksize;
  ar_disk : disksize <= 2 ^ 31;
  ar_blocks : length (lh_block l) = 30%nat;
}.

Definition in_log (l : logst) (b : Z) : Prop := start l <= b < start l + lsize l.

(** [bs] can be the home blocks of one transaction. *)
Record homes (l : logst) (bs : list Z) : Prop := {
  ho_nodup : NoDup bs;
  ho_len : Z.of_nat (length bs) <= lsize l - 1;
  ho_range b : b ∈ bs -> 0 <= b < disksize /\ ~ in_log l b;
}.

(** The header in memory names [bs]. *)
Definition names (l : logst) (bs : list Z) : Prop :=
  lh_n l = Z.of_nat (length bs) /\ forall i b, bs !! i = Some b -> lh_block l !! i = Some b.

Lemma homes_slots l bs : area l -> homes l bs -> names l bs -> slots_ok l 0 bs.
Proof.
  intros [] [] [_ Hn]. split_and!; [done| |].
  - intros i Hi. cbn. lia.
  - intros b Hb. by apply ho_range0.
Qed.

Lemma slot_in_log l bs i : area l -> homes l bs -> (i < length bs)%nat ->
  in_log l (start l + Z.of_nat (0 + i) + 1).
Proof. intros [] [] Hi. unfold in_log. cbn. lia. Qed.

(** The blocks in memory are those of the transaction. *)
Lemma pinned_size c a bs : repr c a -> idle a -> cs_pin a = list_to_set bs -> NoDup bs ->
  size (cs_mem a) = length bs.
Proof.
  intros HR Hi Hp HN. rewrite <- size_dom. rewrite <- (size_list_to_set (C := gset Z) bs) by done.
  f_equal. apply set_eq. intros n. rewrite elem_of_dom, (repr_mem c a n HR), Hi, lookup_empty, Hp.
  split; [intros [[? ?]|?]; done|by right].
Qed.

(** The writes [commit] makes, in order. *)
Definition commit_writes (l : logst) (a : cspec) (bs : list Z) : list (Z * block) :=
  let h1 := store_head (lh_n l) (lh_block l) (cs_disk a (start l)) in
  log_writes (start l) 0 bs (cur a) ++ [(start l, h1)] ++
  ((fun b => (b, cur a b)) <$> bs) ++ [(start l, store_head 0 (lh_block l) h1)].

Lemma log_writes_off l bs f d x : area l -> homes l bs -> ~ (start l < x < start l + lsize l) ->
  apply_writes (log_writes (start l) 0 bs f) d x = d x.
Proof.
  intros [] [] Hx. apply apply_other. intros (i & Hi & ->)%log_writes_dom. cbn in Hx. lia.
Qed.

Lemma del_all_pinned c a bs : repr c a -> idle a -> cs_pin a = list_to_set bs ->
  del_all bs (cs_mem a) = ∅.
Proof.
  intros HR Hi Hp. apply map_eq. intros n. rewrite del_all_lookup, lookup_empty.
  case_bool_decide as Hn; [done|]. apply (cur_out c); auto. rewrite Hp. set_solver.
Qed.

Lemma commit_run l c a bs : repr c a -> idle a -> area l -> homes l bs -> names l bs ->
  cs_pin a = list_to_set bs -> bs <> [] ->
  let ws := commit_writes l a bs in
  exists c', commit (mklst l c) = Ret tt (mklst (set_lh 0 (lh_block l) l) c') /\
    repr c' (mkcspec (apply_writes ws (cs_disk a)) (cs_hist a ++ ws) ∅ ∅ ∅).
Proof.
  intros HR Hi HA HH HN Hp Hne ws. pose proof (homes_slots _ _ HA HH HN) as HS.
  assert (Hsz : size (cs_mem a) = length bs) by (eapply pinned_size; eauto; apply HH).
  assert (Hlt : (length bs < NBUF)%nat).
  { destruct HA as [_ _ [_ Hs] _ _ _], HH as [_ Hl _]. unfold LOGSIZE, NBUF in *. lia. }
  assert (Hslot : forall i, (i < length bs)%nat -> start l + Z.of_nat (0 + i) + 1 ∉ cs_pin a).
  { intros i Hil. rewrite Hp, elem_of_list_to_set. intros [_ Hb]%(ho_range _ _ HH).
    apply Hb. by eapply slot_in_log. }
  assert (Hst : start l ∉ cs_pin a).
  { rewrite Hp, elem_of_list_to_set. intros [_ Hb]%(ho_range _ _ HH). apply Hb.
    destruct HA. unfold in_log. lia. }
  assert (Hstr : 0 <= start l < disksize) by (destruct HA; lia).
  destruct (write_log_loop l bs 0 c a HR Hi (ar_dev _ HA) HS) as (c1 & E1 & R1); auto.
  { intros b Hb. rewrite Hp. set_solver. } { lia. }
  destruct (write_head_run l c1 _ R1) as (c2 & E2 & R2); [done|by apply HA|done|done|cbn; lia|].
  cbn [cs_disk cs_hist cs_mem cs_pin] in R2. rewrite log_writes_off in R2; [|done..|lia].
  set (h1 := store_head (lh_n l) (lh_block l) (cs_disk a (start l))) in *.
  destruct (install_loop l bs 0 c2 _ R2) as (c3 & E3 & R3);
    [done|by apply HA|done|apply HH| |done|cbn; lia| |].
  { intros i b Hil [_ Hb]%(ho_range _ _ HH) <-. apply Hb. by eapply slot_in_log. }
  { left. cbn. rewrite Hp. set_solver. }
  cbn [cs_disk cs_hist cs_mem cs_pin] in R3.
  rewrite (home_writes_of _ _ _ _ (cur a)) in R3.
  2:{ intros i b Hb. rewrite write_disk_ne by lia. by apply log_writes_at. }
  rewrite (del_all_pinned c a bs HR Hi Hp) in R3.
  destruct (write_head_run (set_lh 0 (lh_block l) l) c3 _ R3) as (c4 & E4 & R4);
    [done|by apply HA|done|cbn; set_solver|cbn [cs_mem]; rewrite map_size_empty; unfold NBUF; lia|].
  cbn [cs_disk cs_hist cs_mem cs_pin start lh_n lh_block set_lh] in R4.
  rewrite apply_other in R4.
  2:{ rewrite fst_pairs. intros [_ Hb]%(ho_range _ _ HH). apply Hb. destruct HA. unfold in_log. lia. }
  rewrite write_disk_eq in R4. exists c4. destruct HN as [Hn _]. split.
  - unfold commit, write_log, install_trans, lget, lmod.
    rewrite (bind_ret (gets _) _ _ _ _ eq_refl). cbn [lg]. rewrite Hn.
    assert (Hpos : (0 <? Z.of_nat (length bs)) = true) by (b2p; destruct bs; [done|cbn; lia]).
    rewrite Hpos, bind_assoc, (bind_ret (gets _) _ _ _ _ eq_refl). cbn [lg]. rewrite Hn, Nat2Z.id.
    rewrite (bind_ret _ _ _ _ _ E1), (bind_ret _ _ _ _ _ E2).
    rewrite bind_assoc, (bind_ret (gets _) _ _ _ _ eq_refl). cbn [lg]. rewrite Hn, Nat2Z.id.
    rewrite (bind_ret _ _ _ _ _ E3), (bind_ret (modify _) _ _ _ _ eq_refl). apply E4.
  - eapply eq_ind; [exact R4|]. subst ws. unfold commit_writes. fold h1.
    rewrite !apply_app. cbn [apply_writes foldl fst snd]. f_equal.
    + by rewrite <- !app_assoc.
    + rewrite Hp. by rewrite difference_diag_L.
Qed.

(** ** Recovery *)

(** A header block that names the home blocks [bs]. *)
Definition head_names (h : block) (bs : list Z) : Prop :=
  head_n h = Z.of_nat (length bs) /\ forall i b, bs !! i = Some b -> head_block h i = b.

Lemma load_loop h m : forall k l (c : C), (k + m <= 30)%nat -> length (lh_block l) = 30%nat ->
  exists bl, for_each (seq k m) (load_block h) (mklst l c) = Ret tt (mklst (set_lh (lh_n l) bl l) c) /\
    length bl = 30%nat /\
    forall i, bl !! i = if bool_decide (k <= i < k + m)%nat then Some (head_block h i) else lh_block l !! i.
Proof.
  induction m as [|m IH]; intros k l c Hk Hlen; cbn [seq for_each].
  { exists (lh_block l). split_and!; [by destruct l|done|]. intros i. by rewrite bool_decide_false by lia. }
  set (l1 := set_lh (lh_n l) (<[k := head_block h k]> (lh_block l)) l).
  destruct (IH (S k) l1 c) as (bl & E & HL & Hbl); [lia|cbn; by rewrite length_insert|].
  exists bl. split_and!; [|done|].
  - unfold load_block at 1, lget, lmod. rewrite bind_assoc, (bind_ret (gets _) _ _ _ _ eq_refl).
    rewrite bool_decide_true by lia. rewrite (bind_ret (modify _) _ _ _ _ eq_refl).
    cbn [lg cache id]. exact E.
  - intros i. rewrite Hbl. cbn [l1 lh_block set_lh]. destruct (decide (i = k)) as [->|Hne].
    + rewrite (bool_decide_false (S k <= k < _)%nat), bool_decide_true by lia.
      apply list_lookup_insert_eq. lia.
    + rewrite list_lookup_insert_ne by done.
      repeat case_bool_decide; try done; lia.
Qed.

Lemma read_head_run l c a bs : repr c a -> idle a -> area l -> start l ∉ cs_pin a ->
  (size (cs_mem a) < NBUF)%nat -> head_names (cs_disk a (start l)) bs -> (length bs <= 30)%nat ->
  exists bl c', read_head (mklst l c) = Ret tt (mklst (set_lh (Z.of_nat (length bs)) bl l) c') /\
    length bl = 30%nat /\ (forall i b, bs !! i = Some b -> bl !! i = Some b) /\
    repr c' (mkcspec (cs_disk a) (cs_hist a) (cs_mem a) ∅ (cs_pin a)).
Proof.
  intros HR Hi HA Hp Hsz [Hn Hb] Hlen. pose proof (cur_out _ _ _ HR Hi Hp) as Hm.
  assert (Hc : cur a (start l) = cs_disk a (start l)) by (unfold cur; by rewrite Hm).
  set (h := cs_disk a (start l)) in *.
  destruct (read_ok c a (start l) HR) as (b & c1 & E1 & R1); [destruct HA; lia|by rewrite Hi|by right|].
  destruct (data_ok c1 _ (start l) b R1) as [E2 _]; [cbn; by rewrite lookup_insert_eq|].
  rewrite cur_read, Hc in E2.
  destruct (relse_ok c1 _ (start l) b R1) as (c2 & E3 & R2);
    [cbn; by rewrite lookup_insert_eq|right; by rewrite cur_read|].
  set (l1 := set_lh (head_n h) (lh_block l) l).
  destruct (load_loop h (length bs) 0 l1 c1) as (bl & E4 & HL & Hbl); [lia|apply HA|].
  exists bl, c2. split_and!; auto.
  - unfold read_head, lget, lmod. rewrite (bind_ret (gets _) _ _ _ _ eq_refl). cbn [lg id].
    rewrite (ar_dev _ HA). lstep E1. lstep E2. cbv zeta.
    rewrite (bind_ret (modify _) _ _ _ _ eq_refl). cbn [lg cache]. fold (head_n h) l1.
    rewrite Hn at 1. rewrite Nat2Z.id. unfold indices. rewrite (bind_ret _ _ _ _ _ E4).
    rewrite (inc_ret _ _ _ _ _ E3). cbn. by rewrite Hn.
  - intros i x Hx. rewrite Hbl, bool_decide_true; [by rewrite (Hb _ _ Hx)|].
    apply lookup_lt_Some in Hx. lia.
  - eapply eq_ind; [exact R2|]. unfold relse_spec. cbn. rewrite bool_decide_false by done. f_equal.
    + rewrite delete_insert_eq. by rewrite delete_id.
    + rewrite Hi, delete_insert_eq. by rewrite delete_id.
Qed.

Lemma recover_run l c d hs bs : repr c (mkcspec d hs ∅ ∅ ∅) -> area l -> homes l bs ->
  head_names (d (start l)) bs ->
  exists bl c', let h0 := store_head 0 bl (d (start l)) in
    let ws := home_writes (start l) 0 bs d ++ [(start l, h0)] in
    recover_from_log (mklst l c) = Ret tt (mklst (set_lh 0 bl l) c') /\
    length bl = 30%nat /\ repr c' (mkcspec (apply_writes ws d) (hs ++ ws) ∅ ∅ ∅).
Proof.
  intros HR HA HH Hh. assert (Hlen : (length bs <= 29)%nat).
  { destruct HA as [_ _ [_ ?] _ _ _], HH as [_ ? _]. unfold LOGSIZE in *. lia. }
  assert (Hsz : (size (∅ : gmap Z block) + 1 < NBUF)%nat) by (rewrite map_size_empty; unfold NBUF; lia).
  destruct (read_head_run l c _ bs HR) as (bl & c1 & E1 & HL & Hbl & R1);
    [done|done|cbn; set_solver|cbn [cs_mem]; lia|done|lia|].
  cbn [cs_disk cs_hist cs_mem cs_pin] in R1. set (l1 := set_lh (Z.of_nat (length bs)) bl l) in *.
  assert (HA1 : area l1) by (destruct HA; by split).
  assert (HH1 : homes l1 bs) by (destruct HH; by split).
  assert (HN1 : names l1 bs) by done.
  pose proof (homes_slots _ _ HA1 HH1 HN1) as HS.
  destruct (install_loop l1 bs 0 c1 _ R1) as (c2 & E2 & R2);
    [done|apply HA|done|apply HH| |cbn; set_solver|cbn [cs_mem]; lia|by right|].
  { intros i b Hil [_ Hb]%(ho_range _ _ HH) <-. apply Hb. by apply (slot_in_log l bs). }
  cbn [cs_disk cs_hist cs_mem cs_pin] in R2.
  assert (Hd : del_all bs ∅ = ∅).
  { apply map_eq. intros n. rewrite del_all_lookup, lookup_empty. by case_bool_decide. }
  assert (Hpin : (∅ : gset Z) ∖ list_to_set bs = ∅) by set_solver. rewrite Hd, Hpin in R2.
  destruct (write_head_run (set_lh 0 bl l1) c2 _ R2) as (c3 & E3 & R3);
    [done|apply HA|destruct HA; cbn; lia|cbn; set_solver|cbn [cs_mem]; lia|].
  cbn [cs_disk cs_hist cs_mem cs_pin start lh_n lh_block set_lh l1] in R3.
  assert (Hst : apply_writes (home_writes (start l) 0 bs d) d (start l) = d (start l)).
  { apply apply_other. rewrite fst_home. intros [_ Hb]%(ho_range _ _ HH).
    apply Hb. destruct HA. unfold in_log. lia. }
  exists bl, c3. cbv zeta. split_and!; [|done|].
  - unfold recover_from_log. rewrite (bind_ret _ _ _ _ _ E1).
    unfold install_trans, lget, lmod. rewrite bind_assoc, (bind_ret (gets _) _ _ _ _ eq_refl).
    cbn [lg lh_n l1 set_lh]. rewrite Nat2Z.id. unfold indices. fold l1.
    rewrite (bind_ret _ _ _ _ _ E2), (bind_ret (modify _) _ _ _ _ eq_refl). apply E3.
  - rewrite apply_app. cbn [apply_writes foldl fst snd].
    eapply eq_ind; [exact R3|]. rewrite Hst. f_equal. by rewrite <- app_assoc.
Qed.

(** ** Crashes *)

Lemma elem_take {A} (x : A) k l : x ∈ take k l -> x ∈ l.
Proof. intros H. rewrite <- (take_drop k l). apply elem_of_app. by left. Qed.

(** What recovery makes of disk [d] whose header names [bs]. *)
Definition replayed (l : logst) (bs : list Z) (d d' : Z -> block) : Prop :=
  head_n (d' (start l)) = 0 /\
  (forall i b, bs !! i = Some b -> d' b = d (start l + Z.of_nat i + 1)) /\
  forall b, ~ in_log l b -> b ∉ bs -> d' b = d b.

Lemma home_writes_elem st bs d i b : forall k, bs !! i = Some b ->
  (b, d (st + Z.of_nat (k + i) + 1)) ∈ home_writes st k bs d.
Proof.
  revert i. induction bs as [|x bs IH]; intros i k Hi; [done|]. cbn [home_writes].
  destruct i as [|i]; cbn in Hi.
  - injection Hi as ->. rewrite Nat.add_0_r. set_solver.
  - apply elem_of_cons. right. replace (k + S i)%nat with (S k + i)%nat by lia. by apply IH.
Qed.

Lemma recover_replays l c d hs bs : repr c (mkcspec d hs ∅ ∅ ∅) -> area l -> homes l bs ->
  head_names (d (start l)) bs ->
  exists l' c' d' ws, recover_from_log (mklst l c) = Ret tt (mklst l' c') /\
    repr c' (mkcspec d' (hs ++ ws) ∅ ∅ ∅) /\ d' = apply_writes ws d /\ replayed l bs d d' /\
    lh_n l' = 0 /\ start l' = start l /\ lsize l' = lsize l /\
    exists h0, ws = home_writes (start l) 0 bs d ++ [(start l, h0)] /\ head_n h0 = 0.
Proof.
  intros HR HA HH Hh. destruct (recover_run l c d hs bs HR HA HH Hh) as (bl & c' & E & HL & R).
  set (h0 := store_head 0 bl (d (start l))) in *.
  assert (H0 : head_n h0 = 0).
  { apply store_head_n; [|lia]. pose proof (repr_len c _ (start l) HR) as Hlen.
    unfold cur in Hlen. cbn in Hlen. by rewrite lookup_empty in Hlen. }
  set (ws := home_writes (start l) 0 bs d ++ [(start l, h0)]) in *.
  exists (set_lh 0 bl l), c', (apply_writes ws d), ws. split_and!; auto; [|by exists h0].
  assert (Hst : forall b, b ∈ bs -> b <> start l).
  { intros b [_ Hb]%(ho_range _ _ HH) ->. apply Hb. destruct HA. unfold in_log. lia. }
  unfold replayed, ws. rewrite apply_app. cbn [apply_writes foldl fst snd]. split_and!.
  - by rewrite write_disk_eq.
  - intros i b Hi. assert (b ∈ bs) by (by eapply list_elem_of_lookup_2).
    rewrite write_disk_ne by auto. fold (apply_writes (home_writes (start l) 0 bs d) d).
    apply apply_in; [rewrite fst_home; apply HH|]. apply (home_writes_elem _ _ _ i b 0 Hi).
  - intros b Hb Hnb. rewrite write_disk_ne.
    + apply apply_other. by rewrite fst_home.
    + intros ->. apply Hb. destruct HA. unfold in_log. lia.
Qed.

(** The disk [d] of the last transaction, with [bs] and their new contents [f],
    as a crash may leave it: nothing committed; committed and perhaps partly
    installed; installed. *)
Inductive crashed (l : logst) (bs : list Z) (f d : Z -> block) (e : Z -> block) : Prop :=
| cr_none : head_n (e (start l)) = 0 -> (forall b, ~ in_log l b -> e b = d b) -> crashed l bs f d e
| cr_committed : head_names (e (start l)) bs ->
    (forall i b, bs !! i = Some b -> e (start l + Z.of_nat i + 1) = f b) ->
    (forall b, ~ in_log l b -> b ∉ bs -> e b = d b) -> crashed l bs f d e
| cr_done : head_n (e (start l)) = 0 ->
    (forall b, ~ in_log l b -> e b = if bool_decide (b ∈ bs) then f b else d b) ->
    crashed l bs f d e.

(** The last two cases, from the home writes of a committed disk on. *)
Lemma crashed_tail l bs f d e h0 k : area l -> homes l bs -> head_names (e (start l)) bs ->
  (forall i b, bs !! i = Some b -> e (start l + Z.of_nat i + 1) = f b) ->
  (forall b, ~ in_log l b -> b ∉ bs -> e b = d b) -> head_n h0 = 0 ->
  crashed l bs f d (apply_writes (take k (((fun b => (b, f b)) <$> bs) ++ [(start l, h0)])) e).
Proof.
  intros HA HH Hh Hlog Hoff H0. set (hw := (fun b => (b, f b)) <$> bs).
  assert (Hfst : hw.*1 = bs) by apply fst_pairs.
  assert (Hin : forall b, b ∈ bs -> ~ in_log l b) by (intros b Hb; by apply (ho_range _ _ HH)).
  assert (Hsl : in_log l (start l)) by (destruct HA; unfold in_log; lia).
  destruct (decide (k <= length hw)%nat) as [Hk|Hk].
  - rewrite take_app_le by done.
    assert (Hsub : forall b, b ∈ (take k hw).*1 -> b ∈ bs).
    { intros b Hb. rewrite <- Hfst. rewrite fmap_take in Hb. by eapply elem_take. }
    apply cr_committed.
    + rewrite apply_other by (intros ?%Hsub; naive_solver). done.
    + intros i b Hi. rewrite apply_other; [eauto|]. intros Hx%Hsub. apply (Hin _ Hx).
      apply (slot_in_log l bs i); auto. by eapply lookup_lt_Some.
    + intros b Hb Hnb. rewrite apply_other by (intros ?%Hsub; done). auto.
  - rewrite take_ge by (rewrite length_app; cbn; lia). rewrite apply_app. cbn [apply_writes foldl fst snd].
    apply cr_done; [by rewrite write_disk_eq|]. intros b Hb.
    rewrite write_disk_ne by naive_solver. fold (apply_writes hw e). case_bool_decide as Hbs.
    + apply apply_in; [rewrite Hfst; apply HH|]. apply list_elem_of_fmap. eauto.
    + rewrite apply_other by (by rewrite Hfst). auto.
Qed.

Lemma commit_crashed l c a bs k : repr c a -> area l -> homes l bs -> names l bs ->
  head_n (cs_disk a (start l)) = 0 ->
  crashed l bs (cur a) (cs_disk a) (apply_writes (take k (commit_writes l a bs)) (cs_disk a)).
Proof.
  intros HR HA HH [Hn Hb] H0. unfold commit_writes.
  set (d := cs_disk a) in *. set (lw := log_writes (start l) 0 bs (cur a)).
  set (h1 := store_head (lh_n l) (lh_block l) (d (start l))).
  assert (Hlen : length (d (start l)) = BSIZE).
  { pose proof (repr_dlen c a (start l) HR). done. }
  assert (Hle : (length bs <= 29)%nat).
  { destruct HA as [_ _ [_ ?] _ _ _], HH as [_ ? _]. unfold LOGSIZE in *. lia. }
  assert (Hlw : forall m x, ~ (start l < x < start l + lsize l) -> apply_writes (take m lw) d x = d x).
  { intros m x Hx. apply apply_other. rewrite fmap_take.
    intros (i & Hi & ->)%elem_take%log_writes_dom.
    pose proof (ho_len _ _ HH). cbn in Hx. lia. }
  destruct (decide (k <= length lw)%nat) as [Hk|Hk].
  - rewrite take_app_le by done. apply cr_none.
    + rewrite Hlw by lia. done.
    + intros b Hnb. apply Hlw. unfold in_log in Hnb. lia.
  - rewrite take_app_ge by lia. rewrite apply_app.
    destruct (k - length lw)%nat as [|k'] eqn:Ek; [lia|]. cbn [app take]. rewrite apply_cons.
    cbn [fst snd]. assert (Hall : take (length lw) lw = lw) by (by apply take_ge).
    apply crashed_tail; auto.
    + rewrite write_disk_eq. split.
      * unfold h1. rewrite store_head_n; [done..|]. rewrite Hn. lia.
      * intros i b Hi. unfold h1. pose proof (lookup_lt_Some _ _ _ Hi) as Hlt.
        assert (Hbi : nth i (lh_block l) 0 = b) by (rewrite nth_lookup, (Hb _ _ Hi); done).
        rewrite store_head_block; [done|done|rewrite Hn; lia|rewrite Hn; lia|]. rewrite Hbi.
        destruct (ho_range _ _ HH b) as [Hr _]; [by eapply list_elem_of_lookup_2|].
        pose proof (ar_disk _ HA). lia.
    + intros i b Hi. rewrite write_disk_ne by lia. by apply (log_writes_at _ 0).
    + intros b Hnb Hbs. rewrite write_disk_ne.
      * rewrite <- Hall. apply Hlw. unfold in_log in Hnb. lia.
      * intros ->. apply Hnb. destruct HA. unfold in_log. lia.
    + unfold h1. apply store_head_n; [by rewrite length_store_head|lia].
Qed.

(** The disk [commit] leaves. *)
Lemma commit_final l a bs : area l -> homes l bs ->
  length (cs_disk a (start l)) = BSIZE ->
  let d' := apply_writes (commit_writes l a bs) (cs_disk a) in
  head_n (d' (start l)) = 0 /\
  forall b, ~ in_log l b -> d' b = if bool_decide (b ∈ bs) then cur a b else cs_disk a b.
Proof.
  intros HA HH Hlen d'. unfold d', commit_writes. rewrite !app_assoc, apply_app, apply_cons.
  cbn [fst snd]. split.
  - cbn. rewrite write_disk_eq. apply store_head_n; [by rewrite length_store_head|lia].
  - intros b Hb. assert (Hbs : b <> start l).
    { intros ->. apply Hb. destruct HA. unfold in_log. lia. }
    change (apply_writes [] ?d) with d. rewrite write_disk_ne by done.
    rewrite !apply_app, apply_cons. cbn [fst snd]. change (apply_writes [] ?d) with d.
    case_bool_decide as Hin.
    + apply apply_in; [rewrite fst_pairs; apply HH|]. apply list_elem_of_fmap. eauto.
    + rewrite apply_other by (by rewrite fst_pairs). rewrite write_disk_ne by done.
      apply log_writes_off; auto. unfold in_log in Hb. lia.
Qed.

(** After the crash, with every block outside the log as [f] has it where the
    transaction changed it, or none of them. *)
Definition atomic (l : logst) (bs : list Z) (f d d' : Z -> block) : Prop :=
  (forall b, ~ in_log l b -> d' b = d b) \/
  (forall b, ~ in_log l b -> d' b = if bool_decide (b ∈ bs) then f b else d b).

Lemma homes_nil l : area l -> homes l [].
Proof. intros []. split; [constructor|cbn; lia|set_solver]. Qed.

Lemma names_nil h : head_n h = 0 -> head_names h [].
Proof. intros H. by split. Qed.

(** The header a crash left decides which blocks recovery copies. *)
Lemma crashed_run l bs f d e c : crashed l bs f d e -> repr c (fresh e) -> area l -> homes l bs ->
  exists l' c' d' ws, recover_from_log (mklst l c) = Ret tt (mklst l' c') /\
    repr c' (mkcspec d' ws ∅ ∅ ∅) /\ head_n (d' (start l)) = 0 /\ atomic l bs f d d' /\
    forall k, crashed l bs f d (apply_writes (take k ws) e).
Proof.
  intros HC HR HA HH.
  assert (Hsl : in_log l (start l)) by (destruct HA; unfold in_log; lia).
  assert (Hhead : forall g h0 k b, ~ in_log l b -> g b = apply_writes (take k [(start l, h0)]) g b).
  { intros g h0 k b Hb. symmetry. apply apply_other. intros Hx. rewrite fmap_take in Hx.
    apply elem_take, list_elem_of_singleton in Hx. by subst. }
  destruct HC as [H0 Hoff|Hn Hlog Hoff|H0 Hoff].
  - destruct (recover_replays l c e [] [] HR HA (homes_nil l HA) (names_nil _ H0))
      as (l' & c' & d' & ws & E & R & Hd & (Hz & _ & Hb) & _ & _ & _ & h0 & -> & Hh0).
    exists l', c', d', [(start l, h0)]. split_and!; auto.
    + left. intros b Hnb. rewrite Hb by set_solver. auto.
    + intros k. apply cr_none; [|intros b Hnb; rewrite <- Hhead by done; auto].
      destruct k as [|k]; cbn [take]; [done|]. rewrite take_nil. cbn. by rewrite write_disk_eq.
  - destruct (recover_replays l c e [] bs HR HA HH Hn)
      as (l' & c' & d' & ws & E & R & Hd & (Hz & Hi & Hb) & _ & _ & _ & h0 & -> & Hh0).
    rewrite (home_writes_of _ _ _ _ f) in R by (cbn; auto).
    exists l', c', d', (((fun b => (b, f b)) <$> bs) ++ [(start l, h0)]). split_and!; auto.
    + right. intros b Hnb. case_bool_decide as Hbs; [|rewrite Hb by done; auto].
      apply list_elem_of_lookup in Hbs as [i Hbi]. rewrite (Hi _ _ Hbi). auto.
    + intros k. by apply crashed_tail.
  - destruct (recover_replays l c e [] [] HR HA (homes_nil l HA) (names_nil _ H0))
      as (l' & c' & d' & ws & E & R & Hd & (Hz & _ & Hb) & _ & _ & _ & h0 & -> & Hh0).
    exists l', c', d', [(start l, h0)]. split_and!; auto.
    + right. intros b Hnb. rewrite Hb by set_solver. auto.
    + intros k. apply cr_done; [|intros b Hnb; rewrite <- Hhead by done; auto].
      destruct k as [|k]; cbn [take]; [done|]. rewrite take_nil. cbn. by rewrite write_disk_eq.
Qed.

(** The machine starts over disk [e], runs [recover_from_log] and crashes after
    some of its writes; [e'] is the disk then. *)
Definition crash_again (l : logst) (e e' : Z -> block) : Prop :=
  exists c l' c' k, repr c (fresh e) /\ recover_from_log (mklst l c) = Ret tt (mklst l' c') /\
    e' = apply_writes (take k (dev_hist c')) e.

Lemma crashed_again l bs f d e e' : area l -> homes l bs ->
  rtc (crash_again l) e e' -> crashed l bs f d e -> crashed l bs f d e'.
Proof.
  intros HA HH HS. induction HS as [|e e1 e2 (c & l' & c' & k & HR & E & ->) _ IH]; [done|].
  intros HC. apply IH. destruct (crashed_run _ _ _ _ _ _ HC HR HA HH)
    as (l1 & c1 & d1 & ws & E1 & R1 & _ & _ & Hk).
  rewrite E in E1. injection E1 as -> ->. rewrite (repr_hist _ _ R1). apply Hk.
Qed.

End Runs.

(** ** Claims *)

Section Claims.
Context {C : Type} {BO : BufOps C} {disksize : Z} {BC : BufferCache C disksize}.

(** C1: [commit] of a transaction with the pinned blocks [bs] returns, has written
    every block home when it does and leaves an empty log.  If the machine
    crashes after any of its disk writes, and again during any number of
    recoveries, then [recover_from_log] on the disk that is left returns, clears
    the log, and every block outside the log is as before the transaction, or
    every block is as after it. *)
Theorem commit_crash_safe l (c : C) a bs : repr c a -> idle a -> area (disksize := disksize) l ->
  homes (disksize := disksize) l bs -> names l bs -> cs_pin a = list_to_set bs -> bs <> [] ->
  head_n (dev_disk c (start l)) = 0 ->
  exists c' ws, commit (mklst l c) = Ret tt (mklst (set_lh 0 (lh_block l) l) c') /\
    dev_hist c' = dev_hist c ++ ws /\ head_n (dev_disk c' (start l)) = 0 /\
    (forall b, ~ in_log l b ->
       dev_disk c' b = if bool_decide (b ∈ bs) then cur a b else dev_disk c b) /\
    forall k e c1,
      rtc (crash_again l) (apply_writes (take k ws) (dev_disk c)) e -> repr c1 (fresh e) ->
      exists l2 c2, recover_from_log (mklst l c1) = Ret tt (mklst l2 c2) /\
        head_n (dev_disk c2 (start l)) = 0 /\
        atomic l bs (cur a) (dev_disk c) (dev_disk c2).
Proof.
  intros HR Hi HA HH HN Hp Hne H0. rewrite (repr_disk _ _ HR) in *.
  destruct (commit_run l c a bs HR Hi HA HH HN Hp Hne) as (c' & E & R).
  exists c', (commit_writes l a bs).
  destruct (commit_final l a bs HA HH (repr_dlen c a _ HR)) as [Hz Hd].
  rewrite (repr_disk _ _ R), (repr_hist _ _ R), (repr_hist _ _ HR). cbn [cs_disk cs_hist].
  split_and!; [done|done|done|done|].
  - intros k e c1 HS HR1.
    assert (HC : crashed l bs (cur a) (cs_disk a) e).
    { eapply crashed_again; eauto. by eapply commit_crashed. }
    destruct (crashed_run _ _ _ _ _ _ HC HR1 HA HH) as (l2 & c2 & d2 & ws & E2 & R2 & Hz2 & Hat & _).
    exists l2, c2. rewrite (repr_disk _ _ R2). done.
Qed.

End Claims.
