(* ===== verification/LogOps.v ===== *)
(** * Joining, filling and closing a transaction ([log.c])

    [begin_op], [log_write] and [end_op] over any buffer cache, what they keep
    true of the open transaction, and the theorems of [LogSpec] on the real
    cache. *)
From S2P Require Import Prelude Bio BufCache BioSpec Log LogSpec.

Section Ops.
Context {C : Type} {BO : BufOps C} {disksize : Z} {BC : BufferCache C disksize}.

(** The open transaction: the header in memory names exactly the pinned blocks. *)
Record txn (l : logst) (a : cspec) (bs : list Z) : Prop := {
  tx_area : area (disksize := disksize) l;
  tx_homes : homes (disksize := disksize) l bs;
  tx_names : names l bs;
  tx_pin : cs_pin a = list_to_set bs;
}.

Lemma find_block_spec bl bs n : (forall i b, bs !! i = Some b -> bl !! i = Some b) ->
  (n ∉ bs -> find_block bl n (length bs) = length bs) /\
  (n ∈ bs -> (find_block bl n (length bs) < length bs)%nat /\
             bl !! find_block bl n (length bs) = Some n).
Proof.
  revert bl. induction bs as [|x bs IH]; intros bl H; [by split; [destruct bl|set_solver]|].
  destruct bl as [|y bl]; [by specialize (H 0%nat x eq_refl)|].
  assert (y = x) as -> by (specialize (H 0%nat x eq_refl); cbn in H; congruence).
  destruct (IH bl) as [IH1 IH2]; [intros i b Hi; apply (H (S i) b Hi)|]. cbn [length find_block].
  destruct (Z.eqb_spec x n) as [->|Hne].
  - split; [set_solver|]. intros _. split; [lia|done].
  - split.
    + intros Hn. rewrite IH1; [done|set_solver].
    + intros Hn. destruct IH2 as [? ?]; [set_solver|]. split; [lia|done].
Qed.

Lemma log_write_run l (c : C) a bs n b : repr c a -> txn l a bs ->
  cs_held a !! n = Some b -> 0 <= n < disksize -> ~ in_log l n ->
  1 <= outstanding l -> Z.of_nat (length bs) < lsize l - 1 ->
  exists l' c', log_write b (mklst l c) = Ret tt (mklst l' c') /\
    repr c' (pin_spec n a) /\
    txn l' (pin_spec n a) (if bool_decide (n ∈ bs) then bs else bs ++ [n]) /\
    outstanding l' = outstanding l /\ committing l' = committing l /\ start l' = start l /\ lsize l' = lsize l.
Proof.
  intros HR [HA HH [Hn HN] Hp] Hb Hr Hlog Ho Hlen.
  destruct (pin_ok c a n b HR Hb) as (c' & E1 & R1).
  destruct (data_ok c a n b HR Hb) as [_ E2].
  destruct (find_block_spec (lh_block l) bs n HN) as [Hout Hin].
  set (i := find_block (lh_block l) n (length bs)) in *.
  set (l' := set_lh (if Z.of_nat i =? lh_n l then lh_n l + 1 else lh_n l) (<[i := n]> (lh_block l)) l).
  assert (HA' : area (disksize := disksize) l').
  { destruct HA. split; auto. cbn. by rewrite length_insert. }
  exists l', c'. split_and!; auto.
  - unfold log_write, lget, lmod. rewrite (bind_ret (gets _) _ _ _ _ eq_refl). cbn [lg id].
    pose proof (ar_size _ HA) as Hs. unfold LOGSIZE in *.
    rewrite (proj2 (Z.leb_gt 30 (lh_n l))), (proj2 (Z.leb_gt (lsize l - 1) (lh_n l))) by lia.
    cbn [orb]. rewrite (proj2 (Z.ltb_ge _ _)) by lia.
    rewrite (bind_ret _ _ _ _ _ (inc_ret _ _ _ _ _ E2)). cbv zeta. rewrite Hn, Nat2Z.id. fold i.
    rewrite (bind_ret (modify _) _ _ _ _ eq_refl). cbn [lg cache].
    rewrite (inc_ret _ _ _ _ _ E1). unfold l'. by rewrite Hn.
  - case_bool_decide as Hbs.
    + destruct (Hin Hbs) as [Hlt Hi]. split; auto.
      * destruct HH. by split.
      * split; cbn.
        -- rewrite (proj2 (Z.eqb_neq _ _)) by lia. done.
        -- intros j x Hj. rewrite list_insert_id by done. auto.
      * cbn. rewrite Hp. set_solver.
    + specialize (Hout Hbs). split; auto.
      * destruct HH as [H1 H2 H3]. split.
        -- apply NoDup_app. split_and!; [done|set_solver|apply NoDup_singleton].
        -- rewrite length_app. cbn. lia.
        -- intros x [Hx| ->%list_elem_of_singleton]%elem_of_app; [by apply H3|done].
      * split; cbn.
        -- rewrite (proj2 (Z.eqb_eq _ _)) by lia. rewrite length_app. cbn. lia.
        -- intros j x Hj. destruct (decide (j = i)) as [->|Hne].
           ++ rewrite Hout, lookup_app_r, Nat.sub_diag in Hj by lia. injection Hj as <-.
              apply list_lookup_insert_eq. pose proof (ar_blocks _ HA). pose proof (ar_size _ HA).
              unfold LOGSIZE in *. lia.
           ++ rewrite list_lookup_insert_ne by done. apply HN.
              rewrite lookup_app_l in Hj; [done|].
              apply lookup_lt_Some in Hj. rewrite length_app in Hj. cbn in Hj. lia.
      * cbn. rewrite Hp, list_to_set_app_L. set_solver.
Qed.

(** [log_write] of a locked home block, on every branch: it panics when the log
    is full or no operation is open; otherwise it pins the block and records it.
    A block that is already part of the transaction is absorbed, any other is
    appended, and the header keeps naming exactly the pinned blocks. *)
Theorem log_write_spec l (c : C) a bs n b : repr c a -> txn l a bs ->
  cs_held a !! n = Some b -> 0 <= n < disksize -> ~ in_log l n ->
  if bool_decide (lsize l - 1 <= Z.of_nat (length bs)) then
    log_write b (mklst l c) = Stop (Panic "too big a transaction")
  else if bool_decide (outstanding l < 1) then
    log_write b (mklst l c) = Stop (Panic "log_write outside of trans")
  else exists l' c', log_write b (mklst l c) = Ret tt (mklst l' c') /\
    repr c' (pin_spec n a) /\
    txn l' (pin_spec n a) (if bool_decide (n ∈ bs) then bs else bs ++ [n]) /\
    outstanding l' = outstanding l /\ committing l' = committing l.
Proof.
  intros HR HT Hb Hr Hlog. destruct (tx_names _ _ _ HT) as [Hn _].
  case_bool_decide; [|case_bool_decide].
  - unfold log_write, lget. rewrite (bind_ret (gets _) _ _ _ _ eq_refl). cbn [lg id].
    rewrite (proj2 (Z.leb_le (lsize l - 1) (lh_n l))) by lia. by rewrite orb_true_r.
  - unfold log_write, lget. rewrite (bind_ret (gets _) _ _ _ _ eq_refl). cbn [lg id].
    pose proof (ar_size _ (tx_area _ _ _ HT)) as Hs. unfold LOGSIZE in *.
    rewrite (proj2 (Z.leb_gt 30 (lh_n l))), (proj2 (Z.leb_gt (lsize l - 1) (lh_n l))) by lia.
    cbn [orb]. by rewrite (proj2 (Z.ltb_lt _ _)) by lia.
  - destruct (log_write_run l c a bs n b) as (l' & c' & E & R & T & Ho & Hc & _); auto; try lia.
    exists l', c'. done.
Qed.

(** [begin_op] lets an operation join exactly when no commit is running and the
    operations that have joined, this one included, could log 10 blocks each
    within LOGSIZE; otherwise it sleeps and changes nothing. *)
Theorem begin_op_spec l (c : C) :
  begin_op (mklst l c) =
  if bool_decide (committing l = 0 /\ lh_n l + (outstanding l + 1) * 10 <= 30)
  then Ret tt (mklst (set_outstanding (outstanding l + 1) l) c)
  else Wait "log" (mklst l c).
Proof.
  unfold begin_op, lget, lmod. rewrite (bind_ret (gets _) _ _ _ _ eq_refl). cbn [lg id].
  unfold nz, LOGSIZE, MAXOPBLOCKS. destruct (Z.eqb_spec (committing l) 0) as [E|E]; cbn [negb].
  - destruct (Z.ltb_spec 30 (lh_n l + (outstanding l + 1) * 10)).
    + rewrite bool_decide_false by lia. done.
    + rewrite bool_decide_true by lia. done.
  - rewrite bool_decide_false by tauto. done.
Qed.

Lemma begin_op_run l (c : C) : committing l = 0 -> lh_n l + (outstanding l + 1) * 10 <= 30 ->
  begin_op (mklst l c) = Ret tt (mklst (set_outstanding (outstanding l + 1) l) c).
Proof.
  intros Hc Hn. unfold begin_op, lget, lmod. rewrite (bind_ret (gets _) _ _ _ _ eq_refl).
  cbn [lg id]. rewrite Hc. cbn [nz negb Z.eqb]. unfold LOGSIZE, MAXOPBLOCKS.
  by rewrite (proj2 (Z.ltb_ge _ _)) by lia.
Qed.

Lemma end_op_last l (c : C) a bs : repr c a -> idle a -> txn l a bs -> bs <> [] ->
  outstanding l = 1 -> committing l = 0 ->
  exists c', end_op (mklst l c) = Ret true (mklst (set_lh 0 (lh_block l) (set_outstanding 0 l)) c') /\
    repr c' (mkcspec (apply_writes (commit_writes l a bs) (cs_disk a))
               (cs_hist a ++ commit_writes l a bs) ∅ ∅ ∅).
Proof.
  intros HR Hi [HA HH HN Hp] Hne Ho Hc.
  set (l1 := set_committing 1 (set_outstanding 0 l)).
  destruct (commit_run l1 c a bs HR Hi) as (c' & E & R); auto;
    [by destruct HA; split|by destruct HH; split|].
  exists c'. split; [|exact R]. unfold end_op, lget, lmod.
  rewrite (bind_ret (gets _) _ _ _ _ eq_refl). cbn [lg id].
  rewrite (bind_ret (modify _) _ _ _ _ eq_refl). cbn [lg cache]. rewrite Hc, Ho. cbn [nz negb Z.eqb Z.sub].
  change (1 - 1 =? 0) with true. cbn iota. rewrite (bind_ret (modify _) _ _ _ _ eq_refl). cbn [lg cache].
  change (1 - 1) with 0. fold l1. rewrite (bind_ret _ _ _ _ _ E).
  rewrite (bind_ret (modify _) _ _ _ _ eq_refl). cbn. unfold ret. do 2 f_equal.
  destruct l; cbn in *; subst; done.
Qed.

(** The client of the comment above [log_write], as one operation. *)
Definition logged (n : Z) (v : block) : M (lst C) unit :=
  let! b := inc (bo_read 1 n) in
  inc (bo_set b v) ;;
  log_write b ;;
  inc (bo_relse b).

Lemma logged_run l (c : C) a bs n v : repr c a -> idle a -> txn l a bs ->
  0 <= n < disksize -> ~ in_log l n -> room a n -> length v = BSIZE ->
  1 <= outstanding l -> Z.of_nat (length bs) < lsize l - 1 ->
  exists l' c' a', logged n v (mklst l c) = Ret tt (mklst l' c') /\ repr c' a' /\ idle a' /\
    txn l' a' (if bool_decide (n ∈ bs) then bs else bs ++ [n]) /\
    outstanding l' = outstanding l /\ committing l' = committing l /\ start l' = start l /\
    lsize l' = lsize l /\ cs_disk a' = cs_disk a /\
    forall m, cur a' m = if bool_decide (m = n) then v else cur a m.
Proof.
  intros HR Hi HT Hr Hlog Hroom Hv Ho Hlen.
  destruct (read_ok c a n HR Hr) as (b & c1 & E1 & R1); [by rewrite Hi|done|].
  assert (Hb : cs_held (read_spec n b a) !! n = Some b) by (cbn; by rewrite lookup_insert_eq).
  destruct (set_ok c1 _ n b v R1 Hb Hv) as (c2 & E2 & R2).
  set (a2 := set_spec n v (read_spec n b a)) in *.
  assert (HT2 : txn l a2 bs) by (destruct HT; by split).
  destruct (log_write_run l c2 a2 bs n b R2 HT2 Hb Hr Hlog Ho Hlen)
    as (l' & c3 & E3 & R3 & T3 & Ho3 & Hc3 & Hs3 & Hz3).
  destruct (relse_ok c3 _ n b R3 Hb) as (c4 & E4 & R4); [left; cbn; set_solver|].
  exists l', c4, (relse_spec n (pin_spec n a2)).
  assert (Hin : n ∈ cs_pin (pin_spec n a2)) by (cbn; set_solver).
  split_and!; auto.
  - unfold logged. rewrite (bind_ret _ _ _ _ _ (inc_ret _ _ _ _ _ E1)).
    rewrite (bind_ret _ _ _ _ _ (inc_ret _ _ _ _ _ E2)), (bind_ret _ _ _ _ _ E3).
    by apply inc_ret.
  - unfold idle in *. cbn. by rewrite Hi, insert_empty, delete_singleton_eq.
  - destruct T3. by split.
  - intros m. unfold cur, relse_spec. rewrite bool_decide_true by done. unfold a2. cbn.
    destruct (decide (m = n)) as [E|E]; [by rewrite bool_decide_true, E, lookup_insert_eq by done|].
    rewrite bool_decide_false by done. by rewrite !lookup_insert_ne by done.
Qed.

(** No more blocks are in memory than are pinned. *)
Lemma idle_room l (c : C) a bs n : repr c a -> idle a -> txn l a bs -> (length bs < NBUF)%nat -> room a n.
Proof.
  intros HR Hi [_ [Hnd _ _] _ Hp] Hl. right. rewrite <- size_dom. eapply Nat.le_lt_trans; [|exact Hl].
  rewrite <- (size_list_to_set (C := gset Z) bs) by done. apply subseteq_size. intros m Hm%elem_of_dom.
  apply (repr_mem c a m HR) in Hm as [[b Hb]|Hm]; [by rewrite Hi in Hb|]. by rewrite <- Hp.
Qed.

(** Distinct blocks, logged one after the other. *)
Lemma logged_all_run v (Hv : length v = BSIZE) ns : forall l (c : C) a bs, repr c a -> idle a -> txn l a bs ->
  NoDup (bs ++ ns) -> (forall n, n ∈ ns -> 0 <= n < disksize /\ ~ in_log l n) -> 1 <= outstanding l ->
  Z.of_nat (length (bs ++ ns)) <= lsize l - 1 -> (length (bs ++ ns) < NBUF)%nat ->
  exists l' c' a', for_each ns (fun n => logged n v) (mklst l c) = Ret tt (mklst l' c') /\ repr c' a' /\ idle a' /\
    txn l' a' (bs ++ ns) /\ outstanding l' = outstanding l /\ start l' = start l /\ lsize l' = lsize l.
Proof.
  induction ns as [|n ns IH]; intros l c a bs HR Hi HT Hnd Hns Ho Hlen Hbuf.
  { exists l, c, a. by rewrite app_nil_r. }
  destruct (Hns n) as [Hn Hlog]; [by left|]. rewrite length_app in Hlen, Hbuf. cbn [length] in Hlen, Hbuf.
  destruct (logged_run l c a bs n v) as (l1 & c1 & a1 & E1 & R1 & I1 & T1 & Ho1 & _ & Hs1 & Hz1 & _); auto; [|lia|].
  { eapply idle_room; [done..|lia]. }
  rewrite bool_decide_false in T1 by (apply NoDup_app in Hnd as (_ & Hd & _); intros Hin; apply (Hd n Hin); left).
  rewrite (cons_middle n bs ns), app_assoc in *.
  destruct (IH l1 c1 a1 (bs ++ [n])) as (l2 & c2 & a2 & E2 & R2 & I2 & T2 & Ho2 & Hs2 & Hz2); [done|done|done|done| |by rewrite Ho1| | |].
  - intros m Hm. destruct (Hns m) as [? Hl]; [by right|]. split; [done|]. unfold in_log in *. by rewrite Hs1, Hz1.
  - rewrite !length_app. cbn. rewrite Hz1. lia.
  - rewrite !length_app. cbn. lia.
  - exists l2, c2, a2. cbn [for_each]. rewrite (bind_ret _ _ _ _ _ E1). split_and!; [done|done|done|done|congruence..].
Qed.

(** A block more than the log holds. *)
Lemma logged_overflow l (c : C) a bs n v : repr c a -> idle a -> txn l a bs -> 0 <= n < disksize ->
  (length bs < NBUF)%nat -> length v = BSIZE -> lsize l - 1 <= Z.of_nat (length bs) ->
  logged n v (mklst l c) = Stop (Panic "too big a transaction").
Proof.
  intros HR Hi HT Hn Hb Hv Hl.
  destruct (read_ok c a n HR Hn) as (b & c1 & E1 & R1); [by rewrite Hi|by eapply idle_room|].
  assert (Hh : cs_held (read_spec n b a) !! n = Some b) by (cbn; by rewrite lookup_insert_eq).
  destruct (set_ok c1 _ n b v R1 Hh Hv) as (c2 & E2 & _). destruct (tx_names _ _ _ HT) as [Hm _].
  unfold logged. rewrite (bind_ret _ _ _ _ _ (inc_ret _ _ _ _ _ E1)), (bind_ret _ _ _ _ _ (inc_ret _ _ _ _ _ E2)).
  unfold log_write, lget. unfold bind at 1. unfold bind at 1. cbn [gets lg id].
  by rewrite (proj2 (Z.leb_le (lsize l - 1) (lh_n l))), orb_true_r by lia.
Qed.

(** C35: The reservation of [begin_op] does not keep [log_write] from panicking.  On
    any disk whose log has LOGSIZE blocks, the header included, as [mkfs] makes
    it, and over any buffer cache: three operations are let in, and when they log
    ten blocks each, thirty different ones in any order, the first 29 calls of
    [log_write] return and the last one panics. *)
Theorem three_full_ops_overflow l (c : C) a v ns : repr c a -> idle a -> txn l a [] ->
  outstanding l = 0 -> committing l = 0 -> lsize l = LOGSIZE -> length v = BSIZE ->
  length ns = (3 * Z.to_nat MAXOPBLOCKS)%nat -> NoDup ns -> (forall n, n ∈ ns -> 0 <= n < disksize /\ ~ in_log l n) ->
  let ops := begin_op ;; begin_op ;; begin_op in
  (exists s, (ops ;; for_each (take 29 ns) (fun n => logged n v)) (mklst l c) = Ret tt s /\
     outstanding (lg s) = 3 /\ lh_n (lg s) = 29) /\
  (ops ;; for_each ns (fun n => logged n v)) (mklst l c) = Stop (Panic "too big a transaction").
Proof.
  intros HR Hi HT Ho Hc Hz Hv Hl Hnd Hns ops. change (length ns = 30%nat) in Hl. unfold LOGSIZE in Hz.
  destruct (tx_names _ _ _ HT) as [Hn _]. cbn [length] in Hn.
  assert (ops (mklst l c) = Ret tt (mklst (set_outstanding 3 l) c)) as Eops.
  { unfold ops. rewrite (bind_ret _ _ _ _ _ (begin_op_run l c Hc ltac:(lia))).
    rewrite (bind_ret _ _ _ _ _ (begin_op_run (set_outstanding (outstanding l + 1) l) c Hc ltac:(cbn; lia))).
    rewrite begin_op_run by (cbn; lia). cbn. by rewrite Ho. }
  set (l1 := set_outstanding 3 l) in *. assert (HT1 : txn l1 a []) by (destruct HT as [[] [] ? ?]; split; [by split|by split|done|done]).
  destruct ns as [|n ns _] using rev_ind; [done|]. rewrite length_app in Hl. cbn [length] in Hl.
  rewrite take_app_le, (take_ge ns) by lia. apply NoDup_app in Hnd as (Hnd & _ & _).
  destruct (logged_all_run v Hv ns l1 c a []) as (l2 & c2 & a2 & E2 & R2 & I2 & T2 & Ho2 & Hs2 & Hz2);
    [done|done|done|done|intros m Hm; apply Hns; set_solver|cbn; lia|cbn; lia|cbn; unfold NBUF; lia|].
  cbn [app] in T2. split.
  - exists (mklst l2 c2). rewrite (bind_ret _ _ _ _ _ Eops). split_and!; [done|by cbn [lg]; rewrite Ho2|].
    destruct (tx_names _ _ _ T2) as [Hn2 _]. cbn [lg]. lia.
  - rewrite (bind_ret _ _ _ _ _ Eops), for_each_app, (bind_ret _ _ _ _ _ E2). cbn [for_each]. unfold bind.
    rewrite (logged_overflow l2 c2 a2 ns n v); [done|done|done|done|apply Hns; set_solver|unfold NBUF; lia|done|rewrite Hz2; cbn; lia].
Qed.

(** An operation that logs block [n] and is the only one open: it returns with
    [v] on the disk at [n] and every other block outside the log untouched, and
    leaves the log empty for the next operation. *)
Theorem update_durable l (c : C) a n v : repr c a -> idle a -> txn l a [] ->
  0 <= n < disksize -> ~ in_log l n -> length v = BSIZE -> 2 <= lsize l ->
  outstanding l = 0 -> committing l = 0 ->
  exists l' c' a', (begin_op ;; logged n v ;; end_op) (mklst l c) = Ret true (mklst l' c') /\
    repr c' a' /\ idle a' /\ txn l' a' [] /\ outstanding l' = 0 /\ committing l' = 0 /\
    dev_disk c' n = v /\
    forall m, m <> n -> ~ in_log l m -> dev_disk c' m = dev_disk c m.
Proof.
  intros HR Hi HT Hr Hlog Hv Hsz Ho Hc.
  set (l1 := set_outstanding 1 l).
  assert (E0 : begin_op (mklst l c) = Ret tt (mklst l1 c)).
  { rewrite begin_op_run; rewrite ?Ho; [done|done|].
    destruct (tx_names _ _ _ HT) as [-> _]. cbn. lia. }
  assert (HT1 : txn l1 a []) by (destruct HT as [[] [] ? ?]; split; [by split|by split|done|done]).
  assert (Hm : cs_mem a = ∅).
  { apply map_empty. intros m. apply (cur_out c); auto. rewrite (tx_pin _ _ _ HT). set_solver. }
  destruct (logged_run l1 c a [] n v) as (l2 & c2 & a2 & E2 & R2 & I2 & T2 & Ho2 & Hc2 & Hs2 & Hz2 & Hd2 & Hcur);
    auto; [right; rewrite Hm; vm_compute; lia|cbn; lia|cbn; lia|].
  rewrite bool_decide_false in T2 by set_solver. cbn [app] in T2.
  destruct (end_op_last l2 c2 a2 [n] R2 I2 T2) as (c3 & E3 & R3); [done|done|by rewrite Hc2|].
  destruct (commit_final l2 a2 [n] (tx_area _ _ _ T2) (tx_homes _ _ _ T2) (repr_dlen c2 a2 _ R2)) as [_ Hf].
  assert (Hin : forall m, in_log l2 m <-> in_log l m) by (intros m; unfold in_log; by rewrite Hs2, Hz2).
  exists (set_lh 0 (lh_block l2) (set_outstanding 0 l2)), c3. eexists. split_and!; [|exact R3|done| |done|cbn; by rewrite Hc2| |].
  - rewrite (bind_ret _ _ _ _ _ E0), (bind_ret _ _ _ _ _ E2). exact E3.
  - destruct T2 as [[] [] ? ?]. split; [by split| |by split|done].
    split; [apply NoDup_nil_2|cbn; lia|set_solver].
  - rewrite (repr_disk _ _ R3). cbn [cs_disk]. rewrite Hf by (by rewrite Hin).
    rewrite bool_decide_true, Hcur, bool_decide_true by set_solver. done.
  - intros m Hne Hml. rewrite (repr_disk _ _ R3), (repr_disk _ _ HR). cbn [cs_disk].
    rewrite Hf by (by rewrite Hin). rewrite bool_decide_false by set_solver. by rewrite Hd2.
Qed.

End Ops.

(** ** The log over [bio.c] *)

(** The log as [mkfs] lays it out: 30 blocks from block 2, one operation open. *)
Definition demo_log : logst := mklogst 2 30 1 0 1 0 (repeat 0 30).

Lemma demo_area l : ldev l = 1 -> start l = 2 -> lsize l = 30 -> length (lh_block l) = 30%nat ->
  area (disksize := 1000) l.
Proof. intros. split; unfold LOGSIZE; lia. Qed.

Lemma demo_txn k : txn (disksize := 1000) (set_outstanding k demo_log) (fresh demo_disk) [].
Proof.
  split; [by apply demo_area| |done|done].
  split; [apply NoDup_nil_2|cbn; lia|set_solver].
Qed.

(** One block logged and pinned. *)
Lemma demo_logged : exists l c a, @repr _ _ _ (bio_cache 7 1000) c a /\ idle a /\
  txn (disksize := 1000) l a [100] /\ cs_disk a = demo_disk /\ start l = 2.
Proof.
  destruct demo_cache as [c H].
  destruct (logged_run (BO := bio_ops 7 1000) (BC := bio_cache 7 1000)
              (set_outstanding 1 demo_log) c (fresh demo_disk) [] 100 (repeat 9 BSIZE) H)
    as (l' & c' & a' & _ & R & I & T & _ & _ & Hs & _ & Hd & _);
    [done|apply demo_txn|lia|unfold in_log; cbn; lia|right; vm_compute; lia|done|cbn; lia|cbn; lia|].
  exists l', c', a'. done.
Qed.

Lemma commit_crash_safe_witness : exists l c c',
  commit (BO := bio_ops 7 1000) (mklst l c) = Ret tt (mklst (set_lh 0 (lh_block l) l) c') /\
  head_n (disk c' 2) = 0.
Proof.
  destruct demo_logged as (l & c & a & HR & HI & HT & Hd & Hs).
  destruct (commit_crash_safe (BO := bio_ops 7 1000) (BC := bio_cache 7 1000) l c a [100])
    as (c' & ws & E & _ & Hz & _).
  - exact HR.
  - exact HI.
  - exact (tx_area _ _ _ HT).
  - exact (tx_homes _ _ _ HT).
  - exact (tx_names _ _ _ HT).
  - exact (tx_pin _ _ _ HT).
  - discriminate.
  - rewrite (repr_disk _ _ HR), Hd. reflexivity.
  - exists l, c, c'. split; [exact E|]. rewrite <- Hs. exact Hz.
Defined.

(** The blocks 100 to 129. *)
Lemma three_full_ops_overflow_witness : exists c : bst,
  (exists s, (begin_op ;; begin_op ;; begin_op ;; for_each (take 29 (seqZ 100 30)) (fun n => logged (BO := bio_ops 7 1000) n (repeat 9 BSIZE)))
     (mklst (set_outstanding 0 demo_log) c) = Ret tt s /\ lh_n (lg s) = 29) /\
  (begin_op ;; begin_op ;; begin_op ;; for_each (seqZ 100 30) (fun n => logged (BO := bio_ops 7 1000) n (repeat 9 BSIZE)))
    (mklst (set_outstanding 0 demo_log) c) = Stop (Panic "too big a transaction").
Proof.
  destruct demo_cache as [c H]. exists c.
  destruct (three_full_ops_overflow (BO := bio_ops 7 1000) (BC := bio_cache 7 1000) (set_outstanding 0 demo_log) c
              (fresh demo_disk) (repeat 9 BSIZE) (seqZ 100 30)) as [(s & E & _ & Hn) P].
  - exact H.
  - reflexivity.
  - apply demo_txn.
  - reflexivity.
  - reflexivity.
  - reflexivity.
  - reflexivity.
  - reflexivity.
  - apply NoDup_seqZ.
  - intros n Hn%elem_of_seqZ. split; [lia|unfold in_log; cbn; lia].
  - split; [exists s; split; [exact E|exact Hn]|exact P].
Defined.
