(* ===== verification/Tx.v ===== *)
(** * What the log promises to the file system

    [TxOps] names the operations on blocks that [fs.c] uses,
    [tspec] is the state it reasons with, and [TxView] and [TxDisk] state what each
    operation does to it.  The last section proves it of [log.c] over any buffer cache. *)
From S2P Require Import Prelude Bio BufCache Log LogSpec LogOps.

Class TxOps (S : Type) := {
  tx_read : Z -> Z -> M S nat;          (* bread(dev, blockno) *)
  tx_data : nat -> M S block;           (* bp->data *)
  tx_set : nat -> block -> M S unit;    (* stores into bp->data *)
  tx_log : nat -> M S unit;             (* log_write(bp) *)
  tx_relse : nat -> M S unit;           (* brelse(bp) *)
  tx_begin : M S unit;                  (* begin_op() *)
  tx_end : M S bool;                    (* end_op() *)
}.

(** The blocks as the running operation sees them; the locked ones with their
    buffers; those changed since they were last logged; those the transaction
    has logged; how many more it may log. *)
Record tspec := mktspec {
  t_view : Z -> block;
  t_held : gmap Z nat;
  t_dirty : gset Z;
  t_logged : gset Z;
  t_quota : nat;
}.

Definition t_take (n : Z) (b : nat) (a : tspec) : tspec :=
  mktspec (t_view a) (<[n := b]> (t_held a)) (t_dirty a) (t_logged a) (t_quota a).
Definition t_put (n : Z) (d : block) (a : tspec) : tspec :=
  mktspec (write_disk n d (t_view a)) (t_held a) ({[n]} ∪ t_dirty a) (t_logged a) (t_quota a).
Definition t_note (n : Z) (a : tspec) : tspec :=
  mktspec (t_view a) (t_held a) (t_dirty a ∖ {[n]}) ({[n]} ∪ t_logged a)
    (if bool_decide (n ∈ t_logged a) then t_quota a else pred (t_quota a)).
Definition t_drop (n : Z) (a : tspec) : tspec :=
  mktspec (t_view a) (delete n (t_held a)) (t_dirty a) (t_logged a) (t_quota a).

(** At most this many buffers are locked at once, and an operation that is alone
    may log up to [MAXQUOTA] blocks without running out of buffers. *)
Definition MAXHELD : nat := 3.
Definition MAXQUOTA : nat := 27.

(** How the blocks are seen.  [home n]: block [n] is on the disk and not part of
    the log. *)
Class TxView (S : Type) `{TxOps S} (disksize : Z) (home : Z -> Prop) := {
  trepr : S -> tspec -> Prop;
  home_disk n : home n -> 0 <= n < disksize;
  t_len s a n : trepr s a -> length (t_view a n) = BSIZE;
  t_read_ok s a n : trepr s a -> 0 <= n < disksize -> t_held a !! n = None ->
    (size (t_held a) < MAXHELD)%nat ->
    wp (tx_read 1 n) s (fun b s' => trepr s' (t_take n b a));
  t_data_ok s a n b : trepr s a -> t_held a !! n = Some b ->
    wp (tx_data b) s (fun d s' => d = t_view a n /\ s' = s);
  t_set_ok s a n b d : trepr s a -> t_held a !! n = Some b -> length d = BSIZE ->
    wp (tx_set b d) s (fun _ s' => trepr s' (t_put n d a));
  t_log_ok s a n b : trepr s a -> t_held a !! n = Some b -> home n ->
    n ∈ t_logged a \/ (0 < t_quota a)%nat ->
    wp (tx_log b) s (fun _ s' => trepr s' (t_note n a));
  t_relse_ok s a n b : trepr s a -> t_held a !! n = Some b -> n ∉ t_dirty a ->
    wp (tx_relse b) s (fun _ s' => trepr s' (t_drop n a));
}.

(** No buffer is locked and nothing waits to be logged. *)
Definition at_rest (a : tspec) : Prop := t_held a = ∅ /\ t_dirty a = ∅.

(** Inside and outside of an operation; what the disk itself holds. *)
Class TxDisk (S : Type) `{TxOps S} (disksize : Z) (home : Z -> Prop) := {
  t_in : TxView S disksize home;
  t_out : TxView S disksize home;
  t_disk : S -> Z -> block;
  t_begin_ok s a : trepr (TxView := t_out) s a -> at_rest a ->
    wp tx_begin s (fun _ s' => exists a', trepr (TxView := t_in) s' a' /\ at_rest a' /\
      t_logged a' = ∅ /\ t_quota a' = 10%nat /\ forall n, home n -> t_view a' n = t_view a n);
  t_end_ok s a : trepr (TxView := t_in) s a -> at_rest a ->
    wp tx_end s (fun _ s' => exists a', trepr (TxView := t_out) s' a' /\ at_rest a' /\
      forall n, home n -> t_view a' n = t_view a n);
  t_disk_ok s a n : trepr (TxView := t_out) s a -> at_rest a -> home n -> t_disk s n = t_view a n;
}.

(** ** [log.c] keeps it *)

Section Log.
Context {C : Type} {BO : BufOps C} {disksize : Z} {BC : BufferCache C disksize}.

(** Where the log is. *)
Context (lstart lsz : Z).

#[global] Instance log_tx_ops : TxOps (lst C) := {|
  tx_read d n := inc (bo_read d n);
  tx_data b := inc (bo_data b);
  tx_set b d := inc (bo_set b d);
  tx_log := log_write;
  tx_relse b := inc (bo_relse b);
  tx_begin := begin_op;
  tx_end := end_op;
|}.

Definition log_home (n : Z) : Prop := 0 <= n < disksize /\ ~ (lstart <= n < lstart + lsz).

(** [op]: an operation is running, and it is the only one. *)
Record lrepr (op : bool) (s : lst C) (a : tspec) (cs : cspec) (bs : list Z) : Prop := {
  lr_cache : repr (cache s) cs;
  lr_txn : txn (disksize := disksize) (lg s) cs bs;
  lr_start : start (lg s) = lstart;
  lr_size : lsize (lg s) = lsz;
  lr_open : outstanding (lg s) = if op then 1 else 0;
  lr_comm : committing (lg s) = 0;
  lr_view n : t_view a n = cur cs n;
  lr_held : t_held a = cs_held cs;
  lr_logged : t_logged a = list_to_set bs;
  lr_clean n : n ∉ t_dirty a -> n ∉ bs -> cur cs n = cs_disk cs n;
  lr_quota : (length bs + t_quota a <= MAXQUOTA)%nat;
  lr_room : Z.of_nat (length bs + t_quota a) < lsz - 1;
  lr_idle : op = false -> bs = [] /\ t_quota a = 0%nat;
}.

Definition log_trepr (op : bool) (s : lst C) (a : tspec) : Prop := exists cs bs, lrepr op s a cs bs.

Lemma wp_inc {A} (m : M C A) l (c : C) Q :
  wp m c (fun x c' => Q x (mklst l c')) -> wp (inc m) (mklst l c) Q.
Proof. intros H. apply wp_zoom. exact H. Qed.

Lemma mem_size (c : C) cs bs : repr c cs -> cs_pin cs = list_to_set bs -> NoDup bs ->
  (size (cs_mem cs) <= size (cs_held cs) + length bs)%nat.
Proof.
  intros HR Hp HN. rewrite <- !size_dom, <- (size_list_to_set (C := gset Z) bs) by done.
  assert (Hu : (size (dom (cs_held cs) ∪ list_to_set bs) <=
                size (dom (cs_held cs)) + size (list_to_set bs : gset Z))%nat).
  { rewrite size_union_alt. apply Nat.add_le_mono_l, subseteq_size. set_solver. }
  etrans; [|exact Hu]. apply subseteq_size. intros n Hn.
  apply elem_of_dom, (repr_mem c cs n HR) in Hn. rewrite Hp in Hn.
  rewrite elem_of_union, elem_of_dom. done.
Qed.

Lemma log_read_ok op s a n : log_trepr op s a -> 0 <= n < disksize -> t_held a !! n = None ->
  (size (t_held a) < MAXHELD)%nat ->
  wp (tx_read 1 n) s (fun b s' => log_trepr op s' (t_take n b a)).
Proof.
  intros (cs & bs & HR) Hn Hh Hs. destruct s as [l c]. apply wp_inc.
  destruct HR as [HC HT E1 E2 E3 E4 E5 E6 E7 E8 E9 E10 E11]. cbn in *. rewrite E6 in *.
  destruct (read_ok c cs n HC Hn Hh) as (b & c' & E & R).
  { right. pose proof (mem_size c cs bs HC (tx_pin _ _ _ HT) (ho_nodup _ _ (tx_homes _ _ _ HT))).
    unfold MAXHELD, MAXQUOTA, NBUF in *. lia. }
  eapply wp_of; [exact E|]. exists (read_spec n b cs), bs. split; cbn; auto.
  - destruct HT. by split.
  - intros m. by rewrite E5, cur_read.
  - congruence.
  - intros m Hm Hbs. rewrite cur_read. cbn. auto.
Qed.

Lemma log_data_ok op s a n b : log_trepr op s a -> t_held a !! n = Some b ->
  wp (tx_data b) s (fun d s' => d = t_view a n /\ s' = s).
Proof.
  intros (cs & bs & HR) Hh. destruct s as [l c]. apply wp_inc.
  rewrite (lr_held _ _ _ _ _ HR) in Hh.
  destruct (data_ok c cs n b (lr_cache _ _ _ _ _ HR) Hh) as [E _].
  eapply wp_of; [exact E|]. by rewrite (lr_view _ _ _ _ _ HR).
Qed.

Lemma cur_set_ne n d cs m : m <> n -> cur (set_spec n d cs) m = cur cs m.
Proof. intros H. unfold cur. cbn. by rewrite lookup_insert_ne. Qed.

Lemma log_set_ok op s a n b d : log_trepr op s a -> t_held a !! n = Some b -> length d = BSIZE ->
  wp (tx_set b d) s (fun _ s' => log_trepr op s' (t_put n d a)).
Proof.
  intros (cs & bs & HR) Hh Hd. destruct s as [l c]. apply wp_inc.
  destruct HR as [HC HT E1 E2 E3 E4 E5 E6 E7 E8 E9 E10 E11]. cbn in *. rewrite E6 in *.
  destruct (set_ok c cs n b d HC Hh Hd) as (c' & E & R).
  eapply wp_of; [exact E|]. exists (set_spec n d cs), bs. split; cbn; auto.
  - destruct HT. by split.
  - intros m. unfold write_disk. destruct (Z.eqb_spec m n) as [->|Hne].
    + by rewrite cur_set.
    + by rewrite cur_set_ne.
  - intros m Hm Hbs. rewrite cur_set_ne by set_solver. apply E8; set_solver.
Qed.

Lemma log_log_ok op s a n b : log_trepr op s a -> t_held a !! n = Some b -> log_home n ->
  n ∈ t_logged a \/ (0 < t_quota a)%nat ->
  wp (tx_log b) s (fun _ s' => log_trepr op s' (t_note n a)).
Proof.
  intros (cs & bs & HR) Hh [Hr Hl] Hq. destruct s as [l c].
  destruct HR as [HC HT E1 E2 E3 E4 E5 E6 E7 E8 E9 E10 E11]. cbn in *. rewrite E6, E7 in *.
  assert (Hnl : ~ in_log l n) by (unfold in_log; by rewrite E1, E2).
  rewrite elem_of_list_to_set in Hq.
  assert (op = true) as ->.
  { destruct op; [done|]. destruct (E11 eq_refl) as [-> E0]. rewrite E0 in Hq. destruct Hq as [Hq|]; [set_solver|lia]. }
  destruct (log_write_run l c cs bs n b) as (l' & c' & E & R & T & Eo & Ec & Es & Ez); auto; try lia.
  eapply wp_of; [exact E|]. exists (pin_spec n cs), (if bool_decide (n ∈ bs) then bs else bs ++ [n]).
  assert (Hmem : forall m, m ∈ (if bool_decide (n ∈ bs) then bs else bs ++ [n]) <-> m = n \/ m ∈ bs).
  { intros m. case_bool_decide; set_solver. }
  split; cbn; auto; try congruence.
  - rewrite E7. apply set_eq. intros m. rewrite elem_of_union, !elem_of_list_to_set, Hmem. set_solver.
  - intros m Hm Hbs. rewrite Hmem in Hbs. apply E8; [set_solver|tauto].
  - rewrite E7. rewrite (bool_decide_ext (n ∈ (list_to_set bs : gset Z)) (n ∈ bs)) by apply elem_of_list_to_set.
    case_bool_decide; [done|]. destruct Hq; [done|]. rewrite length_app. cbn. lia.
  - rewrite E7. rewrite (bool_decide_ext (n ∈ (list_to_set bs : gset Z)) (n ∈ bs)) by apply elem_of_list_to_set.
    case_bool_decide; [done|]. destruct Hq; [done|]. rewrite length_app. cbn. lia.
Qed.

Lemma log_relse_ok op s a n b : log_trepr op s a -> t_held a !! n = Some b -> n ∉ t_dirty a ->
  wp (tx_relse b) s (fun _ s' => log_trepr op s' (t_drop n a)).
Proof.
  intros (cs & bs & HR) Hh Hd. destruct s as [l c]. apply wp_inc.
  destruct HR as [HC HT E1 E2 E3 E4 E5 E6 E7 E8 E9 E10 E11]. cbn in *. rewrite E6 in *.
  assert (Hok : n ∈ cs_pin cs \/ cur cs n = cs_disk cs n).
  { rewrite (tx_pin _ _ _ HT). destruct (decide (n ∈ bs)); [left|right]; auto. set_solver. }
  destruct (relse_ok c cs n b HC Hh Hok) as (c' & E & R).
  assert (Hcur : forall m, cur (relse_spec n cs) m = cur cs m).
  { intros m. unfold cur. cbn. case_bool_decide; [done|].
    destruct (decide (m = n)) as [->|Hne]; [|by rewrite lookup_delete_ne].
    rewrite lookup_delete_eq. cbn. destruct Hok as [?|Hok]; [done|]. by symmetry. }
  eapply wp_of; [exact E|]. exists (relse_spec n cs), bs. split; cbn; auto.
  - destruct HT. by split.
  - intros m. by rewrite Hcur.
  - congruence.
  - intros m Hm Hbs. rewrite Hcur. auto.
Qed.

(** With nothing locked and no block pinned the cache holds what the disk does. *)
Lemma cur_idle (c : C) cs l : repr c cs -> idle cs -> txn (disksize := disksize) l cs [] ->
  forall n, cur cs n = cs_disk cs n.
Proof.
  intros HC HI HT n.
  assert (Hm : cs_mem cs = ∅).
  { apply map_empty. intros m. apply (cur_out c); auto. rewrite (tx_pin _ _ _ HT). set_solver. }
  unfold cur. by rewrite Hm, lookup_empty.
Qed.

Lemma log_begin_ok s a : log_trepr false s a -> at_rest a -> 12 <= lsz ->
  wp tx_begin s (fun _ s' => exists a', log_trepr true s' a' /\ at_rest a' /\
    t_logged a' = ∅ /\ t_quota a' = 10%nat /\ forall n, log_home n -> t_view a' n = t_view a n).
Proof.
  intros (cs & bs & HR) [Hh Hd] Hz. destruct s as [l c].
  destruct HR as [HC HT E1 E2 E3 E4 E5 E6 E7 E8 E9 E10 E11]. cbn in *.
  destruct (E11 eq_refl) as [-> Hq]. eapply wp_of.
  { apply begin_op_run; [done|]. destruct (tx_names _ _ _ HT) as [-> _]. rewrite E3. cbn. lia. }
  rewrite E3. exists (mktspec (t_view a) ∅ ∅ ∅ 10). split_and!; auto; [|done].
  exists cs, []. split; cbn; auto; try lia; try congruence.
  - destruct HT as [[] [] ? ?]. split; [by split|by split|done|done].
  - intros n _. apply E8; set_solver.
  - unfold MAXQUOTA. lia.
Qed.

(** With nothing logged, [end_op] only closes the operation. *)
Lemma end_op_empty l (c : C) : outstanding l = 1 -> committing l = 0 -> lh_n l = 0 ->
  end_op (mklst l c) = Ret true (mklst (set_outstanding 0 l) c).
Proof.
  intros Ho Hc Hn. unfold end_op, lget, lmod, commit, gets, modify, bind, ret. cbn.
  rewrite Hc, Ho. cbn. unfold set_committing, set_outstanding. cbn. rewrite Hn. cbn. by rewrite Hc.
Qed.

Lemma txn_close l l' cs cs' bs : txn (disksize := disksize) l cs bs -> start l' = start l ->
  lsize l' = lsize l -> ldev l' = ldev l -> lh_block l' = lh_block l -> lh_n l' = 0 ->
  cs_pin cs' = ∅ -> txn (disksize := disksize) l' cs' [].
Proof.
  intros [[] [] ? ?] E1 E2 E3 E4 E5 E6. split; [split; by rewrite ?E1, ?E2, ?E3, ?E4| |done|done].
  split; [apply NoDup_nil_2|cbn; lia|set_solver].
Qed.

(** The log is empty, nothing is locked and the disk is current. *)
Lemma log_closed l (c : C) cs : repr c cs -> idle cs -> txn (disksize := disksize) l cs [] ->
  start l = lstart -> lsize l = lsz -> outstanding l = 0 -> committing l = 0 -> 12 <= lsz ->
  log_trepr false (mklst l c) (mktspec (cs_disk cs) ∅ ∅ ∅ 0).
Proof.
  intros HC HI HT E1 E2 E3 E4 Hz. pose proof (cur_idle c cs l HC HI HT) as Hc.
  exists cs, []. split; cbn; auto; try lia.
Qed.

Lemma log_end_ok s a : log_trepr true s a -> at_rest a -> 12 <= lsz ->
  wp tx_end s (fun _ s' => exists a', log_trepr false s' a' /\ at_rest a' /\
    forall n, log_home n -> t_view a' n = t_view a n).
Proof.
  intros (cs & bs & HR) [Hh Hd] Hz. destruct s as [l c].
  destruct HR as [HC HT E1 E2 E3 E4 E5 E6 E7 E8 E9 E10 _]. cbn in *.
  assert (HI : idle cs) by (unfold idle; congruence).
  destruct (decide (bs = [])) as [->|Hne].
  - eapply wp_of; [apply end_op_empty; auto; apply (tx_names _ _ _ HT)|].
    eexists. split; [apply log_closed; eauto|split; [done|]].
    + eapply txn_close; eauto; [apply (tx_names _ _ _ HT)|apply (tx_pin _ _ _ HT)].
    + intros n _. cbn. rewrite E5. symmetry. apply E8; set_solver.
  - destruct (end_op_last l c cs bs HC HI HT Hne E3 E4) as (c' & E & R).
    destruct (commit_final l cs bs (tx_area _ _ _ HT) (tx_homes _ _ _ HT) (repr_dlen c cs _ HC)) as [_ Hf].
    eapply wp_of; [exact E|]. eexists. split; [apply log_closed; [exact R|done|by eapply txn_close|done..]|split; [done|]].
    intros n [Hr Hl]. cbn. rewrite Hf by (unfold in_log; by rewrite E1, E2).
    rewrite E5. case_bool_decide; [done|]. symmetry. apply E8; set_solver.
Qed.

Definition log_tx_view (op : bool) : TxView (lst C) disksize log_home.
Proof.
  refine (Build_TxView (lst C) log_tx_ops disksize _ (log_trepr op)
            _ _ (log_read_ok op) (log_data_ok op) (log_set_ok op) (log_log_ok op) (log_relse_ok op)).
  - by intros n [? _].
  - intros s a n (cs & bs & HR). rewrite (lr_view _ _ _ _ _ HR). apply (repr_len _ _ _ (lr_cache _ _ _ _ _ HR)).
Defined.

End Log.

(** The log of a disk with room for an operation keeps the contract. *)
Definition log_tx_disk {C : Type} {BO : BufOps C} {disksize : Z} {BC : BufferCache C disksize}
    (lstart lsz : Z) (Hz : 12 <= lsz) :
  TxDisk (lst C) disksize (log_home (disksize := disksize) lstart lsz).
Proof.
  refine (Build_TxDisk (lst C) log_tx_ops disksize _ (log_tx_view lstart lsz true) (log_tx_view lstart lsz false)
            (fun s => dev_disk (cache s)) _ _ _).
  - intros s a H1 H2. by apply log_begin_ok.
  - intros s a H1 H2. by apply log_end_ok.
  - intros s a n (cs & bs & HR) [Hh Hd] _. cbn. rewrite (repr_disk _ _ (lr_cache _ _ _ _ _ _ _ HR)).
    rewrite (lr_view _ _ _ _ _ _ _ HR). symmetry. destruct (lr_idle _ _ _ _ _ _ _ HR eq_refl) as [-> _].
    apply (lr_clean _ _ _ _ _ _ _ HR); set_solver.
Defined.
