(* ===== verification/Fs.v ===== *)
(** * The file system ([fs.c], [fs.h], [file.h], [stat.h])

    Blocks, inodes, directories and paths, over any transactional disk that keeps
    the promises of [Tx].  An inode pointer is an index into [icache.inode], a
    buffer pointer is a buffer's index, a C string is the list of its bytes before
    the NUL.  [readi] returns the bytes it stores at [dst] with its result, and
    [writei] takes the bytes at [src].  Code under [icache.lock] is one step. *)
From S2P Require Import Prelude Str Sleeplock Bio Log Tx.

Definition ROOTINO : Z := 1.
Definition ROOTDEV : Z := 1.
Definition NDIRECT : nat := 12.
Definition NINDIRECT : nat := 128.
Definition MAXFILE : Z := 140.
Definition IPB : Z := 8.
Definition BPB : Z := 4096.
Definition NINODE : nat := 50.
Definition NDEV : Z := 10.
Definition DIRSIZ : nat := 14.
Definition T_DIR : Z := 1.
Definition T_FILE : Z := 2.
Definition T_DEV : Z := 3.

Record superblock := mksb {
  sb_size : Z;
  sb_nblocks : Z;
  sb_ninodes : Z;
  sb_nlog : Z;
  sb_logstart : Z;
  sb_inodestart : Z;
  sb_bmapstart : Z;
}.

Record inode := mkinode {
  i_dev : Z;
  i_inum : Z;
  i_ref : Z;
  i_lock : sleeplock;
  i_valid : Z;
  i_type : Z;
  i_major : Z;
  i_minor : Z;
  i_nlink : Z;
  i_size : Z;
  i_addrs : list Z;
}.

Definition set_ref v x := mkinode (i_dev x) (i_inum x) v (i_lock x) (i_valid x) (i_type x)
  (i_major x) (i_minor x) (i_nlink x) (i_size x) (i_addrs x).
Definition set_ilock v x := mkinode (i_dev x) (i_inum x) (i_ref x) v (i_valid x) (i_type x)
  (i_major x) (i_minor x) (i_nlink x) (i_size x) (i_addrs x).
Definition set_valid v x := mkinode (i_dev x) (i_inum x) (i_ref x) (i_lock x) v (i_type x)
  (i_major x) (i_minor x) (i_nlink x) (i_size x) (i_addrs x).
Definition set_type v x := mkinode (i_dev x) (i_inum x) (i_ref x) (i_lock x) (i_valid x) v
  (i_major x) (i_minor x) (i_nlink x) (i_size x) (i_addrs x).
Definition set_majmin j n x := mkinode (i_dev x) (i_inum x) (i_ref x) (i_lock x) (i_valid x)
  (i_type x) j n (i_nlink x) (i_size x) (i_addrs x).
Definition set_nlink v x := mkinode (i_dev x) (i_inum x) (i_ref x) (i_lock x) (i_valid x)
  (i_type x) (i_major x) (i_minor x) v (i_size x) (i_addrs x).
Definition set_isize v x := mkinode (i_dev x) (i_inum x) (i_ref x) (i_lock x) (i_valid x)
  (i_type x) (i_major x) (i_minor x) (i_nlink x) v (i_addrs x).
Definition set_addr (i : nat) (v : Z) x := mkinode (i_dev x) (i_inum x) (i_ref x) (i_lock x)
  (i_valid x) (i_type x) (i_major x) (i_minor x) (i_nlink x) (i_size x) (<[i := v]> (i_addrs x)).

(** [icache] with the super block and the disk below. *)
Record fsst (S : Type) := mkfs { tx : S; fsb : superblock; icache : list inode }.
Arguments mkfs {S} tx fsb icache.
Arguments tx {S} f.
Arguments fsb {S} f.
Arguments icache {S} f.

Definition inode0 : inode := mkinode 0 0 0 initsleeplock 0 0 0 0 0 0 (repeat 0 (S NDIRECT)).

Record stat := mkstat { st_type : Z; st_dev : Z; st_ino : Z; st_nlink : Z; st_size : Z }.

(** ** Structures in a block *)

Definition get16 (d : list Z) (o : nat) : Z := nth o d 0 + 256 * nth (o + 1) d 0.
Definition put16 (d : list Z) (o : nat) (v : Z) : list Z := put_bytes d o [u8 v; u8 (v / 256)].

Definition decode_sb (d : block) : superblock :=
  mksb (get32 d 0) (get32 d 4) (get32 d 8) (get32 d 12) (get32 d 16) (get32 d 20) (get32 d 24).

Definition IBLOCK (i : Z) (sb : superblock) : Z := u32 (i / IPB + sb_inodestart sb).
Definition BBLOCK (b : Z) (sb : superblock) : Z := u32 (b / BPB + sb_bmapstart sb).

(** The offset of inode [inum]'s [struct dinode] in its block. *)
Definition dinode_off (inum : Z) : nat := Z.to_nat (64 * (inum mod IPB)).

(** [dip->type], .., [dip->addrs] into the inode. *)
Definition load_dinode (d : block) (o : nat) (x : inode) : inode :=
  mkinode (i_dev x) (i_inum x) (i_ref x) (i_lock x) (i_valid x)
    (s16 (get16 d o)) (s16 (get16 d (o + 2))) (s16 (get16 d (o + 4))) (s16 (get16 d (o + 6)))
    (get32 d (o + 8)) ((fun i => get32 d (o + 12 + 4 * i)) <$> indices (S NDIRECT)).

Fixpoint put_words (d : block) (o : nat) (l : list Z) : block :=
  match l with
  | [] => d
  | x :: l => put_words (put32 d o x) (o + 4) l
  end.

(** The inode into [dip->type], .., [dip->addrs]. *)
Definition store_dinode (x : inode) (o : nat) (d : block) : block :=
  let d := put16 d o (i_type x) in
  let d := put16 d (o + 2) (i_major x) in
  let d := put16 d (o + 4) (i_minor x) in
  let d := put16 d (o + 6) (i_nlink x) in
  let d := put32 d (o + 8) (i_size x) in
  put_words d (o + 12) (i_addrs x).

(** ** The free map *)

Definition mask (bi : Z) : Z := Z.shiftl 1 (bi mod 8).
Definition byte_of (d : block) (bi : Z) : Z := nth (Z.to_nat (bi / 8)) d 0.
Definition bit_free (d : block) (bi : Z) : bool := Z.land (byte_of d bi) (mask bi) =? 0.
Definition mark_bit (d : block) (bi : Z) : block :=
  <[Z.to_nat (bi / 8) := Z.lor (byte_of d bi) (mask bi)]> d.
Definition clear_bit (d : block) (bi : Z) : block :=
  <[Z.to_nat (bi / 8) := Z.land (byte_of d bi) (Z.lnot (mask bi))]> d.

(** [balloc]'s inner loop from [bi] on, for the map block of [b]. *)
Fixpoint scan_bits (d : block) (b size bi : Z) (fuel : nat) : option Z :=
  match fuel with
  | O => None
  | S k =>
      if (bi <? BPB) && (b + bi <? size) then
        if bit_free d bi then Some bi else scan_bits d b size (bi + 1) k
      else None
  end.

(** ** Names *)

(** Two byte strings side by side in memory, at 0 and at 16. *)
Definition two_names (s t : list Z) : mem :=
  fun a => if a <? 16 then nth (Z.to_nat a) s 0 else nth (Z.to_nat (a - 16)) t 0.

Definition namecmp (s t : list Z) : Z := strncmp (two_names s t) 0 16 DIRSIZ.

(** [strncpy(de.name, name, DIRSIZ)]. *)
Definition ncopy (name : list Z) : list Z :=
  (fun i => strncpy (two_names [] name) 0 16 (Z.of_nat DIRSIZ) (Z.of_nat i)) <$> indices DIRSIZ.

Definition de_inum (de : list Z) : Z := get16 de 0.
Definition de_name (de : list Z) : list Z := drop 2 de.
Definition mkdirent (inum : Z) (name : list Z) : list Z := [u8 inum; u8 (inum / 256)] ++ ncopy name.

Definition slash : Z := 47.

Fixpoint skip_slashes (p : list Z) : list Z :=
  match p with
  | c :: r => if c =? slash then skip_slashes r else p
  | [] => []
  end.

(** The bytes up to the next slash, and the rest. *)
Fixpoint split_elem (p : list Z) : list Z * list Z :=
  match p with
  | c :: r => if c =? slash then ([], p)
              else let '(e, q) := split_elem r in (c :: e, q)
  | [] => ([], [])
  end.

(** The buffer [name] after an element has been copied into it. *)
Definition set_name (name e : list Z) : list Z :=
  if bool_decide (DIRSIZ <= length e)%nat then take DIRSIZ e
  else put_bytes (put_bytes name 0 e) (length e) [0].

Definition skipelem (path name : list Z) : option (list Z * list Z) :=
  match skip_slashes path with
  | [] => None
  | p => let '(e, q) := split_elem p in Some (skip_slashes q, set_name name e)
  end.

Section Fs.
Context {S : Type} {TO : TxOps S}.

(** [me]: the pid of the running process; the device table. *)
Context (me : Z).
Context (dev_read : Z -> option (Z -> M (fsst S) (Z * list Z))).
Context (dev_write : Z -> option (list Z -> M (fsst S) Z)).

Abbreviation F := (M (fsst S)).

Definition lift {A} (m : M S A) : F A := zoom tx (fun t s => mkfs t (fsb s) (icache s)) m.
Definition geti (ip : nat) : F inode := fun s => deref (icache s !! ip) s.
Definition seti (ip : nat) (f : inode -> inode) : F unit :=
  geti ip ;; modify (fun s => mkfs (tx s) (fsb s) (alter f ip (icache s))).
Definition set_sb (sb : superblock) : F unit :=
  modify (fun s => mkfs (tx s) sb (icache s)).

(** ** Blocks *)

Definition readsb (dev : Z) : F superblock :=
  let! bp := lift (tx_read dev 1) in
  let! d := lift (tx_data bp) in
  lift (tx_relse bp) ;;
  ret (decode_sb d).

Definition bzero (dev bno : Z) : F unit :=
  let! bp := lift (tx_read dev bno) in
  lift (tx_set bp (repeat 0 BSIZE)) ;;
  lift (tx_log bp) ;;
  lift (tx_relse bp).

Fixpoint balloc_loop (dev : Z) (fuel : nat) (b : Z) : F Z :=
  let! sb := gets fsb in
  if b <? sb_size sb then
    match fuel with
    | O => fault "fuel"
    | Datatypes.S k =>
        let! bp := lift (tx_read dev (BBLOCK b sb)) in
        let! d := lift (tx_data bp) in
        match scan_bits d b (sb_size sb) 0 (Z.to_nat BPB) with
        | Some bi =>
            lift (tx_set bp (mark_bit d bi)) ;;
            lift (tx_log bp) ;;
            lift (tx_relse bp) ;;
            bzero dev (b + bi) ;;
            ret (b + bi)
        | None =>
            lift (tx_relse bp) ;;
            balloc_loop dev k (b + BPB)
        end
    end
  else panic "balloc: out of blocks".

Definition balloc (dev : Z) : F Z :=
  let! sb := gets fsb in
  balloc_loop dev (Z.to_nat (sb_size sb / BPB + 1)) 0.

Definition bfree (dev b : Z) : F unit :=
  let! sb := readsb dev in
  set_sb sb ;;
  let! bp := lift (tx_read dev (BBLOCK b sb)) in
  let bi := b mod BPB in
  let! d := lift (tx_data bp) in
  if bit_free d bi then panic "freeing free block"
  else
    lift (tx_set bp (clear_bit d bi)) ;;
    lift (tx_log bp) ;;
    lift (tx_relse bp).

(** ** Inodes *)

Definition iinit (dev : Z) : F unit :=
  for_each (indices NINODE) (fun i => seti i (set_ilock initsleeplock)) ;;
  let! sb := readsb dev in
  set_sb sb.

(** The first entry for the inode, and the first free one seen before it. *)
Fixpoint iget_scan (dev inum : Z) (l : list inode) (i : nat) (empty : option nat)
  : option nat * option nat :=
  match l with
  | [] => (None, empty)
  | x :: l =>
      if (0 <? i_ref x) && (i_dev x =? dev) && (i_inum x =? inum) then (Some i, empty)
      else iget_scan dev inum l (Datatypes.S i)
             (match empty with
              | None => if i_ref x =? 0 then Some i else None
              | Some _ => empty
              end)
  end.

Definition iget (dev inum : Z) : F nat :=
  let! l := gets icache in
  match iget_scan dev inum l 0 None with
  | (Some ip, _) => seti ip (fun x => set_ref (s32 (i_ref x + 1)) x) ;; ret ip
  | (None, None) => panic "iget: no inodes"
  | (None, Some ip) =>
      seti ip (fun x => mkinode dev inum 1 (i_lock x) 0 (i_type x) (i_major x) (i_minor x)
                          (i_nlink x) (i_size x) (i_addrs x)) ;;
      ret ip
  end.

Definition ialloc_try (dev type : Z) (inum : nat) : F (option nat) :=
  let! sb := gets fsb in
  let! bp := lift (tx_read dev (IBLOCK (Z.of_nat inum) sb)) in
  let! d := lift (tx_data bp) in
  let o := dinode_off (Z.of_nat inum) in
  if get16 d o =? 0 then
    lift (tx_set bp (put16 (put_bytes d o (repeat 0 64)) o type)) ;;
    lift (tx_log bp) ;;
    lift (tx_relse bp) ;;
    let! ip := iget dev (Z.of_nat inum) in
    ret (Some ip)
  else
    lift (tx_relse bp) ;;
    ret None.

Definition ialloc (dev type : Z) : F nat :=
  let! sb := gets fsb in
  let! r := for_find (seq 1 (pred (Z.to_nat (sb_ninodes sb)))) (ialloc_try dev type) in
  match r with
  | Some ip => ret ip
  | None => panic "ialloc: no inodes"
  end.

Definition iupdate (ip : nat) : F unit :=
  let! x := geti ip in
  let! sb := gets fsb in
  let! bp := lift (tx_read (i_dev x) (IBLOCK (i_inum x) sb)) in
  let! d := lift (tx_data bp) in
  lift (tx_set bp (store_dinode x (dinode_off (i_inum x)) d)) ;;
  lift (tx_log bp) ;;
  lift (tx_relse bp).

Definition idup (ip : nat) : F nat :=
  seti ip (fun x => set_ref (s32 (i_ref x + 1)) x) ;; ret ip.

(** The inode's sleep lock. *)
Definition lock_inode (ip : nat) : F unit :=
  let! x := geti ip in
  fun s => match acquiresleep me (i_lock x) with
           | Ret _ lk => seti ip (set_ilock lk) s
           | Stop e => Stop e
           | Wait c _ => Wait c s
           end.

Definition unlock_inode (ip : nat) : F unit :=
  let! x := geti ip in
  fun s => match releasesleep (i_lock x) with
           | Ret _ lk => seti ip (set_ilock lk) s
           | Stop e => Stop e
           | Wait c _ => Wait c s
           end.

Definition holding_inode (ip : nat) : F bool :=
  let! x := geti ip in
  fun s => match holdingsleep me (i_lock x) with
           | Ret r _ => Ret r s
           | Stop e => Stop e
           | Wait c _ => Wait c s
           end.

Definition ilock (ip : nat) : F unit :=
  let! x := geti ip in
  if i_ref x <? 1 then panic "ilock"
  else
    lock_inode ip ;;
    let! x := geti ip in
    if i_valid x =? 0 then
      let! sb := gets fsb in
      let! bp := lift (tx_read (i_dev x) (IBLOCK (i_inum x) sb)) in
      let! d := lift (tx_data bp) in
      seti ip (load_dinode d (dinode_off (i_inum x))) ;;
      lift (tx_relse bp) ;;
      seti ip (set_valid 1) ;;
      let! x := geti ip in
      if i_type x =? 0 then panic "ilock: no type" else ret tt
    else ret tt.

Definition iunlock (ip : nat) : F unit :=
  let! h := holding_inode ip in
  let! x := geti ip in
  if negb h || (i_ref x <? 1) then panic "iunlock"
  else unlock_inode ip.

(** ** Contents *)

Definition bmap (ip : nat) (bn : Z) : F Z :=
  let! x := geti ip in
  if bn <? Z.of_nat NDIRECT then
    let! addr := deref (i_addrs x !! Z.to_nat bn) in
    if addr =? 0 then
      let! addr := balloc (i_dev x) in
      seti ip (set_addr (Z.to_nat bn) addr) ;;
      ret addr
    else ret addr
  else
    let bn := bn - Z.of_nat NDIRECT in
    if bn <? Z.of_nat NINDIRECT then
      let! addr := deref (i_addrs x !! NDIRECT) in
      let! addr :=
        (if addr =? 0 then
           let! addr := balloc (i_dev x) in
           seti ip (set_addr NDIRECT addr) ;;
           ret addr
         else ret addr) in
      let! bp := lift (tx_read (i_dev x) addr) in
      let! d := lift (tx_data bp) in
      let addr := get32 d (4 * Z.to_nat bn) in
      let! addr :=
        (if addr =? 0 then
           let! addr := balloc (i_dev x) in
           lift (tx_set bp (put32 d (4 * Z.to_nat bn) addr)) ;;
           lift (tx_log bp) ;;
           ret addr
         else ret addr) in
      lift (tx_relse bp) ;;
      ret addr
    else panic "bmap: out of range".

Definition trunc_direct (ip i : nat) : F unit :=
  let! x := geti ip in
  let! addr := deref (i_addrs x !! i) in
  if nz addr then
    bfree (i_dev x) addr ;;
    seti ip (set_addr i 0)
  else ret tt.

Definition trunc_entry (dev : Z) (bp j : nat) : F unit :=
  let! d := lift (tx_data bp) in
  when (nz (get32 d (4 * j))) (bfree dev (get32 d (4 * j))).

Definition itrunc (ip : nat) : F unit :=
  for_each (indices NDIRECT) (trunc_direct ip) ;;
  let! x := geti ip in
  let! addr := deref (i_addrs x !! NDIRECT) in
  when (nz addr)
    (let! bp := lift (tx_read (i_dev x) addr) in
     for_each (indices NINDIRECT) (trunc_entry (i_dev x) bp) ;;
     lift (tx_relse bp) ;;
     bfree (i_dev x) addr ;;
     seti ip (set_addr NDIRECT 0)) ;;
  seti ip (set_isize 0) ;;
  iupdate ip.

Definition iput (ip : nat) : F unit :=
  lock_inode ip ;;
  let! x := geti ip in
  when (nz (i_valid x) && (i_nlink x =? 0) && (i_ref x =? 1))
    (itrunc ip ;;
     seti ip (set_type 0) ;;
     iupdate ip ;;
     seti ip (set_valid 0)) ;;
  unlock_inode ip ;;
  seti ip (fun x => set_ref (s32 (i_ref x - 1)) x).

Definition iunlockput (ip : nat) : F unit := iunlock ip ;; iput ip.

Definition stati (ip : nat) : F stat :=
  let! x := geti ip in
  ret (mkstat (i_type x) (s32 (i_dev x)) (i_inum x) (i_nlink x) (i_size x)).

(** [readi]'s loop: the bytes from [off] on until [n] are read. *)
Fixpoint readi_loop (fuel ip : nat) (tot n off : Z) : F (list Z) :=
  if tot <? n then
    match fuel with
    | O => fault "fuel"
    | Datatypes.S k =>
        let! addr := bmap ip (off / 512) in
        let! x := geti ip in
        let! bp := lift (tx_read (i_dev x) addr) in
        let m := Z.min (n - tot) (512 - off mod 512) in
        let! d := lift (tx_data bp) in
        let got := take (Z.to_nat m) (drop (Z.to_nat (off mod 512)) d) in
        lift (tx_relse bp) ;;
        let! rest := readi_loop k ip (tot + m) n (off + m) in
        ret (got ++ rest)
    end
  else ret [].

Definition readi (ip : nat) (off n : Z) : F (Z * list Z) :=
  let! x := geti ip in
  if i_type x =? T_DEV then
    if (i_major x <? 0) || (NDEV <=? i_major x) then ret (-1, [])
    else match dev_read (i_major x) with
         | None => ret (-1, [])
         | Some f => f n
         end
  else if (i_size x <? off) || (u32 (off + n) <? off) then ret (-1, [])
  else
    let n := if i_size x <? u32 (off + n) then i_size x - off else n in
    let! bs := readi_loop (Z.to_nat n) ip 0 n off in
    ret (s32 n, bs).

(** [writei]'s loop, which leaves with [off] past the last byte written. *)
Fixpoint writei_loop (fuel ip : nat) (src : list Z) (tot n off : Z) : F Z :=
  if tot <? n then
    match fuel with
    | O => fault "fuel"
    | Datatypes.S k =>
        let! addr := bmap ip (off / 512) in
        let! x := geti ip in
        let! bp := lift (tx_read (i_dev x) addr) in
        let m := Z.min (n - tot) (512 - off mod 512) in
        let! d := lift (tx_data bp) in
        lift (tx_set bp (put_bytes d (Z.to_nat (off mod 512))
                           (take (Z.to_nat m) (drop (Z.to_nat tot) src)))) ;;
        lift (tx_log bp) ;;
        lift (tx_relse bp) ;;
        writei_loop k ip src (tot + m) n (off + m)
    end
  else ret off.

Definition writei (ip : nat) (src : list Z) (off : Z) : F Z :=
  let n := Z.of_nat (length src) in
  let! x := geti ip in
  if i_type x =? T_DEV then
    if (i_major x <? 0) || (NDEV <=? i_major x) then ret (-1)
    else match dev_write (i_major x) with
         | None => ret (-1)
         | Some f => f src
         end
  else if (i_size x <? off) || (u32 (off + n) <? off) then ret (-1)
  else if MAXFILE * 512 <? u32 (off + n) then ret (-1)
  else
    let! off := writei_loop (Z.to_nat n) ip src 0 n off in
    let! x := geti ip in
    (if (0 <? n) && (i_size x <? off) then
       seti ip (set_isize off) ;;
       iupdate ip
     else ret tt) ;;
    ret (s32 n).

(** ** Directories *)

Fixpoint dirlookup_loop (fuel dp : nat) (name : list Z) (off : Z) : F (option (nat * Z)) :=
  let! x := geti dp in
  if off <? i_size x then
    match fuel with
    | O => fault "fuel"
    | Datatypes.S k =>
        let! (r, de) := readi dp off 16 in
        if negb (r =? 16) then panic "dirlookup read"
        else if de_inum de =? 0 then dirlookup_loop k dp name (off + 16)
        else if namecmp name (de_name de) =? 0 then
          let! ip := iget (i_dev x) (de_inum de) in
          ret (Some (ip, off))
        else dirlookup_loop k dp name (off + 16)
    end
  else ret None.

Definition dirlookup (dp : nat) (name : list Z) : F (option (nat * Z)) :=
  let! x := geti dp in
  if negb (i_type x =? T_DIR) then panic "dirlookup not DIR"
  else dirlookup_loop (Z.to_nat (i_size x / 16 + 1)) dp name 0.

(** The offset of the first empty entry, or the directory's size. *)
Fixpoint empty_loop (fuel dp : nat) (off : Z) : F Z :=
  let! x := geti dp in
  if off <? i_size x then
    match fuel with
    | O => fault "fuel"
    | Datatypes.S k =>
        let! (r, de) := readi dp off 16 in
        if negb (r =? 16) then panic "dirlink read"
        else if de_inum de =? 0 then ret off
        else empty_loop k dp (off + 16)
    end
  else ret off.

Definition dirlink (dp : nat) (name : list Z) (inum : Z) : F Z :=
  let! r := dirlookup dp name in
  match r with
  | Some (ip, _) => iput ip ;; ret (-1)
  | None =>
      let! x := geti dp in
      let! off := empty_loop (Z.to_nat (i_size x / 16 + 1)) dp 0 in
      let! r := writei dp (mkdirent inum name) off in
      if negb (r =? 16) then panic "dirlink" else ret 0
  end.

(** ** Paths *)

Fixpoint namex_loop (fuel : nat) (ip : nat) (path : list Z) (parent : bool) (name : list Z)
  : F (option nat * list Z) :=
  match skipelem path name with
  | None =>
      if parent then iput ip ;; ret (None, name) else ret (Some ip, name)
  | Some (path, name) =>
      match fuel with
      | O => fault "fuel"
      | Datatypes.S k =>
          ilock ip ;;
          let! x := geti ip in
          if negb (i_type x =? T_DIR) then iunlockput ip ;; ret (None, name)
          else if parent && bool_decide (path = []) then iunlock ip ;; ret (Some ip, name)
          else
            let! r := dirlookup ip name in
            match r with
            | None => iunlockput ip ;; ret (None, name)
            | Some (next, _) =>
                iunlockput ip ;;
                namex_loop k next path parent name
            end
      end
  end.

(** [cwd]: the running process's current directory. *)
Definition namex (cwd : nat) (path : list Z) (parent : bool) (name : list Z)
  : F (option nat * list Z) :=
  let! ip := (if bool_decide (hd 0 path = slash) then iget ROOTDEV ROOTINO else idup cwd) in
  namex_loop (length path) ip path parent name.

Definition namei (cwd : nat) (path : list Z) : F (option nat) :=
  let! (r, _) := namex cwd path false (repeat 0 DIRSIZ) in ret r.

Definition nameiparent (cwd : nat) (path name : list Z) : F (option nat * list Z) :=
  namex cwd path true name.

End Fs.
