(* ===== verification/FsBlocks.v ===== *)
(** * Block allocation in the file system ([fs.c]: [readsb], [bzero], [balloc],
    [bfree])

    The rules for stepping through code on a transactional disk, the free map as
    a set of blocks, and the specifications of the allocator. *)
From S2P Require Import Prelude Bio Log LogSpec Tx Fs.

(** ** Whole updates of a block *)

(** Block [n] has been locked, given contents [d], logged and released. *)
Definition upd_blk (n : Z) (d : block) (a : tspec) : tspec :=
  mktspec (write_disk n d (t_view a)) (t_held a) (t_dirty a) ({[n]} ∪ t_logged a)
    (if bool_decide (n ∈ t_logged a) then t_quota a else pred (t_quota a)).

(** [n] can be logged. *)
Definition can_log (n : Z) (a : tspec) : Prop := n ∈ t_logged a \/ (0 < t_quota a)%nat.

Lemma take_drop_id n b a : t_held a !! n = None -> t_drop n (t_take n b a) = a.
Proof. destruct a. unfold t_drop, t_take. cbn. intros H. by rewrite delete_insert_id. Qed.

Lemma update_id n b d a : t_held a !! n = None -> n ∉ t_dirty a ->
  t_drop n (t_note n (t_put n d (t_take n b a))) = upd_blk n d a.
Proof.
  destruct a. unfold t_drop, t_note, t_put, t_take, upd_blk. cbn. intros H Hd.
  rewrite delete_insert_id by done. f_equal. set_solver.
Qed.

Section Steps.
Context {S : Type} {TO : TxOps S} {disksize : Z} {home : Z -> Prop} {TD : TxView S disksize home}.
Implicit Types (t : S) (sb : superblock) (ic : list inode) (a : tspec).

Lemma wp_lift {A} (m : M S A) t sb ic Q :
  wp m t (fun x t' => Q x (mkfs t' sb ic)) -> wp (lift m) (mkfs t sb ic) Q.
Proof. intros H. apply wp_zoom. exact H. Qed.

Lemma f_read {B} t sb ic a n (k : nat -> M (fsst S) B) Q :
  trepr t a -> 0 <= n < disksize -> t_held a !! n = None -> (size (t_held a) < MAXHELD)%nat ->
  (forall b t', trepr t' (t_take n b a) -> wp (k b) (mkfs t' sb ic) Q) ->
  wp (bind (lift (tx_read 1 n)) k) (mkfs t sb ic) Q.
Proof.
  intros HR Hn Hh Hs Hk. apply wp_bind, wp_lift. eapply wp_mono; [by apply t_read_ok|]. eauto.
Qed.

Lemma f_data {B} t sb ic a n b (k : block -> M (fsst S) B) Q :
  trepr t a -> t_held a !! n = Some b -> wp (k (t_view a n)) (mkfs t sb ic) Q ->
  wp (bind (lift (tx_data b)) k) (mkfs t sb ic) Q.
Proof.
  intros HR Hh Hk. apply wp_bind, wp_lift. eapply wp_mono; [by eapply t_data_ok|].
  by intros d t' [-> ->].
Qed.

Lemma f_set {B} t sb ic a n b d (k : unit -> M (fsst S) B) Q :
  trepr t a -> t_held a !! n = Some b -> length d = BSIZE ->
  (forall t', trepr t' (t_put n d a) -> wp (k tt) (mkfs t' sb ic) Q) ->
  wp (bind (lift (tx_set b d)) k) (mkfs t sb ic) Q.
Proof.
  intros HR Hh Hd Hk. apply wp_bind, wp_lift. eapply wp_mono; [by eapply t_set_ok|].
  intros []. eauto.
Qed.

Lemma f_log {B} t sb ic a n b (k : unit -> M (fsst S) B) Q :
  trepr t a -> t_held a !! n = Some b -> home n -> can_log n a ->
  (forall t', trepr t' (t_note n a) -> wp (k tt) (mkfs t' sb ic) Q) ->
  wp (bind (lift (tx_log b)) k) (mkfs t sb ic) Q.
Proof.
  intros HR Hh Hd Hc Hk. apply wp_bind, wp_lift. eapply wp_mono; [by eapply t_log_ok|].
  intros []. eauto.
Qed.

Lemma f_relse' t sb ic a n b (Q : unit -> fsst S -> Prop) :
  trepr t a -> t_held a !! n = Some b -> n ∉ t_dirty a ->
  (forall t', trepr t' (t_drop n a) -> Q tt (mkfs t' sb ic)) ->
  wp (lift (tx_relse b)) (mkfs t sb ic) Q.
Proof.
  intros HR Hh Hd Hk. apply wp_lift. eapply wp_mono; [by eapply t_relse_ok|].
  intros []. eauto.
Qed.

Lemma f_relse {B} t sb ic a n b (k : unit -> M (fsst S) B) Q :
  trepr t a -> t_held a !! n = Some b -> n ∉ t_dirty a ->
  (forall t', trepr t' (t_drop n a) -> wp (k tt) (mkfs t' sb ic) Q) ->
  wp (bind (lift (tx_relse b)) k) (mkfs t sb ic) Q.
Proof. intros HR Hh Hd Hk. apply wp_bind. by eapply f_relse'. Qed.

(** The rest of an update: the block is locked and its contents are known. *)
Lemma f_update {B} t sb ic a n b d (k : unit -> M (fsst S) B) Q :
  trepr t (t_take n b a) -> t_held a !! n = None -> n ∉ t_dirty a -> length d = BSIZE ->
  home n -> can_log n a ->
  (forall t', trepr t' (upd_blk n d a) -> wp (k tt) (mkfs t' sb ic) Q) ->
  wp (lift (tx_set b d) ;; lift (tx_log b) ;; bind (lift (tx_relse b)) k) (mkfs t sb ic) Q.
Proof.
  intros HR Hh Hd Hl Hn Hc Hk.
  assert (E : t_held (t_take n b a) !! n = Some b) by (cbn; by rewrite lookup_insert_eq).
  eapply f_set; [exact HR|exact E|done|]. intros t1 R1.
  eapply f_log; [exact R1|exact E|done|exact Hc|]. intros t2 R2.
  eapply f_relse; [exact R2|exact E|cbn; set_solver|]. intros t3 R3.
  rewrite update_id in R3 by done. eauto.
Qed.

Lemma f_update' t sb ic a n b d (Q : unit -> fsst S -> Prop) :
  trepr t (t_take n b a) -> t_held a !! n = None -> n ∉ t_dirty a -> length d = BSIZE ->
  home n -> can_log n a ->
  (forall t', trepr t' (upd_blk n d a) -> Q tt (mkfs t' sb ic)) ->
  wp (lift (tx_set b d) ;; lift (tx_log b) ;; lift (tx_relse b)) (mkfs t sb ic) Q.
Proof.
  intros HR Hh Hd Hl Hn Hc Hk.
  assert (E : t_held (t_take n b a) !! n = Some b) by (cbn; by rewrite lookup_insert_eq).
  eapply f_set; [exact HR|exact E|done|]. intros t1 R1.
  eapply f_log; [exact R1|exact E|done|exact Hc|]. intros t2 R2.
  eapply f_relse'; [exact R2|exact E|cbn; set_solver|]. intros t3 R3.
  rewrite update_id in R3 by done. eauto.
Qed.

(** A block that was only looked at is released. *)
Lemma f_done {B} t sb ic a n b (k : unit -> M (fsst S) B) Q :
  trepr t (t_take n b a) -> t_held a !! n = None -> n ∉ t_dirty a ->
  (forall t', trepr t' a -> wp (k tt) (mkfs t' sb ic) Q) ->
  wp (bind (lift (tx_relse b)) k) (mkfs t sb ic) Q.
Proof.
  intros HR Hh Hd Hk. eapply f_relse; [exact HR|cbn; by rewrite lookup_insert_eq|done|].
  intros t' R'. rewrite take_drop_id in R' by done. eauto.
Qed.

Lemma f_peek {B} t sb ic a n b (k : block -> M (fsst S) B) Q :
  trepr t (t_take n b a) -> wp (k (t_view a n)) (mkfs t sb ic) Q ->
  wp (bind (lift (tx_data b)) k) (mkfs t sb ic) Q.
Proof. intros HR Hk. eapply f_data; [exact HR|cbn; by rewrite lookup_insert_eq|exact Hk]. Qed.

Lemma f_geti {B} t sb ic ip x (k : inode -> M (fsst S) B) Q :
  ic !! ip = Some x -> wp (k x) (mkfs t sb ic) Q -> wp (bind (geti ip) k) (mkfs t sb ic) Q.
Proof. intros Hx Hk. apply wp_bind. unfold geti, wp. cbn. by rewrite Hx. Qed.

Lemma f_seti' t sb ic ip x f (Q : unit -> fsst S -> Prop) :
  ic !! ip = Some x -> Q tt (mkfs t sb (<[ip := f x]> ic)) -> wp (seti ip f) (mkfs t sb ic) Q.
Proof.
  intros Hx Hk. unfold seti. eapply f_geti; [done|]. apply wp_modify. cbn.
  by rewrite (list_insert_alter _ _ _ x).
Qed.

Lemma f_seti {B} t sb ic ip x f (k : unit -> M (fsst S) B) Q :
  ic !! ip = Some x -> wp (k tt) (mkfs t sb (<[ip := f x]> ic)) Q ->
  wp (bind (seti ip f) k) (mkfs t sb ic) Q.
Proof. intros Hx Hk. apply wp_bind. by eapply f_seti'. Qed.

End Steps.

(** ** The free map *)

(** Fuel is not to be unfolded by conversion. *)
#[global] Strategy 1000 [scan_bits BPB].

Lemma land_bit x j : 0 <= j -> (Z.land x (Z.shiftl 1 j) =? 0) = negb (Z.testbit x j).
Proof.
  intros Hj. apply eq_true_iff_eq. rewrite negb_true_iff, Z.eqb_eq. split.
  - intros H. pose proof (f_equal (fun y => Z.testbit y j) H) as Hb. cbn in Hb.
    rewrite Z.land_spec, Z.shiftl_1_l, Z.pow2_bits_true, andb_true_r, Z.bits_0 in Hb by done. done.
  - intros H. apply Z.bits_inj'. intros i Hi. rewrite Z.land_spec, Z.bits_0, Z.shiftl_1_l.
    destruct (Z.eq_dec i j) as [->|Hne]; [by rewrite H|].
    by rewrite Z.pow2_bits_false, andb_false_r.
Qed.

Lemma bit_free_bit d bi : bit_free d bi = negb (Z.testbit (byte_of d bi) (bi mod 8)).
Proof. apply land_bit. pose proof (Z.mod_pos_bound bi 8). lia. Qed.

Lemma byte_of_insert d bi bj v : 0 <= bi < 8 * Z.of_nat (length d) -> 0 <= bj ->
  byte_of (<[Z.to_nat (bi / 8) := v]> d) bj = if bi / 8 =? bj / 8 then v else byte_of d bj.
Proof.
  intros Hi Hj. unfold byte_of.
  assert (0 <= bi / 8 < Z.of_nat (length d)) by (split; [apply Z.div_pos|apply Z.div_lt_upper_bound]; lia).
  assert (0 <= bj / 8) by (apply Z.div_pos; lia).
  rewrite nth_insert by lia. destruct (Z.eqb_spec (bi / 8) (bj / 8)) as [E|E].
  - by rewrite bool_decide_true by lia.
  - by rewrite bool_decide_false by lia.
Qed.

Lemma mark_bit_free d bi bj : 0 <= bi < 8 * Z.of_nat (length d) -> 0 <= bj ->
  bit_free (mark_bit d bi) bj = if bi =? bj then false else bit_free d bj.
Proof.
  intros Hi Hj. rewrite !bit_free_bit. unfold mark_bit. rewrite byte_of_insert by done.
  pose proof (Z.mod_pos_bound bi 8 ltac:(lia)). pose proof (Z.mod_pos_bound bj 8 ltac:(lia)).
  pose proof (Z.div_mod bi 8). pose proof (Z.div_mod bj 8).
  destruct (Z.eqb_spec (bi / 8) (bj / 8)) as [E|E], (Z.eqb_spec bi bj) as [Eb|Eb]; try (subst; lia).
  - subst. unfold mask. rewrite Z.lor_spec, Z.shiftl_1_l, Z.pow2_bits_true by lia. by rewrite orb_true_r.
  - unfold mask. rewrite Z.lor_spec, Z.shiftl_1_l, Z.pow2_bits_false by lia. rewrite orb_false_r.
    unfold byte_of. by rewrite E.
  - done.
Qed.

Lemma clear_bit_free d bi bj : 0 <= bi < 8 * Z.of_nat (length d) -> 0 <= bj ->
  bit_free (clear_bit d bi) bj = if bi =? bj then true else bit_free d bj.
Proof.
  intros Hi Hj. rewrite !bit_free_bit. unfold clear_bit. rewrite byte_of_insert by done.
  pose proof (Z.mod_pos_bound bi 8 ltac:(lia)). pose proof (Z.mod_pos_bound bj 8 ltac:(lia)).
  pose proof (Z.div_mod bi 8). pose proof (Z.div_mod bj 8).
  destruct (Z.eqb_spec (bi / 8) (bj / 8)) as [E|E], (Z.eqb_spec bi bj) as [Eb|Eb]; try (subst; lia).
  - subst. unfold mask. rewrite Z.land_spec, Z.lnot_spec, Z.shiftl_1_l, Z.pow2_bits_true by lia.
    by rewrite andb_false_r.
  - unfold mask. rewrite Z.land_spec, Z.lnot_spec, Z.shiftl_1_l, Z.pow2_bits_false by lia.
    cbn. rewrite andb_true_r. unfold byte_of. by rewrite E.
  - done.
Qed.

(** The scan stops at the first free bit. *)
Lemma scan_bits_Some d b size bi fuel r : scan_bits d b size bi fuel = Some r ->
  bi <= r < BPB /\ b + r < size /\ bit_free d r = true /\
  forall j, bi <= j < r -> bit_free d j = false.
Proof.
  revert bi. induction fuel as [|k IH]; intros bi H; [done|]. cbn in H.
  destruct (Z.ltb_spec bi BPB), (Z.ltb_spec (b + bi) size); cbn in H; try done.
  destruct (bit_free d bi) eqn:E.
  - injection H as <-. split_and!; try lia; try done.
  - apply IH in H as (? & ? & ? & H). split_and!; try lia; try done.
    intros j Hj. destruct (Z.eq_dec j bi) as [->|]; [done|]. apply H. lia.
Qed.

Lemma scan_bits_None d b size bi fuel : scan_bits d b size bi fuel = None ->
  0 <= bi -> (Z.to_nat (BPB - bi) <= fuel)%nat ->
  forall j, bi <= j < BPB -> b + j < size -> bit_free d j = false.
Proof.
  revert bi. induction fuel as [|k IH]; intros bi H H0 Hf j Hj Hs; [unfold BPB in *; lia|].
  cbn in H. rewrite (proj2 (Z.ltb_lt bi BPB)), (proj2 (Z.ltb_lt (b + bi) size)) in H by lia.
  cbn in H. destruct (bit_free d bi) eqn:E; [done|].
  destruct (Z.eq_dec j bi) as [->|]; [done|]. eapply IH; eauto; lia.
Qed.

(** ** Where things are on the disk *)

Section Layout.
Context (disksize : Z) (home : Z -> Prop).

(** The disk that [mkfs] lays out: one block of free map, the data after it and
    the inodes before it. *)
Record layout (sb : superblock) : Prop := {
  ly_size : 0 < sb_size sb <= BPB;
  ly_disk : sb_size sb <= disksize;
  ly_sb : home 1;
  ly_bm : 1 < sb_bmapstart sb < sb_size sb;
  ly_bmhome : home (sb_bmapstart sb);
  ly_data b : sb_bmapstart sb < b < sb_size sb -> home b;
  ly_inodes : 0 < sb_ninodes sb <= 65536;
  ly_inode i : 0 <= i < sb_ninodes sb ->
    home (IBLOCK i sb) /\ 1 < IBLOCK i sb < sb_bmapstart sb;
  ly_ifit : 0 <= sb_inodestart sb <= BPB;
}.

End Layout.

(** Block [b] is marked in use. *)
Definition used (sb : superblock) (v : Z -> block) (b : Z) : bool :=
  negb (bit_free (v (sb_bmapstart sb)) b).

(** The super block is in place and no block of the system itself is free. *)
Record fs_ok (sb : superblock) (v : Z -> block) : Prop := {
  ok_sb : decode_sb (v 1) = sb;
  ok_meta b : 0 <= b <= sb_bmapstart sb -> used sb v b = true;
}.

Definition free_blocks (sb : superblock) (v : Z -> block) : list Z :=
  filter (fun b => used sb v b = false) (seqZ 0 (sb_size sb)).

(** What [balloc] does when [b] is the first free block. *)
Definition balloc_spec (sb : superblock) (b : Z) (a : tspec) : tspec :=
  upd_blk b (repeat 0 BSIZE) (upd_blk (sb_bmapstart sb) (mark_bit (t_view a (sb_bmapstart sb)) b) a).

Definition first_free (sb : superblock) (v : Z -> block) : option Z :=
  scan_bits (v (sb_bmapstart sb)) 0 (sb_size sb) 0 (Z.to_nat BPB).

Lemma length_mark d bi : length (mark_bit d bi) = length d.
Proof. apply length_insert. Qed.

Lemma length_clear d bi : length (clear_bit d bi) = length d.
Proof. apply length_insert. Qed.

Lemma write_disk_at n d v m : write_disk n d v m = if m =? n then d else v m.
Proof. done. Qed.

Section Alloc.
Context {S : Type} {TO : TxOps S} {disksize : Z} {home : Z -> Prop} {TD : TxView S disksize home}.
Implicit Types (t : S) (sb : superblock) (ic : list inode) (a : tspec).

Lemma BBLOCK_one sb b : layout disksize home sb -> 0 <= b < sb_size sb -> BBLOCK b sb = sb_bmapstart sb.
Proof.
  intros [] Hb. unfold BBLOCK, BPB in *. rewrite Z.div_small by lia. rewrite u32_small; lia.
Qed.

Lemma first_free_Some sb v b : layout disksize home sb -> first_free sb v = Some b ->
  0 <= b < sb_size sb /\ used sb v b = false /\ forall c, 0 <= c < b -> used sb v c = true.
Proof.
  intros HL H. unfold first_free in H. apply scan_bits_Some in H as (H1 & H2 & H3 & H4). destruct HL. unfold used. split_and!; try lia.
  - by rewrite H3.
  - intros c Hc. by rewrite H4.
Qed.

Lemma first_free_data sb v b : layout disksize home sb -> fs_ok sb v -> first_free sb v = Some b ->
  sb_bmapstart sb < b < sb_size sb.
Proof.
  intros HL HF Hb. destruct (first_free_Some _ _ _ HL Hb) as (H1 & H2 & _).
  destruct (Z.le_gt_cases b (sb_bmapstart sb)) as [Hle|]; [|lia].
  rewrite (ok_meta _ _ HF) in H2; [done|lia].
Qed.

Lemma bzero_run t sb ic a n Q : trepr t a -> home n -> t_held a !! n = None ->
  (size (t_held a) < MAXHELD)%nat -> n ∉ t_dirty a -> can_log n a ->
  (forall t', trepr t' (upd_blk n (repeat 0 BSIZE) a) -> Q tt (mkfs t' sb ic)) ->
  wp (bzero 1 n) (mkfs t sb ic) Q.
Proof.
  intros HR Hn Hh Hs Hd Hc Hk. unfold bzero.
  eapply f_read; [exact HR|by apply (home_disk (disksize := disksize))|done|done|].
  intros b t1 R1. eapply f_update'; eauto.
Qed.

(** The buffers in use are not in the way of the allocator. *)
Definition held_ok (sb : superblock) (a : tspec) : Prop :=
  (size (t_held a) < MAXHELD)%nat /\ t_dirty a = ∅ /\
  forall n, is_Some (t_held a !! n) -> sb_bmapstart sb < n /\ used sb (t_view a) n = true.

(** How many blocks [balloc] can add to the transaction. *)
Definition alloc_cost (sb : superblock) (a : tspec) : nat :=
  if bool_decide (sb_bmapstart sb ∈ t_logged a) then 1 else 2.

Lemma held_none sb a n : held_ok sb a -> n <= sb_bmapstart sb \/ used sb (t_view a) n = false ->
  t_held a !! n = None.
Proof.
  intros (_ & _ & H) Hn. destruct (t_held a !! n) eqn:E; [|done].
  destruct (H n ltac:(eauto)) as [? Hu]. destruct Hn as [|Hn]; [lia|congruence].
Qed.

Lemma balloc_run t sb ic a b (Q : Z -> fsst S -> Prop) :
  trepr t a -> layout disksize home sb -> fs_ok sb (t_view a) -> held_ok sb a ->
  (alloc_cost sb a <= t_quota a)%nat -> first_free sb (t_view a) = Some b ->
  (forall t', trepr t' (balloc_spec sb b a) -> Q b (mkfs t' sb ic)) ->
  wp (balloc 1) (mkfs t sb ic) Q.
Proof.
  intros HR HL HF Hh Hq Hb Hk. pose proof (first_free_data _ _ _ HL HF Hb) as Hbd.
  destruct (first_free_Some _ _ _ HL Hb) as (Hb1 & Hb2 & _).
  pose proof (held_none sb a (sb_bmapstart sb) Hh ltac:(lia)) as Hbm.
  pose proof (held_none sb a b Hh ltac:(by right)) as Hbb. destruct Hh as (Hs & Hd & _).
  unfold balloc. apply wp_bind, wp_gets. cbn [fsb].
  destruct (ly_size _ _ _ HL) as [Hsz _].
  assert (Hf : exists k, Z.to_nat (sb_size sb / BPB + 1) = Datatypes.S k).
  { exists (Z.to_nat (sb_size sb / BPB)). pose proof (Z.div_pos (sb_size sb) BPB). unfold BPB in *. lia. }
  destruct Hf as [k ->]. cbn [balloc_loop]. apply wp_bind, wp_gets. cbn [fsb].
  rewrite (proj2 (Z.ltb_lt 0 (sb_size sb))) by done.
  rewrite (BBLOCK_one sb 0 HL) by lia.
  eapply f_read; [exact HR|apply (home_disk (disksize := disksize)), HL|done|done|].
  intros bp t1 R1. eapply f_peek; [exact R1|].
  unfold first_free in Hb. rewrite Hb. cbn [Z.add].
  unfold alloc_cost in Hq. rewrite Z.add_0_l.
  assert (Hl : length (t_view a (sb_bmapstart sb)) = BSIZE) by (by eapply t_len).
  eapply f_update; [exact R1|done|by rewrite Hd|by rewrite length_mark|apply HL| |].
  { unfold can_log. case_bool_decide; [by left|right; lia]. }
  intros t2 R2. apply wp_bind.
  eapply bzero_run; [exact R2|by apply (ly_data _ _ _ HL)|done|done|cbn; by rewrite Hd| |].
  - right. cbn. case_bool_decide; lia.
  - intros t3 R3. apply wp_ret. by apply Hk.
Qed.

(** With no block free, [balloc] panics. *)
Lemma balloc_full t sb ic a : trepr t a -> layout disksize home sb -> held_ok sb a ->
  first_free sb (t_view a) = None ->
  balloc 1 (mkfs t sb ic) = Stop (Panic "balloc: out of blocks").
Proof.
  intros HR HL Hh Hb. pose proof (held_none sb a (sb_bmapstart sb) Hh ltac:(lia)) as Hbm.
  destruct Hh as (Hs & Hd & _). destruct (ly_size _ _ _ HL) as [Hsz Hsz'].
  unfold balloc, bind at 1, gets at 1. cbn [fsb].
  assert (Hf : exists k, Z.to_nat (sb_size sb / BPB + 1) = Datatypes.S k).
  { exists (Z.to_nat (sb_size sb / BPB)). pose proof (Z.div_pos (sb_size sb) BPB). unfold BPB in *. lia. }
  destruct Hf as [k ->]. cbn [balloc_loop]. unfold bind at 1, gets at 1. cbn [fsb].
  rewrite (proj2 (Z.ltb_lt 0 (sb_size sb))), (BBLOCK_one sb 0 HL) by lia.
  eapply (wp_then_stop _ _ _ (fun b s => exists t', s = mkfs t' sb ic /\ trepr t' (t_take (sb_bmapstart sb) b a))).
  { apply wp_lift. eapply wp_mono; [apply (t_read_ok (disksize := disksize)); [exact HR| |done|done]|].
    - apply (home_disk (disksize := disksize)), HL.
    - intros b t' R'. by exists t'. }
  intros bp s' (t1 & -> & R1).
  eapply (wp_then_stop _ _ _ (fun d s => d = t_view a (sb_bmapstart sb) /\ s = mkfs t1 sb ic)).
  { apply wp_lift. eapply wp_mono; [eapply t_data_ok; [exact R1|cbn; by rewrite lookup_insert_eq]|].
    by intros d t' [-> ->]. }
  intros d s' [-> ->]. unfold first_free in Hb. rewrite Hb.
  eapply (wp_then_stop _ _ _ (fun _ s => exists t', s = mkfs t' sb ic)).
  { apply wp_lift. eapply wp_mono; [eapply t_relse_ok; [exact R1|cbn; by rewrite lookup_insert_eq|]|].
    - cbn. by rewrite Hd.
    - intros u t' R'. by exists t'. }
  intros [] s' (t2 & ->). destruct k; cbn [balloc_loop]; unfold bind, gets; cbn [fsb];
    by rewrite (proj2 (Z.ltb_ge (0 + BPB) (sb_size sb))) by lia.
Qed.

(** What [bfree] does to a block in use. *)
Definition bfree_spec (sb : superblock) (b : Z) (a : tspec) : tspec :=
  upd_blk (sb_bmapstart sb) (clear_bit (t_view a (sb_bmapstart sb)) b) a.

Lemma readsb_run {B} t sb ic a (k : superblock -> M (fsst S) B) Q :
  trepr t a -> layout disksize home sb -> fs_ok sb (t_view a) -> held_ok sb a ->
  (forall t', trepr t' a -> wp (k sb) (mkfs t' sb ic) Q) ->
  wp (bind (readsb 1) k) (mkfs t sb ic) Q.
Proof.
  intros HR HL HF Hh Hk. pose proof (ly_bm _ _ _ HL). pose proof (ly_disk _ _ _ HL).
  pose proof (held_none sb a 1 Hh ltac:(lia)) as H1. destruct Hh as (Hs & Hd & _).
  apply wp_bind. unfold readsb. eapply f_read; [exact HR|lia|done|done|]. intros bp t1 R1.
  eapply f_peek; [exact R1|]. eapply f_done; [exact R1|done|by rewrite Hd|]. intros t2 R2.
  apply wp_ret. rewrite (ok_sb _ _ HF). by apply Hk.
Qed.

Lemma bfree_run t sb ic a b (Q : unit -> fsst S -> Prop) :
  trepr t a -> layout disksize home sb -> fs_ok sb (t_view a) -> held_ok sb a ->
  can_log (sb_bmapstart sb) a -> 0 <= b < sb_size sb -> used sb (t_view a) b = true ->
  (forall t', trepr t' (bfree_spec sb b a) -> Q tt (mkfs t' sb ic)) ->
  wp (bfree 1 b) (mkfs t sb ic) Q.
Proof.
  intros HR HL HF Hh Hc Hb Hu Hk. pose proof (ly_size _ _ _ HL).
  unfold bfree. eapply readsb_run; eauto. intros t1 R1. apply wp_bind, wp_modify. cbn [tx icache].
  rewrite (BBLOCK_one sb b HL Hb).
  pose proof (held_none sb a (sb_bmapstart sb) Hh ltac:(lia)) as Hbm. destruct Hh as (Hs & Hd & _).
  eapply f_read; [exact R1|apply (home_disk (disksize := disksize)), HL|done|done|]. intros bp t2 R2.
  eapply f_peek; [exact R2|]. rewrite Z.mod_small by lia.
  unfold used in Hu. apply negb_true_iff in Hu. rewrite Hu.
  assert (Hl : length (t_view a (sb_bmapstart sb)) = BSIZE) by (by eapply t_len).
  eapply f_update'; [exact R2|done|by rewrite Hd|by rewrite length_clear|apply HL|done|done].
Qed.

End Alloc.

(** ** What the allocator does to the free map *)

Section Map.
Context {disksize : Z} {home : Z -> Prop}.
Implicit Types (sb : superblock) (a : tspec) (v : Z -> block).

Lemma write_disk_other n d v m : m <> n -> write_disk n d v m = v m.
Proof. intros H. by apply write_disk_ne. Qed.

Lemma balloc_view sb b a n : n <> sb_bmapstart sb -> n <> b ->
  t_view (balloc_spec sb b a) n = t_view a n.
Proof. intros H1 H2. cbn. by rewrite !write_disk_other. Qed.

Lemma balloc_zero sb b a : t_view (balloc_spec sb b a) b = repeat 0 BSIZE.
Proof. cbn. by rewrite write_disk_eq. Qed.

Lemma balloc_used sb b a c : layout disksize home sb -> 0 <= c -> sb_bmapstart sb < b < sb_size sb ->
  length (t_view a (sb_bmapstart sb)) = BSIZE ->
  used sb (t_view (balloc_spec sb b a)) c = (c =? b) || used sb (t_view a) c.
Proof.
  intros HL Hc Hb Hl. destruct HL. unfold used. cbn. rewrite write_disk_other by lia.
  rewrite write_disk_eq, mark_bit_free by (rewrite ?Hl; unfold BPB, BSIZE in *; lia).
  rewrite (Z.eqb_sym b c). by destruct (c =? b).
Qed.

Lemma bfree_view sb b a n : n <> sb_bmapstart sb -> t_view (bfree_spec sb b a) n = t_view a n.
Proof. intros H. cbn. by rewrite write_disk_other. Qed.

Lemma bfree_used sb b a c : layout disksize home sb -> 0 <= c -> 0 <= b < sb_size sb ->
  length (t_view a (sb_bmapstart sb)) = BSIZE ->
  used sb (t_view (bfree_spec sb b a)) c = negb (c =? b) && used sb (t_view a) c.
Proof.
  intros HL Hc Hb Hl. destruct HL. unfold used. cbn.
  rewrite write_disk_eq, clear_bit_free by (rewrite ?Hl; unfold BPB, BSIZE in *; lia).
  rewrite (Z.eqb_sym b c). by destruct (c =? b).
Qed.

Lemma balloc_ok sb b a : layout disksize home sb -> fs_ok sb (t_view a) ->
  sb_bmapstart sb < b < sb_size sb -> length (t_view a (sb_bmapstart sb)) = BSIZE ->
  fs_ok sb (t_view (balloc_spec sb b a)).
Proof.
  intros HL [H1 H2] Hb Hl. pose proof (ly_bm _ _ _ HL). split.
  - by rewrite balloc_view by lia.
  - intros c Hc. rewrite balloc_used, (H2 c), orb_true_r by (done || lia). done.
Qed.

Lemma bfree_ok sb b a : layout disksize home sb -> fs_ok sb (t_view a) ->
  sb_bmapstart sb < b < sb_size sb -> length (t_view a (sb_bmapstart sb)) = BSIZE ->
  fs_ok sb (t_view (bfree_spec sb b a)).
Proof.
  intros HL [H1 H2] Hb Hl. pose proof (ly_bm _ _ _ HL). split.
  - by rewrite bfree_view by lia.
  - intros c Hc. rewrite bfree_used, (H2 c) by (done || lia).
    by rewrite (proj2 (Z.eqb_neq c b)) by lia.
Qed.

(** A free block is found while there is one. *)
Lemma first_free_exists sb v : layout disksize home sb -> free_blocks sb v <> [] ->
  exists b, first_free sb v = Some b.
Proof.
  intros HL Hne. destruct (first_free sb v) as [b|] eqn:E; [eauto|].
  exfalso. apply Hne. apply elem_of_nil_inv. intros b [Hu Hb%elem_of_seqZ]%list_elem_of_filter.
  unfold first_free in E. destruct HL.
  assert (Hf : bit_free (v (sb_bmapstart sb)) b = false).
  { eapply (scan_bits_None _ _ _ _ _ E); [lia|lia|lia|lia]. }
  unfold used in Hu. rewrite Hf in Hu. done.
Qed.

(** The scan finds the head of the list of free blocks. *)
Lemma first_free_hd sb v : layout disksize home sb -> first_free sb v = hd_error (free_blocks sb v).
Proof.
  intros HL. destruct (first_free sb v) as [b|] eqn:E.
  - destruct (first_free_Some _ _ _ HL E) as (Hb & Hu & Hlow). unfold free_blocks.
    replace (sb_size sb) with (b + (sb_size sb - b)) by lia. rewrite seqZ_app by lia.
    rewrite Z.add_0_l, (seqZ_cons b) by lia. rewrite filter_app, filter_cons_True by done.
    replace (filter (fun c => used sb v c = false) (seqZ 0 b)) with (@nil Z); [done|].
    symmetry. apply elem_of_nil_inv. intros c [Hc Hr%elem_of_seqZ]%list_elem_of_filter. rewrite Hlow in Hc by lia. done.
  - destruct (free_blocks sb v) as [|b l] eqn:Ef; [done|].
    destruct (first_free_exists sb v HL) as [c Hc]; [by rewrite Ef|congruence].
Qed.

End Map.

(** Taking a block leaves one free block less. *)
Lemma free_blocks_less sb v v' b : 0 <= b < sb_size sb -> used sb v b = false ->
  (forall c, 0 <= c -> used sb v' c = (c =? b) || used sb v c) ->
  length (free_blocks sb v) = Datatypes.S (length (free_blocks sb v')).
Proof.
  intros Hb Hu H. unfold free_blocks.
  assert (Hp : b :: filter (fun c => used sb v' c = false) (seqZ 0 (sb_size sb))
               ≡ₚ filter (fun c => used sb v c = false) (seqZ 0 (sb_size sb))); [|by rewrite <- Hp].
  apply NoDup_Permutation.
  - apply NoDup_cons. split; [|apply NoDup_filter, NoDup_seqZ].
    rewrite list_elem_of_filter. intros [Hx _]. rewrite H, Z.eqb_refl in Hx by lia. done.
  - apply NoDup_filter, NoDup_seqZ.
  - intros c. rewrite elem_of_cons, !list_elem_of_filter, !elem_of_seqZ. split.
    + intros [->|[H1 H2]]; [split; [done|lia]|]. rewrite H in H1 by lia.
      apply orb_false_iff in H1. tauto.
    + intros [H1 H2]. destruct (Z.eq_dec c b) as [->|Hne]; [by left|]. right.
      rewrite H by lia. by rewrite (proj2 (Z.eqb_neq c b)), H1.
Qed.
