(* ===== verification/FsInode.v ===== *)
(** * Inodes on the disk ([fs.c]: [iupdate], [ilock]'s load)

    [struct dinode] as 64 bytes, what storing and loading one does, and
    [iupdate]. *)
From S2P Require Import Prelude Bio Log LogSpec Tx Fs FsBlocks.

Definition le16 (x : Z) : list Z := [u8 x; u8 (x / 256)].

(** The bytes of [struct dinode]. *)
Definition dinode_bytes (x : inode) : list Z :=
  le16 (i_type x) ++ le16 (i_major x) ++ le16 (i_minor x) ++ le16 (i_nlink x) ++
  le32 (i_size x) ++ mjoin (le32 <$> i_addrs x).

Lemma put_bytes_app d o l1 l2 :
  put_bytes d o (l1 ++ l2) = put_bytes (put_bytes d o l1) (o + length l1) l2.
Proof.
  revert d o. induction l1 as [|x l1 IH]; intros d o; cbn [app put_bytes length].
  - by rewrite Nat.add_0_r.
  - rewrite IH. f_equal. lia.
Qed.

Lemma join_cons x l : mjoin (le32 <$> x :: l) = le32 x ++ mjoin (le32 <$> l).
Proof. done. Qed.

Lemma put_words_bytes l d o : put_words d o l = put_bytes d o (mjoin (le32 <$> l)).
Proof.
  revert d o. induction l as [|x l IH]; intros d o; [done|].
  cbn [put_words]. by rewrite join_cons, put_bytes_app, IH.
Qed.

Lemma store_dinode_bytes x o d : store_dinode x o d = put_bytes d o (dinode_bytes x).
Proof.
  unfold store_dinode, dinode_bytes. rewrite !put_bytes_app, put_words_bytes.
  unfold put16, put32. cbn [length le16 le32].
  replace (o + 2 + 2)%nat with (o + 4)%nat by lia. replace (o + 4 + 2)%nat with (o + 6)%nat by lia.
  replace (o + 6 + 2)%nat with (o + 8)%nat by lia. by replace (o + 8 + 4)%nat with (o + 12)%nat by lia.
Qed.

Lemma length_join_le32 l : length (mjoin (le32 <$> l)) = (4 * length l)%nat.
Proof. induction l as [|x l IH]; [done|]. rewrite join_cons, length_app, IH. cbn. lia. Qed.

Lemma length_dinode x : length (i_addrs x) = 13%nat -> length (dinode_bytes x) = 64%nat.
Proof. intros H. unfold dinode_bytes. rewrite !length_app, length_join_le32, H. done. Qed.

Lemma nth_put d o l k : (o + length l <= length d)%nat -> (k < length l)%nat ->
  nth (o + k) (put_bytes d o l) 0 = nth k l 0.
Proof.
  intros H1 H2. rewrite nth_put_bytes, bool_decide_true by lia. f_equal. lia.
Qed.

Lemma get16_put d o l k : (o + length l <= length d)%nat -> (k + 2 <= length l)%nat ->
  get16 (put_bytes d o l) (o + k) = get16 l k.
Proof.
  intros H1 H2. unfold get16. replace (o + k + 1)%nat with (o + (k + 1))%nat by lia.
  by rewrite !nth_put by lia.
Qed.

Lemma get32_put d o l k : (o + length l <= length d)%nat -> (k + 4 <= length l)%nat ->
  get32 (put_bytes d o l) (o + k) = get32 l k.
Proof.
  intros H1 H2. unfold get32.
  replace (o + k + 1)%nat with (o + (k + 1))%nat by lia. replace (o + k + 2)%nat with (o + (k + 2))%nat by lia.
  replace (o + k + 3)%nat with (o + (k + 3))%nat by lia. by rewrite !nth_put by lia.
Qed.

Lemma nth_put_out d o l k : (o + length l <= length d)%nat -> (k < o \/ o + length l <= k)%nat ->
  nth k (put_bytes d o l) 0 = nth k d 0.
Proof. intros H1 H2. by rewrite nth_put_bytes, bool_decide_false by lia. Qed.

(** [s16] undoes the little-endian halves. *)
Lemma s16_le16 x : -32768 <= x < 32768 -> s16 (u8 x + 256 * u8 (x / 256)) = x.
Proof. intros H. unfold s16, u8. Z.to_euclidean_division_equations. lia. Qed.

(** The fields of an inode that live on the disk, within their C types. *)
Record dinode_fits (x : inode) : Prop := {
  df_type : -32768 <= i_type x < 32768;
  df_major : -32768 <= i_major x < 32768;
  df_minor : -32768 <= i_minor x < 32768;
  df_nlink : -32768 <= i_nlink x < 32768;
  df_size : 0 <= i_size x < 4294967296;
  df_addrs : Forall (fun b => 0 <= b < 4294967296) (i_addrs x);
  df_len : length (i_addrs x) = 13%nat;
}.

Lemma get32_join l k i b : l !! i = Some b -> 0 <= b < 4294967296 -> k = (4 * i)%nat ->
  get32 (mjoin (le32 <$> l)) k = b.
Proof.
  revert i k. induction l as [|x l IH]; intros [|i] k Hi Hb ->; [done|done| |].
  - injection Hi as ->. cbn. unfold get32. cbn [nth Nat.add app]. rewrite de32_le32. by apply u32_small.
  - rewrite join_cons.
    replace (4 * Datatypes.S i)%nat with (4 + 4 * i)%nat by lia.
    transitivity (get32 (mjoin (le32 <$> l)) (4 * i)); [|by apply (IH i)].
    unfold get32, le32. done.
Qed.

(** An inode that is stored and loaded again is the same one. *)
Lemma load_store x y o d : dinode_fits x -> (o + 64 <= length d)%nat ->
  load_dinode (store_dinode x o d) o y =
  mkinode (i_dev y) (i_inum y) (i_ref y) (i_lock y) (i_valid y) (i_type x) (i_major x) (i_minor x)
    (i_nlink x) (i_size x) (i_addrs x).
Proof.
  intros [H1 H2 H3 H4 H5 H6 H7] Hd. rewrite store_dinode_bytes.
  pose proof (length_dinode x H7) as Hl. unfold load_dinode.
  replace (get16 (put_bytes d o (dinode_bytes x)) o) with (get16 (put_bytes d o (dinode_bytes x)) (o + 0)) by (by rewrite Nat.add_0_r).
  rewrite !get16_put by lia. rewrite get32_put by lia.
  f_equal; try (unfold get16, dinode_bytes; cbn [nth app le16 Nat.add]; by apply s16_le16).
  - unfold get32, dinode_bytes. cbn [nth app le16 le32 Nat.add]. rewrite de32_le32. by apply u32_small.
  - apply list_eq_same_length with 13%nat; [done|done|].
    intros i a b Hi Ha Hb. rewrite list_lookup_fmap in Ha. unfold indices in Ha.
    rewrite lookup_seq_lt in Ha by (unfold NDIRECT; lia). apply (inj Some) in Ha. rewrite <- Ha.
    replace (o + 12 + 4 * (0 + i))%nat with (o + (12 + 4 * i))%nat by lia. rewrite get32_put by lia.
    pose proof (proj1 (Forall_lookup _ _) H6 i b Hb) as Hr. cbn in Hr.
    unfold dinode_bytes. unfold get32, le16, le32 at 1. cbn [nth app Nat.add].
    rewrite <- (get32_join (i_addrs x) (4 * i) i b) by done. done.
Qed.

(** Storing one inode leaves the others of the block alone. *)
Lemma load_other x y o o' d : length (i_addrs x) = 13%nat -> (o + 64 <= length d)%nat ->
  (o' + 64 <= o \/ o + 64 <= o')%nat ->
  load_dinode (store_dinode x o d) o' y = load_dinode d o' y.
Proof.
  intros Hl Hd Ho. rewrite store_dinode_bytes. pose proof (length_dinode x Hl) as H64.
  assert (E : forall k, (o' <= k < o' + 64)%nat -> nth k (put_bytes d o (dinode_bytes x)) 0 = nth k d 0).
  { intros k Hk. apply nth_put_out; lia. }
  unfold load_dinode, get16, get32. f_equal; try (rewrite !E by lia; done).
  apply list_fmap_ext. intros i j Hj. unfold indices in Hj. apply lookup_seq in Hj as [-> Hi].
  rewrite !E by (unfold NDIRECT in *; lia). done.
Qed.

Lemma length_store_dinode x o d : length (store_dinode x o d) = length d.
Proof. rewrite store_dinode_bytes. apply length_put_bytes. Qed.

Lemma dinode_off_le inum : (dinode_off inum + 64 <= BSIZE)%nat.
Proof.
  unfold dinode_off, IPB, BSIZE. pose proof (Z.mod_pos_bound inum 8 ltac:(lia)). lia.
Qed.

(** Two inodes of one block do not overlap. *)
Lemma dinode_off_apart i j : 0 <= i -> 0 <= j -> i <> j -> i / IPB = j / IPB ->
  (dinode_off j + 64 <= dinode_off i \/ dinode_off i + 64 <= dinode_off j)%nat.
Proof.
  unfold dinode_off, IPB. intros. pose proof (Z.div_mod i 8). pose proof (Z.div_mod j 8).
  pose proof (Z.mod_pos_bound i 8 ltac:(lia)). pose proof (Z.mod_pos_bound j 8 ltac:(lia)). lia.
Qed.

(** What is on the disk for inode [inum]. *)
Definition dinode_at (sb : superblock) (v : Z -> block) (inum : Z) (y : inode) : inode :=
  load_dinode (v (IBLOCK inum sb)) (dinode_off inum) y.

(** What [iupdate] does. *)
Definition iupdate_spec (sb : superblock) (x : inode) (a : tspec) : tspec :=
  upd_blk (IBLOCK (i_inum x) sb)
    (store_dinode x (dinode_off (i_inum x)) (t_view a (IBLOCK (i_inum x) sb))) a.

(** Writing one inode leaves the others on disk. *)
Lemma iupdate_other {disksize home} sb x a y m : layout disksize home sb ->
  0 <= i_inum x < sb_ninodes sb -> 0 <= m < sb_ninodes sb -> m <> i_inum x ->
  length (i_addrs x) = 13%nat -> length (t_view a (IBLOCK (i_inum x) sb)) = BSIZE ->
  dinode_at sb (t_view (iupdate_spec sb x a)) m y = dinode_at sb (t_view a) m y.
Proof.
  intros HL Hx Hm Hne Hl Hlen. unfold dinode_at, iupdate_spec, upd_blk. cbn [t_view].
  destruct (Z.eq_dec (IBLOCK m sb) (IBLOCK (i_inum x) sb)) as [E|E].
  - rewrite E, write_disk_eq, load_other; [done|done|rewrite Hlen; apply dinode_off_le|].
    apply dinode_off_apart; [lia|lia|congruence|]. revert E. unfold IBLOCK, IPB.
    pose proof (ly_inodes _ _ _ HL). pose proof (ly_ifit _ _ _ HL). unfold BPB in *.
    rewrite !u32_small by (Z.to_euclidean_division_equations; lia). lia.
  - by rewrite write_disk_other.
Qed.

Section Iupdate.
Context {S : Type} {TO : TxOps S} {disksize : Z} {home : Z -> Prop} {TD : TxView S disksize home}.

Lemma iupdate_run t sb ic a ip x (Q : unit -> fsst S -> Prop) :
  trepr t a -> layout disksize home sb -> t_held a = ∅ -> t_dirty a = ∅ ->
  ic !! ip = Some x -> i_dev x = 1 -> 0 <= i_inum x < sb_ninodes sb ->
  can_log (IBLOCK (i_inum x) sb) a ->
  (forall t', trepr t' (iupdate_spec sb x a) -> Q tt (mkfs t' sb ic)) ->
  wp (iupdate ip) (mkfs t sb ic) Q.
Proof.
  intros HR HL Hh Hd Hx Hdev Hi Hc Hk. unfold iupdate. eapply f_geti; [done|].
  apply wp_bind, wp_gets. cbn [fsb]. rewrite Hdev.
  destruct (ly_inode _ _ _ HL _ Hi) as [Hhome _].
  eapply f_read; [exact HR|by apply (home_disk (disksize := disksize))|by rewrite Hh| |].
  { rewrite Hh, map_size_empty. unfold MAXHELD. lia. }
  intros bp t1 R1. eapply f_peek; [exact R1|].
  eapply f_update'; [exact R1|by rewrite Hh|by rewrite Hd| |done|done|done].
  rewrite length_store_dinode. by eapply t_len.
Qed.

End Iupdate.
