(* ===== verification/FsFiles.v ===== *)
(** * The blocks of a file ([fs.c]: [bmap])

    An inode's block numbers as slots, what it means for a file to gain blocks,
    and [bmap] on every path: direct, indirect, present and allocated. *)
From S2P Require Import Prelude Bio Log LogSpec Tx Fs FsBlocks.

(** ** The block numbers of an inode *)

(** The 13 entries of [addrs], then the 128 of the indirect block. *)
Definition NSLOT : nat := 141.

Definition ind_of (ad : list Z) : Z := nth NDIRECT ad 0.

Definition slot (v : Z -> block) (ad : list Z) (i : nat) : Z :=
  if bool_decide (i <= NDIRECT)%nat then nth i ad 0
  else if ind_of ad =? 0 then 0
  else get32 (v (ind_of ad)) (4 * (i - 13)).

(** The slot of the file's [bn]th block. *)
Definition slot_of (bn : nat) : nat := if bool_decide (bn < NDIRECT)%nat then bn else S bn.

Definition addr_of (v : Z -> block) (ad : list Z) (bn : nat) : Z := slot v ad (slot_of bn).

Definition owns (v : Z -> block) (ad : list Z) (n : Z) : Prop :=
  n <> 0 /\ exists i, (i < NSLOT)%nat /\ slot v ad i = n.

(** Every block of the file is a data block in use, and they are distinct. *)
Record file_ok (sb : superblock) (v : Z -> block) (ad : list Z) : Prop := {
  fo_len : length ad = 13%nat;
  fo_data i : (i < NSLOT)%nat -> slot v ad i <> 0 ->
    sb_bmapstart sb < slot v ad i < sb_size sb /\ used sb v (slot v ad i) = true;
  fo_inj i j : (i < NSLOT)%nat -> (j < NSLOT)%nat -> slot v ad i <> 0 ->
    slot v ad i = slot v ad j -> i = j;
}.

(** The file has gained blocks that were free, and other files are untouched. *)
Record grows (sb : superblock) (v : Z -> block) (ad : list Z) (v' : Z -> block) (ad' : list Z) : Prop := {
  gr_ok : fs_ok sb v';
  gr_file : file_ok sb v' ad';
  gr_used n : 0 <= n -> used sb v n = true -> used sb v' n = true;
  gr_new n : owns v' ad' n -> owns v ad n \/ 0 <= n /\ used sb v n = false;
  gr_frame n : 0 <= n -> used sb v n = true -> n <> sb_bmapstart sb -> ~ owns v ad n -> v' n = v n;
  gr_slot i : (i < NSLOT)%nat -> slot v ad i <> 0 -> slot v' ad' i = slot v ad i;
}.

Lemma grows_refl sb v ad : fs_ok sb v -> file_ok sb v ad -> grows sb v ad v ad.
Proof. intros. split; auto. Qed.

Lemma grows_trans sb v ad v' ad' v'' ad'' :
  grows sb v ad v' ad' -> grows sb v' ad' v'' ad'' -> grows sb v ad v'' ad''.
Proof.
  intros G1 G2. split.
  - apply G2.
  - apply G2.
  - intros n Hn Hu. by apply (gr_used _ _ _ _ _ G2), (gr_used _ _ _ _ _ G1).
  - intros n Ho. apply (gr_new _ _ _ _ _ G2) in Ho as [Ho|[Hn Hu]]; [by apply (gr_new _ _ _ _ _ G1)|].
    right. split; [done|]. destruct (used sb v n) eqn:E; [|done].
    by rewrite (gr_used _ _ _ _ _ G1 n Hn E) in Hu.
  - intros n Hn Hu Hb Ho. rewrite (gr_frame _ _ _ _ _ G2); auto.
    + by apply (gr_frame _ _ _ _ _ G1).
    + by apply (gr_used _ _ _ _ _ G1).
    + intros Ho'. apply (gr_new _ _ _ _ _ G1) in Ho' as [?|[_ Hf]]; [done|congruence].
  - intros i Hi Hs. rewrite (gr_slot _ _ _ _ _ G2); [by apply (gr_slot _ _ _ _ _ G1)|done|].
    by rewrite (gr_slot _ _ _ _ _ G1).
Qed.

(** One slot has been filled with a free block. *)
Lemma grow_slot sb v ad v' ad' i b :
  fs_ok sb v' -> file_ok sb v ad -> length ad' = 13%nat -> (i < NSLOT)%nat ->
  slot v ad i = 0 -> 0 <= sb_bmapstart sb < b -> b < sb_size sb -> used sb v b = false ->
  slot v' ad' i = b -> (forall j, (j < NSLOT)%nat -> j <> i -> slot v' ad' j = slot v ad j) ->
  (forall c, 0 <= c -> used sb v' c = (c =? b) || used sb v c) ->
  (forall n, n <> sb_bmapstart sb -> n <> b -> ~ owns v ad n -> v' n = v n) ->
  grows sb v ad v' ad'.
Proof.
  intros HF [Hl Hd Hinj] Hl' Hi H0 Hb Hbs Hub Hsi Hso Hu Hf.
  assert (Hfresh : forall j, (j < NSLOT)%nat -> slot v ad j <> 0 -> slot v ad j <> b).
  { intros j Hj Hz E. destruct (Hd j Hj Hz) as [_ Hx]. congruence. }
  split; auto.
  - split; [done| |].
    + intros j Hj Hz. destruct (decide (j = i)) as [->|Hne].
      * rewrite Hsi, Hu by lia. rewrite Z.eqb_refl. split; [lia|done].
      * rewrite Hso in * by done. destruct (Hd j Hj Hz) as [? Hx]. split; [done|].
        rewrite Hu, Hx by lia. by rewrite orb_true_r.
    + intros j k Hj Hk Hz E. destruct (decide (j = i)) as [->|Hj'], (decide (k = i)) as [->|Hk']; [done| | |].
      * rewrite Hsi, (Hso k) in E by done. exfalso. apply (Hfresh k); [done| |done]. lia.
      * rewrite Hsi, (Hso j) in E by done. rewrite Hso in Hz by done. exfalso. by apply (Hfresh j).
      * rewrite !Hso in E by done. rewrite Hso in Hz by done. by apply Hinj.
  - intros n Hn Hx. rewrite Hu, Hx by done. by rewrite orb_true_r.
  - intros n (Hz & j & Hj & Hs). destruct (decide (j = i)) as [->|Hne].
    + rewrite Hsi in Hs. subst. right. split; [lia|done].
    + left. split; [done|]. exists j. split; [done|]. by rewrite <- Hso.
  - intros n Hn Hx Hbm Ho. apply Hf; auto. intros ->. congruence.
  - intros j Hj Hz. apply Hso; [done|]. intros ->. done.
Qed.

Lemma get32_zero o : get32 (repeat 0 BSIZE) o = 0.
Proof.
  assert (E : forall i, nth i (repeat 0 BSIZE) 0 = 0) by (intros; by rewrite nth_repeat).
  unfold get32. by rewrite !E.
Qed.

Section Grow.
Context {disksize : Z} {home : Z -> Prop}.
Implicit Types (sb : superblock) (a : tspec) (v : Z -> block).

Lemma owns_slot v ad i : (i < NSLOT)%nat -> slot v ad i <> 0 -> owns v ad (slot v ad i).
Proof. intros Hi Hz. split; eauto. Qed.

Lemma ind_slot v ad : slot v ad NDIRECT = ind_of ad.
Proof. done. Qed.

(** [balloc] for an entry of [addrs]. *)
Lemma grow_addr sb a ad i b : layout disksize home sb -> fs_ok sb (t_view a) ->
  file_ok sb (t_view a) ad -> length (t_view a (sb_bmapstart sb)) = BSIZE ->
  (i <= NDIRECT)%nat -> nth i ad 0 = 0 -> sb_bmapstart sb < b < sb_size sb ->
  used sb (t_view a) b = false ->
  grows sb (t_view a) ad (t_view (balloc_spec sb b a)) (<[i := b]> ad).
Proof.
  intros HL HF Hfo Hlen Hi Hz Hb Hu. pose proof (ly_bm _ _ _ HL). pose proof (fo_len _ _ _ Hfo) as Hl.
  unfold NDIRECT in *.
  assert (Hn : forall j, nth j (<[i := b]> ad) 0 = if bool_decide (j = i) then b else nth j ad 0).
  { intros j. apply nth_insert. lia. }
  eapply (grow_slot _ _ _ _ _ i b); try eassumption.
  - by eapply balloc_ok.
  - by rewrite length_insert.
  - unfold NSLOT. lia.
  - unfold slot. rewrite bool_decide_true by (unfold NDIRECT; lia). done.
  - lia.
  - lia.
  - unfold slot. rewrite bool_decide_true by (unfold NDIRECT; lia). by rewrite Hn, bool_decide_true.
  - intros j Hj Hne. unfold slot. unfold ind_of. rewrite !Hn. rewrite (bool_decide_false (j = i)) by done.
    case_bool_decide; [done|]. case_bool_decide as Ei.
    + rewrite (proj2 (Z.eqb_neq b 0)) by lia. rewrite balloc_zero, get32_zero.
      subst i. by rewrite Hz.
    + destruct (Z.eqb_spec (nth NDIRECT ad 0) 0) as [|Hnz]; [done|].
      destruct (fo_data _ _ _ Hfo NDIRECT ltac:(unfold NSLOT, NDIRECT; lia) Hnz) as [Hr Hx].
      rewrite ind_slot in Hr, Hx. unfold ind_of in *.
      rewrite balloc_view; [done|lia|congruence].
  - intros c Hc. by eapply balloc_used.
  - intros n H1 H2 _. by apply balloc_view.
Qed.

(** [balloc] for an entry of the indirect block. *)
Lemma grow_entry sb a ad j b d : layout disksize home sb -> fs_ok sb (t_view a) ->
  file_ok sb (t_view a) ad -> (forall n, length (t_view a n) = BSIZE) ->
  (j < NINDIRECT)%nat -> ind_of ad <> 0 -> slot (t_view a) ad (13 + j) = 0 ->
  sb_bmapstart sb < b < sb_size sb -> used sb (t_view a) b = false ->
  d = t_view a (ind_of ad) ->
  grows sb (t_view a) ad
    (write_disk (ind_of ad) (put32 d (4 * j) b) (t_view (balloc_spec sb b a))) ad.
Proof.
  intros HL HF Hfo Hlen Hj Hnz Hz Hb Hu ->. pose proof (ly_bm _ _ _ HL). pose proof (fo_len _ _ _ Hfo) as Hl.
  pose proof (ly_size _ _ _ HL). unfold BPB in *.
  destruct (fo_data _ _ _ Hfo NDIRECT ltac:(unfold NSLOT, NDIRECT; lia) Hnz) as [Hr Hx].
  rewrite ind_slot in Hr, Hx.
  assert (Hib : ind_of ad <> b) by congruence.
  set (v' := write_disk _ _ _).
  assert (Hv : forall n, n <> ind_of ad -> v' n = t_view (balloc_spec sb b a) n).
  { intros n Hn. by apply write_disk_other. }
  assert (Hvi : v' (ind_of ad) = put32 (t_view a (ind_of ad)) (4 * j) b) by apply write_disk_eq.
  assert (Hus : forall c, used sb v' c = used sb (t_view (balloc_spec sb b a)) c).
  { intros c. unfold used. by rewrite Hv by lia. }
  assert (Hsl : forall k, (k < NSLOT)%nat ->
    slot v' ad k = if bool_decide (k = (13 + j)%nat) then b else slot (t_view a) ad k).
  { intros k Hk. unfold slot, NDIRECT in *. destruct (decide (k <= 12)%nat) as [Hle|Hgt].
    - rewrite !bool_decide_true by lia. by rewrite bool_decide_false by lia.
    - rewrite !(bool_decide_false (k <= 12)%nat) by lia. rewrite (proj2 (Z.eqb_neq _ _)) by done.
      rewrite Hvi. unfold NINDIRECT, NSLOT in *. destruct (bool_decide_reflect (k = (13 + j)%nat)) as [E|E].
      + subst k. replace (13 + j - 13)%nat with j by lia.
        rewrite get32_put32 by (rewrite Hlen; unfold BSIZE; lia). apply u32_small. lia.
      + apply get32_other; [rewrite Hlen; unfold BSIZE; lia|lia]. }
  eapply (grow_slot _ _ _ _ _ (13 + j)%nat b); try eassumption.
  - destruct (balloc_ok sb b a HL HF Hb (Hlen _)) as [H1 H2]. split.
    + by rewrite Hv by lia.
    + intros c Hc. rewrite Hus. auto.
  - unfold NSLOT, NINDIRECT in *. lia.
  - lia.
  - lia.
  - rewrite Hsl, bool_decide_true by (done || (unfold NSLOT, NINDIRECT in *; lia)). done.
  - intros k Hk Hne. rewrite Hsl by done. by rewrite bool_decide_false.
  - intros c Hc. rewrite Hus. by eapply balloc_used.
  - intros n H1 H2 Ho. destruct (decide (n = ind_of ad)) as [->|Hne].
    + exfalso. apply Ho. rewrite <- (ind_slot (t_view a)). apply owns_slot; [unfold NSLOT, NDIRECT; lia|done].
    + rewrite Hv by done. by apply balloc_view.
Qed.

End Grow.

(** ** [bmap] *)

Lemma not_in_diff (X : gset Z) n : n ∉ X ∖ {[n]}.
Proof. set_solver. Qed.

Definition set_addrs (l : list Z) (x : inode) : inode :=
  mkinode (i_dev x) (i_inum x) (i_ref x) (i_lock x) (i_valid x) (i_type x)
    (i_major x) (i_minor x) (i_nlink x) (i_size x) l.

(** What is left of the transaction, not counting again the map and the indirect
    block once they are logged. *)
Definition phi (sb : superblock) (ad : list Z) (a : tspec) : nat :=
  t_quota a + (if bool_decide (sb_bmapstart sb ∈ t_logged a) then 1 else 0)
    + (if bool_decide (ind_of ad <> 0 /\ ind_of ad ∈ t_logged a) then 1 else 0).

(** How many blocks the file can still gain. *)
Definition psi (sb : superblock) (ad : list Z) (v : Z -> block) : nat :=
  length (free_blocks sb v) + (if ind_of ad =? 0 then 0 else 1).

(** The state after the file has got its [bn]th block. *)
Record mapped (sb : superblock) (bn : nat) (ad : list Z) (a : tspec) (ad' : list Z) (a' : tspec) : Prop := {
  ma_held : t_held a' = ∅;
  ma_dirty : t_dirty a' = ∅;
  ma_grows : grows sb (t_view a) ad (t_view a') ad';
  ma_addr : addr_of (t_view a') ad' bn <> 0;
  ma_data k : (k < 140)%nat -> addr_of (t_view a) ad k <> 0 ->
    t_view a' (addr_of (t_view a) ad k) = t_view a (addr_of (t_view a) ad k);
  ma_same : addr_of (t_view a) ad bn <> 0 -> a' = a /\ ad' = ad;
  ma_log : addr_of (t_view a) ad bn = 0 -> addr_of (t_view a') ad' bn ∈ t_logged a';
  ma_phi : (phi sb ad a <= phi sb ad' a' + 1)%nat;
  ma_psi : (psi sb ad (t_view a) <= psi sb ad' (t_view a') + 1)%nat;
}.

Lemma mapped_refl sb bn ad a : fs_ok sb (t_view a) -> file_ok sb (t_view a) ad ->
  t_held a = ∅ -> t_dirty a = ∅ -> addr_of (t_view a) ad bn <> 0 -> mapped sb bn ad a ad a.
Proof. intros. split; auto; try lia; try done. by apply grows_refl. Qed.

Lemma balloc_quota sb b a :
  (t_quota a <= t_quota (balloc_spec sb b a) + alloc_cost sb a)%nat.
Proof. unfold alloc_cost. cbn. repeat case_bool_decide; lia. Qed.

Lemma balloc_logged sb b a n :
  n ∈ t_logged (balloc_spec sb b a) <-> n = b \/ n = sb_bmapstart sb \/ n ∈ t_logged a.
Proof. cbn. rewrite !elem_of_union, !elem_of_singleton. done. Qed.

Lemma slot_of_lt bn : (bn < 140)%nat -> (slot_of bn < NSLOT)%nat /\ slot_of bn <> NDIRECT.
Proof. unfold slot_of, NSLOT, NDIRECT. case_bool_decide; lia. Qed.

Section Bmap.
Context {S : Type} {TO : TxOps S} {disksize : Z} {home : Z -> Prop} {TD : TxView S disksize home}.
Implicit Types (t : S) (sb : superblock) (ic : list inode) (a : tspec) (x : inode).

Lemma psi_first_free sb ad v : layout disksize home sb -> (2 <= psi sb ad v)%nat ->
  exists b, first_free sb v = Some b.
Proof.
  intros HL H. apply (first_free_exists (disksize := disksize) (home := home)); [done|]. intros E.
  unfold psi in H. rewrite E in H. cbn in H. destruct (_ =? _); lia.
Qed.

Lemma held_empty_ok sb a : t_held a = ∅ -> t_dirty a = ∅ -> held_ok sb a.
Proof.
  intros Hh Hd. split_and!; [|done|].
  - rewrite Hh, map_size_empty. unfold MAXHELD. lia.
  - intros n. rewrite Hh, lookup_empty. by intros [? ?].
Qed.

(** [balloc] fills entry [i] of [addrs]. *)
Lemma fill_addr sb a ad i b : layout disksize home sb -> fs_ok sb (t_view a) ->
  file_ok sb (t_view a) ad -> (forall n, length (t_view a n) = BSIZE) ->
  (i <= NDIRECT)%nat -> nth i ad 0 = 0 -> first_free sb (t_view a) = Some b ->
  let a' := balloc_spec sb b a in let ad' := <[i := b]> ad in
  grows sb (t_view a) ad (t_view a') ad' /\ nth i ad' 0 = b /\ b <> 0 /\ b ∈ t_logged a' /\
  (forall k, (k < NSLOT)%nat -> slot (t_view a) ad k <> 0 ->
     t_view a' (slot (t_view a) ad k) = t_view a (slot (t_view a) ad k)) /\
  (phi sb ad a <= phi sb ad' a' + (if bool_decide (i = NDIRECT) then 0 else 1))%nat /\
  (psi sb ad (t_view a) <= psi sb ad' (t_view a') + (if bool_decide (i = NDIRECT) then 0 else 1))%nat.
Proof.
  intros HL HF Hfo Hlen Hi Hz Hb. cbv zeta.
  pose proof (first_free_data _ _ _ HL HF Hb) as Hbd. pose proof (ly_bm _ _ _ HL).
  destruct (first_free_Some _ _ _ HL Hb) as (_ & Hu & _). pose proof (fo_len _ _ _ Hfo) as Hl.
  assert (Hn : forall j, nth j (<[i := b]> ad) 0 = if bool_decide (j = i) then b else nth j ad 0).
  { intros j. apply nth_insert. unfold NDIRECT in *. lia. }
  assert (Hbl : b ∈ t_logged (balloc_spec sb b a)) by (apply balloc_logged; auto).
  assert (Hml : sb_bmapstart sb ∈ t_logged (balloc_spec sb b a)) by (apply balloc_logged; auto).
  assert (Hind : ind_of (<[i := b]> ad) = if bool_decide (i = NDIRECT) then b else ind_of ad).
  { unfold ind_of. rewrite Hn. repeat case_bool_decide; congruence. }
  pose proof (balloc_quota sb b a) as Hq. unfold alloc_cost in Hq.
  split_and!; auto.
  - by eapply grow_addr.
  - by rewrite Hn, bool_decide_true.
  - lia.
  - intros k Hk Hkz. destruct (fo_data _ _ _ Hfo k Hk Hkz). apply balloc_view; [lia|congruence].
  - unfold phi. rewrite Hind. rewrite (bool_decide_true (sb_bmapstart sb ∈ t_logged (balloc_spec sb b a))) by done.
    destruct (decide (i = NDIRECT)) as [->|Hne].
    + rewrite !(bool_decide_true (NDIRECT = NDIRECT)) by done.
      rewrite (bool_decide_true (b <> 0 /\ b ∈ t_logged (balloc_spec sb b a))) by (split; [lia|done]).
      rewrite (bool_decide_false (ind_of ad <> 0 /\ ind_of ad ∈ t_logged a)) by (unfold ind_of; tauto).
      revert Hq. destruct (bool_decide (sb_bmapstart sb ∈ t_logged a)); lia.
    + rewrite !(bool_decide_false (i = NDIRECT)) by done.
      assert ((if bool_decide (ind_of ad <> 0%Z /\ ind_of ad ∈ t_logged a) then 1 else 0) <=
              (if bool_decide (ind_of ad <> 0%Z /\ ind_of ad ∈ t_logged (balloc_spec sb b a)) then 1 else 0))%nat.
      { clear Hq Hind. repeat case_bool_decide; try lia. exfalso. cbn in *. set_solver. }
      revert Hq. destruct (bool_decide (sb_bmapstart sb ∈ t_logged a)); lia.
  - unfold psi. rewrite Hind.
    rewrite (free_blocks_less sb (t_view a) (t_view (balloc_spec sb b a)) b); [|lia|done|].
    + destruct (decide (i = NDIRECT)) as [->|Hne].
      * rewrite !bool_decide_true by done. unfold ind_of. rewrite Hz. cbn.
        rewrite (proj2 (Z.eqb_neq b 0)) by lia. lia.
      * rewrite !bool_decide_false by done. lia.
    + intros c Hc. by eapply balloc_used.
Qed.

(** [balloc] fills entry [j] of the indirect block. *)
Lemma fill_entry sb a ad j b : layout disksize home sb -> fs_ok sb (t_view a) ->
  file_ok sb (t_view a) ad -> (forall n, length (t_view a n) = BSIZE) ->
  (j < NINDIRECT)%nat -> ind_of ad <> 0 -> slot (t_view a) ad (13 + j) = 0 ->
  first_free sb (t_view a) = Some b ->
  let a' := upd_blk (ind_of ad) (put32 (t_view a (ind_of ad)) (4 * j) b) (balloc_spec sb b a) in
  grows sb (t_view a) ad (t_view a') ad /\ slot (t_view a') ad (13 + j) = b /\ b <> 0 /\
  b ∈ t_logged a' /\
  (forall k, (k < NSLOT)%nat -> k <> NDIRECT -> slot (t_view a) ad k <> 0 ->
     t_view a' (slot (t_view a) ad k) = t_view a (slot (t_view a) ad k)) /\
  (phi sb ad a <= phi sb ad a' + 1)%nat /\ (psi sb ad (t_view a) <= psi sb ad (t_view a') + 1)%nat.
Proof.
  intros HL HF Hfo Hlen Hj Hnz Hz Hb. cbv zeta.
  pose proof (first_free_data _ _ _ HL HF Hb) as Hbd. pose proof (ly_bm _ _ _ HL).
  destruct (first_free_Some _ _ _ HL Hb) as (_ & Hu & _).
  assert (HG := grow_entry sb a ad j b _ HL HF Hfo Hlen Hj Hnz Hz Hbd Hu eq_refl).
  destruct (fo_data _ _ _ Hfo NDIRECT ltac:(unfold NSLOT, NDIRECT; lia) Hnz) as [Hr Hx].
  rewrite ind_slot in Hr, Hx.
  set (a1 := balloc_spec sb b a) in *. set (a' := upd_blk _ _ _).
  assert (Hlog : t_logged a' = {[ind_of ad]} ∪ t_logged a1) by done.
  assert (Hq : (t_quota a1 <= t_quota a' + (if bool_decide (ind_of ad ∈ t_logged a1) then 0 else 1))%nat).
  { unfold a', upd_blk. cbn [t_quota]. destruct (bool_decide (ind_of ad ∈ t_logged a1)); lia. }
  pose proof (balloc_quota sb b a) as Hq1. unfold alloc_cost in Hq1. fold a1 in Hq1.
  assert (Hbl : b ∈ t_logged a1) by (apply balloc_logged; auto).
  assert (Hml : sb_bmapstart sb ∈ t_logged a1) by (apply balloc_logged; auto).
  assert (Hsub : ind_of ad ∈ t_logged a -> ind_of ad ∈ t_logged a1) by (intros; apply balloc_logged; auto).
  split_and!; auto.
  - unfold slot. rewrite bool_decide_false by (unfold NDIRECT; lia).
    rewrite (proj2 (Z.eqb_neq _ _)) by done. cbn [t_view a' upd_blk]. rewrite write_disk_eq.
    replace (13 + j - 13)%nat with j by lia. unfold NINDIRECT in *.
    rewrite get32_put32 by (rewrite Hlen; unfold BSIZE; lia). pose proof (ly_size _ _ _ HL).
    apply u32_small. unfold BPB in *. lia.
  - lia.
  - rewrite Hlog. by apply elem_of_union_r.
  - intros k Hk Hkd Hkz. destruct (fo_data _ _ _ Hfo k Hk Hkz). cbn [t_view a' upd_blk].
    rewrite write_disk_other; [apply balloc_view; [lia|congruence]|].
    intros E. apply Hkd. apply (fo_inj _ _ _ Hfo); [done|unfold NSLOT, NDIRECT; lia|done|done].
  - unfold phi. rewrite Hlog.
    rewrite (bool_decide_true (sb_bmapstart sb ∈ {[ind_of ad]} ∪ t_logged a1)) by (by apply elem_of_union_r).
    rewrite (bool_decide_true (ind_of ad <> 0 /\ ind_of ad ∈ {[ind_of ad]} ∪ t_logged a1))
      by (split; [done|by apply elem_of_union_l, elem_of_singleton]).
    destruct (bool_decide_reflect (ind_of ad ∈ t_logged a1)) as [|Hn]; [|rewrite (bool_decide_false (_ <> _ /\ _)) by tauto];
      revert Hq1; destruct (bool_decide (sb_bmapstart sb ∈ t_logged a)); try case_bool_decide; lia.
  - unfold psi. rewrite (free_blocks_less sb (t_view a) (t_view a') b); [lia|lia|done|].
    intros c Hc. transitivity (used sb (t_view a1) c); [|by eapply balloc_used].
    unfold used. cbn [t_view a' upd_blk]. by rewrite write_disk_other by lia.
Qed.

(** Three blocks pay for a new data block and the indirect block. *)
Lemma phi_entry_cost sb ad a : ind_of ad <> 0 -> (3 <= phi sb ad a)%nat ->
  (alloc_cost sb a + (if bool_decide (ind_of ad ∈ t_logged a) then 0 else 1) <= t_quota a)%nat.
Proof.
  intros Hnz Hp. unfold phi in Hp. unfold alloc_cost. destruct (decide (ind_of ad ∈ t_logged a)).
  - rewrite (bool_decide_true (ind_of ad ∈ t_logged a)) by done. rewrite (bool_decide_true (_ /\ _)) in Hp by done.
    destruct (bool_decide (sb_bmapstart sb ∈ t_logged a)); lia.
  - rewrite (bool_decide_false (ind_of ad ∈ t_logged a)) by done. rewrite (bool_decide_false (_ /\ _)) in Hp by tauto.
    destruct (bool_decide (sb_bmapstart sb ∈ t_logged a)); lia.
Qed.

(** The part of [bmap] that goes through the indirect block. *)
Lemma bmap_entry t sb ic a ad j (Q : Z -> fsst S -> Prop) :
  trepr t a -> layout disksize home sb -> fs_ok sb (t_view a) -> t_held a = ∅ -> t_dirty a = ∅ ->
  file_ok sb (t_view a) ad -> (j < NINDIRECT)%nat -> ind_of ad <> 0 ->
  slot (t_view a) ad (13 + j) <> 0 \/ (3 <= phi sb ad a)%nat /\ (2 <= psi sb ad (t_view a))%nat ->
  (forall t' a', trepr t' a' -> mapped sb (12 + j) ad a ad a' ->
     Q (slot (t_view a') ad (13 + j)) (mkfs t' sb ic)) ->
  wp (let! bp := lift (tx_read 1 (ind_of ad)) in
      let! d := lift (tx_data bp) in
      let addr := get32 d (4 * j) in
      let! addr :=
        (if addr =? 0 then
           let! addr := balloc 1 in
           lift (tx_set bp (put32 d (4 * j) addr)) ;;
           lift (tx_log bp) ;;
           ret addr
         else ret addr) in
      lift (tx_relse bp) ;;
      ret addr) (mkfs t sb ic) Q.
Proof.
  intros HR HL HF Hh Hd Hfo Hj Hnz Hc Hk.
  assert (Hlen : forall n, length (t_view a n) = BSIZE) by (intros n; by eapply t_len).
  destruct (fo_data _ _ _ Hfo NDIRECT ltac:(unfold NSLOT, NDIRECT; lia) Hnz) as [Hr Hx].
  rewrite ind_slot in Hr, Hx. set (n := ind_of ad) in *.
  assert (Hs : slot (t_view a) ad (13 + j) = get32 (t_view a n) (4 * j)).
  { unfold slot. rewrite bool_decide_false by (unfold NDIRECT; lia).
    rewrite (proj2 (Z.eqb_neq _ _)) by done. by replace (13 + j - 13)%nat with j by lia. }
  assert (Hso : slot_of (12 + j) = (13 + j)%nat) by (unfold slot_of, NDIRECT; by rewrite bool_decide_false by lia).
  pose proof (ly_disk _ _ _ HL). pose proof (ly_bm _ _ _ HL).
  eapply f_read; [exact HR|lia|by rewrite Hh|by eapply held_empty_ok|]. intros bp t1 R1.
  eapply f_peek; [exact R1|]. cbv zeta. rewrite <- Hs. apply wp_bind.
  destruct (Z.eqb_spec (slot (t_view a) ad (13 + j)) 0) as [Hz|Hz].
  - destruct Hc as [?|[Hp Hq]]; [done|].
    destruct (psi_first_free sb ad (t_view a) HL Hq) as [b Hb].
    destruct (fill_entry sb a ad j b HL HF Hfo Hlen Hj Hnz Hz Hb) as (G & Hsl & Hb0 & Hbl & Hdat & Hphi & Hpsi).
    pose proof (phi_entry_cost sb ad a Hnz Hp) as Hcost. fold n in Hcost.
    apply wp_bind.
    eapply (balloc_run t1 sb ic (t_take n bp a) b); [exact R1|done|done| | |done|].
    { split_and!; [|done|].
      - cbn. rewrite Hh, insert_empty, map_size_singleton. unfold MAXHELD. lia.
      - intros m. cbn. rewrite Hh, insert_empty. intros [y [<- _]%lookup_singleton_Some].
        split; [lia|exact Hx]. }
    { unfold alloc_cost in *. cbn in *. lia. }
    intros t2 R2. change (balloc_spec sb b (t_take n bp a)) with (t_take n bp (balloc_spec sb b a)) in R2.
    eapply f_set; [exact R2|cbn; by rewrite lookup_insert_eq|by rewrite length_put32|]. intros t3 R3.
    eapply f_log; [exact R3|cbn; by rewrite lookup_insert_eq| | |].
    { by apply (ly_data _ _ _ HL). }
    { unfold can_log. cbn [t_logged t_put t_take t_quota]. pose proof (balloc_quota sb b a).
      destruct (decide (n ∈ t_logged a)); [left; apply balloc_logged; auto|right].
      rewrite bool_decide_false in Hcost by done. lia. }
    intros t4 R4. apply wp_ret. apply wp_bind.
    eapply f_relse'; [exact R4|cbn; by rewrite lookup_insert_eq|apply not_in_diff|]. intros t5 R5.
    rewrite update_id in R5; [|cbn; by rewrite Hh|cbn; by rewrite Hd]. apply wp_ret.
    rewrite <- Hsl at 1. apply Hk; [exact R5|]. split; auto.
    + unfold addr_of. rewrite Hso. cbn [Nat.add] in Hsl |- *. by rewrite Hsl.
    + intros k Hkk. apply Hdat; by apply slot_of_lt.
    + unfold addr_of. rewrite Hso. done.
    + intros _. unfold addr_of. rewrite Hso. cbn [Nat.add] in Hsl |- *. by rewrite Hsl.
  - apply wp_ret. apply wp_bind. eapply f_relse'; [exact R1|cbn; by rewrite lookup_insert_eq|cbn; by rewrite Hd|].
    intros t2 R2. rewrite take_drop_id in R2 by (by rewrite Hh). apply wp_ret.
    apply Hk; [exact R2|]. apply mapped_refl; auto.
Qed.

Lemma set_addrs_id x : set_addrs (i_addrs x) x = x.
Proof. by destruct x. Qed.

Lemma nth_lookup_Some {A} (l : list A) i d : (i < length l)%nat -> l !! i = Some (nth i l d).
Proof. intros H. destruct (lookup_lt_is_Some_2 l i H) as [y Hy]. by rewrite (nth_lookup_Some _ _ _ _ Hy). Qed.

Lemma phi_cost sb ad a : (3 <= phi sb ad a)%nat -> (alloc_cost sb a <= t_quota a)%nat.
Proof. unfold phi, alloc_cost. repeat case_bool_decide; lia. Qed.

(** Filling the indirect pointer first does not change the file. *)
Lemma mapped_after_ind sb j a ad b ad' a' : layout disksize home sb -> fs_ok sb (t_view a) ->
  file_ok sb (t_view a) ad -> (forall n, length (t_view a n) = BSIZE) -> (j < NINDIRECT)%nat ->
  ind_of ad = 0 -> first_free sb (t_view a) = Some b ->
  mapped sb (12 + j) (<[NDIRECT := b]> ad) (balloc_spec sb b a) ad' a' ->
  mapped sb (12 + j) ad a ad' a'.
Proof.
  intros HL HF Hfo Hlen Hj Hz Hb [M1 M2 M3 M4 M5 M6 M7 M8 M9].
  destruct (fill_addr sb a ad NDIRECT b HL HF Hfo Hlen ltac:(lia) Hz Hb) as (G & Hn & Hb0 & Hbl & Hdat & Hphi & Hpsi).
  rewrite bool_decide_true in Hphi, Hpsi by done.
  assert (Hsl : forall i, (i < NSLOT)%nat -> (12 < i)%nat -> slot (t_view a) ad i = 0).
  { intros i Hi Hgt. unfold slot, NDIRECT. rewrite bool_decide_false by lia. by rewrite Hz. }
  assert (Hso : (13 <= slot_of (12 + j) < NSLOT)%nat).
  { unfold slot_of, NDIRECT, NSLOT, NINDIRECT in *. rewrite bool_decide_false by lia. lia. }
  split; auto; try lia.
  - by eapply grows_trans.
  - intros k Hk Hkz. destruct (slot_of_lt k Hk) as [Hk1 _].
    assert (E : addr_of (t_view (balloc_spec sb b a)) (<[NDIRECT := b]> ad) k = addr_of (t_view a) ad k).
    { apply (gr_slot _ _ _ _ _ G); done. }
    rewrite <- E, M5; [|done|by rewrite E]. rewrite E. by apply Hdat.
  - intros Hx. exfalso. apply Hx. apply Hsl; lia.
  - intros _. destruct (decide (addr_of (t_view (balloc_spec sb b a)) (<[NDIRECT := b]> ad) (12 + j) = 0)) as [E|E].
    + by apply M7.
    + exfalso. apply E. unfold addr_of, slot. rewrite bool_decide_false by (unfold NDIRECT; lia).
      unfold ind_of. rewrite Hn. rewrite (proj2 (Z.eqb_neq b 0)) by done.
      by rewrite balloc_zero, get32_zero.
Qed.

Lemma bmap_direct t sb ic a ip x bn (Q : Z -> fsst S -> Prop) : let ad := i_addrs x in
  trepr t a -> layout disksize home sb -> fs_ok sb (t_view a) -> t_held a = ∅ -> t_dirty a = ∅ ->
  ic !! ip = Some x -> file_ok sb (t_view a) ad -> (bn < 12)%nat ->
  addr_of (t_view a) ad bn <> 0 \/ (3 <= phi sb ad a)%nat /\ (2 <= psi sb ad (t_view a))%nat ->
  (forall t' a' ad', trepr t' a' -> mapped sb bn ad a ad' a' ->
     Q (addr_of (t_view a') ad' bn) (mkfs t' sb (<[ip := set_addrs ad' x]> ic))) ->
  wp (let! addr := deref (ad !! bn) in
      if addr =? 0 then
        let! addr := balloc 1 in
        seti ip (set_addr bn addr) ;;
        ret addr
      else ret addr) (mkfs t sb ic) Q.
Proof.
  intros ad HR HL HF Hh Hd Hx Hfo Hlt Hc Hk.
  assert (Hlen : forall n, length (t_view a n) = BSIZE) by (intros n; by eapply t_len).
  pose proof (fo_len _ _ _ Hfo) as Hl. pose proof (held_empty_ok sb a Hh Hd) as Hho.
  assert (Hso : slot_of bn = bn) by (unfold slot_of, NDIRECT; by rewrite bool_decide_true by lia).
  assert (Ha : addr_of (t_view a) ad bn = nth bn ad 0).
  { unfold addr_of. rewrite Hso. unfold slot, NDIRECT. by rewrite bool_decide_true by lia. }
  apply wp_bind. eapply wp_deref; [apply (nth_lookup_Some _ _ 0); lia|].
  destruct (Z.eqb_spec (nth bn ad 0) 0) as [Hz|Hz].
  - destruct Hc as [?|[Hp Hq]]; [congruence|].
    destruct (psi_first_free sb ad (t_view a) HL Hq) as [b Hb].
    destruct (fill_addr sb a ad bn b HL HF Hfo Hlen ltac:(unfold NDIRECT; lia) Hz Hb)
      as (G & Hn & Hb0 & Hbl & Hdat & Hphi & Hpsi).
    rewrite bool_decide_false in Hphi, Hpsi by (unfold NDIRECT; lia).
    assert (Ha' : addr_of (t_view (balloc_spec sb b a)) (<[bn := b]> ad) bn = b).
    { unfold addr_of. rewrite Hso. unfold slot, NDIRECT. by rewrite bool_decide_true by lia. }
    apply wp_bind. eapply balloc_run; eauto using phi_cost. intros t1 R1.
    eapply f_seti; [done|]. apply wp_ret. rewrite <- Ha' at 1. apply Hk; [exact R1|].
    split; auto; try (by rewrite Ha'); [|by rewrite Ha].
    intros k Hkk. apply Hdat. by apply slot_of_lt.
  - apply wp_ret. rewrite <- Ha. rewrite <- (list_insert_id ic ip x Hx).
    rewrite <- (set_addrs_id x) at 1. apply Hk; [exact HR|].
    fold ad. apply mapped_refl; auto. by rewrite Ha.
Qed.

Lemma bmap_run t sb ic a ip x bn (Q : Z -> fsst S -> Prop) :
  trepr t a -> layout disksize home sb -> fs_ok sb (t_view a) -> t_held a = ∅ -> t_dirty a = ∅ ->
  ic !! ip = Some x -> i_dev x = 1 -> file_ok sb (t_view a) (i_addrs x) -> (bn < 140)%nat ->
  addr_of (t_view a) (i_addrs x) bn <> 0 \/
    (3 <= phi sb (i_addrs x) a)%nat /\ (2 <= psi sb (i_addrs x) (t_view a))%nat ->
  (forall t' a' ad', trepr t' a' -> mapped sb bn (i_addrs x) a ad' a' ->
     Q (addr_of (t_view a') ad' bn) (mkfs t' sb (<[ip := set_addrs ad' x]> ic))) ->
  wp (bmap ip (Z.of_nat bn)) (mkfs t sb ic) Q.
Proof.
  intros HR HL HF Hh Hd Hx Hdev Hfo Hbn Hc Hk. set (ad := i_addrs x) in *.
  assert (Hlen : forall n, length (t_view a n) = BSIZE) by (intros n; by eapply t_len).
  pose proof (fo_len _ _ _ Hfo) as Hl. pose proof (held_empty_ok sb a Hh Hd) as Hho.
  unfold bmap. eapply f_geti; [done|]. rewrite Hdev. fold ad. unfold NDIRECT, NINDIRECT.
  destruct (Z.ltb_spec (Z.of_nat bn) (Z.of_nat 12)) as [Hlt|Hge].
  - rewrite Nat2Z.id. apply bmap_direct with a; [done..|lia|done|done].
  - rewrite (proj2 (Z.ltb_lt _ _)) by lia.
    replace (Z.to_nat (Z.of_nat bn - Z.of_nat 12)) with (bn - 12)%nat by lia.
    set (j := (bn - 12)%nat). assert (Hj : (j < NINDIRECT)%nat) by (unfold j, NINDIRECT; lia).
    replace bn with (12 + j)%nat in * by (unfold j; lia).
    assert (Hso : slot_of (12 + j) = (13 + j)%nat) by (unfold slot_of, NDIRECT; by rewrite bool_decide_false by lia).
    unfold addr_of in Hk, Hc. rewrite Hso in Hk, Hc.
    apply wp_bind. eapply wp_deref; [apply (nth_lookup_Some _ _ 0); lia|]. change (nth 12 ad 0) with (ind_of ad). apply wp_bind.
    destruct (Z.eqb_spec (ind_of ad) 0) as [Hz|Hz].
    + destruct Hc as [Hc|[Hp Hq]].
      { exfalso. apply Hc. unfold slot, NDIRECT. rewrite bool_decide_false by lia. by rewrite Hz. }
      destruct (psi_first_free sb ad (t_view a) HL Hq) as [b Hb].
      destruct (fill_addr sb a ad NDIRECT b HL HF Hfo Hlen ltac:(lia) Hz Hb)
        as (G & Hn & Hb0 & Hbl & Hdat & Hphi & Hpsi). rewrite bool_decide_true in Hphi, Hpsi by done.
      apply wp_bind. eapply balloc_run; eauto using phi_cost. intros t1 R1.
      eapply f_seti; [done|]. apply wp_ret.
      replace b with (ind_of (<[NDIRECT := b]> ad)) at 1 by exact Hn.
      eapply bmap_entry; [exact R1|done|apply G|done|done|apply G|done|unfold ind_of; by rewrite Hn|right; lia|].
      intros t2 a2 R2 M2. apply Hk; [exact R2|]. by eapply mapped_after_ind.
    + apply wp_ret. eapply bmap_entry; [exact HR|done..|].
      intros t2 a2 R2 M2. rewrite <- (list_insert_id ic ip x Hx), <- (set_addrs_id x) at 1. by apply Hk.
Qed.

End Bmap.
