(* ===== verification/FsContents.v ===== *)
(** * File contents ([fs.c]: [readi], [writei], [iupdate])

    A file is a list of bytes.  [readi] returns a part of it and [writei] replaces
    a part of it or extends it, and no other block of the disk in use changes. *)
From S2P Require Import Prelude Bio Log LogSpec Tx Fs FsBlocks FsInode FsFiles.

(** ** Files as byte strings *)

(** Byte [i] of the file. *)
Definition fbyte (v : Z -> block) (ad : list Z) (i : nat) : Z :=
  nth (i mod 512) (v (addr_of v ad (i / 512))) 0.

Definition contents (v : Z -> block) (ad : list Z) (size : Z) : list Z :=
  fbyte v ad <$> seq 0 (Z.to_nat size).

Definition MAXSIZE : Z := 71680.

(** Block [bn] of the file holds [d]. *)
Lemma slice_block v ad off m d : (m <= 512 - off mod 512)%nat ->
  d = v (addr_of v ad (off / 512)) -> length d = BSIZE ->
  take m (drop (off mod 512) d) = fbyte v ad <$> seq off m.
Proof.
  intros Hm -> Hl. apply (nth_ext _ _ 0 0).
  - rewrite length_take, length_drop, Hl, length_fmap, length_seq. unfold BSIZE. lia.
  - intros i Hi. rewrite length_take, length_drop, Hl in Hi.
    assert (Hlt : (i < m)%nat) by lia. pose proof (Nat.mod_upper_bound off 512 ltac:(lia)).
    pose proof (Nat.div_mod off 512 ltac:(lia)).
    rewrite !nth_lookup, lookup_take_lt, lookup_drop, list_lookup_fmap by done.
    rewrite lookup_seq_lt by done. cbn [fmap option_fmap option_map default]. rewrite <- nth_lookup.
    unfold fbyte. assert (E : ((off + i) / 512 = off / 512)%nat).
    { symmetry. apply (Nat.div_unique _ _ _ (off mod 512 + i)); lia. }
    rewrite E. cbn [id]. f_equal. apply (Nat.mod_unique _ _ (off / 512)); lia.
Qed.

Lemma addr_mapped sb v ad bn : file_ok sb v ad -> (bn < 140)%nat -> addr_of v ad bn <> 0 ->
  sb_bmapstart sb < addr_of v ad bn < sb_size sb /\ used sb v (addr_of v ad bn) = true /\
  owns v ad (addr_of v ad bn) /\ addr_of v ad bn <> ind_of ad.
Proof.
  intros Hfo Hbn Hz. destruct (slot_of_lt bn Hbn) as [H1 H2].
  destruct (fo_data _ _ _ Hfo _ H1 Hz). unfold addr_of in *. split_and!; try done; try lia.
  - by apply owns_slot.
  - intros E. apply H2. apply (fo_inj _ _ _ Hfo); auto. unfold NSLOT, NDIRECT. lia.
Qed.

Lemma slot_of_inj i j : slot_of i = slot_of j -> i = j.
Proof. unfold slot_of. repeat case_bool_decide; lia. Qed.

(** A data block of the file is overwritten. *)
Lemma slot_write v ad n d i : n <> ind_of ad -> slot (write_disk n d v) ad i = slot v ad i.
Proof. intros H. unfold slot. by rewrite write_disk_other. Qed.

Lemma grow_data sb v ad bn d : 1 < sb_bmapstart sb -> fs_ok sb v -> file_ok sb v ad -> (bn < 140)%nat ->
  addr_of v ad bn <> 0 -> grows sb v ad (write_disk (addr_of v ad bn) d v) ad.
Proof.
  intros Hbm [F1 F2] Hfo Hbn Hz. destruct (addr_mapped _ _ _ _ Hfo Hbn Hz) as (Hr & Hu & Ho & Hi).
  set (n := addr_of v ad bn) in *. set (v' := write_disk n d v).
  assert (Hs : forall i, slot v' ad i = slot v ad i) by (intros; by apply slot_write).
  assert (Hus : forall c, used sb v' c = used sb v c).
  { intros c. unfold used, v'. by rewrite write_disk_other by lia. }
  split.
  - split; [unfold v'; by rewrite write_disk_other by lia|]. intros b Hb. rewrite Hus. auto.
  - destruct Hfo as [G1 G2 G3]. split; auto; intros *; rewrite !Hs, ?Hus; auto.
  - intros m _. by rewrite Hus.
  - intros m (Hm & i & Hii & E). left. split; [done|]. exists i. by rewrite <- Hs.
  - intros m _ _ _ Hno. unfold v'. apply write_disk_other. congruence.
  - auto.
Qed.

Lemma fbyte_write sb v ad bn d i : file_ok sb v ad -> (bn < 140)%nat -> addr_of v ad bn <> 0 ->
  Z.of_nat i < MAXSIZE ->
  fbyte (write_disk (addr_of v ad bn) d v) ad i =
  if bool_decide (i / 512 = bn)%nat then nth (i mod 512) d 0 else fbyte v ad i.
Proof.
  intros Hfo Hbn Hz Hi. destruct (addr_mapped _ _ _ _ Hfo Hbn Hz) as (_ & _ & _ & Hni).
  unfold fbyte, addr_of at 2. rewrite slot_write by done. fold (addr_of v ad (i / 512)).
  assert (i / 512 < 140)%nat by (apply Nat.Div0.div_lt_upper_bound; unfold MAXSIZE in *; lia).
  rewrite write_disk_at. destruct (bool_decide_reflect (i / 512 = bn)%nat) as [->|Hne].
  - by rewrite Z.eqb_refl.
  - destruct (Z.eqb_spec (addr_of v ad (i / 512)) (addr_of v ad bn)) as [E|]; [|done].
    exfalso. apply Hne, slot_of_inj. apply (fo_inj _ _ _ Hfo); [by apply slot_of_lt..| |exact E].
    unfold addr_of in *. congruence.
Qed.

(** The inode and the disk agree that this is a file of [i_size] bytes. *)
Record inode_ok (sb : superblock) (v : Z -> block) (x : inode) : Prop := {
  io_dev : i_dev x = 1;
  io_file : file_ok sb v (i_addrs x);
  io_size : 0 <= i_size x <= MAXSIZE;
  io_map bn : 512 * Z.of_nat bn < i_size x -> addr_of v (i_addrs x) bn <> 0;
}.

Lemma off_div (o : nat) : Z.of_nat o / 512 = Z.of_nat (o / 512).
Proof. by rewrite Nat2Z.inj_div. Qed.

Lemma off_mod (o : nat) : Z.to_nat (Z.of_nat o mod 512) = (o mod 512)%nat.
Proof. change 512 with (Z.of_nat 512). by rewrite <- Nat2Z.inj_mod, Nat2Z.id. Qed.

Lemma off_mod_range (o : nat) : 0 <= Z.of_nat o mod 512 < 512.
Proof. apply Z.mod_pos_bound. lia. Qed.

(** The blocks that [k] bytes at [off] touch. *)
Definition nblocks_at (off k : nat) : nat :=
  if bool_decide (k = 0)%nat then 0 else (off + k - 1) / 512 - off / 512 + 1.

(** The bytes from [off] that lie in its block. *)
Lemma chunk_div off len i : (0 < len <= 512 - off mod 512)%nat -> (off <= i < off + len)%nat ->
  (i / 512 = off / 512 /\ i mod 512 = off mod 512 + (i - off))%nat.
Proof.
  intros Hl Hi. pose proof (Nat.div_mod off 512 ltac:(lia)).
  assert (E : (i / 512 = off / 512)%nat).
  { symmetry. apply (Nat.div_unique _ _ _ (off mod 512 + (i - off))); lia. }
  split; [done|]. symmetry. apply (Nat.mod_unique _ _ (off / 512)); lia.
Qed.

Lemma nblocks_one off len : (0 < len <= 512 - off mod 512)%nat -> nblocks_at off len = 1%nat.
Proof.
  intros Hl. unfold nblocks_at. rewrite bool_decide_false by lia.
  destruct (chunk_div off len (off + len - 1)) as [-> _]; [done|lia|lia].
Qed.

(** The size of the next chunk: up to the end of the block or of the data. *)
Lemma chunk_size off k : (0 < k)%nat -> exists j, Z.min (Z.of_nat k) (512 - Z.of_nat off mod 512) = Z.of_nat j /\
  (0 < j <= k)%nat /\ (j <= 512 - off mod 512)%nat /\ ((off + j) mod 512 = 0 \/ j = k)%nat.
Proof.
  intros Hk. pose proof (off_mod_range off). pose proof (off_mod off).
  exists (Z.to_nat (Z.min (Z.of_nat k) (512 - Z.of_nat off mod 512))). split_and!; try lia.
  destruct (Z.le_gt_cases (Z.of_nat k) (512 - Z.of_nat off mod 512)); [right; lia|left].
  pose proof (Nat.div_mod off 512 ltac:(lia)). symmetry.
  apply (Nat.mod_unique _ _ (off / 512 + 1)); lia.
Qed.

(** A write to a block that is logged costs nothing, and to another one block. *)
Lemma phi_upd sb ad n d a : (phi sb ad a <= phi sb ad (upd_blk n d a) + (if bool_decide (n ∈ t_logged a) then 0 else 1))%nat.
Proof.
  unfold phi, upd_blk. cbn [t_quota t_logged]. destruct (bool_decide_reflect (n ∈ t_logged a)) as [H|H].
  - by rewrite (subseteq_union_1_L {[n]} (t_logged a)), Nat.add_0_r by (by apply singleton_subseteq_l).
  - repeat case_bool_decide; try lia; set_solver.
Qed.

(** One round of [writei]: the block is mapped and the bytes [bs] stored. *)
(** A write behind the free map leaves the number of free blocks. *)
Lemma psi_upd sb ad n d a : sb_bmapstart sb < n -> psi sb ad (t_view (upd_blk n d a)) = psi sb ad (t_view a).
Proof.
  intros Hn. unfold psi, free_blocks. f_equal. f_equal. apply list_filter_iff. intros c.
  unfold used, upd_blk. cbn [t_view]. rewrite write_disk_other; [done|]. lia.
Qed.

Section Contents.
Context {S : Type} {TO : TxOps S} {disksize : Z} {home : Z -> Prop} {TD : TxView S disksize home}.
Context (dev_read : Z -> option (Z -> M (fsst S) (Z * list Z))).
Context (dev_write : Z -> option (list Z -> M (fsst S) Z)).
Implicit Types (t : S) (sb : superblock) (ic : list inode) (a : tspec) (x : inode).

(** Between two operations of the file system on a disk in order. *)
Record calm (sb : superblock) (a : tspec) : Prop := {
  ca_layout : layout disksize home sb;
  ca_ok : fs_ok sb (t_view a);
  ca_held : t_held a = ∅;
  ca_dirty : t_dirty a = ∅;
}.

Lemma readi_loop_run fuel t sb ic a ip x off k n :
  trepr t a -> calm sb a -> ic !! ip = Some x -> inode_ok sb (t_view a) x ->
  Z.of_nat (off + k) <= i_size x -> (k <= fuel)%nat ->
  wp (readi_loop fuel ip (n - Z.of_nat k) n (Z.of_nat off)) (mkfs t sb ic)
    (fun bs s' => bs = fbyte (t_view a) (i_addrs x) <$> seq off k /\
       exists t', s' = mkfs t' sb ic /\ trepr t' a).
Proof.
  intros HR HC Hx HI. revert t HR off k n. induction fuel as [|fuel IH]; intros t HR off k n Hsz Hf.
  { assert (k = 0%nat) as -> by lia. cbn [readi_loop]. rewrite (proj2 (Z.ltb_ge _ _)) by lia.
    apply wp_ret. eauto. }
  cbn [readi_loop]. destruct (Z.ltb_spec (n - Z.of_nat k) n) as [Hlt|Hge].
  2:{ assert (k = 0%nat) as -> by lia. apply wp_ret. eauto. }
  destruct HI as [Hdev Hfo Hs Hmap]. destruct HC as [HL HF Hh Hd].
  assert (Hz : addr_of (t_view a) (i_addrs x) (off / 512) <> 0).
  { apply Hmap. pose proof (Nat.div_mod off 512 ltac:(lia)). lia. }
  assert (Hbn : (off / 512 < 140)%nat).
  { apply Nat.Div0.div_lt_upper_bound. unfold MAXSIZE in *. lia. }
  destruct (addr_mapped _ _ _ _ Hfo Hbn Hz) as (Hr & _).
  pose proof (ly_disk _ _ _ HL). pose proof (ly_bm _ _ _ HL).
  apply wp_bind. rewrite off_div.
  eapply bmap_run; [exact HR|done..|by left|]. intros t1 a1 ad1 R1 M1.
  destruct (ma_same _ _ _ _ _ _ M1 Hz) as [-> ->]. rewrite set_addrs_id, list_insert_id by done.
  eapply f_geti; [done|]. rewrite Hdev.
  eapply f_read; [exact R1|lia|by rewrite Hh|by eapply held_empty_ok|]. intros bp t2 R2.
  eapply f_peek; [exact R2|]. cbv zeta. eapply f_done; [exact R2|by rewrite Hh|by rewrite Hd|]. intros t3 R3.
  pose proof (off_mod_range off) as Hm. rewrite off_mod.
  set (m := Z.min (n - (n - Z.of_nat k)) (512 - Z.of_nat off mod 512)).
  assert (Hmn : exists j, m = Z.of_nat j /\ (0 < j <= k)%nat /\ (j <= 512 - off mod 512)%nat).
  { exists (Z.to_nat m). pose proof (off_mod off). unfold m in *. lia. }
  destruct Hmn as (j & -> & Hj & Hj'). rewrite Nat2Z.id.
  replace (n - Z.of_nat k + Z.of_nat j) with (n - Z.of_nat (k - j)) by lia.
  rewrite <- Nat2Z.inj_add. eapply wp_seq; [apply IH; [exact R3|lia|lia]|].
  intros bs s' (-> & t4 & -> & R4). apply wp_ret. split; [|eauto].
  rewrite (slice_block (t_view a) (i_addrs x) off j) by (done || by eapply t_len).
  rewrite <- fmap_app. f_equal. rewrite <- seq_app. f_equal. lia.
Qed.

Lemma take_drop_contents v ad size off n : (off + n <= Z.to_nat size)%nat ->
  take n (drop off (contents v ad size)) = fbyte v ad <$> seq off n.
Proof.
  intros H. unfold contents. rewrite <- fmap_drop, <- fmap_take. f_equal.
  rewrite drop_seq, take_seq. cbn. f_equal. lia.
Qed.

Lemma readi_run t sb ic a ip x off n :
  trepr t a -> calm sb a -> ic !! ip = Some x -> inode_ok sb (t_view a) x -> i_type x <> T_DEV ->
  0 <= n -> Z.of_nat off + n < 4294967296 -> Z.of_nat off <= i_size x ->
  wp (readi dev_read ip (Z.of_nat off) n) (mkfs t sb ic)
    (fun r s' => r = (Z.min n (i_size x - Z.of_nat off),
                      take (Z.to_nat n) (drop off (contents (t_view a) (i_addrs x) (i_size x)))) /\
       exists t', s' = mkfs t' sb ic /\ trepr t' a).
Proof.
  intros HR HC Hx HI Ht Hn Hov Hoff. unfold readi. eapply f_geti; [done|].
  rewrite (proj2 (Z.eqb_neq _ _)) by done. rewrite u32_small by lia.
  rewrite (proj2 (Z.ltb_ge _ _)), (proj2 (Z.ltb_ge (Z.of_nat off + n) _)) by lia. cbn [orb].
  set (n' := if i_size x <? Z.of_nat off + n then i_size x - Z.of_nat off else n). cbv zeta.
  assert (Hn' : n' = Z.min n (i_size x - Z.of_nat off)).
  { unfold n'. destruct (Z.ltb_spec (i_size x) (Z.of_nat off + n)); lia. }
  pose proof (io_size _ _ _ HI) as Hsz. unfold MAXSIZE in Hsz.
  replace 0 with (n' - Z.of_nat (Z.to_nat n')) at 1 by lia.
  eapply wp_seq; [apply (readi_loop_run (Z.to_nat n') t sb ic a ip x off (Z.to_nat n') n'); eauto; lia|].
  intros bs s' (-> & t' & -> & R'). apply wp_ret. split; [|eauto].
  rewrite s32_small by lia. rewrite Hn'. f_equal.
  destruct (Z.le_gt_cases n (i_size x - Z.of_nat off)) as [Hle|Hgt].
  - rewrite Z.min_l by lia. rewrite take_drop_contents by lia. done.
  - rewrite Z.min_r by lia. rewrite (take_ge (drop _ _)).
    + rewrite <- take_drop_contents with (size := i_size x) by lia. apply take_ge.
      unfold contents. rewrite length_drop, length_fmap, length_seq. lia.
    + unfold contents. rewrite length_drop, length_fmap, length_seq. lia.
Qed.

(** [bs] has been written at [off]. *)
Record written (sb : superblock) (off : nat) (bs : list Z) (ad : list Z) (a : tspec)
    (ad' : list Z) (a' : tspec) : Prop := {
  wr_calm : calm sb a';
  wr_grows : grows sb (t_view a) ad (t_view a') ad';
  wr_map i : (off <= i < off + length bs)%nat -> addr_of (t_view a') ad' (i / 512) <> 0;
  wr_new i : (i < length bs)%nat -> fbyte (t_view a') ad' (off + i) = nth i bs 0;
  wr_old i : Z.of_nat i < MAXSIZE -> addr_of (t_view a) ad (i / 512) <> 0 ->
    ~ (off <= i < off + length bs)%nat -> fbyte (t_view a') ad' i = fbyte (t_view a) ad i;
  wr_same : (forall i, (off <= i < off + length bs)%nat -> addr_of (t_view a) ad (i / 512) <> 0) -> ad' = ad;
  wr_phi : (phi sb ad a <= phi sb ad' a' + nblocks_at off (length bs))%nat;
  wr_psi : (psi sb ad (t_view a) <= psi sb ad' (t_view a') + nblocks_at off (length bs))%nat;
}.

Lemma addr_grows sb v ad v' ad' bn : grows sb v ad v' ad' -> (bn < 140)%nat ->
  addr_of v ad bn <> 0 -> addr_of v' ad' bn = addr_of v ad bn.
Proof. intros G Hb Hz. apply (gr_slot _ _ _ _ _ G); [by apply slot_of_lt|done]. Qed.

Lemma write_round sb off bs ad a ad1 a1 : calm sb a -> file_ok sb (t_view a) ad ->
  (forall n, length (t_view a1 n) = BSIZE) ->
  (0 < length bs <= 512 - off mod 512)%nat -> Z.of_nat off < MAXSIZE ->
  mapped sb (off / 512) ad a ad1 a1 ->
  let n := addr_of (t_view a1) ad1 (off / 512) in
  written sb off bs ad a ad1 (upd_blk n (put_bytes (t_view a1 n) (off mod 512) bs) a1).
Proof.
  intros [HL HF Hh Hd] Hfo Hlen Hbs Hoff [M1 M2 M3 M4 M5 M6 M7 M8 M9]. cbv zeta.
  set (bn := (off / 512)%nat) in *. set (n := addr_of (t_view a1) ad1 bn) in *.
  set (d := put_bytes _ _ _). set (a2 := upd_blk n d a1).
  assert (Hbn : (bn < 140)%nat) by (apply Nat.Div0.div_lt_upper_bound; unfold MAXSIZE in *; lia).
  pose proof (ly_bm _ _ _ HL) as Hbm. pose proof (gr_file _ _ _ _ _ M3) as Hfo1.
  assert (G2 : grows sb (t_view a1) ad1 (t_view a2) ad1).
  { apply grow_data; auto; [lia|apply M3]. }
  pose proof (fun i => chunk_div off (length bs) i Hbs) as Hin. fold bn in Hin.
  assert (Hlt : forall i, (off <= i < off + length bs)%nat -> Z.of_nat i < MAXSIZE).
  { intros i Hi. destruct (Hin i Hi) as [E _]. pose proof (Nat.div_mod i 512 ltac:(lia)).
    pose proof (Nat.mod_upper_bound i 512 ltac:(lia)). unfold MAXSIZE. lia. }
  assert (Hfb : forall i, Z.of_nat i < MAXSIZE -> fbyte (t_view a2) ad1 i =
            if bool_decide (i / 512 = bn)%nat then nth (i mod 512) d 0 else fbyte (t_view a1) ad1 i).
  { intros i Hi. by apply (fbyte_write sb). }
  pose proof (nblocks_one off (length bs) Hbs) as Hnb.
  assert (Hnth : forall k, nth k d 0 = if bool_decide (off mod 512 <= k < off mod 512 + length bs)%nat
                                       then nth (k - off mod 512) bs 0 else nth k (t_view a1 n) 0).
  { intros k. apply nth_put_bytes. rewrite Hlen. unfold BSIZE. lia. }
  split.
  - split; [done|apply G2|done|done].
  - by eapply grows_trans.
  - intros i Hi. destruct (Hin i Hi) as [-> _].
    assert (E : addr_of (t_view a2) ad1 bn = n) by (by apply (addr_grows _ _ _ _ _ _ G2)). by rewrite E.
  - intros i Hi. destruct (Hin (off + i)%nat) as [E1 E2]; [lia|]. rewrite Hfb by (apply Hlt; lia).
    rewrite bool_decide_true, E2, Hnth, bool_decide_true by (done || lia). f_equal. lia.
  - intros i Hi Hz Hno.
    assert (Hib : (i / 512 < 140)%nat) by (apply Nat.Div0.div_lt_upper_bound; unfold MAXSIZE in *; lia).
    assert (E1 : fbyte (t_view a1) ad1 i = fbyte (t_view a) ad i).
    { unfold fbyte. rewrite (addr_grows _ _ _ _ _ _ M3 Hib Hz). by rewrite M5. }
    rewrite Hfb by done. destruct (bool_decide_reflect (i / 512 = bn)%nat) as [E|E]; [|done].
    rewrite Hnth, bool_decide_false.
    + rewrite <- E1. unfold fbyte. rewrite E. done.
    + pose proof (Nat.div_mod i 512 ltac:(lia)). pose proof (Nat.div_mod off 512 ltac:(lia)). unfold bn in E. lia.
  - intros Hall. destruct (Hin off) as [E _]; [lia|]. specialize (Hall off). rewrite E in Hall.
    destruct (M6 (Hall ltac:(lia))). done.
  - rewrite Hnb. destruct (decide (addr_of (t_view a) ad bn = 0)) as [Hz|Hz].
    + specialize (M7 Hz). pose proof (phi_upd sb ad1 n d a1) as P. fold a2 in P. rewrite bool_decide_true in P by done. lia.
    + destruct (M6 Hz) as [-> ->]. pose proof (phi_upd sb ad n d a) as P. fold a2 in P. destruct (bool_decide _); lia.
  - rewrite Hnb. unfold a2. rewrite psi_upd; [lia|]. apply (addr_mapped _ _ _ _ Hfo1 Hbn M4).
Qed.

Lemma nblocks_split (off k j : nat) : (j <= k)%nat -> ((off + j) mod 512 = 0)%nat \/ j = k -> (0 < j)%nat ->
  nblocks_at off k = (nblocks_at off j + nblocks_at (off + j) (k - j))%nat.
Proof.
  intros Hj Hs H0. unfold nblocks_at. destruct (decide (j = k)) as [->|Hne].
  { rewrite Nat.sub_diag, (bool_decide_true (0 = 0)%nat) by done. lia. }
  destruct Hs as [Hs|]; [|done]. rewrite !bool_decide_false by lia.
  replace (off + j + (k - j) - 1)%nat with (off + k - 1)%nat by lia.
  pose proof (Nat.div_mod (off + j) 512 ltac:(lia)) as E. rewrite Hs, Nat.add_0_r in E.
  assert (E1 : ((off + j - 1) / 512 = (off + j) / 512 - 1)%nat).
  { symmetry. apply (Nat.div_unique _ _ _ 511); lia. }
  assert (off / 512 <= (off + j - 1) / 512)%nat by (apply Nat.Div0.div_le_mono; lia).
  assert ((off + j) / 512 <= (off + k - 1) / 512)%nat by (apply Nat.Div0.div_le_mono; lia).
  assert (0 < (off + j) / 512)%nat by lia. lia.
Qed.

Lemma written_nil sb off ad a : calm sb a -> file_ok sb (t_view a) ad -> written sb off [] ad a ad a.
Proof.
  intros HC Hfo. split; auto; try (intros; cbn in *; lia). apply grows_refl; [apply HC|done].
Qed.

Lemma written_app sb off b1 b2 ad a ad1 a1 ad2 a2 :
  written sb off b1 ad a ad1 a1 -> written sb (off + length b1) b2 ad1 a1 ad2 a2 ->
  Z.of_nat (off + length b1 + length b2) <= MAXSIZE -> (0 < length b1)%nat ->
  ((off + length b1) mod 512 = 0)%nat \/ b2 = [] ->
  written sb off (b1 ++ b2) ad a ad2 a2.
Proof.
  intros [W1 W2 W3 W4 W5 W8 W6 W7] [X1 X2 X3 X4 X5 X8 X6 X7] Hsz H0 Hsp.
  assert (Hnb : nblocks_at off (length (b1 ++ b2)) =
                (nblocks_at off (length b1) + nblocks_at (off + length b1) (length b2))%nat).
  { rewrite (nblocks_split off _ (length b1)); rewrite ?length_app; [do 2 f_equal; lia|lia| |done].
    destruct Hsp as [?| ->]; [by left|right; cbn; lia]. }
  assert (Hlt : forall i, Z.of_nat i < MAXSIZE -> (i / 512 < 140)%nat).
  { intros i Hi. apply Nat.Div0.div_lt_upper_bound. unfold MAXSIZE in *. lia. }
  split; auto.
  - by eapply grows_trans.
  - intros i Hi. rewrite length_app in Hi. destruct (decide (i < off + length b1)%nat) as [Hl|Hl].
    + rewrite (addr_grows _ _ _ _ _ _ X2); [apply W3; lia|apply Hlt; lia|apply W3; lia].
    + apply X3. lia.
  - intros i Hi. rewrite length_app in Hi. destruct (decide (i < length b1)%nat) as [Hl|Hl].
    + rewrite X5, W4, app_nth1 by (done || lia || (apply W3; lia)). done.
    + rewrite app_nth2 by lia. replace (off + i)%nat with (off + length b1 + (i - length b1))%nat by lia.
      apply X4. lia.
  - intros i Hi Hz Hno. rewrite length_app in Hno.
    rewrite X5; [apply W5; [done|done|lia]|done| |lia].
    by rewrite (addr_grows _ _ _ _ _ _ W2) by auto.
  - intros Hall. rewrite length_app in Hall. rewrite X8, W8; [done|intros; apply Hall; lia|].
    intros i Hi. rewrite (addr_grows _ _ _ _ _ _ W2); [apply Hall; lia|apply Hlt; lia|apply Hall; lia].
  - lia.
  - lia.
Qed.

(** One turn of [writei]'s loop: [chunk] goes to the block of [off]. *)
Lemma write_chunk_run {B} t sb ic a ip x chunk off (k : M (fsst S) B) Q :
  trepr t a -> calm sb a -> ic !! ip = Some x -> i_dev x = 1 -> file_ok sb (t_view a) (i_addrs x) ->
  (0 < length chunk <= 512 - off mod 512)%nat -> Z.of_nat off < MAXSIZE ->
  (3 <= phi sb (i_addrs x) a)%nat -> (2 <= psi sb (i_addrs x) (t_view a))%nat ->
  (forall t' a' ad', trepr t' a' -> written sb off chunk (i_addrs x) a ad' a' ->
     wp k (mkfs t' sb (<[ip := set_addrs ad' x]> ic)) Q) ->
  wp (let! addr := bmap ip (Z.of_nat off / 512) in
      let! x := geti ip in
      let! bp := lift (tx_read (i_dev x) addr) in
      let! d := lift (tx_data bp) in
      lift (tx_set bp (put_bytes d (off mod 512) chunk)) ;;
      lift (tx_log bp) ;;
      lift (tx_relse bp) ;;
      k) (mkfs t sb ic) Q.
Proof.
  intros HR HC Hx Hdev Hfo Hch Hsz Hphi Hpsi Hk. pose proof HC as [HL HF Hh Hd].
  pose proof (ly_disk _ _ _ HL). pose proof (ly_bm _ _ _ HL).
  assert (Hbn : (off / 512 < 140)%nat) by (apply Nat.Div0.div_lt_upper_bound; unfold MAXSIZE in *; lia).
  apply wp_bind. rewrite off_div.
  eapply bmap_run; [exact HR|done..|by right|]. intros t1 a1 ad1 R1 M1.
  eapply f_geti; [by eapply lookup_upd|]. cbn [i_dev set_addrs]. rewrite Hdev.
  assert (Hlen1 : forall b, length (t_view a1 b) = BSIZE) by (intros; by eapply t_len).
  pose proof (write_round sb off chunk (i_addrs x) a ad1 a1 HC Hfo Hlen1 Hch Hsz M1) as W1.
  destruct M1 as [Mh Md Mg Ma _ Ms Ml Mp Mq]. cbv zeta in W1. set (n := addr_of (t_view a1) ad1 (off / 512)) in *.
  destruct (addr_mapped _ _ _ _ (gr_file _ _ _ _ _ Mg) Hbn Ma) as (Hr & _). fold n in Hr.
  eapply f_read; [exact R1|lia|by rewrite Mh|by eapply held_empty_ok|]. intros bp t2 R2.
  eapply f_peek; [exact R2|].
  eapply f_update; [exact R2|by rewrite Mh|by rewrite Md|by rewrite length_put_bytes|by apply (ly_data _ _ _ HL)| |].
  { unfold can_log. destruct (decide (addr_of (t_view a) (i_addrs x) (off / 512) = 0)); [left; by apply Ml|].
    destruct (Ms ltac:(done)) as [-> ->]. unfold phi in Hphi.
    destruct (decide (n ∈ t_logged a)); [by left|right]. repeat case_bool_decide; lia. }
  intros t3 R3. eapply Hk; [exact R3|exact W1].
Qed.

Lemma writei_loop_run fuel t sb ic a ip x src tot off k :
  trepr t a -> calm sb a -> ic !! ip = Some x -> i_dev x = 1 -> file_ok sb (t_view a) (i_addrs x) ->
  length src = (tot + k)%nat -> Z.of_nat (off + k) <= MAXSIZE -> (k <= fuel)%nat ->
  (2 + nblocks_at off k <= phi sb (i_addrs x) a)%nat ->
  (1 + nblocks_at off k <= psi sb (i_addrs x) (t_view a))%nat ->
  wp (writei_loop fuel ip src (Z.of_nat tot) (Z.of_nat (length src)) (Z.of_nat off)) (mkfs t sb ic)
    (fun r s' => r = Z.of_nat (off + k) /\ exists t' a' ad',
       s' = mkfs t' sb (<[ip := set_addrs ad' x]> ic) /\ trepr t' a' /\
       written sb off (drop tot src) (i_addrs x) a ad' a').
Proof.
  revert t ic a x tot off k. induction fuel as [|fuel IH];
    intros t ic a x tot off k HR HC Hx Hdev Hfo Hlen Hsz Hf Hphi Hpsi.
  all: assert (Hdone : k = 0%nat -> wp (ret (Z.of_nat off)) (mkfs t sb ic) (fun r s' =>
         r = Z.of_nat (off + k) /\ exists t' a' ad',
         s' = mkfs t' sb (<[ip := set_addrs ad' x]> ic) /\ trepr t' a' /\
         written sb off (drop tot src) (i_addrs x) a ad' a')).
  1,3: intros ->; apply wp_ret; split; [f_equal; lia|]; exists t, a, (i_addrs x);
       rewrite set_addrs_id, list_insert_id, drop_ge by (done || lia); split_and!; auto;
       by apply written_nil.
  { cbn [writei_loop]. rewrite (proj2 (Z.ltb_ge _ _)) by lia. apply Hdone. lia. }
  cbn [writei_loop]. destruct (Z.ltb_spec (Z.of_nat tot) (Z.of_nat (length src))) as [Hlt|Hge];
    [clear Hdone|apply Hdone; lia].
  destruct (chunk_size off k) as (j & Ej & Hj & Hj' & Hspl); [lia|].
  replace (Z.of_nat (length src) - Z.of_nat tot) with (Z.of_nat k) by lia. rewrite Ej, off_mod, !Nat2Z.id.
  pose proof (nblocks_split off k j ltac:(lia) Hspl ltac:(lia)) as Hnb.
  pose proof (nblocks_one off j ltac:(lia)) as Hn1.
  set (chunk := take j (drop tot src)).
  assert (Hcl : length chunk = j) by (unfold chunk; rewrite length_take, length_drop; lia).
  eapply (write_chunk_run t sb ic a ip x chunk off); [done..|by rewrite Hcl; lia|lia|lia|lia|].
  intros t3 a2 ad1 R3 W1. rewrite <- !Nat2Z.inj_add.
  pose proof (wr_phi _ _ _ _ _ _ _ W1) as P1. pose proof (wr_psi _ _ _ _ _ _ _ W1) as P2. rewrite Hcl in P1, P2.
  eapply wp_mono.
  { apply (IH t3 _ a2 (set_addrs ad1 x) (tot + j)%nat (off + j)%nat (k - j)%nat); auto; cbn [i_addrs set_addrs]; try lia;
      [apply W1|by eapply lookup_upd|apply W1]. }
  intros r s' (-> & t4 & a4 & ad4 & -> & R4 & W4). split; [f_equal; lia|]. exists t4, a4, ad4.
  split_and!; auto.
  - by rewrite list_insert_insert_eq.
  - rewrite <- (take_drop j (drop tot src)), drop_drop. fold chunk.
    eapply written_app; [exact W1|by rewrite Hcl|rewrite Hcl, length_drop; lia|lia|].
    rewrite Hcl. destruct Hspl as [?| ->]; [by left|right]. apply drop_ge. lia.
Qed.

(** ** [writei] *)

(** The super block, the free map and the data blocks agree. *)
Definition meta_eq (sb : superblock) (v v' : Z -> block) : Prop :=
  v' 1 = v 1 /\ v' (sb_bmapstart sb) = v (sb_bmapstart sb) /\
  forall n, sb_bmapstart sb < n < sb_size sb -> v' n = v n.

Lemma meta_used sb v v' c : meta_eq sb v v' -> used sb v' c = used sb v c.
Proof. intros (_ & H & _). unfold used. by rewrite H. Qed.

Lemma meta_free sb v v' : meta_eq sb v v' -> free_blocks sb v' = free_blocks sb v.
Proof.
  intros H. unfold free_blocks. apply list_filter_iff. intros c. by rewrite (meta_used _ _ _ c H).
Qed.

Lemma meta_slot sb v v' ad i : meta_eq sb v v' -> file_ok sb v ad -> slot v' ad i = slot v ad i.
Proof.
  intros (_ & _ & H) Hfo. unfold slot. case_bool_decide; [done|].
  destruct (Z.eqb_spec (ind_of ad) 0) as [|Hz]; [done|].
  destruct (fo_data _ _ _ Hfo NDIRECT ltac:(unfold NSLOT, NDIRECT; lia) Hz) as [? _].
  rewrite ind_slot in *. by rewrite H by lia.
Qed.

Lemma meta_fs_ok sb v v' : meta_eq sb v v' -> fs_ok sb v -> fs_ok sb v'.
Proof.
  intros HM [H1 H2]. split; [by rewrite (proj1 HM)|]. intros b Hb. rewrite (meta_used _ _ _ _ HM). auto.
Qed.

Lemma meta_file_ok sb v v' ad : meta_eq sb v v' -> file_ok sb v ad -> file_ok sb v' ad.
Proof.
  intros HM Hfo. assert (Hs : forall i, slot v' ad i = slot v ad i) by (intros; by eapply meta_slot).
  destruct Hfo as [G1 G2 G3]. split; auto; intros *; rewrite !Hs, ?(meta_used _ _ _ _ HM); auto.
Qed.

Lemma meta_fbyte sb v v' ad i : meta_eq sb v v' -> file_ok sb v ad -> Z.of_nat i < MAXSIZE ->
  addr_of v ad (i / 512) <> 0 -> fbyte v' ad i = fbyte v ad i.
Proof.
  intros HM Hfo Hi Hz. unfold fbyte, addr_of. rewrite (meta_slot _ _ _ _ _ HM Hfo).
  assert (Hib : (i / 512 < 140)%nat) by (apply Nat.Div0.div_lt_upper_bound; unfold MAXSIZE in *; lia).
  destruct (addr_mapped _ _ _ _ Hfo Hib Hz) as [? _]. by rewrite (proj2 (proj2 HM)) by (unfold addr_of in *; lia).
Qed.

Lemma iupdate_meta sb x a : layout disksize home sb -> 0 <= i_inum x < sb_ninodes sb ->
  meta_eq sb (t_view a) (t_view (iupdate_spec sb x a)).
Proof.
  intros HL Hi. destruct (ly_inode _ _ _ HL _ Hi) as [_ Hr].
  split_and!; [| |intros n Hn]; unfold iupdate_spec, upd_blk; cbn [t_view]; by rewrite write_disk_other by lia.
Qed.

(** The copy on the disk is current. *)
Definition synced (sb : superblock) (v : Z -> block) (x : inode) : Prop :=
  dinode_at sb v (i_inum x) x = x.

(** [src] has been written to the file [x] at [off]. *)
Record file_written (sb : superblock) (off : nat) (src : list Z) (x : inode) (a : tspec)
    (x' : inode) (a' : tspec) : Prop := {
  fw_calm : calm sb a';
  fw_ok : inode_ok sb (t_view a') x';
  fw_inode : x' = set_isize (Z.max (i_size x) (Z.of_nat (off + length src))) (set_addrs (i_addrs x') x);
  fw_contents : contents (t_view a') (i_addrs x') (i_size x') =
    take off (contents (t_view a) (i_addrs x) (i_size x)) ++ src ++
    drop (off + length src) (contents (t_view a) (i_addrs x) (i_size x));
  fw_frame n : 0 <= n -> used sb (t_view a) n = true -> n <> sb_bmapstart sb ->
    ~ owns (t_view a) (i_addrs x) n -> n <> IBLOCK (i_inum x) sb -> t_view a' n = t_view a n;
  fw_inodes y m : 0 <= m < sb_ninodes sb -> m <> i_inum x ->
    dinode_at sb (t_view a') m y = dinode_at sb (t_view a) m y;
  fw_used n : 0 <= n -> used sb (t_view a) n = true -> used sb (t_view a') n = true;
  fw_new n : owns (t_view a') (i_addrs x') n ->
    owns (t_view a) (i_addrs x) n \/ 0 <= n /\ used sb (t_view a) n = false;
  fw_synced : synced sb (t_view a) x -> dinode_fits x -> synced sb (t_view a') x';
  fw_quota : (t_quota a <= t_quota a' + nblocks_at off (length src) + 3)%nat;
  fw_free : (length (free_blocks sb (t_view a)) <=
             length (free_blocks sb (t_view a')) + nblocks_at off (length src) + 1)%nat;
}.

Lemma contents_written sb v v' x off src size' :
  inode_ok sb v x -> Z.of_nat off <= i_size x -> size' = Z.max (i_size x) (Z.of_nat (off + length src)) ->
  forall ad', Z.of_nat (off + length src) <= MAXSIZE ->
  (forall i, (i < length src)%nat -> fbyte v' ad' (off + i) = nth i src 0) ->
  (forall i, Z.of_nat i < i_size x -> ~ (off <= i < off + length src)%nat ->
     fbyte v' ad' i = fbyte v (i_addrs x) i) ->
  contents v' ad' size' =
  take off (contents v (i_addrs x) (i_size x)) ++ src ++
  drop (off + length src) (contents v (i_addrs x) (i_size x)).
Proof.
  intros HI Hoff -> ad' Hm Hnew Hold. pose proof (io_size _ _ _ HI).
  set (c := contents v (i_addrs x) (i_size x)).
  assert (Hc : length c = Z.to_nat (i_size x)) by (unfold c, contents; by rewrite length_fmap, length_seq).
  assert (Hci : forall i, (i < length c)%nat -> nth i c 0 = fbyte v (i_addrs x) i).
  { intros i Hi. unfold c, contents in *. rewrite length_fmap, length_seq in Hi.
    rewrite nth_lookup, list_lookup_fmap, lookup_seq_lt by done. done. }
  apply (nth_ext _ _ 0 0).
  - unfold contents. rewrite length_fmap, length_seq, !length_app, length_take, length_drop. lia.
  - unfold contents. intros i Hi. rewrite length_fmap, length_seq in Hi.
    rewrite nth_lookup, list_lookup_fmap, lookup_seq_lt by done. cbn [fmap option_fmap option_map default id Nat.add].
    assert (Ht : length (take off c) = off) by (rewrite length_take; lia).
    destruct (decide (i < off)%nat) as [H1|H1].
    + rewrite app_nth1 by lia. rewrite nth_lookup, lookup_take_lt, <- nth_lookup by lia.
      rewrite Hci by lia. apply Hold; lia.
    + rewrite app_nth2, Ht by lia. destruct (decide (i < off + length src)%nat) as [H2|H2].
      * rewrite app_nth1 by lia. rewrite <- Hnew by lia. f_equal. lia.
      * rewrite app_nth2 by lia. rewrite nth_lookup, lookup_drop, <- nth_lookup.
        replace (off + length src + (i - off - length src))%nat with i by lia.
        rewrite Hci by lia. apply Hold; lia.
Qed.

Lemma phi_quota sb ad a : (t_quota a <= phi sb ad a <= t_quota a + 2)%nat.
Proof. unfold phi. repeat case_bool_decide; lia. Qed.

(** The blocks of inodes belong to no file. *)
Lemma inode_block_free sb v ad inum : layout disksize home sb -> fs_ok sb v -> file_ok sb v ad ->
  0 <= inum < sb_ninodes sb ->
  0 <= IBLOCK inum sb < sb_bmapstart sb /\ used sb v (IBLOCK inum sb) = true /\ ~ owns v ad (IBLOCK inum sb).
Proof.
  intros HL HF Hfo Hi. destruct (ly_inode _ _ _ HL _ Hi) as [_ Hr]. split; [lia|]. split.
  - apply (ok_meta _ _ HF). lia.
  - intros (Hz & i & Hii & E). rewrite <- E in Hz. destruct (fo_data _ _ _ Hfo i Hii Hz). lia.
Qed.

(** Growing a file leaves the blocks of inodes alone. *)
Lemma grows_inodes sb v ad v' ad' m y : layout disksize home sb -> fs_ok sb v -> file_ok sb v ad -> grows sb v ad v' ad' ->
  0 <= m < sb_ninodes sb -> dinode_at sb v' m y = dinode_at sb v m y.
Proof.
  intros HL HF Hfo G Hm. destruct (inode_block_free sb v ad m HL HF Hfo Hm) as (? & ? & ?).
  unfold dinode_at. rewrite (gr_frame _ _ _ _ _ G); [done|lia|done|lia|done].
Qed.

(** The size is unchanged: no [iupdate]. *)
Lemma file_written_within sb off src x a ad' a' : calm sb a -> inode_ok sb (t_view a) x ->
  0 <= i_inum x < sb_ninodes sb -> Z.of_nat (off + length src) <= i_size x ->
  written sb off src (i_addrs x) a ad' a' -> file_written sb off src x a (set_addrs ad' x) a'.
Proof.
  intros HC HI Hn Hle W. pose proof HI as [I1 I2 I3 I4]. pose proof (io_size _ _ _ HI).
  assert (Hmap : forall i, Z.of_nat i < i_size x -> addr_of (t_view a) (i_addrs x) (i / 512) <> 0).
  { intros i Hi. apply I4. pose proof (Nat.div_mod i 512 ltac:(lia)). lia. }
  assert (ad' = i_addrs x) as -> by (apply W; intros; apply Hmap; lia).
  rewrite set_addrs_id. destruct W as [W1 W2 W3 W4 W5 _ W6 W7].
  assert (HIok : inode_ok sb (t_view a') x).
  { split; auto; [apply W2|]. intros bn Hbn. rewrite (addr_grows _ _ _ _ _ _ W2); auto.
    unfold MAXSIZE in *. lia. }
  split; auto.
  - rewrite Z.max_l, set_addrs_id by done. by destruct x.
  - eapply contents_written; eauto; try lia. intros i Hi Hno. apply W5; auto. lia.
  - intros n H0 Hu Hb Ho _. by apply (gr_frame _ _ _ _ _ W2).
  - intros y m Hm _. by eapply grows_inodes; [apply HC|apply HC|exact I2|exact W2|].
  - apply (gr_used _ _ _ _ _ W2).
  - apply (gr_new _ _ _ _ _ W2).
  - intros Hs _. unfold synced in *. by rewrite (grows_inodes sb _ _ _ _ _ _ (ca_layout _ _ HC) (ca_ok _ _ HC) I2 W2 Hn).
  - pose proof (phi_quota sb (i_addrs x) a). pose proof (phi_quota sb (i_addrs x) a'). lia.
  - revert W7. unfold psi. destruct (_ =? _); lia.
Qed.

(** The file has grown: [iupdate] records the new size. *)
Lemma file_written_beyond sb off src x a ad' a' : calm sb a -> inode_ok sb (t_view a) x ->
  0 <= i_inum x < sb_ninodes sb -> i_size x < Z.of_nat (off + length src) <= MAXSIZE ->
  Z.of_nat off <= i_size x -> written sb off src (i_addrs x) a ad' a' ->
  let x' := set_isize (Z.of_nat (off + length src)) (set_addrs ad' x) in
  (forall n, length (t_view a' n) = BSIZE) ->
  file_written sb off src x a x' (iupdate_spec sb x' a').
Proof.
  intros HC HI Hn Hlt Hoff W x' Hlen. pose proof HI as [I1 I2 I3 I4]. pose proof W as [W1 W2 W3 W4 W5 _ W6 W7].
  assert (Hmap : forall i, Z.of_nat i < i_size x -> addr_of (t_view a) (i_addrs x) (i / 512) <> 0).
  { intros i Hi. apply I4. pose proof (Nat.div_mod i 512 ltac:(lia)). lia. }
  assert (Hib : forall i, Z.of_nat i < MAXSIZE -> (i / 512 < 140)%nat).
  { intros i Hi. apply Nat.Div0.div_lt_upper_bound. unfold MAXSIZE in *. lia. }
  assert (HM : meta_eq sb (t_view a') (t_view (iupdate_spec sb x' a'))) by (by apply iupdate_meta; [apply W1|]).
  assert (Hfo' : file_ok sb (t_view a') ad') by apply W2.
  assert (Hmap' : forall i, Z.of_nat i < Z.of_nat (off + length src) -> addr_of (t_view a') ad' (i / 512) <> 0).
  { intros i Hi. destruct (decide (off <= i)%nat); [apply W3; lia|].
    rewrite (addr_grows _ _ _ _ _ _ W2); [apply Hmap; lia|apply Hib; lia|apply Hmap; lia]. }
  split.
  - destruct W1 as [? ? ? ?]. split; auto. by eapply meta_fs_ok.
  - split; cbn [i_dev i_addrs i_size x' set_isize set_addrs]; auto; [by eapply meta_file_ok|lia|].
    intros bn Hbn. unfold addr_of. rewrite (meta_slot _ _ _ _ _ HM Hfo'). fold (addr_of (t_view a') ad' bn).
    specialize (Hmap' (512 * bn)%nat ltac:(lia)). by rewrite Nat.mul_comm, Nat.div_mul in Hmap' by lia.
  - cbn. by rewrite Z.max_r by lia.
  - cbn [i_size i_addrs x' set_isize set_addrs]. eapply contents_written; eauto; try lia.
    + intros i Hi. rewrite (meta_fbyte _ _ _ _ _ HM Hfo'); [by apply W4|lia|apply Hmap'; lia].
    + intros i Hi Hno. rewrite (meta_fbyte _ _ _ _ _ HM Hfo'); [|lia|apply Hmap'; lia].
      apply W5; auto. lia.
  - intros n H0 Hu Hb Ho Hne. unfold iupdate_spec, upd_blk. cbn [t_view].
    rewrite write_disk_other by done. by apply (gr_frame _ _ _ _ _ W2).
  - intros y m Hm Hne. rewrite (iupdate_other (disksize := disksize) (home := home));
      [|apply HC|done|done|done|apply (fo_len _ _ _ Hfo')|by rewrite Hlen].
    by eapply grows_inodes; [apply HC|apply HC|exact I2|exact W2|].
  - intros n H0 Hu. rewrite (meta_used _ _ _ _ HM). by apply (gr_used _ _ _ _ _ W2).
  - intros n (Hz & i & Hi & E). apply (gr_new _ _ _ _ _ W2). split; [done|]. exists i. split; [done|].
    by rewrite <- (meta_slot _ _ _ _ _ HM Hfo').
  - intros _ [D1 D2 D3 D4 D5 D6 D7]. unfold synced, dinode_at, iupdate_spec, upd_blk. cbn [t_view].
    change (i_inum x') with (i_inum x). rewrite write_disk_eq, load_store; [done| |rewrite Hlen; apply dinode_off_le].
    split; auto; cbn [i_size i_addrs x' set_isize set_addrs].
    + unfold MAXSIZE in *. lia.
    + apply Forall_lookup. intros i b Hb. assert (i < 13)%nat by (apply lookup_lt_Some in Hb; by rewrite (fo_len _ _ _ Hfo') in Hb).
      destruct (Z.eq_dec b 0) as [->|Hz]; [lia|].
      assert (E : slot (t_view a') ad' i = b).
      { unfold slot. rewrite bool_decide_true by (unfold NDIRECT; lia). by rewrite nth_lookup, Hb. }
      destruct (fo_data _ _ _ Hfo' i ltac:(unfold NSLOT; lia) ltac:(by rewrite E)) as [Hr _]. rewrite E in Hr.
      pose proof (ly_bm _ _ _ (ca_layout _ _ HC)). pose proof (ly_size _ _ _ (ca_layout _ _ HC)). unfold BPB in *. lia.
    + apply (fo_len _ _ _ Hfo').
  - pose proof (phi_quota sb (i_addrs x) a). pose proof (phi_quota sb ad' a').
    assert (t_quota a' <= t_quota (iupdate_spec sb x' a') + 1)%nat; [|lia].
    unfold iupdate_spec, upd_blk. cbn [t_quota]. case_bool_decide; lia.
  - rewrite (meta_free _ _ _ HM). revert W7. unfold psi. repeat destruct (_ =? _); lia.
Qed.

Lemma writei_run t sb ic a ip x src off :
  trepr t a -> calm sb a -> ic !! ip = Some x -> inode_ok sb (t_view a) x ->
  0 <= i_inum x < sb_ninodes sb -> i_type x <> T_DEV -> Z.of_nat off <= i_size x ->
  Z.of_nat (off + length src) <= MAXSIZE ->
  (nblocks_at off (length src) + 3 <= t_quota a)%nat ->
  (nblocks_at off (length src) + 1 <= length (free_blocks sb (t_view a)))%nat ->
  wp (writei dev_write ip src (Z.of_nat off)) (mkfs t sb ic)
    (fun r s' => r = Z.of_nat (length src) /\ exists t' a' x',
       s' = mkfs t' sb (<[ip := x']> ic) /\ trepr t' a' /\ file_written sb off src x a x' a').
Proof.
  intros HR HC Hx HI Hn Ht Hoff Hm Hq Hs. unfold writei. eapply f_geti; [done|].
  rewrite (proj2 (Z.eqb_neq _ _)) by done. rewrite u32_small by (unfold MAXSIZE in *; lia).
  rewrite (proj2 (Z.ltb_ge (i_size x) _)), (proj2 (Z.ltb_ge (Z.of_nat off + _) _)) by lia. cbn [orb].
  rewrite (proj2 (Z.ltb_ge (MAXFILE * 512) _)) by (unfold MAXFILE, MAXSIZE in *; lia).
  rewrite Nat2Z.id. pose proof (phi_quota sb (i_addrs x) a).
  assert (Hlen : forall t a n, trepr t a -> length (t_view a n) = BSIZE) by (intros; by eapply t_len).
  change 0 with (Z.of_nat 0) at 1.
  eapply wp_seq.
  { apply (writei_loop_run (length src) t sb ic a ip x src 0 off (length src)); auto; try apply HI; try lia.
    unfold psi. destruct (_ =? _); lia. }
  intros r s' (-> & t1 & a1 & ad1 & -> & R1 & W). rewrite drop_0 in W.
  assert (Hx1 : <[ip := set_addrs ad1 x]> ic !! ip = Some (set_addrs ad1 x)) by (by eapply lookup_upd).
  eapply f_geti; [exact Hx1|]. cbn [i_size set_addrs].
  pose proof (io_size _ _ _ HI) as Hsz. unfold MAXSIZE in *. rewrite s32_small by lia.
  destruct (Z.ltb_spec (i_size x) (Z.of_nat (off + length src))) as [Hlt|Hge].
  - rewrite (proj2 (Z.ltb_lt 0 _)) by lia. cbn [andb]. apply wp_bind.
    eapply f_seti; [exact Hx1|]. rewrite list_insert_insert_eq.
    set (x' := set_isize _ _).
    eapply (iupdate_run t1 sb _ a1 ip x'); [exact R1|apply W|apply W|apply W|by eapply lookup_upd|apply HI|done| |].
    { right. pose proof (wr_phi _ _ _ _ _ _ _ W). pose proof (phi_quota sb ad1 a1). lia. }
    intros t2 R2. apply wp_ret. split; [done|]. exists t2, (iupdate_spec sb x' a1), x'. split_and!; auto.
    apply file_written_beyond; eauto; unfold MAXSIZE; lia.
  - rewrite andb_false_r. apply wp_bind, wp_ret, wp_ret. split; [done|].
    exists t1, a1, (set_addrs ad1 x). split_and!; auto. by apply file_written_within.
Qed.

End Contents.
