(* ===== verification/FsDirs.v ===== *)
(** * Directories and paths ([fs.c]: [dirlookup], [dirlink], [skipelem])

    A directory is a finite map from names to inode numbers, kept as a list of
    16-byte entries in a file.  A path is the list of its elements. *)
From S2P Require Import Prelude Str Bio Log LogSpec Tx Fs FsBlocks FsInode FsFiles FsContents.

(** ** Names *)

Definition bytes (l : list Z) : Prop := Forall (fun c => 0 <= c < 256) l.

(** The C string in a buffer, cut after [n] bytes. *)
Fixpoint cut (n : nat) (l : list Z) : list Z :=
  match n, l with
  | S n, c :: r => if c =? 0 then [] else c :: cut n r
  | _, _ => []
  end.

(** The name that a buffer of DIRSIZ bytes stands for. *)
Definition cname (l : list Z) : list Z := cut DIRSIZ l.

Lemma cstrn_cut n m p l : (forall i, (i < n)%nat -> m (p + Z.of_nat i) = nth i l 0) ->
  cstrn m p n = cut n l.
Proof.
  revert p l. induction n as [|n IH]; intros p l H; [done|]. cbn [cstrn].
  pose proof (H 0%nat ltac:(lia)) as H0. rewrite Z.add_0_r in H0. rewrite H0.
  destruct l as [|c r]; [done|]. cbn [nth cut]. destruct (c =? 0); [done|]. f_equal. apply IH.
  intros i Hi. specialize (H (S i) ltac:(lia)). cbn [nth] in H. rewrite <- H. f_equal. lia.
Qed.

Lemma two_names_fst s t i : (i < DIRSIZ)%nat -> two_names s t (0 + Z.of_nat i) = nth i s 0.
Proof.
  intros Hi. unfold two_names, DIRSIZ in *. rewrite (proj2 (Z.ltb_lt _ _)) by lia. f_equal. lia.
Qed.

Lemma two_names_snd s t i : two_names s t (16 + Z.of_nat i) = nth i t 0.
Proof. unfold two_names. rewrite (proj2 (Z.ltb_ge _ _)) by lia. f_equal. lia. Qed.

Lemma bytes_nth l i : bytes l -> 0 <= nth i l 0 < 256.
Proof.
  intros H. destruct (nth_in_or_default i l 0) as [Hi| ->]; [|lia].
  apply (proj1 (Forall_forall _ _) H). by apply list_elem_of_In.
Qed.

Lemma namecmp_zero s t : bytes s -> bytes t -> namecmp s t = 0 <-> cname s = cname t.
Proof.
  intros Hs Ht. unfold namecmp. rewrite strncmp_zero.
  - rewrite (cstrn_cut DIRSIZ _ 0 s), (cstrn_cut DIRSIZ _ 16 t); [done|..].
    + intros i _. apply two_names_snd.
    + intros i Hi. by apply two_names_fst.
  - intros a. unfold two_names. destruct (a <? 16); by apply bytes_nth.
Qed.

Lemma length_cut n l : (length (cut n l) <= n)%nat.
Proof. revert l. induction n as [|n IH]; intros [|c r]; cbn; try lia. destruct (c =? 0); cbn; [lia|]. specialize (IH r). lia. Qed.

Lemma nth_cut n l i : (i < length (cut n l))%nat -> nth i (cut n l) 0 = nth i l 0.
Proof.
  revert l i. induction n as [|n IH]; intros [|c r] i Hi; cbn in *; try lia.
  destruct (c =? 0); cbn in *; [lia|]. destruct i; [done|]. apply IH. lia.
Qed.

Lemma cut_pad n l k : (length (cut n l) + k <= n)%nat -> cut n (cut n l ++ repeat 0 k) = cut n l.
Proof.
  revert l. induction n as [|n IH]; intros [|c r] H; cbn in *; try done; [by destruct k|].
  destruct (Z.eqb_spec c 0) as [->|Hc]; cbn in *; [by destruct k|].
  rewrite (proj2 (Z.eqb_neq c 0)) by done. f_equal. apply IH. lia.
Qed.

Lemma ncopy_pad name : ncopy name = cname name ++ repeat 0 (DIRSIZ - length (cname name)).
Proof.
  pose proof (length_cut DIRSIZ name) as Hl. fold (cname name) in Hl.
  assert (Hlen : length (ncopy name) = DIRSIZ) by done.
  apply (nth_ext _ _ 0 0); [rewrite length_app, repeat_length; lia|].
  intros i Hi. rewrite Hlen in Hi. unfold ncopy, indices.
  rewrite nth_lookup, list_lookup_fmap, lookup_seq_lt by done. cbn [fmap option_fmap option_map default id Nat.add].
  unfold strncpy. rewrite strncpy_loop_spec by (unfold DIRSIZ; lia).
  rewrite (cstrn_cut _ _ _ name) by (intros; apply two_names_snd). rewrite !Nat2Z.id. fold (cname name).
  unfold within. rewrite (proj2 (Z.leb_le _ _)), (proj2 (Z.ltb_lt (Z.of_nat i) _)) by (unfold DIRSIZ in *; lia).
  cbn [andb]. rewrite Z.sub_0_r. destruct (Z.ltb_spec (Z.of_nat i) (Z.of_nat (length (cname name)))).
  - rewrite two_names_snd, app_nth1 by lia. symmetry. apply nth_cut. unfold cname in *. lia.
  - rewrite app_nth2 by lia. by rewrite nth_repeat.
Qed.

Lemma cname_ncopy name : cname (ncopy name) = cname name.
Proof. rewrite ncopy_pad. apply cut_pad. pose proof (length_cut DIRSIZ name). unfold cname. lia. Qed.

Lemma bytes_cut n l : bytes l -> bytes (cut n l).
Proof.
  revert l. induction n as [|n IH]; intros [|c r] H; try apply Forall_nil; [done..|]. cbn.
  apply Forall_cons in H as [H1 H2]. destruct (c =? 0); [apply Forall_nil; done|].
  apply Forall_cons. split; [done|]. by apply IH.
Qed.

Lemma bytes_ncopy name : bytes name -> bytes (ncopy name).
Proof.
  intros H. rewrite ncopy_pad. apply Forall_app. split; [by apply bytes_cut|].
  apply Forall_forall. intros c Hc. apply list_elem_of_In in Hc. apply repeat_spec in Hc. lia.
Qed.

(** ** Entries *)

Definition entries (c : list Z) : list (list Z) :=
  (fun k => take 16 (drop (16 * k) c)) <$> seq 0 (length c / 16).

(** The entry is in use and has this name. *)
Definition hit (name de : list Z) : bool :=
  negb (de_inum de =? 0) && (namecmp name (de_name de) =? 0).

(** The first entry with the name, counting from [k]. *)
Fixpoint dfind (name : list Z) (l : list (list Z)) (k : nat) : option (nat * Z) :=
  match l with
  | [] => None
  | de :: l => if hit name de then Some (k, de_inum de) else dfind name l (S k)
  end.

(** The inode number a directory gives to a name. *)
Definition dir_inum (c name : list Z) : option Z := snd <$> dfind name (entries c) 0.

(** The first free entry, counting from [k]. *)
Fixpoint dfree (l : list (list Z)) (k : nat) : nat :=
  match l with
  | [] => k
  | de :: l => if de_inum de =? 0 then k else dfree l (S k)
  end.

Lemma entries_lookup c k : (16 * k + 16 <= length c)%nat ->
  entries c !! k = Some (take 16 (drop (16 * k) c)).
Proof.
  intros H. unfold entries. rewrite list_lookup_fmap, lookup_seq_lt; [done|].
  apply Nat.div_le_lower_bound with (q := S k); lia.
Qed.

Lemma length_entries c : length (entries c) = (length c / 16)%nat.
Proof. unfold entries. by rewrite length_fmap, length_seq. Qed.

Lemma length_fcontents v ad size : length (contents v ad size) = Z.to_nat size.
Proof. unfold contents. by rewrite length_fmap, length_seq. Qed.

(** A directory: a whole number of entries. *)
Definition dir_ok (sb : superblock) (v : Z -> block) (x : inode) : Prop :=
  inode_ok sb v x /\ i_type x = T_DIR /\ i_size x mod 16 = 0.

Lemma strncmp_ext n m m' p q l l' : (forall i, (i < n)%nat -> m (p + Z.of_nat i) = nth i l 0) ->
  (forall i, (i < n)%nat -> m' (p + Z.of_nat i) = nth i l' 0) ->
  (forall i, (i < n)%nat -> m' (q + Z.of_nat i) = m (q + Z.of_nat i)) ->
  cut n l = cut n l' -> strncmp m' p q n = strncmp m p q n.
Proof.
  revert p q l l'. induction n as [|n IH]; intros p q l l' H1 H2 H3 Hc; [done|]. cbn [strncmp].
  pose proof (H1 0%nat ltac:(lia)) as A1. pose proof (H2 0%nat ltac:(lia)) as A2.
  pose proof (H3 0%nat ltac:(lia)) as A3. rewrite !Z.add_0_r in *.
  assert (Hn : nth 0 l' 0 = nth 0 l 0).
  { destruct l as [|c l], l' as [|c' l']; cbn in *; try done;
      repeat match goal with |- context [?c =? 0] => destruct (Z.eqb_spec c 0) end;
      repeat match type of Hc with context [?c =? 0] => destruct (Z.eqb_spec c 0) end; congruence. }
  rewrite A3, A2, Hn, <- A1. destruct (nz (m p) && (m p =? m q)) eqn:E; [|done].
  apply (IH _ _ (tail l) (tail l')).
  - intros i Hi. specialize (H1 (S i) ltac:(lia)). replace (p + 1 + Z.of_nat i) with (p + Z.of_nat (S i)) by lia.
    rewrite H1. by destruct l, i.
  - intros i Hi. specialize (H2 (S i) ltac:(lia)). replace (p + 1 + Z.of_nat i) with (p + Z.of_nat (S i)) by lia.
    rewrite H2. by destruct l', i.
  - intros i Hi. replace (q + 1 + Z.of_nat i) with (q + Z.of_nat (S i)) by lia. apply H3. lia.
  - apply andb_true_iff in E as [E _]. unfold nz in E. apply negb_true_iff, Z.eqb_neq in E.
    rewrite A1 in E. destruct l as [|c l], l' as [|c' l']; cbn in *; try congruence.
    rewrite Hn in Hc. rewrite (proj2 (Z.eqb_neq c 0)) in Hc by done. congruence.
Qed.

(** Only the name in the buffer counts. *)
Lemma namecmp_ext s s' t : cname s = cname s' -> namecmp s' t = namecmp s t.
Proof.
  intros H. apply (strncmp_ext _ _ _ _ _ s s'); [..|done].
  - intros i Hi. by apply two_names_fst.
  - intros i Hi. by apply two_names_fst.
  - intros i _. by rewrite !two_names_snd.
Qed.

Lemma dfind_filter name l k :
  snd <$> dfind name l k = de_inum <$> hd_error (filter (fun de => hit name de = true) l).
Proof.
  revert k. induction l as [|de l IH]; intros k; [done|]. cbn [dfind].
  destruct (hit name de) eqn:E.
  - by rewrite filter_cons_True.
  - rewrite filter_cons_False by congruence. apply IH.
Qed.

Lemma dfind_None name l k : dfind name l k = None -> filter (fun de => hit name de = true) l = [].
Proof.
  intros H. pose proof (dfind_filter name l k) as E. rewrite H in E.
  by destruct (filter _ l).
Qed.

Lemma dfind_Some name l : forall k j i, dfind name l k = Some (j, i) ->
  exists de, l !! (j - k)%nat = Some de /\ (k <= j)%nat /\ hit name de = true /\ i = de_inum de.
Proof.
  induction l as [|de l IH]; intros k j i H; [done|]. cbn in H. destruct (hit name de) eqn:E.
  - injection H as <- <-. exists de. by rewrite Nat.sub_diag.
  - destruct (IH _ _ _ H) as (de' & H1 & H2 & H3). exists de'.
    replace (j - k)%nat with (S (j - S k)) by lia. split_and!; [done|lia|tauto|tauto].
Qed.

Lemma dfree_spec l k : (k <= dfree l k <= k + length l)%nat /\
  (dfree l k = (k + length l)%nat \/ exists de, l !! (dfree l k - k)%nat = Some de /\ de_inum de = 0).
Proof.
  revert k. induction l as [|de l IH]; intros k; cbn [dfree length]; [split; [lia|left; lia]|].
  destruct (Z.eqb_spec (de_inum de) 0) as [E|E].
  - split; [lia|]. right. exists de. by rewrite Nat.sub_diag.
  - destruct (IH (S k)) as [H1 [H2|(d & H2 & H3)]]; (split; [lia|]).
    + left. lia.
    + right. exists d. split; [|done]. by replace (dfree l (S k) - k)%nat with (S (dfree l (S k) - S k)) by lia.
Qed.

Lemma entries_splice c k de : length de = 16%nat -> (length c mod 16 = 0)%nat -> (16 * k <= length c)%nat ->
  entries (take (16 * k) c ++ de ++ drop (16 * k + 16) c) =
  take k (entries c) ++ de :: drop (S k) (entries c).
Proof.
  intros Hde Hm Hk. pose proof (Nat.div_mod (length c) 16 ltac:(lia)) as Hdm.
  set (q := (length c / 16)%nat) in *. rewrite Hm, Nat.add_0_r in Hdm.
  set (c' := take _ _ ++ _).
  assert (Hl : length c' = (16 * Nat.max q (S k))%nat).
  { unfold c'. rewrite !length_app, length_take, length_drop. lia. }
  apply list_eq. intros i.
  destruct (decide (i < Nat.max q (S k))%nat) as [Hi|Hi].
  2:{ rewrite !lookup_ge_None_2; [done|..].
      - rewrite length_app, length_take. cbn [length]. rewrite length_drop, length_entries. fold q. lia.
      - rewrite length_entries, Hl, Nat.mul_comm, Nat.div_mul by lia. lia. }
  rewrite entries_lookup by lia.
  assert (Hck : length (take (16 * k) c) = (16 * k)%nat) by (rewrite length_take; lia).
  assert (Hek : length (take k (entries c)) = k) by (rewrite length_take, length_entries; fold q; lia).
  unfold c'. destruct (Nat.lt_trichotomy i k) as [Hlt|[->|Hgt]].
  - rewrite lookup_app_l, lookup_take_lt, entries_lookup by lia. f_equal.
    rewrite drop_app_le, take_app_le by (rewrite ?length_drop; lia).
    rewrite !take_drop_commute, take_take, Nat.min_l by lia. done.
  - rewrite lookup_app_r, Hek, Nat.sub_diag by lia. cbn [lookup list_lookup]. f_equal.
    rewrite drop_app_ge, Hck, Nat.sub_diag by lia. rewrite drop_0, take_app_le by lia. apply take_ge. lia.
  - rewrite lookup_app_r, Hek by lia. replace (i - k)%nat with (S (i - k - 1)) by lia.
    change ((de :: drop (S k) (entries c)) !! S (i - k - 1)%nat) with (drop (S k) (entries c) !! (i - k - 1)%nat).
    rewrite lookup_drop. replace (S k + (i - k - 1))%nat with i by lia. rewrite entries_lookup by lia. f_equal.
    rewrite drop_app_ge, Hck by lia. rewrite drop_app_ge by lia. rewrite drop_drop. do 2 f_equal. lia.
Qed.

Lemma de_inum_mk inum name : 0 <= inum < 65536 -> de_inum (mkdirent inum name) = inum.
Proof.
  intros H. unfold de_inum, mkdirent, get16. cbn [nth app Nat.add]. unfold u8.
  Z.to_euclidean_division_equations. lia.
Qed.

Lemma hit_mk n inum name : bytes n -> bytes name -> 0 < inum < 65536 ->
  hit n (mkdirent inum name) = bool_decide (cname n = cname name).
Proof.
  intros Hn Hb Hi. unfold hit. rewrite de_inum_mk by lia. rewrite (proj2 (Z.eqb_neq _ _)) by lia. cbn [negb andb].
  change (de_name (mkdirent inum name)) with (ncopy name).
  apply eq_true_iff_eq. rewrite Z.eqb_eq, bool_decide_eq_true.
  rewrite namecmp_zero by (done || by apply bytes_ncopy). by rewrite cname_ncopy.
Qed.

(** Filling the first free entry binds the name and no other. *)
Lemma dir_inum_link c name inum n : bytes name -> bytes n -> 0 < inum < 65536 -> (length c mod 16 = 0)%nat ->
  dfind name (entries c) 0 = None ->
  let k := dfree (entries c) 0 in
  dir_inum (take (16 * k) c ++ mkdirent inum name ++ drop (16 * k + 16) c) n =
  if bool_decide (cname n = cname name) then Some inum else dir_inum c n.
Proof.
  intros Hb Hn Hi Hm Hnone k. destruct (dfree_spec (entries c) 0) as [Hk Hfr]. fold k in Hk, Hfr.
  rewrite Nat.sub_0_r in Hfr. unfold dir_inum. rewrite !dfind_filter.
  pose proof (Nat.div_mod (length c) 16 ltac:(lia)). rewrite length_entries in *.
  rewrite entries_splice by (done || lia).
  set (es := entries c) in *. set (P := fun de => hit n de = true).
  assert (Hes : filter P es = filter P (take k es) ++ filter P (drop (S k) es)).
  { destruct Hfr as [Hfr|(de & Hde & H0)].
    - rewrite drop_ge by (unfold es; rewrite length_entries; lia). rewrite app_nil_r.
      by rewrite take_ge by (unfold es; rewrite length_entries; lia).
    - rewrite <- (take_drop_middle es k de Hde) at 1. rewrite filter_app, filter_cons_False; [done|].
      unfold P, hit. by rewrite H0. }
  rewrite filter_app. case_bool_decide as Hc.
  - assert (Hnil : filter P es = []).
    { apply dfind_None in Hnone. rewrite <- Hnone. apply list_filter_iff. intros de. unfold P, hit.
      by rewrite (namecmp_ext n name) by done. }
    rewrite Hnil in Hes. symmetry in Hes. apply app_eq_nil in Hes as [E1 E2].
    rewrite filter_cons_True by (unfold P; rewrite hit_mk by done; by apply bool_decide_eq_true).
    rewrite E1. cbn. f_equal. apply de_inum_mk. lia.
  - rewrite filter_cons_False by (unfold P; rewrite hit_mk by done; by rewrite bool_decide_eq_true). by rewrite Hes.
Qed.

Section Dirs.
Context {S : Type} {TO : TxOps S} {disksize : Z} {home : Z -> Prop} {TD : TxView S disksize home}.
Context (me : Z).
Context (dev_read : Z -> option (Z -> M (fsst S) (Z * list Z))).
Context (dev_write : Z -> option (list Z -> M (fsst S) Z)).
Implicit Types (t : S) (sb : superblock) (ic : list inode) (a : tspec) (x : inode).

(** One entry is read. *)
Lemma read_entry {B} t sb ic a dp x k (f : Z * list Z -> M (fsst S) B) Q :
  trepr t a -> calm (disksize := disksize) (home := home) sb a -> ic !! dp = Some x ->
  dir_ok sb (t_view a) x -> 16 * Z.of_nat k < i_size x ->
  (forall t' de, trepr t' a -> entries (contents (t_view a) (i_addrs x) (i_size x)) !! k = Some de ->
     wp (f (16, de)) (mkfs t' sb ic) Q) ->
  wp (bind (readi dev_read dp (16 * Z.of_nat k) 16) f) (mkfs t sb ic) Q.
Proof.
  intros HR HC Hx (HI & Ht & Hm) Hk Hf. pose proof (io_size _ _ _ HI) as Hs. unfold MAXSIZE in Hs.
  pose proof (Z.div_mod (i_size x) 16 ltac:(lia)).
  replace (16 * Z.of_nat k) with (Z.of_nat (16 * k)) by lia.
  eapply wp_seq; [eapply (readi_run dev_read); eauto; try lia; by rewrite Ht|].
  intros r s' (-> & t' & -> & R'). rewrite Z.min_l by lia. apply Hf; [done|].
  rewrite entries_lookup; [done|]. rewrite length_fcontents. lia.
Qed.

Lemma dirlookup_loop_run fuel t sb ic a dp x name k Q :
  trepr t a -> calm (disksize := disksize) (home := home) sb a -> ic !! dp = Some x ->
  dir_ok sb (t_view a) x ->
  let es := entries (contents (t_view a) (i_addrs x) (i_size x)) in
  (length es <= k + fuel)%nat ->
  (forall t', trepr t' a -> dfind name (drop k es) k = None -> Q None (mkfs t' sb ic)) ->
  (forall t' j i, trepr t' a -> dfind name (drop k es) k = Some (j, i) ->
     wp (iget 1 i) (mkfs t' sb ic) (fun ip s' => Q (Some (ip, 16 * Z.of_nat j)) s')) ->
  wp (dirlookup_loop dev_read fuel dp name (16 * Z.of_nat k)) (mkfs t sb ic) Q.
Proof.
  intros HR HC Hx Hd es. revert t HR k. induction fuel as [|fuel IH]; intros t HR k Hf HN HS.
  all: pose proof Hd as (HI & Ht & Hm); pose proof (Z.div_mod (i_size x) 16 ltac:(lia));
       pose proof (io_size _ _ _ HI);
       assert (Hes : Z.of_nat (length es) = i_size x / 16)
         by (unfold es; rewrite length_entries, length_fcontents, Nat2Z.inj_div, Z2Nat.id by lia; done).
  all: cbn [dirlookup_loop]; eapply f_geti; [done|]; destruct (Z.ltb_spec (16 * Z.of_nat k) (i_size x)) as [Hlt|Hge];
       [|apply wp_ret, HN; [done|]; by rewrite drop_ge by lia].
  { lia. }
  eapply read_entry; eauto. fold es. intros t1 de R1 Hde. cbn [negb Z.eqb Pos.eqb].
  rewrite (drop_S _ _ _ Hde) in HN, HS. cbn [dfind] in HN, HS. unfold hit in HN, HS.
  replace (16 * Z.of_nat k + 16) with (16 * Z.of_nat (Datatypes.S k)) by lia.
  destruct (de_inum de =? 0) eqn:E0; cbn [negb andb] in HN, HS.
  { apply IH; auto. lia. }
  destruct (namecmp name (de_name de) =? 0) eqn:E1.
  - apply wp_bind. rewrite (io_dev _ _ _ HI). eapply wp_mono; [by apply HS|]. intros ip s' HQ. by apply wp_ret.
  - apply IH; auto. lia.
Qed.

Lemma dirlookup_run t sb ic a dp x name Q :
  trepr t a -> calm (disksize := disksize) (home := home) sb a -> ic !! dp = Some x ->
  dir_ok sb (t_view a) x ->
  let es := entries (contents (t_view a) (i_addrs x) (i_size x)) in
  (forall t', trepr t' a -> dfind name es 0 = None -> Q None (mkfs t' sb ic)) ->
  (forall t' j i, trepr t' a -> dfind name es 0 = Some (j, i) ->
     wp (iget 1 i) (mkfs t' sb ic) (fun ip s' => Q (Some (ip, 16 * Z.of_nat j)) s')) ->
  wp (dirlookup dev_read dp name) (mkfs t sb ic) Q.
Proof.
  intros HR HC Hx Hd es HN HS. unfold dirlookup. eapply f_geti; [done|].
  pose proof Hd as (HI & -> & Hm). cbn [negb Z.eqb T_DIR Pos.eqb].
  change 0 with (16 * Z.of_nat 0). eapply dirlookup_loop_run; eauto. cbn zeta. fold es.
  unfold es. rewrite length_entries, length_fcontents. pose proof (io_size _ _ _ HI).
  pose proof (Nat2Z.inj_div (Z.to_nat (i_size x)) 16). rewrite Z2Nat.id in * by lia. lia.
Qed.

(** The scan for an empty entry. *)
Lemma empty_loop_run fuel t sb ic a dp x k Q :
  trepr t a -> calm (disksize := disksize) (home := home) sb a -> ic !! dp = Some x ->
  dir_ok sb (t_view a) x ->
  let es := entries (contents (t_view a) (i_addrs x) (i_size x)) in
  (k <= length es <= k + fuel)%nat ->
  (forall t', trepr t' a -> Q (16 * Z.of_nat (dfree (drop k es) k)) (mkfs t' sb ic)) ->
  wp (empty_loop dev_read fuel dp (16 * Z.of_nat k)) (mkfs t sb ic) Q.
Proof.
  intros HR HC Hx Hd es. revert t HR k. induction fuel as [|fuel IH]; intros t HR k Hf HQ.
  all: pose proof Hd as (HI & Ht & Hm); pose proof (Z.div_mod (i_size x) 16 ltac:(lia));
       pose proof (io_size _ _ _ HI);
       assert (Hes : Z.of_nat (length es) = i_size x / 16)
         by (unfold es; rewrite length_entries, length_fcontents, Nat2Z.inj_div, Z2Nat.id by lia; done).
  all: cbn [empty_loop]; eapply f_geti; [done|]; destruct (Z.ltb_spec (16 * Z.of_nat k) (i_size x)) as [Hlt|Hge];
       [|apply wp_ret; rewrite drop_ge in HQ by lia; by apply HQ].
  { lia. }
  eapply read_entry; eauto. fold es. intros t1 de R1 Hde. cbn [negb Z.eqb Pos.eqb].
  rewrite (drop_S _ _ _ Hde) in HQ. cbn [dfree] in HQ.
  replace (16 * Z.of_nat k + 16) with (16 * Z.of_nat (Datatypes.S k)) by lia.
  destruct (de_inum de =? 0); [by apply wp_ret, HQ|].
  apply IH; auto. lia.
Qed.

Lemma nblocks_entry k : nblocks_at (16 * k) 16 = 1%nat.
Proof.
  unfold nblocks_at. rewrite bool_decide_false by lia.
  pose proof (Nat.div_mod (16 * k) 512 ltac:(lia)) as Hd. pose proof (Nat.mod_upper_bound (16 * k) 512 ltac:(lia)).
  assert (E : ((16 * k) mod 512 = 16 * (k mod 32))%nat).
  { change 512%nat with (16 * 32)%nat. apply Nat.Div0.mul_mod_distr_l. }
  pose proof (Nat.mod_upper_bound k 32 ltac:(lia)).
  assert (E2 : ((16 * k) / 512 = (16 * k + 16 - 1) / 512)%nat).
  { apply (Nat.div_unique _ _ _ ((16 * k) mod 512 + 15)); lia. }
  lia.
Qed.

Lemma dirlink_run t sb ic a dp x name inum :
  trepr t a -> calm (disksize := disksize) (home := home) sb a -> ic !! dp = Some x ->
  dir_ok sb (t_view a) x -> 0 <= i_inum x < sb_ninodes sb ->
  let es := entries (contents (t_view a) (i_addrs x) (i_size x)) in
  dfind name es 0 = None -> 16 * Z.of_nat (dfree es 0) + 16 <= MAXSIZE ->
  (4 <= t_quota a)%nat -> (2 <= length (free_blocks sb (t_view a)))%nat ->
  wp (dirlink me dev_read dev_write dp name inum) (mkfs t sb ic)
    (fun r s' => r = 0 /\ exists t' a' x',
       s' = mkfs t' sb (<[dp := x']> ic) /\ trepr t' a' /\
       file_written (disksize := disksize) (home := home) sb (16 * dfree es 0) (mkdirent inum name) x a x' a').
Proof.
  intros HR HC Hx Hd Hn es Hnone Hmax Hq Hf. pose proof Hd as (HI & Ht & Hm).
  pose proof (io_size _ _ _ HI). pose proof (Z.div_mod (i_size x) 16 ltac:(lia)).
  assert (Hes : Z.of_nat (length es) = i_size x / 16)
    by (unfold es; rewrite length_entries, length_fcontents, Nat2Z.inj_div, Z2Nat.id by lia; done).
  destruct (dfree_spec es 0) as [Hk _]. set (k := dfree es 0) in *.
  unfold dirlink. apply wp_bind. eapply dirlookup_run; eauto; fold es; [|intros t' j i _ E; congruence].
  intros t1 R1 _. eapply f_geti; [done|]. apply wp_bind. change 0 with (16 * Z.of_nat 0) at 1.
  eapply empty_loop_run; eauto; cbn zeta; fold es; [lia|]. intros t2 R2. rewrite drop_0. fold k.
  replace (16 * Z.of_nat k) with (Z.of_nat (16 * k)) by lia.
  assert (Hl : length (mkdirent inum name) = 16%nat) by done.
  eapply wp_seq; [eapply (writei_run dev_write); eauto; rewrite ?Hl, ?nblocks_entry; try lia; by rewrite Ht|].
  intros r s' (-> & t3 & a3 & x3 & -> & R3 & W). rewrite Hl. apply wp_ret. split; [done|].
  exists t3, a3, x3. done.
Qed.

End Dirs.

(** ** Paths *)

(** The elements of a path: what is between slashes. *)
Fixpoint split_slash (p : list Z) : list (list Z) :=
  match p with
  | [] => [[]]
  | c :: r =>
      match split_slash r with
      | [] => [[c]]
      | e :: es => if c =? slash then [] :: e :: es else (c :: e) :: es
      end
  end.

Definition elems (p : list Z) : list (list Z) := filter (fun e => e <> []) (split_slash p).

Lemma split_slash_ne p : split_slash p <> [].
Proof. destruct p as [|c r]; [done|]. cbn. destruct (split_slash r); [done|]. by destruct (c =? slash). Qed.

Lemma elems_slash p : elems (slash :: p) = elems p.
Proof.
  unfold elems. cbn. pose proof (split_slash_ne p). destruct (split_slash p); [done|].
  by rewrite filter_cons_False by tauto.
Qed.

Lemma elems_skip p : elems (skip_slashes p) = elems p.
Proof.
  induction p as [|c r IH]; [done|]. cbn [skip_slashes]. destruct (Z.eqb_spec c slash) as [->|]; [|done].
  by rewrite elems_slash.
Qed.

Lemma skip_slashes_hd p : forall c r, skip_slashes p = c :: r -> c <> slash.
Proof.
  induction p as [|d q IH]; intros c r H; [done|]. cbn in H.
  destruct (Z.eqb_spec d slash) as [|Hd]; [eauto|]. congruence.
Qed.

Lemma split_elem_spec p : forall e q, split_elem p = (e, q) ->
  p = e ++ q /\ Forall (.≠ slash) e /\ (q = [] \/ exists r, q = slash :: r) /\
  split_slash p = e :: (match q with [] => [] | _ :: r => split_slash r end).
Proof.
  induction p as [|c r IH]; intros e q H; cbn in H.
  - injection H as <- <-. split_and!; auto.
  - destruct (Z.eqb_spec c slash) as [->|Hc].
    + injection H as <- <-. split_and!; [done|done|by right; exists r|].
      cbn. pose proof (split_slash_ne r). by destruct (split_slash r).
    + destruct (split_elem r) as [e' q'] eqn:E. injection H as <- <-.
      destruct (IH e' q' eq_refl) as (-> & H2 & H3 & H4). split_and!; auto.
      cbn [split_slash]. rewrite H4. by rewrite (proj2 (Z.eqb_neq c slash)).
Qed.

(** [skipelem] takes the path's first element off, whatever slashes there are. *)
Lemma skipelem_run path name :
  match elems path with
  | [] => skipelem path name = None
  | e :: es => exists path', skipelem path name = Some (path', set_name name e) /\
      elems path' = es /\ (path' = [] <-> es = [])
  end.
Proof.
  rewrite <- (elems_skip path). unfold skipelem. pose proof (skip_slashes_hd path) as Hhd.
  destruct (skip_slashes path) as [|c r]; [done|]. specialize (Hhd c r eq_refl).
  destruct (split_elem (c :: r)) as [e q] eqn:E.
  destruct (split_elem_spec _ _ _ E) as (Hp & He & Hq & Hs). unfold elems. rewrite Hs.
  assert (Hne : e <> []).
  { intros ->. cbn in E. rewrite (proj2 (Z.eqb_neq c slash)) in E by done. by destruct (split_elem r). }
  rewrite filter_cons_True by done. exists (skip_slashes q). split; [done|].
  assert (Hes : elems (skip_slashes q) = filter (fun e => e <> []) match q with [] => [] | _ :: r => split_slash r end).
  { rewrite elems_skip. destruct Hq as [->|[q' ->]]; [done|]. by rewrite elems_slash. }
  split; [done|]. rewrite <- Hes. split; [by intros ->|]. intros Hn.
  pose proof (skip_slashes_hd q) as Hh. destruct (skip_slashes q) as [|d l]; [done|]. exfalso.
  specialize (Hh d l eq_refl). unfold elems in Hn. cbn in Hn.
  destruct (split_slash l); [done|]. by rewrite (proj2 (Z.eqb_neq d slash)) in Hn.
Qed.

(** The buffer then holds the element, cut to DIRSIZ bytes. *)
Lemma set_name_cut name e : length name = DIRSIZ -> Forall (.≠ 0) e ->
  length (set_name name e) = DIRSIZ /\ cname (set_name name e) = take DIRSIZ e.
Proof.
  intros Hl He.
  assert (Hcut : forall n l r, Forall (.≠ 0) l -> (n <= length l)%nat \/ hd 0 r = 0 -> cut n (l ++ r) = take n l).
  { induction n as [|n IH]; intros l r Hnz Hr; [done|]. destruct l as [|c l]; cbn in *.
    - destruct r as [|c r]; [done|]. destruct Hr as [|Hr]; [lia|]. cbn in Hr. by subst.
    - apply Forall_cons in Hnz as [Hc Hnz]. rewrite (proj2 (Z.eqb_neq c 0)) by done. f_equal.
      apply IH; [done|]. destruct Hr; [left; lia|by right]. }
  unfold set_name. case_bool_decide as Hle.
  - split; [rewrite length_take; lia|]. unfold cname.
    rewrite <- (app_nil_r (take DIRSIZ e)), Hcut; [by rewrite app_nil_r, take_take, Nat.min_id|by apply Forall_take|].
    left. rewrite length_take. lia.
  - rewrite !length_put_bytes. split; [done|]. unfold cname.
    assert (E : put_bytes (put_bytes name 0 e) (length e) [0] = e ++ 0 :: drop (S (length e)) name).
    { apply (nth_ext _ _ 0 0).
      - rewrite !length_put_bytes, length_app. cbn. rewrite length_drop. lia.
      - intros i _. rewrite !nth_put_bytes by (rewrite ?length_put_bytes; cbn; lia). cbn [length].
        destruct (decide (i < length e)%nat) as [Hi|Hi].
        + rewrite bool_decide_false, bool_decide_true, app_nth1 by lia. f_equal. lia.
        + rewrite app_nth2 by lia. destruct (decide (i = length e)) as [->|Hne].
          * rewrite bool_decide_true by lia. by rewrite Nat.sub_diag.
          * rewrite !bool_decide_false by lia. destruct (i - length e)%nat as [|j] eqn:Ej; [lia|]. cbn [nth].
            rewrite !nth_lookup, lookup_drop. f_equal. f_equal. lia. }
    rewrite E, Hcut by (done || by right). done.
Qed.

Lemma elems_nonzero p : Forall (.≠ 0) p -> Forall (Forall (.≠ 0)) (elems p).
Proof.
  intros H. assert (Hs : Forall (Forall (.≠ 0)) (split_slash p)).
  2:{ apply Forall_forall. intros e [_ He]%list_elem_of_filter. by eapply Forall_forall in Hs. }
  induction H as [|c r Hc Hr IH]; [by repeat constructor|].
  cbn. pose proof (split_slash_ne r). destruct (split_slash r) as [|e es]; [done|]. apply Forall_cons in IH as [IH1 IH2].
  destruct (c =? slash); by repeat constructor.
Qed.
