(* ===== verification/FsTrunc.v ===== *)
(** * Freeing a file ([fs.c]: [itrunc], [iput])

    [itrunc] gives back to the free map exactly the blocks the file owns, the
    indirect block last, and leaves an empty file on disk and in memory. *)
From S2P Require Import Prelude Bio Log LogSpec Tx Fs FsBlocks FsInode FsFiles FsContents.

(** The slots in [done] have been freed since [a0]. *)
Record freed (sb : superblock) (ad0 : list Z) (a0 : tspec) (done : nat -> Prop) (a : tspec) : Prop := {
  fr_ok : fs_ok sb (t_view a);
  fr_frame n : n <> sb_bmapstart sb -> t_view a n = t_view a0 n;
  fr_used c : 0 <= c -> used sb (t_view a) c = true <->
    used sb (t_view a0) c = true /\
    forall i, (i < NSLOT)%nat -> done i -> slot (t_view a0) ad0 i <> 0 -> slot (t_view a0) ad0 i <> c;
  fr_dirty : t_dirty a = ∅;
  fr_quota : (t_quota a0 <= t_quota a + if bool_decide (sb_bmapstart sb ∈ t_logged a) then 1 else 0)%nat;
}.

(** Only the slots in use count. *)
Lemma freed_iff sb ad0 a0 (P P' : nat -> Prop) a : freed sb ad0 a0 P a ->
  (forall i, (i < NSLOT)%nat -> slot (t_view a0) ad0 i <> 0 -> P' i <-> P i) -> freed sb ad0 a0 P' a.
Proof.
  intros [H1 H2 H3 H4 H5] HP. split; auto. intros c Hc. rewrite (H3 c Hc).
  split; intros [Hu Hs]; (split; [done|]); intros i Hi Hp Hz; apply Hs; auto; by apply HP.
Qed.

Lemma freed_start sb ad0 a : fs_ok sb (t_view a) -> t_dirty a = ∅ -> freed sb ad0 a (fun _ => False) a.
Proof. intros HF Hd. split; auto; [|lia]. intros c _. split; [|tauto]. intros Hu. split; [done|]. tauto. Qed.

Section Trunc.
Context {S : Type} {TO : TxOps S} {disksize : Z} {home : Z -> Prop} {TD : TxView S disksize home}.
Implicit Types (t : S) (sb : superblock) (ic : list inode) (a : tspec) (x : inode).

Lemma freed_step sb ad0 a0 (P : nat -> Prop) a i : layout disksize home sb ->
  file_ok sb (t_view a0) ad0 -> freed sb ad0 a0 P a -> (forall n, length (t_view a n) = BSIZE) ->
  (i < NSLOT)%nat -> slot (t_view a0) ad0 i <> 0 ->
  freed sb ad0 a0 (fun j => P j \/ j = i) (bfree_spec sb (slot (t_view a0) ad0 i) a).
Proof.
  intros HL Hfo [H1 H2 H3 H4 H5] Hlen Hi Hz. destruct (fo_data _ _ _ Hfo i Hi Hz) as [Hr _].
  pose proof (ly_bm _ _ _ HL). split.
  - by eapply bfree_ok.
  - intros n Hn. rewrite bfree_view by done. by apply H2.
  - intros c Hc. rewrite (bfree_used (disksize := disksize) (home := home)), andb_true_iff, H3 by (done || lia).
    rewrite negb_true_iff, Z.eqb_neq. split.
    + intros (Hne & Hu & Hs). split; [done|]. intros j Hj [Hp| ->] Hjz; [by apply Hs|congruence].
    + intros (Hu & Hs). split_and!; [|done|].
      * intros ->. by apply (Hs i); auto.
      * intros j Hj Hp. apply Hs; auto.
  - done.
  - unfold bfree_spec, upd_blk. cbn [t_quota t_logged].
    rewrite (bool_decide_true (sb_bmapstart sb ∈ {[sb_bmapstart sb]} ∪ t_logged a)) by (apply elem_of_union_l, elem_of_singleton_2; done).
    revert H5. destruct (bool_decide (sb_bmapstart sb ∈ t_logged a)); lia.
Qed.

(** One [bfree] of [itrunc]. *)
Lemma free_slot t sb ic ad0 a0 (P : nat -> Prop) a i (Q : unit -> fsst S -> Prop) :
  trepr t a -> layout disksize home sb -> file_ok sb (t_view a0) ad0 -> freed sb ad0 a0 P a ->
  held_ok sb a -> (2 <= t_quota a0)%nat ->
  (i < NSLOT)%nat -> slot (t_view a0) ad0 i <> 0 -> ~ P i ->
  (forall t' a', trepr t' a' -> freed sb ad0 a0 (fun j => P j \/ j = i) a' -> t_held a' = t_held a ->
     Q tt (mkfs t' sb ic)) ->
  wp (bfree 1 (slot (t_view a0) ad0 i)) (mkfs t sb ic) Q.
Proof.
  intros HR HL Hfo Hfr Hh Hq Hi Hz Hp Hk. destruct (fo_data _ _ _ Hfo i Hi Hz) as [Hr Hu].
  pose proof (ly_bm _ _ _ HL). eapply bfree_run; eauto.
  - apply (fr_ok _ _ _ _ _ Hfr).
  - unfold can_log. pose proof (fr_quota _ _ _ _ _ Hfr) as Hq'.
    destruct (bool_decide_reflect (sb_bmapstart sb ∈ t_logged a)); [by left|]. right. lia.
  - lia.
  - apply (fr_used _ _ _ _ _ Hfr); [lia|]. split; [done|]. intros j Hj HPj Hjz E.
    by rewrite (fo_inj _ _ _ Hfo i j Hi Hj Hz (eq_sym E)) in Hp.
  - intros t' R'. eapply Hk; [exact R'| |done]. eapply freed_step; eauto. intros n. by eapply t_len.
Qed.

(** The state of the loop over the direct blocks. *)
Definition cleared (k : nat) (ad : list Z) : list Z := repeat 0 k ++ drop k ad.

Lemma cleared_S k ad : (k < length ad)%nat -> <[k := 0]> (cleared k ad) = cleared (Datatypes.S k) ad.
Proof.
  intros Hk. unfold cleared. destruct (lookup_lt_is_Some_2 ad k Hk) as [z Hz].
  rewrite (drop_S ad z k Hz), insert_app_r_alt by (rewrite repeat_length; lia).
  rewrite repeat_length, Nat.sub_diag. cbn [list_insert insert].
  replace (Datatypes.S k) with (k + 1)%nat by lia. rewrite repeat_app, <- app_assoc. done.
Qed.

Lemma nth_cleared k ad i : nth i (cleared k ad) 0 = if bool_decide (i < k)%nat then 0 else nth i ad 0.
Proof.
  unfold cleared. case_bool_decide.
  - rewrite app_nth1 by (rewrite repeat_length; lia). apply nth_repeat.
  - rewrite app_nth2; rewrite repeat_length; [|lia]. rewrite !nth_lookup, lookup_drop. do 2 f_equal. lia.
Qed.

Lemma length_cleared k ad : (k <= length ad)%nat -> length (cleared k ad) = length ad.
Proof. intros H. unfold cleared. rewrite length_app, repeat_length, length_drop. lia. Qed.

(** The state after [k] rounds over the direct blocks. *)
Definition directs sb ic ip x a0 (k : nat) (s : fsst S) : Prop :=
  exists t a, s = mkfs t sb (<[ip := set_addrs (cleared k (i_addrs x)) x]> ic) /\ trepr t a /\
    t_held a = ∅ /\ freed sb (i_addrs x) a0 (fun i => (i < k)%nat) a.

Lemma trunc_direct_run sb ic ip x a0 k s :
  layout disksize home sb -> file_ok sb (t_view a0) (i_addrs x) -> (2 <= t_quota a0)%nat ->
  is_Some (ic !! ip) -> i_dev x = 1 -> (k < NDIRECT)%nat -> directs sb ic ip x a0 k s ->
  wp (trunc_direct ip k) s (fun _ s' => directs sb ic ip x a0 (Datatypes.S k) s').
Proof.
  intros HL Hfo Hq Hip Hdev Hk (t & a & -> & HR & Hh & Hfr). pose proof (fo_len _ _ _ Hfo) as Hl.
  assert (Hx : <[ip := set_addrs (cleared k (i_addrs x)) x]> ic !! ip = Some (set_addrs (cleared k (i_addrs x)) x))
    by (by apply list_lookup_insert_eq, lookup_lt_is_Some).
  unfold trunc_direct. eapply f_geti; [exact Hx|]. cbn [i_addrs set_addrs i_dev].
  assert (Hn : cleared k (i_addrs x) !! k = Some (slot (t_view a0) (i_addrs x) k)).
  { rewrite nth_lookup_Some with (d := 0) by (rewrite length_cleared; unfold NDIRECT in *; lia).
    rewrite nth_cleared, bool_decide_false by lia. unfold slot. by rewrite bool_decide_true by lia. }
  rewrite Hn. apply wp_bind, wp_ret. rewrite Hdev.
  assert (Hcl : set_addr k 0 (set_addrs (cleared k (i_addrs x)) x) = set_addrs (cleared (Datatypes.S k) (i_addrs x)) x).
  { unfold set_addr, set_addrs. cbn. by rewrite cleared_S by (unfold NDIRECT in *; lia). }
  unfold nz. destruct (Z.eqb_spec (slot (t_view a0) (i_addrs x) k) 0) as [Hz|Hz]; cbn [negb].
  - apply wp_ret. exists t, a. split_and!; auto.
    + rewrite <- Hcl. unfold set_addr, set_addrs. cbn. do 2 f_equal. f_equal. symmetry. apply list_insert_id. by rewrite <- Hz.
    + eapply freed_iff; [exact Hfr|]. intros i Hi Hiz. cbn. split; [|lia]. intros Hik.
      destruct (decide (i = k)) as [->|]; [done|lia].
  - apply wp_bind. eapply free_slot; eauto.
    + apply held_empty_ok; [done|]. apply (fr_dirty _ _ _ _ _ Hfr).
    + unfold NSLOT, NDIRECT in *. lia.
    + cbn. lia.
    + intros t' a' R' Hfr' Hh'. eapply f_seti'; [exact Hx|]. exists t', a'.
      rewrite list_insert_insert_eq, Hcl. split_and!; auto; [congruence|].
      eapply freed_iff; [exact Hfr'|]. cbn. lia.
Qed.

(** The state after [j] rounds over the entries of the indirect block. *)
Definition indirects sb ic n bp ad a0 (j : nat) (s : fsst S) : Prop :=
  exists t a, s = mkfs t sb ic /\ trepr t a /\ t_held a = {[n := bp]} /\
    freed sb ad a0 (fun i => (i < NDIRECT \/ 13 <= i < 13 + j)%nat) a.

Lemma trunc_entry_run sb ic ad bp a0 j s :
  layout disksize home sb -> file_ok sb (t_view a0) ad -> (2 <= t_quota a0)%nat ->
  ind_of ad <> 0 -> (j < NINDIRECT)%nat -> indirects sb ic (ind_of ad) bp ad a0 j s ->
  wp (trunc_entry 1 bp j) s (fun _ s' => indirects sb ic (ind_of ad) bp ad a0 (Datatypes.S j) s').
Proof.
  intros HL Hfo Hq Hind Hj (t & a & -> & HR & Hh & Hfr).
  destruct (fo_data _ _ _ Hfo NDIRECT ltac:(unfold NSLOT, NDIRECT; lia) Hind) as [Hr Hu]. rewrite ind_slot in Hr, Hu.
  pose proof (ly_bm _ _ _ HL).
  unfold trunc_entry. eapply f_data; [exact HR|by rewrite Hh, lookup_singleton_eq|].
  rewrite (fr_frame _ _ _ _ _ Hfr) by lia.
  assert (Hs : get32 (t_view a0 (ind_of ad)) (4 * j) = slot (t_view a0) ad (13 + j)).
  { unfold slot. rewrite bool_decide_false by (unfold NDIRECT; lia). rewrite (proj2 (Z.eqb_neq _ _)) by done.
    do 2 f_equal. lia. }
  rewrite Hs. unfold when, nz. destruct (Z.eqb_spec (slot (t_view a0) ad (13 + j)) 0) as [Hz|Hz]; cbn [negb].
  - apply wp_ret. exists t, a. split_and!; auto. eapply freed_iff; [exact Hfr|]. intros i Hi Hiz. cbn.
    split; [|lia]. intros [?|?]; [by left|]. destruct (decide (i = 13 + j)%nat) as [->|]; [done|lia].
  - eapply free_slot; eauto.
    + split_and!; [rewrite Hh, map_size_singleton; unfold MAXHELD; lia|apply (fr_dirty _ _ _ _ _ Hfr)|].
      intros m [b Hm]. rewrite Hh in Hm. apply lookup_singleton_Some in Hm as [<- _]. split; [lia|].
      apply (fr_used _ _ _ _ _ Hfr); [lia|]. split; [done|]. intros i Hi Hp Hiz E.
      assert (i = NDIRECT) as -> by (eapply (fo_inj _ _ _ Hfo); eauto; unfold NSLOT, NDIRECT; lia).
      unfold NDIRECT in Hp. lia.
    + unfold NSLOT, NINDIRECT in *. lia.
    + cbn. unfold NDIRECT. lia.
    + intros t' a' R' Hfr' Hh'. exists t', a'. split_and!; auto; [congruence|].
      eapply freed_iff; [exact Hfr'|]. cbn. lia.
Qed.

Lemma freed_same sb ad0 a0 (P : nat -> Prop) a a' : freed sb ad0 a0 P a -> t_view a' = t_view a ->
  t_dirty a' = t_dirty a -> t_logged a' = t_logged a -> t_quota a' = t_quota a -> freed sb ad0 a0 P a'.
Proof. intros [H1 H2 H3 H4 H5] E1 E2 E3 E4. split; rewrite ?E1, ?E2, ?E3, ?E4; auto. Qed.

(** The indirect block: its entries first, then the block itself. *)
Lemma trunc_indirect_run {B} t sb ic ip x a0 a (k : unit -> M (fsst S) B) Q :
  layout disksize home sb -> file_ok sb (t_view a0) (i_addrs x) -> (2 <= t_quota a0)%nat -> i_dev x = 1 ->
  ic !! ip = Some (set_addrs (cleared 12 (i_addrs x)) x) -> ind_of (i_addrs x) <> 0 ->
  trepr t a -> t_held a = ∅ -> freed sb (i_addrs x) a0 (fun i => (i < NDIRECT)%nat) a ->
  (forall t' a', trepr t' a' -> t_held a' = ∅ -> freed sb (i_addrs x) a0 (fun i => (i < NSLOT)%nat) a' ->
     wp (k tt) (mkfs t' sb (<[ip := set_addrs (cleared 13 (i_addrs x)) x]> ic)) Q) ->
  wp (bind (let! bp := lift (tx_read 1 (ind_of (i_addrs x))) in
            for_each (indices NINDIRECT) (trunc_entry 1 bp) ;;
            lift (tx_relse bp) ;;
            bfree 1 (ind_of (i_addrs x)) ;;
            seti ip (set_addr NDIRECT 0)) k) (mkfs t sb ic) Q.
Proof.
  intros HL Hfo Hq Hdev Hx Hind HR Hh Hfr Hk. set (n := ind_of (i_addrs x)) in *. pose proof (ly_bm _ _ _ HL).
  destruct (fo_data _ _ _ Hfo NDIRECT ltac:(unfold NSLOT, NDIRECT; lia) Hind) as [Hr Hu]. rewrite ind_slot in Hr, Hu.
  fold n in Hr, Hu. apply wp_bind.
  eapply f_read; [exact HR|apply (home_disk (disksize := disksize)), HL; lia|by rewrite Hh| |].
  { rewrite Hh, map_size_empty. unfold MAXHELD. lia. }
  intros bp t1 R1. apply wp_bind.
  apply (wp_for_indices (indirects sb ic n bp (i_addrs x) a0)).
  - intros j s Hj HI. by apply trunc_entry_run.
  - exists t1, (t_take n bp a). split_and!; auto; [cbn; by rewrite Hh|].
    eapply freed_iff; [by eapply freed_same|]. intros. cbv beta. lia.
  - intros s (t2 & a2 & -> & R2 & Hh2 & Hfr2).
    eapply f_relse; [exact R2|by rewrite Hh2, lookup_singleton_eq|by rewrite (fr_dirty _ _ _ _ _ Hfr2)|].
    intros t3 R3. apply wp_bind. change n with (slot (t_view a0) (i_addrs x) NDIRECT).
    assert (Hh3 : t_held (t_drop n a2) = ∅) by (cbn; rewrite Hh2; apply delete_singleton_eq).
    eapply (free_slot _ _ _ (i_addrs x) a0 (fun i => (i < NDIRECT \/ 13 <= i < 13 + NINDIRECT)%nat)); eauto.
    + by eapply freed_same.
    + apply held_empty_ok; [done|]. apply (fr_dirty _ _ _ _ _ Hfr2).
    + unfold NSLOT, NDIRECT. lia.
    + cbv beta. unfold NDIRECT. lia.
    + intros t4 a4 R4 Hfr4 Hh4. eapply f_seti'; [exact Hx|].
      replace (set_addr NDIRECT 0 (set_addrs (cleared 12 (i_addrs x)) x)) with (set_addrs (cleared 13 (i_addrs x)) x).
      * eapply Hk; [exact R4|congruence|]. eapply freed_iff; [exact Hfr4|]. intros. cbv beta. unfold NSLOT, NDIRECT, NINDIRECT in *. lia.
      * unfold set_addr, set_addrs. f_equal. symmetry. apply (cleared_S 12). rewrite (fo_len _ _ _ Hfo). lia.
Qed.

(** The inode of an empty file. *)
Definition emptied (x : inode) : inode := set_isize 0 (set_addrs (repeat 0 13) x).

Record truncated (sb : superblock) (x : inode) (a a' : tspec) : Prop := {
  tr_calm : calm (disksize := disksize) (home := home) sb a';
  tr_used c : 0 <= c -> used sb (t_view a') c = true <->
    used sb (t_view a) c = true /\ ~ owns (t_view a) (i_addrs x) c;
  tr_frame n : n <> sb_bmapstart sb -> n <> IBLOCK (i_inum x) sb -> t_view a' n = t_view a n;
  tr_synced : dinode_fits x -> synced sb (t_view a') (emptied x);
  tr_inodes y m : 0 <= m < sb_ninodes sb -> m <> i_inum x ->
    dinode_at sb (t_view a') m y = dinode_at sb (t_view a) m y;
  tr_quota : (t_quota a <= t_quota a' + 2)%nat;
}.

Lemma cleared_all ad : length ad = 13%nat -> cleared 13 ad = repeat 0 13.
Proof. intros H. unfold cleared. by rewrite drop_ge, app_nil_r by lia. Qed.

Lemma cleared_12 ad : length ad = 13%nat -> ind_of ad = 0 -> cleared 12 ad = repeat 0 13.
Proof.
  intros H Hi. rewrite <- (cleared_all ad H), <- (cleared_S 12) by lia. symmetry. apply list_insert_id.
  rewrite nth_lookup_Some with (d := 0) by (rewrite length_cleared; lia).
  rewrite nth_cleared, bool_decide_false by lia. f_equal. exact Hi.
Qed.

(** Writing the empty inode back completes the truncation. *)
Lemma freed_truncated sb x a0 a : layout disksize home sb -> 0 <= i_inum x < sb_ninodes sb ->
  (forall n, length (t_view a n) = BSIZE) -> t_held a = ∅ ->
  freed sb (i_addrs x) a0 (fun i => (i < NSLOT)%nat) a ->
  truncated sb x a0 (iupdate_spec sb (emptied x) a).
Proof.
  intros HL Hi Hlen Hh Hfr. pose proof Hfr as [F1 F2 F3 F4 F5].
  assert (HM : meta_eq sb (t_view a) (t_view (iupdate_spec sb (emptied x) a))) by (by eapply iupdate_meta).
  destruct (ly_inode _ _ _ HL _ Hi) as [_ Hib].
  split.
  - split; auto. by eapply meta_fs_ok.
  - intros c Hc. rewrite (meta_used _ _ _ _ HM), (F3 c Hc). split; intros [Hu Hs]; (split; [done|]).
    + intros (Hz & i & Hin & E). by apply (Hs i Hin Hin); [rewrite E|].
    + intros i Hin _ Hz E. apply Hs. split; [congruence|]. eauto.
  - intros n Hb Hn. unfold iupdate_spec, upd_blk. cbn [t_view]. rewrite write_disk_other by done. by apply F2.
  - intros [D1 D2 D3 D4 D5 D6 D7]. unfold synced, dinode_at, iupdate_spec, upd_blk. cbn [t_view].
    rewrite write_disk_eq, load_store; [done| |rewrite Hlen; apply dinode_off_le].
    split; auto; cbn [i_size i_addrs emptied set_isize set_addrs]; [lia|]. cbn. repeat constructor; lia.
  - intros y m Hm Hne. rewrite (iupdate_other (disksize := disksize) (home := home)) by (done || rewrite Hlen; done).
    destruct (ly_inode _ _ _ HL _ Hm) as [_ Hmb]. unfold dinode_at. by rewrite F2 by lia.
  - unfold iupdate_spec, upd_blk. cbn [t_quota]. revert F5. repeat destruct (bool_decide _); lia.
Qed.

Lemma itrunc_run t sb ic a ip x (Q : unit -> fsst S -> Prop) :
  trepr t a -> calm (disksize := disksize) (home := home) sb a -> ic !! ip = Some x ->
  inode_ok sb (t_view a) x -> 0 <= i_inum x < sb_ninodes sb -> (2 <= t_quota a)%nat ->
  (forall t' a', trepr t' a' -> truncated sb x a a' -> Q tt (mkfs t' sb (<[ip := emptied x]> ic))) ->
  wp (itrunc ip) (mkfs t sb ic) Q.
Proof.
  intros HR [HL HF Hh Hd] Hx [Hdev Hfo Hsz _] Hi Hq Hk. pose proof (fo_len _ _ _ Hfo) as Hl.
  assert (Hlt : (ip < length ic)%nat) by (by eapply lookup_lt_Some).
  assert (Hlk : forall y, <[ip := y]> ic !! ip = Some y) by (intros; by apply list_lookup_insert_eq).
  assert (Hend : forall t' a', trepr t' a' -> t_held a' = ∅ ->
    freed sb (i_addrs x) a (fun i => (i < NSLOT)%nat) a' ->
    wp (seti ip (set_isize 0) ;; iupdate ip) (mkfs t' sb (<[ip := set_addrs (repeat 0 13) x]> ic)) Q).
  { intros t' a' R' Hh' Hfr. eapply f_seti; [apply Hlk|]. rewrite list_insert_insert_eq. fold (emptied x).
    eapply iupdate_run; [exact R'|done|done|apply (fr_dirty _ _ _ _ _ Hfr)|apply Hlk|done|done| |].
    - right. pose proof (fr_quota _ _ _ _ _ Hfr) as F5. revert F5. destruct (bool_decide _); lia.
    - intros t2 R2. eapply Hk; [exact R2|]. apply freed_truncated; auto. intros n. by eapply t_len. }
  unfold itrunc. apply wp_bind. apply (wp_for_indices (directs sb ic ip x a)).
  - intros j s Hj HI. by apply trunc_direct_run.
  - exists t, a. split_and!; auto.
    + change (cleared 0 (i_addrs x)) with (i_addrs x). by rewrite set_addrs_id, list_insert_id.
    + eapply freed_iff; [by apply freed_start|]. intros. cbv beta. lia.
  - intros s (t1 & a1 & -> & R1 & Hh1 & Hfr1). eapply f_geti; [apply Hlk|]. cbn [i_addrs set_addrs i_dev].
    change (cleared NDIRECT (i_addrs x)) with (cleared 12 (i_addrs x)).
    replace (cleared 12 (i_addrs x) !! NDIRECT) with (Some (ind_of (i_addrs x))).
    2:{ rewrite nth_lookup_Some with (d := 0) by (rewrite length_cleared; unfold NDIRECT; lia). by rewrite nth_cleared. }
    apply wp_bind, wp_ret. rewrite Hdev. unfold when, nz.
    destruct (Z.eqb_spec (ind_of (i_addrs x)) 0) as [Hz|Hz]; cbn [negb].
    + apply wp_bind, wp_ret. rewrite cleared_12 by done. eapply Hend; [exact R1|done|].
      eapply freed_iff; [exact Hfr1|]. intros i Hin Hiz. cbv beta. split; [|done]. intros _.
      revert Hiz. unfold slot. rewrite Hz. case_bool_decide as Hc; [|done]. destruct (decide (i = NDIRECT)) as [->|]; [by unfold ind_of in Hz|lia].
    + eapply trunc_indirect_run; eauto. intros t2 a2 R2 Hh2 Hfr2. rewrite list_insert_insert_eq, cleared_all by done. eauto.
Qed.

End Trunc.
