(* ===== verification/FsIcache.v ===== *)
(** * The inode cache ([fs.c]: [iget], [ilock], [iunlock])

    The cache holds an inode at most once; [ilock] brings in what the disk has. *)
From S2P Require Import Prelude Sleeplock Bio Log LogSpec Tx Fs FsBlocks FsInode FsContents.

(** [x] is the cache entry of inode [inum]. *)
Definition caches (dev inum : Z) (x : inode) : Prop :=
  0 < i_ref x /\ i_dev x = dev /\ i_inum x = inum.

(** The references are counts and no inode is cached twice. *)
Record icache_ok (ic : list inode) : Prop := {
  ic_ref i x : ic !! i = Some x -> 0 <= i_ref x;
  ic_uniq i j x y dev inum : ic !! i = Some x -> ic !! j = Some y ->
    caches dev inum x -> caches dev inum y -> i = j;
}.

Lemma hit_caches dev inum x :
  (0 <? i_ref x) && (i_dev x =? dev) && (i_inum x =? inum) = true <-> caches dev inum x.
Proof. unfold caches. rewrite !andb_true_iff, Z.ltb_lt, !Z.eqb_eq. tauto. Qed.

Lemma iget_scan_spec dev inum l : forall i e,
  match iget_scan dev inum l i e with
  | (Some k, _) => exists j x, k = (i + j)%nat /\ l !! j = Some x /\ caches dev inum x
  | (None, e') => (forall j x, l !! j = Some x -> ~ caches dev inum x) /\
      match e with
      | Some _ => e' = e
      | None =>
          match e' with
          | Some k => exists j x, k = (i + j)%nat /\ l !! j = Some x /\ i_ref x = 0
          | None => forall j x, l !! j = Some x -> i_ref x <> 0
          end
      end
  end.
Proof.
  induction l as [|y l IH]; intros i e; [cbn; split; [done|]; by destruct e|]. cbn [iget_scan].
  destruct (_ && _ && _) eqn:E.
  - apply hit_caches in E. exists 0%nat, y. split; [lia|done].
  - assert (Hn : ~ caches dev inum y) by (intros Hc; apply hit_caches in Hc; congruence).
    match goal with |- context [iget_scan dev inum l (S i) ?e1] => specialize (IH (S i) e1); set (e2 := e1) in * end.
    destruct (iget_scan dev inum l (S i) e2) as [[k|] e'].
    + destruct IH as (j & x & -> & Hj & Hc). exists (S j), x. split; [lia|done].
    + destruct IH as [IH1 IH2]. split; [intros [|j] x Hj; [by injection Hj as <-|by eapply IH1]|].
      subst e2. destruct e as [e0|]; [done|]. destruct (Z.eqb_spec (i_ref y) 0) as [Hz|Hz].
      * subst e'. exists 0%nat, y. split; [lia|done].
      * destruct e' as [k|].
        -- destruct IH2 as (j & x & -> & Hj & Hc). exists (S j), x. split; [lia|done].
        -- intros [|j] x Hj; [by injection Hj as <-|by eapply IH2].
Qed.

(** What [iget] does to the entry it returns. *)
Definition igot (dev inum : Z) (x y : inode) : Prop :=
  (caches dev inum x /\ y = set_ref (i_ref x + 1) x) \/
  (i_ref x = 0 /\ y = mkinode dev inum 1 (i_lock x) 0 (i_type x) (i_major x) (i_minor x)
                        (i_nlink x) (i_size x) (i_addrs x)).

Lemma igot_caches dev inum x y : igot dev inum x y -> caches dev inum y.
Proof. intros [[(? & ? & ?) ->]|[_ ->]]; unfold caches; cbn; lia. Qed.

(** [iget] keeps the cache free of duplicates. *)
Lemma igot_ok ic ip x y dev inum : icache_ok ic -> ic !! ip = Some x -> igot dev inum x y ->
  (i_ref x = 0 -> forall j z, ic !! j = Some z -> ~ caches dev inum z) ->
  icache_ok (<[ip := y]> ic).
Proof.
  intros [H1 H2] Hx Hy Hf. pose proof (igot_caches _ _ _ _ Hy) as Hc.
  assert (Hot : forall j z, j <> ip -> ic !! j = Some z -> ~ caches dev inum z).
  { intros j z Hj Hz Hcz. destruct Hy as [[Hcx _]|[Hr _]]; [|by eapply Hf].
    apply Hj. by eapply H2. }
  assert (Hdup : forall j z d n, ic !! j = Some z -> j <> ip -> caches d n z -> caches d n y -> False).
  { intros j z d n Hj Hne Hz (_ & Hd & Hn). destruct Hc as (_ & <- & <-). subst. by eapply Hot. }
  split.
  - intros i z [(-> & <- & _)|[_ Hz]]%list_lookup_insert_Some; [destruct Hc; lia|eauto].
  - intros i j z w d n [(-> & <- & _)|[Hi Hz]]%list_lookup_insert_Some
      [(-> & <- & _)|[Hj Hw]]%list_lookup_insert_Some Hcz Hcw; [done| | |eauto].
    + exfalso. eapply (Hdup j w); eauto.
    + exfalso. eapply (Hdup i z); eauto.
Qed.

Section Cache.
Context {S : Type} {TO : TxOps S}.
Implicit Types (t : S) (sb : superblock) (ic : list inode) (x : inode).

Lemma iget_cases dev inum t sb ic : icache_ok ic ->
  (forall i x, ic !! i = Some x -> i_ref x < 2147483647) ->
  match iget dev inum (mkfs t sb ic) with
  | Ret ip s' => exists x y, ic !! ip = Some x /\ igot dev inum x y /\
      s' = mkfs t sb (<[ip := y]> ic) /\ icache_ok (<[ip := y]> ic)
  | Stop e => e = Panic "iget: no inodes" /\
      forall i x, ic !! i = Some x -> i_ref x <> 0 /\ ~ caches dev inum x
  | Wait _ _ => False
  end.
Proof.
  intros HI Hb. unfold iget, bind, gets. cbn [icache].
  pose proof (iget_scan_spec dev inum ic 0 None) as Hs.
  assert (Hset : forall ip f x, ic !! ip = Some x ->
    seti ip f (mkfs t sb ic) = Ret tt (mkfs t sb (<[ip := f x]> ic))).
  { intros ip f x Hx. unfold seti, geti, bind, deref, modify. cbn. rewrite Hx. cbn.
    by rewrite (list_insert_alter _ _ _ x). }
  destruct (iget_scan dev inum ic 0 None) as [[ip|] e].
  - destruct Hs as (j & x & -> & Hx & Hc). cbn [Nat.add] in *. rewrite (Hset _ _ x Hx). cbn.
    pose proof (Hb _ _ Hx). pose proof (ic_ref _ HI _ _ Hx).
    assert (Hy : igot dev inum x (set_ref (s32 (i_ref x + 1)) x)) by (left; rewrite s32_small by lia; done).
    exists x, (set_ref (s32 (i_ref x + 1)) x). split_and!; auto. eapply igot_ok; eauto.
    destruct Hc. lia.
  - destruct Hs as [Hn Hs]. destruct e as [ip|].
    + destruct Hs as (j & x & -> & Hx & Hr). cbn [Nat.add] in *. rewrite (Hset _ _ x Hx). cbn.
      eexists x, _. split_and!; [done| |done|]; [by right|]. eapply igot_ok; eauto. by right.
    + cbn. split; [done|]. eauto.
Qed.

End Cache.

(** ** Locking *)

(** The entry after [ilock]: locked, and filled from the disk if it was not. *)
Definition ilocked (me : Z) (sb : superblock) (v : Z -> block) (x : inode) : inode :=
  let y := set_ilock (mksleeplock 1 me) x in
  if i_valid x =? 0 then set_valid 1 (dinode_at sb v (i_inum x) y) else y.

Section Lock.
Context {S : Type} {TO : TxOps S} {disksize : Z} {home : Z -> Prop} {TD : TxView S disksize home}.
Context (me : Z).
Implicit Types (t : S) (sb : superblock) (ic : list inode) (x : inode) (a : tspec).

Lemma lock_inode_run t sb ic ip x (Q : unit -> fsst S -> Prop) :
  ic !! ip = Some x -> sl_locked (i_lock x) = 0 ->
  Q tt (mkfs t sb (<[ip := set_ilock (mksleeplock 1 me) x]> ic)) -> wp (lock_inode me ip) (mkfs t sb ic) Q.
Proof.
  intros Hx Hl Hk. unfold lock_inode. eapply f_geti; [done|].
  unfold seti, geti, acquiresleep, wp, bind, get, put, deref, modify. rewrite Hl. cbn. rewrite Hx. cbn.
  by rewrite (list_insert_alter _ _ _ x).
Qed.

Lemma ilock_run t sb ic a ip x (Q : unit -> fsst S -> Prop) :
  trepr t a -> layout disksize home sb -> t_held a = ∅ -> t_dirty a = ∅ -> ic !! ip = Some x ->
  0 < i_ref x -> sl_locked (i_lock x) = 0 -> i_dev x = 1 -> 0 <= i_inum x < sb_ninodes sb ->
  (i_valid x = 0 -> i_type (ilocked me sb (t_view a) x) <> 0) ->
  (forall t', trepr t' a -> Q tt (mkfs t' sb (<[ip := ilocked me sb (t_view a) x]> ic))) ->
  wp (ilock me ip) (mkfs t sb ic) Q.
Proof.
  intros HR HL Hh Hd Hx Hr Hl Hdev Hi Ht Hk. pose proof (lookup_lt_Some _ _ _ Hx) as Hlt.
  assert (Hlk : forall y, <[ip := y]> ic !! ip = Some y) by (intros; by apply list_lookup_insert_eq).
  unfold ilock. eapply f_geti; [done|]. rewrite (proj2 (Z.ltb_ge _ _)) by lia.
  apply wp_bind. eapply lock_inode_run; [done|done|]. eapply f_geti; [apply Hlk|]. cbn [set_ilock i_valid i_dev i_inum].
  unfold ilocked in *. destruct (Z.eqb_spec (i_valid x) 0) as [Hv|Hv]; [|apply wp_ret; by apply Hk].
  apply wp_bind, wp_gets. cbn [fsb]. rewrite Hdev. destruct (ly_inode _ _ _ HL _ Hi) as [Hhome _].
  eapply f_read; [exact HR|by apply (home_disk (disksize := disksize))|by rewrite Hh| |].
  { rewrite Hh, map_size_empty. unfold MAXHELD. lia. }
  intros bp t1 R1. eapply f_peek; [exact R1|]. eapply f_seti; [apply Hlk|]. rewrite list_insert_insert_eq.
  eapply f_done; [exact R1|by rewrite Hh|by rewrite Hd|]. intros t2 R2.
  eapply f_seti; [apply Hlk|]. rewrite list_insert_insert_eq. eapply f_geti; [apply Hlk|].
  rewrite (proj2 (Z.eqb_neq _ _)); [|by apply Ht]. apply wp_ret. by apply Hk.
Qed.

Lemma iunlock_run t sb ic ip x (Q : unit -> fsst S -> Prop) :
  ic !! ip = Some x -> 0 < i_ref x -> i_lock x = mksleeplock 1 me ->
  Q tt (mkfs t sb (<[ip := set_ilock initsleeplock x]> ic)) ->
  wp (iunlock me ip) (mkfs t sb ic) Q.
Proof.
  intros Hx Hr Hl Hk. unfold iunlock, holding_inode, unlock_inode, seti, geti, holdingsleep, releasesleep,
    wp, bind, get, put, ret, deref, modify. cbn. rewrite Hx. cbn. rewrite Hl. cbn. rewrite Hx. cbn.
  rewrite Z.eqb_refl. rewrite (proj2 (Z.ltb_ge _ _)) by lia. cbn. rewrite Hx. cbn. rewrite Hx. cbn.
  by rewrite (list_insert_alter _ _ _ x).
Qed.

End Lock.
