(* ===== verification/FsSpec.v ===== *)
(** * What the file system layer promises ([fs.c])

    The theorems on blocks, inodes, file contents, directories and paths, over
    any implementation of the block interface, and a small file system on
    the disk [mkfs] lays out on which each of them applies. *)
From S2P Require Import Prelude Sleeplock Bio BufCache BioSpec Log LogSpec LogOps Tx Fs FsBlocks FsInode FsFiles FsContents FsDirs FsTrunc FsIcache.

Section Promises.
Context {S : Type} {TO : TxOps S} {disksize : Z} {home : Z -> Prop} {TD : TxView S disksize home}.
Context (me : Z).
Context (dev_read : Z -> option (Z -> M (fsst S) (Z * list Z))).
Context (dev_write : Z -> option (list Z -> M (fsst S) Z)).
Implicit Types (t : S) (sb : superblock) (ic : list inode) (a : tspec) (x : inode).

(** [balloc] returns the lowest free block, zeroed and marked in use, and
    changes no other block and no other bit of the free map; it panics exactly
    when no block is free. *)
Theorem balloc_correct t sb ic a : trepr t a -> layout disksize home sb -> fs_ok sb (t_view a) ->
  held_ok sb a -> (alloc_cost sb a <= t_quota a)%nat ->
  match free_blocks sb (t_view a) with
  | [] => balloc 1 (mkfs t sb ic) = Stop (Panic "balloc: out of blocks")
  | b :: _ => exists t' a', balloc 1 (mkfs t sb ic) = Ret b (mkfs t' sb ic) /\ trepr t' a' /\
      t_view a' b = repeat 0 BSIZE /\
      (forall c, 0 <= c -> used sb (t_view a') c = (c =? b) || used sb (t_view a) c) /\
      (forall n, n <> sb_bmapstart sb -> n <> b -> t_view a' n = t_view a n) /\
      sb_bmapstart sb < b < sb_size sb /\ fs_ok sb (t_view a')
  end.
Proof.
  intros HR HL HF Hh Hq.
  assert (Hlen : length (t_view a (sb_bmapstart sb)) = BSIZE) by (by eapply t_len).
  pose proof (first_free_hd sb (t_view a) HL) as Eb.
  destruct (free_blocks sb (t_view a)) as [|b l]; cbn [hd_error] in Eb; [by eapply balloc_full|].
  pose proof (first_free_data _ _ _ HL HF Eb) as Hb.
  assert (W : wp (balloc 1) (mkfs t sb ic)
    (fun r s' => r = b /\ exists t', s' = mkfs t' sb ic /\ trepr t' (balloc_spec sb b a))) by (eapply balloc_run; eauto).
  apply wp_exists in W as (r & s' & E & -> & t' & -> & R').
  exists t', (balloc_spec sb b a). split_and!; auto; try lia.
  - apply balloc_zero.
  - intros c Hc. by eapply balloc_used.
  - intros n. apply balloc_view.
  - by eapply balloc_ok.
Qed.

(** [readi] returns exactly the bytes of the file from [off] on, at most [n] of
    them and no more than the file has, and changes nothing; an offset beyond
    the end is an error. *)
Theorem readi_spec t sb ic a ip x off n :
  trepr t a -> calm (disksize := disksize) (home := home) sb a -> ic !! ip = Some x ->
  inode_ok sb (t_view a) x -> i_type x <> T_DEV -> 0 <= n -> Z.of_nat off + n < 4294967296 ->
  exists t', trepr t' a /\
  readi dev_read ip (Z.of_nat off) n (mkfs t sb ic) =
    Ret (if bool_decide (Z.of_nat off <= i_size x)
         then (Z.min n (i_size x - Z.of_nat off),
               take (Z.to_nat n) (drop off (contents (t_view a) (i_addrs x) (i_size x))))
         else (-1, [])) (mkfs t' sb ic).
Proof.
  intros HR HC Hx HI Ht Hn Ho. case_bool_decide as Hoff.
  - assert (W := readi_run dev_read t sb ic a ip x off n HR HC Hx HI Ht Hn Ho Hoff).
    apply wp_exists in W as (r & s' & E & -> & t' & -> & R'). eauto.
  - exists t. split; [done|]. unfold readi, geti, bind. cbn. rewrite Hx. cbn.
    rewrite (proj2 (Z.eqb_neq _ _)) by done. rewrite (proj2 (Z.ltb_lt _ _)) by lia. done.
Qed.

(** C19: within MAXSIZE, with a free block for every block it touches and one more
    and room for them in the log, [writei] returns the number of bytes it was
    given and leaves a file whose contents are the old ones with those bytes at
    [off], extended if they reach past the end; every other inode, and every
    block in use that is not the file's, its inode's or the free map, is
    unchanged, blocks the file gains were free, the inode on disk is current and
    at most 3 blocks beyond the data are logged. *)
Theorem writei_spec t sb ic a ip x src off :
  trepr t a -> calm (disksize := disksize) (home := home) sb a -> ic !! ip = Some x ->
  inode_ok sb (t_view a) x -> 0 <= i_inum x < sb_ninodes sb -> i_type x <> T_DEV ->
  Z.of_nat off <= i_size x -> Z.of_nat (off + length src) <= MAXSIZE ->
  (nblocks_at off (length src) + 3 <= t_quota a)%nat ->
  (nblocks_at off (length src) + 1 <= length (free_blocks sb (t_view a)))%nat ->
  exists t' a' x', writei dev_write ip src (Z.of_nat off) (mkfs t sb ic) =
      Ret (Z.of_nat (length src)) (mkfs t' sb (<[ip := x']> ic)) /\
    trepr t' a' /\ file_written (disksize := disksize) (home := home) sb off src x a x' a'.
Proof.
  intros HR HC Hx HI Hn Ht Ho Hm Hq Hf.
  assert (W := writei_run dev_write t sb ic a ip x src off HR HC Hx HI Hn Ht Ho Hm Hq Hf).
  apply wp_exists in W as (r & s' & E & -> & t' & a' & x' & -> & R' & W). eauto 10.
Qed.

(** [dirlookup] gives the cached inode of the first entry that has the name and
    its offset, exactly when the directory binds the name; a directory
    without it gives 0.  Names count up to DIRSIZ bytes or their first zero. *)
Theorem dirlookup_spec t sb ic a dp x name :
  trepr t a -> calm (disksize := disksize) (home := home) sb a -> ic !! dp = Some x ->
  dir_ok sb (t_view a) x -> icache_ok ic -> (forall i y, ic !! i = Some y -> i_ref y < 2147483647) ->
  Exists (fun y => i_ref y = 0) ic ->
  let c := contents (t_view a) (i_addrs x) (i_size x) in
  exists t', trepr t' a /\
  match dir_inum c name with
  | None => dirlookup dev_read dp name (mkfs t sb ic) = Ret None (mkfs t' sb ic)
  | Some inum => exists ip off y y', dirlookup dev_read dp name (mkfs t sb ic) =
        Ret (Some (ip, off)) (mkfs t' sb (<[ip := y']> ic)) /\
      ic !! ip = Some y /\ igot 1 inum y y' /\ icache_ok (<[ip := y']> ic) /\
      0 <= off /\ off + 16 <= i_size x /\
      let de := take 16 (drop (Z.to_nat off) c) in
      de_inum de = inum /\ inum <> 0 /\ namecmp name (de_name de) = 0
  end.
Proof.
  intros HR HC Hx Hd HI Hb He c. unfold dir_inum.
  assert (W : wp (dirlookup dev_read dp name) (mkfs t sb ic) (fun r s' =>
    exists t', trepr t' a /\
    match dfind name (entries c) 0 with
    | None => r = None /\ s' = mkfs t' sb ic
    | Some (j, i) => exists ip y y', r = Some (ip, 16 * Z.of_nat j) /\ s' = mkfs t' sb (<[ip := y']> ic) /\
        ic !! ip = Some y /\ igot 1 i y y' /\ icache_ok (<[ip := y']> ic)
    end)).
  { eapply dirlookup_run; eauto; fold c.
    - intros t' R' ->. eauto.
    - intros t' j i R' ->. pose proof (iget_cases 1 i t' sb ic HI Hb) as Hg. unfold wp.
      destruct (iget 1 i (mkfs t' sb ic)) as [ip s'|e|]; [|exfalso|done].
      + destruct Hg as (y & y' & Hy & Hgot & -> & Hok). exists t'. eauto 10.
      + destruct Hg as [_ Hg]. apply Exists_exists in He as (y & [k Hk]%list_elem_of_lookup & H0).
        by apply (proj1 (Hg k y Hk)). }
  apply wp_exists in W as (r & s' & E & t' & R' & W). exists t'. split; [done|].
  destruct (dfind name (entries c) 0) as [[j i]|] eqn:Ef; cbn.
  - destruct W as (ip & y & y' & -> & -> & Hy & Hgot & Hok).
    destruct (dfind_Some _ _ _ _ _ Ef) as (de & Hde & _ & Hhit & Hi). rewrite Nat.sub_0_r in Hde.
    pose proof (lookup_lt_Some _ _ _ Hde) as Hlt. rewrite length_entries in Hlt.
    destruct Hd as (HIx & _ & Hm). pose proof (io_size _ _ _ HIx).
    assert (Hl : Z.of_nat (length c) = i_size x) by (unfold c; rewrite length_fcontents; lia).
    pose proof (Nat.div_mod (length c) 16 ltac:(lia)).
    rewrite entries_lookup in Hde by lia. apply (inj Some) in Hde.
    unfold hit in Hhit. apply andb_true_iff in Hhit as [H1 H2].
    apply negb_true_iff, Z.eqb_neq in H1. apply Z.eqb_eq in H2. subst i.
    exists ip, (16 * Z.of_nat j), y, y'. replace (Z.to_nat (16 * Z.of_nat j)) with (16 * j)%nat by lia. rewrite Hde.
    split_and!; auto; lia.
  - destruct W as [-> ->]. done.
Qed.

(** [dirlink] of a new name binds it to the inode number and leaves what the
    directory gives to every other name as it was. *)
Theorem dirlink_spec t sb ic a dp x name inum :
  trepr t a -> calm (disksize := disksize) (home := home) sb a -> ic !! dp = Some x ->
  dir_ok sb (t_view a) x -> 0 <= i_inum x < sb_ninodes sb -> bytes name -> 0 < inum < 65536 ->
  let c := contents (t_view a) (i_addrs x) (i_size x) in
  dir_inum c name = None -> i_size x + 16 <= MAXSIZE ->
  (4 <= t_quota a)%nat -> (2 <= length (free_blocks sb (t_view a)))%nat ->
  exists t' a' x', dirlink me dev_read dev_write dp name inum (mkfs t sb ic) =
      Ret 0 (mkfs t' sb (<[dp := x']> ic)) /\ trepr t' a' /\ dir_ok sb (t_view a') x' /\
    forall n, bytes n ->
      dir_inum (contents (t_view a') (i_addrs x') (i_size x')) n =
      if bool_decide (cname n = cname name) then Some inum else dir_inum c n.
Proof.
  intros HR HC Hx Hd Hn Hb Hi c Hnone Hmax Hq Hf.
  assert (Hnf : dfind name (entries c) 0 = None).
  { unfold dir_inum in Hnone. by destruct (dfind name (entries c) 0). }
  pose proof Hd as (HI & Ht & Hm). pose proof (io_size _ _ _ HI) as Hsz.
  assert (Hl : Z.of_nat (length c) = i_size x) by (unfold c; rewrite length_fcontents; lia).
  destruct (dfree_spec (entries c) 0) as [Hk _]. rewrite length_entries in Hk. pose proof (Nat.div_mod (length c) 16 ltac:(lia)).
  assert (Hlm : (length c mod 16 = 0)%nat) by (apply Nat2Z.inj; rewrite Nat2Z.inj_mod, Hl; done).
  assert (W := dirlink_run me dev_read dev_write t sb ic a dp x name inum HR HC Hx Hd Hn Hnf ltac:(fold c; lia) Hq Hf).
  apply wp_exists in W as (r & s' & E & -> & t' & a' & x' & -> & R' & W).
  fold c in W. pose proof (fw_inode _ _ _ _ _ _ _ W) as Hx'. change (length (mkdirent inum name)) with 16%nat in Hx'.
  exists t', a', x'. split; [done|]. split; [done|]. split.
  - split_and!; [apply W|by rewrite Hx'|]. rewrite Hx'. cbn [i_size set_isize].
    destruct (Z.max_spec (i_size x) (Z.of_nat (16 * dfree (entries c) 0 + 16))) as [[_ ->]|[_ ->]]; [|done].
    replace (Z.of_nat (16 * dfree (entries c) 0 + 16)) with (Z.of_nat (dfree (entries c) 0 + 1) * 16) by lia.
    apply Z_mod_mult.
  - intros n Hbn. rewrite (fw_contents _ _ _ _ _ _ _ W). fold c. change (length (mkdirent inum name)) with 16%nat.
    by apply dir_inum_link.
Qed.

(** C20: [itrunc] frees exactly the blocks of the file, direct, indirect and the
    indirect block itself; blocks of the free map apart, only the inode's block
    changes, the inode is empty in memory and on disk, the other inodes on disk are
    as they were, and at most two blocks are logged. *)
Theorem itrunc_spec t sb ic a ip x :
  trepr t a -> calm (disksize := disksize) (home := home) sb a -> ic !! ip = Some x ->
  inode_ok sb (t_view a) x -> 0 <= i_inum x < sb_ninodes sb -> (2 <= t_quota a)%nat ->
  exists t' a', itrunc ip (mkfs t sb ic) = Ret tt (mkfs t' sb (<[ip := emptied x]> ic)) /\ trepr t' a' /\
    truncated (disksize := disksize) (home := home) sb x a a'.
Proof.
  intros HR HC Hx HI Hn Hq.
  assert (W : wp (itrunc ip) (mkfs t sb ic) (fun _ s' => exists t' a', s' = mkfs t' sb (<[ip := emptied x]> ic) /\
    trepr t' a' /\ truncated (disksize := disksize) (home := home) sb x a a')) by (eapply itrunc_run; eauto).
  apply wp_exists in W as ([] & s' & E & t' & a' & -> & R' & W). eauto.
Qed.

(** What [iupdate] writes [ilock] reads back: an uncached entry of the same
    inode gets the type, the device numbers, the link count, the size and the
    block numbers that were written. *)
Theorem iupdate_ilock t sb ic a ip x jp y :
  trepr t a -> calm (disksize := disksize) (home := home) sb a -> ic !! ip = Some x -> ic !! jp = Some y ->
  i_dev x = 1 -> i_dev y = 1 -> i_inum y = i_inum x -> 0 <= i_inum x < sb_ninodes sb ->
  dinode_fits x -> i_type x <> 0 -> 0 < i_ref y -> sl_locked (i_lock y) = 0 -> i_valid y = 0 ->
  (0 < t_quota a)%nat ->
  exists t' a' y', (iupdate ip ;; ilock me jp) (mkfs t sb ic) = Ret tt (mkfs t' sb (<[jp := y']> ic)) /\
    trepr t' a' /\ i_valid y' = 1 /\ i_lock y' = mksleeplock 1 me /\ i_ref y' = i_ref y /\ i_inum y' = i_inum y /\
    i_type y' = i_type x /\ i_major y' = i_major x /\ i_minor y' = i_minor x /\
    i_nlink y' = i_nlink x /\ i_size y' = i_size x /\ i_addrs y' = i_addrs x.
Proof.
  intros HR [HL HF Hh Hd] Hx Hy Hdx Hdy Hin Hi Hfit Ht Hr Hlk Hv Hq.
  assert (Hload : dinode_at sb (t_view (iupdate_spec sb x a)) (i_inum y) (set_ilock (mksleeplock 1 me) y) =
    mkinode (i_dev y) (i_inum y) (i_ref y) (mksleeplock 1 me) (i_valid y) (i_type x) (i_major x) (i_minor x)
      (i_nlink x) (i_size x) (i_addrs x)).
  { unfold dinode_at, iupdate_spec, upd_blk. cbn [t_view]. rewrite Hin, write_disk_eq, load_store; [cbn; by rewrite Hin|done|].
    rewrite (t_len (TxView := TD) _ _ _ HR). apply dinode_off_le. }
  assert (W : wp (iupdate ip ;; ilock me jp) (mkfs t sb ic) (fun _ s' => exists t',
    s' = mkfs t' sb (<[jp := ilocked me sb (t_view (iupdate_spec sb x a)) y]> ic) /\ trepr t' (iupdate_spec sb x a))).
  { apply wp_bind. eapply iupdate_run; eauto; [by right|]. intros t1 R1.
    eapply ilock_run; eauto; [congruence|]. intros _. unfold ilocked. rewrite Hv. cbn [Z.eqb]. by rewrite Hload. }
  apply wp_exists in W as ([] & s' & E & t' & -> & R'). eexists t', _, _. split; [exact E|]. split; [exact R'|].
  unfold ilocked. rewrite Hv. cbn [Z.eqb]. rewrite Hload. done.
Qed.

(** [iget] returns an entry of the inode with one more reference: the one that
    caches it, or a free one that becomes its entry, not yet valid.  No other entry
    changes and no inode is ever cached twice.  It panics exactly when the
    inode is not cached and no entry is free. *)
Theorem iget_spec dev inum t sb ic : icache_ok ic ->
  (forall i x, ic !! i = Some x -> i_ref x < 2147483647) ->
  match iget dev inum (mkfs t sb ic) with
  | Ret ip s' => exists x y, ic !! ip = Some x /\ igot dev inum x y /\
      s' = mkfs t sb (<[ip := y]> ic) /\ icache_ok (<[ip := y]> ic)
  | Stop e => e = Panic "iget: no inodes" /\
      forall i x, ic !! i = Some x -> i_ref x <> 0 /\ ~ caches dev inum x
  | Wait _ _ => False
  end.
Proof. apply iget_cases. Qed.

End Promises.

(** [skipelem] takes the first element off a path, however many slashes
    surround it, leaves its first DIRSIZ bytes in [name], and leaves a path with
    the remaining elements, empty exactly when there are none; a path without
    elements gives 0. *)
Theorem skipelem_spec path name : length name = DIRSIZ -> Forall (.≠ 0) path ->
  match elems path with
  | [] => skipelem path name = None
  | e :: es => exists path' name', skipelem path name = Some (path', name') /\
      elems path' = es /\ (path' = [] <-> es = []) /\
      length name' = DIRSIZ /\ cname name' = take DIRSIZ e
  end.
Proof.
  intros Hl Hp. pose proof (skipelem_run path name) as H. pose proof (elems_nonzero path Hp) as Hz.
  destruct (elems path) as [|e es]; [done|]. apply Forall_cons in Hz as [He _].
  destruct H as (path' & E & H1 & H2). exists path', (set_name name e).
  destruct (set_name_cut name e Hl He). done.
Qed.

(** ** A file system *)

(** The layout of [mkfs]: 1000 blocks, a log of 30 from block 2, the inodes from
    32, the free map in block 58. *)
Definition demo_sb : superblock := mksb 1000 941 200 30 2 32 58.

(** The root directory, with "." and ".." in block 59. *)
Definition demo_root : inode :=
  mkinode 1 1 1 initsleeplock 1 T_DIR 0 0 1 32 (59 :: repeat 0 12).

Definition dot : list Z := [46].
Definition dotdot : list Z := [46; 46].

Definition demo_fs (n : Z) : block :=
  if n =? 1 then put_words (repeat 0 BSIZE) 0 [1000; 941; 200; 30; 2; 32; 58]
  else if n =? 32 then store_dinode demo_root 64 (repeat 0 BSIZE)
  else if n =? 58 then repeat 255 7 ++ [15] ++ repeat 0 504
  else if n =? 59 then mkdirent 1 dot ++ mkdirent 1 dotdot ++ repeat 0 480
  else repeat 0 BSIZE.

Definition demo_view : tspec := mktspec demo_fs ∅ ∅ ∅ 10.

Abbreviation demo_home := (log_home (disksize := 1000) 2 30).

Definition demo_tx : TxDisk (lst bst) 1000 demo_home :=
  log_tx_disk (BO := bio_ops 7 1000) (BC := bio_cache 7 1000) 2 30 ltac:(lia).

Definition demo_in : TxView (lst bst) 1000 demo_home := t_in (TxDisk := demo_tx).
Definition demo_out : TxView (lst bst) 1000 demo_home := t_out (TxDisk := demo_tx).

Lemma demo_len n : length (demo_fs n) = BSIZE.
Proof. unfold demo_fs. repeat (destruct (_ =? _); [reflexivity|]). reflexivity. Qed.

Lemma demo_repr : exists t, @trepr _ _ _ _ demo_in t demo_view.
Proof.
  destruct (binit_brepr 7 demo_fs) as (c & _ & Hc); [exact demo_len|].
  exists (mklst (set_outstanding 1 demo_log) c). exists (fresh demo_fs), [].
  split; try done; try lia.
  - destruct (demo_txn 1). split; done.
  - cbn. unfold MAXQUOTA. lia.
Qed.

Lemma demo_layout : layout 1000 demo_home demo_sb.
Proof.
  assert (Hh : forall b, 32 <= b < 1000 -> demo_home b) by (unfold log_home; lia).
  assert (Hi : forall i, 0 <= i < 200 -> IBLOCK i demo_sb = i / 8 + 32).
  { intros i Hi. unfold IBLOCK, IPB. cbn [demo_sb sb_inodestart]. rewrite u32_small; [done|].
    Z.to_euclidean_division_equations; lia. }
  split; cbn [demo_sb sb_size sb_bmapstart sb_ninodes sb_inodestart]; unfold BPB; try lia.
  - unfold log_home. lia.
  - apply Hh. lia.
  - intros b Hb. apply Hh. lia.
  - intros i Hr. rewrite Hi by done. split; [apply Hh|]; Z.to_euclidean_division_equations; lia.
Qed.

Lemma demo_ok : fs_ok demo_sb demo_fs.
Proof.
  split; [reflexivity|]. intros b Hb. cbn in Hb.
  assert (H : forallb (fun b => used demo_sb demo_fs b) (seqZ 0 59) = true) by (vm_compute; reflexivity).
  rewrite forallb_forall in H. apply H, list_elem_of_In, elem_of_seqZ. lia.
Qed.

Lemma demo_calm : calm (disksize := 1000) (home := demo_home) demo_sb demo_view.
Proof. split; [apply demo_layout|apply demo_ok|done|done]. Qed.

Lemma slot_root i : slot demo_fs (i_addrs demo_root) i = if bool_decide (i = 0)%nat then 59 else 0.
Proof.
  unfold slot. case_bool_decide as Hi; [|by rewrite bool_decide_false by lia].
  unfold NDIRECT in Hi. do 13 (destruct i as [|i]; [done|]). lia.
Qed.

Lemma demo_dir : dir_ok demo_sb demo_fs demo_root.
Proof.
  split_and!; [|done|done]. split; [done| |unfold MAXSIZE; cbn; lia|].
  - split; [done| |]; intros i.
    + intros _ Hz. rewrite slot_root in *. case_bool_decide; [|done]. split; [cbn; lia|by vm_compute].
    + intros j _ _ Hz E. rewrite !slot_root in *. by repeat case_bool_decide; subst.
  - intros bn Hb. cbn in Hb. assert (bn = 0%nat) as -> by lia. done.
Qed.

Lemma demo_inode : inode_ok demo_sb demo_fs demo_root.
Proof. apply demo_dir. Qed.

Definition demo_ic : list inode :=
  demo_root :: mkinode 0 0 0 initsleeplock 0 0 0 0 0 0 (repeat 0 13) :: repeat (mkinode 0 0 0 initsleeplock 0 0 0 0 0 0 (repeat 0 13)) 48.

Lemma demo_icache : icache_ok demo_ic /\ (forall i x, demo_ic !! i = Some x -> i_ref x < 2147483647).
Proof.
  assert (H : forall i x, demo_ic !! i = Some x -> i = 0%nat /\ x = demo_root \/ i_ref x = 0).
  { intros [|[|i]] x Hx; [left; by injection Hx as <-|right; by injection Hx as <-|right].
    apply repeat_lookup_Some in Hx as [-> _]. done. }
  split; [split|].
  - intros i x [[_ ->]| ->]%H; cbn; lia.
  - intros i j x y dev inum [[-> ->]|Hx]%H [[-> ->]|Hy]%H [Cx _] [Cy _]; (done || lia).
  - intros i x [[_ ->]| ->]%H; cbn; lia.
Qed.

Lemma demo_free : (14 <= length (free_blocks demo_sb demo_fs))%nat.
Proof. vm_compute. lia. Qed.

Lemma writei_spec_witness : exists t t' x' a', writei (TO := log_tx_ops (BO := bio_ops 7 1000)) (fun _ => None) 0 [7; 8; 9] 32
    (mkfs t demo_sb demo_ic) = Ret 3 (mkfs t' demo_sb (<[0%nat := x']> demo_ic)) /\
  contents (t_view a') (i_addrs x') (i_size x') = contents demo_fs (i_addrs demo_root) 32 ++ [7; 8; 9].
Proof.
  destruct demo_repr as [t HR]. exists t.
  destruct (writei_spec (TD := demo_in) (fun _ => None) t demo_sb demo_ic demo_view 0 demo_root [7; 8; 9] 32)
    as (t' & a' & x' & E & _ & W).
  - exact HR.
  - exact demo_calm.
  - reflexivity.
  - exact demo_inode.
  - cbn. lia.
  - discriminate.
  - cbn. lia.
  - unfold MAXSIZE. cbn. lia.
  - vm_compute. lia.
  - pose proof demo_free as Hf. change (2 <= length (free_blocks demo_sb demo_fs))%nat. lia.
  - exists t', x', a'. split; [exact E|]. rewrite (fw_contents _ _ _ _ _ _ _ W). reflexivity.
Defined.

Lemma itrunc_spec_witness : exists t t' a',
  itrunc (TO := log_tx_ops (BO := bio_ops 7 1000)) 0 (mkfs t demo_sb demo_ic) =
    Ret tt (mkfs t' demo_sb (<[0%nat := emptied demo_root]> demo_ic)) /\
  used demo_sb demo_fs 59 = true /\ used demo_sb (t_view a') 59 = false.
Proof.
  destruct demo_repr as [t HR]. exists t.
  destruct (itrunc_spec (TD := demo_in) t demo_sb demo_ic demo_view 0 demo_root) as (t' & a' & E & _ & W).
  - exact HR.
  - exact demo_calm.
  - reflexivity.
  - exact demo_inode.
  - cbn. lia.
  - cbn. lia.
  - exists t', a'. split; [exact E|]. split; [vm_compute; reflexivity|].
    destruct (used demo_sb (t_view a') 59) eqn:Hu; [|reflexivity]. exfalso.
    apply (tr_used _ _ _ _ W) in Hu as [_ Hu]; [|lia]. apply Hu. split; [lia|]. exists 0%nat. split; [unfold NSLOT; lia|reflexivity].
Defined.

