(* ===== verification/File.v ===== *)
(** * The file table ([file.c], [file.h], [pipe.c]: [pipealloc])

    A file pointer is an index into [ftable.file], a pipe pointer is the address
    of the page the pipe is in.  Code under [ftable.lock] is one step.  A read or
    write of a pipe that has to sleep ends in [Wait]; [Pipe] has what happens
    after the wakeup.  [woken] lists the channels the pipe code has woken. *)
From S2P Require Import Prelude Sleeplock Bio Pipe Tx Fs.

Definition NFILE : nat := 100.
Definition MAXOPBLOCKS : Z := 10.

Inductive filetype := FD_NONE | FD_PIPE | FD_INODE.

#[global] Instance filetype_eq_dec : EqDecision filetype.
Proof. solve_decision. Defined.

Record file := mkfile {
  f_type : filetype;
  f_ref : Z;
  f_readable : Z;
  f_writable : Z;
  f_pipe : Z;
  f_ip : nat;
  f_off : Z;
}.

Definition file0 : file := mkfile FD_NONE 0 0 0 0 0%nat 0.

Definition set_fref v f := mkfile (f_type f) v (f_readable f) (f_writable f) (f_pipe f) (f_ip f) (f_off f).
Definition set_ftype v f := mkfile v (f_ref f) (f_readable f) (f_writable f) (f_pipe f) (f_ip f) (f_off f).
Definition set_off v f := mkfile (f_type f) (f_ref f) (f_readable f) (f_writable f) (f_pipe f) (f_ip f) v.

(** The page allocator as the pipes use it ([kalloc.c]). *)
Class PageOps (K : Type) := {
  pg_alloc : M K Z;
  pg_free : Z -> M K unit;
}.

Record kst (S K : Type) := mkkst {
  ftable : list file;
  pipes : gmap Z pipe;
  woken : list (Z * Pipe.chan);
  pages : K;
  fsys : fsst S;
}.
Arguments mkkst {S K} ftable pipes woken pages fsys.
Arguments ftable {S K} k.
Arguments pipes {S K} k.
Arguments woken {S K} k.
Arguments pages {S K} k.
Arguments fsys {S K} k.

Section File.
Context {S K : Type} {TO : TxOps S} {PO : PageOps K}.

(** The running process: its pid and whether it has been killed; the device table. *)
Context (me : Z) (killed : bool).
Context (dev_read : Z -> option (Z -> M (fsst S) (Z * list Z))).
Context (dev_write : Z -> option (list Z -> M (fsst S) Z)).

Abbreviation KM := (M (kst S K)).

Definition infs {A} (m : M (fsst S) A) : KM A :=
  zoom fsys (fun v s => mkkst (ftable s) (pipes s) (woken s) (pages s) v) m.
Definition inpages {A} (m : M K A) : KM A :=
  zoom pages (fun v s => mkkst (ftable s) (pipes s) (woken s) v (fsys s)) m.

Definition getf (f : nat) : KM file := fun s => deref (ftable s !! f) s.
Definition setf (f : nat) (g : file -> file) : KM unit :=
  getf f ;; modify (fun s => mkkst (alter g f (ftable s)) (pipes s) (woken s) (pages s) (fsys s)).
Definition getpipe (p : Z) : KM pipe := fun s => deref (pipes s !! p) s.
Definition setpipe (p : Z) (v : pipe) (w : list Pipe.chan) : KM unit :=
  modify (fun s => mkkst (ftable s) (<[p := v]> (pipes s)) (woken s ++ ((p,.) <$> w)) (pages s) (fsys s)).
Definition delpipe (p : Z) (w : list Pipe.chan) : KM unit :=
  modify (fun s => mkkst (ftable s) (delete p (pipes s)) (woken s ++ ((p,.) <$> w)) (pages s) (fsys s)).

Definition fbegin : KM unit := infs (lift tx_begin).
Definition fend : KM unit := infs (lift tx_end) ;; ret tt.

(** The first entry with no references. *)
Fixpoint free_file (l : list file) (i : nat) : option nat :=
  match l with
  | [] => None
  | f :: l => if f_ref f =? 0 then Some i else free_file l (Datatypes.S i)
  end.

Definition filealloc : KM (option nat) :=
  let! l := gets ftable in
  match free_file l 0 with
  | Some f => setf f (set_fref 1) ;; ret (Some f)
  | None => ret None
  end.

Definition filedup (f : nat) : KM nat :=
  let! x := getf f in
  if f_ref x <? 1 then panic "filedup"
  else setf f (fun x => set_fref (s32 (f_ref x + 1)) x) ;; ret f.

(** [pipeclose], with the pipe's page given back when both ends are closed. *)
Definition close_pipe (p : Z) (writable : Z) : KM unit :=
  let! v := getpipe p in
  let '(last, v, w) := pipeclose (nz writable) v in
  if last then delpipe p w ;; inpages (pg_free p) else setpipe p v w.

Definition fileclose (f : nat) : KM unit :=
  let! x := getf f in
  if f_ref x <? 1 then panic "fileclose"
  else
    setf f (fun x => set_fref (s32 (f_ref x - 1)) x) ;;
    let! ff := getf f in
    if 0 <? f_ref ff then ret tt
    else
      setf f (fun x => set_ftype FD_NONE (set_fref 0 x)) ;;
      match f_type ff with
      | FD_PIPE => close_pipe (f_pipe ff) (f_writable ff)
      | FD_INODE =>
          fbegin ;;
          infs (iput me (f_ip ff)) ;;
          fend
      | FD_NONE => ret tt
      end.

(** The [struct stat] is returned instead of stored. *)
Definition filestat (f : nat) : KM (option stat) :=
  let! x := getf f in
  match f_type x with
  | FD_INODE =>
      infs (ilock me (f_ip x)) ;;
      let! st := infs (stati (f_ip x)) in
      infs (iunlock me (f_ip x)) ;;
      ret (Some st)
  | _ => ret None
  end.

(** The result and the bytes stored at [addr]. *)
Definition read_pipe (p n : Z) : KM (Z * list Z) :=
  let! v := getpipe p in
  match piperead n killed v with
  | (RRet r bs, v, w) => setpipe p v w ;; ret (r, bs)
  | (RSleep, v, w) => setpipe p v w ;; (fun s => Wait "nread" s)
  end.

Definition fileread (f : nat) (n : Z) : KM (Z * list Z) :=
  let! x := getf f in
  if f_readable x =? 0 then ret (-1, [])
  else match f_type x with
  | FD_PIPE => read_pipe (f_pipe x) n
  | FD_INODE =>
      infs (ilock me (f_ip x)) ;;
      let! (r, bs) := infs (readi dev_read (f_ip x) (f_off x) n) in
      when (0 <? r) (setf f (fun x => set_off (u32 (f_off x + r)) x)) ;;
      infs (iunlock me (f_ip x)) ;;
      ret (r, bs)
  | FD_NONE => panic "fileread"
  end.

Definition write_pipe (p : Z) (src : list Z) : KM Z :=
  let! v := getpipe p in
  match pipewrite (Z.of_nat (length src)) src killed v with
  | (WRet r, v, w) => setpipe p v w ;; ret r
  | (WSleep _, v, w) => setpipe p v w ;; (fun s => Wait "nwrite" s)
  end.

(** [max] of [filewrite]. *)
Definition write_max : Z := (MAXOPBLOCKS - 1 - 1 - 2) / 2 * 512.

(** [filewrite]'s loop; returns [i]. *)
Fixpoint filewrite_loop (fuel : nat) (f : nat) (src : list Z) (i n : Z) : KM Z :=
  if i <? n then
    match fuel with
    | O => fault "fuel"
    | Datatypes.S k =>
        let n1 := if write_max <? n - i then write_max else n - i in
        fbegin ;;
        let! x := getf f in
        infs (ilock me (f_ip x)) ;;
        let! x := getf f in
        let! r := infs (writei dev_write (f_ip x) (take (Z.to_nat n1) (drop (Z.to_nat i) src)) (f_off x)) in
        when (0 <? r) (setf f (fun x => set_off (u32 (f_off x + r)) x)) ;;
        infs (iunlock me (f_ip x)) ;;
        fend ;;
        if r <? 0 then ret i
        else if negb (r =? n1) then panic "short filewrite"
        else filewrite_loop k f src (i + r) n
    end
  else ret i.

Definition filewrite (f : nat) (src : list Z) : KM Z :=
  let n := Z.of_nat (length src) in
  let! x := getf f in
  if f_writable x =? 0 then ret (-1)
  else match f_type x with
  | FD_PIPE => write_pipe (f_pipe x) src
  | FD_INODE =>
      let! i := filewrite_loop (length src) f src 0 n in
      ret (if i =? n then n else -1)
  | FD_NONE => panic "filewrite"
  end.

(** The pipe's page keeps what it held: [data] is not initialised. *)
Context (junk : Z -> list Z).

Definition open_pipe (f : nat) (p readable writable : Z) : KM unit :=
  setf f (fun x => mkfile FD_PIPE (f_ref x) readable writable p (f_ip x) (f_off x)).

Definition close_opt (f : option nat) : KM unit :=
  match f with Some f => fileclose f | None => ret tt end.

(** The code at [bad] with [p] still 0. *)
Definition pipe_bad (f0 f1 : option nat) : KM (option (nat * nat)) :=
  close_opt f0 ;; close_opt f1 ;; ret None.

Definition pipealloc : KM (option (nat * nat)) :=
  let! f0 := filealloc in
  match f0 with
  | None => pipe_bad None None
  | Some r =>
      let! f1 := filealloc in
      match f1 with
      | None => pipe_bad (Some r) None
      | Some w =>
          let! p := inpages pg_alloc in
          if p =? 0 then pipe_bad (Some r) (Some w)
          else
            setpipe p (pipe_init (junk p)) [] ;;
            open_pipe r p 1 0 ;;
            open_pipe w p 0 1 ;;
            ret (Some (r, w))
      end
  end.

End File.
