(* ===== verification/FileSpec.v ===== *)
(** * Writing and reading files ([file.c])

    [filewrite] splits its work into transactions that fit the log; the effect
    on the committed disk is that of one write of all the bytes. *)
From S2P Require Import Prelude Sleeplock Bio BufCache BioSpec Log LogSpec LogOps Tx Fs FsBlocks FsInode FsFiles FsContents FsDirs FsTrunc FsIcache FsSpec File.

(** ** Files on the committed disk *)

Section Put.
Context {disksize : Z} {home : Z -> Prop}.
Implicit Types (sb : superblock) (x : inode) (v : Z -> block).

(** [src] has been put into the file at [off], as seen on the disk. *)
Record file_put sb (off : nat) (src : list Z) x v x' v' : Prop := {
  fp_ok : fs_ok sb v';
  fp_inode : inode_ok sb v' x';
  fp_same : x' = set_isize (Z.max (i_size x) (Z.of_nat (off + length src))) (set_addrs (i_addrs x') x);
  fp_contents : contents v' (i_addrs x') (i_size x') =
    take off (contents v (i_addrs x) (i_size x)) ++ src ++
    drop (off + length src) (contents v (i_addrs x) (i_size x));
  fp_frame n : home n -> used sb v n = true -> n <> sb_bmapstart sb ->
    ~ owns v (i_addrs x) n -> n <> IBLOCK (i_inum x) sb -> v' n = v n;
  fp_inodes y m : 0 <= m < sb_ninodes sb -> m <> i_inum x -> dinode_at sb v' m y = dinode_at sb v m y;
  fp_used n : 0 <= n -> used sb v n = true -> used sb v' n = true;
  fp_new n : owns v' (i_addrs x') n -> owns v (i_addrs x) n \/ 0 <= n /\ used sb v n = false;
  fp_synced : synced sb v x -> dinode_fits x -> synced sb v' x' /\ dinode_fits x';
}.

Lemma splice_app {A} (c s1 s2 : list A) off : (off <= length c)%nat ->
  let c1 := take off c ++ s1 ++ drop (off + length s1) c in
  take (off + length s1) c1 ++ s2 ++ drop (off + length s1 + length s2) c1 =
  take off c ++ (s1 ++ s2) ++ drop (off + length (s1 ++ s2)) c.
Proof.
  intros Ho c1. assert (Hl : length (take off c ++ s1) = (off + length s1)%nat)
    by (rewrite length_app, length_take; lia).
  assert (Hc : c1 = (take off c ++ s1) ++ drop (off + length s1) c) by (unfold c1; by rewrite app_assoc).
  replace (take (off + length s1) c1) with (take off c ++ s1) by (by rewrite Hc, <- Hl, take_app_length).
  replace (drop (off + length s1 + length s2) c1) with (drop (off + length (s1 ++ s2)) c); [by rewrite <- !app_assoc|].
  rewrite Hc. replace (off + length s1 + length s2)%nat with (length (take off c ++ s1) + length s2)%nat by lia.
  rewrite drop_app_add, drop_drop, length_app. f_equal. lia.
Qed.

Lemma file_put_app sb off s1 s2 x v x1 v1 x2 v2 : inode_ok sb v x -> Z.of_nat off <= i_size x ->
  (forall n, home n -> 0 <= n) ->
  file_put sb off s1 x v x1 v1 -> file_put sb (off + length s1) s2 x1 v1 x2 v2 ->
  file_put sb off (s1 ++ s2) x v x2 v2.
Proof.
  intros HI Ho Hh [A1 A2 A3 A4 A5 A9 A6 A7 A8] [B1 B2 B3 B4 B5 B9 B6 B7 B8].
  assert (Hin : i_inum x1 = i_inum x) by (by rewrite A3).
  split; auto.
  - rewrite B3, A3. unfold set_isize, set_addrs. cbn [i_dev i_inum i_ref i_lock i_valid i_type i_major i_minor i_nlink i_size i_addrs].
    f_equal. rewrite length_app. lia.
  - rewrite B4, A4. apply splice_app. rewrite length_fcontents. lia.
  - intros n H1 H2 H3 H4 H5. rewrite B5, A5; auto.
    + intros [Hn|[_ Hn]]%A7; [done|congruence].
    + by rewrite Hin.
  - intros y m Hm Hne. rewrite B9, A9 by (rewrite ?Hin; done). done.
  - intros n [Hn|[Hn Hu]]%B7; [by apply A7|]. right. split; [done|].
    destruct (used sb v n) eqn:E; [|done]. rewrite (A6 n Hn E) in Hu. done.
  - intros H1 H2. destruct (A8 H1 H2). auto.
Qed.

Lemma fits_grown sb v ad x k : layout disksize home sb -> file_ok sb v ad -> 0 <= k <= MAXSIZE ->
  dinode_fits x -> dinode_fits (set_isize k (set_addrs ad x)).
Proof.
  intros HL Hfo Hk [D1 D2 D3 D4 D5 D6 D7]. split; auto; cbn [i_size i_addrs set_isize set_addrs].
  - unfold MAXSIZE in *. lia.
  - apply Forall_lookup. intros i b Hb.
    assert (i < 13)%nat by (apply lookup_lt_Some in Hb; by rewrite (fo_len _ _ _ Hfo) in Hb).
    destruct (Z.eq_dec b 0) as [->|Hz]; [lia|].
    assert (E : slot v ad i = b).
    { unfold slot. rewrite bool_decide_true by (unfold NDIRECT; lia). by rewrite nth_lookup, Hb. }
    destruct (fo_data _ _ _ Hfo i ltac:(unfold NSLOT; lia) ltac:(by rewrite E)) as [Hr _]. rewrite E in Hr.
    pose proof (ly_bm _ _ _ HL). pose proof (ly_size _ _ _ HL). unfold BPB in *. lia.
  - apply (fo_len _ _ _ Hfo).
Qed.

(** ** Views that agree where the file system is *)

Definition agree v v' : Prop := forall n, home n -> v' n = v n.

Lemma agree_meta sb v v' : layout disksize home sb -> agree v v' -> meta_eq sb v v'.
Proof. intros HL H. split_and!; [apply H, HL|apply H, HL|]. intros n Hn. by apply H, HL. Qed.

Lemma meta_inode sb v v' x : meta_eq sb v v' -> inode_ok sb v x -> inode_ok sb v' x.
Proof.
  intros HM [I1 I2 I3 I4]. split; auto; [by eapply meta_file_ok|]. intros bn Hb. unfold addr_of.
  rewrite (meta_slot _ _ _ _ _ HM I2). by apply I4.
Qed.

Lemma meta_contents sb v v' x : meta_eq sb v v' -> inode_ok sb v x ->
  contents v' (i_addrs x) (i_size x) = contents v (i_addrs x) (i_size x).
Proof.
  intros HM HI. apply list_fmap_ext. intros k i [-> Hi]%lookup_seq. pose proof (io_size _ _ _ HI).
  eapply meta_fbyte; [done|apply HI|lia|]. apply HI. pose proof (Nat.div_mod (0 + k) 512 ltac:(lia)). lia.
Qed.

Lemma meta_owns sb v v' x n : meta_eq sb v v' -> inode_ok sb v x -> owns v' (i_addrs x) n <-> owns v (i_addrs x) n.
Proof.
  intros HM HI. unfold owns. split; intros (Hz & i & Hi & E); (split; [done|]); exists i; (split; [done|]);
    rewrite <- E; [symmetry|]; (eapply meta_slot; [done|apply HI]).
Qed.

Lemma agree_synced sb v v' x : layout disksize home sb -> agree v v' -> 0 <= i_inum x < sb_ninodes sb ->
  synced sb v x -> synced sb v' x.
Proof.
  intros HL HA Hi. unfold synced, dinode_at. by rewrite (HA _ (proj1 (ly_inode _ _ _ HL _ Hi))).
Qed.

Lemma synced_lock sb v x l : synced sb v (set_ilock l x) <-> synced sb v x.
Proof.
  unfold synced, dinode_at. destruct x. unfold load_dinode, set_ilock. cbn. split; intros [=]; congruence.
Qed.

End Put.

(** ** [filewrite] *)

Section Write.
Context {S K : Type} {TO : TxOps S} {PO : PageOps K} {disksize : Z} {home : Z -> Prop} {TD : TxDisk S disksize home}.
Context (me : Z) (killed : bool).
Context (dev_read : Z -> option (Z -> M (fsst S) (Z * list Z))).
Context (dev_write : Z -> option (list Z -> M (fsst S) Z)).
Implicit Types (t : S) (sb : superblock) (ic : list inode) (x : inode) (v : Z -> block) (f : nat) (ft : list file).

Lemma wp_infs {A} (m : M (fsst S) A) ft pi wo (pg : K) fs (Q : A -> kst S K -> Prop) :
  wp m fs (fun r fs' => Q r (mkkst ft pi wo pg fs')) -> wp (infs m) (mkkst ft pi wo pg fs) Q.
Proof. intros H. apply wp_zoom. exact H. Qed.

Lemma f_getf {B} ft pi wo (pg : K) (fs : fsst S) f fl (k : file -> M (kst S K) B) Q :
  ft !! f = Some fl -> wp (k fl) (mkkst ft pi wo pg fs) Q -> wp (bind (getf f) k) (mkkst ft pi wo pg fs) Q.
Proof. intros Hf Hk. apply wp_bind. unfold getf, wp. cbn. by rewrite Hf. Qed.

Lemma f_setf ft pi wo (pg : K) (fs : fsst S) f fl g (Q : unit -> kst S K -> Prop) :
  ft !! f = Some fl -> Q tt (mkkst (<[f := g fl]> ft) pi wo pg fs) -> wp (setf f g) (mkkst ft pi wo pg fs) Q.
Proof.
  intros Hf Hk. unfold setf. eapply f_getf; [done|]. apply wp_modify. cbn. by rewrite (list_insert_alter _ _ _ fl).
Qed.

(** Between operations, with [v] on the disk where the file system is. *)
Definition tclosed t v : Prop :=
  exists a, trepr (TxView := t_out) t a /\ at_rest a /\ agree (home := home) v (t_view a).

Lemma tclosed_disk t v n : tclosed t v -> home n -> t_disk t n = v n.
Proof. intros (a & HR & Ha & Hv) Hn. rewrite <- Hv by done. by eapply t_disk_ok. Qed.

(** An inode that is cached, current and not locked. *)
Record settled sb v x : Prop := {
  se_inode : inode_ok sb v x;
  se_valid : i_valid x <> 0;
  se_lock : i_lock x = initsleeplock;
  se_ref : 0 < i_ref x;
  se_inum : 0 <= i_inum x < sb_ninodes sb;
  se_type : i_type x <> T_DEV;
}.

Lemma begin_run {B} ft pi wo (pg : K) t sb ic v (k : unit -> M (kst S K) B) Q :
  layout disksize home sb -> tclosed t v -> fs_ok sb v ->
  (forall t' a, trepr (TxView := t_in) t' a -> calm (disksize := disksize) (home := home) sb a -> t_quota a = 10%nat ->
     agree (home := home) v (t_view a) -> wp (k tt) (mkkst ft pi wo pg (mkfs t' sb ic)) Q) ->
  wp (bind (fbegin (S := S) (K := K)) k) (mkkst ft pi wo pg (mkfs t sb ic)) Q.
Proof.
  intros HL (a0 & HR & Ha & Hv) HF Hk. apply wp_bind. unfold fbegin. apply wp_infs, wp_lift.
  eapply wp_mono; [by apply t_begin_ok|]. intros [] t' (a & R' & [H1 H2] & _ & H4 & H5).
  assert (HA : agree (home := home) v (t_view a)) by (intros n Hn; by rewrite H5, Hv).
  eapply Hk; [exact R'| |done|exact HA]. split; auto. eapply meta_fs_ok; [by eapply agree_meta|done].
Qed.

Lemma end_run {B} ft pi wo (pg : K) t sb ic a (k : unit -> M (kst S K) B) Q :
  trepr (TxView := t_in) t a -> t_held a = ∅ -> t_dirty a = ∅ ->
  (forall t', tclosed t' (t_view a) -> wp (k tt) (mkkst ft pi wo pg (mkfs t' sb ic)) Q) ->
  wp (bind (fend (S := S) (K := K)) k) (mkkst ft pi wo pg (mkfs t sb ic)) Q.
Proof.
  intros HR H1 H2 Hk. apply wp_bind. unfold fend. apply wp_bind, wp_infs, wp_lift.
  eapply wp_mono; [by apply t_end_ok|]. intros r t' (a' & R' & Ha & Hv). apply wp_ret, Hk. by exists a'.
Qed.

(** A chunk of [filewrite] touches at most four blocks. *)
Lemma nblocks_chunk off k : (k <= 1536)%nat -> (nblocks_at off k <= 4)%nat.
Proof.
  intros Hk. unfold nblocks_at. case_bool_decide; [lia|].
  pose proof (Nat.div_mod off 512 ltac:(lia)). pose proof (Nat.mod_upper_bound off 512 ltac:(lia)).
  pose proof (Nat.div_mod (off + k - 1) 512 ltac:(lia)). pose proof (Nat.mod_upper_bound (off + k - 1) 512 ltac:(lia)). lia.
Qed.

(** What one transaction of [filewrite] leaves. *)
Lemma file_put_written sb off src x v a x' a' : layout disksize home sb -> 0 <= i_inum x < sb_ninodes sb ->
  inode_ok sb v x -> agree (home := home) v (t_view a) ->
  file_written (disksize := disksize) (home := home) sb off src (set_ilock (mksleeplock 1 me) x) a x' a' ->
  i_lock x = initsleeplock ->
  file_put (home := home) sb off src x v (set_ilock initsleeplock x') (t_view a').
Proof.
  intros HL Hi HI HA [W1 W2 W3 W4 W5 W11 W6 W7 W8 W9 W10] Hlk. cbn [set_ilock i_addrs i_size i_inum] in *.
  pose proof (agree_meta _ _ _ HL HA) as HM. pose proof (meta_inode _ _ _ _ HM HI) as HI'.
  split; cbn [set_ilock i_addrs i_size i_inum].
  - apply W1.
  - destruct W2. split; auto.
  - rewrite W3. unfold set_isize, set_addrs, set_ilock. cbn. by rewrite <- Hlk.
  - rewrite W4. by rewrite (meta_contents _ _ _ _ HM HI).
  - intros n Hh Hu Hb Ho Hn. rewrite W5, HA; auto.
    + apply (home_disk (TxView := t_in)) in Hh. lia.
    + by rewrite (meta_used _ _ _ _ HM).
    + by rewrite (meta_owns _ _ _ _ _ HM HI).
  - intros y m Hm Hne. rewrite W11 by done. unfold dinode_at. rewrite HA; [done|]. apply (ly_inode _ _ _ HL _ Hm).
  - intros n Hn Hu. apply W6; [done|]. by rewrite (meta_used _ _ _ _ HM).
  - intros n Ho. rewrite <- (meta_owns _ _ _ _ _ HM HI), <- (meta_used _ _ _ _ HM). by apply W7.
  - intros Hs Hf. rewrite synced_lock. split.
    + apply W8; [|by destruct Hf]. rewrite synced_lock. by eapply agree_synced.
    + pose proof (io_size _ _ _ W2) as Hsz.
      pose proof (fits_grown sb (t_view a') (i_addrs x') x (i_size x') HL (io_file _ _ _ W2) Hsz Hf) as [D1 D2 D3 D4 D5 D6 D7].
      rewrite W3. cbn [set_isize set_addrs set_ilock i_type i_major i_minor i_nlink i_size i_addrs] in *.
      rewrite W3 in D5. by split.
Qed.

(** One transaction of [filewrite]. *)
Lemma write_chunk {B} ft pi wo (pg : K) t sb ic v f fl x off src (k : Z -> M (kst S K) B) Q :
  layout disksize home sb -> tclosed t v -> fs_ok sb v -> ft !! f = Some fl -> ic !! f_ip fl = Some x ->
  settled sb v x -> f_off fl = Z.of_nat off -> (0 < length src <= 1536)%nat -> Z.of_nat off <= i_size x ->
  Z.of_nat (off + length src) <= MAXSIZE -> (5 <= length (free_blocks sb v))%nat ->
  (forall t' v' x', tclosed t' v' -> settled sb v' x' -> file_put (home := home) sb off src x v x' v' ->
     (length (free_blocks sb v) <= length (free_blocks sb v') + 5)%nat ->
     wp (k (Z.of_nat (length src)))
       (mkkst (<[f := set_off (Z.of_nat (off + length src)) fl]> ft) pi wo pg (mkfs t' sb (<[f_ip fl := x']> ic))) Q) ->
  wp (fbegin (S := S) (K := K) ;;
      let! y := getf f in
      infs (ilock me (f_ip y)) ;;
      let! y := getf f in
      let! r := infs (writei dev_write (f_ip y) src (f_off y)) in
      when (0 <? r) (setf f (fun z => set_off (u32 (f_off z + r)) z)) ;;
      infs (iunlock me (f_ip y)) ;;
      fend (S := S) (K := K) ;;
      k r) (mkkst ft pi wo pg (mkfs t sb ic)) Q.
Proof.
  intros HL Ht HF Hf Hx [E1 E2 E3 E4 E5 E6] Hoff Hlen Hle Hmax Hfree Hk.
  eapply begin_run; eauto. intros t1 a R1 HC Hq HA. pose proof (agree_meta _ _ _ HL HA) as HM.
  eapply f_getf; [done|]. apply wp_bind, wp_infs.
  eapply (ilock_run (TD := t_in)); [exact R1|done|apply HC|apply HC|done|done|by rewrite E3|apply E1|done|done|].
  intros t2 R2. unfold ilocked. rewrite (proj2 (Z.eqb_neq _ _)) by done.
  eapply f_getf; [done|]. set (x1 := set_ilock (mksleeplock 1 me) x).
  assert (Hlk : forall y, <[f_ip fl := y]> ic !! f_ip fl = Some y).
  { intros y. apply list_lookup_insert_eq. by eapply lookup_lt_Some. }
  pose proof (nblocks_chunk off (length src) ltac:(lia)) as Hnb.
  assert (HIa : inode_ok sb (t_view a) x1).
  { pose proof (meta_inode _ _ _ _ HM E1) as []. split; auto. }
  rewrite Hoff. apply wp_bind, wp_infs.
  eapply wp_mono; [eapply (writei_run (TD := t_in) dev_write t2 sb (<[f_ip fl := x1]> ic) a (f_ip fl) x1 src off);
    [exact R2|exact HC|apply Hlk|exact HIa|done|done|done|done|lia|]|].
  { rewrite (meta_free _ _ _ HM). lia. }
  intros r s' (-> & t3 & a3 & x3 & -> & R3 & W). rewrite list_insert_insert_eq.
  rewrite (proj2 (Z.ltb_lt 0 _)) by lia. unfold when. apply wp_bind. eapply f_setf; [done|]. cbn beta.
  pose proof (fw_inode _ _ _ _ _ _ _ W) as Hx3.
  apply wp_bind, wp_infs. eapply iunlock_run; [apply Hlk|by rewrite Hx3|by rewrite Hx3|].
  rewrite list_insert_insert_eq. eapply end_run; [exact R3|apply W|apply W|]. intros t4 Ht4.
  rewrite Hoff, u32_small by (unfold MAXSIZE in *; lia).
  rewrite <- Nat2Z.inj_add. eapply (Hk t4 (t_view a3)); [done| |by eapply file_put_written|].
  - pose proof (fw_ok _ _ _ _ _ _ _ W) as []. rewrite Hx3. split; cbn; auto.
    rewrite Hx3 in *. split; auto.
  - pose proof (fw_free _ _ _ _ _ _ _ W) as Hfr. rewrite (meta_free _ _ _ HM) in Hfr. lia.
Qed.

(** The transactions [k] bytes take. *)
Definition chunks (k : nat) : nat := (k + 1535) / 1536.

Lemma chunks_step k : (0 < k)%nat -> chunks k = Datatypes.S (chunks (k - Nat.min k 1536)).
Proof.
  intros Hk. unfold chunks. destruct (Nat.le_gt_cases k 1536).
  - rewrite Nat.min_l, Nat.sub_diag by lia. change ((0 + 1535) / 1536)%nat with 0%nat.
    symmetry. apply (Nat.div_unique _ _ _ (k - 1)); lia.
  - rewrite Nat.min_r by lia. replace (k + 1535)%nat with (k - 1536 + 1535 + 1 * 1536)%nat by lia.
    rewrite Nat.div_add by lia. lia.
Qed.

Lemma file_put_nil sb off x v : fs_ok sb v -> inode_ok sb v x -> Z.of_nat off <= i_size x ->
  file_put (home := home) sb off [] x v x v.
Proof.
  intros HF HI Ho. split; auto.
  - rewrite Z.max_l, set_addrs_id by (cbn; lia). by destruct x.
  - cbn. by rewrite Nat.add_0_r, take_drop.
Qed.

Lemma filewrite_loop_run fuel ft pi wo (pg : K) t sb ic v f fl x off src i :
  layout disksize home sb -> tclosed t v -> fs_ok sb v -> ft !! f = Some fl -> ic !! f_ip fl = Some x ->
  settled sb v x -> f_off fl = Z.of_nat off -> Z.of_nat off <= i_size x ->
  (i <= length src)%nat -> (length src - i <= fuel)%nat ->
  Z.of_nat (off + (length src - i)) <= MAXSIZE -> (5 * chunks (length src - i) <= length (free_blocks sb v))%nat ->
  wp (filewrite_loop me dev_write fuel f src (Z.of_nat i) (Z.of_nat (length src))) (mkkst ft pi wo pg (mkfs t sb ic))
    (fun r s' => r = Z.of_nat (length src) /\ exists t' v' x',
       s' = mkkst (<[f := set_off (Z.of_nat (off + (length src - i))) fl]> ft) pi wo pg (mkfs t' sb (<[f_ip fl := x']> ic)) /\
       tclosed t' v' /\ settled sb v' x' /\ file_put (home := home) sb off (drop i src) x v x' v').
Proof.
  revert ft t ic v fl x off i. induction fuel as [|fuel IH];
    intros ft t ic v fl x off i HL Ht HF Hf Hx HS Hoff Hle Hi Hfu Hmax Hfree.
  all: destruct (decide (i = length src)) as [->|Hne].
  1,3: assert (Hd : drop (length src) src = []) by (apply drop_ge; lia);
    cbn [filewrite_loop]; rewrite (proj2 (Z.ltb_ge _ _)) by lia; apply wp_ret; split; [done|];
    exists t, v, x; rewrite Hd, Nat.sub_diag, Nat.add_0_r; split_and!; auto;
    [rewrite (list_insert_id ic), list_insert_id; [done| |done]; rewrite <- Hoff; by destruct fl
    |apply file_put_nil; [done|apply HS|done]].
  1: lia.
  cbn [filewrite_loop]. rewrite (proj2 (Z.ltb_lt _ _)) by lia. cbv zeta.
  set (l := Nat.min (length src - i) 1536).
  replace (if write_max <? Z.of_nat (length src) - Z.of_nat i then write_max else Z.of_nat (length src) - Z.of_nat i)
    with (Z.of_nat l).
  2:{ change write_max with 1536. unfold l. destruct (Z.ltb_spec 1536 (Z.of_nat (length src) - Z.of_nat i)); lia. }
  rewrite !Nat2Z.id. set (src1 := take l (drop i src)).
  assert (Hl : length src1 = l) by (unfold src1; rewrite length_take, length_drop; lia).
  rewrite chunks_step in Hfree by lia. fold l in Hfree.
  apply (write_chunk ft pi wo pg t sb ic v f fl x off src1
    (fun r => if r <? 0 then ret (Z.of_nat i) else if negb (r =? Z.of_nat l) then panic "short filewrite"
              else filewrite_loop me dev_write fuel f src (Z.of_nat i + r) (Z.of_nat (length src)))); auto; try lia.
  intros t1 v1 x1 Ht1 HS1 HP Hfr. rewrite Hl in *. rewrite (proj2 (Z.ltb_ge _ _)), Z.eqb_refl by lia. cbn [negb].
  rewrite <- Nat2Z.inj_add. set (fl1 := set_off (Z.of_nat (off + l)) fl).
  assert (Hx1 : <[f_ip fl := x1]> ic !! f_ip fl1 = Some x1) by (apply list_lookup_insert_eq; by eapply lookup_lt_Some).
  assert (Hf1 : <[f := fl1]> ft !! f = Some fl1) by (apply list_lookup_insert_eq; by eapply lookup_lt_Some).
  eapply wp_mono; [apply (IH _ t1 _ v1 fl1 x1 (off + l)%nat (i + l)%nat); auto; try lia|].
  - apply HP.
  - rewrite (fp_same _ _ _ _ _ _ _ HP). cbn. lia.
  - replace (length src - (i + l))%nat with (length src - i - l)%nat by lia. lia.
  - intros r s' (-> & t2 & v2 & x2 & -> & H1 & H2 & H3). split; [done|]. exists t2, v2, x2. split_and!; auto.
    + rewrite !list_insert_insert_eq. cbn [f_ip fl1 set_off].
      by replace (off + l + (length src - (i + l)))%nat with (off + (length src - i))%nat by lia.
    + replace (drop i src) with (src1 ++ drop (i + l) src).
      * eapply file_put_app; [apply HS|done| |exact HP|by rewrite Hl].
        intros n Hn. apply (home_disk (TxView := t_in)) in Hn. lia.
      * unfold src1. by rewrite <- drop_drop, take_drop.
Qed.

Lemma filewrite_run ft pi wo (pg : K) t sb ic v f fl x off src :
  layout disksize home sb -> tclosed t v -> fs_ok sb v -> ft !! f = Some fl ->
  f_type fl = FD_INODE -> f_writable fl <> 0 -> f_off fl = Z.of_nat off -> ic !! f_ip fl = Some x ->
  settled sb v x -> Z.of_nat off <= i_size x -> Z.of_nat (off + length src) <= MAXSIZE ->
  (5 * chunks (length src) <= length (free_blocks sb v))%nat ->
  wp (filewrite me killed dev_write f src) (mkkst ft pi wo pg (mkfs t sb ic))
    (fun r s' => r = Z.of_nat (length src) /\ exists t' v' x',
       s' = mkkst (<[f := set_off (Z.of_nat (off + length src)) fl]> ft) pi wo pg (mkfs t' sb (<[f_ip fl := x']> ic)) /\
       tclosed t' v' /\ settled sb v' x' /\ file_put (home := home) sb off src x v x' v').
Proof.
  intros HL Ht HF Hf Hty Hw Hoff Hx HS Hle Hmax Hfree. unfold filewrite. eapply f_getf; [done|].
  rewrite (proj2 (Z.eqb_neq _ _)), Hty by done.
  apply wp_bind. change 0 with (Z.of_nat 0). rewrite <- (Nat.sub_0_r (length src)) in Hmax, Hfree.
  eapply wp_mono; [eapply (filewrite_loop_run (length src)); eauto; lia|].
  intros r s' (-> & H). rewrite Z.eqb_refl, Nat.sub_0_r in *. apply wp_ret. split; [done|]. exact H.
Qed.

(** ** [fileread] *)

Lemma fileread_run ft pi wo (pg : K) t sb ic v f fl x off n :
  layout disksize home sb -> tclosed t v -> fs_ok sb v -> ft !! f = Some fl ->
  f_type fl = FD_INODE -> f_readable fl <> 0 -> f_off fl = Z.of_nat off -> ic !! f_ip fl = Some x ->
  settled sb v x -> Z.of_nat off <= i_size x -> 0 <= n < 2147483648 ->
  let r := Z.min n (i_size x - Z.of_nat off) in
  wp (fileread me killed dev_read f n) (mkkst ft pi wo pg (mkfs t sb ic))
    (fun res s' => res = (r, take (Z.to_nat n) (drop off (contents v (i_addrs x) (i_size x)))) /\ exists t',
       s' = mkkst (<[f := set_off (Z.of_nat off + r) fl]> ft) pi wo pg (mkfs t' sb ic) /\ tclosed t' v).
Proof.
  intros HL (a & HR & [Hh Hd] & HA) HF Hf Hty Hw Hoff Hx [E1 E2 E3 E4 E5 E6] Hle Hn r.
  pose proof (agree_meta _ _ _ HL HA) as HM. pose proof (meta_inode _ _ _ _ HM E1) as HI.
  assert (HC : calm (disksize := disksize) (home := home) sb a) by (split; auto; by eapply meta_fs_ok).
  unfold fileread. eapply f_getf; [done|]. rewrite (proj2 (Z.eqb_neq _ _)), Hty by done.
  apply wp_bind, wp_infs. eapply (ilock_run (TD := t_out)); [exact HR|done|done|done|done|done|by rewrite E3|apply E1|done|done|].
  intros t1 R1. unfold ilocked. rewrite (proj2 (Z.eqb_neq _ _)) by done. set (x1 := set_ilock (mksleeplock 1 me) x).
  assert (Hlk : forall y, <[f_ip fl := y]> ic !! f_ip fl = Some y).
  { intros y. apply list_lookup_insert_eq. by eapply lookup_lt_Some. }
  pose proof (io_size _ _ _ E1). unfold MAXSIZE in *. rewrite Hoff. apply wp_bind, wp_infs.
  eapply wp_mono; [eapply (readi_run (TD := t_out) dev_read t1 sb _ a (f_ip fl) x1 off n);
    [exact R1|exact HC|apply Hlk| |exact E6|lia|lia|exact Hle]|].
  { destruct HI. by split. }
  intros res s' (-> & t2 & -> & R2). cbn [x1 set_ilock i_size i_addrs]. fold r.
  rewrite (meta_contents _ _ _ _ HM E1).
  assert (Hend : forall ft', ft' = <[f := set_off (Z.of_nat off + r) fl]> ft ->
    wp (infs (iunlock me (f_ip fl)) ;; ret (r, take (Z.to_nat n) (drop off (contents v (i_addrs x) (i_size x)))))
      (mkkst ft' pi wo pg (mkfs t2 sb (<[f_ip fl := x1]> ic)))
      (fun res s' => res = (r, take (Z.to_nat n) (drop off (contents v (i_addrs x) (i_size x)))) /\ exists t',
         s' = mkkst (<[f := set_off (Z.of_nat off + r) fl]> ft) pi wo pg (mkfs t' sb ic) /\ tclosed t' v)).
  { intros ft' ->. apply wp_bind, wp_infs. eapply iunlock_run; [apply Hlk|done|done|]. apply wp_ret. split; [done|].
    exists t2. split; [|by exists a]. rewrite list_insert_insert_eq, (list_insert_id ic); [done|].
    rewrite Hx. unfold x1, set_ilock. cbn. rewrite <- E3. by destruct x. }
  apply wp_bind. unfold when. destruct (Z.ltb_spec 0 r) as [Hr|Hr].
  - eapply f_setf; [done|]. apply Hend. rewrite Hoff, u32_small by lia. done.
  - apply wp_ret, Hend. assert (r = 0) as -> by lia. rewrite list_insert_id; [done|].
    rewrite Hf, Z.add_0_r, <- Hoff. by destruct fl.
Qed.

(** C15: [filewrite] of bytes that keep the file within MAXSIZE, while there are
    five free blocks for each of its transactions of at most 1536 bytes, returns
    their number, advances the offset by it and leaves on the disk, with the log
    empty, the file whose contents are the old ones with the bytes at the old
    offset, its inode included; every other inode, and every block in use that is
    not the file's, its inode's or the free map, is as before. *)
Theorem filewrite_spec ft pi wo (pg : K) t sb ic v f fl x off src :
  layout disksize home sb -> tclosed t v -> fs_ok sb v -> ft !! f = Some fl ->
  f_type fl = FD_INODE -> f_writable fl <> 0 -> f_off fl = Z.of_nat off -> ic !! f_ip fl = Some x ->
  settled sb v x -> Z.of_nat off <= i_size x -> Z.of_nat (off + length src) <= MAXSIZE ->
  (5 * chunks (length src) <= length (free_blocks sb v))%nat ->
  exists t' v' x',
    filewrite me killed dev_write f src (mkkst ft pi wo pg (mkfs t sb ic)) =
      Ret (Z.of_nat (length src))
        (mkkst (<[f := set_off (Z.of_nat (off + length src)) fl]> ft) pi wo pg (mkfs t' sb (<[f_ip fl := x']> ic))) /\
    tclosed t' v' /\ (forall n, home n -> t_disk t' n = v' n) /\
    settled sb v' x' /\ file_put (home := home) sb off src x v x' v'.
Proof.
  intros HL Ht HF Hf Hty Hw Hoff Hx HS Hle Hmax Hfree.
  pose proof (filewrite_run ft pi wo pg t sb ic v f fl x off src HL Ht HF Hf Hty Hw Hoff Hx HS Hle Hmax Hfree) as W.
  apply wp_exists in W as (r & s' & E & -> & t' & v' & x' & -> & H1 & H2 & H3).
  exists t', v', x'. split_and!; auto. intros n. by apply tclosed_disk.
Qed.

(** C17: What [filewrite] writes through one open file [fileread] returns through
    another one of the same inode, at the same offset. *)
Theorem read_after_write ft pi wo (pg : K) t sb ic v f g fl gl x off src :
  layout disksize home sb -> tclosed t v -> fs_ok sb v -> ft !! f = Some fl -> ft !! g = Some gl -> f <> g ->
  f_type fl = FD_INODE -> f_writable fl <> 0 -> f_off fl = Z.of_nat off -> ic !! f_ip fl = Some x ->
  f_type gl = FD_INODE -> f_readable gl <> 0 -> f_off gl = Z.of_nat off -> f_ip gl = f_ip fl ->
  settled sb v x -> Z.of_nat off <= i_size x -> Z.of_nat (off + length src) <= MAXSIZE ->
  (5 * chunks (length src) <= length (free_blocks sb v))%nat ->
  exists s', (let! r := filewrite me killed dev_write f src in
              let! (n, bs) := fileread me killed dev_read g r in
              ret (r, n, bs)) (mkkst ft pi wo pg (mkfs t sb ic)) =
    Ret (Z.of_nat (length src), Z.of_nat (length src), src) s'.
Proof.
  intros HL Ht HF Hf Hg Hne Hty Hw Hoff Hx Htg Hrg Hog Hip HS Hle Hmax Hfree.
  enough (W : wp (let! r := filewrite me killed dev_write f src in
              let! (n, bs) := fileread me killed dev_read g r in
              ret (r, n, bs)) (mkkst ft pi wo pg (mkfs t sb ic))
    (fun res _ => res = (Z.of_nat (length src), Z.of_nat (length src), src))).
  { apply wp_exists in W as (r & s' & E & ->). eauto. }
  eapply wp_seq; [by eapply filewrite_run|]. intros r s' (-> & t' & v' & x' & -> & H1 & H2 & H3).
  pose proof (fp_same _ _ _ _ _ _ _ H3) as Hsz. apply (f_equal i_size) in Hsz. cbn in Hsz.
  assert (Hc : length (take off (contents v (i_addrs x) (i_size x))) = off)
    by (rewrite length_take, length_fcontents; lia).
  eapply wp_seq; [eapply (fileread_run _ _ _ _ t' sb _ v' g gl x' off); eauto; try lia|].
  - apply H3.
  - by rewrite list_lookup_insert_ne.
  - rewrite Hip. apply list_lookup_insert_eq. by eapply lookup_lt_Some.
  - unfold MAXSIZE in *. lia.
  - intros [n bs] s' ([= -> ->] & _). apply wp_ret. f_equal; [f_equal; lia|].
    rewrite (fp_contents _ _ _ _ _ _ _ H3), Nat2Z.id, <- Hc at 1. by rewrite drop_app_length, take_app_length.
Qed.

End Write.

(** ** Two open files of the root directory's inode *)

Definition demo_ft : list file := [mkfile FD_INODE 1 0 1 0 0%nat 32; mkfile FD_INODE 1 1 0 0 0%nat 32].

Lemma demo_closed : exists t, tclosed (TD := demo_tx) t demo_fs.
Proof.
  destruct (binit_brepr 7 demo_fs) as (c & _ & Hc); [exact demo_len|].
  exists (mklst (set_outstanding 0 demo_log) c), (mktspec demo_fs ∅ ∅ ∅ 0). split; [|split; [split; reflexivity|intros n _; reflexivity]].
  apply (log_closed (BC := bio_cache 7 1000) 2 30 _ c (fresh demo_fs)); try done; try lia.
  destruct (demo_txn 0). split; done.
Qed.

Lemma demo_settled : settled demo_sb demo_fs demo_root.
Proof. split; [apply demo_inode|done|done|cbn; lia|cbn; lia|done]. Qed.

Lemma filewrite_spec_witness : exists t t' v' x',
  filewrite (TO := log_tx_ops (BO := bio_ops 7 1000)) 7 false (fun _ => None) 0 (repeat 9 2000)
    (mkkst demo_ft ∅ [] tt (mkfs t demo_sb demo_ic)) =
    Ret 2000 (mkkst (<[0%nat := set_off 2032 (mkfile FD_INODE 1 0 1 0 0%nat 32)]> demo_ft) ∅ [] tt
      (mkfs t' demo_sb (<[0%nat := x']> demo_ic))) /\
  (forall n, demo_home n -> t_disk (TxDisk := demo_tx) t' n = v' n) /\
  contents v' (i_addrs x') (i_size x') = contents demo_fs (i_addrs demo_root) 32 ++ repeat 9 2000.
Proof.
  destruct demo_closed as [t Ht]. exists t.
  destruct (filewrite_spec (TD := demo_tx) 7 false (fun _ => None) demo_ft ∅ [] tt t demo_sb demo_ic demo_fs 0
    (mkfile FD_INODE 1 0 1 0 0%nat 32) demo_root 32 (repeat 9 2000)) as (t' & v' & x' & E & _ & Hd & _ & HP).
  - exact demo_layout.
  - exact Ht.
  - exact demo_ok.
  - reflexivity.
  - reflexivity.
  - discriminate.
  - reflexivity.
  - reflexivity.
  - exact demo_settled.
  - cbn. lia.
  - rewrite repeat_length. unfold MAXSIZE. lia.
  - rewrite repeat_length. pose proof demo_free. change (chunks 2000) with 2%nat. lia.
  - exists t', v', x'. split; [|split; [exact Hd|]].
    + rewrite E. rewrite repeat_length. reflexivity.
    + rewrite (fp_contents _ _ _ _ _ _ _ HP), repeat_length. rewrite take_ge by (rewrite length_fcontents; cbn; lia).
      rewrite drop_ge by (rewrite length_fcontents; cbn; lia). rewrite app_nil_r. reflexivity.
Defined.

Lemma read_after_write_witness : exists t s',
  (let! r := filewrite (TO := log_tx_ops (BO := bio_ops 7 1000)) 7 false (fun _ => None) 0 [1; 2; 3] in
   let! (n, bs) := fileread (TO := log_tx_ops (BO := bio_ops 7 1000)) 7 false (fun _ => None) 1 r in
   ret (r, n, bs)) (mkkst demo_ft ∅ [] tt (mkfs t demo_sb demo_ic)) = Ret (3, 3, [1; 2; 3]) s'.
Proof.
  destruct demo_closed as [t Ht]. exists t.
  apply (read_after_write (TD := demo_tx) 7 false (fun _ => None) (fun _ => None) demo_ft ∅ [] tt t demo_sb demo_ic demo_fs 0 1
    (mkfile FD_INODE 1 0 1 0 0%nat 32) (mkfile FD_INODE 1 1 0 0 0%nat 32) demo_root 32 [1; 2; 3]); try reflexivity; try discriminate.
  - exact demo_layout.
  - exact Ht.
  - exact demo_ok.
  - exact demo_settled.
  - pose proof demo_free. change (chunks (length [1; 2; 3])) with 1%nat. lia.
Defined.
