(* ===== verification/FsPath.v ===== *)
(** * Looking up paths ([fs.c]: [namei])

    A directory tree on the disk, the inode that a path leads to, and that
    [namei] finds it, with no reference or lock left behind on the way. *)
From S2P Require Import Prelude Str Sleeplock Bio BufCache BioSpec Log LogSpec LogOps Tx Fs FsBlocks FsInode FsFiles FsContents FsDirs FsIcache FsSpec FileSpec.

(** ** The tree *)

(** Inode [n] as the disk has it. *)
Definition stored (sb : superblock) (v : Z -> block) (n : Z) : inode :=
  dinode_at sb v n (mkinode 1 n 0 initsleeplock 1 0 0 0 0 0 []).

Definition linked (sb : superblock) (v : Z -> block) (n : Z) : Prop :=
  0 <= n < sb_ninodes sb /\ i_type (stored sb v n) <> 0 /\ i_nlink (stored sb v n) <> 0.

Definition file_of (sb : superblock) (v : Z -> block) (n : Z) : list Z :=
  contents v (i_addrs (stored sb v n)) (i_size (stored sb v n)).

(** The inode that a list of names leads to from inode [n]. *)
Fixpoint resolve (sb : superblock) (v : Z -> block) (n : Z) (es : list (list Z)) : option Z :=
  match es with
  | [] => Some n
  | e :: es =>
      if i_type (stored sb v n) =? T_DIR then
        match dir_inum (file_of sb v n) e with
        | Some m => resolve sb v m es
        | None => None
        end
      else None
  end.

(** Every entry of a directory in the tree leads to an inode in the tree. *)
Record tree_ok (sb : superblock) (v : Z -> block) : Prop := {
  tr_inode n : linked sb v n -> inode_ok sb v (stored sb v n);
  tr_dir n : linked sb v n -> i_type (stored sb v n) = T_DIR -> i_size (stored sb v n) mod 16 = 0;
  tr_entry n e m : linked sb v n -> i_type (stored sb v n) = T_DIR ->
    dir_inum (file_of sb v n) e = Some m -> linked sb v m;
}.

Lemma synced_fields sb v x : synced sb v x ->
  i_type x = i_type (stored sb v (i_inum x)) /\ i_nlink x = i_nlink (stored sb v (i_inum x)) /\
  i_size x = i_size (stored sb v (i_inum x)) /\ i_addrs x = i_addrs (stored sb v (i_inum x)).
Proof. intros H. rewrite <- H. cbn [i_inum dinode_at load_dinode]. done. Qed.

Lemma synced_inode sb v x : synced sb v x -> i_dev x = 1 -> inode_ok sb v (stored sb v (i_inum x)) ->
  inode_ok sb v x.
Proof.
  intros (_ & _ & Es & Ea)%synced_fields Hd [_ H2 H3 H4]. split; [done|by rewrite Ea|by rewrite Es|].
  intros bn. rewrite Es, Ea. apply H4.
Qed.

Lemma synced_ref sb v x r : synced sb v (set_ref r x) <-> synced sb v x.
Proof.
  unfold synced, dinode_at. destruct x. unfold load_dinode, set_ref. cbn. split; intros [=]; congruence.
Qed.

(** Directories compare names up to DIRSIZ bytes. *)
Lemma dir_inum_ext c s s' : cname s = cname s' -> dir_inum c s' = dir_inum c s.
Proof.
  intros E. unfold dir_inum. f_equal. generalize 0%nat. induction (entries c) as [|de l IH]; intros k; [done|].
  cbn [dfind]. unfold hit. rewrite (namecmp_ext _ _ _ E). by destruct (_ && _).
Qed.

Lemma cname_nonzero e : Forall (.≠ 0) e -> cname e = take DIRSIZ e.
Proof.
  unfold cname. generalize DIRSIZ. intros n. revert e. induction n as [|n IH]; intros e He; [done|].
  destruct e as [|c e]; [done|]. apply Forall_cons in He as [Hc He]. cbn.
  rewrite (proj2 (Z.eqb_neq c 0)) by done. f_equal. by apply IH.
Qed.

Lemma length_elems p : (length (elems p) <= length p)%nat.
Proof.
  unfold elems. induction p as [|c r IH]; [done|]. cbn [split_slash length].
  pose proof (split_slash_ne r). destruct (split_slash r) as [|e es]; [done|]. destruct (c =? slash).
  - rewrite filter_cons_False by tauto. lia.
  - rewrite filter_cons_True by done. cbn [length]. destruct (decide (e = [])) as [->|He].
    + rewrite filter_cons_False in IH by tauto. lia.
    + rewrite filter_cons_True in IH by done. cbn [length] in IH. lia.
Qed.

(** ** The cache during a lookup *)

Section Path.
Context {S : Type} {TO : TxOps S} {disksize : Z} {home : Z -> Prop} {TD : TxView S disksize home}.
Context (me : Z).
Context (dev_read : Z -> option (Z -> M (fsst S) (Z * list Z))).
Context (sb : superblock).

(** [lk]: the entry that the running process has locked; nobody else holds a
    lock.  Entries in use are current if they are valid. *)
Record quiet (v : Z -> block) (lk : option nat) (ic : list inode) : Prop := mkquiet {
  qu_ok : icache_ok ic;
  qu_lock j x : ic !! j = Some x ->
    if bool_decide (lk = Some j) then i_lock x = mksleeplock 1 me /\ i_valid x <> 0
    else sl_locked (i_lock x) = 0;
  qu_dev j x : ic !! j = Some x -> 0 < i_ref x -> i_dev x = 1 /\ 0 <= i_inum x < sb_ninodes sb;
  qu_sync j x : ic !! j = Some x -> 0 < i_ref x -> i_valid x <> 0 -> synced sb v x;
}.

(** [ic] is [ic0] with one more reference to each entry of [l]. *)
Definition extra (l : list nat) (ic0 ic : list inode) : Prop :=
  length ic = length ic0 /\
  forall j x, ic0 !! j = Some x -> exists y, ic !! j = Some y /\
    i_ref y = i_ref x + Z.of_nat (count_occ Nat.eq_dec l j) /\
    (0 < i_ref x -> i_dev y = i_dev x /\ i_inum y = i_inum x).

Lemma extra_perm l l' ic0 ic : l ≡ₚ l' -> extra l ic0 ic -> extra l' ic0 ic.
Proof.
  intros Hp [Hl H]. split; [done|]. intros j x Hx. destruct (H j x Hx) as (y & Hy & Hr & Hi).
  exists y. split_and!; [done| |done]. by rewrite <- (proj1 (Permutation_count_occ Nat.eq_dec _ _) Hp j).
Qed.

(** One entry gets another reference count. *)
Lemma extra_insert l l' ic0 ic ip x y :
  extra l ic0 ic -> ic !! ip = Some x ->
  (forall j, j <> ip -> count_occ Nat.eq_dec l' j = count_occ Nat.eq_dec l j) ->
  i_ref y - i_ref x = Z.of_nat (count_occ Nat.eq_dec l' ip) - Z.of_nat (count_occ Nat.eq_dec l ip) ->
  (0 < i_ref x -> i_dev y = i_dev x /\ i_inum y = i_inum x) ->
  extra l' ic0 (<[ip := y]> ic).
Proof.
  intros [Hl H] Hx Hc Hr Hi. split; [by rewrite length_insert|]. intros j z Hz.
  destruct (H j z Hz) as (w & Hw & Hwr & Hwi). destruct (decide (j = ip)) as [->|Hj].
  - rewrite Hx in Hw. injection Hw as <-. exists y. split_and!; [by eapply lookup_upd|lia|].
    intros Hp. destruct (Hwi Hp) as [<- <-]. apply Hi. lia.
  - exists w. rewrite list_lookup_insert_ne by done. by rewrite Hc.
Qed.

Section Lookup.
Context (v : Z -> block) (ic0 : list inode).
Context (Hroom : exists j k x y, j <> k /\ ic0 !! j = Some x /\ ic0 !! k = Some y /\ i_ref x = 0 /\ i_ref y = 0).
Context (Hfew : forall j x, ic0 !! j = Some x -> 0 <= i_ref x < 2147483640).

Lemma extra_small l ic j x : extra l ic0 ic -> (length l <= 3)%nat -> ic !! j = Some x -> i_ref x < 2147483647.
Proof.
  intros [Hl H] Hlen Hx. destruct (lookup_lt_is_Some_2 ic0 j) as [z Hz].
  { rewrite <- Hl. by eapply lookup_lt_Some. }
  destruct (H j z Hz) as (y & Hy & Hr & _). rewrite Hx in Hy. injection Hy as <-.
  pose proof (Hfew j z Hz). pose proof (count_occ_bound Nat.eq_dec j l). lia.
Qed.

(** With one reference in hand there is still a free entry. *)
Lemma extra_free l ic : extra l ic0 ic -> (length l <= 1)%nat -> exists j x, ic !! j = Some x /\ i_ref x = 0.
Proof.
  intros [_ H] Hl. destruct Hroom as (j & k & x & y & Hjk & Hj & Hk & Hx & Hy).
  destruct (H j x Hj) as (x' & Hx' & Hr & _). destruct (H k y Hk) as (y' & Hy' & Hr' & _).
  destruct l as [|i [|]]; cbn in *; [exists j, x'; split; [done|lia]| |lia].
  destruct (Nat.eq_dec i j) as [->|]; [|exists j, x'; split; [done|lia]].
  destruct (Nat.eq_dec j k) as [->|]; [done|]. exists k, y'. split; [done|lia].
Qed.

Lemma iget_quiet lk l ic n (t : S) :
  quiet v lk ic -> extra l ic0 ic -> (length l <= 1)%nat -> 0 <= n < sb_ninodes sb ->
  (forall j x, lk = Some j -> ic !! j = Some x -> 0 < i_ref x) ->
  wp (iget 1 n) (mkfs t sb ic) (fun ip s' => exists ic' y, s' = mkfs t sb ic' /\ quiet v lk ic' /\
    extra (ip :: l) ic0 ic' /\ ic' !! ip = Some y /\ i_inum y = n /\ 0 < i_ref y /\
    forall j x, ic !! j = Some x -> 0 < i_ref x -> exists z, ic' !! j = Some z /\ i_inum z = i_inum x /\ 0 < i_ref z).
Proof.
  intros [Hok Hlk Hdev Hsy] Hex Hl Hn Hlkr.
  assert (forall j x, ic !! j = Some x -> i_ref x < 2147483647) as Hsm
    by (intros j x; apply (extra_small l); [done|lia]).
  pose proof (iget_cases 1 n t sb ic Hok Hsm) as H. unfold wp.
  destruct (iget 1 n (mkfs t sb ic)) as [ip s'|e|]; [|exfalso|done].
  2: { destruct H as [_ H]. destruct (extra_free l ic Hex Hl) as (j & x & Hj & Hr). by apply (proj1 (H j x Hj)). }
  destruct H as (x & y & Hx & Hg & -> & Hok'). exists (<[ip := y]> ic), y.
  destruct (igot_caches _ _ _ _ Hg) as (Hr & Hd & Hi).
  assert (forall j, count_occ Nat.eq_dec (ip :: l) j = if Nat.eq_dec ip j then Datatypes.S (count_occ Nat.eq_dec l j) else count_occ Nat.eq_dec l j) as Hc by done.
  split_and!; [done| | |by eapply lookup_upd|done|done|].
  3: { intros j z Hz Hp. destruct (decide (j = ip)) as [->|Hj]; [|exists z; by rewrite list_lookup_insert_ne].
       rewrite Hx in Hz. injection Hz as <-. exists y. split_and!; [by eapply lookup_upd| |done].
       destruct Hg as [[_ ->]|[? _]]; [done|lia]. }
  - split; [done| | |].
    + intros j z [(<- & <- & _)|[_ Hz]]%list_lookup_insert_Some; [|by apply Hlk]. specialize (Hlk _ _ Hx).
      destruct Hg as [[_ ->]|[Hr0 ->]]; [exact Hlk|]. destruct (bool_decide_reflect (lk = Some ip)) as [E|_]; [|exact Hlk].
      specialize (Hlkr _ _ E Hx). lia.
    + intros j z [(<- & <- & _)|[_ Hz]]%list_lookup_insert_Some Hp; [by rewrite Hd, Hi|by eapply Hdev].
    + intros j z [(<- & <- & _)|[_ Hz]]%list_lookup_insert_Some Hp Hv; [|by eapply Hsy].
      destruct Hg as [[Hca ->]|[_ ->]]; [|done]. specialize (Hsy _ _ Hx (proj1 Hca) Hv).
      by apply synced_ref.
  - eapply extra_insert; [exact Hex|exact Hx| | |].
    + intros j Hj. rewrite Hc. by destruct (Nat.eq_dec ip j).
    + rewrite Hc. destruct (Nat.eq_dec ip ip); [|done]. destruct Hg as [[_ ->]|[Hr0 ->]]; cbn; lia.
    + intros Hp. destruct Hg as [[_ ->]|[Hr0 ->]]; [done|lia].
Qed.

(** Another state of the same entry. *)
Lemma quiet_update lk lk' ic ip x y :
  quiet v lk ic -> ic !! ip = Some x -> i_dev y = i_dev x -> i_inum y = i_inum x -> i_ref y <= i_ref x -> 0 <= i_ref y ->
  (if bool_decide (lk' = Some ip) then i_lock y = mksleeplock 1 me /\ i_valid y <> 0 else sl_locked (i_lock y) = 0) ->
  (forall j, j <> ip -> bool_decide (lk' = Some j) = bool_decide (lk = Some j)) ->
  (0 < i_ref y -> i_valid y <> 0 -> synced sb v y) ->
  quiet v lk' (<[ip := y]> ic).
Proof.
  intros [[Ho1 Ho2] Hlk Hdev Hsy] Hx Hd Hi Hr Hr0 Hl Hot Hs.
  assert (forall dev n, caches dev n y -> caches dev n x) as Hca by (unfold caches; intros; lia).
  split; [split| | |].
  - intros j z [(<- & <- & _)|[_ Hz]]%list_lookup_insert_Some; eauto.
  - intros i j z w d n [(<- & <- & _)|[Hi' Hz]]%list_lookup_insert_Some
      [(<- & <- & _)|[Hj Hw]]%list_lookup_insert_Some Hcz Hcw; eauto.
  - intros j z [(<- & <- & _)|[Hj Hz]]%list_lookup_insert_Some; [done|]. rewrite Hot by done. by apply Hlk.
  - intros j z [(<- & <- & _)|[_ Hz]]%list_lookup_insert_Some Hp; [|by eapply Hdev].
    rewrite Hd, Hi. eapply Hdev; [exact Hx|lia].
  - intros j z [(<- & <- & _)|[_ Hz]]%list_lookup_insert_Some Hp Hv; [auto|by eapply Hsy].
Qed.

Context (a : tspec) (Hc : calm (disksize := disksize) (home := home) sb a) (Hview : t_view a = v).
Context (Htree : tree_ok sb v).

Lemma ilock_quiet l ic ip x t :
  trepr t a -> quiet v None ic -> extra l ic0 ic -> ic !! ip = Some x -> 0 < i_ref x ->
  i_type (stored sb v (i_inum x)) <> 0 ->
  wp (ilock me ip) (mkfs t sb ic) (fun _ s' => exists t' ic' y, s' = mkfs t' sb ic' /\ trepr t' a /\
    quiet v (Some ip) ic' /\ extra l ic0 ic' /\ ic' !! ip = Some y /\ i_inum y = i_inum x /\ 0 < i_ref y /\
    synced sb v y /\ i_dev y = 1).
Proof.
  intros HR Hq Hex Hx Hr Hty. pose proof Hq as [_ Hlk Hdev Hsy]. destruct (Hdev _ _ Hx Hr) as [Hd Hi].
  specialize (Hlk _ _ Hx). rewrite bool_decide_false in Hlk by done. destruct Hc as [HL HF Hh Hdt].
  assert (synced sb v (ilocked me sb v x)) as Hs.
  { unfold ilocked. destruct (Z.eqb_spec (i_valid x) 0) as [Hv|Hv]; [done|]. apply synced_lock. by eapply Hsy. }
  assert (forall y, y = ilocked me sb v x -> i_dev y = i_dev x /\ i_inum y = i_inum x /\ i_ref y = i_ref x /\
    i_lock y = mksleeplock 1 me /\ i_valid y <> 0) as Hy.
  { intros y ->. unfold ilocked. destruct (Z.eqb_spec (i_valid x) 0); done. }
  eapply ilock_run; [exact HR|done|done|done|exact Hx|done|done|done|done| |].
  { intros Hv. rewrite Hview. destruct (synced_fields _ _ _ Hs) as [-> _]. by rewrite (proj1 (proj2 (Hy _ eq_refl))). }
  rewrite Hview. intros t' R'. set (y := ilocked me sb v x) in *. destruct (Hy y eq_refl) as (H1 & H2 & H3 & H4 & H5).
  exists t', (<[ip := y]> ic), y. split_and!; [done|done| | |by eapply lookup_upd|done|lia|done|lia].
  - eapply quiet_update; [exact Hq|exact Hx|done|done|lia|lia| | |done].
    + by rewrite bool_decide_true.
    + intros j Hj. rewrite !bool_decide_false; congruence.
  - eapply extra_insert; [exact Hex|exact Hx|done|lia|done].
Qed.

Lemma unlock_inode_run t ic ip x (Q : unit -> fsst S -> Prop) :
  ic !! ip = Some x -> Q tt (mkfs t sb (<[ip := set_ilock initsleeplock x]> ic)) ->
  wp (unlock_inode ip) (mkfs t sb ic) Q.
Proof.
  intros Hx Hk. unfold unlock_inode. eapply f_geti; [done|].
  unfold seti, geti, releasesleep, wp, bind, get, put, deref, modify. cbn. rewrite Hx. cbn.
  by rewrite (list_insert_alter _ _ _ x).
Qed.

Lemma put_quiet l ic ip x t :
  quiet v (Some ip) ic -> extra (ip :: l) ic0 ic -> ic !! ip = Some x -> 0 < i_ref x -> linked sb v (i_inum x) ->
  (length l <= 1)%nat ->
  wp (iunlockput me ip) (mkfs t sb ic) (fun _ s' => exists ic', s' = mkfs t sb ic' /\
    quiet v None ic' /\ extra l ic0 ic' /\ (exists y, ic' !! ip = Some y /\ i_inum y = i_inum x /\ i_ref y = i_ref x - 1) /\
    forall j, j <> ip -> ic' !! j = ic !! j).
Proof.
  intros Hq Hex Hx Hr (_ & _ & Hnl) Hlen. pose proof Hq as [_ Hlk _ Hsy]. specialize (Hlk _ _ Hx).
  rewrite bool_decide_true in Hlk by done. destruct Hlk as [Hl Hv]. pose proof (Hsy _ _ Hx Hr Hv) as Hs.
  assert (forall y z, <[ip := z]> (<[ip := y]> ic) = <[ip := z]> ic) as Hii by (intros; by rewrite list_insert_insert_eq).
  assert (forall y, <[ip := y]> ic !! ip = Some y) as Hlu by (intros; by eapply lookup_upd).
  unfold iunlockput. eapply wp_bind, (iunlock_run me); [exact Hx|done|done|].
  set (x1 := set_ilock initsleeplock x). unfold iput. eapply wp_bind, lock_inode_run; [apply Hlu|done|]. rewrite Hii.
  eapply f_geti; [apply Hlu|]. change (i_nlink _) with (i_nlink x).
  assert ((i_nlink x =? 0) = false) as ->.
  { apply Z.eqb_neq. by destruct (synced_fields _ _ _ Hs) as (_ & -> & _). }
  rewrite andb_false_r. cbn [andb when]. apply wp_bind, wp_ret.
  eapply wp_bind, unlock_inode_run; [apply Hlu|]. rewrite Hii. eapply f_seti'; [apply Hlu|]. rewrite Hii.
  assert (i_ref x < 2147483647) as Hsm by (eapply (extra_small (ip :: l)); [exact Hex|cbn; lia|exact Hx]).
  set (y := set_ref _ _). assert (y = set_ref (i_ref x - 1) x1) as Ey.
  { subst y. cbn [i_ref set_ilock x1 set_ref]. by rewrite s32_small by lia. }
  clearbody y. subst y. exists (<[ip := set_ref (i_ref x - 1) x1]> ic).
  split_and!; [done| | |by eexists|intros j Hj; by rewrite list_lookup_insert_ne].
  - eapply quiet_update; [exact Hq|exact Hx|done|done|cbn; lia|cbn; lia|done| |].
    + intros j Hj. rewrite !bool_decide_false; congruence.
    + intros _ _. by apply synced_ref, synced_lock.
  - eapply extra_insert; [exact Hex|exact Hx| | |done].
    + intros j Hj. cbn. by destruct (Nat.eq_dec ip j).
    + cbn. destruct (Nat.eq_dec ip ip); [|done]. lia.
Qed.

(** ** namei *)

Lemma namex_run es : forall fuel path name ip ic x t,
  elems path = es -> Forall (Forall (.≠ 0)) es -> (length es <= fuel)%nat -> length name = DIRSIZ ->
  trepr t a -> quiet v None ic -> extra [ip] ic0 ic -> ic !! ip = Some x -> 0 < i_ref x -> linked sb v (i_inum x) ->
  wp (namex_loop me dev_read fuel ip path false name) (mkfs t sb ic) (fun r s' => exists t' ic',
    s' = mkfs t' sb ic' /\ trepr t' a /\ quiet v None ic' /\
    match resolve sb v (i_inum x) es with
    | None => fst r = None /\ extra [] ic0 ic'
    | Some m => exists jp y, fst r = Some jp /\ extra [jp] ic0 ic' /\ ic' !! jp = Some y /\
        0 < i_ref y /\ i_inum y = m /\ linked sb v m
    end).
Proof.
  induction es as [|e es IH]; intros fuel path name ip ic x t He Hnz Hf Hln HR Hq Hex Hx Hr Hli;
    pose proof (skipelem_run path name) as Hs; rewrite He in Hs.
  { destruct fuel; cbn [namex_loop resolve]; rewrite Hs; apply wp_ret; exists t, ic;
      (split_and!; [done|done|done|]); by exists ip, x. }
  destruct Hs as (path' & Hs & He' & _). apply Forall_cons in Hnz as [Hnz Hnzs].
  destruct (set_name_cut name e Hln Hnz) as [Hln' Hcn].
  destruct fuel as [|fuel]; cbn [length] in Hf; [lia|]. cbn [namex_loop resolve]. rewrite Hs. set (nm := set_name name e) in *.
  eapply wp_seq; [eapply ilock_quiet; [exact HR|exact Hq|exact Hex|exact Hx|done|apply Hli]|].
  intros [] s1 (t1 & ic1 & y & -> & R1 & Hq1 & Hex1 & Hy & Hin & Hry & Hsy & Hdy).
  eapply f_geti; [exact Hy|]. destruct (synced_fields _ _ _ Hsy) as (Ety & Enl & Esz & Ead). rewrite Hin in *. rewrite Ety.
  assert (forall t2, trepr t2 a ->
    wp (iunlockput me ip ;; ret (None : option nat, nm)) (mkfs t2 sb ic1) (fun r s' => exists t' ic', s' = mkfs t' sb ic' /\ trepr t' a /\ quiet v None ic' /\
      (fst r = None /\ extra [] ic0 ic'))) as Hnone.
  { intros t2 R2. eapply wp_seq; [eapply put_quiet; [exact Hq1|exact Hex1|exact Hy|done|by rewrite Hin|cbn; lia]|].
    intros [] s2 (ic2 & -> & Hq2 & Hex2 & _). apply wp_ret. eauto 10. }
  destruct (Z.eqb_spec (i_type (stored sb v (i_inum x))) T_DIR) as [Hdir|Hdir]; cbn [negb andb]; [|by apply Hnone].
  assert (dir_ok sb (t_view a) y) as Hdy'.
  { rewrite Hview. split_and!; [|by rewrite Ety|rewrite Esz; by apply (tr_dir _ _ Htree)].
    apply synced_inode; [done|done|rewrite Hin; by apply (tr_inode _ _ Htree)]. }
  assert (contents (t_view a) (i_addrs y) (i_size y) = file_of sb v (i_inum x)) as Eco by (by rewrite Hview, Ead, Esz).
  assert (dir_inum (file_of sb v (i_inum x)) e = snd <$> dfind nm (entries (file_of sb v (i_inum x))) 0) as Edi.
  { change (_ <$> _) with (dir_inum (file_of sb v (i_inum x)) nm). apply dir_inum_ext. by rewrite Hcn, cname_nonzero. }
  apply wp_bind. eapply dirlookup_run; [exact R1|exact Hc|exact Hy|exact Hdy'|..]; rewrite Eco.
  { intros t2 R2 Hd. rewrite Edi, Hd. by apply Hnone. }
  intros t2 j m R2 Hd. rewrite Edi, Hd. cbn [fmap option_fmap option_map snd].
  assert (linked sb v m) as Hlm by (eapply (tr_entry _ _ Htree); [exact Hli|done|by rewrite Edi, Hd]).
  eapply wp_mono; [eapply iget_quiet; [exact Hq1|exact Hex1|cbn; lia|apply Hlm|]|].
  { intros j' z [= <-] Hz. rewrite Hy in Hz. by injection Hz as <-. }
  intros np s3 (ic3 & z & -> & Hq3 & Hex3 & Hz & Hzi & Hzr & Hkeep). destruct (Hkeep _ _ Hy Hry) as (w & Hw & Hwi & Hwr).
  eapply wp_seq.
  { eapply put_quiet; [exact Hq3|eapply extra_perm; [|exact Hex3]; apply perm_swap|exact Hw|done|by rewrite Hwi, Hin|cbn; lia]. }
  intros [] s4 (ic4 & -> & Hq4 & Hex4 & (w' & Hw' & Hwi' & Hwr') & Hoth).
  assert (exists z', ic4 !! np = Some z' /\ i_inum z' = m /\ 0 < i_ref z') as (z' & Hz' & Hzi' & Hzr').
  { destruct (decide (np = ip)) as [->|Hne]; [|exists z; by rewrite Hoth].
    rewrite Hw in Hz. injection Hz as ->. exists w'. split_and!; [done|congruence|].
    destruct (lookup_lt_is_Some_2 ic0 ip) as [o Ho]; [rewrite <- (proj1 Hex3); by eapply lookup_lt_Some|].
    destruct (proj2 Hex3 _ _ Ho) as (o' & Ho' & Hor & _). rewrite Hw in Ho'. injection Ho' as <-.
    cbn in Hor. destruct (Nat.eq_dec ip ip); [|done]. pose proof (Hfew _ _ Ho). lia. }
  rewrite <- Hzi'. eapply IH; [done|done|lia|done|exact R2|exact Hq4|exact Hex4|exact Hz'|done|by rewrite Hzi'].
Qed.

Lemma extra_refl : extra [] ic0 ic0.
Proof. split; [done|]. intros j x Hx. exists x. cbn. split_and!; [done|lia|done]. Qed.

Lemma idup_quiet ip x (t : S) :
  quiet v None ic0 -> ic0 !! ip = Some x -> 0 < i_ref x ->
  wp (idup ip) (mkfs t sb ic0) (fun jp s' => jp = ip /\ exists ic' y, s' = mkfs t sb ic' /\ quiet v None ic' /\
    extra [ip] ic0 ic' /\ ic' !! ip = Some y /\ i_inum y = i_inum x /\ 0 < i_ref y).
Proof.
  intros [[Ho1 Ho2] Hlk Hdev Hsy] Hx Hr. pose proof (Hfew _ _ Hx) as Hb. unfold idup. eapply f_seti; [exact Hx|].
  rewrite s32_small by lia. set (y := set_ref (i_ref x + 1) x). apply wp_ret. split; [done|].
  assert (forall dev n, caches dev n y -> caches dev n x) as Hca by (unfold caches; cbn; intros; lia).
  exists (<[ip := y]> ic0), y. split_and!; [done| | |by eapply lookup_upd|done|cbn; lia].
  - split; [split| | |].
    + intros j z [(<- & <- & _)|[_ Hz]]%list_lookup_insert_Some; [cbn; lia|eauto].
    + intros i j z w d n [(<- & <- & _)|[Hi' Hz]]%list_lookup_insert_Some
        [(<- & <- & _)|[Hj Hw]]%list_lookup_insert_Some Hcz Hcw; eauto.
    + intros j z [(<- & <- & _)|[Hj Hz]]%list_lookup_insert_Some; [by apply (Hlk _ _ Hx)|by apply Hlk].
    + intros j z [(<- & <- & _)|[_ Hz]]%list_lookup_insert_Some Hp; [by apply (Hdev _ _ Hx)|by eapply Hdev].
    + intros j z [(<- & <- & _)|[_ Hz]]%list_lookup_insert_Some Hp Hv; [|by eapply Hsy].
      apply synced_ref. by eapply Hsy.
  - eapply extra_insert; [apply extra_refl|exact Hx| | |done].
    + intros j Hj. cbn. by destruct (Nat.eq_dec ip j).
    + cbn. destruct (Nat.eq_dec ip ip); [|done]. lia.
Qed.

(** Where a lookup starts: the root, or the current directory, entry [cwd]. *)
Definition start_of (cwd : nat) (path : list Z) (n : Z) : Prop :=
  if bool_decide (hd 0 path = slash) then n = ROOTINO
  else exists x, ic0 !! cwd = Some x /\ 0 < i_ref x /\ i_inum x = n.

Lemma namei_run cwd path n t :
  trepr t a -> quiet v None ic0 -> Forall (.≠ 0) path -> start_of cwd path n -> linked sb v n ->
  wp (namei me dev_read cwd path) (mkfs t sb ic0) (fun o s' => exists t' ic',
    s' = mkfs t' sb ic' /\ trepr t' a /\ quiet v None ic' /\
    match resolve sb v n (elems path) with
    | None => o = None /\ extra [] ic0 ic'
    | Some m => exists jp y, o = Some jp /\ extra [jp] ic0 ic' /\ ic' !! jp = Some y /\
        0 < i_ref y /\ i_inum y = m /\ linked sb v m
    end).
Proof.
  intros HR Hq Hnz Hst Hli. unfold namei, namex.
  assert (forall ip ic x, quiet v None ic -> extra [ip] ic0 ic -> ic !! ip = Some x -> i_inum x = n -> 0 < i_ref x ->
    wp (namex_loop me dev_read (length path) ip path false (repeat 0 DIRSIZ)) (mkfs t sb ic) (fun r s' => exists t' ic',
      s' = mkfs t' sb ic' /\ trepr t' a /\ quiet v None ic' /\
      match resolve sb v n (elems path) with
      | None => fst r = None /\ extra [] ic0 ic'
      | Some m => exists jp y, fst r = Some jp /\ extra [jp] ic0 ic' /\ ic' !! jp = Some y /\
          0 < i_ref y /\ i_inum y = m /\ linked sb v m
      end)) as Hloop.
  { intros ip ic x Hq1 Hex Hx <- Hr.
    eapply namex_run; [done|by apply elems_nonzero|apply length_elems|done|exact HR|exact Hq1|exact Hex|exact Hx|done|done]. }
  eapply wp_seq.
  - unfold start_of in Hst. case_bool_decide.
    + eapply wp_seq; [eapply (iget_quiet None []); [exact Hq|apply extra_refl|cbn; lia|by rewrite <- Hst; apply Hli|done]|].
      intros ip s' (ic' & y & -> & Hq' & Hex' & Hy & Hi & Hr & _). eapply Hloop; [done|done|done|congruence|done].
    + destruct Hst as (x & Hx & Hr & Hi). eapply wp_seq; [by eapply idup_quiet|].
      intros ip s' (-> & ic' & y & -> & Hq' & Hex' & Hy & Hiy & Hry). eapply Hloop; [done|done|done|congruence|done].
  - intros [r nm] s' (t' & ic' & H'). apply wp_ret. exists t', ic'. exact H'.
Qed.

End Lookup.
End Path.

(** C14: [namei] follows a path element by element: from the root, or from the
    current directory if the path does not begin with a slash, it arrives at the
    inode that the directories on the disk lead to, and returns an entry that
    caches it, with one more reference; if some element is not there, or is
    looked up in a file, it returns 0.  It never panics or blocks, and the
    references and locks that it takes on the way are given back. *)
Theorem namei_spec {S : Type} {TO : TxOps S} {disksize : Z} {home : Z -> Prop} {TD : TxView S disksize home}
    (me : Z) (dev_read : Z -> option (Z -> M (fsst S) (Z * list Z))) (sb : superblock) (ic : list inode)
    (a : tspec) (t : S) (cwd : nat) (path : list Z) (n : Z)
    (Hroom : exists j k x y, j <> k /\ ic !! j = Some x /\ ic !! k = Some y /\ i_ref x = 0 /\ i_ref y = 0)
    (Hfew : forall j x, ic !! j = Some x -> 0 <= i_ref x < 2147483640)
    (HR : trepr t a) (Hc : calm (disksize := disksize) (home := home) sb a) (Htree : tree_ok sb (t_view a))
    (Hq : quiet me sb (t_view a) None ic) (Hnz : Forall (.≠ 0) path)
    (Hst : start_of ic cwd path n) (Hli : linked sb (t_view a) n) :
  exists o t' ic', namei me dev_read cwd path (mkfs t sb ic) = Ret o (mkfs t' sb ic') /\
    trepr t' a /\ quiet me sb (t_view a) None ic' /\
    match resolve sb (t_view a) n (elems path) with
    | None => o = None /\ extra [] ic ic'
    | Some m => exists ip x, o = Some ip /\ extra [ip] ic ic' /\ ic' !! ip = Some x /\ 0 < i_ref x /\ i_inum x = m
    end.
Proof.
  assert (W := namei_run me dev_read sb (t_view a) ic Hroom Hfew a Hc eq_refl Htree cwd path n t HR Hq Hnz Hst Hli).
  apply wp_exists in W as (o & s' & E & t' & ic' & -> & R' & Hq' & H). exists o, t', ic'. split_and!; [done|done|done|].
  destruct (resolve _ _ _ _); [|done]. destruct H as (ip & x & H). exists ip, x. tauto.
Qed.

(** ** A tree with a program

    The root directory with "." and ".." and a file "a", inode 2, with 88 bytes
    in block 60: an ELF header, one program header and 4 bytes of code. *)
Definition prog_bytes : list Z :=
  [127; 69; 76; 70] ++ repeat 0 12 ++ [2; 0; 3; 0; 1; 0; 0; 0; 0; 0; 0; 0; 52; 0; 0; 0] ++ repeat 0 12 ++
  [1; 0; 0; 0; 0; 0; 0; 0] ++
  [1; 0; 0; 0; 84; 0; 0; 0; 0; 0; 0; 0; 0; 0; 0; 0; 4; 0; 0; 0; 8; 0; 0; 0; 7; 0; 0; 0; 0; 16; 0; 0] ++
  [235; 254; 144; 144].

Definition tree_root : inode := mkinode 1 1 1 initsleeplock 1 T_DIR 0 0 1 48 (59 :: repeat 0 12).
Definition tree_prog : inode := mkinode 1 2 1 initsleeplock 1 T_FILE 0 0 1 88 (60 :: repeat 0 12).

Definition tree_fs (n : Z) : block :=
  if n =? 1 then put_words (repeat 0 BSIZE) 0 [1000; 941; 200; 30; 2; 32; 58]
  else if n =? 32 then store_dinode tree_root 64 (store_dinode tree_prog 128 (repeat 0 BSIZE))
  else if n =? 58 then repeat 255 7 ++ [31] ++ repeat 0 504
  else if n =? 59 then mkdirent 1 dot ++ mkdirent 1 dotdot ++ mkdirent 2 [97] ++ repeat 0 464
  else if n =? 60 then prog_bytes ++ repeat 0 424
  else repeat 0 BSIZE.

Definition tree_view : tspec := mktspec tree_fs ∅ ∅ ∅ 10.

Definition tree_ic : list inode := tree_root :: repeat (mkinode 0 0 0 initsleeplock 0 0 0 0 0 0 (repeat 0 13)) 49.

Lemma tree_len n : length (tree_fs n) = BSIZE.
Proof. unfold tree_fs. repeat (destruct (_ =? _); [reflexivity|]). reflexivity. Qed.

Lemma tree_fs_ok : fs_ok demo_sb tree_fs.
Proof.
  split; [reflexivity|]. intros b Hb. cbn in Hb.
  assert (H : forallb (fun b => used demo_sb tree_fs b) (seqZ 0 59) = true) by (vm_compute; reflexivity).
  rewrite forallb_forall in H. apply H, list_elem_of_In, elem_of_seqZ. lia.
Qed.

Lemma tree_calm : calm (disksize := 1000) (home := demo_home) demo_sb tree_view.
Proof. split; [apply demo_layout|apply tree_fs_ok|done|done]. Qed.

Lemma tree_linked n : linked demo_sb tree_fs n -> n = 1 \/ n = 2.
Proof.
  intros (Hr & Ht & _). cbn in Hr.
  assert (H : forallb (fun n => (i_type (stored demo_sb tree_fs n) =? 0) || (n =? 1) || (n =? 2)) (seqZ 0 200) = true)
    by (vm_compute; reflexivity).
  rewrite forallb_forall in H. specialize (H n). rewrite <- list_elem_of_In, elem_of_seqZ in H.
  specialize (H ltac:(lia)). apply orb_true_iff in H as [[H|H]%orb_true_iff|H]; lia.
Qed.

Lemma tree_stored : stored demo_sb tree_fs 1 = set_ref 0 tree_root /\ stored demo_sb tree_fs 2 = set_ref 0 tree_prog.
Proof. split; vm_compute; reflexivity. Qed.

(** A file of one block. *)
Lemma one_block (x : inode) b : i_dev x = 1 -> i_addrs x = b :: repeat 0 12 -> 0 <= i_size x <= 512 -> 58 < b < 1000 ->
  used demo_sb tree_fs b = true -> inode_ok demo_sb tree_fs x.
Proof.
  intros Hd Ha Hs Hb Hu.
  assert (forall i, slot tree_fs (b :: repeat 0 12) i = if bool_decide (i = 0)%nat then b else 0) as Hsl.
  { intros i. unfold slot. case_bool_decide as Hi; [|by rewrite bool_decide_false by lia].
    unfold NDIRECT in Hi. do 13 (destruct i as [|i]; [done|]). lia. }
  split; [done| |unfold MAXSIZE; lia|]; rewrite Ha.
  - split; [done| |]; intros i.
    + intros _ Hz. rewrite Hsl in *. case_bool_decide; [|done]. split; [cbn; lia|done].
    + intros j _ _ Hz E. rewrite !Hsl in *. repeat case_bool_decide; subst; try done; lia.
  - intros bn Hbn. assert (bn = 0%nat) as -> by lia. unfold addr_of. rewrite Hsl, bool_decide_true by done. lia.
Qed.

Lemma tree_tree : tree_ok demo_sb tree_fs.
Proof.
  destruct tree_stored as [E1 E2]. split.
  - intros n [->| ->]%tree_linked.
    + rewrite E1. apply (one_block _ 59); [reflexivity|reflexivity|cbn; lia|lia|vm_compute; reflexivity].
    + rewrite E2. apply (one_block _ 60); [reflexivity|reflexivity|cbn; lia|lia|vm_compute; reflexivity].
  - intros n [->| ->]%tree_linked; rewrite ?E1, ?E2; (reflexivity || discriminate).
  - intros n e m [->| ->]%tree_linked; [|rewrite E2; discriminate 1]. intros _ Hm.
    assert (forall n, n = 1 \/ n = 2 -> linked demo_sb tree_fs n) as Hl.
    { intros n [->| ->]; unfold linked; rewrite ?E1, ?E2; cbn; unfold T_DIR, T_FILE; lia. }
    apply Hl. unfold dir_inum in Hm. destruct (dfind e _ 0) as [[j i]|] eqn:Ef; [|done]. injection Hm as <-.
    apply dfind_Some in Ef as (de & Hde & _ & _ & ->).
    assert (de_inum <$> entries (file_of demo_sb tree_fs 1) = [1; 1; 2]) as Ee by (vm_compute; reflexivity).
    apply list_elem_of_lookup_2, (list_elem_of_fmap_2 de_inum) in Hde. rewrite Ee in Hde. clear -Hde.
    generalize dependent (de_inum de). intros. set_solver.
Qed.

Lemma tree_entry i x : tree_ic !! i = Some x -> i = 0%nat /\ x = tree_root \/ i_ref x = 0 /\ i_lock x = initsleeplock.
Proof.
  destruct i as [|i]; intros Hx; [left; by injection Hx as <-|right].
  apply repeat_lookup_Some in Hx as [-> _]. done.
Qed.

Lemma tree_quiet me : quiet me demo_sb tree_fs None tree_ic.
Proof.
  split; [split| | |].
  - intros i x [[_ ->]|[-> _]]%tree_entry; cbn; lia.
  - intros i j x y dev inum [[-> ->]|[Hx _]]%tree_entry [[-> ->]|[Hy _]]%tree_entry [Cx _] [Cy _]; (done || lia).
  - intros i x [[_ ->]|[_ Hx]]%tree_entry; [done|by rewrite Hx].
  - intros i x [[_ ->]|[Hx _]]%tree_entry; [cbn; lia|lia].
  - intros i x [[_ ->]|[Hx _]]%tree_entry; [by vm_compute|lia].
Qed.

Lemma tree_few j x : tree_ic !! j = Some x -> 0 <= i_ref x < 2147483640.
Proof. intros [[_ ->]|[-> _]]%tree_entry; cbn; lia. Qed.

Lemma tree_room : exists j k x y, j <> k /\ tree_ic !! j = Some x /\ tree_ic !! k = Some y /\ i_ref x = 0 /\ i_ref y = 0.
Proof. by eexists 1%nat, 2%nat, _, _. Qed.

Lemma tree_repr : exists t, @trepr _ _ _ _ demo_in t tree_view.
Proof.
  destruct (binit_brepr 7 tree_fs) as (c & _ & Hc); [exact tree_len|].
  exists (mklst (set_outstanding 1 demo_log) c). exists (fresh tree_fs), [].
  split; try done; try lia.
  - destruct (demo_txn 1). split; done.
  - cbn. unfold MAXQUOTA. lia.
Qed.

Lemma namei_spec_witness : exists t t' ic' ip x,
  namei (TO := log_tx_ops (BO := bio_ops 7 1000)) 7 (fun _ => None) 0 [46; 46; 47; 97] (mkfs t demo_sb tree_ic) =
    Ret (Some ip) (mkfs t' demo_sb ic') /\ extra [ip] tree_ic ic' /\ ic' !! ip = Some x /\ i_inum x = 2.
Proof.
  destruct tree_repr as [t HR]. exists t.
  destruct (namei_spec (TD := demo_in) 7 (fun _ => None) demo_sb tree_ic tree_view t 0 [46; 46; 47; 97] 1)
    as (o & t' & ic' & E & _ & _ & H).
  - exact tree_room.
  - exact tree_few.
  - exact HR.
  - exact tree_calm.
  - exact tree_tree.
  - exact (tree_quiet 7).
  - repeat (apply Forall_cons; split; [lia|]). apply Forall_nil_2.
  - exists tree_root. split; [reflexivity|]. split; [cbn; lia|reflexivity].
  - unfold linked. destruct tree_stored as [E1 _]. change (t_view tree_view) with tree_fs. rewrite E1. cbn. unfold T_DIR. lia.
  - assert (Er : resolve demo_sb tree_fs 1 (elems [46; 46; 47; 97]) = Some 2) by (vm_compute; reflexivity).
    change (t_view tree_view) with tree_fs in H. rewrite Er in H. destruct H as (ip & x & -> & H1 & H2 & _ & H3).
    exists t', ic', ip, x. split; [exact E|]. split; [exact H1|]. split; [exact H2|exact H3].
Defined.
