(* ===== verification/Mkfs.v ===== *)
(** * The tool that makes the disk image ([mkfs.c])

    The image is a file of sectors.  A failed [assert] and [exit(1)] are panics.
    A file to be copied is its name and what its reads return. *)
From S2P Require Import Prelude Str Sleeplock Bio Log Tx Fs.

Definition NINODES : Z := 200.
Definition FSSIZE : Z := 1000.
Definition SECT : Z := 512.

Definition nbitmap : Z := FSSIZE / (SECT * 8) + 1.
Definition ninodeblocks : Z := NINODES / IPB + 1.
Definition nlog : Z := 30.
Definition nmeta : Z := 2 + nlog + ninodeblocks + nbitmap.
Definition nblocks : Z := FSSIZE - nmeta.

(** The value whose bytes in memory are those of [x], low byte first. *)
Definition xshort (x : Z) : Z := get16 [u8 x; u8 (Z.shiftr x 8)] 0.
Definition xint (x : Z) : Z := get32 [u8 x; u8 (Z.shiftr x 8); u8 (Z.shiftr x 16); u8 (Z.shiftr x 24)] 0.

Definition msb : superblock :=
  mksb (xint FSSIZE) (xint nblocks) (xint NINODES) (xint nlog) (xint 2) (xint (2 + nlog)) (xint (2 + nlog + ninodeblocks)).

(** The bytes of [struct superblock]. *)
Definition sb_bytes (sb : superblock) : block :=
  put_words (repeat 0 BSIZE) 0
    [sb_size sb; sb_nblocks sb; sb_ninodes sb; sb_nlog sb; sb_logstart sb; sb_inodestart sb; sb_bmapstart sb].

Definition zeroes : block := repeat 0 BSIZE.

(** The image, its length in sectors, [freeinode] and [freeblock]. *)
Record mst := mkmst { img : gmap Z block; nsect : Z; freeinode : Z; freeblock : Z }.

Abbreviation MM := (M mst).

Definition assert (b : bool) : MM unit := if b then ret tt else panic "assert".

(** ** Sectors *)

(** Sectors that were skipped read as zeros. *)
Definition sect (s : mst) (n : Z) : block := default zeroes (img s !! n).

Definition wsect (sec : Z) (buf : block) : MM unit :=
  modify (fun s => mkmst (<[sec := buf]> (img s)) (Z.max (nsect s) (sec + 1)) (freeinode s) (freeblock s)).

Definition rsect (sec : Z) : MM block :=
  let! s := get in
  if (0 <=? sec) && (sec <? nsect s) then ret (sect s sec) else panic "read".

(** [freeblock++]. *)
Definition new_block : MM Z :=
  let! s := get in
  put (mkmst (img s) (nsect s) (freeinode s) (u32 (freeblock s + 1))) ;;
  ret (freeblock s).

(** ** Inodes *)

(** [struct dinode] is the part of an inode that is on the disk. *)
Definition dinode0 (inum : Z) : inode := mkinode 1 inum 0 initsleeplock 1 0 0 0 0 0 [].

Definition winode (inum : Z) (ip : inode) : MM unit :=
  let bn := IBLOCK inum msb in
  let! buf := rsect bn in
  wsect bn (store_dinode ip (dinode_off inum) buf).

Definition rinode (inum : Z) : MM inode :=
  let bn := IBLOCK inum msb in
  let! buf := rsect bn in
  ret (load_dinode buf (dinode_off inum) (dinode0 inum)).

Definition ialloc (type : Z) : MM Z :=
  let! s := get in
  let inum := freeinode s in
  put (mkmst (img s) (nsect s) (u32 (freeinode s + 1)) (freeblock s)) ;;
  winode inum (mkinode 1 inum 0 initsleeplock 1 (xshort type) 0 0 (xshort 1) (xint 0) (repeat 0 (S NDIRECT))) ;;
  ret inum.

(** [din.addrs[i]], with a new block if there is none yet. *)
Definition addr_block (i : nat) (din : inode) : MM inode :=
  if xint (nth i (i_addrs din) 0) =? 0 then
    let! b := new_block in
    ret (set_addr i (xint b) din)
  else ret din.

(** The block of the file's [fbn]th block. *)
Definition file_block (fbn : Z) (din : inode) : MM (inode * Z) :=
  if fbn <? Z.of_nat NDIRECT then
    let! din := addr_block (Z.to_nat fbn) din in
    ret (din, xint (nth (Z.to_nat fbn) (i_addrs din) 0))
  else
    let! din := addr_block NDIRECT din in
    let ind := xint (nth NDIRECT (i_addrs din) 0) in
    let o := (4 * (Z.to_nat fbn - NDIRECT))%nat in
    let! indirect := rsect ind in
    if get32 indirect o =? 0 then
      let! b := new_block in
      let indirect := put32 indirect o (xint b) in
      wsect ind indirect ;;
      ret (din, xint (get32 indirect o))
    else ret (din, xint (get32 indirect o)).

Fixpoint iappend_loop (fuel : nat) (din : inode) (off : Z) (p : list Z) : MM (inode * Z) :=
  match p, fuel with
  | [], _ => ret (din, off)
  | _, O => fault "fuel"
  | _, S k =>
      let fbn := off / SECT in
      assert (fbn <? MAXFILE) ;;
      let! (din, x) := file_block fbn din in
      let n1 := Z.to_nat (Z.min (Z.of_nat (length p)) ((fbn + 1) * SECT - off)) in
      let! buf := rsect x in
      wsect x (put_bytes buf (Z.to_nat (off - fbn * SECT)) (take n1 p)) ;;
      iappend_loop k din (off + Z.of_nat n1) (drop n1 p)
  end.

(** Every turn appends at least one byte. *)
Definition iappend (inum : Z) (p : list Z) : MM unit :=
  let! din := rinode inum in
  let! (din, off) := iappend_loop (length p) din (xint (i_size din)) p in
  winode inum (set_isize (xint off) din).

(** ** The free map *)

Definition bitmap (used : Z) : block := foldl mark_bit zeroes (seqZ 0 used).

Definition balloc (used : Z) : MM unit :=
  assert (used <? SECT * 8) ;;
  wsect (sb_bmapstart msb) (bitmap used).

(** ** The image *)

(** The name without a leading underscore. *)
Definition skip_underscore (name : list Z) : list Z :=
  match name with
  | c :: r => if c =? 95 then r else name
  | [] => []
  end.

(** A file on the host: its name and the results of its reads, if it can be
    opened. *)
Definition hostfile : Type := list Z * option (list (list Z)).

Definition copy_file (f : hostfile) : MM unit :=
  let (argv, data) := f in
  assert (negb (bool_decide (slash ∈ argv))) ;;
  match data with
  | None => panic "open"
  | Some chunks =>
      let name := skip_underscore argv in
      let! inum := ialloc T_FILE in
      iappend ROOTINO (mkdirent (xshort inum) name) ;;
      for_each chunks (iappend inum)
  end.

Definition main (files : list hostfile) : MM unit :=
  modify (fun s => mkmst (img s) (nsect s) (freeinode s) nmeta) ;;
  for_each (seqZ 0 FSSIZE) (fun i => wsect i zeroes) ;;
  wsect 1 (sb_bytes msb) ;;
  let! rootino := ialloc T_DIR in
  assert (rootino =? ROOTINO) ;;
  iappend rootino (mkdirent (xshort rootino) [46]) ;;
  iappend rootino (mkdirent (xshort rootino) [46; 46]) ;;
  for_each files copy_file ;;
  let! din := rinode rootino in
  let off := (xint (i_size din) / SECT + 1) * SECT in
  winode rootino (set_isize (xint off) din) ;;
  let! s := get in
  balloc (freeblock s).

(** The image file is empty. *)
Definition mkfs_start : mst := mkmst ∅ 0 1 0.
