(* ===== verification/MkfsFiles.v ===== *)
(** * Files in the image ([mkfs.c]: [iappend])

    While the image is made the free map is still to be written.  The disk as it
    will be seen is the image with the map of the blocks handed out so far; a
    file that is appended to grows on that disk as one that [writei] extends. *)
From S2P Require Import Prelude Str Sleeplock Bio Log LogSpec LogOps Tx Fs FsBlocks FsInode FsFiles FsContents FsDirs FsSpec Mkfs.

Lemma xint_u32 x : xint x = u32 x.
Proof.
  unfold xint, get32. cbn [nth Nat.add]. rewrite !Z.shiftr_div_pow2 by lia.
  change (2 ^ 8) with 256. change (2 ^ 16) with 65536. change (2 ^ 24) with 16777216. apply de32_le32.
Qed.

Lemma xshort_u16 x : xshort x = u16 x.
Proof.
  unfold xshort, get16, u8, u16. cbn [nth Nat.add]. rewrite Z.shiftr_div_pow2 by lia. change (2 ^ 8) with 256.
  Z.to_euclidean_division_equations. lia.
Qed.

Lemma xint_small x : 0 <= x < 4294967296 -> xint x = x.
Proof. intros. rewrite xint_u32. by apply u32_small. Qed.

Lemma msb_eq : msb = demo_sb.
Proof. reflexivity. Qed.

Lemma msb_layout : layout 1000 demo_home msb.
Proof. exact demo_layout. Qed.

(** ** The free map *)

Lemma length_bitmap n : length (bitmap n) = BSIZE.
Proof.
  unfold bitmap. assert (forall l d, length (foldl mark_bit d l) = length d) as H.
  { induction l as [|b l IH]; intros d; [done|]. cbn. by rewrite IH, length_mark. }
  apply H.
Qed.

Lemma bitmap_next n : 0 <= n -> bitmap (n + 1) = mark_bit (bitmap n) n.
Proof. intros Hn. unfold bitmap. rewrite seqZ_app by lia. rewrite foldl_app. done. Qed.

Lemma bitmap_free n b : 0 <= n <= 4096 -> 0 <= b -> bit_free (bitmap n) b = (n <=? b).
Proof.
  intros [H0 Hn] Hb. revert n H0 Hn. apply (natlike_ind (fun n => n <= 4096 -> bit_free (bitmap n) b = (n <=? b))).
  - intros _. rewrite (proj2 (Z.leb_le _ _)) by lia. unfold bit_free, bitmap, byte_of. cbn [foldl seqZ].
    change (seqZ 0 0) with (@nil Z). cbn [foldl]. unfold zeroes. by rewrite nth_repeat.
  - intros n Hn IH Hle. rewrite <- Z.add_1_r in *. rewrite bitmap_next, mark_bit_free, IH by (rewrite ?length_bitmap; unfold BSIZE; lia).
    destruct (Z.eqb_spec n b), (Z.leb_spec (n + 1) b), (Z.leb_spec n b); lia || done.
Qed.

(** ** The disk *)

(** As it will be. *)
Definition view (s : mst) : Z -> block := write_disk (sb_bmapstart msb) (bitmap (freeblock s)) (sect s).

Lemma view_map s : view s 58 = bitmap (freeblock s).
Proof. done. Qed.

Lemma view_sect s n : n <> 58 -> view s n = sect s n.
Proof. intros H. unfold view. by rewrite write_disk_other. Qed.

Record img_ok (s : mst) : Prop := {
  im_len n : length (sect s n) = BSIZE;
  im_nsect : nsect s = 1000;
  im_fb : 59 <= freeblock s <= 1000;
  im_zero n : freeblock s <= n -> sect s n = zeroes;
  im_sb : decode_sb (sect s 1) = msb;
}.

Lemma view_used s b : img_ok s -> 0 <= b -> used msb (view s) b = (b <? freeblock s).
Proof.
  intros [_ _ H _ _] Hb. unfold used. change (view s (sb_bmapstart msb)) with (bitmap (freeblock s)).
  rewrite bitmap_free by lia. by rewrite Z.ltb_antisym.
Qed.

Lemma img_fs_ok s : img_ok s -> fs_ok msb (view s).
Proof.
  intros H. split.
  - rewrite view_sect by done. apply H.
  - intros b Hb. change (sb_bmapstart msb) with 58 in Hb. rewrite view_used by (done || lia).
    apply Z.ltb_lt. pose proof (im_fb _ H). lia.
Qed.

Lemma sect_wsect s sec d n nf nb : sect (mkmst (<[sec := d]> (img s)) (Z.max (nsect s) (sec + 1)) nf nb) n =
  if n =? sec then d else sect s n.
Proof.
  unfold sect. cbn [img]. destruct (Z.eqb_spec n sec) as [->|Hne].
  - by rewrite lookup_insert_eq.
  - by rewrite lookup_insert_ne.
Qed.

Lemma rsect_run s n (Q : block -> mst -> Prop) : img_ok s -> 0 <= n < 1000 -> Q (sect s n) s -> wp (rsect n) s Q.
Proof.
  intros H Hn HQ. unfold rsect. apply wp_bind, wp_gets. rewrite (im_nsect _ H).
  rewrite (proj2 (Z.leb_le _ _)), (proj2 (Z.ltb_lt _ _)) by lia. by apply wp_ret.
Qed.

Definition wrote (sec : Z) (d : block) (s : mst) : mst :=
  mkmst (<[sec := d]> (img s)) (Z.max (nsect s) (sec + 1)) (freeinode s) (freeblock s).

Lemma sect_wrote sec d s n : sect (wrote sec d s) n = if n =? sec then d else sect s n.
Proof. apply sect_wsect. Qed.

Lemma wrote_ok sec d s : img_ok s -> 1 < sec < freeblock s -> length d = BSIZE -> img_ok (wrote sec d s).
Proof.
  intros [H1 H2 H3 H4 H5] Hs Hd. split; [|cbn; lia|done| |].
  - intros n. rewrite sect_wrote. by destruct (n =? sec).
  - intros n Hn. cbn in Hn. rewrite sect_wrote, (proj2 (Z.eqb_neq _ _)) by lia. auto.
  - rewrite sect_wrote, (proj2 (Z.eqb_neq _ _)) by lia. done.
Qed.

(** [freeblock++]. *)
Definition took (s : mst) : mst := mkmst (img s) (nsect s) (freeinode s) (freeblock s + 1).

Lemma took_ok s : img_ok s -> freeblock s < 1000 -> img_ok (took s).
Proof. intros [H1 H2 H3 H4 H5] H. split; [done|done|cbn; lia| |done]. intros n Hn. cbn in Hn. apply H4. lia. Qed.

Lemma new_block_run s (Q : Z -> mst -> Prop) : img_ok s -> freeblock s < 1000 -> Q (freeblock s) (took s) -> wp new_block s Q.
Proof.
  intros H Hf HQ. unfold new_block. apply wp_bind, wp_gets. apply wp_bind, wp_modify. apply wp_ret.
  pose proof (im_fb _ H). by rewrite u32_small by lia.
Qed.

Lemma took_used s b : img_ok s -> freeblock s < 1000 -> 0 <= b ->
  used msb (view (took s)) b = (b =? freeblock s) || used msb (view s) b.
Proof.
  intros H Hf Hb. rewrite !view_used by (done || by apply took_ok). cbn [freeblock took].
  destruct (Z.ltb_spec b (freeblock s + 1)), (Z.eqb_spec b (freeblock s)), (Z.ltb_spec b (freeblock s)); lia || done.
Qed.

(** ** Growing by one block *)

(** The next free block has become slot [m] of the file. *)
Record filled (s : mst) (ad : list Z) (s' : mst) (ad' : list Z) (m : nat) : Prop := {
  fi_img : img_ok s';
  fi_fb : freeblock s' = freeblock s + 1;
  fi_inode : freeinode s' = freeinode s;
  fi_grows : grows msb (view s) ad (view s') ad';
  fi_slot j : (j < NSLOT)%nat -> slot (view s') ad' j = if bool_decide (j = m) then freeblock s else slot (view s) ad j;
  fi_sect n : n <> ind_of ad' \/ (m <= NDIRECT)%nat -> sect s' n = sect s n;
}.

(** The blocks of a file are between the map and the free blocks. *)
Lemma slot_range s ad i : img_ok s -> file_ok msb (view s) ad -> (i < NSLOT)%nat -> slot (view s) ad i <> 0 ->
  58 < slot (view s) ad i < freeblock s.
Proof.
  intros H Hfo Hi Hz. destruct (fo_data _ _ _ Hfo i Hi Hz) as [Hr Hu]. change (sb_bmapstart msb) with 58 in Hr.
  rewrite view_used in Hu by (done || lia). apply Z.ltb_lt in Hu. lia.
Qed.

Lemma take_addr s ad i : img_ok s -> file_ok msb (view s) ad -> (i <= NDIRECT)%nat -> nth i ad 0 = 0 ->
  freeblock s < 1000 -> filled s ad (took s) (<[i := freeblock s]> ad) i.
Proof.
  intros H Hfo Hi Hz Hf. pose proof (im_fb _ H) as Hfb. pose proof (fo_len _ _ _ Hfo) as Hl. pose proof (took_ok s H Hf) as H'.
  assert (Hv : forall n, n <> 58 -> view (took s) n = view s n) by (intros n Hn; by rewrite !view_sect).
  assert (Hs : forall j, (j < NSLOT)%nat -> slot (view (took s)) (<[i := freeblock s]> ad) j =
                 if bool_decide (j = i) then freeblock s else slot (view s) ad j).
  { intros j Hj. assert (Hn : forall j, nth j (<[i := freeblock s]> ad) 0 = if bool_decide (j = i) then freeblock s else nth j ad 0).
    { intros k. apply nth_insert. unfold NDIRECT in *. lia. }
    unfold slot, ind_of. rewrite !Hn. destruct (bool_decide_reflect (j = i)) as [->|Hne].
    { by rewrite bool_decide_true. }
    case_bool_decide; [done|]. destruct (bool_decide_reflect (NDIRECT = i)) as [<-|Hni].
    - rewrite Hz, (proj2 (Z.eqb_neq _ _)) by lia. rewrite view_sect by lia. change (sect (took s)) with (sect s).
      rewrite (im_zero _ H) by lia. apply get32_zero.
    - destruct (Z.eqb_spec (nth NDIRECT ad 0) 0) as [|Hnz]; [done|].
      pose proof (slot_range s ad NDIRECT H Hfo ltac:(unfold NSLOT, NDIRECT; lia) Hnz). rewrite ind_slot in *. unfold ind_of in *.
      by rewrite Hv by lia. }
  split; [done|done|done| |done|done].
  eapply (grow_slot _ _ _ _ _ i (freeblock s)); [by apply img_fs_ok|done|by rewrite length_insert|unfold NSLOT, NDIRECT in *; lia
    | |change (sb_bmapstart msb) with 58; lia|change (sb_size msb) with 1000; lia| | | | |].
  - unfold slot. rewrite bool_decide_true by done. done.
  - rewrite view_used by (done || lia). apply Z.ltb_irrefl.
  - rewrite Hs, bool_decide_true by (done || (unfold NSLOT, NDIRECT in *; lia)). done.
  - intros j Hj Hne. by rewrite Hs, bool_decide_false.
  - intros c Hc. by apply took_used.
  - intros n Hn _ _. by apply Hv.
Qed.

Lemma take_entry s ad j : img_ok s -> file_ok msb (view s) ad -> (j < NINDIRECT)%nat -> ind_of ad <> 0 ->
  slot (view s) ad (13 + j) = 0 -> freeblock s < 1000 ->
  filled s ad (wrote (ind_of ad) (put32 (sect s (ind_of ad)) (4 * j) (freeblock s)) (took s)) ad (13 + j).
Proof.
  intros H Hfo Hj Hnz Hz Hf. pose proof (im_fb _ H) as Hfb. pose proof (took_ok s H Hf) as H1.
  pose proof (slot_range s ad NDIRECT H Hfo ltac:(unfold NSLOT, NDIRECT; lia) Hnz) as Hi. rewrite ind_slot in Hi.
  set (s' := wrote _ _ _). assert (H' : img_ok s').
  { apply wrote_ok; [done|cbn; lia|]. unfold put32. rewrite length_put_bytes. apply H. }
  assert (Hv : forall n, n <> 58 -> view s' n = if n =? ind_of ad then put32 (sect s (ind_of ad)) (4 * j) (freeblock s) else view s n).
  { intros n Hn. rewrite !view_sect by done. unfold s'. rewrite sect_wrote. done. }
  assert (Hs : forall k, (k < NSLOT)%nat -> slot (view s') ad k = if bool_decide (k = 13 + j)%nat then freeblock s else slot (view s) ad k).
  { intros k Hk. unfold slot. destruct (bool_decide_reflect (k <= NDIRECT)%nat) as [Hle|Hgt].
    { unfold NDIRECT in Hle. by rewrite (bool_decide_false (k = _)) by lia. }
    rewrite (proj2 (Z.eqb_neq (ind_of ad) 0)) by done. rewrite Hv, Z.eqb_refl by lia. rewrite view_sect by lia.
    unfold NINDIRECT, NSLOT, NDIRECT in *. pose proof (im_len _ H (ind_of ad)) as Hlen. unfold BSIZE in Hlen.
    destruct (bool_decide_reflect (k = 13 + j)%nat) as [->|E].
    + replace (13 + j - 13)%nat with j by lia. rewrite get32_put32 by lia. apply u32_small. lia.
    + apply get32_other; lia. }
  split; [done|done|done| |done|].
  2:{ intros n [Hn|Hn]; [|unfold NDIRECT in Hn; lia]. unfold s'. rewrite sect_wrote, (proj2 (Z.eqb_neq _ _)) by done. done. }
  assert (13 + j < NSLOT)%nat by (unfold NSLOT, NINDIRECT in *; lia).
  eapply (grow_slot _ _ _ _ _ (13 + j)%nat (freeblock s)); [by apply img_fs_ok|done|apply Hfo|done|done
    |change (sb_bmapstart msb) with 58; lia|change (sb_size msb) with 1000; lia| | | | |].
  - rewrite view_used by (done || lia). apply Z.ltb_irrefl.
  - rewrite Hs, bool_decide_true by done. done.
  - intros k Hk Hne. by rewrite Hs, bool_decide_false.
  - intros c Hc. by rewrite <- took_used, !view_used.
  - intros n Hn _ Ho. rewrite Hv by done. destruct (Z.eqb_spec n (ind_of ad)) as [->|]; [|done].
    exfalso. apply Ho. rewrite <- (ind_slot (view s)). apply owns_slot; [unfold NSLOT, NDIRECT; lia|done].
Qed.

(** ** How many blocks *)

(** The first [m] slots are in use. *)
Definition prefix_slots (v : Z -> block) (ad : list Z) (m : nat) : Prop :=
  forall i, (i < NSLOT)%nat -> slot v ad i <> 0 <-> (i < m)%nat.

(** The slots that [size] bytes take: the data blocks, and the indirect block for
    more than NDIRECT of them. *)
Definition need (size : nat) : nat :=
  let k := ((size + 511) / 512)%nat in if bool_decide (k <= NDIRECT)%nat then k else S k.

Ltac nat_div := repeat match goal with
  | |- context [(?a / 512)%nat] => let q := fresh "q" in let r := fresh "r" in
      pose proof (Nat.div_mod a 512 ltac:(lia)); pose proof (Nat.mod_upper_bound a 512 ltac:(lia));
      set (q := (a / 512)%nat) in *; set (r := (a mod 512)%nat) in *
  end.

Lemma need_ceil size k : (512 * k < size <= 512 * k + 512)%nat -> need size = if bool_decide (k < NDIRECT)%nat then S k else S (S k).
Proof.
  intros H. unfold need. assert (((size + 511) / 512)%nat = S k) as ->.
  { symmetry. apply (Nat.div_unique _ _ _ (size + 511 - 512 * S k)); lia. }
  repeat case_bool_decide; lia.
Qed.

(** At a byte that is not the first of its block the block is there. *)
Lemma need_inside off n : (0 < n <= 512 - off mod 512)%nat ->
  need (off + n) = if bool_decide (off / 512 < NDIRECT)%nat then S (off / 512) else S (S (off / 512)).
Proof.
  intros H. apply need_ceil. pose proof (Nat.div_mod off 512 ltac:(lia)). pose proof (Nat.mod_upper_bound off 512 ltac:(lia)). lia.
Qed.

Lemma need_boundary off : (off mod 512 = 0)%nat ->
  need off = if bool_decide (off / 512 <= NDIRECT)%nat then (off / 512)%nat else S (off / 512).
Proof.
  intros H. unfold need. assert (((off + 511) / 512)%nat = (off / 512)%nat) as ->; [|done].
  symmetry. pose proof (Nat.div_mod off 512 ltac:(lia)). apply (Nat.div_unique _ _ _ 511); lia.
Qed.

Lemma need_mono a b : (a <= b)%nat -> (need a <= need b)%nat.
Proof.
  intros H. unfold need. pose proof (Nat.Div0.div_le_mono (a + 511) (b + 511) 512 ltac:(lia)).
  repeat case_bool_decide; lia.
Qed.

Lemma filled_prefix s ad s' ad' m : img_ok s -> filled s ad s' ad' m -> (m < NSLOT)%nat ->
  prefix_slots (view s) ad m -> prefix_slots (view s') ad' (S m).
Proof.
  intros H F Hm Hp i Hi. rewrite (fi_slot _ _ _ _ _ F) by done. pose proof (im_fb _ H).
  case_bool_decide; [lia|]. rewrite (Hp i Hi). lia.
Qed.

(** The file has gained its slots from [m] to [m']. *)
Record provided (s : mst) (ad : list Z) (m : nat) (s' : mst) (ad' : list Z) (m' : nat) : Prop := {
  pr_img : img_ok s';
  pr_fb : freeblock s' + Z.of_nat m = freeblock s + Z.of_nat m';
  pr_inode : freeinode s' = freeinode s;
  pr_grows : grows msb (view s) ad (view s') ad';
  pr_slots : prefix_slots (view s') ad' m';
  pr_data k : (k < 140)%nat -> addr_of (view s) ad k <> 0 -> sect s' (addr_of (view s) ad k) = sect s (addr_of (view s) ad k);
  pr_zero k : (k < 140)%nat -> addr_of (view s) ad k = 0 -> addr_of (view s') ad' k <> 0 -> sect s' (addr_of (view s') ad' k) = zeroes;
  pr_owned n : freeblock s <= n < freeblock s' -> owns (view s') ad' n;
}.

Lemma provided_refl s ad m : img_ok s -> file_ok msb (view s) ad -> prefix_slots (view s) ad m -> provided s ad m s ad m.
Proof. intros H Hfo Hp. split; try done; try lia. apply grows_refl; [by apply img_fs_ok|done]. Qed.

Lemma filled_provided s ad s' ad' m : img_ok s -> file_ok msb (view s) ad -> (m < NSLOT)%nat -> prefix_slots (view s) ad m ->
  filled s ad s' ad' m -> provided s ad m s' ad' (S m).
Proof.
  intros H Hfo Hm Hp F. pose proof (im_fb _ H) as Hfb.
  assert (Hind : (NDIRECT < m)%nat -> ind_of ad' = ind_of ad).
  { intros Hlt. pose proof (fi_slot _ _ _ _ _ F NDIRECT ltac:(unfold NSLOT, NDIRECT; lia)) as E.
    by rewrite bool_decide_false, !ind_slot in E by lia. }
  pose proof F as [F1 F2 F3 F4 F5 F6]. split; [done|lia|done|done|by apply (filled_prefix s ad)| | |].
  - intros k Hk Hz. apply F6. destruct (decide (m <= NDIRECT)%nat); [by right|left]. rewrite Hind by lia.
    by apply (addr_mapped _ _ _ _ Hfo).
  - intros k Hk E Hz. pose proof (slot_of_lt k Hk) as [Hs _]. unfold addr_of in *. pose proof (F5 _ Hs) as E'. rewrite E' in *.
    case_bool_decide; [|done]. rewrite F6; [apply (im_zero _ H); lia|].
    destruct (decide (m <= NDIRECT)%nat); [by right|left]. rewrite Hind by lia. destruct (Z.eq_dec (ind_of ad) 0) as [->|Hnz]; [lia|].
    pose proof (slot_range s ad NDIRECT H Hfo ltac:(unfold NSLOT, NDIRECT; lia) Hnz). rewrite ind_slot in *. lia.
  - intros n Hn. assert (n = freeblock s) as -> by lia. pose proof (F5 m Hm) as E. rewrite bool_decide_true in E by done.
    rewrite <- E. apply owns_slot; [done|]. lia.
Qed.

Lemma provided_trans s ad m s1 ad1 m1 s2 ad2 m2 :
  provided s ad m s1 ad1 m1 -> provided s1 ad1 m1 s2 ad2 m2 -> provided s ad m s2 ad2 m2.
Proof.
  intros [A1 A2 A3 A4 A5 A6 A7 A8] [B1 B2 B3 B4 B5 B6 B7 B8]. split; [done|lia|congruence|by eapply grows_trans|done| | |].
  - intros k Hk Hz. rewrite <- A6 by done. rewrite <- (addr_grows _ _ _ _ _ k A4) by done. apply B6; [done|].
    by rewrite (addr_grows _ _ _ _ _ k A4).
  - intros k Hk Hz Hz'. destruct (Z.eq_dec (addr_of (view s1) ad1 k) 0) as [E|E]; [by apply B7|].
    rewrite (addr_grows _ _ _ _ _ k B4) by done. rewrite B6 by done. by apply A7.
  - intros n Hn. destruct (Z_lt_le_dec n (freeblock s1)) as [Hlt|Hge]; [|apply B8; lia].
    destruct (A8 n ltac:(lia)) as (Hz & i & Hi & E). split; [done|]. exists i. split; [done|].
    rewrite (gr_slot _ _ _ _ _ B4); [done|done|congruence].
Qed.

(** ** [file_block] *)

Lemma slot_addr v ad i : (i <= NDIRECT)%nat -> slot v ad i = nth i ad 0.
Proof. intros H. unfold slot. by rewrite bool_decide_true. Qed.

(** Block numbers fit an [uint]. *)
Lemma slot_fits s ad i : img_ok s -> file_ok msb (view s) ad -> (i < NSLOT)%nat -> 0 <= slot (view s) ad i < 1000.
Proof.
  intros H Hfo Hi. destruct (Z.eq_dec (slot (view s) ad i) 0) as [->|Hz]; [lia|].
  pose proof (slot_range s ad i H Hfo Hi Hz). pose proof (im_fb _ H). lia.
Qed.

(** [addr_block] for the next slot or one that is there. *)
Lemma addr_block_run s din i m (Q : inode -> mst -> Prop) : img_ok s -> file_ok msb (view s) (i_addrs din) ->
  (i <= NDIRECT)%nat -> (i <= m <= NSLOT)%nat -> prefix_slots (view s) (i_addrs din) m -> (i = m -> freeblock s < 1000) ->
  (forall s' ad', provided s (i_addrs din) m s' ad' (Nat.max m (S i)) -> Q (set_addrs ad' din) s') ->
  wp (addr_block i din) s Q.
Proof.
  intros H Hfo Hi Hm Hp Hf HQ. unfold addr_block. assert (i < NSLOT)%nat as Hi' by (unfold NSLOT, NDIRECT in *; lia).
  pose proof (slot_fits s _ i H Hfo Hi') as Hb. pose proof (Hp i Hi') as Hpi. rewrite slot_addr in Hb, Hpi by done.
  rewrite xint_small by lia. pose proof (im_fb _ H). destruct (Z.eqb_spec (nth i (i_addrs din) 0) 0) as [E|E].
  - assert (i = m) as <- by lia. specialize (Hf eq_refl). apply wp_bind, new_block_run; [done|done|]. apply wp_ret.
    rewrite xint_small by lia. replace (set_addr i (freeblock s) din) with (set_addrs (<[i := freeblock s]> (i_addrs din)) din) by done.
    apply HQ. rewrite Nat.max_r by lia. apply filled_provided; [done|done|done|done|]. by apply take_addr.
  - apply wp_ret. replace din with (set_addrs (i_addrs din) din) by (by destruct din). apply HQ.
    rewrite Nat.max_l by lia. destruct din. by apply provided_refl.
Qed.

Lemma provided_ok s ad m s' ad' m' : provided s ad m s' ad' m' -> img_ok s' /\ file_ok msb (view s') ad' /\ prefix_slots (view s') ad' m'.
Proof. intros [H1 _ _ H2 H3 _ _ _]. split_and!; [done|apply H2|done]. Qed.

Lemma set_addrs_twice ad ad' x : set_addrs ad (set_addrs ad' x) = set_addrs ad x.
Proof. done. Qed.

(** The entry of the indirect block that [fbn] uses. *)
Lemma entry_run s din j m (Q : inode * Z -> mst -> Prop) : img_ok s -> file_ok msb (view s) (i_addrs din) ->
  (j < NINDIRECT)%nat -> (13 + j <= m <= NSLOT)%nat -> prefix_slots (view s) (i_addrs din) m -> ((13 + j)%nat = m -> freeblock s < 1000) ->
  (forall s' ad', provided s (i_addrs din) m s' ad' (Nat.max m (S (13 + j))) -> Q (set_addrs ad' din, slot (view s') ad' (13 + j)) s') ->
  wp (let ind := xint (nth NDIRECT (i_addrs din) 0) in
      let! indirect := rsect ind in
      if get32 indirect (4 * j) =? 0 then
        let! b := new_block in
        let indirect := put32 indirect (4 * j) (xint b) in
        wsect ind indirect ;;
        ret (din, xint (get32 indirect (4 * j)))
      else ret (din, xint (get32 indirect (4 * j)))) s Q.
Proof.
  intros H Hfo Hj Hm Hp Hf HQ. pose proof (im_fb _ H) as Hfb.
  assert (13 + j < NSLOT)%nat as Hj' by (unfold NSLOT, NINDIRECT in *; lia).
  assert (ind_of (i_addrs din) <> 0) as Hnz.
  { rewrite <- (ind_slot (view s)). apply Hp; unfold NSLOT, NDIRECT in *; lia. }
  pose proof (slot_range s _ NDIRECT H Hfo ltac:(unfold NSLOT, NDIRECT; lia) Hnz) as Hi. rewrite ind_slot in Hi.
  change (nth NDIRECT (i_addrs din) 0) with (ind_of (i_addrs din)). cbv zeta. rewrite (xint_small (ind_of _)) by lia.
  apply wp_bind, rsect_run; [done|lia|].
  assert (Hs : slot (view s) (i_addrs din) (13 + j) = get32 (sect s (ind_of (i_addrs din))) (4 * j)).
  { unfold slot. rewrite bool_decide_false by (unfold NDIRECT; lia). rewrite (proj2 (Z.eqb_neq _ 0)) by done.
    rewrite view_sect by lia. f_equal. lia. }
  pose proof (slot_fits s _ _ H Hfo Hj') as Hfit. pose proof (Hp _ Hj') as Hpj. rewrite Hs in Hfit, Hpj.
  destruct (Z.eqb_spec (get32 (sect s (ind_of (i_addrs din))) (4 * j)) 0) as [E|E].
  - assert (13 + j = m)%nat as <- by lia. specialize (Hf eq_refl). apply wp_bind, new_block_run; [done|done|].
    apply wp_bind, wp_modify, wp_ret. rewrite (xint_small (freeblock s)) by lia.
    pose proof (take_entry s _ j H Hfo Hj Hnz ltac:(congruence) Hf) as F. fold (wrote (ind_of (i_addrs din)) (put32 (sect s (ind_of (i_addrs din))) (4 * j) (freeblock s)) (took s)).
    replace din with (set_addrs (i_addrs din) din) at 1 by (by destruct din).
    rewrite get32_put32 by (rewrite (im_len _ H); unfold NINDIRECT, BSIZE in *; lia).
    rewrite xint_u32, u32_u32, u32_small by lia.
    replace (freeblock s) with (slot (view (wrote (ind_of (i_addrs din)) (put32 (sect s (ind_of (i_addrs din))) (4 * j) (freeblock s)) (took s))) (i_addrs din) (13 + j)) at 1.
    2:{ rewrite (fi_slot _ _ _ _ _ F) by done. by rewrite bool_decide_true. }
    apply HQ. rewrite Nat.max_r by lia. by apply filled_provided.
  - apply wp_ret. replace din with (set_addrs (i_addrs din) din) at 1 by (by destruct din). rewrite xint_small, <- Hs by lia. apply HQ.
    rewrite Nat.max_l by lia. by apply provided_refl.
Qed.

(** [m] slots are in use, and block [bn] of the file is one of them or the next. *)
Definition reaches (bn m : nat) : Prop := (slot_of bn <= m)%nat \/ bn = NDIRECT /\ m = NDIRECT.

Lemma file_block_run s din bn m (Q : inode * Z -> mst -> Prop) : img_ok s -> file_ok msb (view s) (i_addrs din) ->
  (bn < 140)%nat -> reaches bn m -> (m <= NSLOT)%nat -> prefix_slots (view s) (i_addrs din) m ->
  freeblock s + Z.of_nat (Nat.max m (S (slot_of bn))) - Z.of_nat m <= 1000 ->
  (forall s' ad', provided s (i_addrs din) m s' ad' (Nat.max m (S (slot_of bn))) -> Q (set_addrs ad' din, addr_of (view s') ad' bn) s') ->
  wp (file_block (Z.of_nat bn) din) s Q.
Proof.
  intros H Hfo Hbn Hre Hm Hp Hf HQ. unfold file_block. rewrite Nat2Z.id. unfold reaches, slot_of, addr_of in *.
  destruct (Z.ltb_spec (Z.of_nat bn) (Z.of_nat NDIRECT)) as [Hd|Hd]; unfold slot_of in *.
  - rewrite (bool_decide_true (bn < NDIRECT)%nat) in * by lia. apply wp_bind. apply (addr_block_run s din bn m); [done|done|lia|lia|done|lia|].
    intros s' ad' P. apply wp_ret. cbn [i_addrs set_addrs]. destruct (provided_ok _ _ _ _ _ _ P) as (H' & Hfo' & _).
    rewrite <- (slot_addr (view s')) by lia. pose proof (slot_fits s' ad' bn H' Hfo' ltac:(unfold NSLOT, NDIRECT in *; lia)).
    rewrite xint_small by lia. by apply HQ.
  - rewrite (bool_decide_false (bn < NDIRECT)%nat) in * by lia. apply wp_bind. unfold NDIRECT in Hd, Hre.
    apply (addr_block_run s din NDIRECT m); [done|done|lia|unfold NDIRECT; lia|done|unfold NDIRECT; lia|].
    intros s1 ad1 P1. destruct (provided_ok _ _ _ _ _ _ P1) as (H1 & Hfo1 & Hp1). pose proof (pr_fb _ _ _ _ _ _ P1) as Hfb.
    set (m1 := Nat.max m (S NDIRECT)) in *. assert (Nat.max m1 (S (13 + (bn - NDIRECT))) = Nat.max m (S (S bn))) as Em by (unfold m1, NDIRECT in *; lia).
    apply (entry_run s1 (set_addrs ad1 din) (bn - NDIRECT) m1); [done|done|unfold NINDIRECT, NDIRECT in *; lia|unfold m1, NDIRECT, NSLOT in *; lia|done|unfold NDIRECT in *; lia|].
    cbn [i_addrs set_addrs]. intros s' ad' P2. rewrite Em in P2. replace (13 + (bn - NDIRECT))%nat with (S bn) by (unfold NDIRECT; lia).
    apply HQ. by eapply provided_trans.
Qed.

(** ** Views that are equal everywhere *)

Section Ext.
Context (v v' : Z -> block) (E : forall n, v' n = v n).

Lemma slot_ext ad i : slot v' ad i = slot v ad i.
Proof. unfold slot. by rewrite E. Qed.

Lemma used_ext sb b : used sb v' b = used sb v b.
Proof. unfold used. by rewrite E. Qed.

Lemma fbyte_ext ad i : fbyte v' ad i = fbyte v ad i.
Proof. unfold fbyte, addr_of. by rewrite slot_ext, E. Qed.

Lemma owns_ext ad n : owns v' ad n <-> owns v ad n.
Proof. unfold owns. by setoid_rewrite slot_ext. Qed.

Lemma fs_ok_ext sb : fs_ok sb v -> fs_ok sb v'.
Proof. intros [H1 H2]. split; [by rewrite E|]. intros b. rewrite used_ext. apply H2. Qed.

Lemma file_ok_ext sb ad : file_ok sb v ad -> file_ok sb v' ad.
Proof. intros [H1 H2 H3]. split; [done| |]; intros *; rewrite !slot_ext, ?used_ext; auto. Qed.

Lemma grows_ext sb v0 ad0 ad : grows sb v0 ad0 v ad -> grows sb v0 ad0 v' ad.
Proof.
  intros [H1 H2 H3 H4 H5 H6]. split; [by apply fs_ok_ext|by apply file_ok_ext| | | |]; intros *;
    rewrite ?used_ext, ?owns_ext, ?E, ?slot_ext; auto.
Qed.

End Ext.

Lemma view_wrote sec d s n : sec <> 58 -> view (wrote sec d s) n = write_disk sec d (view s) n.
Proof.
  intros Hs. rewrite write_disk_at. destruct (Z.eq_dec n 58) as [->|Hn].
  - by rewrite (proj2 (Z.eqb_neq _ _)).
  - by rewrite !view_sect, sect_wrote.
Qed.

(** ** Appending *)

(** A file of [off] bytes, its last block filled up with zeros. *)
Record part (s : mst) (ad : list Z) (off : nat) : Prop := {
  pa_img : img_ok s;
  pa_file : file_ok msb (view s) ad;
  pa_slots : prefix_slots (view s) ad (need off);
  pa_tail i : (off <= i)%nat -> Z.of_nat i < MAXSIZE -> addr_of (view s) ad (i / 512) <> 0 -> fbyte (view s) ad i = 0;
}.

(** [bs] has been appended to it. *)
Record appended (s : mst) (ad : list Z) (off : nat) (bs : list Z) (s' : mst) (ad' : list Z) : Prop := {
  ap_part : part s' ad' (off + length bs);
  ap_grows : grows msb (view s) ad (view s') ad';
  ap_old i : (i < off)%nat -> fbyte (view s') ad' i = fbyte (view s) ad i;
  ap_new i : (i < length bs)%nat -> fbyte (view s') ad' (off + i) = nth i bs 0;
  ap_fb : freeblock s' + Z.of_nat (need off) = freeblock s + Z.of_nat (need (off + length bs));
  ap_inode : freeinode s' = freeinode s;
  ap_owned n : freeblock s <= n < freeblock s' -> owns (view s') ad' n;
}.

Lemma appended_nil s ad off : part s ad off -> appended s ad off [] s ad.
Proof.
  intros P. pose proof P as [H1 H2 _ _]. split; cbn [length]; rewrite ?Nat.add_0_r; try done; try lia.
  apply grows_refl; [by apply img_fs_ok|done].
Qed.

Lemma appended_app s ad off b1 s1 ad1 b2 s2 ad2 :
  appended s ad off b1 s1 ad1 -> appended s1 ad1 (off + length b1) b2 s2 ad2 -> appended s ad off (b1 ++ b2) s2 ad2.
Proof.
  intros [A1 A2 A3 A4 A5 A6 A7] [B1 B2 B3 B4 B5 B6 B7].
  split; [by rewrite length_app, Nat.add_assoc|by eapply grows_trans| | |rewrite length_app, Nat.add_assoc; lia|congruence|].
  - intros i Hi. by rewrite B3, A3 by lia.
  - intros i Hi. rewrite length_app in Hi. destruct (decide (i < length b1)%nat) as [Hl|Hl].
    + rewrite B3, A4, app_nth1 by lia. done.
    + rewrite app_nth2 by lia. rewrite <- B4 by lia. f_equal. lia.
  - intros n Hn. destruct (Z_lt_le_dec n (freeblock s1)) as [Hlt|Hge]; [|apply B7; lia].
    destruct (A7 n ltac:(lia)) as (Hz & i & Hi & E). split; [done|]. exists i. split; [done|].
    rewrite (gr_slot _ _ _ _ _ B2); [done|done|congruence].
Qed.

(** Which slot the byte at [off] needs. *)
Lemma need_reaches off : reaches (off / 512) (need off) /\ Nat.max (need off) (S (slot_of (off / 512))) = need (off + 1).
Proof.
  pose proof (Nat.mod_upper_bound off 512 ltac:(lia)).
  rewrite need_inside by lia. unfold reaches, slot_of. destruct (decide (off mod 512 = 0)%nat) as [E|E].
  - rewrite need_boundary by done. split; repeat case_bool_decide; lia.
  - assert (need off = if bool_decide (off / 512 < NDIRECT)%nat then S (off / 512) else S (S (off / 512))) as ->.
    { apply need_ceil. pose proof (Nat.div_mod off 512 ltac:(lia)). lia. }
    split; repeat case_bool_decide; lia.
Qed.

Lemma need_max off : Z.of_nat off <= MAXSIZE -> (need off <= NSLOT)%nat.
Proof.
  intros H. unfold need, NSLOT, MAXSIZE in *. assert ((off + 511) / 512 < 141)%nat by (apply Nat.Div0.div_lt_upper_bound; lia).
  case_bool_decide; lia.
Qed.

Lemma need_slot i off : (i < off)%nat -> (slot_of (i / 512) < need off)%nat.
Proof.
  intros H. destruct (need_reaches i) as [_ E]. pose proof (need_mono (i + 1) off ltac:(lia)). lia.
Qed.

Lemma part_mapped s ad off i : part s ad off -> (i < off)%nat -> Z.of_nat i < MAXSIZE -> addr_of (view s) ad (i / 512) <> 0.
Proof.
  intros P Hi Hm. apply (pa_slots _ _ _ P); [|by apply need_slot].
  apply slot_of_lt. apply Nat.Div0.div_lt_upper_bound. unfold MAXSIZE in *. lia.
Qed.

(** The bytes of the file once it has more blocks. *)
Lemma provided_bytes s ad off s1 ad1 m1 i : part s ad off -> provided s ad (need off) s1 ad1 m1 -> Z.of_nat i < MAXSIZE ->
  addr_of (view s1) ad1 (i / 512) <> 0 -> fbyte (view s1) ad1 i = if bool_decide (i < off)%nat then fbyte (view s) ad i else 0.
Proof.
  intros Hp P Hi Hz. assert (Hb : (i / 512 < 140)%nat) by (apply Nat.Div0.div_lt_upper_bound; unfold MAXSIZE in *; lia).
  destruct (provided_ok _ _ _ _ _ _ P) as (H1 & Hfo1 & _).
  assert (Hns : forall s ad, img_ok s -> file_ok msb (view s) ad -> addr_of (view s) ad (i / 512) <> 0 ->
            view s (addr_of (view s) ad (i / 512)) = sect s (addr_of (view s) ad (i / 512))).
  { intros s0 ad0 H Hfo Hnz. apply view_sect. pose proof (slot_range s0 ad0 _ H Hfo (proj1 (slot_of_lt _ Hb)) Hnz). unfold addr_of in *. lia. }
  destruct (Z.eq_dec (addr_of (view s) ad (i / 512)) 0) as [E|E].
  - rewrite bool_decide_false by (intros Hlt; by apply (part_mapped s ad off i)). unfold fbyte.
    rewrite (Hns s1 ad1), (pr_zero _ _ _ _ _ _ P) by done. unfold zeroes. by rewrite nth_repeat.
  - assert (fbyte (view s1) ad1 i = fbyte (view s) ad i) as ->.
    { pose proof (addr_grows _ _ _ _ _ _ (pr_grows _ _ _ _ _ _ P) Hb E) as Ea. unfold fbyte.
      rewrite (Hns s1 ad1) by done. rewrite Ea, (pr_data _ _ _ _ _ _ P), (Hns s ad) by (done || apply Hp). done. }
    case_bool_decide; [done|]. apply (pa_tail _ _ _ Hp); [lia|done|done].
Qed.

(** One turn of the loop: the block is there and the bytes are put into it. *)
Section Turn.
Context (s : mst) (ad : list Z) (off : nat) (bs : list Z) (s1 : mst) (ad1 : list Z).
Context (P0 : part s ad off) (Hbs : (0 < length bs <= 512 - off mod 512)%nat) (Hoff : Z.of_nat off < MAXSIZE).
Context (P : provided s ad (need off) s1 ad1 (need (off + 1))).
Let bn := (off / 512)%nat.
Let x := addr_of (view s1) ad1 bn.
Let d := put_bytes (sect s1 x) (off mod 512) bs.
Let s2 := wrote x d s1.

Local Lemma tn_bn : (bn < 140)%nat /\ off = (512 * bn + off mod 512)%nat /\ (off mod 512 < 512)%nat.
Proof.
  unfold bn. split; [apply Nat.Div0.div_lt_upper_bound; unfold MAXSIZE in *; lia|]. split; [by apply Nat.div_mod|by apply Nat.mod_upper_bound].
Qed.

Local Lemma tn_addr : x <> 0 /\ 58 < x < freeblock s1.
Proof.
  destruct (provided_ok _ _ _ _ _ _ P) as (H1 & Hfo1 & Hp1). destruct (slot_of_lt bn (proj1 tn_bn)) as [Hsl _].
  assert (Hx : x <> 0). { apply Hp1; [done|]. destruct (need_reaches off) as [_ <-]. unfold bn. lia. }
  split; [done|]. by apply (slot_range s1 ad1 _ H1 Hfo1 Hsl).
Qed.

Local Lemma tn_img : img_ok s2.
Proof.
  pose proof tn_addr as [_ Hx]. apply wrote_ok; [apply P|lia|]. unfold d. rewrite length_put_bytes. apply P.
Qed.

Local Lemma tn_view n : view s2 n = write_disk x d (view s1) n.
Proof. pose proof tn_addr. apply view_wrote. lia. Qed.

Local Lemma tn_grows : grows msb (view s1) ad1 (view s2) ad1.
Proof.
  destruct (provided_ok _ _ _ _ _ _ P) as (H1 & Hfo1 & _). eapply grows_ext; [exact tn_view|].
  apply grow_data; [change (sb_bmapstart msb) with 58; lia|by apply img_fs_ok|done|apply tn_bn|apply tn_addr].
Qed.

Local Lemma tn_slot i : slot (view s2) ad1 i = slot (view s1) ad1 i.
Proof.
  destruct (provided_ok _ _ _ _ _ _ P) as (_ & Hfo1 & _). rewrite (slot_ext _ _ tn_view). apply slot_write.
  apply (addr_mapped msb); [done|apply tn_bn|apply tn_addr].
Qed.

(** The bytes of the file are the old ones, the new ones and zeros. *)
Local Lemma tn_byte i : Z.of_nat i < MAXSIZE -> addr_of (view s1) ad1 (i / 512) <> 0 -> fbyte (view s2) ad1 i =
  if bool_decide (off <= i < off + length bs)%nat then nth (i - off) bs 0
  else if bool_decide (i < off)%nat then fbyte (view s) ad i else 0.
Proof.
  intros Hi Hz. destruct (provided_ok _ _ _ _ _ _ P) as (H1 & Hfo1 & _). destruct tn_bn as (Hbn & Hdm & Hmo). pose proof tn_addr as [Hx Hr].
  rewrite (fbyte_ext _ _ tn_view). unfold x. rewrite (fbyte_write msb), <- (provided_bytes s ad off s1 ad1 (need (off + 1)) i) by done.
  pose proof (Nat.div_mod i 512 ltac:(lia)) as Hdi. pose proof (Nat.mod_upper_bound i 512 ltac:(lia)).
  destruct (bool_decide_reflect (i / 512 = bn)%nat) as [Eb|Eb].
  - unfold d. rewrite nth_put_bytes by (rewrite (im_len _ H1); unfold BSIZE; lia).
    destruct (bool_decide_reflect (off <= i < off + length bs)%nat).
    + rewrite bool_decide_true by lia. f_equal. lia.
    + rewrite bool_decide_false by lia. unfold fbyte. rewrite Eb. fold x. rewrite view_sect by lia. done.
  - rewrite bool_decide_false; [done|]. intros Hin. apply Eb. unfold bn.
    symmetry. apply (Nat.div_unique _ _ _ (off mod 512 + (i - off))); lia.
Qed.

Lemma append_block : 58 < x < freeblock s1 /\ appended s ad off bs s2 ad1.
Proof.
  split; [apply tn_addr|]. destruct (provided_ok _ _ _ _ _ _ P) as (_ & _ & Hp1). destruct tn_bn as (Hbn & Hdm & Hmo).
  assert (Hneed : need (off + length bs) = need (off + 1)) by (rewrite !need_inside by lia; done).
  assert (Hmax : Z.of_nat (off + length bs) <= MAXSIZE) by (unfold MAXSIZE; lia).
  assert (Hma : forall i, (i < off + length bs)%nat -> addr_of (view s1) ad1 (i / 512) <> 0).
  { intros i Hi. apply Hp1; [|rewrite <- Hneed; by apply need_slot]. apply slot_of_lt, Nat.Div0.div_lt_upper_bound.
    unfold MAXSIZE in *. lia. }
  split; [split; [apply tn_img|apply tn_grows| |]| | | |rewrite Hneed; apply P|apply P|].
  - intros i Hi. rewrite tn_slot, Hneed. by apply Hp1.
  - intros i Hi Hm Hz. unfold addr_of in Hz. rewrite tn_slot in Hz. rewrite tn_byte by done. by rewrite !bool_decide_false by lia.
  - eapply grows_trans; [apply P|exact tn_grows].
  - intros i Hi. rewrite tn_byte by (lia || apply Hma; lia). by rewrite bool_decide_false, bool_decide_true by lia.
  - intros i Hi. rewrite tn_byte by (lia || apply Hma; lia). rewrite bool_decide_true by lia. f_equal. lia.
  - intros n Hn. destruct (pr_owned _ _ _ _ _ _ P n Hn) as (Hz & i & Hi & E). split; [done|]. exists i. split; [done|]. by rewrite tn_slot.
Qed.

End Turn.

Lemma iappend_loop_run fuel : forall s din off p, part s (i_addrs din) off -> Z.of_nat (off + length p) <= MAXSIZE ->
  freeblock s + Z.of_nat (need (off + length p)) <= 1000 + Z.of_nat (need off) -> (length p <= fuel)%nat ->
  wp (iappend_loop fuel din (Z.of_nat off) p) s
    (fun r s' => exists ad', r = (set_addrs ad' din, Z.of_nat (off + length p)) /\ appended s (i_addrs din) off p s' ad').
Proof.
  induction fuel as [|fuel IH]; intros s din off p P Hmax Hfb Hk; (destruct p as [|c p]; [|cbn [length] in *; try lia]).
  1,2: (apply wp_ret; exists (i_addrs din); cbn [length]; rewrite Nat.add_0_r; split; [by destruct din|by apply appended_nil]).
  set (p0 := c :: p) in *. change (S (length p)) with (length p0) in *. change (iappend_loop (S fuel) din (Z.of_nat off) p0) with
    (let fbn := Z.of_nat off / SECT in
     assert (fbn <? MAXFILE) ;;
     let! (din, x) := file_block fbn din in
     let n1 := Z.to_nat (Z.min (Z.of_nat (length p0)) ((fbn + 1) * SECT - Z.of_nat off)) in
     let! buf := rsect x in
     wsect x (put_bytes buf (Z.to_nat (Z.of_nat off - fbn * SECT)) (take n1 p0)) ;;
     iappend_loop fuel din (Z.of_nat off + Z.of_nat n1) (drop n1 p0)).
  cbv zeta. unfold SECT. rewrite off_div. pose proof (Nat.div_mod off 512 ltac:(lia)) as Hdm.
  pose proof (Nat.mod_upper_bound off 512 ltac:(lia)). assert (Hp0 : length p0 = S (length p)) by done.
  set (bn := (off / 512)%nat) in *. assert (Hbn : (bn < 140)%nat) by (apply Nat.Div0.div_lt_upper_bound; unfold MAXSIZE in *; lia).
  set (n1 := Z.to_nat (Z.min _ _)). assert (Hn1 : n1 = Nat.min (length p0) (512 - off mod 512)) by (unfold n1; lia).
  replace (Z.to_nat (Z.of_nat off - Z.of_nat bn * 512)) with (off mod 512)%nat by lia.
  rewrite (proj2 (Z.ltb_lt _ _)) by (unfold MAXFILE; lia). apply wp_bind, wp_ret.
  destruct (need_reaches off) as [Hre Hnm]. fold bn in Hre, Hnm. pose proof (need_mono (off + 1) (off + length p0) ltac:(lia)).
  apply wp_bind. apply (file_block_run s din bn (need off)); [apply P|apply P|done|done|apply need_max; lia|apply P|rewrite Hnm; lia|].
  rewrite Hnm. intros s1 ad1 P1. cbn beta iota.
  assert (Htk : length (take n1 p0) = n1) by (rewrite length_take; lia).
  destruct (append_block s (i_addrs din) off (take n1 p0) s1 ad1 P ltac:(rewrite Htk; lia) ltac:(lia) P1) as [Hx A].
  fold bn in Hx, A. pose proof (pr_img _ _ _ _ _ _ P1) as H1. pose proof (im_fb _ H1).
  apply wp_bind, rsect_run; [done|lia|]. apply wp_bind, wp_modify.
  match goal with |- context [mkmst ?a ?b ?c ?d] => change (mkmst a b c d) with
    (wrote (addr_of (view s1) ad1 bn) (put_bytes (sect s1 (addr_of (view s1) ad1 bn)) (off mod 512) (take n1 p0)) s1) end.
  set (s2 := wrote _ _ _) in *. rewrite <- Nat2Z.inj_add.
  pose proof (ap_part _ _ _ _ _ _ A) as P2. pose proof (ap_fb _ _ _ _ _ _ A) as F2. rewrite Htk in P2, F2.
  assert (Hrest : (off + n1 + length (drop n1 p0))%nat = (off + length p0)%nat) by (rewrite length_drop; lia).
  eapply wp_mono; [apply (IH s2 (set_addrs ad1 din) (off + n1)%nat (drop n1 p0)); [done|by rewrite Hrest|rewrite Hrest; lia|rewrite length_drop; lia]|].
  cbn [i_addrs set_addrs]. intros r s' (ad' & -> & A2). exists ad'. rewrite Hrest. split; [done|].
  rewrite <- (take_drop n1 p0). eapply appended_app; [exact A|]. by rewrite Htk.
Qed.
