(* ===== verification/MkfsImage.v ===== *)
(** * The image ([mkfs.c]: [ialloc], [iappend], [main])

    The inodes handed out so far hold the bytes appended to them, and their
    blocks are all the blocks handed out. *)
From S2P Require Import Prelude Str Sleeplock Bio Log LogSpec LogOps Tx Fs FsBlocks FsInode FsFiles FsContents FsDirs FsSpec FileSpec FsPath Mkfs MkfsFiles.

(** ** Blocks that stay *)

Section Kept.
Context (v v' : Z -> block) (ad : list Z) (HK : forall n, owns v ad n -> v' n = v n).

Lemma kept_slot i : slot v' ad i = slot v ad i.
Proof.
  unfold slot. case_bool_decide; [done|]. destruct (Z.eqb_spec (ind_of ad) 0) as [|Hz]; [done|].
  rewrite HK; [done|]. rewrite <- (ind_slot v). apply owns_slot; [unfold NSLOT, NDIRECT; lia|done].
Qed.

Lemma kept_owns n : owns v' ad n <-> owns v ad n.
Proof. unfold owns. by setoid_rewrite kept_slot. Qed.

Lemma kept_fbyte i : Z.of_nat i < MAXSIZE -> addr_of v ad (i / 512) <> 0 -> fbyte v' ad i = fbyte v ad i.
Proof.
  intros Hi Hz. unfold fbyte, addr_of in *. rewrite kept_slot, HK; [done|]. apply owns_slot; [|done].
  apply slot_of_lt, Nat.Div0.div_lt_upper_bound. unfold MAXSIZE in *. lia.
Qed.

End Kept.

Lemma kept_part s s' ad off : (forall n, owns (view s) ad n -> view s' n = view s n) -> img_ok s' -> freeblock s <= freeblock s' ->
  part s ad off -> part s' ad off.
Proof.
  intros HK H' Hf [H1 [L1 L2 L3] H3 H4]. pose proof (kept_slot _ _ _ HK) as Hs. split; [done|split; [done| |]| |].
  - intros i Hi Hz. rewrite Hs in *. destruct (L2 i Hi Hz) as [Hr Hu]. split; [done|]. change (sb_bmapstart msb) with 58 in Hr.
    rewrite view_used in * by (done || lia). apply Z.ltb_lt in Hu. apply Z.ltb_lt. lia.
  - intros i j. rewrite !Hs. apply L3.
  - intros i Hi. rewrite Hs. by apply H3.
  - intros i Hi Hm Hz. unfold addr_of in Hz. rewrite Hs in Hz. rewrite (kept_fbyte _ _ _ HK) by done. by apply H4.
Qed.

(** ** Inodes of the image *)

Lemma iblock_range n : 0 <= n < 200 -> 31 < IBLOCK n msb < 58.
Proof.
  intros Hn. unfold IBLOCK, IPB. change (sb_inodestart msb) with 32. rewrite u32_small; Z.to_euclidean_division_equations; lia.
Qed.

Lemma rinode_run s n (Q : inode -> mst -> Prop) : img_ok s -> 0 <= n < 200 -> Q (stored msb (view s) n) s -> wp (rinode n) s Q.
Proof.
  intros H Hn HQ. pose proof (iblock_range n Hn). unfold rinode. apply wp_bind, rsect_run; [done|lia|]. apply wp_ret.
  unfold stored, dinode_at in HQ. rewrite view_sect in HQ by lia. exact HQ.
Qed.

Definition wrote_inode (n : Z) (x : inode) (s : mst) : mst :=
  wrote (IBLOCK n msb) (store_dinode x (dinode_off n) (sect s (IBLOCK n msb))) s.

Lemma winode_run s n x (Q : unit -> mst -> Prop) : img_ok s -> 0 <= n < 200 -> Q tt (wrote_inode n x s) -> wp (winode n x) s Q.
Proof.
  intros H Hn HQ. pose proof (iblock_range n Hn). unfold winode. apply wp_bind, rsect_run; [done|lia|]. by apply wp_modify.
Qed.

Section Wrote.
Context (s : mst) (n : Z) (x : inode) (H : img_ok s) (Hn : 0 <= n < 200).

Lemma wrote_inode_ok : img_ok (wrote_inode n x s).
Proof.
  pose proof (iblock_range n Hn). pose proof (im_fb _ H). apply wrote_ok; [done|lia|]. rewrite length_store_dinode. apply H.
Qed.

Lemma wrote_inode_view b : b <> IBLOCK n msb -> view (wrote_inode n x s) b = view s b.
Proof.
  pose proof (iblock_range n Hn). intros Hb. unfold wrote_inode. rewrite view_wrote by lia. by rewrite write_disk_other.
Qed.

Lemma wrote_inode_owned ad b : file_ok msb (view s) ad -> owns (view s) ad b -> view (wrote_inode n x s) b = view s b.
Proof.
  intros Hfo (Hz & i & Hi & E). pose proof (iblock_range n Hn). apply wrote_inode_view. rewrite <- E in *.
  pose proof (slot_range s ad i H Hfo Hi Hz). lia.
Qed.

Lemma wrote_inode_at (Hx : dinode_fits x) : stored msb (view (wrote_inode n x s)) n =
  mkinode 1 n 0 initsleeplock 1 (i_type x) (i_major x) (i_minor x) (i_nlink x) (i_size x) (i_addrs x).
Proof.
  pose proof (iblock_range n Hn). unfold stored, dinode_at, wrote_inode. rewrite view_wrote, write_disk_eq by lia.
  rewrite load_store; [done|done|]. rewrite (im_len _ H). apply dinode_off_le.
Qed.

Lemma wrote_inode_other m : dinode_fits x -> 0 <= m < 200 -> m <> n -> stored msb (view (wrote_inode n x s)) m = stored msb (view s) m.
Proof.
  intros Hx Hm Hne. pose proof (iblock_range n Hn). pose proof (iblock_range m Hm). unfold stored, dinode_at.
  destruct (Z.eq_dec (IBLOCK m msb) (IBLOCK n msb)) as [E|E]; [|by rewrite wrote_inode_view].
  rewrite E. unfold wrote_inode. rewrite view_wrote, write_disk_eq, view_sect by lia.
  apply load_other; [apply Hx|rewrite (im_len _ H); apply dinode_off_le|]. apply dinode_off_apart; [lia|lia|done|].
  revert E. unfold IBLOCK, IPB. change (sb_inodestart msb) with 32.
  rewrite !u32_small by (Z.to_euclidean_division_equations; lia). lia.
Qed.

End Wrote.

(** ** What the image holds *)

Definition addrs_of (s : mst) (n : Z) : list Z := i_addrs (stored msb (view s) n).

(** Inode [n] is a file of type [ty] with the bytes [c]. *)
Record has_file (s : mst) (n ty : Z) (c : list Z) : Prop := {
  hf_type : i_type (stored msb (view s) n) = ty;
  hf_nlink : i_nlink (stored msb (view s) n) = 1;
  hf_size : i_size (stored msb (view s) n) = Z.of_nat (length c);
  hf_max : Z.of_nat (length c) <= MAXSIZE;
  hf_fits : dinode_fits (stored msb (view s) n);
  hf_part : part s (addrs_of s n) (length c);
  hf_bytes i : (i < length c)%nat -> fbyte (view s) (addrs_of s n) i = nth i c 0;
}.

Definition ftype (k : nat) : Z := if bool_decide (k = 0%nat) then T_DIR else T_FILE.

Definition blocks_of (cs : list (list Z)) : nat := sum_list_with (fun c => need (length c)) cs.

(** The contents of the inodes from the root's on. *)
Record image (s : mst) (cs : list (list Z)) : Prop := {
  ig_img : img_ok s;
  ig_count : freeinode s = 1 + Z.of_nat (length cs) /\ (length cs <= 199)%nat;
  ig_file k c : cs !! k = Some c -> has_file s (1 + Z.of_nat k) (ftype k) c;
  ig_none n : 0 <= n < 200 -> n = 0 \/ Z.of_nat (length cs) < n -> i_type (stored msb (view s) n) = 0;
  ig_apart k l n : (k < length cs)%nat -> (l < length cs)%nat ->
    owns (view s) (addrs_of s (1 + Z.of_nat k)) n -> owns (view s) (addrs_of s (1 + Z.of_nat l)) n -> k = l;
  ig_owned n : 58 < n < freeblock s -> exists k, (k < length cs)%nat /\ owns (view s) (addrs_of s (1 + Z.of_nat k)) n;
  ig_fb : freeblock s = 59 + Z.of_nat (blocks_of cs);
  ig_log n : 2 <= n < 32 -> sect s n = zeroes;
}.

(** The inode and its blocks stay. *)
Definition stays (s s' : mst) (n : Z) : Prop :=
  stored msb (view s') n = stored msb (view s) n /\ forall b, owns (view s) (addrs_of s n) b -> view s' b = view s b.

Lemma stays_addrs s s' n : stays s s' n -> addrs_of s' n = addrs_of s n.
Proof. intros [E _]. unfold addrs_of. by rewrite E. Qed.

Lemma stays_owns s s' n b : stays s s' n -> owns (view s') (addrs_of s' n) b <-> owns (view s) (addrs_of s n) b.
Proof. intros H. rewrite (stays_addrs _ _ _ H). apply kept_owns, H. Qed.

Lemma stays_file s s' n ty c : stays s s' n -> img_ok s' -> freeblock s <= freeblock s' -> has_file s n ty c -> has_file s' n ty c.
Proof.
  intros Hst H' Hf [H1 H2 H3 H4 H5 H6 H7]. pose proof (stays_addrs _ _ _ Hst) as Ea. destruct Hst as [E HK].
  split; rewrite ?E, ?Ea; [exact H1|exact H2|exact H3|exact H4|exact H5| |].
  - by apply (kept_part s).
  - intros i Hi. rewrite (kept_fbyte _ _ _ HK); [by apply H7|lia|]. apply (part_mapped _ _ _ _ H6 Hi). lia.
Qed.

(** ** [ialloc] *)

Definition dinode_new (n ty : Z) : inode := mkinode 1 n 0 initsleeplock 1 ty 0 0 1 0 (repeat 0 13).

Lemma dinode_new_fits n ty : ty = T_DIR \/ ty = T_FILE -> dinode_fits (dinode_new n ty).
Proof.
  intros H. split; cbn [dinode_new i_type i_major i_minor i_nlink i_size i_addrs]; try lia; [destruct H; subst; unfold T_DIR, T_FILE; lia| |done].
  apply Forall_forall. intros b Hb. apply list_elem_of_In, repeat_spec in Hb. lia.
Qed.

Lemma slot_empty v i : slot v (repeat 0 13) i = 0.
Proof.
  unfold slot. case_bool_decide as Hi; [|done]. unfold NDIRECT in Hi. do 13 (destruct i as [|i]; [done|]). lia.
Qed.

Lemma part_empty s : img_ok s -> part s (repeat 0 13) 0.
Proof.
  intros H. split; [done|split; [done| |]| |].
  - intros i _. by rewrite slot_empty.
  - intros i j _ _. by rewrite slot_empty.
  - intros i _. rewrite slot_empty. split; [done|]. change (need 0) with 0%nat. lia.
  - intros i _ _. unfold addr_of. by rewrite slot_empty.
Qed.

Lemma ialloc_run s cs ty (Q : Z -> mst -> Prop) : image s cs -> (length cs < 199)%nat -> ty = ftype (length cs) ->
  (forall s', image s' (cs ++ [[]]) -> Q (1 + Z.of_nat (length cs)) s') -> wp (ialloc ty) s Q.
Proof.
  intros I Hlen Hty HQ. unfold ialloc. apply wp_bind, wp_gets. destruct (ig_count _ _ I) as [Hc _]. rewrite Hc.
  apply wp_bind, wp_modify. set (n := 1 + Z.of_nat (length cs)) in *. rewrite u32_small by lia.
  set (s0 := mkmst _ _ _ _). assert (Hv : forall b, view s0 b = view s b) by done.
  assert (img_ok s0) as H0 by (destruct (ig_img _ _ I); by split).
  assert (ty = T_DIR \/ ty = T_FILE) as Hty' by (rewrite Hty; unfold ftype; case_bool_decide; auto).
  assert (0 <= n < 200) as Hn by lia.
  replace (mkinode 1 n 0 initsleeplock 1 (xshort ty) 0 0 (xshort 1) (xint 0) (repeat 0 (S NDIRECT))) with (dinode_new n ty)
    by (clear -Hty'; destruct Hty' as [->| ->]; reflexivity).
  apply wp_bind, winode_run; [done|done|]. apply wp_ret, HQ. clear HQ. set (s' := wrote_inode _ _ _).
  pose proof (dinode_new_fits n ty Hty') as Hfit. pose proof (wrote_inode_ok s0 n (dinode_new n ty) H0 Hn) as H'. fold s' in H'.
  assert (Hself : stored msb (view s') n = dinode_new n ty) by (by apply wrote_inode_at).
  assert (Hst : forall k, (k < length cs)%nat -> stays s s' (1 + Z.of_nat k)).
  { intros k Hk. split; [apply (wrote_inode_other s0); [done|done|done|lia|lia]|]. intros b Hb.
    apply (wrote_inode_owned s0 n _ H0 Hn (addrs_of s (1 + Z.of_nat k))); [|done].
    destruct (lookup_lt_is_Some_2 cs k Hk) as [c Ec]. apply (hf_part _ _ _ _ (ig_file _ _ I _ _ Ec)). }
  assert (Hnew : forall b, ~ owns (view s') (addrs_of s' n) b).
  { intros b (Hz & i & _ & E). unfold addrs_of in E. rewrite Hself in E. cbn [dinode_new i_addrs] in E. rewrite slot_empty in E. congruence. }
  assert (Hlk : forall k, (k < length (cs ++ [[]]))%nat -> (k < length cs)%nat \/ k = length cs) by (intros k; rewrite length_app; cbn; lia).
  split; [done|cbn; rewrite length_app; cbn; lia| | | | | |].
  - intros k c Ek. apply lookup_app_Some in Ek as [Ek|[Hge Ek]].
    { apply (stays_file s); [apply Hst; by eapply lookup_lt_Some|done|done|by apply I]. }
    apply list_lookup_singleton_Some in Ek as [Ek <-]. assert (k = length cs) as -> by lia. fold n. unfold addrs_of.
    split; unfold addrs_of; rewrite ?Hself; cbn; try done; try (unfold MAXSIZE; lia). by apply part_empty.
  - intros m Hm Hor. rewrite length_app in Hor. cbn in Hor. rewrite <- (ig_none _ _ I m Hm) by lia.
    unfold s'. rewrite (wrote_inode_other s0) by (done || lia). done.
  - intros k l b Hk%Hlk Hl%Hlk. destruct Hk as [Hk| ->], Hl as [Hl| ->]; [|intros _ B|intros B _|intros B _]; try (by apply Hnew in B).
    rewrite (stays_owns s s' _ b (Hst k Hk)), (stays_owns s s' _ b (Hst l Hl)). by apply (ig_apart _ _ I).
  - intros b Hb. destruct (ig_owned _ _ I b Hb) as (k & Hk & Ho). exists k. split; [rewrite length_app; lia|].
    by apply (stays_owns s s' _ b (Hst k Hk)).
  - change (freeblock s') with (freeblock s). rewrite (ig_fb _ _ I). unfold blocks_of. rewrite sum_list_with_app.
    change (sum_list_with _ [[]]) with 0%nat. lia.
  - intros b Hb. unfold s'. pose proof (iblock_range n Hn). unfold wrote_inode. rewrite sect_wrote, (proj2 (Z.eqb_neq _ _)) by lia. by apply (ig_log _ _ I).
Qed.

(** ** One file gets new contents *)

Lemma blocks_cons c cs : blocks_of (c :: cs) = (need (length c) + blocks_of cs)%nat.
Proof. done. Qed.

Lemma blocks_insert cs k c c' : cs !! k = Some c -> (blocks_of (<[k := c']> cs) + need (length c) = blocks_of cs + need (length c'))%nat.
Proof.
  revert k. induction cs as [|d cs IH]; intros [|k] E; [done|done| |].
  - injection E as ->. change (<[0%nat := c']> (c :: cs)) with (c' :: cs). rewrite !blocks_cons. lia.
  - change (<[S k := c']> (d :: cs)) with (d :: <[k := c']> cs). rewrite !blocks_cons. specialize (IH k E). lia.
Qed.

(** The blocks of the inodes and of the system stay while a file grows. *)
Lemma grows_low s ad s1 ad1 n : img_ok s -> file_ok msb (view s) ad -> grows msb (view s) ad (view s1) ad1 -> 0 <= n < 58 -> view s1 n = view s n.
Proof.
  intros H Hfo G Hn. pose proof (im_fb _ H). apply (gr_frame _ _ _ _ _ G); [lia|rewrite view_used by (done || lia); apply Z.ltb_lt; lia|
    change (sb_bmapstart msb) with 58; lia|].
  intros (Hz & i & Hi & E). rewrite <- E in Hz. pose proof (slot_range s ad i H Hfo Hi Hz). lia.
Qed.

Lemma grows_stored s ad s1 ad1 n : img_ok s -> file_ok msb (view s) ad -> grows msb (view s) ad (view s1) ad1 -> 0 <= n < 200 ->
  stored msb (view s1) n = stored msb (view s) n.
Proof.
  intros H Hfo G Hn. pose proof (iblock_range n Hn). unfold stored, dinode_at. by rewrite (grows_low s ad s1 ad1) by (done || lia).
Qed.

Lemma image_inum s cs k c : image s cs -> cs !! k = Some c -> 0 <= 1 + Z.of_nat k < 200.
Proof. intros I Hk. pose proof (proj2 (ig_count _ _ I)). apply lookup_lt_Some in Hk. lia. Qed.

Section Update.
Context (s : mst) (cs : list (list Z)) (I : image s cs) (k : nat) (c : list Z) (Hk : cs !! k = Some c).
Context (s1 : mst) (ad1 c1 : list Z) (H1 : img_ok s1) (Hi1 : freeinode s1 = freeinode s).
Context (Hf1 : freeblock s1 + Z.of_nat (need (length c)) = freeblock s + Z.of_nat (need (length c1))) (Hmono : freeblock s <= freeblock s1).
Let n := 1 + Z.of_nat k.
Context (G : grows msb (view s) (addrs_of s n) (view s1) ad1).
Context (P1 : part s1 ad1 (length c1)) (B1 : forall i, (i < length c1)%nat -> fbyte (view s1) ad1 i = nth i c1 0).
Context (Hm1 : Z.of_nat (length c1) <= MAXSIZE) (Ho1 : forall b, freeblock s <= b < freeblock s1 -> owns (view s1) ad1 b).
Let x1 := set_isize (Z.of_nat (length c1)) (set_addrs ad1 (stored msb (view s) n)).
Let s2 := wrote_inode n x1 s1.

Local Lemma up_n : 0 <= n < 200.
Proof. exact (image_inum s cs k c I Hk). Qed.

Local Lemma up_file : has_file s n (ftype k) c.
Proof. apply (ig_file _ _ I _ _ Hk). Qed.

Local Lemma up_fits : dinode_fits x1.
Proof.
  unfold x1. apply (fits_grown (disksize := 1000) (home := demo_home) msb (view s1)); [apply msb_layout|apply P1|lia|apply up_file].
Qed.

Local Lemma up_stored : stored msb (view s2) n = x1.
Proof. unfold s2. rewrite wrote_inode_at; [done|done|apply up_n|apply up_fits]. Qed.

Local Lemma up_img : img_ok s2.
Proof. apply wrote_inode_ok; [done|apply up_n]. Qed.

Local Lemma up_kept b : owns (view s1) ad1 b -> view s2 b = view s1 b.
Proof. intros Hb. eapply wrote_inode_owned; [done|apply up_n|apply P1|done]. Qed.

Local Lemma up_addrs : addrs_of s2 n = ad1.
Proof. unfold addrs_of. by rewrite up_stored. Qed.

Local Lemma up_owns b : owns (view s2) (addrs_of s2 n) b <-> owns (view s1) ad1 b.
Proof. rewrite up_addrs. apply kept_owns, up_kept. Qed.

Local Lemma up_self : has_file s2 n (ftype k) c1.
Proof.
  pose proof up_file as F. split; rewrite ?up_addrs, ?up_stored; [apply F|apply F|done|done|apply up_fits| |].
  - apply (kept_part s1); [apply up_kept|apply up_img|done|done].
  - intros i Hi. rewrite (kept_fbyte _ _ _ up_kept); [by apply B1|lia|]. apply (part_mapped _ _ _ _ P1 Hi). lia.
Qed.

Local Lemma up_other l : (l < length cs)%nat -> l <> k -> stays s s2 (1 + Z.of_nat l).
Proof.
  intros Hl Hne. destruct (lookup_lt_is_Some_2 cs l Hl) as [d El]. pose proof (ig_file _ _ I _ _ El) as F.
  pose proof (hf_part _ _ _ _ F) as Pl. pose proof (pa_file _ _ _ (hf_part _ _ _ _ up_file)) as Hfo. pose proof (proj2 (ig_count _ _ I)).
  split.
  - unfold s2. rewrite wrote_inode_other; [|done|apply up_n|apply up_fits|lia|unfold n; lia].
    eapply grows_stored; [apply I|exact Hfo|exact G|lia].
  - intros b Hb. pose proof Hb as (Hz & i & Hi & E). rewrite <- E in Hz. pose proof (slot_range s _ i (ig_img _ _ I) (pa_file _ _ _ Pl) Hi Hz) as Hr.
    rewrite E in Hr. pose proof (iblock_range n up_n). transitivity (view s1 b); [apply wrote_inode_view; [apply up_n|lia]|].
    apply (gr_frame _ _ _ _ _ G); [lia|rewrite view_used by (apply I || lia); apply Z.ltb_lt; lia|change (sb_bmapstart msb) with 58; lia|].
    intros Ho. apply Hne. symmetry. apply (ig_apart _ _ I k l b); [by eapply lookup_lt_Some|done|exact Ho|done].
Qed.

Local Lemma up_used b l : (l < length cs)%nat -> owns (view s) (addrs_of s (1 + Z.of_nat l)) b -> 0 <= b /\ used msb (view s) b = true.
Proof.
  intros Hl (Hz & i & Hi & E). destruct (lookup_lt_is_Some_2 cs l Hl) as [d El]. pose proof (hf_part _ _ _ _ (ig_file _ _ I _ _ El)) as Pl.
  rewrite <- E in *. pose proof (slot_range s _ i (ig_img _ _ I) (pa_file _ _ _ Pl) Hi Hz). split; [lia|].
  rewrite view_used by (apply I || lia). apply Z.ltb_lt. lia.
Qed.

Local Lemma up_apart b l : (l < length cs)%nat -> l <> k -> owns (view s1) ad1 b -> ~ owns (view s) (addrs_of s (1 + Z.of_nat l)) b.
Proof.
  intros Hl Hne Ho Ho'. destruct (up_used b l Hl Ho') as [Hb Hu]. destruct (gr_new _ _ _ _ _ G b Ho) as [Hold|[_ Hfree]]; [|congruence].
  apply Hne. symmetry. apply (ig_apart _ _ I k l b); [by eapply lookup_lt_Some|done|exact Hold|done].
Qed.

Lemma image_update : image s2 (<[k := c1]> cs).
Proof.
  pose proof (proj2 (ig_count _ _ I)) as Hc. pose proof (lookup_lt_Some _ _ _ Hk) as Hlt.
  pose proof (pa_file _ _ _ (hf_part _ _ _ _ up_file)) as Hfo. pose proof (iblock_range n up_n).
  split; rewrite ?length_insert; [apply up_img|split; [|done]| | | | | |].
  - cbn. rewrite Hi1. apply I.
  - intros l d El. destruct (decide (l = k)) as [->|Hne].
    + rewrite list_lookup_insert_eq in El by done. injection El as <-. apply up_self.
    + rewrite list_lookup_insert_ne in El by done. pose proof (lookup_lt_Some _ _ _ El).
      apply (stays_file s); [by apply up_other|apply up_img|done|by apply I].
  - intros m Hm Hor. rewrite <- (ig_none _ _ I m Hm Hor). unfold s2. rewrite wrote_inode_other; [|done|apply up_n|apply up_fits|lia|unfold n; lia].
    f_equal. eapply grows_stored; [apply I|exact Hfo|exact G|lia].
  - intros l1 l2 b Hl1 Hl2. destruct (decide (l1 = k)) as [->|N1], (decide (l2 = k)) as [->|N2]; [done| | |]; fold n;
      rewrite ?up_owns, ?(stays_owns s s2 _ b (up_other _ Hl1 N1)), ?(stays_owns s s2 _ b (up_other _ Hl2 N2)).
    + intros Ho Ho'. by apply (up_apart b l2) in Ho'.
    + intros Ho Ho'. by apply (up_apart b l1) in Ho.
    + by apply (ig_apart _ _ I).
  - intros b Hb. change (freeblock s2) with (freeblock s1) in Hb. destruct (Z_lt_le_dec b (freeblock s)) as [Hold|Hnew].
    2:{ exists k. split; [done|]. apply up_owns, Ho1. lia. }
    destruct (ig_owned _ _ I b ltac:(lia)) as (l & Hl & Ho). destruct (decide (l = k)) as [->|Hne].
    + exists k. split; [done|]. apply up_owns. destruct Ho as (Hz & i & Hi & E). split; [done|]. exists i. split; [done|].
      rewrite (gr_slot _ _ _ _ _ G); [done|done|]. unfold n. congruence.
    + exists l. split; [done|]. by apply (stays_owns s s2 _ b (up_other l Hl Hne)).
  - change (freeblock s2) with (freeblock s1). pose proof (ig_fb _ _ I). pose proof (blocks_insert cs k c c1 Hk). lia.
  - intros b Hb. unfold s2, wrote_inode. rewrite sect_wrote, (proj2 (Z.eqb_neq _ _)) by lia. rewrite <- (ig_log _ _ I b Hb).
    rewrite <- !view_sect by lia. eapply grows_low; [apply I|exact Hfo|exact G|lia].
Qed.

End Update.

(** ** [iappend] *)

Lemma iappend_run s cs k c bs : image s cs -> cs !! k = Some c -> Z.of_nat (length (c ++ bs)) <= MAXSIZE ->
  59 + Z.of_nat (blocks_of (<[k := c ++ bs]> cs)) <= 1000 ->
  wp (iappend (1 + Z.of_nat k) bs) s (fun _ s' => image s' (<[k := c ++ bs]> cs)).
Proof.
  intros I Hk Hmax Hb. pose proof (image_inum s cs k c I Hk) as Hn. pose proof (ig_file _ _ I _ _ Hk) as F.
  pose proof (blocks_insert cs k c (c ++ bs) Hk) as Hbi. pose proof (ig_fb _ _ I) as Hfb. rewrite length_app in Hmax, Hbi.
  unfold iappend. apply wp_bind, rinode_run; [apply I|done|]. rewrite (hf_size _ _ _ _ F), xint_small by (unfold MAXSIZE in *; lia).
  pose proof (need_mono (length c) (length c + length bs) ltac:(lia)).
  eapply wp_seq; [apply (iappend_loop_run (length bs) s (stored msb (view s) (1 + Z.of_nat k)) (length c) bs); [apply F|done|lia|lia]|].
  cbn beta. intros r s1 (ad1 & -> & A). rewrite xint_small by (unfold MAXSIZE in *; lia).
  pose proof A as [A1 A2 A3 A4 A5 A6 A7]. apply winode_run; [apply A1|done|]. rewrite <- length_app.
  apply (image_update s cs I k c Hk s1 ad1 (c ++ bs)); rewrite ?length_app; auto; [apply A1|lia|].
  intros i Hi. destruct (decide (i < length c)%nat) as [Hl|Hl].
  - rewrite A3, app_nth1 by done. by apply (hf_bytes _ _ _ _ F).
  - rewrite app_nth2 by lia. rewrite <- A4 by lia. f_equal. lia.
Qed.

(** ** Files *)

(** A file for the image: its name and its bytes. *)
Definition hosts (f : hostfile) (g : list Z * list Z) : Prop :=
  (slash ∉ fst f) /\ fst g = skip_underscore (fst f) /\ exists chunks, snd f = Some chunks /\ snd g = mjoin chunks.

Definition root_entries (fs : list (list Z * list Z)) : list (list Z) :=
  mkdirent 1 [46] :: mkdirent 1 [46; 46] :: imap (fun j f => mkdirent (2 + Z.of_nat j) (fst f)) fs.

(** The contents of the inodes for the files [fs]. *)
Definition image_of (fs : list (list Z * list Z)) : list (list Z) := mjoin (root_entries fs) :: fs.*2.

Lemma length_mkdirent n name : length (mkdirent n name) = 16%nat.
Proof. done. Qed.

Lemma length_join16 (l : list (list Z)) : Forall (fun d => length d = 16%nat) l -> length (mjoin l) = (16 * length l)%nat.
Proof. induction 1 as [|d l Hd Hl IH]; [done|]. change (mjoin (d :: l)) with (d ++ mjoin l). rewrite length_app, IH. cbn [length]. lia. Qed.

Lemma root_entries_len fs : Forall (fun d => length d = 16%nat) (root_entries fs).
Proof.
  apply Forall_cons. split; [done|]. apply Forall_cons. split; [done|]. apply Forall_lookup. intros j d Hd.
  rewrite list_lookup_imap in Hd. destruct (fs !! j); [|done]. by injection Hd as <-.
Qed.

Lemma length_root fs : length (mjoin (root_entries fs)) = (16 * (2 + length fs))%nat.
Proof. rewrite length_join16 by apply root_entries_len. unfold root_entries. cbn [length]. by rewrite length_imap. Qed.

Lemma root_entries_snoc fs f : root_entries (fs ++ [f]) = root_entries fs ++ [mkdirent (2 + Z.of_nat (length fs)) (fst f)].
Proof. unfold root_entries. rewrite imap_app. cbn. by rewrite Nat.add_0_r. Qed.

Lemma image_of_snoc fs f : image_of (fs ++ [f]) =
  (mjoin (root_entries fs) ++ mkdirent (2 + Z.of_nat (length fs)) (fst f)) :: fs.*2 ++ [snd f].
Proof. unfold image_of. rewrite root_entries_snoc, join_app, fmap_app. done. Qed.

Lemma blocks_app cs cs' : blocks_of (cs ++ cs') = (blocks_of cs + blocks_of cs')%nat.
Proof. apply sum_list_with_app. Qed.

(** More files take more blocks. *)
Lemma blocks_prefix fs fs' : (blocks_of (image_of fs) <= blocks_of (image_of (fs ++ fs')))%nat.
Proof.
  unfold image_of. rewrite !blocks_cons, !length_root, fmap_app, blocks_app, length_app.
  pose proof (need_mono (16 * (2 + length fs)) (16 * (2 + (length fs + length fs'))) ltac:(lia)). lia.
Qed.
