(* ===== verification/MkfsSpec.v ===== *)
(** * The image is a file system ([mkfs.c]: [main])

    What [main] writes is a consistent file system with exactly the files it was
    given, and no block is lost. *)
From S2P Require Import Prelude Str Sleeplock Bio Log LogSpec LogOps Tx Fs FsBlocks FsInode FsFiles FsContents FsDirs FsSpec FileSpec FsPath Mkfs MkfsFiles MkfsImage.

(** ** Copying files *)

Lemma chunks_run s cs k c chunks : image s cs -> cs !! k = Some c -> Z.of_nat (length (c ++ mjoin chunks)) <= MAXSIZE ->
  59 + Z.of_nat (blocks_of (<[k := c ++ mjoin chunks]> cs)) <= 1000 ->
  wp (for_each chunks (iappend (1 + Z.of_nat k))) s (fun _ s' => image s' (<[k := c ++ mjoin chunks]> cs)).
Proof.
  revert s cs c. induction chunks as [|b chunks IH]; intros s cs c I Hk Hm Hb.
  - apply wp_ret. change (mjoin []) with (@nil Z). by rewrite app_nil_r, list_insert_id.
  - change (mjoin (b :: chunks)) with (b ++ mjoin chunks) in *. rewrite app_assoc in *. cbn [for_each].
    pose proof (blocks_insert cs k c ((c ++ b) ++ mjoin chunks) Hk) as B1. pose proof (blocks_insert cs k c (c ++ b) Hk) as B2.
    rewrite !length_app in Hm, B1. pose proof (need_mono (length (c ++ b)) (length c + length b + length (mjoin chunks)) ltac:(rewrite length_app; lia)).
    eapply wp_seq; [apply (iappend_run s cs k c b I Hk); [rewrite length_app; lia|lia]|]. intros [] s1 I1.
    pose proof (lookup_lt_Some _ _ _ Hk).
    rewrite <- (list_insert_insert_eq cs k ((c ++ b) ++ mjoin chunks) (c ++ b)).
    apply IH; [done|by apply list_lookup_insert_eq|rewrite !length_app; lia|by rewrite list_insert_insert_eq].
Qed.

Lemma copy_file_run s fs f g : image s (image_of fs) -> hosts f g -> (length fs < 198)%nat -> Z.of_nat (length (snd g)) <= MAXSIZE ->
  59 + Z.of_nat (blocks_of (image_of (fs ++ [g]))) <= 1000 ->
  wp (copy_file f) s (fun _ s' => image s' (image_of (fs ++ [g]))).
Proof.
  intros I (Hs & Hname & chunks & Ec & Hg) Hlen Hm Hb. destruct f as [argv data], g as [name bs]. cbn [fst snd] in *. subst.
  unfold copy_file. rewrite bool_decide_false by done. apply wp_bind, wp_ret. cbv zeta.
  set (name := skip_underscore argv) in *. set (bs := mjoin chunks) in *. rewrite image_of_snoc in *. cbn [fst snd] in *.
  assert (Hl : length (image_of fs) = S (length fs)) by (unfold image_of; cbn [length]; by rewrite length_fmap).
  apply wp_bind, (ialloc_run s (image_of fs)); [done|lia| |].
  { rewrite Hl. done. }
  intros s1 I1. rewrite Hl. rewrite blocks_cons, blocks_app, blocks_cons in Hb. unfold image_of in I1. cbn [app] in I1.
  set (root := mjoin (root_entries fs)) in *. set (inum := 1 + Z.of_nat (S (length fs))).
  assert (xshort inum = 2 + Z.of_nat (length fs)) as -> by (rewrite xshort_u16; unfold u16, inum; rewrite Z.mod_small; lia).
  set (de := mkdirent _ name) in *. pose proof (need_mono (length (@nil Z)) (length bs) ltac:(cbn; lia)) as Hn0. change (blocks_of []) with 0%nat in Hb.
  eapply wp_seq.
  { apply (iappend_run s1 (root :: fs.*2 ++ [[]]) 0 root de); [done|done| |].
    - rewrite length_app. unfold root, de. rewrite length_root, length_mkdirent. unfold MAXSIZE. lia.
    - change (<[0%nat := root ++ de]> (root :: fs.*2 ++ [[]])) with ((root ++ de) :: fs.*2 ++ [[]]). rewrite blocks_cons, blocks_app, blocks_cons.
      change (blocks_of []) with 0%nat. lia. }
  intros [] s2 I2. cbn [list_insert insert] in I2.
  assert (Hins : forall b, <[S (length fs) := b]> ((root ++ de) :: fs.*2 ++ [[]]) = (root ++ de) :: fs.*2 ++ [b]).
  { intros b. change (<[S (length fs) := b]> (?h :: ?t)) with (h :: <[length fs := b]> t). f_equal.
    by rewrite insert_app_r_alt, length_fmap, Nat.sub_diag by (rewrite length_fmap; lia). }
  eapply wp_mono; [apply (chunks_run s2 _ (S (length fs)) [] chunks I2)|].
  - change (((root ++ de) :: ?t) !! S ?i) with (t !! i). rewrite lookup_app_r; rewrite length_fmap; [by rewrite Nat.sub_diag|lia].
  - done.
  - cbn [app]. fold bs. rewrite Hins, blocks_cons, blocks_app, blocks_cons. change (blocks_of []) with 0%nat. lia.
  - intros [] s3 I3. cbn [app] in I3. fold bs in I3. by rewrite Hins in I3.
Qed.

Lemma copy_files_run files : forall s fs0 fs, image s (image_of fs0) -> Forall2 hosts files fs -> (length fs0 + length fs <= 198)%nat ->
  Forall (fun f => Z.of_nat (length (snd f)) <= MAXSIZE) fs -> 59 + Z.of_nat (blocks_of (image_of (fs0 ++ fs))) <= 1000 ->
  wp (for_each files copy_file) s (fun _ s' => image s' (image_of (fs0 ++ fs))).
Proof.
  induction files as [|f files IH]; intros s fs0 fs I HF Hl Hm Hb.
  - apply Forall2_nil_inv_l in HF as ->. apply wp_ret. by rewrite app_nil_r.
  - apply Forall2_cons_inv_l in HF as (g & fs' & Hfg & HF & ->). apply Forall_cons in Hm as [Hg Hm]. cbn [length] in Hl.
    rewrite (cons_middle g fs0 fs'), app_assoc in *. pose proof (blocks_prefix (fs0 ++ [g]) fs').
    cbn [for_each]. eapply wp_seq; [apply (copy_file_run s fs0 f g); [done|done|lia|done|lia]|].
    intros [] s1 I1. apply IH; [done|done|rewrite length_app; cbn; lia|done|done].
Qed.

(** ** The empty image *)

Lemma zero_run s : nsect s = 0 -> freeinode s = 1 -> freeblock s = nmeta -> img s = ∅ ->
  wp (for_each (seqZ 0 FSSIZE) (fun i => wsect i zeroes)) s
    (fun _ s' => nsect s' = 1000 /\ freeinode s' = 1 /\ freeblock s' = 59 /\ forall n, sect s' n = zeroes).
Proof.
  intros Hn Hi Hb Hm.
  apply (wp_for_each (fun l s => exists k, 0 <= k <= 1000 /\ l = seqZ k (1000 - k) /\ nsect s = k /\ freeinode s = 1 /\ freeblock s = 59 /\
    forall n, sect s n = zeroes)).
  - intros i l s1 (k & Hk & E & Hs & Hi1 & Hb1 & Hz). destruct (decide (k = 1000)) as [->|Hne]; [done|].
    rewrite seqZ_cons in E by lia. injection E as -> ->. apply wp_modify. exists (k + 1). split_and!; [lia|lia|f_equal; lia|cbn; lia|done|done|].
    intros n. rewrite sect_wsect. by destruct (n =? k).
  - exists 0. split_and!; [lia|lia|done|done|done|done|]. intros n. unfold sect. by rewrite Hm, lookup_empty.
  - intros s1 (k & Hk & E & Hs & Hi1 & Hb1 & Hz). destruct (decide (k = 1000)) as [->|Hne]; [done|].
    by rewrite seqZ_cons in E by lia.
Qed.

Lemma stored_zero v n : v (IBLOCK n msb) = zeroes -> i_type (stored msb v n) = 0.
Proof.
  intros E. unfold stored, dinode_at. rewrite E. cbn [i_type load_dinode]. unfold get16, zeroes. rewrite !nth_repeat. done.
Qed.

Lemma image_nil s : nsect s = 1000 -> freeinode s = 1 -> freeblock s = 59 -> (forall n, sect s n = zeroes) ->
  image (wrote 1 (sb_bytes msb) s) [].
Proof.
  intros Hn Hi Hb Hz. assert (Hs : forall n, n <> 1 -> sect (wrote 1 (sb_bytes msb) s) n = zeroes).
  { intros n Hne. by rewrite sect_wrote, (proj2 (Z.eqb_neq _ _)). }
  assert (Hsb : sect (wrote 1 (sb_bytes msb) s) 1 = sb_bytes msb) by (by rewrite sect_wrote).
  assert (img_ok (wrote 1 (sb_bytes msb) s)) as H.
  { split; [|cbn; lia|cbn; lia| |].
    - intros n. destruct (decide (n = 1)) as [->|Hne]; [by rewrite Hsb|by rewrite Hs].
    - intros n Hge. apply Hs. cbn in Hge. lia.
    - rewrite Hsb. vm_compute. reflexivity. }
  split; [done|split; [done|cbn; lia]|done| |cbn; lia| |cbn; rewrite Hb; done|intros n Hr; apply Hs; lia].
  - intros n Hr _. pose proof (iblock_range n Hr). apply stored_zero. rewrite view_sect by lia. apply Hs. lia.
  - intros n Hr. cbn in Hr. lia.
Qed.

(** The root directory with its two entries. *)
Lemma root_run s (k : Z -> MM unit) (Q : unit -> mst -> Prop) : image s [] ->
  (forall s', image s' (image_of []) -> wp (k 1) s' Q) ->
  wp (let! rootino := ialloc T_DIR in
      assert (rootino =? ROOTINO) ;;
      iappend rootino (mkdirent (xshort rootino) [46]) ;;
      iappend rootino (mkdirent (xshort rootino) [46; 46]) ;;
      k rootino) s Q.
Proof.
  intros I HQ. apply wp_bind. apply (ialloc_run s []); [done|cbn; lia|done|]. intros s1 I1. change (1 + Z.of_nat (length [])) with 1.
  change (1 =? ROOTINO) with true. apply wp_bind, wp_ret. change (xshort 1) with 1.
  eapply wp_seq; [apply (iappend_run s1 [[]] 0 [] (mkdirent 1 [46])); [done|done|vm_compute; discriminate|vm_compute; discriminate]|]. intros [] s2 I2.
  eapply wp_seq; [apply (iappend_run s2 [mkdirent 1 [46]] 0 (mkdirent 1 [46]) (mkdirent 1 [46; 46])); [done|done|vm_compute; discriminate|vm_compute; discriminate]|].
  intros [] s3 I3. apply HQ. exact I3.
Qed.

(** ** The size of the root directory *)

(** Its last block is not full: the size is rounded up to the end of it. *)
Definition padded (c : list Z) : list Z := c ++ repeat 0 (512 - length c mod 512).

Lemma length_padded c : length (padded c) = ((length c / 512 + 1) * 512)%nat.
Proof.
  unfold padded. rewrite length_app, repeat_length. pose proof (Nat.div_mod (length c) 512 ltac:(lia)).
  pose proof (Nat.mod_upper_bound (length c) 512 ltac:(lia)). lia.
Qed.

Lemma need_padded c : (length c mod 512 <> 0)%nat -> need (length (padded c)) = need (length c).
Proof.
  intros H. rewrite length_padded. pose proof (Nat.div_mod (length c) 512 ltac:(lia)).
  pose proof (Nat.mod_upper_bound (length c) 512 ltac:(lia)). by rewrite !(need_ceil _ (length c / 512)) by lia.
Qed.

Lemma pad_run s cs c : image s (c :: cs) -> (length c mod 512 <> 0)%nat -> Z.of_nat (length (padded c)) <= MAXSIZE ->
  image (wrote_inode 1 (set_isize (Z.of_nat (length (padded c))) (stored msb (view s) 1)) s) (padded c :: cs).
Proof.
  intros I Hc Hm. pose proof (ig_file _ _ I 0 c eq_refl) as F. change (1 + Z.of_nat 0) with 1 in F. pose proof (hf_part _ _ _ _ F) as P.
  pose proof (need_padded c Hc) as Hnd.
  assert (Hle : (length c <= length (padded c))%nat) by (unfold padded; rewrite length_app; lia).
  replace (set_isize (Z.of_nat (length (padded c))) (stored msb (view s) 1)) with
    (set_isize (Z.of_nat (length (padded c))) (set_addrs (addrs_of s 1) (stored msb (view s) 1))) by done.
  change (padded c :: cs) with (<[0%nat := padded c]> (c :: cs)).
  assert (Hmap : forall i, (i < length (padded c))%nat -> addr_of (view s) (addrs_of s 1) (i / 512) <> 0).
  { intros i Hi. apply (pa_slots _ _ _ P); [|rewrite <- Hnd; by apply need_slot]. apply slot_of_lt, Nat.Div0.div_lt_upper_bound.
    unfold MAXSIZE in *. lia. }
  apply (image_update s (c :: cs) I 0 c eq_refl s (addrs_of s 1) (padded c)); [apply I|done|by rewrite Hnd|lia| | | |done|lia].
  - apply grows_refl; [apply img_fs_ok, I|apply P].
  - destruct P as [P1 P2 P3 P4]. split; [done|done|by rewrite Hnd|]. intros i Hi. apply P4. lia.
  - intros i Hi. unfold padded. destruct (decide (i < length c)%nat) as [Hl|Hl].
    + rewrite app_nth1 by done. by apply (hf_bytes _ _ _ _ F).
    + rewrite app_nth2, nth_repeat by lia. apply (pa_tail _ _ _ P); [lia|lia|by apply Hmap].
Qed.

(** ** [main] *)

(** The disk before and after the size of the root directory is set. *)
Definition root_sized (fs : list (list Z * list Z)) (s : mst) : mst :=
  wrote_inode 1 (set_isize (Z.of_nat (length (padded (mjoin (root_entries fs))))) (stored msb (view s) 1)) s.

Lemma main_image files fs : Forall2 hosts files fs -> (length fs <= 198)%nat ->
  Forall (fun f => Z.of_nat (length (snd f)) <= MAXSIZE) fs -> 59 + Z.of_nat (blocks_of (image_of fs)) <= 1000 ->
  wp (main files) mkfs_start (fun _ s' => exists s, image s (image_of fs) /\
    nsect s' = 1000 /\ forall n, sect s' n = view (root_sized fs s) n).
Proof.
  intros HF Hl Hm Hb. unfold main. apply wp_bind, wp_modify.
  eapply wp_seq; [by apply zero_run|]. cbn beta. intros [] s1 (A1 & A2 & A3 & A4). apply wp_bind, wp_modify.
  pose proof (image_nil s1 A1 A2 A3 A4) as I0. fold (wrote 1 (sb_bytes msb) s1). set (s2 := wrote _ _ _) in *.
  apply root_run; [done|]. intros s3 I3.
  eapply wp_seq; [apply (copy_files_run files s3 [] fs); [done|done|cbn; lia|done|done]|]. cbn [app]. intros [] s4 I4.
  pose proof (length_root fs) as Hlen. set (root := mjoin (root_entries fs)) in *.
  pose proof (ig_file _ _ I4 0 root eq_refl) as F. change (1 + Z.of_nat 0) with 1 in F.
  pose proof (length_padded root) as Hpad. pose proof (Nat.div_mod (length root) 512 ltac:(lia)).
  apply wp_bind, rinode_run; [apply I4|lia|]. rewrite (hf_size _ _ _ _ F), (xint_small (Z.of_nat _)) by (rewrite Hlen; lia).
  replace (xint ((Z.of_nat (length root) / SECT + 1) * SECT)) with (Z.of_nat (length (padded root))).
  2:{ rewrite Hpad. unfold SECT. rewrite off_div, xint_small by lia. lia. }
  apply wp_bind, winode_run; [apply I4|lia|]. fold (root_sized fs s4).
  pose proof (wrote_inode_ok s4 1 (set_isize (Z.of_nat (length (padded root))) (stored msb (view s4) 1)) (ig_img _ _ I4) ltac:(lia)) as I5.
  fold (root_sized fs s4) in I5.
  apply wp_bind, wp_gets. unfold balloc. pose proof (im_fb _ I5). rewrite (proj2 (Z.ltb_lt _ _)) by (unfold SECT; lia).
  apply wp_bind, wp_ret, wp_modify. exists s4. split; [exact I4|]. split.
  - cbn [nsect]. rewrite (im_nsect _ I5). done.
  - intros n. rewrite sect_wsect. unfold view. by rewrite write_disk_at.
Qed.

Lemma root_mod fs : (length (mjoin (root_entries fs)) mod 512 = 16 * ((2 + length fs) mod 32))%nat.
Proof. rewrite length_root. change 512%nat with (16 * 32)%nat. by rewrite Nat.Div0.mul_mod_distr_l. Qed.

(** The disk is what the image was meant to be. *)
Lemma main_run files fs : Forall2 hosts files fs -> (length fs <= 198)%nat -> ((2 + length fs) mod 32 <> 0)%nat ->
  Forall (fun f => Z.of_nat (length (snd f)) <= MAXSIZE) fs -> 59 + Z.of_nat (blocks_of (image_of fs)) <= 1000 ->
  wp (main files) mkfs_start (fun _ s' => exists s, image s (padded (mjoin (root_entries fs)) :: fs.*2) /\
    nsect s' = 1000 /\ forall n, sect s' n = view s n).
Proof.
  intros HF Hl Hmod Hm Hb. eapply wp_mono; [by apply main_image|]. cbn beta. intros _ s' (s & I & Hn & E).
  exists (root_sized fs s). split; [|done]. pose proof (length_padded (mjoin (root_entries fs))). pose proof (length_root fs).
  apply pad_run; [exact I|rewrite root_mod; lia|]. unfold MAXSIZE.
  pose proof (Nat.div_mod (length (mjoin (root_entries fs))) 512 ltac:(lia)). lia.
Qed.

(** ** The root directory *)

Lemma entries_join l : Forall (fun d => length d = 16%nat) l -> entries (mjoin l) = l.
Proof.
  intros Hl. apply list_eq. intros i. destruct (decide (i < length l)%nat) as [Hi|Hi].
  2:{ rewrite !lookup_ge_None_2; [done|lia|]. rewrite length_entries, length_join16, Nat.mul_comm, Nat.div_mul by done || lia. lia. }
  rewrite entries_lookup by (rewrite length_join16 by done; lia). revert i Hi. induction Hl as [|d l Hd Hl IH]; intros i Hi; [cbn in Hi; lia|].
  change (mjoin (d :: l)) with (d ++ mjoin l). destruct i as [|i].
  - change (drop (16 * 0) ?x) with x. rewrite take_app_le by lia. rewrite take_ge by lia. done.
  - replace (16 * S i)%nat with (length d + 16 * i)%nat by lia. rewrite drop_app_add. apply IH. cbn in Hi. lia.
Qed.

Definition no_entry : list Z := repeat 0 16.

Lemma join_zeros m : mjoin (repeat no_entry m) = repeat 0 (16 * m).
Proof.
  induction m as [|m IH]; [done|]. change (mjoin (repeat no_entry (S m))) with (no_entry ++ mjoin (repeat no_entry m)).
  rewrite IH. replace (16 * S m)%nat with (16 + 16 * m)%nat by lia. by rewrite repeat_app.
Qed.

Lemma entries_padded fs : exists m, entries (padded (mjoin (root_entries fs))) = root_entries fs ++ repeat no_entry m.
Proof.
  set (n := (2 + length fs)%nat). exists (32 - n mod 32)%nat. unfold padded. rewrite length_root. fold n.
  change 512%nat with (16 * 32)%nat at 2. rewrite Nat.Div0.mul_mod_distr_l. replace (512 - 16 * (n mod 32))%nat with (16 * (32 - n mod 32))%nat by lia.
  rewrite <- join_zeros, <- join_app. apply entries_join, Forall_app. split; [apply root_entries_len|].
  apply Forall_forall. intros d Hd. apply list_elem_of_In, repeat_spec in Hd. by subst.
Qed.

Lemma root_entry fs i d : (root_entries fs) !! i = Some d -> exists n name, d = mkdirent n name /\ 1 <= n < 2 + Z.of_nat (length fs).
Proof.
  intros H. destruct i as [|[|i]]; [injection H as <-; eexists _, _; split; [done|lia]..|].
  change (root_entries fs !! S (S i)) with (imap (fun j f => mkdirent (2 + Z.of_nat j) (fst f)) fs !! i) in H.
  rewrite list_lookup_imap in H. destruct (fs !! i) as [f|] eqn:Ef; [|done].
  injection H as <-. apply lookup_lt_Some in Ef. eexists _, _. split; [done|lia].
Qed.

(** A name leads to an inode of the image. *)
Lemma root_range fs e m : (length fs <= 198)%nat -> dir_inum (padded (mjoin (root_entries fs))) e = Some m -> 1 <= m < 2 + Z.of_nat (length fs).
Proof.
  intros Hl H. unfold dir_inum in H. destruct (dfind e _ 0) as [[j i]|] eqn:Ef; [|done]. injection H as <-.
  apply dfind_Some in Ef as (de & Hde & _ & Hh & ->). destruct (entries_padded fs) as [p Ep]. rewrite Ep in Hde.
  apply lookup_app_Some in Hde as [Hde|[_ Hde]].
  - destruct (root_entry fs _ _ Hde) as (n & name & -> & Hn). cbn [snd]. rewrite de_inum_mk by lia. done.
  - apply list_elem_of_lookup_2, list_elem_of_In, repeat_spec in Hde. subst. done.
Qed.

(** The entries with a name among those of the list. *)
Lemma hits_none name l : (forall d, d ∈ l -> hit name d = false) -> filter (fun d => hit name d = true) l = [].
Proof.
  induction l as [|d l IH]; intros H; [done|]. rewrite filter_cons_False by (rewrite H; [done|left]). apply IH. intros. apply H. by right.
Qed.

Lemma hit_other name l : bytes name -> Forall (fun p => bytes (snd p) /\ 0 < fst p < 65536) l -> cname name ∉ (cname <$> l.*2) ->
  filter (fun d => hit name d = true) ((fun p : Z * list Z => mkdirent (fst p) (snd p)) <$> l) = [].
Proof.
  intros Hn Hl Hni. apply hits_none. intros d ([n nm] & -> & Hin)%list_elem_of_fmap. pose proof (proj1 (Forall_forall _ _) Hl _ Hin) as [Hb Hr].
  cbn [fst snd] in *. rewrite hit_mk by (done || lia). apply bool_decide_eq_false. intros E. apply Hni. rewrite E.
  apply list_elem_of_fmap. exists nm. split; [done|]. apply list_elem_of_fmap. by exists (n, nm).
Qed.

(** The first entry with the name is the only one. *)
Lemma find_entry name l1 n l2 m : bytes name -> Forall (fun p => bytes (snd p) /\ 0 < fst p < 65536) (l1 ++ (n, name) :: l2) ->
  NoDup (cname <$> (l1 ++ (n, name) :: l2).*2) ->
  snd <$> dfind name (((fun p : Z * list Z => mkdirent (fst p) (snd p)) <$> (l1 ++ (n, name) :: l2)) ++ repeat no_entry m) 0 = Some n.
Proof.
  intros Hn Hf Hd. apply Forall_app in Hf as [Hf1 Hf2]. apply Forall_cons in Hf2 as [[_ Hr] _]. cbn [fst] in Hr.
  rewrite !fmap_app in *. cbn [fmap list_fmap snd] in Hd. apply NoDup_app in Hd as (_ & Hd & _).
  rewrite dfind_filter, !filter_app. rewrite hit_other; [|done|done|].
  2:{ intros Hin. apply (Hd _ Hin). left. }
  cbn [app fmap list_fmap fst snd]. rewrite filter_cons_True by (rewrite hit_mk by (done || lia); by apply bool_decide_eq_true).
  cbn [app hd_error fmap option_fmap option_map]. by rewrite de_inum_mk by lia.
Qed.

(** Inode numbers and names of the directory. *)
Definition root_names (fs : list (list Z * list Z)) : list (Z * list Z) :=
  (1, [46]) :: (1, [46; 46]) :: imap (fun j f => (2 + Z.of_nat j, fst f)) fs.

Lemma root_names_entries fs : root_entries fs = (fun p : Z * list Z => mkdirent (fst p) (snd p)) <$> root_names fs.
Proof. unfold root_entries, root_names. cbn [fmap list_fmap]. do 2 f_equal. change (list_fmap ?A ?B ?f ?l) with (f <$> l). by rewrite fmap_imap. Qed.

Lemma root_names_snd fs : (root_names fs).*2 = [46] :: [46; 46] :: fs.*1.
Proof.
  unfold root_names. cbn [fmap list_fmap snd]. do 2 f_equal. change (list_fmap ?A ?B ?f ?l) with (f <$> l). rewrite fmap_imap.
  generalize 2. induction fs as [|f fs IH]; intros z; [done|]. cbn. f_equal. rewrite <- (IH (z + 1)). apply imap_ext. intros. done.
Qed.

(** The directory gives every file its inode. *)
Lemma root_lookup fs j name c : (length fs <= 198)%nat -> Forall (fun f => bytes (fst f)) fs ->
  NoDup (cname <$> ([46] :: [46; 46] :: fs.*1)) -> fs !! j = Some (name, c) ->
  dir_inum (padded (mjoin (root_entries fs))) name = Some (2 + Z.of_nat j).
Proof.
  intros Hl Hb Hd Hj. destruct (entries_padded fs) as [m Em]. unfold dir_inum. rewrite Em, root_names_entries.
  assert (Hn : root_names fs !! S (S j) = Some (2 + Z.of_nat j, name)).
  { change (root_names fs !! S (S j)) with (imap (fun j f => (2 + Z.of_nat j, fst f)) fs !! j). by rewrite list_lookup_imap, Hj. }
  assert (Hf : Forall (fun p => bytes (snd p) /\ 0 < fst p < 65536) (root_names fs)).
  { apply Forall_cons. split; [split; [by repeat constructor|cbn; lia]|]. apply Forall_cons. split; [split; [by repeat constructor|cbn; lia]|].
    apply Forall_lookup. intros i p Hp. rewrite list_lookup_imap in Hp. destruct (fs !! i) as [f|] eqn:Ef; [|done]. injection Hp as <-.
    split; [by eapply (Forall_lookup_1 _ _ _ _ Hb)|]. apply lookup_lt_Some in Ef. cbn. lia. }
  pose proof (take_drop_middle _ _ _ Hn) as Et. rewrite <- root_names_snd in Hd. rewrite <- Et in *.
  apply find_entry; [|done|done]. by eapply (Forall_lookup_1 (fun f => bytes (fst f)) _ _ _ Hb) in Hj.
Qed.

Lemma stored_ext (v w : Z -> block) n : (forall b, v b = w b) -> stored msb v n = stored msb w n.
Proof. intros E. unfold stored, dinode_at. by rewrite E. Qed.

(** ** The file system *)

Section Disk.
Context (s : mst) (fs : list (list Z * list Z)) (v : Z -> block).
Let cs := padded (mjoin (root_entries fs)) :: fs.*2.
Context (I : image s cs) (E : forall n, v n = view s n).

Local Lemma dk_stored n : stored msb v n = stored msb (view s) n.
Proof. by apply stored_ext. Qed.

Local Lemma dk_length : length cs = S (length fs) /\ (length fs <= 198)%nat.
Proof. pose proof (proj2 (ig_count _ _ I)) as H. unfold cs in *. cbn [length] in *. rewrite length_fmap in *. lia. Qed.

Local Lemma dk_file n : 1 <= n < 2 + Z.of_nat (length fs) -> exists c, cs !! Z.to_nat (n - 1) = Some c /\ has_file s n (ftype (Z.to_nat (n - 1))) c.
Proof.
  intros Hn. destruct dk_length as [Hl _]. destruct (lookup_lt_is_Some_2 cs (Z.to_nat (n - 1)) ltac:(lia)) as [c Hc]. exists c. split; [done|].
  replace n with (1 + Z.of_nat (Z.to_nat (n - 1))) at 1 by lia. by apply I.
Qed.

Lemma image_linked n : linked msb v n <-> 1 <= n < 2 + Z.of_nat (length fs).
Proof.
  unfold linked. change (sb_ninodes msb) with 200. rewrite dk_stored. destruct dk_length as [Hl Hm]. split.
  - intros (Hn & Ht & _). destruct (decide (1 <= n < 2 + Z.of_nat (length fs))); [done|]. exfalso. apply Ht, (ig_none _ _ I); [done|lia].
  - intros Hn. destruct (dk_file n Hn) as (c & _ & F). rewrite (hf_type _ _ _ _ F), (hf_nlink _ _ _ _ F). split; [lia|]. split; [|lia].
    unfold ftype. by case_bool_decide.
Qed.

Lemma image_inode n : 1 <= n < 2 + Z.of_nat (length fs) -> inode_ok msb v (stored msb v n).
Proof.
  intros Hn. rewrite dk_stored. destruct (dk_file n Hn) as (c & _ & F). pose proof (hf_part _ _ _ _ F) as P. pose proof (hf_max _ _ _ _ F).
  split; [done|eapply file_ok_ext; [exact E|apply P]|rewrite (hf_size _ _ _ _ F); lia|].
  intros bn Hbn. rewrite (hf_size _ _ _ _ F) in Hbn. unfold addr_of. rewrite (slot_ext _ _ E).
  pose proof (part_mapped s _ (length c) (512 * bn) P ltac:(lia) ltac:(unfold MAXSIZE in *; lia)) as Hm.
  by rewrite Nat.mul_comm, Nat.div_mul in Hm by lia.
Qed.

Lemma image_contents k c : cs !! k = Some c -> file_of msb v (1 + Z.of_nat k) = c.
Proof.
  intros Hk. pose proof (ig_file _ _ I _ _ Hk) as F. unfold file_of. rewrite dk_stored, (hf_size _ _ _ _ F). unfold contents. rewrite Nat2Z.id.
  apply (nth_ext _ _ 0 0); [by rewrite length_fmap, length_seq|]. intros i Hi. rewrite length_fmap, length_seq in Hi.
  rewrite nth_lookup, list_lookup_fmap, lookup_seq_lt by done. cbn [fmap option_fmap option_map default id Nat.add].
  rewrite (fbyte_ext _ _ E). by apply (hf_bytes _ _ _ _ F).
Qed.

Lemma image_tree : tree_ok msb v.
Proof.
  destruct dk_length as [Hl Hm].
  assert (Hroot : forall n, 1 <= n < 2 + Z.of_nat (length fs) -> i_type (stored msb v n) = T_DIR -> n = 1).
  { intros n Hn. rewrite dk_stored. destruct (dk_file n Hn) as (c & _ & F). rewrite (hf_type _ _ _ _ F). unfold ftype.
    case_bool_decide; [lia|done]. }
  split; intros n.
  - intros Hn%image_linked. by apply image_inode.
  - intros Hn%image_linked Ht. rewrite (Hroot n Hn Ht), dk_stored. pose proof (ig_file _ _ I 0 _ eq_refl) as F.
    change (1 + Z.of_nat 0) with 1 in F. rewrite (hf_size _ _ _ _ F), length_padded. rewrite Nat2Z.inj_mul.
    change (Z.of_nat 512) with (32 * 16). rewrite Z.mul_assoc. apply Z_mod_mult.
  - intros e m Hn%image_linked Ht. rewrite (Hroot n Hn Ht), image_linked. pose proof (image_contents 0 _ eq_refl) as Ec.
    change (1 + Z.of_nat 0) with 1 in Ec. rewrite Ec. by apply root_range.
Qed.

Lemma image_used b : 58 < b < 1000 ->
  used msb v b = true <-> exists n, linked msb v n /\ owns v (i_addrs (stored msb v n)) b.
Proof.
  intros Hb. rewrite (used_ext _ _ E), view_used by (apply I || lia). rewrite Z.ltb_lt. destruct dk_length as [Hl Hm]. split.
  - intros Hf. destruct (ig_owned _ _ I b ltac:(lia)) as (k & Hk & Ho). exists (1 + Z.of_nat k). rewrite image_linked, dk_stored.
    split; [lia|]. by apply (owns_ext _ _ E).
  - intros (n & Hn%image_linked & Ho). rewrite dk_stored in Ho. apply (owns_ext _ _ E) in Ho as (Hz & i & Hi & Eo).
    destruct (dk_file n Hn) as (c & _ & F). pose proof (hf_part _ _ _ _ F) as P. rewrite <- Eo in Hz.
    pose proof (slot_range s _ i (ig_img _ _ I) (pa_file _ _ _ P) Hi Hz). unfold addrs_of in *. lia.
Qed.

Lemma image_apart n m b : linked msb v n -> linked msb v m -> owns v (i_addrs (stored msb v n)) b -> owns v (i_addrs (stored msb v m)) b -> n = m.
Proof.
  intros Hn%image_linked Hm%image_linked. rewrite !dk_stored, !(owns_ext _ _ E). destruct dk_length as [Hl _].
  intros O1 O2. pose proof (ig_apart _ _ I (Z.to_nat (n - 1)) (Z.to_nat (m - 1)) b ltac:(lia) ltac:(lia)) as H. unfold addrs_of in H.
  replace (1 + Z.of_nat (Z.to_nat (n - 1))) with n in H by lia. replace (1 + Z.of_nat (Z.to_nat (m - 1))) with m in H by lia. specialize (H O1 O2). lia.
Qed.

End Disk.

(** C21: The image is a file system with the given files.  For up to 198 files that
    fit, with distinct names, and unless the entries of the root directory fill
    its last block exactly, [main] returns and what it has written is a disk of
    1000 blocks with the super block in place, an empty log, a consistent
    directory tree in which every name leads to an inode with the bytes of its
    file, and a free map in which a data block is in use exactly when it belongs
    to a file, and then to one file only. *)
Theorem mkfs_image (files : list hostfile) (fs : list (list Z * list Z))
    (Hfiles : Forall2 hosts files fs) (Hcount : (length fs <= 198)%nat) (Hroot : ((2 + length fs) mod 32 <> 0)%nat)
    (Hsize : Forall (fun f => Z.of_nat (length (snd f)) <= MAXSIZE) fs)
    (Hroom : nmeta + Z.of_nat (blocks_of (image_of fs)) <= FSSIZE)
    (Hbytes : Forall (fun f => bytes (fst f)) fs) (Hnames : NoDup (cname <$> ([46] :: [46; 46] :: fs.*1))) :
  exists s, main files mkfs_start = Ret tt s /\ nsect s = FSSIZE /\
    fs_ok msb (sect s) /\ tree_ok msb (sect s) /\ (forall n, 2 <= n < 2 + nlog -> sect s n = zeroes) /\
    (forall j name c, fs !! j = Some (name, c) ->
       resolve msb (sect s) ROOTINO [name] = Some (2 + Z.of_nat j) /\
       i_type (stored msb (sect s) (2 + Z.of_nat j)) = T_FILE /\ file_of msb (sect s) (2 + Z.of_nat j) = c) /\
    (forall b, sb_bmapstart msb < b < FSSIZE ->
       used msb (sect s) b = true <-> exists n, linked msb (sect s) n /\ owns (sect s) (i_addrs (stored msb (sect s) n)) b) /\
    (forall n m b, linked msb (sect s) n -> linked msb (sect s) m ->
       owns (sect s) (i_addrs (stored msb (sect s) n)) b -> owns (sect s) (i_addrs (stored msb (sect s) m)) b -> n = m).
Proof.
  destruct (proj1 (wp_exists _ _ _) (main_run files fs Hfiles Hcount Hroot Hsize Hroom)) as (u & s' & Em & s & I & Hn & E). destruct u.
  exists s'. split_and!; [done|done|eapply fs_ok_ext; [exact E|apply img_fs_ok, I]|by eapply image_tree| | | |].
  - intros n Hr. rewrite E, view_sect by (unfold nlog in Hr; lia). apply (ig_log _ _ I). exact Hr.
  - intros j name c Hj. assert (Hk : (padded (mjoin (root_entries fs)) :: fs.*2) !! S j = Some c)
      by (change ((?x :: ?l) !! S j) with (l !! j); by rewrite list_lookup_fmap, Hj).
    pose proof (image_contents s fs (sect s') I E (S j) c Hk) as Ec. pose proof (ig_file _ _ I _ _ Hk) as F.
    replace (1 + Z.of_nat (S j)) with (2 + Z.of_nat j) in * by lia. split_and!; [|rewrite (dk_stored s (sect s') E); apply F|done].
    pose proof (ig_file _ _ I 0 _ eq_refl) as F0. pose proof (image_contents s fs (sect s') I E 0 _ eq_refl) as E0.
    change (1 + Z.of_nat 0) with ROOTINO in *. cbn [resolve]. rewrite (dk_stored s (sect s') E), (hf_type _ _ _ _ F0), E0.
    change (ftype 0 =? T_DIR) with true. cbn iota. by rewrite (root_lookup fs j name c).
  - intros b Hb. by eapply image_used.
  - intros n m b. by eapply image_apart.
Qed.

(** "_a" with the bytes "hi". *)
Lemma mkfs_image_witness : exists s, main [([95; 97], Some [[104; 105]])] mkfs_start = Ret tt s /\
  resolve msb (sect s) ROOTINO [[97]] = Some 2 /\ file_of msb (sect s) 2 = [104; 105].
Proof.
  destruct (mkfs_image [([95; 97], Some [[104; 105]])] [([97], [104; 105])]) as (s & E & _ & _ & _ & _ & H & _).
  - apply Forall2_cons. split; [|apply Forall2_nil_2]. split; [vm_compute; set_solver by lia|]. split; [reflexivity|]. by exists [[104; 105]].
  - cbn. lia.
  - vm_compute. discriminate.
  - apply Forall_cons. split; [vm_compute; discriminate|by apply Forall_nil_2].
  - vm_compute. discriminate.
  - apply Forall_cons. split; [repeat (apply Forall_cons; split; [lia|]); apply Forall_nil_2|by apply Forall_nil_2].
  - vm_compute. repeat (apply NoDup_cons; split; [set_solver|]). apply NoDup_nil_2.
  - exists s. split; [exact E|]. destruct (H 0%nat [97] [104; 105] eq_refl) as (H1 & _ & H2). split; [exact H1|exact H2].
Defined.

(** ** A full directory *)

(** C38: Whenever the entries of the root directory fill its last block exactly, as
    with 30 files, the size that [main] gives the directory takes one more block,
    and the directory has no such block: its blocks are exactly those of its
    entries. *)
Theorem mkfs_full_directory (files : list hostfile) (fs : list (list Z * list Z))
    (Hfiles : Forall2 hosts files fs) (Hcount : (length fs <= 198)%nat) (Hfull : ((2 + length fs) mod 32 = 0)%nat)
    (Hsize : Forall (fun f => Z.of_nat (length (snd f)) <= MAXSIZE) fs)
    (Hroom : nmeta + Z.of_nat (blocks_of (image_of fs)) <= FSSIZE) :
  exists s, main files mkfs_start = Ret tt s /\
    let dir := stored msb (sect s) ROOTINO in
    let n := ((2 + length fs) / 32)%nat in
    i_size dir = 512 * Z.of_nat n + 512 /\
    forall bn, (bn < 12)%nat -> addr_of (sect s) (i_addrs dir) bn <> 0 <-> (bn < n)%nat.
Proof.
  destruct (proj1 (wp_exists _ _ _) (main_image files fs Hfiles Hcount Hsize Hroom)) as (u & s' & Em & s & I & Hn & E). destruct u.
  exists s'. split; [done|]. cbv zeta. set (root := mjoin (root_entries fs)) in *.
  assert (Hlen : length root = (512 * ((2 + length fs) / 32))%nat).
  { unfold root. rewrite length_root. pose proof (Nat.div_mod (2 + length fs) 32 ltac:(lia)). lia. }
  assert (Hq : (length root / 512 = (2 + length fs) / 32)%nat) by (rewrite Hlen, Nat.mul_comm; apply Nat.div_mul; lia).
  pose proof (length_padded root) as Hpad. rewrite Hq in Hpad.
  pose proof (ig_file _ _ I 0 root eq_refl) as F. change (1 + Z.of_nat 0) with ROOTINO in F.
  pose proof (hf_part _ _ _ _ F) as P.
  assert (Hdiv : ((2 + length fs) / 32 < 7)%nat) by (apply Nat.Div0.div_lt_upper_bound; lia).
  assert (dinode_fits (set_isize (Z.of_nat (length (padded root))) (stored msb (view s) ROOTINO))) as Hfit.
  { destruct (hf_fits _ _ _ _ F) as [D1 D2 D3 D4 _ D6 D7]. split; [exact D1|exact D2|exact D3|exact D4| |exact D6|exact D7].
    cbn [i_size set_isize]. lia. }
  rewrite (stored_ext _ _ _ E). unfold root_sized. fold root. change 1 with ROOTINO.
  rewrite wrote_inode_at; [|apply I|unfold ROOTINO; lia|done]. cbn [i_size i_addrs set_isize]. split; [lia|].
  intros bn Hbn. fold (addrs_of s ROOTINO). unfold addr_of. assert (slot_of bn = bn) as -> by (unfold slot_of, NDIRECT; by rewrite bool_decide_true by lia).
  unfold slot, NDIRECT. rewrite bool_decide_true by lia.
  pose proof (pa_slots _ _ _ P bn ltac:(unfold NSLOT; lia)) as Hs. unfold slot, NDIRECT in Hs. rewrite bool_decide_true in Hs by lia.
  rewrite Hs, need_boundary, Hq by (unfold root; rewrite root_mod; lia).
  rewrite bool_decide_true by (unfold NDIRECT; lia). done.
Qed.

(** 30 empty files. *)
Definition thirty_files : list (list Z * list Z) := (fun i => ([97 + i], [])) <$> seqZ 0 30.

Lemma mkfs_full_directory_witness : exists s, main ((fun f => (fst f, Some [])) <$> thirty_files) mkfs_start = Ret tt s /\
  i_size (stored msb (sect s) ROOTINO) = 1024 /\ addr_of (sect s) (i_addrs (stored msb (sect s) ROOTINO)) 1 = 0.
Proof.
  destruct (mkfs_full_directory ((fun f => (fst f, Some [])) <$> thirty_files) thirty_files) as (s & E & H1 & H2).
  - apply Forall2_fmap_l, Forall_Forall2_diag. apply Forall_forall. intros f (i & -> & Hi%elem_of_seqZ)%list_elem_of_fmap.
    split; [cbn; unfold slash; set_solver by lia|]. split; [|by exists []]. unfold skip_underscore. cbn [fst].
    destruct (Z.eqb_spec (97 + i) 95); [lia|reflexivity].
  - vm_compute. lia.
  - reflexivity.
  - apply Forall_forall. intros f (i & -> & _)%list_elem_of_fmap. vm_compute. discriminate.
  - vm_compute. discriminate.
  - exists s. split; [exact E|]. split; [exact H1|]. destruct (decide (addr_of (sect s) (i_addrs (stored msb (sect s) ROOTINO)) 1 = 0)) as [|Hne]; [assumption|].
    exfalso. apply (H2 1%nat) in Hne; [vm_compute in Hne; lia|lia].
Defined.
