(* ===== verification/Syscall.v ===== *)
(** * System call arguments and process calls ([syscall.c], [sysproc.c])

    The kernel as a system call sees it: the process table, the user memory of the
    running process, the clock and the kernel below.  A user address is a [Z];
    user memory is a function from addresses to bytes.  [fetchstr] returns the
    bytes of the string with the pointer where the C code returns their number. *)
From S2P Require Import Prelude Str Proc Sleeplock Tx Fs File.

Record wst (S K : Type) := mkwst {
  um : mem;
  clock : Z;
  kern : kst S K;
}.
Arguments mkwst {S K} um clock kern.
Arguments um {S K} w.
Arguments clock {S K} w.
Arguments kern {S K} w.

(** [fetchstr]'s loop from [s] on. *)
Fixpoint scan_str (m : mem) (s ep : Z) (fuel : nat) : option (list Z) :=
  match fuel with
  | O => None
  | Datatypes.S k =>
      if s <? ep then
        if m s =? 0 then Some [] else cons (m s) <$> scan_str m (s + 1) ep k
      else None
  end.

Section Syscall.
Context {S K : Type} {SV : Services (wst S K)}.
Context (forkret trapret : Z).

(** [cur]: the slot of [myproc()]. *)
Context (cur : nat).

Abbreviation SM := (M (pst (wst S K))).

Definition user : SM mem := let! s := get in ret (um (world s)).
Definition store (a : Z) (bs : list Z) : SM unit :=
  inw (modify (fun w => mkwst (poke (um w) a bs) (clock w) (kern w))).
Definition inkern {A} (m : M (kst S K) A) : SM A :=
  inw (zoom kern (fun k w => mkwst (um w) (clock w) k) m).

Definition fetchint (addr : Z) : SM (option Z) :=
  let! p := slot cur in
  if (sz p <=? addr) || (sz p <? u32 (addr + 4)) then ret None
  else let! m := user in ret (Some (s32 (load32 m addr))).

Definition fetchstr (addr : Z) : SM (option (Z * list Z)) :=
  let! p := slot cur in
  if sz p <=? addr then ret None
  else let! m := user in
       ret ((fun str => (addr, str)) <$> scan_str m addr (sz p) (Z.to_nat (sz p - addr))).

Definition argint (n : Z) : SM (option Z) :=
  let! p := slot cur in fetchint (u32 (tf_esp (tf p) + 4 + 4 * n)).

Definition argptr (n size : Z) : SM (option Z) :=
  let! p := slot cur in
  let! i := argint n in
  match i with
  | None => ret None
  | Some i =>
      if (size <? 0) || (sz p <=? u32 i) || (sz p <? u32 (u32 i + size)) then ret None
      else ret (Some (u32 i))
  end.

Definition argstr (n : Z) : SM (option (Z * list Z)) :=
  let! addr := argint n in
  match addr with
  | None => ret None
  | Some addr => fetchstr (u32 addr)
  end.

(** ** [sysproc.c] *)

Definition sys_fork : SM Z := fork forkret trapret cur.
Definition sys_exit : SM Z := exit cur ;; ret 0.
Definition sys_wait : SM Z := wait cur.

Definition sys_kill : SM Z :=
  let! pid := argint 0 in
  match pid with None => ret (-1) | Some pid => kill pid end.

Definition sys_getpid : SM Z := let! p := slot cur in ret (pid p).

Definition sys_sbrk : SM Z :=
  let! n := argint 0 in
  match n with
  | None => ret (-1)
  | Some n =>
      let! p := slot cur in
      let addr := s32 (sz p) in
      let! r := growproc cur n in
      ret (if r <? 0 then -1 else addr)
  end.

(** [tickslock]: like the other locks, it changes this CPU's depth only. *)
Definition acquire_tl : SM unit := modify (fun s => set_lock (locked s) (ncli s + 1) s).
Definition release_tl : SM unit := modify (fun s => set_lock (locked s) (ncli s - 1) s).

Definition ticks_chan : wchan := ChAddr 0.
Definition read_clock : SM Z := let! s := get in ret (clock (world s)).

(** One round of [sys_sleep]'s loop, with [tickslock] held. *)
Definition sleep_round (ticks0 n : Z) : SM Z :=
  let! t := read_clock in
  if u32 (t - ticks0) <? u32 n then
    let! p := slot cur in
    if nz (killed p) then release_tl ;; ret (-1)
    else sleep (Some cur) ticks_chan (Some OtherLock)
  else release_tl ;; ret 0.

Definition sys_sleep : SM Z :=
  let! n := argint 0 in
  match n with
  | None => ret (-1)
  | Some n => acquire_tl ;; let! t := read_clock in sleep_round t n
  end.

(** [sys_sleep] when the process runs again. *)
Definition sys_sleep_resume (ticks0 n : Z) : SM Z :=
  sleep_resume cur OtherLock ;; sleep_round ticks0 n.

Definition sys_uptime : SM Z :=
  acquire_tl ;; let! t := read_clock in release_tl ;; ret (s32 t).

(** A [pstat_t] in memory: four ints, the name, the state and padding. *)
Definition put_pstat (t : pstat_t) (a : Z) : SM unit :=
  store a (le32 (st_inuse t) ++ le32 (st_tickets t) ++ le32 (st_pid t) ++ le32 (st_ticks t)
           ++ st_name t ++ [st_state t]).

Definition sizeof_pstat : Z := 36.

Definition sys_getpinfo : SM Z :=
  let! a := argptr 0 (sizeof_pstat * Z.of_nat NPROC) in
  match a with
  | None => ret (-1)
  | Some a =>
      let! t := fillpstat in
      for_each (indices (length t)) (fun i =>
        match t !! i with
        | Some e => put_pstat e (a + sizeof_pstat * Z.of_nat i)
        | None => ret tt
        end) ;;
      ret 0
  end.

Definition call_settickets : SM Z := let! n := argint 0 in Proc.sys_settickets (Some cur) n.

End Syscall.

(** ** What the argument checks guarantee *)

Lemma scan_str_spec m ep fuel : forall s, (Z.to_nat (ep - s) <= fuel)%nat ->
  match scan_str m s ep fuel with
  | Some str => s + Z.of_nat (length str) < ep /\ m (s + Z.of_nat (length str)) = 0 /\
      str = peek m s (Z.of_nat (length str)) /\ Forall (.≠ 0) str
  | None => forall a, s <= a < ep -> m a <> 0
  end.
Proof.
  induction fuel as [|k IH]; intros s Hf; cbn [scan_str].
  - intros a Ha. lia.
  - destruct (Z.ltb_spec s ep) as [Hs|Hs]; [|intros a Ha; lia].
    destruct (Z.eqb_spec (m s) 0) as [E|E].
    + cbn. rewrite Z.add_0_r. split_and!; [lia|done|done|done].
    + specialize (IH (s + 1) ltac:(lia)). destruct (scan_str m (s + 1) ep k) as [str|]; cbn.
      * destruct IH as (H1 & H2 & H3 & H4). split_and!; [lia|by rewrite <- H2; f_equal; lia| |by constructor].
        unfold peek in *. rewrite Nat2Z.id in *. cbn. f_equal; [f_equal; lia|].
        rewrite H3 at 1. rewrite <- seq_shift, <- list_fmap_compose. apply list_fmap_ext. intros i j _. cbn. f_equal. lia.
      * intros a Ha. destruct (Z.eq_dec a s) as [->|]; [done|]. apply IH. lia.
Qed.

Lemma load32_range m a : (forall x, 0 <= m x < 256) -> 0 <= load32 m a < 4294967296.
Proof.
  intros H. unfold load32, de32. pose proof (H a). pose proof (H (a + 1)). pose proof (H (a + 2)). pose proof (H (a + 3)). lia.
Qed.

Section Bounds.
Context {S K : Type} {SV : Services (wst S K)}.

(** C18: The user pointers the kernel accepts lie in the process: [argint] reads a
    word exactly when all of it is below [sz], [argptr] accepts exactly the blocks
    that start and end in the process, with no wrap-around of the sums, and
    [argstr] accepts exactly the pointers to a string that ends, NUL
    included, below [sz]; nothing is changed. *)
Theorem user_pointers_checked (cur : nat) (n size : Z) (s : pst (wst S K)) p :
  procs s !! cur = Some p -> 0 <= sz p <= 2147483648 -> -2147483648 <= size < 2147483648 ->
  let m := um (world s) in
  let at_ := u32 (tf_esp (tf p) + 4 + 4 * n) in
  let a := load32 m at_ in
  (forall x, 0 <= m x < 256) ->
  argint cur n s = Ret (if bool_decide (at_ + 4 <= sz p) then Some (s32 a) else None) s /\
  argptr cur n size s =
    Ret (if bool_decide (at_ + 4 <= sz p /\ 0 <= size /\ a < sz p /\ a + size <= sz p) then Some a else None) s /\
  exists r, argstr cur n s = Ret r s /\
    match r with
    | Some (q, str) => q = a /\ at_ + 4 <= sz p /\ a + Z.of_nat (length str) < sz p /\
        m (a + Z.of_nat (length str)) = 0 /\ str = peek m a (Z.of_nat (length str)) /\ Forall (.≠ 0) str
    | None => at_ + 4 <= sz p -> forall x, a <= x < sz p -> m x <> 0
    end.
Proof.
  intros Hp Hsz Hsize m at_ a Hm.
  assert (Hs : slot cur s = Ret p s) by (unfold slot, deref; cbn; by rewrite Hp).
  assert (Hat : 0 <= at_ < 4294967296) by apply u32_range.
  assert (Ha : 0 <= a < 4294967296) by (by apply load32_range).
  assert (Hint : argint cur n s = Ret (if bool_decide (at_ + 4 <= sz p) then Some (s32 a) else None) s).
  { unfold argint, bind. rewrite Hs. unfold fetchint, bind. rewrite Hs. fold at_.
    destruct (Z.leb_spec (sz p) at_); cbn [orb]; [by rewrite bool_decide_false by lia|].
    rewrite u32_small by lia. destruct (Z.ltb_spec (sz p) (at_ + 4)); [by rewrite bool_decide_false by lia|].
    by rewrite bool_decide_true by lia. }
  assert (Hu : u32 (s32 a) = a) by (rewrite u32_s32; by apply u32_small).
  split_and!; [done| |].
  - unfold argptr, bind. rewrite Hs, Hint. destruct (bool_decide_reflect (at_ + 4 <= sz p)) as [Hw|Hw].
    + rewrite Hu. destruct (Z.ltb_spec size 0); cbn [orb]; [by rewrite bool_decide_false by lia|].
      destruct (Z.leb_spec (sz p) a); cbn [orb]; [by rewrite bool_decide_false by lia|]. rewrite u32_small by lia.
      destruct (Z.ltb_spec (sz p) (a + size)); [by rewrite bool_decide_false by lia|]. by rewrite bool_decide_true by lia.
    + by rewrite bool_decide_false by lia.
  - unfold argstr, bind. rewrite Hint. destruct (bool_decide_reflect (at_ + 4 <= sz p)) as [Hw|Hw]; [|by exists None].
    rewrite Hu. unfold fetchstr, bind. rewrite Hs. destruct (Z.leb_spec (sz p) a) as [Hle|Hgt].
    + exists None. split; [done|]. intros _ x Hx. lia.
    + eexists. split; [reflexivity|]. fold m. pose proof (scan_str_spec m (sz p) (Z.to_nat (sz p - a)) a ltac:(lia)) as H.
      destruct (scan_str m a (sz p) (Z.to_nat (sz p - a))) as [str|]; cbn; [|tauto]. tauto.
Qed.

End Bounds.

(** A process whose first argument points to the string "hi". *)
Definition demo_um : mem := poke (poke (fun _ => 0) 104 [200; 0; 0; 0]) 200 [104; 105].

Definition demo_pst : pst (wst unit unit) :=
  mkpst [set_sz 4096 (set_tf (mktf 0 0 0 0 0 0 0 0 0 0 0 0 0 0 0 0 0 100 0) proc0)] 1 None false 0
    (mkwst demo_um 0 (mkkst [] ∅ [] tt (mkfs tt (mksb 0 0 0 0 0 0 0) []))).

Lemma user_pointers_checked_witness :
  argptr 0 0 3896 demo_pst = Ret (Some 200) demo_pst /\ argptr 0 0 3897 demo_pst = Ret None demo_pst.
Proof.
  assert (Hm : forall x, 0 <= demo_um x < 256).
  { intros x. unfold demo_um, poke. destruct (_ && _).
    - destruct (Z.to_nat (x - 200)) as [|[|[|?]]]; cbn; lia.
    - destruct (_ && _); [|lia]. destruct (Z.to_nat (x - 104)) as [|[|[|[|[|?]]]]]; cbn; lia. }
  split.
  - destruct (user_pointers_checked (S := unit) (K := unit) 0 0 3896 demo_pst
      (set_sz 4096 (set_tf (mktf 0 0 0 0 0 0 0 0 0 0 0 0 0 0 0 0 0 100 0) proc0))) as (_ & E & _).
    + reflexivity.
    + cbn. lia.
    + lia.
    + exact Hm.
    + rewrite E. reflexivity.
  - destruct (user_pointers_checked (S := unit) (K := unit) 0 0 3897 demo_pst
      (set_sz 4096 (set_tf (mktf 0 0 0 0 0 0 0 0 0 0 0 0 0 0 0 0 0 100 0) proc0))) as (_ & E & _).
    + reflexivity.
    + cbn. lia.
    + lia.
    + exact Hm.
    + rewrite E. reflexivity.
Defined.
