(* ===== verification/Sysfile.v ===== *)
(** * File system calls ([sysfile.c], [fcntl.h])

    Each call fetches its arguments from user memory, works on the files and
    inodes below and stores its results in user memory.  [exec] is a parameter
    here. *)
From S2P Require Import Prelude Str Proc Sleeplock Tx Fs File Syscall.

Definition O_RDONLY : Z := 0.
Definition O_WRONLY : Z := 1.
Definition O_RDWR : Z := 2.
Definition O_CREATE : Z := 512.
Definition MAXARG : nat := 32.

Definition dot_name : list Z := [46].
Definition dotdot_name : list Z := [46; 46].

Section Sysfile.
Context {S K : Type} {TO : TxOps S} {PO : PageOps K}.

(** [cur] is the slot of [myproc()], [me] its pid. *)
Context (cur : nat) (me : Z) (was_killed : bool).
Context (dev_read : Z -> option (Z -> M (fsst S) (Z * list Z))).
Context (dev_write : Z -> option (list Z -> M (fsst S) Z)).
Context (junk : Z -> list Z).
Context (exec : list Z -> list (list Z) -> M (pst (wst S K)) Z).

Abbreviation SM := (M (pst (wst S K))).

Definition infile {A} (m : M (fsst S) A) : SM A := inkern (infs m).
Definition begin_call : SM unit := inkern fbegin.
Definition end_call : SM unit := inkern fend.

(** The file descriptor and the file it stands for. *)
Definition argfd (n : Z) : SM (option (nat * nat)) :=
  let! fd := argint cur n in
  match fd with
  | None => ret None
  | Some fd =>
      if (fd <? 0) || (Z.of_nat NOFILE <=? fd) then ret None
      else
        let! p := slot cur in
        match ofile p !! Z.to_nat fd with
        | Some (Some f) => ret (Some (Z.to_nat fd, f))
        | _ => ret None
        end
  end.

(** The first free descriptor. *)
Fixpoint free_fd (l : list (option nat)) (fd : nat) : option nat :=
  match l with
  | [] => None
  | None :: _ => Some fd
  | Some _ :: l => free_fd l (Datatypes.S fd)
  end.

Definition set_fd (fd : nat) (f : option nat) : SM unit :=
  on cur (fun p => set_ofile (<[fd := f]> (ofile p)) p).

Definition fdalloc (f : nat) : SM (option nat) :=
  let! p := slot cur in
  match free_fd (ofile p) 0 with
  | Some fd => set_fd fd (Some f) ;; ret (Some fd)
  | None => ret None
  end.

Definition sys_dup : SM Z :=
  let! a := argfd 0 in
  match a with
  | None => ret (-1)
  | Some (_, f) =>
      let! fd := fdalloc f in
      match fd with
      | None => ret (-1)
      | Some fd => inkern (filedup f) ;; ret (Z.of_nat fd)
      end
  end.

Definition sys_read : SM Z :=
  let! a := argfd 0 in
  match a with
  | None => ret (-1)
  | Some (_, f) =>
      let! n := argint cur 2 in
      match n with
      | None => ret (-1)
      | Some n =>
          let! p := argptr cur 1 n in
          match p with
          | None => ret (-1)
          | Some p =>
              let! (r, bs) := inkern (fileread me was_killed dev_read f n) in
              store p bs ;;
              ret r
          end
      end
  end.

Definition sys_write : SM Z :=
  let! a := argfd 0 in
  match a with
  | None => ret (-1)
  | Some (_, f) =>
      let! n := argint cur 2 in
      match n with
      | None => ret (-1)
      | Some n =>
          let! p := argptr cur 1 n in
          match p with
          | None => ret (-1)
          | Some p =>
              let! m := user in
              inkern (filewrite me was_killed dev_write f (peek m p n))
          end
      end
  end.

Definition sys_close : SM Z :=
  let! a := argfd 0 in
  match a with
  | None => ret (-1)
  | Some (fd, f) => set_fd fd None ;; inkern (fileclose me f) ;; ret 0
  end.

(** [struct stat] in memory; its padding is left alone. *)
Definition put_stat (st : stat) (a : Z) : SM unit :=
  store a [u8 (st_type st); u8 (st_type st / 256)] ;;
  store (a + 4) (le32 (st_dev st)) ;;
  store (a + 8) (le32 (st_ino st)) ;;
  store (a + 12) [u8 (st_nlink st); u8 (st_nlink st / 256)] ;;
  store (a + 16) (le32 (st_size st)).

Definition sizeof_stat : Z := 20.

Definition sys_fstat : SM Z :=
  let! a := argfd 0 in
  match a with
  | None => ret (-1)
  | Some (_, f) =>
      let! p := argptr cur 1 sizeof_stat in
      match p with
      | None => ret (-1)
      | Some p =>
          let! st := inkern (filestat me f) in
          match st with
          | None => ret (-1)
          | Some st => put_stat st p ;; ret 0
          end
      end
  end.

(** [myproc()->cwd] *)
Definition my_cwd : SM nat := let! p := slot cur in deref (cwd p).

Definition name_i (path : list Z) : SM (option nat) :=
  let! d := my_cwd in infile (namei me dev_read d path).

(** The parent directory and the last element, in a buffer on the stack. *)
Definition name_parent (path : list Z) : SM (option nat * list Z) :=
  let! d := my_cwd in infile (nameiparent me dev_read d path (repeat 0 DIRSIZ)).

Definition i_get (ip : nat) : SM inode := infile (geti ip).
Definition add_nlink (ip : nat) (k : Z) : SM unit :=
  infile (seti ip (fun x => set_nlink (s16 (i_nlink x + k)) x)).

(** [sys_link] at [bad]. *)
Definition link_bad (ip : nat) : SM Z :=
  infile (ilock me ip) ;;
  add_nlink ip (-1) ;;
  infile (iupdate ip) ;;
  infile (iunlockput me ip) ;;
  end_call ;;
  ret (-1).

Definition sys_link : SM Z :=
  let! old := argstr cur 0 in
  match old with
  | None => ret (-1)
  | Some (_, old) =>
  let! new := argstr cur 1 in
  match new with
  | None => ret (-1)
  | Some (_, new) =>
  begin_call ;;
  let! ip := name_i old in
  match ip with
  | None => end_call ;; ret (-1)
  | Some ip =>
      infile (ilock me ip) ;;
      let! x := i_get ip in
      if i_type x =? T_DIR then
        infile (iunlockput me ip) ;; end_call ;; ret (-1)
      else
        add_nlink ip 1 ;;
        infile (iupdate ip) ;;
        infile (iunlock me ip) ;;
        let! (dp, name) := name_parent new in
        match dp with
        | None => link_bad ip
        | Some dp =>
            infile (ilock me dp) ;;
            let! d := i_get dp in
            let! x := i_get ip in
            let! ok := (if negb (i_dev d =? i_dev x) then ret false
                        else let! r := infile (dirlink me dev_read dev_write dp name (i_inum x)) in
                             ret (negb (r <? 0))) in
            if ok then
              infile (iunlockput me dp) ;;
              infile (iput me ip) ;;
              end_call ;;
              ret 0
            else
              infile (iunlockput me dp) ;; link_bad ip
        end
  end
  end
  end.

(** [isdirempty]'s loop from [off] on. *)
Fixpoint isdirempty_loop (fuel dp : nat) (off : Z) : M (fsst S) bool :=
  let! x := geti dp in
  if off <? i_size x then
    match fuel with
    | O => fault "fuel"
    | Datatypes.S k =>
        let! (r, de) := readi dev_read dp off 16 in
        if negb (r =? 16) then panic "isdirempty: readi"
        else if nz (de_inum de) then ret false
        else isdirempty_loop k dp (off + 16)
    end
  else ret true.

Definition isdirempty (dp : nat) : M (fsst S) bool :=
  let! x := geti dp in
  isdirempty_loop (Z.to_nat (i_size x / 16 + 1)) dp 32.

(** [sys_unlink] at [bad]. *)
Definition unlink_bad (dp : nat) : SM Z :=
  infile (iunlockput me dp) ;; end_call ;; ret (-1).

Definition sys_unlink : SM Z :=
  let! path := argstr cur 0 in
  match path with
  | None => ret (-1)
  | Some (_, path) =>
  begin_call ;;
  let! (dp, name) := name_parent path in
  match dp with
  | None => end_call ;; ret (-1)
  | Some dp =>
      infile (ilock me dp) ;;
      if (namecmp name dot_name =? 0) || (namecmp name dotdot_name =? 0) then unlink_bad dp
      else
        let! r := infile (dirlookup dev_read dp name) in
        match r with
        | None => unlink_bad dp
        | Some (ip, off) =>
            infile (ilock me ip) ;;
            let! x := i_get ip in
            if i_nlink x <? 1 then panic "unlink: nlink < 1"
            else
              let! busy := (if i_type x =? T_DIR
                            then let! e := infile (isdirempty ip) in ret (negb e)
                            else ret false) in
              if busy then infile (iunlockput me ip) ;; unlink_bad dp
              else
                let! w := infile (writei dev_write dp (repeat 0 16) off) in
                if negb (w =? 16) then panic "unlink: writei"
                else
                  let! x := i_get ip in
                  when (i_type x =? T_DIR) (add_nlink dp (-1) ;; infile (iupdate dp)) ;;
                  infile (iunlockput me dp) ;;
                  add_nlink ip (-1) ;;
                  infile (iupdate ip) ;;
                  infile (iunlockput me ip) ;;
                  end_call ;;
                  ret 0
        end
  end
  end.

Definition create (path : list Z) (type major minor : Z) : SM (option nat) :=
  let! (dp, name) := name_parent path in
  match dp with
  | None => ret None
  | Some dp =>
      infile (ilock me dp) ;;
      let! r := infile (dirlookup dev_read dp name) in
      match r with
      | Some (ip, _) =>
          infile (iunlockput me dp) ;;
          infile (ilock me ip) ;;
          let! x := i_get ip in
          if (type =? T_FILE) && (i_type x =? T_FILE) then ret (Some ip)
          else infile (iunlockput me ip) ;; ret None
      | None =>
          let! d := i_get dp in
          let! ip := infile (ialloc (i_dev d) type) in
          infile (ilock me ip) ;;
          infile (seti ip (fun x => set_nlink 1 (set_majmin major minor x))) ;;
          infile (iupdate ip) ;;
          let! x := i_get ip in
          when (type =? T_DIR)
            (add_nlink dp 1 ;;
             infile (iupdate dp) ;;
             let! d := i_get dp in
             let! r1 := infile (dirlink me dev_read dev_write ip dot_name (i_inum x)) in
             let! bad := (if r1 <? 0 then ret true
                          else let! r2 := infile (dirlink me dev_read dev_write ip dotdot_name (i_inum d)) in
                               ret (r2 <? 0)) in
             if bad then panic "create dots" else ret tt) ;;
          let! r := infile (dirlink me dev_read dev_write dp name (i_inum x)) in
          if r <? 0 then panic "create: dirlink"
          else infile (iunlockput me dp) ;; ret (Some ip)
      end
  end.

Definition open_failed (ip : nat) : SM Z :=
  infile (iunlockput me ip) ;; end_call ;; ret (-1).

(** [sys_open] once the inode is locked. *)
Definition open_inode (ip : nat) (omode : Z) : SM Z :=
  let! f := inkern filealloc in
  match f with
  | None => open_failed ip
  | Some f =>
      let! fd := fdalloc f in
      match fd with
      | None => inkern (fileclose me f) ;; open_failed ip
      | Some fd =>
          infile (iunlock me ip) ;;
          end_call ;;
          inkern (setf f (fun x => mkfile FD_INODE (f_ref x)
            (if nz (Z.land omode O_WRONLY) then 0 else 1)
            (if nz (Z.land omode O_WRONLY) || nz (Z.land omode O_RDWR) then 1 else 0)
            (f_pipe x) ip 0)) ;;
          ret (Z.of_nat fd)
      end
  end.

Definition sys_open : SM Z :=
  let! path := argstr cur 0 in
  match path with
  | None => ret (-1)
  | Some (_, path) =>
  let! omode := argint cur 1 in
  match omode with
  | None => ret (-1)
  | Some omode =>
      begin_call ;;
      if nz (Z.land omode O_CREATE) then
        let! ip := create path T_FILE 0 0 in
        match ip with
        | None => end_call ;; ret (-1)
        | Some ip => open_inode ip omode
        end
      else
        let! ip := name_i path in
        match ip with
        | None => end_call ;; ret (-1)
        | Some ip =>
            infile (ilock me ip) ;;
            let! x := i_get ip in
            if (i_type x =? T_DIR) && negb (omode =? O_RDONLY) then open_failed ip
            else open_inode ip omode
        end
  end
  end.

(** The end of [sys_mkdir] and [sys_mknod]. *)
Definition made (ip : option nat) : SM Z :=
  match ip with
  | None => end_call ;; ret (-1)
  | Some ip => infile (iunlockput me ip) ;; end_call ;; ret 0
  end.

Definition sys_mkdir : SM Z :=
  begin_call ;;
  let! path := argstr cur 0 in
  match path with
  | None => made None
  | Some (_, path) => let! ip := create path T_DIR 0 0 in made ip
  end.

Definition sys_mknod : SM Z :=
  begin_call ;;
  let! path := argstr cur 0 in
  match path with
  | None => made None
  | Some (_, path) =>
      let! major := argint cur 1 in
      match major with
      | None => made None
      | Some major =>
          let! minor := argint cur 2 in
          match minor with
          | None => made None
          | Some minor => let! ip := create path T_DEV (s16 major) (s16 minor) in made ip
          end
      end
  end.

Definition sys_chdir : SM Z :=
  begin_call ;;
  let! path := argstr cur 0 in
  let! ip := match path with None => ret None | Some (_, path) => name_i path end in
  match ip with
  | None => end_call ;; ret (-1)
  | Some ip =>
      infile (ilock me ip) ;;
      let! x := i_get ip in
      if negb (i_type x =? T_DIR) then open_failed ip
      else
        infile (iunlock me ip) ;;
        let! d := my_cwd in
        infile (iput me d) ;;
        end_call ;;
        on cur (set_cwd (Some ip)) ;;
        ret 0
  end.

(** [sys_exec]'s loop over the argument pointers, from [i] on. *)
Fixpoint exec_args (left : nat) (uargv : Z) : SM (option (list (list Z))) :=
  match left with
  | O => ret None
  | Datatypes.S k =>
      let! uarg := fetchint cur uargv in
      match uarg with
      | None => ret None
      | Some uarg =>
          if uarg =? 0 then ret (Some [])
          else
            let! a := fetchstr cur (u32 uarg) in
            match a with
            | None => ret None
            | Some (_, a) =>
                let! l := exec_args k (u32 (uargv + 4)) in
                ret (cons a <$> l)
            end
      end
  end.

Definition sys_exec : SM Z :=
  let! path := argstr cur 0 in
  match path with
  | None => ret (-1)
  | Some (_, path) =>
      let! uargv := argint cur 1 in
      match uargv with
      | None => ret (-1)
      | Some uargv =>
          let! argv := exec_args MAXARG (u32 uargv) in
          match argv with
          | None => ret (-1)
          | Some argv => exec path argv
          end
      end
  end.

Definition sys_pipe : SM Z :=
  let! p := argptr cur 0 8 in
  match p with
  | None => ret (-1)
  | Some p =>
      let! r := inkern (pipealloc me junk) in
      match r with
      | None => ret (-1)
      | Some (rf, wf) =>
          let! fd0 := fdalloc rf in
          match fd0 with
          | None => inkern (fileclose me rf) ;; inkern (fileclose me wf) ;; ret (-1)
          | Some fd0 =>
              let! fd1 := fdalloc wf in
              match fd1 with
              | None =>
                  set_fd fd0 None ;;
                  inkern (fileclose me rf) ;; inkern (fileclose me wf) ;; ret (-1)
              | Some fd1 =>
                  store p (le32 (Z.of_nat fd0)) ;;
                  store (p + 4) (le32 (Z.of_nat fd1)) ;;
                  ret 0
              end
          end
      end
  end.

End Sysfile.
