(* ===== verification/ShRun.v ===== *)
(** * The shell runs commands ([sh.c])

    [main] and [runcmd] as the processes that they make and the programs that
    those start, each with its descriptors.  All processes run at once: a step is
    what one of them does from one system call to the next, [wait] goes on when a
    child has exited, and a program that was started ends at any time. *)
From S2P Require Import Prelude Sysfile Sh.

(** A process by the forks that lead to it from the shell: [[3; 0]] is the first
    child of the shell's fourth. *)
Abbreviation path := (list nat).

(** What a descriptor refers to: something inherited, an opened file, or an end of
    the pipe that a process made. *)
Inductive obj := Inherited (n : nat) | Opened (file : list Z) (mode : Z) | PipeRead (who : path) | PipeWrite (who : path).

Definition fdtab : Type := list (option obj).

(** ** System calls on descriptors *)

Fixpoint lowest {A} (t : list (option A)) (fd : nat) : option nat :=
  match t with
  | [] => None
  | None :: _ => Some fd
  | Some _ :: t => lowest t (S fd)
  end.

(** The kernel's rule. *)
Lemma lowest_free_fd (l : list (option nat)) fd : lowest l fd = free_fd l fd.
Proof. revert fd. induction l as [|[x|] l IH]; intros fd; cbn; [done|apply IH|done]. Qed.

Definition fd_close (fd : nat) (t : fdtab) : fdtab := <[fd := None]> t.

Definition fd_take (o : obj) (t : fdtab) : option (nat * fdtab) := (fun fd => (fd, <[fd := Some o]> t)) <$> lowest t 0.

(** The result is not looked at. *)
Definition fd_dup (fd : nat) (t : fdtab) : fdtab :=
  match t !! fd with
  | Some (Some o) => match fd_take o t with Some (_, t) => t | None => t end
  | _ => t
  end.

Definition fd_pipe (who : path) (t : fdtab) : option (nat * nat * fdtab) :=
  '(p0, t) ← fd_take (PipeRead who) t;
  '(p1, t) ← fd_take (PipeWrite who) t;
  Some (p0, p1, t).

(** ** [runcmd] *)

(** What a process has still to do: [main]'s loop over the lines to come and its
    [wait]; the child's [parsecmd]; [runcmd] of a command; in [runcmd] the [wait]
    of a list, the two forks of a pipe with its descriptors, and its calls of
    [wait]; the end of [runcmd]; the program it has become; nothing, with its
    parent to be told or told. *)
Inductive code :=
| MainLoop (lines : list (list Z)) | MainWait (lines : list (list Z)) | Line (line : list Z)
| Cmd (c : cmd (list Z)) | WaitThen (c : cmd (list Z))
| ForkLeft (l r : cmd (list Z)) (p0 p1 : nat) | ForkRight (r : cmd (list Z)) (p0 p1 : nat) | PipeWait (n : nat)
| Leave | Prog (argv : list (list Z)) | Zombie | Reaped.

(** What a process does next: goes on with other code and descriptors, forks, becomes
    a program, exits with a message, changes directory, or waits. *)
Inductive action :=
| Goes (k : code) (t : fdtab)
| Forks (ck : code) (ct : fdtab) (k : code) (t : fdtab)
| Becomes (argv : list (list Z))
| Exits (msg : option string)
| Chdirs (dir : list Z) (ok : bool) (k : code)
| Blocks (k : code)
| Nothing.

(** [if(fork1() == 0) child; rest]; [panic("fork")] ends the process.  Here and
    below [ok]: the system call succeeds. *)
Definition fork1 (ok : bool) (ck : code) (ct : fdtab) (k : code) (t : fdtab) : action :=
  if ok then Forks ck ct k t else Exits (Some "fork").

(** [runcmd(c)] in the process [who] up to its first system call that others can
    see; [pipe]'s and [open]'s results are kept by the process alone. *)
Definition runcmd (ok : bool) (who : path) (c : cmd (list Z)) (t : fdtab) : action :=
  match c with
  | EXEC argv =>
      match argv with
      | [] => Exits None
      | _ :: _ => if ok then Becomes argv else Exits (Some "exec %s failed")
      end
  | REDIR c file mode fd =>
      match (if ok then fd_take (Opened file mode) (fd_close (Z.to_nat fd) t) else None) with
      | Some (_, t) => Goes (Cmd c) t
      | None => Exits (Some "open %s failed")
      end
  | LIST l r => fork1 ok (Cmd l) t (WaitThen r) t
  | PIPE l r =>
      match (if ok then fd_pipe who t else None) with
      | Some (p0, p1, t) => Goes (ForkLeft l r p0 p1) t
      | None => Exits (Some "pipe")
      end
  | BACK c => fork1 ok (Cmd c) t Leave t
  end.

(** ** [main] *)

(** [while((fd = open("console", O_RDWR)) >= 0)]: four turns are enough. *)
Fixpoint ensure_three (fuel : nat) (t : fdtab) : fdtab :=
  match fuel with
  | O => t
  | S k =>
      match fd_take (Opened [99; 111; 110; 115; 111; 108; 101] 2) t with
      | None => t
      | Some (fd, t) => if (3 <=? fd)%nat then fd_close fd t else ensure_three k t
      end
  end.

(** The command whose words are the strings of the buffer. *)
Fixpoint strings (buf : list Z) (c : cmd word) : cmd (list Z) :=
  match c with
  | EXEC argv => EXEC ((fun w => string_at buf (fst w)) <$> argv)
  | REDIR c f m d => REDIR (strings buf c) (string_at buf (fst f)) m d
  | PIPE l r => PIPE (strings buf l) (strings buf r)
  | LIST l r => LIST (strings buf l) (strings buf r)
  | BACK c => BACK (strings buf c)
  end.

(** One turn of the loop, for the line that [getcmd] has read. *)
Definition shell_line (ok : bool) (line : list Z) (rest : list (list Z)) (t : fdtab) : action :=
  if bool_decide (take 3 line = [99; 100; 32]) then
    Chdirs (drop 3 (take (length line - 1) line)) ok (MainLoop rest)
  else fork1 ok (Line line) t (MainWait rest) t.

(** The next action of the process [who]. *)
Definition advance (ok : bool) (who : path) (k : code) (t : fdtab) : action :=
  match k with
  | MainLoop [] => Exits None
  | MainLoop (line :: rest) => shell_line ok line rest t
  | MainWait rest => Blocks (MainLoop rest)
  | Line line =>
      match parsecmd line with
      | Ret (c, buf) _ => Goes (Cmd (strings buf c)) t
      | Stop (Panic m) => Exits (Some m)
      | _ => Exits None
      end
  | Cmd c => runcmd ok who c t
  | WaitThen c => Blocks (Cmd c)
  | ForkLeft l r p0 p1 =>
      fork1 ok (Cmd l) (fd_close p1 (fd_close p0 (fd_dup p1 (fd_close 1 t)))) (ForkRight r p0 p1) t
  | ForkRight r p0 p1 =>
      fork1 ok (Cmd r) (fd_close p1 (fd_close p0 (fd_dup p0 (fd_close 0 t)))) (PipeWait 2) (fd_close p1 (fd_close p0 t))
  | PipeWait O => Exits None
  | PipeWait (S n) => Blocks (PipeWait n)
  | Leave => Exits None
  | Prog _ => Exits None
  | Zombie | Reaped => Nothing
  end.

(** ** The processes together *)

Inductive event :=
| Start (who : path) (argv : list (list Z)) (t : fdtab)
| Exit (who : path)
| Says (who : path) (msg : string)
| Chdir (dir : list Z) (ok : bool).

(** [kids]: the children forked so far. *)
Record process := mkprocess { tab : fdtab; kids : nat; now : code }.

Definition with_code (k : code) (p : process) : process := mkprocess (tab p) (kids p) k.

Record state := mkstate { procs : gmap path process; events : list event }.

(** The process [who], which is [p], does [a]. *)
Definition act (who : path) (p : process) (a : action) (s : state) : option state :=
  match a with
  | Goes k t => Some (mkstate (<[who := mkprocess t (kids p) k]> (procs s)) (events s))
  | Forks ck ct k t =>
      Some (mkstate (<[who ++ [kids p] := mkprocess ct 0 ck]>
                       (<[who := mkprocess t (S (kids p)) k]> (procs s))) (events s))
  | Becomes argv =>
      Some (mkstate (<[who := with_code (Prog argv) p]> (procs s)) (events s ++ [Start who argv (tab p)]))
  | Exits msg =>
      Some (mkstate (<[who := with_code Zombie p]> (procs s))
              (events s ++ match msg with Some m => [Says who m] | None => [] end ++ [Exit who]))
  | Chdirs dir ok k => Some (mkstate (<[who := with_code k p]> (procs s)) (events s ++ [Chdir dir ok]))
  | Blocks _ | Nothing => None
  end.

(** [wait] takes a child that has exited, or returns at once when there is none
    left.  With [fails], system calls may fail. *)
Inductive step (fails : bool) : state -> state -> Prop :=
| step_act s who p ok s' :
    procs s !! who = Some p -> (ok = true \/ fails = true) ->
    act who p (advance ok who (now p) (tab p)) s = Some s' -> step fails s s'
| step_wait s who p k i q :
    procs s !! who = Some p -> advance true who (now p) (tab p) = Blocks k ->
    procs s !! (who ++ [i]) = Some q -> now q = Zombie ->
    step fails s (mkstate (<[who ++ [i] := with_code Reaped q]>
      (<[who := with_code k p]> (procs s))) (events s))
| step_alone s who p k :
    procs s !! who = Some p -> advance true who (now p) (tab p) = Blocks k ->
    (forall i q, procs s !! (who ++ [i]) = Some q -> now q = Reaped) ->
    step fails s (mkstate (<[who := with_code k p]> (procs s)) (events s)).

(** [main] with the lines that [getcmd] is going to read. *)
Definition shell_main (t : fdtab) (lines : list (list Z)) : state :=
  mkstate {[ [] := mkprocess (ensure_three 4 t) 0 (MainLoop lines) ]} [].
