(* ===== verification/ShRunSpec.v ===== *)
(** * What the shell starts ([sh.c])

    The programs of a command with their descriptors, the order that lists, pipes
    and lines ask for, and the proof that every interleaving of the processes of
    [ShRun] keeps to them, ends and leaves nothing out. *)
From S2P Require Import Prelude Sysfile Sh ShSpec ShRun.

(** ** What a command should start *)

(** Standard input, output and error. *)
Record stdio := mkstdio { s_in : obj; s_out : obj; s_err : obj }.

(** These three and nothing else. *)
Definition table (io : stdio) : fdtab := [Some (s_in io); Some (s_out io); Some (s_err io)] ++ replicate 13 None.

Definition redirect (fd : Z) (o : obj) (io : stdio) : stdio :=
  if fd =? 0 then mkstdio o (s_out io) (s_err io) else mkstdio (s_in io) o (s_err io).

(** A program of a command: the process that becomes it, its arguments, its standard
    descriptors, and the processes that have to be over before. *)
Record entry := mkentry { e_who : path; e_argv : list (list Z); e_io : stdio; e_after : list path }.

(** The programs of [c] run by the process [who], which has forked [n] times, once
    the processes [pre] are over. *)
Fixpoint plan (c : cmd (list Z)) (io : stdio) (who : path) (n : nat) (pre : list path) : list entry :=
  match c with
  | EXEC argv => if bool_decide (argv = []) then [] else [mkentry who argv io pre]
  | REDIR c file mode fd => plan c (redirect fd (Opened file mode) io) who n pre
  | LIST l r => plan l io (who ++ [n]) 0 pre ++ plan r io who (S n) (pre ++ [who ++ [n]])
  | PIPE l r =>
      plan l (redirect 1 (PipeWrite who) io) (who ++ [n]) 0 pre ++
      plan r (redirect 0 (PipeRead who) io) (who ++ [S n]) 0 pre
  | BACK c => plan c io (who ++ [n]) 0 pre
  end.

(** Which process has to be over before which one is: both sides of a pipe, and the
    left one of a list; not what runs in the background. *)
Fixpoint joins (c : cmd (list Z)) (who : path) (n : nat) : list (path * path) :=
  match c with
  | EXEC _ => []
  | REDIR c _ _ _ => joins c who n
  | LIST l r => (who ++ [n], who) :: joins l (who ++ [n]) 0 ++ joins r who (S n)
  | PIPE l r => (who ++ [n], who) :: (who ++ [S n], who) :: joins l (who ++ [n]) 0 ++ joins r (who ++ [S n]) 0
  | BACK c => joins c (who ++ [n]) 0
  end.

(** The lines of a session are one long list. *)
Definition session (cs : list (cmd (list Z))) : cmd (list Z) := foldr LIST (EXEC []) cs.

(** A program as an entry says, and the programs that were started. *)
Definition e_start (e : entry) : path * list (list Z) * fdtab := (e_who e, e_argv e, table (e_io e)).
Definition started (s : state) : list (path * list (list Z) * fdtab) :=
  omap (fun e => match e with Start who argv t => Some (who, argv, t) | _ => None end) (events s).

(** Redirections of standard input and output only, as the parser makes them. *)
Fixpoint std_redirs {W} (c : cmd W) : Prop :=
  match c with
  | EXEC _ => True
  | REDIR c _ _ fd => (fd = 0 \/ fd = 1) /\ std_redirs c
  | LIST l r | PIPE l r => std_redirs l /\ std_redirs r
  | BACK c => std_redirs c
  end.

Lemma lowest_above {A} (t : list (option A)) fd n : lowest t fd = Some n -> (fd <= n)%nat.
Proof. revert fd. induction t as [|[x|] t IH]; intros fd H; cbn in H; [done|apply IH in H; lia|injection H as <-; lia]. Qed.

(** The three standard descriptors are open after the loop of [main]. *)
Lemma ensure_three_open (a b c : option obj) (t : fdtab) : exists x y z t', ensure_three 4 (a :: b :: c :: t) = Some x :: Some y :: Some z :: t'.
Proof.
  destruct a as [a|], b as [b|], c as [c|]; cbn; unfold fd_take; cbn; destruct (lowest t 3) as [n|] eqn:E; cbn; eauto;
    apply lowest_above in E; destruct n as [|[|[|n]]]; try lia; cbn; eauto.
Qed.

(** ** The main loop as a list *)

(** The command of a line. *)
Definition command (line : list Z) : cmd (list Z) :=
  match parsecmd line with Ret (c, buf) _ => strings buf c | _ => EXEC [] end.

(** [main]'s loop and its child's parsing, seen as [runcmd]. *)
Definition viewc (k : code) : code :=
  match k with
  | MainLoop lines => Cmd (session (command <$> lines))
  | MainWait lines => WaitThen (session (command <$> lines))
  | Line line => Cmd (command line)
  | k => k
  end.

(** Lines that are commands. *)
Definition plain (line : list Z) : Prop :=
  (exists c buf s, parsecmd line = Ret (c, buf) s) /\ take 3 line <> [99; 100; 32] /\ std_redirs (command line).

Definition lines_of (k : code) : list (list Z) :=
  match k with MainLoop ls | MainWait ls => ls | Line l => [l] | _ => [] end.

Lemma session_std lines : Forall plain lines -> std_redirs (session (command <$> lines)).
Proof. induction 1 as [|l ls (_ & _ & H) _ IH]; cbn; [done|]. by split. Qed.

(** ** Descriptors of a process *)

Definition io_of (t : fdtab) : stdio :=
  let o n := match t !! n with Some (Some o) => o | _ => Inherited n end in mkstdio (o 0%nat) (o 1%nat) (o 2%nat).

(** The three and a pipe. *)
Definition pipe_tab (who : path) (io : stdio) : fdtab :=
  <[4%nat := Some (PipeWrite who)]> (<[3%nat := Some (PipeRead who)]> (table io)).

Lemma io_of_table io : io_of (table io) = io.
Proof. by destruct io. Qed.

Lemma redirect_table fd o io : fd = 0 \/ fd = 1 -> fd_take o (fd_close (Z.to_nat fd) (table io)) = Some (Z.to_nat fd, table (redirect fd o io)).
Proof. by intros [-> | ->]. Qed.

Definition fit (w : path) (p : process) : Prop :=
  Forall plain (lines_of (now p)) /\
  match viewc (now p) with
  | Cmd c | WaitThen c => std_redirs c /\ tab p = table (io_of (tab p))
  | ForkLeft l r p0 p1 =>
      p0 = 3%nat /\ p1 = 4%nat /\ std_redirs l /\ std_redirs r /\ tab p = pipe_tab w (io_of (tab p))
  | ForkRight r p0 p1 => p0 = 3%nat /\ p1 = 4%nat /\ std_redirs r /\ tab p = pipe_tab w (io_of (tab p))
  | _ => True
  end.

(** The programs that the process [w] has still to start, [pre] being over. *)
Definition owed (w : path) (p : process) (pre : list path) : list entry :=
  let io := io_of (tab p) in
  match viewc (now p) with
  | Cmd c => plan c io w (kids p) pre
  | WaitThen c => plan c io w (kids p) (pre ++ [w ++ [pred (kids p)]])
  | ForkLeft l r _ _ => plan (PIPE l r) io w (kids p) pre
  | ForkRight r _ _ => plan r (redirect 0 (PipeRead w) io) (w ++ [kids p]) 0 pre
  | _ => []
  end.

Definition ended (k : code) : bool := match k with Zombie | Reaped => true | _ => false end.
Definition reaped (k : code) : bool := match k with Reaped => true | _ => false end.

(** What the next action leaves to be started. *)
Definition act_ok (ok : bool) (w : path) (p : process) (a : action) : Prop :=
  match a with
  | Goes k t => ended k = false /\ fit w (mkprocess t (kids p) k) /\ forall pre, owed w p pre = owed w (mkprocess t (kids p) k) pre
  | Forks ck ct k t =>
      ended ck = false /\ ended k = false /\ fit (w ++ [kids p]) (mkprocess ct 0 ck) /\ fit w (mkprocess t (S (kids p)) k) /\
      forall pre, owed w p pre = owed (w ++ [kids p]) (mkprocess ct 0 ck) pre ++ owed w (mkprocess t (S (kids p)) k) pre
  | Becomes argv => exists io, tab p = table io /\ forall pre, owed w p pre = [mkentry w argv io pre]
  | Exits _ => ok = true -> forall pre, owed w p pre = []
  | Chdirs _ _ _ => False
  | Blocks k => ended k = false /\ fit w (with_code k p)
  | Nothing => ended (now p) = true
  end.

Lemma act_ok_cmd ok w t n c : std_redirs c -> act_ok ok w (mkprocess (table t) n (Cmd c)) (runcmd ok w c (table t)).
Proof.
  intros Hs. destruct c as [[|a argv]|c f m fd|l r|l r|c]; cbn [std_redirs] in Hs; cbn [runcmd].
  - done.
  - destruct ok; [|done]. exists t. split; [done|]. intros pre. by destruct t.
  - destruct ok; [|done]. destruct Hs as [Hfd Hs]. rewrite redirect_table by done. unfold act_ok, fit, owed. cbn. rewrite ?io_of_table.
    split_and!; [done|done|done|done|]. intros pre. by destruct t, Hfd as [-> | ->].
  - destruct ok; [|done]. cbn. destruct Hs, t. by split_and!.
  - destruct ok; [|done]. cbn. destruct Hs, t. by split_and!.
  - destruct ok; [|done]. cbn. destruct t. split_and!; try done. intros pre. by rewrite app_nil_r.
Qed.

Lemma next_ok ok w p : fit w p -> act_ok ok w p (advance ok w (now p) (tab p)).
Proof.
  destruct p as [t n k]. intros [Hl Hf]. cbn [now tab] in *.
  destruct k as [[|line rest]|rest|line|c|c|l r p0 p1|r p0 p1|[|i]| | | |]; cbn [viewc] in Hf; cbn [advance]; try done.
  - apply Forall_cons in Hl as [(Hp & Hcd & Hsl) Hl]. destruct Hf as [Hs Ht]. unfold shell_line.
    rewrite bool_decide_eq_false_2 by done. destruct ok; [|done].
    cbn in Hs |- *. unfold fit, owed. cbn. destruct Hs. split_and!; try done. by repeat constructor.
  - apply Forall_singleton in Hl as (Hp & Hcd & Hsl). destruct Hp as (c & buf & s & E). unfold command in *. rewrite E in *.
    cbn. unfold fit, owed. cbn. unfold command. by rewrite E.
  - destruct Hf as [Hs Ht]. rewrite Ht. by apply act_ok_cmd.
  - destruct Hf as (-> & -> & Hl1 & Hr & Ht). rewrite Ht. destruct ok; [|done]. by destruct (io_of t).
  - destruct Hf as (-> & -> & Hr & Ht). rewrite Ht. destruct ok; [|done]. cbn. split_and!; try done.
    intros pre. rewrite app_nil_r. by destruct (io_of t).
Qed.

(** ** Parents and children *)

(** The [i]-th child of [w] is there for [wait]. *)
Definition unreaped (m : gmap path process) (w : path) (i : nat) : Prop :=
  exists q, m !! (w ++ [i]) = Some q /\ reaped (now q) = false.

Lemma unreaped_update m w p p' v i : m !! w = Some p -> reaped (now p) = false -> reaped (now p') = false ->
  unreaped (<[w := p']> m) v i <-> unreaped m v i.
Proof. intros Hp H H'. unfold unreaped. split; intros (q & Hq & Hr); destruct (decide (w = v ++ [i])) as [->|]; simplify_map_eq; eauto. Qed.

Lemma unreaped_fork m w n c v i : m !! (w ++ [n]) = None -> reaped (now c) = false ->
  unreaped (<[w ++ [n] := c]> m) v i <-> (v = w /\ i = n) \/ unreaped m v i.
Proof.
  intros Hp H. unfold unreaped. split.
  - intros (q & Hq & Hr). destruct (decide (w ++ [n] = v ++ [i])) as [E|]; simplify_map_eq; [|by eauto].
    apply app_inj_2 in E as [-> [= ->]]; auto.
  - intros [[-> ->]|(q & Hq & Hr)]; [exists c; by simplify_map_eq|]. exists q. rewrite lookup_insert_ne; [done|]. intros E. congruence.
Qed.

Lemma unreaped_reap m w i q v j : m !! (w ++ [i]) = Some q ->
  unreaped (<[w ++ [i] := with_code Reaped q]> m) v j <-> unreaped m v j /\ ~ (v = w /\ j = i).
Proof.
  intros Hp. unfold unreaped. split.
  - intros (r & Hr & Hn). destruct (decide (w ++ [i] = v ++ [j])) as [E|E].
    + rewrite E, lookup_insert_eq in Hr. by injection Hr as <-.
    + rewrite lookup_insert_ne in Hr by done. split; [eauto|]. by intros [-> ->].
  - intros [(r & Hr & Hn) Hne]. exists r. rewrite lookup_insert_ne; [done|]. intros E. apply app_inj_2 in E as [-> [= ->]]; auto.
Qed.

(** The children that a process has to wait for. *)
Definition brood (m : gmap path process) (w : path) (p : process) : Prop :=
  match viewc (now p) with
  | Cmd _ | ForkLeft _ _ _ _ => forall i, ~ unreaped m w i
  | WaitThen _ | ForkRight _ _ _ => (0 < kids p)%nat /\ forall i, unreaped m w i <-> i = pred (kids p)
  | PipeWait n => exists L, (length L <= n)%nat /\ forall i, unreaped m w i -> i ∈ L
  | _ => True
  end.

Lemma brood_iff m m' w p : (forall i, unreaped m w i <-> unreaped m' w i) -> brood m w p -> brood m' w p.
Proof.
  intros H. unfold brood. destruct (viewc (now p)); try done.
  - intros Hb i. rewrite <- H. apply Hb.
  - intros [Hk Hb]. split; [done|]. intros i. by rewrite <- H.
  - intros Hb i. rewrite <- H. apply Hb.
  - intros [Hk Hb]. split; [done|]. intros i. by rewrite <- H.
  - intros (L & HL & Hb). exists L. split; [done|]. intros i. rewrite <- H. apply Hb.
Qed.

Record shape (s : state) : Prop := {
  sh_tree w i q : procs s !! (w ++ [i]) = Some q -> exists p, procs s !! w = Some p /\ (i < kids p)%nat;
  sh_fit w p : procs s !! w = Some p -> fit w p;
  sh_brood w p : procs s !! w = Some p -> brood (procs s) w p;
  sh_gone w p : procs s !! w = Some p -> ended (now p) = true -> Exit w ∈ events s }.

Lemma path_ne (w : path) i : w ++ [i] <> w.
Proof. intros E. apply (f_equal length) in E. rewrite length_app in E. cbn in E. lia. Qed.

(** A process goes on. *)
Lemma shape_update s w p p' es : shape s -> procs s !! w = Some p -> reaped (now p) = false -> reaped (now p') = false -> kids p' = kids p ->
  fit w p' -> brood (procs s) w p' -> events s ⊆ es -> (ended (now p') = true -> Exit w ∈ es) -> shape (mkstate (<[w := p']> (procs s)) es).
Proof.
  intros H Hp Hr Hr' Hk Hf Hb He Hg. split; cbn [procs events].
  - intros v i q Hq. assert (exists q, procs s !! (v ++ [i]) = Some q) as [q0 Hq0] by (destruct (decide (w = v ++ [i])) as [->|]; simplify_map_eq; eauto).
    destruct (sh_tree _ H _ _ _ Hq0) as (p0 & H0 & Hi). destruct (decide (w = v)) as [->|]; simplify_map_eq; [|by eauto].
    exists p'. split; [done|lia].
  - intros v q Hq. destruct (decide (w = v)) as [->|]; simplify_map_eq; [done|by apply (sh_fit _ H)].
  - intros v q Hq. apply (brood_iff (procs s)); [intros i; by rewrite unreaped_update|].
    destruct (decide (w = v)) as [->|]; simplify_map_eq; [done|by apply (sh_brood _ H)].
  - intros v q Hq Hv. destruct (decide (w = v)) as [->|]; simplify_map_eq; [by apply Hg|apply He; by eapply (sh_gone _ H)].
Qed.

Lemma child_fresh s w p : shape s -> procs s !! w = Some p -> procs s !! (w ++ [kids p]) = None.
Proof. intros H Hp. destruct (procs s !! (w ++ [kids p])) as [q|] eqn:E; [|done]. destruct (sh_tree _ H _ _ _ E) as (p0 & H0 & Hi). simplify_eq. lia. Qed.

Lemma grandchild_fresh s w p i : shape s -> procs s !! w = Some p -> procs s !! ((w ++ [kids p]) ++ [i]) = None.
Proof.
  intros H Hp. destruct (procs s !! ((w ++ [kids p]) ++ [i])) as [q|] eqn:E; [|done]. destruct (sh_tree _ H _ _ _ E) as (p0 & H0 & Hi).
  by rewrite (child_fresh _ _ _ H Hp) in H0.
Qed.

(** The parent's side of a fork, and the child's. *)
Definition forked (w : path) (p : process) (ct : fdtab) (ck : code) (t : fdtab) (k : code) (m : gmap path process) : gmap path process :=
  <[w ++ [kids p] := mkprocess ct 0 ck]> (<[w := mkprocess t (S (kids p)) k]> m).

Lemma forked_lookup w p ct ck t k m v q : forked w p ct ck t k m !! v = Some q ->
  (v = w ++ [kids p] /\ q = mkprocess ct 0 ck) \/ (v = w /\ q = mkprocess t (S (kids p)) k) \/ (v <> w /\ v <> w ++ [kids p] /\ m !! v = Some q).
Proof.
  unfold forked. intros H. apply lookup_insert_Some in H as [[<- <-]|[Hn H]]; [auto|].
  apply lookup_insert_Some in H as [[<- <-]|[Hn' H]]; auto 6.
Qed.

Section Forked.
Context (s : state) (w : path) (p : process) (ct : fdtab) (ck : code) (t : fdtab) (k : code).
Context (H : shape s) (Hp : procs s !! w = Some p) (Hr : reaped (now p) = false) (Hck : reaped ck = false) (Hk : reaped k = false).

Lemma unreaped_forked v i : unreaped (forked w p ct ck t k (procs s)) v i <-> (v = w /\ i = kids p) \/ unreaped (procs s) v i.
Proof.
  unfold forked. rewrite unreaped_fork; [|rewrite lookup_insert_ne by (intros E; by apply (path_ne w (kids p))); by apply child_fresh|done].
  by rewrite (unreaped_update _ w p).
Qed.

Lemma shape_fork : (exists c, viewc ck = Cmd c) -> ended k = false -> fit (w ++ [kids p]) (mkprocess ct 0 ck) -> fit w (mkprocess t (S (kids p)) k) ->
  brood (forked w p ct ck t k (procs s)) w (mkprocess t (S (kids p)) k) -> shape (mkstate (forked w p ct ck t k (procs s)) (events s)).
Proof.
  intros [c Hc] Hek Hfc Hf Hb. split; cbn [procs events].
  - intros v i q Hq. apply forked_lookup in Hq as [[E ->]|[[E ->]|(Hn1 & Hn2 & Hq)]].
    + apply app_inj_2 in E as [-> [= ->]]; [|done]. exists (mkprocess t (S (kids p)) k). split; [|cbn; lia].
      unfold forked. rewrite lookup_insert_ne by (intros E; by apply (path_ne w (kids p))). by rewrite lookup_insert_eq.
    + rewrite <- E in Hp. destruct (sh_tree _ H _ _ _ Hp) as (p0 & H0 & Hi). exists p0. split; [|done]. unfold forked.
      rewrite !lookup_insert_ne; [done| |]; rewrite <- E; intros E'; apply (f_equal length) in E'; rewrite !length_app in E'; cbn in E'; lia.
    + destruct (sh_tree _ H _ _ _ Hq) as (p0 & H0 & Hi). destruct (decide (v = w)) as [->|Hv].
      * assert (p0 = p) as -> by congruence. exists (mkprocess t (S (kids p)) k). split; [|cbn; lia]. unfold forked.
        rewrite lookup_insert_ne by (intros E; by apply (path_ne w (kids p))). by rewrite lookup_insert_eq.
      * exists p0. split; [|done]. unfold forked. rewrite lookup_insert_ne; [by rewrite lookup_insert_ne|].
        intros E. rewrite <- E in Hq. by rewrite (grandchild_fresh _ _ _ _ H Hp) in Hq.
  - intros v q Hq. apply forked_lookup in Hq as [[-> ->]|[[-> ->]|(Hn1 & Hn2 & Hq)]]; [done|done|by apply (sh_fit _ H)].
  - intros v q Hq. apply forked_lookup in Hq as [[-> ->]|[[-> ->]|(Hn1 & Hn2 & Hq)]]; [|done|].
    + unfold brood. cbn [now]. rewrite Hc. intros i [[E _]|(q & Hq & _)]%unreaped_forked; [by apply (path_ne w (kids p))|].
      by rewrite (grandchild_fresh _ _ _ _ H Hp) in Hq.
    + apply (brood_iff (procs s)); [|by apply (sh_brood _ H)]. intros i. rewrite unreaped_forked. naive_solver.
  - intros v q Hq Hv. apply forked_lookup in Hq as [[-> ->]|[[-> ->]|(Hn1 & Hn2 & Hq)]]; [|cbn in Hv; congruence|by eapply (sh_gone _ H)].
    cbn in Hv. by destruct ck.
Qed.

End Forked.

(** [wait] takes a child. *)
Lemma shape_reap s w p k i q : shape s -> procs s !! w = Some p -> reaped (now p) = false -> ended k = false -> procs s !! (w ++ [i]) = Some q -> now q = Zombie ->
  fit w (with_code k p) -> brood (<[w ++ [i] := with_code Reaped q]> (procs s)) w (with_code k p) ->
  shape (mkstate (<[w ++ [i] := with_code Reaped q]> (<[w := with_code k p]> (procs s))) (events s)).
Proof.
  intros H Hp Hr Hk Hq Hz Hf Hb. pose proof (path_ne w i) as Hne.
  assert (forall v r, <[w ++ [i] := with_code Reaped q]> (<[w := with_code k p]> (procs s)) !! v = Some r ->
    (v = w ++ [i] /\ r = with_code Reaped q) \/ (v = w /\ r = with_code k p) \/ (v <> w /\ v <> w ++ [i] /\ procs s !! v = Some r)) as Hl.
  { intros v r E. apply lookup_insert_Some in E as [[<- <-]|[Hn E]]; [auto|]. apply lookup_insert_Some in E as [[<- <-]|[Hn' E]]; auto 6. }
  assert (forall v r, procs s !! v = Some r -> exists r', <[w ++ [i] := with_code Reaped q]> (<[w := with_code k p]> (procs s)) !! v = Some r' /\ kids r' = kids r) as Hl'.
  { intros v r E. destruct (decide (v = w ++ [i])) as [->|]; [rewrite lookup_insert_eq; simplify_eq; by eexists|]. rewrite lookup_insert_ne by done.
    destruct (decide (v = w)) as [->|]; [rewrite lookup_insert_eq; simplify_eq; by eexists|]. rewrite lookup_insert_ne by done. eauto. }
  assert (forall v j, unreaped (<[w ++ [i] := with_code Reaped q]> (<[w := with_code k p]> (procs s))) v j <-> unreaped (<[w ++ [i] := with_code Reaped q]> (procs s)) v j) as Hu.
  { intros v j. rewrite !unreaped_reap by (try rewrite lookup_insert_ne by done; done). rewrite (unreaped_update _ w p); [done..|by destruct k]. }
  split; cbn [procs events].
  - intros v j r Hr'. assert (exists r, procs s !! (v ++ [j]) = Some r) as [r0 H0] by (apply Hl in Hr' as [[-> _]|[[-> _]|(_ & _ & ?)]]; eauto).
    destruct (sh_tree _ H _ _ _ H0) as (p0 & H1 & Hi). destruct (Hl' _ _ H1) as (r' & E & Hk'). exists r'. split; [done|lia].
  - intros v r [[-> ->]|[[-> ->]|(Hn1 & Hn2 & Hv)]]%Hl; [|done|by apply (sh_fit _ H)]. by split; cbn.
  - intros v r Hv. apply (brood_iff (<[w ++ [i] := with_code Reaped q]> (procs s))); [intros j; symmetry; apply Hu|].
    apply Hl in Hv as [[-> ->]|[[-> ->]|(Hn1 & Hn2 & Hv)]]; [done|done|].
    apply (brood_iff (procs s)); [intros j; rewrite unreaped_reap by done; naive_solver|by apply (sh_brood _ H)].
  - intros v r [[-> ->]|[[-> ->]|(Hn1 & Hn2 & Hv)]]%Hl E; [|cbn in E; congruence|by eapply (sh_gone _ H)]. eapply (sh_gone _ H); [done|by rewrite Hz].
Qed.

(** ** The shape is kept *)

Definition single (k : code) : Prop := match viewc k with Cmd _ | ForkLeft _ _ _ _ => True | _ => False end.
Definition paired (k : code) : Prop := match viewc k with WaitThen _ | ForkRight _ _ _ => True | _ => False end.

Ltac next_cases :=
  let E := fresh in intros E;
  match type of E with advance _ _ ?k _ = _ => destruct k as [[|? ?]|?|?|?|?|? ? ? ?|? ? ?|[|?]| | | |] end;
  cbn [advance] in E; try discriminate E;
  try match type of E with runcmd _ _ ?c _ = _ => destruct c as [[|? ?]|? ? ? ?|? ?|? ?|?]; cbn [runcmd] in E end;
  unfold shell_line, fork1 in E; repeat case_match; simplify_eq; try done.

Lemma next_goes ok w k t k' t' : advance ok w k t = Goes k' t' -> single k /\ single k'.
Proof. next_cases. Qed.

Lemma next_forks ok w k t ck ct k' t' : advance ok w k t = Forks ck ct k' t' ->
  (exists c, viewc ck = Cmd c) /\ (single k /\ (paired k' \/ k' = Leave) \/ paired k /\ k' = PipeWait 2).
Proof. next_cases; (split; [by eexists|unfold single, paired; cbn; auto]). Qed.

Lemma next_blocks ok w k t k' : advance ok w k t = Blocks k' ->
  (exists c, viewc k = WaitThen c /\ viewc k' = Cmd c) \/ exists n, k = PipeWait (S n) /\ k' = PipeWait n.
Proof. next_cases; eauto 6. Qed.

Lemma brood_single m w p : single (now p) -> brood m w p <-> forall i, ~ unreaped m w i.
Proof. unfold single, brood. by destruct (viewc (now p)). Qed.

Lemma brood_paired m w p : paired (now p) -> brood m w p <-> (0 < kids p)%nat /\ forall i, unreaped m w i <-> i = pred (kids p).
Proof. unfold paired, brood. by destruct (viewc (now p)). Qed.

Lemma brood_fork s w p ok ck ct k t : shape s -> procs s !! w = Some p -> ended (now p) = false -> advance ok w (now p) (tab p) = Forks ck ct k t ->
  brood (forked w p ct ck t k (procs s)) w (mkprocess t (S (kids p)) k).
Proof.
  intros H Hp He En. pose proof (sh_brood _ H _ _ Hp) as Hb. apply next_forks in En as [[c Hc] En].
  assert (reaped (now p) = false) as Hr by (by destruct (now p)). assert (reaped ck = false) as Hrc by (by destruct ck).
  assert (reaped k = false) as Hk by (destruct k; cbn in En; destruct En as [[_ [?| ?]]|[_ ?]]; done).
  destruct En as [[Hs [Hk'| ->]]|[Hs ->]].
  - apply brood_paired; [done|]. rewrite brood_single in Hb by done. split; [cbn; lia|]. cbn. intros i. rewrite unreaped_forked by done. naive_solver.
  - done.
  - rewrite brood_paired in Hb by done. destruct Hb as [Hpos Hb]. exists [pred (kids p); kids p]. split; [done|].
    intros i. rewrite unreaped_forked by done. intros [[_ ->]|Hi]; [set_solver|]. apply Hb in Hi as ->. set_solver.
Qed.

Lemma brood_reap s w p ok k i q : shape s -> procs s !! w = Some p -> advance ok w (now p) (tab p) = Blocks k -> procs s !! (w ++ [i]) = Some q -> now q = Zombie ->
  brood (<[w ++ [i] := with_code Reaped q]> (procs s)) w (with_code k p).
Proof.
  intros H Hp En Hq Hz. pose proof (sh_brood _ H _ _ Hp) as Hb. assert (unreaped (procs s) w i) as Hu by (exists q; by rewrite Hz).
  apply next_blocks in En as [(c & Ek & Ek')|(n & Ek & ->)]; unfold brood in *.
  - rewrite Ek in Hb. cbn [now with_code]. rewrite Ek'. destruct Hb as [_ Hb]. intros j. rewrite unreaped_reap by done. rewrite !Hb in *. naive_solver.
  - rewrite Ek in Hb. cbn in *. destruct Hb as (L & HL & Hb). exists (filter (.≠ i) L). split.
    + pose proof (Hb _ Hu) as Hi. apply list_elem_of_split in Hi as (l1 & l2 & ->). rewrite filter_app, filter_cons_False by tauto.
      rewrite !length_app in *. pose proof (length_filter (.≠ i) l1). pose proof (length_filter (.≠ i) l2). cbn in HL. lia.
    + intros j. rewrite unreaped_reap by done. intros [Hj Hn]. apply list_elem_of_filter. split; [naive_solver|by apply Hb].
Qed.

Lemma brood_alone s w p ok k : shape s -> procs s !! w = Some p -> advance ok w (now p) (tab p) = Blocks k ->
  (forall i q, procs s !! (w ++ [i]) = Some q -> now q = Reaped) -> exists n, now p = PipeWait (S n) /\ k = PipeWait n /\ forall i, ~ unreaped (procs s) w i.
Proof.
  intros H Hp En Ha. assert (forall i, ~ unreaped (procs s) w i) as Hn by (intros i (q & Hq & Hr); by rewrite (Ha _ _ Hq) in Hr).
  apply next_blocks in En as [(c & Ek & Ek')|(n & Ek & ->)]; [|by eauto].
  pose proof (sh_brood _ H _ _ Hp) as Hb. unfold brood in Hb. rewrite Ek in Hb. destruct Hb as [_ Hb]. exfalso. by eapply Hn, Hb.
Qed.

Lemma shape_step fails s s' : shape s -> step fails s s' -> shape s'.
Proof.
  intros H Hst. destruct Hst as [s w p ok s' Hp _ Ha|s w p k i q Hp En Hq Hz|s w p k Hp En Ha].
  - pose proof (next_ok ok w p (sh_fit _ H _ _ Hp)) as Hn. pose proof (sh_brood _ H _ _ Hp) as Hb.
    destruct (advance ok w (now p) (tab p)) as [k t|ck ct k t|argv|msg|dir o k|k|] eqn:En; cbn in Ha; simplify_eq; cbn in Hn; try done.
    all: assert (reaped (now p) = false) as Hr by (by destruct (now p)).
    + destruct Hn as (He & Hf & _). apply next_goes in En as [H1 H2]. apply (shape_update s w p); try done; try (by destruct k); try (cbn; congruence).
      rewrite brood_single in Hb by done. by apply brood_single.
    + destruct Hn as (He & He' & Hf & Hf' & _). pose proof (next_forks _ _ _ _ _ _ _ _ En) as [Hc _].
      apply shape_fork; try done; try (by destruct ck); try (by destruct k). eapply brood_fork; try done. by destruct (now p).
    + apply (shape_update s w p); try done. set_solver.
    + apply (shape_update s w p); try done; set_solver.
  - pose proof (next_ok true w p (sh_fit _ H _ _ Hp)) as Hn. rewrite En in Hn. destruct Hn as [He Hf].
    apply shape_reap; try done; [by destruct (now p)|by eapply brood_reap].
  - pose proof (next_ok true w p (sh_fit _ H _ _ Hp)) as Hn. rewrite En in Hn. destruct Hn as [He Hf].
    destruct (brood_alone _ _ _ _ _ H Hp En Ha) as (n & Ek & -> & Hu). apply (shape_update s w p); try done; [by rewrite Ek|].
    exists []. split; [cbn; lia|]. intros i Hi. by destruct (Hu i).
Qed.

(** ** Each program once *)

Lemma plan_pre c : forall io w n pre pre', e_start <$> plan c io w n pre = e_start <$> plan c io w n pre'.
Proof.
  induction c as [argv|c IH f m fd|l IHl r IHr|l IHl r IHr|c IH]; intros io w n pre pre'; cbn [plan].
  - by case_bool_decide.
  - apply IH.
  - by rewrite !fmap_app, (IHl _ _ _ pre pre'), (IHr _ _ _ pre pre').
  - by rewrite !fmap_app, (IHl _ _ _ pre pre'), (IHr _ _ _ _ (pre' ++ [w ++ [n]])).
  - apply IH.
Qed.

(** The programs that [w] has still to start. *)
Definition debt (w : path) (p : process) : list (path * list (list Z) * fdtab) := e_start <$> owed w p [].

Lemma owed_pre w p pre : e_start <$> owed w p pre = debt w p.
Proof. unfold debt, owed. destruct (viewc (now p)); try done; apply plan_pre. Qed.

Definition debts (m : gmap path process) : list (path * list (list Z) * fdtab) := map_to_list m ≫= fun wp => debt wp.1 wp.2.

Lemma debts_insert m w p : m !! w = None -> debts (<[w := p]> m) ≡ₚ debt w p ++ debts m.
Proof. intros H. unfold debts. by rewrite map_to_list_insert. Qed.

Lemma debts_take m w p : m !! w = Some p -> debts m ≡ₚ debt w p ++ debts (delete w m).
Proof. intros H. rewrite <- (insert_delete_id m w p H) at 1. apply debts_insert, lookup_delete_eq. Qed.

Lemma debts_update m w p : debts (<[w := p]> m) ≡ₚ debt w p ++ debts (delete w m).
Proof. rewrite <- insert_delete_eq. apply debts_insert, lookup_delete_eq. Qed.

Lemma started_app m m' es es' : started (mkstate m (es ++ es')) = started (mkstate m' es) ++ started (mkstate m es').
Proof. unfold started. apply omap_app. Qed.

Lemma started_exit m w msg : started (mkstate m (match msg with Some x => [Says w x] | None => [] end ++ [Exit w])) = [].
Proof. by destruct msg. Qed.

Lemma count_reap m w p k i q : m !! w = Some p -> m !! (w ++ [i]) = Some q -> now q = Zombie -> debt w (with_code k p) = debt w p ->
  debts (<[w ++ [i] := with_code Reaped q]> (<[w := with_code k p]> m)) ≡ₚ debts m.
Proof.
  intros Hp Hq Hz Hd. pose proof (path_ne w i). rewrite debts_update. change (debt (w ++ [i]) (with_code Reaped q)) with (@nil (path * list (list Z) * fdtab)).
  assert (debts (<[w := with_code k p]> m) ≡ₚ debts (delete (w ++ [i]) (<[w := with_code k p]> m))) as <-.
  { rewrite (debts_take _ (w ++ [i]) q) at 1 by (by rewrite lookup_insert_ne). unfold debt at 1, owed. by rewrite Hz. }
  by rewrite debts_update, Hd, <- debts_take.
Qed.

Lemma blocks_debt ok w p k t : advance ok w (now p) t = Blocks k -> debt w (with_code k p) = debt w p.
Proof.
  intros [(c & Ek & Ek')|(n & Ek & ->)]%next_blocks; unfold debt, owed; cbn [now with_code]; [|by rewrite Ek]. rewrite Ek, Ek'. apply plan_pre.
Qed.

(** A step starts programs that were owed; it forgets some only by a failure. *)
Lemma count_step fails s s' : shape s -> step fails s s' ->
  started s' ++ debts (procs s') ⊆+ started s ++ debts (procs s) /\ (fails = false -> started s' ++ debts (procs s') ≡ₚ started s ++ debts (procs s)).
Proof.
  intros H Hst. destruct Hst as [s w p ok s' Hp Hok Ha|s w p k i q Hp En Hq Hz|s w p k Hp En Ha].
  - pose proof (next_ok ok w p (sh_fit _ H _ _ Hp)) as Hn. 
    destruct (advance ok w (now p) (tab p)) as [k t|ck ct k t|argv|msg|dir o k|k|] eqn:En; cbn in Ha; simplify_eq; cbn in Hn; try done; cbn [procs].
    + destruct Hn as (_ & _ & Hd). assert (started s ++ debts (<[w := mkprocess t (kids p) k]> (procs s)) ≡ₚ started s ++ debts (procs s)) as Hx.
      { rewrite debts_update, (debts_take _ w p Hp). unfold debt. by rewrite Hd. }
      split; [by rewrite Hx|by intros _].
    + destruct Hn as (_ & _ & _ & _ & Hd).
      assert (started s ++ debts (forked w p ct ck t k (procs s)) ≡ₚ started s ++ debts (procs s)) as Hx.
      { unfold forked. rewrite debts_insert by (rewrite lookup_insert_ne; [by apply child_fresh|intros E; by apply (path_ne w (kids p))]).
        rewrite debts_update, (debts_take _ w p Hp). unfold debt at 3. by rewrite Hd, fmap_app, <- !app_assoc. }
      split; [by rewrite <- Hx|by intros _].
    + destruct Hn as (io & Ht & Hd).
      assert (debt w p = [(w, argv, tab p)]) as Hdp by (unfold debt; by rewrite Hd, Ht).
      rewrite (started_app _ (procs s)), debts_update, (debts_take _ w p Hp), Hdp, <- app_assoc. done.
    + rewrite (started_app _ (procs s)), started_exit, app_nil_r, debts_update, (debts_take _ w p Hp). cbn.
      split; [apply submseteq_skips_l, submseteq_inserts_l; done|]. intros ->. destruct Hok as [->|]; [|done]. unfold debt. by rewrite Hn.
  - cbn [procs]. rewrite count_reap by eauto using blocks_debt. done.
  - cbn [procs]. rewrite debts_update, (blocks_debt _ _ _ _ _ En), <- debts_take by done. done.
Qed.

(** ** Order *)

(** Every event is right for those before it. *)
Definition ordered (Q : event -> list event -> Prop) (es : list event) : Prop := forall es1 x es2, es = es1 ++ x :: es2 -> Q x es1.

Lemma ordered_snoc Q es x : ordered Q es -> Q x es -> ordered Q (es ++ [x]).
Proof.
  intros H Hx es1 y es2 E. destruct es2 as [|z es2 _] using rev_ind.
  - apply app_inj_tail in E as [-> ->]. done.
  - rewrite app_comm_cons, app_assoc in E. apply app_inj_tail in E as [E _]. by eapply H.
Qed.

Definition start_ok (P : list entry) (x : event) (es : list event) : Prop :=
  match x with
  | Start w argv t => exists e, e ∈ P /\ e_start e = (w, argv, t) /\ forall q, q ∈ e_after e -> Exit q ∈ es
  | _ => True
  end.

(** What a process owes is planned, and what the plan wants to be over is. *)
Definition due (P : list entry) (es : list event) (w : path) (p : process) : Prop :=
  exists pre, (forall q, q ∈ pre -> Exit q ∈ es) /\ owed w p pre ⊆ P.

Lemma due_mono P es es' w p : es ⊆ es' -> due P es w p -> due P es' w p.
Proof. intros H (pre & H1 & H2). exists pre. auto. Qed.

Lemma due_nothing P es w p : (forall pre, owed w p pre = []) -> due P es w p.
Proof. intros H. exists []. rewrite H. split; [by intros q Hq%not_elem_of_nil|apply list_subseteq_nil]. Qed.

Lemma due_block P s w p ok k t i q : shape s -> procs s !! w = Some p -> advance ok w (now p) t = Blocks k -> procs s !! (w ++ [i]) = Some q -> now q = Zombie ->
  due P (events s) w p -> due P (events s) w (with_code k p).
Proof.
  intros H Hp En Hq Hz (pre & H1 & H2). pose proof (sh_brood _ H _ _ Hp) as Hb. unfold brood in Hb.
  apply next_blocks in En as [(c & Ek & Ek')|(n & Ek & ->)]; [|by apply due_nothing]. rewrite Ek in Hb. destruct Hb as [_ Hb].
  assert (i = pred (kids p)) as -> by (apply Hb; exists q; by rewrite Hz). exists (pre ++ [w ++ [pred (kids p)]]). split.
  - intros v [Hv| ->%list_elem_of_singleton]%elem_of_app; [by apply H1|]. eapply (sh_gone _ H); [done|by rewrite Hz].
  - unfold owed in *. rewrite Ek in H2. cbn [now with_code]. by rewrite Ek'.
Qed.

Record timely (P : list entry) (s : state) : Prop := {
  tm_due w p : procs s !! w = Some p -> due P (events s) w p;
  tm_start : ordered (start_ok P) (events s) }.

Lemma timely_step P fails s s' : shape s -> timely P s -> step fails s s' -> timely P s'.
Proof.
  intros H [Hd Ho] Hst. destruct Hst as [s w p ok s' Hp Hok Ha|s w p k i q Hp En Hq Hz|s w p k Hp En Ha].
  - pose proof (next_ok ok w p (sh_fit _ H _ _ Hp)) as Hn. pose proof (Hd _ _ Hp) as (pre & H1 & H2).
    destruct (advance ok w (now p) (tab p)) as [k t|ck ct k t|argv|msg|dir o k|k|] eqn:En; cbn in Ha; simplify_eq; cbn in Hn; try done; split; cbn [procs events].
    + destruct Hn as (_ & _ & E). intros v q [[<- <-]|[_ Hv]]%lookup_insert_Some; [|by apply Hd]. exists pre. by rewrite <- E.
    + done.
    + destruct Hn as (_ & _ & _ & _ & E). rewrite E in H2.
      intros v q [[-> ->]|[[-> ->]|(_ & _ & Hv)]]%forked_lookup; [exists pre; set_solver..|by apply Hd].
    + done.
    + intros v q [[<- <-]|[_ Hv]]%lookup_insert_Some; [by apply due_nothing|]. apply (due_mono _ (events s)); [set_solver|by apply Hd].
    + destruct Hn as (io & Ht & E). rewrite E in H2. apply ordered_snoc; [done|]. exists (mkentry w argv io pre).
      unfold e_start. cbn. rewrite Ht. split_and!; [set_solver|done|done].
    + intros v q [[<- <-]|[_ Hv]]%lookup_insert_Some; [by apply due_nothing|]. apply (due_mono _ (events s)); [set_solver|by apply Hd].
    + rewrite app_assoc. apply ordered_snoc; [|done]. destruct msg; [by apply ordered_snoc|by rewrite app_nil_r].
  - split; cbn [procs events]; [|done]. intros v r [[<- <-]|[_ Hv]]%lookup_insert_Some; [by apply due_nothing|].
    apply lookup_insert_Some in Hv as [[<- <-]|[_ Hv]]; [|by apply Hd]. eapply due_block; eauto.
  - split; cbn [procs events]; [|done]. destruct (brood_alone _ _ _ _ _ H Hp En Ha) as (n & Ek & -> & Hu).
    intros v r [[<- <-]|[_ Hv]]%lookup_insert_Some; [by apply due_nothing|by apply Hd].
Qed.

(** ** Nothing ends too early *)

(** [w] itself and what it forks from its [n]-th child on. *)
Definition region (w : path) (n : nat) (x : path) : Prop := x = w \/ exists m rest, x = w ++ m :: rest /\ (n <= m)%nat.

Lemma region_child w n x : region (w ++ [n]) 0 x -> region w n x.
Proof. intros [->|(m & rest & -> & _)]; right; rewrite <- ?app_assoc; eauto. Qed.

Lemma region_weaken w n n' x : (n <= n')%nat -> region w n' x -> region w n x.
Proof. intros Hn [->|(m & rest & -> & Hm)]; [by left|]. right. exists m, rest. split; [done|lia]. Qed.

Lemma region_apart w n x : region (w ++ [n]) 0 x -> region w (S n) x -> False.
Proof.
  assert (forall rest, ~ region w (S n) (w ++ n :: rest)) as H.
  { intros rest [E|(m & rest' & E & Hm)]; [|apply app_inv_head in E as [= -> _]; lia]. apply (f_equal length) in E. rewrite length_app in E. cbn in E. lia. }
  intros [->|(m & rest & -> & _)]; [apply H|]. rewrite <- app_assoc. apply H.
Qed.

Lemma region_strict w n x : region (w ++ [n]) 0 x -> x <> w.
Proof. intros H ->. eapply region_apart; [done|by left]. Qed.

Lemma joins_region c : forall w n q x, (q, x) ∈ joins c w n -> region w n x.
Proof.
  induction c as [argv|c IH f m fd|l IHl r IHr|l IHl r IHr|c IH]; intros w n q x; cbn [joins].
  - by intros ?%not_elem_of_nil.
  - apply IH.
  - intros [[= -> ->]|[[= -> ->]|[H|H]%elem_of_app]%elem_of_cons]%elem_of_cons; [by left|by left|..].
    + by eapply region_child, IHl.
    + apply (region_weaken _ _ (S n)); [lia|]. by eapply region_child, IHr.
  - intros [[= -> ->]|[H|H]%elem_of_app]%elem_of_cons; [by left|..].
    + by eapply region_child, IHl.
    + apply (region_weaken _ _ (S n)); [lia|]. by eapply IHr.
  - intros H. by eapply region_child, IH.
Qed.

(** The process [q] that [x] is still going to wait for, [w] being where [x] comes from. *)
Definition pending (m : gmap path process) (w : path) (p : process) (q x : path) : Prop :=
  match viewc (now p) with
  | Cmd c => (q, x) ∈ joins c w (kids p)
  | WaitThen c => (q, x) = (w ++ [pred (kids p)], w) \/ (q, x) ∈ joins c w (kids p)
  | ForkLeft l r _ _ => (q, x) ∈ joins (PIPE l r) w (kids p)
  | ForkRight r _ _ => (q, x) = (w ++ [pred (kids p)], w) \/ (q, x) = (w ++ [kids p], w) \/ (q, x) ∈ joins r (w ++ [kids p]) 0
  | PipeWait n => x = w /\ exists i, q = w ++ [i] /\ unreaped m w i
  | _ => False
  end.

Lemma pending_iff m m' w p q x : (forall i, unreaped m w i <-> unreaped m' w i) -> pending m w p q x -> pending m' w p q x.
Proof. intros H. unfold pending. destruct (viewc (now p)); try done. intros (-> & i & -> & Hi). split; [done|]. exists i. by rewrite <- H. Qed.

Lemma pending_goes ok m w p k t q x : advance ok w (now p) (tab p) = Goes k t -> pending m w p q x -> pending m w (mkprocess t (kids p) k) q x.
Proof.
  destruct p as [t0 n k0]. cbn [now tab kids]. next_cases. unfold pending. cbn [viewc now kids]. unfold command.
  by match goal with H : parsecmd _ = _ |- _ => rewrite H end.
Qed.

Lemma next_becomes ok w k t argv : advance ok w k t = Becomes argv -> viewc k = Cmd (EXEC argv).
Proof. next_cases. Qed.

Lemma pending_exits m w p msg q x : fit w p -> brood m w p -> advance true w (now p) (tab p) = Exits msg -> ~ pending m w p q x.
Proof.
  destruct p as [t n k]. intros [Hl Hf] Hb. cbn [now tab] in *.
  destruct k as [[|line rest]|rest|line|c|c|l r p0 p1|r p0 p1|[|i]| | | |]; cbn [viewc] in Hf; cbn [advance]; try done; intros En.
  - apply not_elem_of_nil.
  - unfold shell_line, fork1 in En. by case_bool_decide.
  - apply Forall_singleton in Hl as ((c & buf & s & E) & _). by rewrite E in En.
  - destruct Hf as [Hs Ht]. rewrite Ht in En. destruct c as [[|a argv]|c f mode fd|l r|l r|c]; cbn [runcmd] in En; try done.
    + apply not_elem_of_nil.
    + destruct Hs as [Hfd _]. by rewrite redirect_table in En.
  - destruct Hb as (L & HL & Hb). intros (-> & i & -> & Hi). destruct L; [|cbn in HL; lia]. by apply Hb, not_elem_of_nil in Hi.
  - by intros [].
  - by intros [].
Qed.

Lemma pending_reap s w p ok k t i q v x : shape s -> procs s !! w = Some p -> advance ok w (now p) t = Blocks k -> procs s !! (w ++ [i]) = Some q -> now q = Zombie ->
  pending (procs s) w p v x -> (x = w /\ Exit v ∈ events s) \/ pending (<[w ++ [i] := with_code Reaped q]> (procs s)) w (with_code k p) v x.
Proof.
  intros H Hp En Hq Hz. pose proof (sh_brood _ H _ _ Hp) as Hb. unfold brood in Hb.
  assert (unreaped (procs s) w i) as Hu by (exists q; by rewrite Hz). assert (Exit (w ++ [i]) ∈ events s) as Hx by (eapply (sh_gone _ H); [done|by rewrite Hz]).
  apply next_blocks in En as [(c & Ek & Ek')|(n & Ek & ->)]; unfold pending; rewrite Ek in *; cbn [now with_code kids viewc].
  - destruct Hb as [_ Hb]. apply Hb in Hu as ->. rewrite Ek'. intros [[= -> ->]|Hj]; auto.
  - intros (-> & j & -> & Hj). destruct (decide (j = i)) as [->|Hn]; [by left|]. right. split; [done|]. exists j. split; [done|].
    apply unreaped_reap; [done|]. naive_solver.
Qed.

Lemma joins_list l r w n q x : (q, x) ∈ joins (LIST l r) w n ->
  (region w (S n) x -> (q, x) = (w ++ [n], w) \/ (q, x) ∈ joins r w (S n)) /\ (region (w ++ [n]) 0 x -> (q, x) ∈ joins l (w ++ [n]) 0).
Proof.
  cbn [joins]. intros [[= -> ->]|[H|H]%elem_of_app]%elem_of_cons; (split; [intros Hx|intros Hx]); auto.
  - by apply region_strict in Hx.
  - exfalso. eapply region_apart; [by eapply joins_region|done].
  - exfalso. eapply region_apart; [done|by eapply joins_region].
Qed.

Lemma joins_pipe l r w n q x : (q, x) ∈ joins (PIPE l r) w n ->
  (region w (S n) x -> (q, x) = (w ++ [n], w) \/ (q, x) = (w ++ [S n], w) \/ (q, x) ∈ joins r (w ++ [S n]) 0) /\
  (region (w ++ [n]) 0 x -> (q, x) ∈ joins l (w ++ [n]) 0).
Proof.
  cbn [joins]. intros [[= -> ->]|[[= -> ->]|[H|H]%elem_of_app]%elem_of_cons]%elem_of_cons; (split; [intros Hx|intros Hx]); auto.
  - by apply region_strict in Hx.
  - by apply region_strict in Hx.
  - exfalso. eapply region_apart; [by eapply joins_region|done].
  - exfalso. eapply region_apart; [done|]. by eapply region_child, joins_region.
Qed.

(** A fork shares out what is to be waited for. *)
Lemma pending_fork s w p ck ct k t q x : shape s -> procs s !! w = Some p -> ended (now p) = false -> advance true w (now p) (tab p) = Forks ck ct k t -> pending (procs s) w p q x ->
  (region w (S (kids p)) x -> pending (forked w p ct ck t k (procs s)) w (mkprocess t (S (kids p)) k) q x) /\
  (forall m, region (w ++ [kids p]) 0 x -> pending m (w ++ [kids p]) (mkprocess ct 0 ck) q x).
Proof.
  intros H Hp He En. pose proof (sh_brood _ H _ _ Hp) as Hb. pose proof (next_forks _ _ _ _ _ _ _ _ En) as [[c Hc] Hk].
  assert (reaped (now p) = false) as Hr by (by destruct (now p)). assert (reaped ck = false) as Hrc by (by destruct ck).
  assert (reaped k = false) as Hrk by (destruct k; cbn in Hk; destruct Hk as [[_ [?| ?]]|[_ ?]]; done).
  pose proof (unreaped_forked s w p ct ck t k H Hp Hr Hrc Hrk w) as Hu.
  destruct p as [t0 n k0]. revert En. cbn [now tab kids] in *. unfold brood in Hb. cbn [now kids] in Hb. next_cases; unfold pending; cbn [viewc now kids pred].
  - intros [Hj1 Hj2]%joins_list. auto.
  - intros [Hj1 Hj2]%joins_list. auto.
  - intros Hj. split; [|done]. intros Hx. eapply region_apart; [by eapply joins_region|done].
  - intros [Hj1 Hj2]%joins_pipe. auto.
  - destruct Hb as [Hpos Hb]. intros [[= -> ->]|[[= -> ->]|Hj]]; (split; [intros Hx|intros m Hx]); try (by apply region_strict in Hx).
    + split; [done|]. exists (pred n). split; [done|]. apply Hu. right. by apply Hb.
    + split; [done|]. exists n. split; [done|]. apply Hu. by left.
    + exfalso. eapply region_apart; [by eapply joins_region|done].
Qed.

Definition exit_ok (J : list (path * path)) (x : event) (es : list event) : Prop :=
  match x with Exit w => forall q, (q, w) ∈ J -> Exit q ∈ es | _ => True end.

Record joined (J : list (path * path)) (s : state) : Prop := {
  jn_pending w p q x : procs s !! w = Some p -> ended (now p) = false -> (q, x) ∈ J -> region w (kids p) x ->
    (x = w /\ Exit q ∈ events s) \/ pending (procs s) w p q x;
  jn_exit : ordered (exit_ok J) (events s) }.

(** The same with other events and other processes. *)
Lemma joined_frame J s m es w p q x : joined J s -> procs s !! w = Some p -> ended (now p) = false -> (q, x) ∈ J -> region w (kids p) x ->
  events s ⊆ es -> (forall i, unreaped (procs s) w i <-> unreaped m w i) -> (x = w /\ Exit q ∈ es) \/ pending m w p q x.
Proof.
  intros H Hp He Hj Hx Hes Hu. destruct (jn_pending _ _ H w p q x Hp He Hj Hx) as [[-> ?]|?]; [left; auto|]. right. by apply (pending_iff (procs s)).
Qed.

Lemma joined_update J s w p p' es : joined J s -> procs s !! w = Some p -> reaped (now p) = false -> reaped (now p') = false -> events s ⊆ es -> ordered (exit_ok J) es ->
  (forall q x, ended (now p') = false -> (q, x) ∈ J -> region w (kids p') x -> (x = w /\ Exit q ∈ es) \/ pending (<[w := p']> (procs s)) w p' q x) ->
  joined J (mkstate (<[w := p']> (procs s)) es).
Proof.
  intros H Hp Hr Hr' He Ho Hw. split; cbn [procs events]; [|done]. intros v r q x Hv. revert Hv. intros [[<- <-]|[Hn Hv]]%lookup_insert_Some Hev Hj Hx; [by apply Hw|].
  eapply joined_frame; eauto. intros i. symmetry. by apply (unreaped_update _ w p).
Qed.

Lemma joined_fork J s w p ck ct k t : shape s -> joined J s -> procs s !! w = Some p -> ended (now p) = false -> advance true w (now p) (tab p) = Forks ck ct k t ->
  joined J (mkstate (forked w p ct ck t k (procs s)) (events s)).
Proof.
  intros H HJ Hp He En. pose proof (next_forks _ _ _ _ _ _ _ _ En) as [[c Hc] Hk].
  assert (reaped (now p) = false) as Hr by (by destruct (now p)). assert (reaped ck = false) as Hrc by (by destruct ck).
  assert (reaped k = false) as Hrk by (destruct k; cbn in Hk; destruct Hk as [[_ [?| ?]]|[_ ?]]; done).
  split; cbn [procs events]; [|by apply jn_exit]. intros v r q x [[-> ->]|[[-> ->]|(Hn1 & Hn2 & Hv)]]%forked_lookup Hev Hj Hx.
  - right. destruct (jn_pending _ _ HJ w p q x Hp He Hj (region_child _ _ _ Hx)) as [[-> _]|Hq]; [by apply region_strict in Hx|].
    by eapply (pending_fork s w p).
  - cbn in Hx. destruct (jn_pending _ _ HJ w p q x Hp He Hj (region_weaken _ _ _ _ (Nat.le_succ_diag_r _) Hx)) as [?|Hq]; [by left|].
    right. by eapply (pending_fork s w p).
  - eapply joined_frame; eauto. intros i. rewrite unreaped_forked by done. naive_solver.
Qed.

Lemma joined_reap J s w p k i q : shape s -> joined J s -> procs s !! w = Some p -> advance true w (now p) (tab p) = Blocks k -> procs s !! (w ++ [i]) = Some q -> now q = Zombie ->
  joined J (mkstate (<[w ++ [i] := with_code Reaped q]> (<[w := with_code k p]> (procs s))) (events s)).
Proof.
  intros H HJ Hp En Hq Hz. pose proof (path_ne w i) as Hne. pose proof (next_ok true w p (sh_fit _ H _ _ Hp)) as Hn. rewrite En in Hn. destruct Hn as [Hk _].
  assert (ended (now p) = false) as He by (by destruct (now p)).
  assert (forall v j, unreaped (<[w ++ [i] := with_code Reaped q]> (<[w := with_code k p]> (procs s))) v j <-> unreaped (<[w ++ [i] := with_code Reaped q]> (procs s)) v j) as Hu.
  { intros v j. rewrite !unreaped_reap by (try rewrite lookup_insert_ne by done; done). rewrite (unreaped_update _ w p); [done..|by destruct (now p)|by destruct k]. }
  split; cbn [procs events]; [|by apply jn_exit]. intros v r u x [[<- <-]|[Hn Hv]]%lookup_insert_Some Hev Hj Hx; [done|].
  apply lookup_insert_Some in Hv as [[<- <-]|[Hn' Hv]].
  - destruct (jn_pending _ _ HJ w p u x Hp He Hj Hx) as [?|Hpe]; [by left|].
    destruct (pending_reap _ _ _ _ _ _ _ _ _ _ H Hp En Hq Hz Hpe) as [?|?]; [by left|]. right. eapply pending_iff; [|done]. intros j. by rewrite Hu.
  - eapply joined_frame; eauto. intros j. rewrite Hu, unreaped_reap by done. naive_solver.
Qed.

Lemma joined_step J s s' : shape s -> joined J s -> step false s s' -> joined J s'.
Proof.
  intros H HJ Hst. inversion Hst as [s0 w p ok s1 Hp Hok Ha|s0 w p k i q Hp En Hq Hz|s0 w p k Hp En Ha]; subst.
  - destruct Hok as [->|]; [|done]. pose proof (next_ok true w p (sh_fit _ H _ _ Hp)) as Hn. pose proof (sh_brood _ H _ _ Hp) as Hb.
    destruct (advance true w (now p) (tab p)) as [k t|ck ct k t|argv|msg|dir o k|k|] eqn:En; cbn in Ha; simplify_eq; cbn in Hn; try done.
    all: assert (ended (now p) = false) as He by (by destruct (now p)); assert (reaped (now p) = false) as Hr by (by destruct (now p)).
    + apply (joined_update J s w p); try done; [by destruct k; destruct Hn|by apply jn_exit|]. intros q x _ Hj Hx.
      destruct (jn_pending _ _ HJ w p q x Hp He Hj Hx) as [?|Hq]; [by left|]. right. eapply pending_goes; [done|].
      eapply pending_iff; [|done]. intros i. symmetry. apply (unreaped_update _ w p); try done. by destruct k; destruct Hn.
    + by eapply joined_fork.
    + apply (joined_update J s w p); try done; [set_solver|apply ordered_snoc; [by apply jn_exit|done]|]. intros q x _ Hj Hx.
      destruct (jn_pending _ _ HJ w p q x Hp He Hj Hx) as [[-> ?]|Hq]; [left; split; [done|set_solver]|].
      apply next_becomes in En. unfold pending in Hq. rewrite En in Hq. by apply not_elem_of_nil in Hq.
    + apply (joined_update J s w p); try done; [set_solver|]. rewrite app_assoc. apply ordered_snoc;
        [destruct msg; [apply ordered_snoc; [by apply jn_exit|done]|rewrite app_nil_r; by apply jn_exit]|].
      intros q Hj. destruct (jn_pending _ _ HJ w p q w Hp He Hj ltac:(by left)) as [[_ ?]|Hq]; [set_solver|].
      exfalso. by apply (pending_exits (procs s) w p msg q w (sh_fit _ H _ _ Hp) Hb En).
  - by eapply joined_reap.
  - destruct (brood_alone _ _ _ _ _ H Hp En Ha) as (n & Ek & -> & Hu). apply (joined_update J s w p); try done; [by rewrite Ek|by apply jn_exit|].
    intros q x _ Hj Hx. destruct (jn_pending _ _ HJ w p q x Hp ltac:(by rewrite Ek) Hj Hx) as [?|Hq]; [by left|].
    unfold pending in Hq. rewrite Ek in Hq. destruct Hq as (_ & i & _ & Hi). by destruct (Hu i).
Qed.

(** ** Every run ends *)

Fixpoint csize (c : cmd (list Z)) : nat :=
  match c with
  | EXEC _ => 3
  | REDIR c _ _ _ => 1 + csize c
  | LIST l r => csize l + csize r + 2
  | PIPE l r => csize l + csize r + 7
  | BACK c => csize c + 3
  end.

(** The steps that a process and those it forks can still take. *)
Fixpoint lines_weight (lines : list (list Z)) : nat :=
  match lines with [] => 2 | l :: rest => csize (command l) + lines_weight rest + 3 end.

Definition weight (k : code) : nat :=
  match k with
  | MainLoop lines => lines_weight lines
  | MainWait lines => 1 + lines_weight lines
  | Line line => 1 + csize (command line)
  | Cmd c => csize c
  | WaitThen c => 1 + csize c
  | ForkLeft l r _ _ => csize l + csize r + 6
  | ForkRight r _ _ => csize r + 5
  | PipeWait n => n + 2
  | Leave | Prog _ => 2
  | Zombie => 1
  | Reaped => 0
  end.

Definition work (s : state) : nat := sum_list_with (fun wp => weight (now wp.2)) (map_to_list (procs s)).

Lemma csize_big c : (3 <= csize c)%nat.
Proof. induction c; cbn; lia. Qed.

Lemma lines_weight_big lines : (2 <= lines_weight lines)%nat.
Proof. induction lines as [|l ls IH]; cbn; lia. Qed.

Lemma next_weight ok w k t :
  match advance ok w k t with
  | Goes k' _ | Chdirs _ _ k' | Blocks k' => (weight k' < weight k)%nat
  | Forks ck _ k' _ => (weight ck + weight k' < weight k)%nat
  | Becomes argv => (2 < weight k)%nat
  | Exits _ => (1 < weight k)%nat
  | Nothing => True
  end.
Proof.
  destruct k as [[|line rest]|rest|line|c|c|l r p0 p1|r p0 p1|[|i]| |argv| |]; cbn [advance weight lines_weight]; try lia.
  - pose proof (lines_weight_big rest). unfold shell_line, fork1. repeat case_match; simplify_eq; cbn [weight]; lia.
  - unfold command. repeat case_match; simplify_eq; cbn [weight csize]; lia.
  - pose proof (csize_big c). destruct c as [[|a argv]|c f m fd|l r|l r|c]; cbn [runcmd csize weight] in *; unfold fork1; repeat case_match; simplify_eq; cbn [weight]; lia.
  - destruct ok; cbn; lia.
  - destruct ok; cbn; lia.
Qed.

Lemma work_insert m w p es : m !! w = None -> work (mkstate (<[w := p]> m) es) = (weight (now p) + work (mkstate m es))%nat.
Proof. intros H. unfold work. cbn [procs]. by rewrite (map_to_list_insert m w p H). Qed.

Lemma work_update m w p p' es es' : m !! w = Some p -> (work (mkstate (<[w := p']> m) es) + weight (now p) = work (mkstate m es') + weight (now p'))%nat.
Proof.
  intros H. rewrite <- (insert_delete_id m w p H) at 2. rewrite <- insert_delete_eq. rewrite !work_insert by apply lookup_delete_eq. unfold work. cbn [procs]. lia.
Qed.

Lemma work_lt m w p p' es es' : m !! w = Some p -> (weight (now p') < weight (now p))%nat -> (work (mkstate (<[w := p']> m) es') < work (mkstate m es))%nat.
Proof. intros H Hw. pose proof (work_update m w p p' es' es H). lia. Qed.

Lemma work_step fails s s' : shape s -> step fails s s' -> (work s' < work s)%nat.
Proof.
  intros H Hst. destruct Hst as [s w p ok s' Hp _ Ha|s w p k i q Hp En Hq Hz|s w p k Hp En _].
  - pose proof (next_weight ok w (now p) (tab p)) as Hw. destruct s as [m es]. cbn [procs events] in *.
    destruct (advance ok w (now p) (tab p)) as [k t|ck ct k t|argv|msg|dir o k|k|] eqn:En; cbn in Ha; simplify_eq.
    + apply (work_lt m w p); [done|cbn; lia].
    + rewrite work_insert by (rewrite lookup_insert_ne; [by apply (child_fresh _ _ _ H)|intros E; by apply (path_ne w (kids p))]).
      pose proof (work_update m w p (mkprocess t (S (kids p)) k) es es Hp) as E. cbn in E |- *. lia.
    + apply (work_lt m w p); [done|cbn; lia].
    + apply (work_lt m w p); [done|cbn; lia].
    + apply (work_lt m w p); [done|cbn; lia].
  - pose proof (next_weight true w (now p) (tab p)) as Hw. rewrite En in Hw. destruct s as [m es]. cbn [procs events] in *.
    pose proof (work_update m w p (with_code k p) es es Hp) as E1.
    pose proof (work_update (<[w := with_code k p]> m) (w ++ [i]) q (with_code Reaped q) es es) as E2.
    rewrite lookup_insert_ne in E2 by (intros E; by apply (path_ne w i)). specialize (E2 Hq). rewrite Hz in E2. cbn in E1, E2. lia.
  - pose proof (next_weight true w (now p) (tab p)) as Hw. rewrite En in Hw. destruct s as [m es]. cbn [procs events] in *.
    apply (work_lt m w p); [done|cbn; lia].
Qed.

Lemma next_nothing ok w k t : advance ok w k t = Nothing -> ended k = true.
Proof. next_cases. Qed.

Definition is_child (w v : path) : Prop := v <> [] /\ removelast v = w.

Lemma is_child_app w v : is_child w v <-> exists i, v = w ++ [i].
Proof.
  split.
  - intros [Hv <-]. exists (List.last v 0%nat). by apply app_removelast_last.
  - intros [i ->]. split; [by destruct w|apply removelast_last].
Qed.

(** A process in [wait] can go on, or a child can, or a grandchild. *)
Lemma stuck_ended fails s : (forall s', ~ step fails s s') -> forall w p, procs s !! w = Some p -> ended (now p) = true.
Proof.
  intros Hst. set (N := max_list (length <$> (map_to_list (procs s)).*1)).
  assert (forall w p, procs s !! w = Some p -> (length w <= N)%nat) as HN.
  { intros w p Hp. apply max_list_elem_of_le, list_elem_of_fmap. exists w. split; [done|]. apply list_elem_of_fmap. exists (w, p). by rewrite elem_of_map_to_list. }
  assert (forall d w p, (N - length w < d)%nat -> procs s !! w = Some p -> ended (now p) = true) as Hd; [|intros w p; apply (Hd (S (N - length w))); lia].
  induction d as [|d IH]; intros w p Hlt Hp; [lia|].
  destruct (advance true w (now p) (tab p)) as [k t|ck ct k t|argv|msg|dir o k|k|] eqn:En; [exfalso; eapply Hst, (step_act _ s w p true); auto; by rewrite En..| |by eapply next_nothing].
  destruct (decide (map_Forall (fun v q => is_child w v -> reaped (now q) = true) (procs s))) as [Ha|Ha].
  - exfalso. eapply Hst, (step_alone _ s w p); [done..|]. intros i q Hq. assert (reaped (now q) = true) as Hr by (eapply Ha; [done|apply is_child_app; eauto]). by destruct (now q).
  - apply map_not_Forall in Ha; [|apply _]. destruct Ha as (v & q & Hq & Hn). assert (is_child w v) as Hc by (destruct (decide (is_child w v)); [done|exfalso; apply Hn; done]).
    apply is_child_app in Hc as [i ->]. assert (ended (now q) = true) as He.
    { eapply IH; [|done]. pose proof (HN _ _ Hq) as Hl. rewrite length_app in *. cbn in *. lia. }
    exfalso. destruct (now q) eqn:Eq; try done. by eapply Hst, (step_wait _ s w p).
Qed.

(** ** A session *)

Lemma shape_runs fails s s' : shape s -> rtc (step fails) s s' -> shape s'.
Proof. intros H Hr. induction Hr; eauto using shape_step. Qed.

Lemma runs_bounded fails n s s' : shape s -> nsteps (step fails) n s s' -> (n + work s' <= work s)%nat.
Proof.
  intros H Hr. revert H. induction Hr as [s|n s1 s2 s3 H12 _ IH]; intros H; [lia|].
  pose proof (work_step _ _ _ H H12). pose proof (IH (shape_step _ _ _ H H12)). lia.
Qed.

Section Session.
Context (lines : list (list Z)) (io : stdio) (Hl : Forall plain lines).

Let c := session (command <$> lines).
Let s0 := shell_main (table io) lines.

Lemma session_shape : shape s0.
Proof.
  split; cbn [procs s0 shell_main events].
  - intros w i q [E _]%lookup_singleton_Some. by destruct w.
  - intros w p [<- <-]%lookup_singleton_Some. split; [done|]. cbn. split; [by apply session_std|by destruct io].
  - intros w p [<- <-]%lookup_singleton_Some. intros i (q & [E _]%lookup_singleton_Some & _). done.
  - by intros w p [<- <-]%lookup_singleton_Some.
Qed.

Lemma session_timely : timely (plan c io [] 0 []) s0.
Proof.
  split; cbn [procs s0 shell_main events]; [|by intros [] ? ?]. intros w p [<- <-]%lookup_singleton_Some. exists []. split; [by intros q ?%not_elem_of_nil|]. by destruct io.
Qed.

Lemma session_joined : joined (joins c [] 0) s0.
Proof.
  split; cbn [procs s0 shell_main events]; [|by intros [] ? ?]. intros w p q x [<- <-]%lookup_singleton_Some _ Hj _. by right.
Qed.

Lemma session_count fails s : rtc (step fails) s0 s ->
  started s ++ debts (procs s) ⊆+ e_start <$> plan c io [] 0 [] /\ (fails = false -> started s ++ debts (procs s) ≡ₚ e_start <$> plan c io [] 0 []).
Proof.
  assert (started s0 ++ debts (procs s0) = e_start <$> plan c io [] 0 []) as <-.
  { cbn [procs s0 shell_main]. unfold debts. rewrite map_to_list_singleton. cbn. rewrite app_nil_r. by destruct io. }
  pose proof session_shape as Hs. generalize dependent s0. intros s1 Hs Hr. revert Hs.
  induction Hr as [s1|s1 s2 s3 H12 _ IH]; intros Hs; [done|]. destruct (count_step _ _ _ Hs H12) as [H1 H2].
  destruct (IH (shape_step _ _ _ Hs H12)) as [H3 H4]. split; [by etrans|]. intros Hf. etrans; [by apply H4|by apply H2].
Qed.

Lemma session_order fails s : rtc (step fails) s0 s -> timely (plan c io [] 0 []) s.
Proof.
  intros Hr. pose proof session_shape as Hs. pose proof session_timely as Ht. generalize dependent s0. intros s1 Hr Hs. revert Hs.
  induction Hr; eauto using shape_step, timely_step.
Qed.

Lemma session_joins s : rtc (step false) s0 s -> joined (joins c [] 0) s.
Proof.
  intros Hr. pose proof session_shape as Hs. pose proof session_joined as Ht. generalize dependent s0. intros s1 Hr Hs. revert Hs.
  induction Hr; eauto using shape_step, joined_step.
Qed.

Lemma debts_ended m : (forall w p, m !! w = Some p -> ended (now p) = true) -> debts m = [].
Proof.
  intros H. unfold debts. assert (Forall (fun wp => debt wp.1 wp.2 = []) (map_to_list m)) as Hf.
  { apply Forall_forall. intros [w p] Hp%elem_of_map_to_list. apply H in Hp. unfold debt, owed. cbn. by destruct (now p). }
  induction Hf as [|x l Hx _ IH]; [done|]. cbn. by rewrite Hx.
Qed.

End Session.


(** ** A line of the grammar *)

Lemma std_redirs_wrap (rs : list (redir (list Z))) : forall c, Forall (fun r => rfd r = 0 \/ rfd r = 1) rs -> std_redirs c -> std_redirs (wrap c rs).
Proof. unfold wrap. induction rs as [|r rs IH]; intros c Hr Hc; [done|]. apply Forall_cons in Hr as [H1 H2]. cbn. by apply IH. Qed.

Lemma tree_redirs_std rs : Forall (fun r => rfd r = 0 \/ rfd r = 1) (tree_redirs rs).
Proof. unfold tree_redirs. apply Forall_fmap, Forall_true. intros []; cbn; auto. Qed.

Lemma std_redirs_backs n (c : cmd (list Z)) : std_redirs c -> std_redirs (backs n c).
Proof. intros H. by induction n. Qed.

Lemma tree_std : (forall l, std_redirs (tree_line l)) /\ (forall p, std_redirs (tree_pipe p)) /\ (forall e, std_redirs (tree_exec e)).
Proof.
  apply grammar_ind; cbn [tree_line tree_pipe tree_exec std_redirs]; auto using std_redirs_backs, std_redirs_wrap, tree_redirs_std.
  intros rs args. apply std_redirs_wrap; [|done]. apply Forall_app. split; [apply tree_redirs_std|].
  induction args as [|a args IH]; [done|]. apply Forall_app. split; [apply tree_redirs_std|exact IH].
Qed.

Lemma strings_erase buf c : (forall w, w ∈ words_in c -> string_at buf (fst w) = text w) -> strings buf c = erase c.
Proof.
  induction c as [argv|c IH f m d|l IHl r IHr|l IHl r IHr|c IH]; intros H; cbn [strings erase words_in] in *.
  - f_equal. apply list_fmap_ext. intros i w Hw. apply H. by eapply list_elem_of_lookup_2.
  - rewrite IH by (intros w Hw; apply H; set_solver). by rewrite H by set_solver.
  - rewrite IHl, IHr by (intros w Hw; apply H; set_solver). done.
  - rewrite IHl, IHr by (intros w Hw; apply H; set_solver). done.
  - by rewrite IH.
Qed.

(** The text of a sentence, which is not a change of directory. *)
Definition sentence (l : gline) : Prop :=
  line_ok l /\ Forall (.≠ 0) (show_line l) /\ take 3 (show_line l) <> [99; 100; 32].

Lemma sentence_command l : sentence l -> plain (show_line l) /\ command (show_line l) = tree_line l.
Proof.
  intros (Hl & Hz & Hcd). destruct (parsecmd_text l Hl) as (c & E & Ec). pose proof (parsecmd_safe (show_line l)) as Hs. rewrite E in Hs. destruct Hs as [Hw _].
  assert (command (show_line l) = tree_line l) as Hc.
  { unfold command. rewrite E. rewrite strings_erase; [done|]. intros w Hin. rewrite nulterminate_nuls. apply words_intact; [done|by eapply wf_words|done]. }
  split; [|done]. split_and!; [eauto|done|]. rewrite Hc. apply tree_std.
Qed.

Lemma sentences ls : Forall sentence ls -> Forall plain (show_line <$> ls) /\ command <$> (show_line <$> ls) = tree_line <$> ls.
Proof. induction 1 as [|l ls Hl _ [IH1 IH2]]; [done|]. apply sentence_command in Hl as [H1 H2]. cbn. rewrite H2, IH2. split; [by constructor|done]. Qed.

(** C25: The shell wires pipelines.  The shell reads any sentences of its grammar,
    and all the processes it makes run in any order.  Whether or not system calls
    fail: every program that is started is one of the sentences', with standard
    input, output and error as the pipes and redirections around it say and no
    other descriptor, so no end of a pipe is left open; none is started twice; and
    when it starts, the commands before it in its list, and the lines before it,
    are over ([e_after]); no run takes more than [work] steps.  When no system call
    fails: a process that waits ends after those it waits for, such as both sides
    of a pipe ([joins]), and a run that can go no further has started every program
    of the sentences and all its processes have exited. *)
Theorem shell_wires (ls : list gline) (io : stdio) (Hl : Forall sentence ls) :
  let c := session (tree_line <$> ls) in
  let s0 := shell_main (table io) (show_line <$> ls) in
  (forall fails s, rtc (step fails) s0 s ->
     started s ⊆+ e_start <$> plan c io [] 0 [] /\
     (forall es who argv t es', events s = es ++ Start who argv t :: es' ->
        exists e, e ∈ plan c io [] 0 [] /\ e_start e = (who, argv, t) /\ forall q, q ∈ e_after e -> Exit q ∈ es)) /\
  (forall fails n s, nsteps (step fails) n s0 s -> (n <= work s0)%nat) /\
  (forall s, rtc (step false) s0 s ->
     (forall es who es', events s = es ++ Exit who :: es' -> forall q, (q, who) ∈ joins c [] 0 -> Exit q ∈ es) /\
     ((forall s', ~ step false s s') ->
        started s ≡ₚ e_start <$> plan c io [] 0 [] /\ forall who p, procs s !! who = Some p -> ended (now p) = true)).
Proof.
  intros c s0. destruct (sentences ls Hl) as [Hp Hc]. pose proof (session_shape _ io Hp) as Hs.
  assert (session (command <$> (show_line <$> ls)) = c) as Ec by (unfold c; by rewrite Hc). split_and!.
  - intros fails s Hr. pose proof (session_count _ io Hp fails s Hr) as [Hn _]. pose proof (session_order _ io Hp fails s Hr) as [_ Ho].
    rewrite Ec in Hn, Ho. split; [etrans; [|done]; apply submseteq_inserts_r; done|]. intros es who argv t es' E. exact (Ho _ _ _ E).
  - intros fails n s Hr. pose proof (runs_bounded _ _ _ _ Hs Hr). unfold s0. lia.
  - intros s Hr. pose proof (session_joins _ io Hp s Hr) as [_ Ho]. rewrite Ec in Ho. split; [intros es who es' E; exact (Ho _ _ _ E)|].
    intros Hst. pose proof (stuck_ended _ _ Hst) as He. pose proof (session_count _ io Hp false s Hr) as [_ Hn].
    rewrite debts_ended, app_nil_r, Ec in Hn by done. auto.
Qed.

(** [shell_wires] for the lines "a < f | b > g" and "c; d": [d] is started by the
    same process as the list, after [c]'s is over. *)
Definition demo_text : list gline :=
  [GEnd (GMore (GSimple [] [([97], [GIn [102]])]) (GOne (GSimple [] [([98], [GOut [103]])]))) 0;
   GSeq (GOne (GSimple [] [([99], [])])) 0 (GEnd (GOne (GSimple [] [([100], [])])) 0)].
Definition demo_io : stdio := mkstdio (Inherited 0) (Inherited 1) (Inherited 2).

Lemma shell_wires_witness :
  plan (session (tree_line <$> demo_text)) demo_io [] 0 [] =
    [mkentry [0; 0]%nat [[97]] (mkstdio (Opened [102] 0) (PipeWrite [0%nat]) (Inherited 2)) [];
     mkentry [0; 1]%nat [[98]] (mkstdio (PipeRead [0%nat]) (Opened [103] 513) (Inherited 2)) [];
     mkentry [1; 0]%nat [[99]] demo_io [[0%nat]];
     mkentry [1%nat] [[100]] demo_io [[0%nat]; [1; 0]%nat]] /\
  forall s, rtc (step false) (shell_main (table demo_io) (show_line <$> demo_text)) s -> (forall s', ~ step false s s') ->
    started s ≡ₚ e_start <$> plan (session (tree_line <$> demo_text)) demo_io [] 0 [].
Proof.
  split; [by vm_compute|]. intros s Hr Hst. apply (shell_wires demo_text demo_io); [|done..].
  repeat constructor; try (apply (bool_decide_unpack _); by vm_compute); cbn; unfold arg_ok, is_word; repeat split; try discriminate; try (repeat constructor; done); try lia.
Defined.
