(* ===== verification/Exec.v ===== *)
(** * Loading programs ([exec.c], [elf.h], [vm.c]'s [loaduvm])

    [exec] works on three parts of the kernel at once: the file system, the
    memory with its page tables, and the calling process.  The argument strings
    are in the caller's memory and [ustack] is on the kernel stack, neither of
    which the new address space shares, so [copyout] gets their bytes as a list.
    What [exec] prints is left out. *)
From S2P Require Import Prelude Sleeplock Log Tx Fs Proc Syscall Str Spinlock Kalloc Vm.

Definition ELF_MAGIC : Z := 1179403647.
Definition ELF_PROG_LOAD : Z := 1.
Definition MAXARG : Z := 32.

Record elfhdr := mkelfhdr {
  magic : Z; elf : list Z; e_type : Z; machine_ : Z; version : Z; entry : Z; phoff : Z;
  shoff : Z; e_flags : Z; ehsize : Z; phentsize : Z; phnum : Z; shentsize : Z; shnum : Z;
  shstrndx : Z;
}.

Record proghdr := mkproghdr {
  p_type : Z; p_off : Z; vaddr : Z; paddr : Z; filesz : Z; memsz : Z; p_flags : Z; p_align : Z;
}.

(** The structures as the bytes read into them, 52 and 32 of them. *)
Definition elfhdr_of (b : list Z) : elfhdr :=
  mkelfhdr (get32 b 0) (take 12 (drop 4 b)) (get16 b 16) (get16 b 18) (get32 b 20) (get32 b 24)
    (get32 b 28) (get32 b 32) (get32 b 36) (get16 b 40) (get16 b 42) (get16 b 44) (get16 b 46)
    (get16 b 48) (get16 b 50).

Definition proghdr_of (b : list Z) : proghdr :=
  mkproghdr (get32 b 0) (get32 b 4) (get32 b 8) (get32 b 12) (get32 b 16) (get32 b 20)
    (get32 b 24) (get32 b 28).

(** The bytes of an array of words. *)
Definition words (l : list Z) : list Z := mjoin (le32 <$> l).

(** What follows the last slash. *)
Fixpoint last_elem (last s : list Z) : list Z :=
  match s with
  | [] => last
  | c :: s => last_elem (if c =? slash then s else last) s
  end.

Definition set_entry (eip esp : Z) (t : trapframe) : trapframe :=
  mktf (tf_edi t) (tf_esi t) (tf_ebp t) (tf_oesp t) (tf_ebx t) (tf_edx t) (tf_ecx t) (tf_eax t)
    (tf_gs t) (tf_fs t) (tf_es t) (tf_ds t) (tf_trapno t) (tf_err t) eip (tf_cs t) (tf_eflags t)
    esp (tf_ss t).

Record est (S : Type) := mkest { efs : fsst S; evm : kvm; ecur : proc }.
Arguments mkest {S} efs evm ecur.
Arguments efs {S} e.
Arguments evm {S} e.
Arguments ecur {S} e.

Section Exec.
Context {S : Type} {TO : TxOps S}.
Context (kend argp kdata : Z) (tsaddr : nat -> Z).
Context (dev_read : Z -> option (Z -> M (fsst S) (Z * list Z))).

Abbreviation EM := (M (est S)).

Definition in_fs {A} (m : M (fsst S) A) : EM A := zoom efs (fun f s => mkest f (evm s) (ecur s)) m.
Definition in_vm {A} (m : M kvm A) : EM A := zoom evm (fun k s => mkest (efs s) k (ecur s)) m.
Definition in_mem {A} (m : M kmem A) : EM A := in_vm (zoom kmm set_kmm m).
Definition set_cur (f : proc -> proc) : EM unit := modify (fun s => mkest (efs s) (evm s) (f (ecur s))).

Definition kwrite (a : Z) (bs : list Z) : M kmem unit :=
  modify (fun s => set_kram (poke (kram s) a bs) s).

(** ** vm.c *)

(** [readi] into memory at [dst]. *)
Definition read_to (ip : nat) (dst off n : Z) : EM Z :=
  let! (r, bs) := in_fs (readi dev_read ip off n) in
  in_mem (kwrite dst bs) ;;
  ret r.

(** A turn per page; the comparison with [n] is unsigned. *)
Fixpoint loaduvm_loop (fuel : nat) (d addr : Z) (ip : nat) (offset sz i : Z) : EM Z :=
  if i <? sz then
    match fuel with
    | O => fault "fuel"
    | Datatypes.S k =>
        let! pte := in_mem (walkpgdir argp d (u32 (addr + i)) false) in
        if pte =? 0 then panic "loaduvm: address should exist"
        else
          let! e := in_mem (loadw pte) in
          let pa := PTE_ADDR e in
          let n := if u32 (sz - i) <? PGSIZE then u32 (sz - i) else PGSIZE in
          let! r := read_to ip (P2V pa) (u32 (offset + i)) n in
          if negb (u32 r =? n) then ret (-1)
          else loaduvm_loop k d addr ip offset sz (u32 (i + PGSIZE))
    end
  else ret 0.

Definition loaduvm (d addr : Z) (ip : nat) (offset sz : Z) : EM Z :=
  if negb (addr mod PGSIZE =? 0) then panic "loaduvm: addr must be page aligned"
  else loaduvm_loop (Z.to_nat (sz / PGSIZE + 1)) d addr ip offset sz 0.

(** [copyout] with the bytes at [p] given. *)
Fixpoint copyout_bytes_loop (fuel : nat) (d va : Z) (bs : list Z) : M kmem Z :=
  if 0 <? Z.of_nat (length bs) then
    match fuel with
    | O => fault "fuel"
    | Datatypes.S k =>
        let va0 := PGROUNDDOWN va in
        let! pa0 := uva2ka argp d va0 in
        if pa0 =? 0 then ret (-1)
        else
          let n := u32 (PGSIZE - (va - va0)) in
          let n := if Z.of_nat (length bs) <? n then Z.of_nat (length bs) else n in
          kwrite (u32 (pa0 + (va - va0))) (take (Z.to_nat n) bs) ;;
          copyout_bytes_loop k d (u32 (va0 + PGSIZE)) (drop (Z.to_nat n) bs)
    end
  else ret 0.

Definition copyout_bytes (d va : Z) (bs : list Z) : M kmem Z :=
  copyout_bytes_loop (Z.to_nat (Z.of_nat (length bs) / PGSIZE + 2)) d va bs.

(** ** exec.c *)

(** One segment to load: the new size, or [None] for [goto bad]. *)
Definition load_segment (d : Z) (ip : nat) (ph : proghdr) (sz : Z) : EM (option Z) :=
  if memsz ph <? filesz ph then ret None
  else if u32 (vaddr ph + memsz ph) <? vaddr ph then ret None
  else
    let! sz := in_mem (allocuvm kend argp d sz (u32 (vaddr ph + memsz ph))) in
    if sz =? 0 then ret None
    else if negb (vaddr ph mod PGSIZE =? 0) then ret None
    else
      let! r := loaduvm d (vaddr ph) ip (p_off ph) (filesz ph) in
      ret (if r <? 0 then None else Some sz).

(** The loop over the program headers, [n] of them left. *)
Fixpoint load_segments (n : nat) (d : Z) (ip : nat) (off sz : Z) : EM (option Z) :=
  match n with
  | O => ret (Some sz)
  | Datatypes.S k =>
      let! (r, bs) := in_fs (readi dev_read ip off 32) in
      if negb (r =? 32) then ret None
      else
        let ph := proghdr_of bs in
        if negb (p_type ph =? ELF_PROG_LOAD) then load_segments k d ip (u32 (off + 32)) sz
        else
          let! o := load_segment d ip ph sz in
          match o with
          | None => ret None
          | Some sz => load_segments k d ip (u32 (off + 32)) sz
          end
  end.

(** The argument loop: the stack pointer and [ustack[3..]]. *)
Fixpoint push_args (argv : list (list Z)) (d argc sp : Z) (ustack : list Z)
  : EM (option (Z * list Z)) :=
  match argv with
  | [] => ret (Some (sp, ustack))
  | a :: argv =>
      if MAXARG <=? argc then ret None
      else
        let sp := Z.land (u32 (sp - (Z.of_nat (length a) + 1))) (Z.lnot 3) in
        let! r := in_mem (copyout_bytes d sp (a ++ [0])) in
        if r <? 0 then ret None
        else push_args argv d (argc + 1) sp (ustack ++ [sp])
  end.

(** The code at [bad]. *)
Definition bad (me d : Z) (ip : option nat) : EM Z :=
  when (nz d) (in_mem (freevm kend argp d)) ;;
  match ip with
  | Some ip => in_fs (iunlockput me ip) ;; in_fs (lift tx_end) ;; ret (-1)
  | None => ret (-1)
  end.

(** The process name and the new image. *)
Definition exec_commit (d sz eip sp : Z) (path : list Z) : EM Z :=
  set_cur (fun p => set_name (copy_name (name p) (last_elem path path)) p) ;;
  let! old := gets (fun s => pgdir (ecur s)) in
  set_cur (set_pgdir d) ;;
  set_cur (set_sz sz) ;;
  set_cur (fun p => set_tf (set_entry eip sp (tf p)) p) ;;
  let! p := gets ecur in
  in_vm (switchuvm tsaddr (Some (kstack p, pgdir p))) ;;
  in_mem (freevm kend argp old) ;;
  ret 0.

(** From the new page directory [d] with [sz] bytes loaded to the end. *)
Definition exec_stack (me d sz : Z) (e : elfhdr) (path : list Z) (argv : list (list Z)) : EM Z :=
  let sz := PGROUNDUP sz in
  let! sz := in_mem (allocuvm kend argp d sz (u32 (sz + 2 * PGSIZE))) in
  if sz =? 0 then bad me d None
  else
    in_mem (clearpteu argp d (u32 (sz - 2 * PGSIZE))) ;;
    let! o := push_args argv d 0 sz [] in
    match o with
    | None => bad me d None
    | Some (sp, args) =>
        let argc := Z.of_nat (length args) in
        let ustack := [4294967295; argc; u32 (sp - (argc + 1) * 4)] ++ args ++ [0] in
        let sp := u32 (sp - (3 + argc + 1) * 4) in
        let! r := in_mem (copyout_bytes d sp (words ustack)) in
        if r <? 0 then bad me d None
        else
          exec_commit d sz (entry e) sp path
    end.

Definition exec (path : list Z) (argv : list (list Z)) : EM Z :=
  let! me := gets (fun s => pid (ecur s)) in
  in_fs (lift tx_begin) ;;
  let! cw := gets (fun s => cwd (ecur s)) in
  let! cw := deref cw in
  let! o := in_fs (namei me dev_read cw path) in
  match o with
  | None => in_fs (lift tx_end) ;; ret (-1)
  | Some ip =>
      in_fs (ilock me ip) ;;
      let! (r, bs) := in_fs (readi dev_read ip 0 52) in
      if negb (r =? 52) then bad me 0 (Some ip)
      else
        let e := elfhdr_of bs in
        if negb (magic e =? ELF_MAGIC) then bad me 0 (Some ip)
        else
          let! d := in_mem (setupkvm kend argp kdata) in
          if d =? 0 then bad me 0 (Some ip)
          else
            let! o := load_segments (Z.to_nat (phnum e)) d ip (phoff e) 0 in
            match o with
            | None => bad me d (Some ip)
            | Some sz =>
                in_fs (iunlockput me ip) ;;
                in_fs (lift tx_end) ;;
                exec_stack me d sz e path argv
            end
  end.

End Exec.
