(* ===== verification/ExecSpace.v ===== *)
(** * The address space that [exec] builds

    One predicate follows the new address space through [exec]: its size and
    bytes, where its guard page is, and that its pages and the free ones are
    together the pages that were free before. *)
From S2P Require Import Prelude Syscall Exec Str Spinlock Kalloc Vm VmTables VmUser VmKern VmCopy VmClient.

(** Fresh memory. *)
Definition mem0 : mem := fun _ => 0.

Section Built.
Context (kend argp kdata f0 : Z) (i : nat) (dd : Z).
Context (Hke : KERNBASE < kend) (Hkd : kdata_ok kdata).

Abbreviation heap := (heap kend f0 i dd).
Abbreviation aspace := (aspace kend f0 i dd).

(** [D]: the directory; [g]: the number of the guard page, -1 before there is
    one; [m]: the bytes; [X]: other pages in use, which have kept the bytes of
    [m0]; [l]: the free pages; [L]: the pages that were free at the start. *)
Record space_of (s : kmem) (D g sz : Z) (m : mem) (T : gmap Z Z) (E : Z -> Z) (U : gmap Z (Z * Z))
    (X l : list Z) (m0 : mem) (L : list Z) : Prop := mksp {
  sp_space : aspace s D T E U X l;
  sp_size : 0 <= sz < KERNBASE;
  sp_kern n : 524288 <= n < 1048576 -> E n = kern_pte kdata (4096 * n);
  sp_slots : dom T ⊆ kern_slots ∪ slots 0 (npages sz - 1);
  sp_user n : is_Some (U !! n) <-> 0 <= n < npages sz;
  sp_flags n p f : U !! n = Some (p, f) -> f = if n =? g then 3 else 7;
  sp_bytes va : 0 <= va < 4096 * npages sz -> ubyte (kram s) U va = Some (m va);
  sp_pages : D :: vals T ++ upages U ++ l ≡ₚ L;
  sp_keeps : keeps X m0 (kram s);
}.

Definition built (s : kmem) (D g sz : Z) (m : mem) (X l : list Z) (m0 : mem) (L : list Z) : Prop :=
  exists T E U, space_of s D g sz m T E U X l m0 L.

(** An address space that is only good for [freevm]. *)
Definition doomed (s : kmem) (D : Z) (X : list Z) (m0 : mem) (L : list Z) : Prop :=
  exists T E U l, aspace s D T E U X l /\ D :: vals T ++ upages U ++ l ≡ₚ L /\ keeps X m0 (kram s).

Lemma built_doomed s D g sz m X l m0 L : built s D g sz m X l m0 L -> doomed s D X m0 L.
Proof. intros (T & E & U & []). by exists T, E, U, l. Qed.

Lemma built_dir s D g sz m X l m0 L : built s D g sz m X l m0 L -> D <> 0.
Proof.
  intros (T & E & U & [[[Hh _]%vmem_heap _] _ _ _ _ _ _ _ _]).
  assert (page_ok kend D) as [HD _] by (eapply heap_page; [done|sub]). lia.
Qed.

Lemma built_setup s X l :
  heap s X l ->
  wp (setupkvm kend argp kdata) s (fun D s' =>
    D = 0 /\ (length l <= 65)%nat /\
      (exists l', heap s' X l' /\ l' ≡ₚ l /\ keeps X (kram s) (kram s')) \/
    D <> 0 /\ exists l', built s' D (-1) 0 mem0 X l' (kram s) l).
Proof.
  intros Hh. eapply wp_mono; [by apply setupkvm_run|].
  intros D s' [H|(HD & T & l' & Hs & Hp & Hd & Hk)]; [by left|right]. split; [done|].
  exists l', T, (fun n => kern_pte kdata (4096 * n)), ∅. change (npages 0) with 0.
  split; [done|unfold KERNBASE; lia|done|by apply union_subseteq_l'| |done|intros va; change (npages 0) with 0; lia|done|done].
  intros n. change (npages 0) with 0. rewrite lookup_empty. split; [by intros [? ?]|lia].
Qed.

(** What is in use grows by at most a page per page and the tables for it. *)
Lemma free_bound s D g sz m T E U X l m0 L b :
  space_of s D g sz m T E U X l m0 L -> npages sz <= b ->
  Z.of_nat (length l) <= b - npages sz + ntables (npages sz) b ->
  Z.of_nat (length L) <= 67 + b + b / 1024.
Proof.
  intros [Hs Hsz _ Hd Hu _ _ Hp _] Hb Hl.
  pose proof (npages_range sz Hsz) as Hn.
  apply Permutation_length in Hp. cbn [length] in Hp. rewrite !length_app, length_vals, length_upages in Hp.
  assert (size U = Z.to_nat (npages sz)) as HU.
  { rewrite <- size_dom.
    replace (dom U) with (list_to_set (seqZ 0 (npages sz)) : gset Z).
    - rewrite size_list_to_set by apply NoDup_seqZ. by rewrite length_seqZ.
    - apply set_eq. intros n. rewrite elem_of_list_to_set, elem_of_seqZ, elem_of_dom, Hu. lia. }
  apply subseteq_size in Hd. rewrite size_dom in Hd.
  pose proof (size_union_alt kern_slots (slots 0 (npages sz - 1))) as Hsu.
  assert (size (slots 0 (npages sz - 1) ∖ kern_slots) <= size (slots 0 (npages sz - 1)))%nat
    by (by apply subseteq_size, subseteq_difference_l).
  pose proof (size_slots 0 (npages sz - 1) ltac:(lia)) as Hss. pose proof size_kern_slots.
  unfold ntables in Hl. change (0 / 1024) with 0 in Hss. rewrite Z.add_0_l in Hss.
  clear -Hn Hb Hl Hp HU Hd Hsu Hss H H0. Z.to_euclidean_division_equations; lia.
Qed.

Lemma built_grow s D g sz m X l m0 L n :
  built s D g sz m X l m0 L -> sz <= n < KERNBASE -> g < npages sz ->
  (forall va, 4096 * npages sz <= va -> m va = 0) ->
  wp (allocuvm kend argp D sz n) s (fun r s' =>
    r = n /\ (exists l', built s' D g n m X l' m0 L) \/
    r = 0 /\ doomed s' D X m0 L /\
      Z.of_nat (length L) <= 67 + npages n + npages n / 1024).
Proof.
  intros (T & E & U & Hb) Hn Hg Hz. pose proof Hb as [Hs Hsz Hk Hd Hu Hf Hby Hp Hkp].
  pose proof (npages_range sz Hsz) as Hnr. pose proof (npages_mono sz n ltac:(lia)) as Hmono.
  eapply wp_mono; [apply allocuvm_run; [done|exact Hs|lia|lia|]|].
  { intros k Hk'. apply eq_None_not_Some. rewrite Hu. lia. }
  intros r s' (T' & U' & (E' & l' & Hs' & Hp' & _ & Hd' & He' & Hk') & Hc).
  assert (keeps (upages U) (kram s) (kram s')) as Hku by (eapply keeps_mono; [|exact Hk']; sub).
  assert (keeps X m0 (kram s')) as Hkx by (eapply keeps_trans; [exact Hkp|eapply keeps_mono; [|exact Hk']; sub]).
  assert (D :: vals T' ++ upages U' ++ l' ≡ₚ L) as HpL by (rewrite <- Hp; by f_equiv).
  assert (forall k, 524288 <= k < 1048576 -> E' k = kern_pte kdata (4096 * k)) as HkE
    by (intros; rewrite He' by done; by apply Hk).
  assert (forall va, 0 <= va < 4096 * npages sz -> ubyte (kram s') U va = Some (m va)) as Hby'
    by (intros va Hva; rewrite <- Hby by done; eapply ubyte_keeps; [exact Hku|sub]).
  destruct Hc as [[-> Hzz]|(-> & -> & Hl)].
  - left. split; [done|]. exists l', T', E', U'. split; [done|lia|done| | | | |done|done].
    + intros x Hx. apply Hd', elem_of_union in Hx. apply elem_of_union.
      destruct Hx as [[Hx|Hx]%Hd%elem_of_union|Hx]; [by left|right..]; apply elem_of_slots in Hx;
        apply elem_of_slots; clear -Hx Hmono Hnr; Z.to_euclidean_division_equations; lia.
    + intros k. specialize (Hzz k). case_bool_decide as Hc.
      * destruct Hzz as (p & -> & _). split; [lia|eauto].
      * rewrite Hzz, Hu. lia.
    + intros k p f HU. specialize (Hzz k). case_bool_decide as Hc.
      * destruct Hzz as (q & E2 & _). rewrite E2 in HU. injection HU as _ <-. btest (k =? g); [lia|done].
      * rewrite Hzz in HU. by eapply Hf.
    + intros va Hva. specialize (Hzz (va / 4096)). case_bool_decide as Hc.
      * destruct Hzz as (p & HU & Hp0). unfold ubyte. rewrite HU, Hp0 by (by apply Z.mod_pos_bound).
        rewrite Hz; [done|]. clear -Hc. Z.to_euclidean_division_equations; lia.
      * unfold ubyte. rewrite Hzz. apply Hby'. clear -Hc Hva. Z.to_euclidean_division_equations; lia.
  - right. split_and!; [done|by exists T', E', U, l'|]. by eapply free_bound.
Qed.

Lemma built_free s D X m0 L :
  doomed s D X m0 L ->
  wp (freevm kend argp D) s (fun _ s' => exists l, heap s' X l /\ l ≡ₚ L /\ keeps X m0 (kram s')).
Proof.
  intros (T & E & U & l & Hs & Hp & Hk). eapply wp_mono; [by eapply freevm_run|].
  intros [] s' (l' & Hh & Hp' & Hk'). exists l'.
  split_and!; [done|by rewrite Hp'|by eapply keeps_trans].
Qed.

(** ** Reading and writing pages *)

Lemma frame_poke P m p o bs :
  p ∈ P -> 0 <= o -> o + Z.of_nat (length bs) <= PGSIZE -> frame P m (poke m (p + o) bs).
Proof.
  intros Hp Ho Hb x Hx. specialize (Hx p Hp). unfold poke, within in *. revert Hx. split_tests.
Qed.

(** Bytes stored in the frame of their page. *)
Lemma ubyte_poke s D T E U X l k p f o bs va :
  aspace s D T E U X l -> U !! k = Some (p, f) -> 0 <= o -> o + Z.of_nat (length bs) <= 4096 ->
  ubyte (poke (kram s) (p + o) bs) U va =
  if (4096 * k + o <=? va) && (va <? 4096 * k + o + Z.of_nat (length bs))
  then Some (nth (Z.to_nat (va - (4096 * k + o))) bs 0) else ubyte (kram s) U va.
Proof.
  intros Hs HU Ho Hb. unfold ubyte, poke. pose proof (Z.mod_pos_bound va 4096 ltac:(done)) as Hm.
  assert (va = 4096 * (va / 4096) + va mod 4096) as Hx by (apply Z.div_mod; done).
  destruct (U !! (va / 4096)) as [[q g]|] eqn:Eq.
  - destruct (decide (va / 4096 = k)) as [Ek|Hne].
    + rewrite Ek, HU in Eq. injection Eq as -> ->. rewrite Ek in Hx.
      replace (q + va mod 4096 - (q + o)) with (va - (4096 * k + o)) by lia. split_tests; done || lia.
    + set (test := (p + o <=? q + va mod 4096) && _). assert (test = false) as ->.
      { apply not_true_is_false. subst test. b2p. intros Hw. destruct Hne.
        eapply upages_inj; [by eapply user_nodup|exact Eq|].
        rewrite (page_disjoint kend q p (va mod 4096) (q + va mod 4096 - p)); [exact HU|..].
        - by eapply user_page. - by eapply user_page. - done. - unfold PGSIZE; lia. - lia. }
      btest (4096 * k + o <=? va); [|done]. btest (va <? 4096 * k + o + Z.of_nat (length bs)); [|done].
      destruct Hne. Z.to_euclidean_division_equations; lia.
  - btest (4096 * k + o <=? va); [|done]. btest (va <? 4096 * k + o + Z.of_nat (length bs)); [|done].
    exfalso. replace (va / 4096) with k in Eq by (Z.to_euclidean_division_equations; lia). congruence.
Qed.

(** How the page tables lead to the entry of a user page. *)
Lemma user_walk s D T E U X l n p f :
  aspace s D T E U X l -> U !! n = Some (p, f) ->
  exists t, T !! (n / 1024) = Some t /\ t + 4 * (n mod 1024) <> 0 /\
    walkpgdir argp D (4096 * n) false s = Ret (t + 4 * (n mod 1024)) s /\
    load32 (kram s) (t + 4 * (n mod 1024)) = V2P p + f.
Proof.
  intros Hs HU. pose proof Hs as [Hv Hus]. pose proof (us_dom _ _ Hus _ _ HU) as Hn.
  destruct (T !! (n / 1024)) as [t|] eqn:Et;
    [|by rewrite (user_entry _ _ _ _ _ _ _ _ _ _ _ _ Hs Hn Et) in HU].
  assert (4096 * n / 4096 = n) as Hdiv by (Z.to_euclidean_division_equations; lia).
  pose proof (table_nonzero _ _ _ _ _ _ _ _ _ _ _ _ _ Hs Et). pose proof (Z.mod_pos_bound n 1024 ltac:(done)).
  assert (0 <= n < 1048576) as Hn' by lia. exists t. split_and!; [done|lia| |].
  - erewrite walk_found; [|exact Hv|lia|by rewrite Hdiv]. by rewrite Hdiv.
  - by rewrite (vmem_read _ _ _ _ _ _ _ _ _ _ _ _ Hv Hn' Et), (us_entry _ _ Hus n Hn), HU.
Qed.

(** The frame of a page of the new space: how the code finds it, and that it can
    store there. *)
Record frame_of (s : kmem) (D g n : Z) (X : list Z) (p : Z) : Prop := mkframe {
  fr_ok : page_ok kend p;
  fr_uva : uva2ka argp D (4096 * n) s = Ret (if n =? g then 0 else p) s;
  fr_walk : exists a, a <> 0 /\ walkpgdir argp D (4096 * n) false s = Ret a s /\
    P2V (PTE_ADDR (load32 (kram s) a)) = p;
}.

Lemma built_page s D g sz m X l m0 L n :
  built s D g sz m X l m0 L -> 0 <= n < npages sz ->
  exists p, frame_of s D g n X p /\
    forall o bs, 0 <= o -> o + Z.of_nat (length bs) <= 4096 ->
      built (set_kram (poke (kram s) (p + o) bs) s) D g sz (poke m (4096 * n + o) bs) X l m0 L.
Proof.
  intros (T & E & U & Hb) Hn. pose proof Hb as [Hs Hsz Hk Hd Hu Hf Hby Hp Hkp].
  pose proof (npages_range sz Hsz) as Hnr. pose proof Hs as [Hv Hus].
  assert (0 <= n < 524288) as Hn5 by lia.
  destruct (U !! n) as [[p f]|] eqn:EU; [|by apply Hu in Hn as [? ?]; simplify_eq].
  pose proof (Hf _ _ _ EU) as ->. set (f := if n =? g then 3 else 7) in *. exists p.
  pose proof (user_page _ _ _ _ _ _ _ _ _ _ _ _ _ _ Hs EU) as Hpk. split.
  - split; [done| |].
    + erewrite uva2ka_run; [|exact Hs|lia|exact EU]. subst f. by destruct (n =? g).
    + destruct (user_walk _ _ _ _ _ _ _ _ _ _ Hs EU) as (t & _ & Ha & Hw & Hl).
      exists (t + 4 * (n mod 1024)). split_and!; [done|done|]. rewrite Hl, (P2V_page kend); [done|done|].
      subst f. destruct (n =? g); lia.
  - intros o bs Ho Hob. assert (p ∈ upages U) as Hin by (apply elem_of_upages; eauto).
    pose proof (frame_poke (upages U) (kram s) p o bs Hin Ho Hob) as Hfr.
    assert (aspace (set_kram (poke (kram s) (p + o) bs) s) D T E U X l) as Hs1.
    { split; [|done]. eapply vmem_touch; [exact Hv|exact Hfr|sub]. }
    exists T, E, U. split; [done|done|done|done|done|done| |done|].
    + intros va Hva. cbn [kram set_kram]. 
      change (kram (set_kram _ s)) with (poke (kram s) (p + o) bs).
      rewrite (ubyte_poke s D T E U X l n p f o bs va) by done. unfold poke. split_tests; try (by apply Hby). done.
    + eapply keeps_trans; [exact Hkp|by eapply vmem_keeps_app].
Qed.

Lemma upages_flags U n p f f' :
  U !! n = Some (p, f) -> upages (<[n := (p, f')]> U) ≡ₚ upages U.
Proof.
  intros H. rewrite <- insert_delete_eq, upages_insert by apply lookup_delete_eq.
  by rewrite (upages_delete U n p f H).
Qed.

Lemma clear_PTE_U a : a mod 4096 = 0 -> Z.land (a + 7) (Z.lnot PTE_U) = a + 3.
Proof.
  intros Ha. rewrite <- !lor_flags by (done || lia).
  rewrite Z.land_lor_distr_l. change (Z.land 7 (Z.lnot PTE_U)) with 3. f_equal.
  rewrite <- Z.ldiff_land. pose proof (land_frame a PTE_U Ha ltac:(done)) as H.
  apply Z.bits_inj'. intros n Hn. rewrite Z.ldiff_spec. apply (f_equal (fun z => Z.testbit z n)) in H.
  rewrite Z.land_spec, Z.bits_0 in H. destruct (Z.testbit a n), (Z.testbit PTE_U n); done.
Qed.

(** Other flags for a user page. *)
Lemma aspace_flags s D T E U X l n t p f f' :
  aspace s D T E U X l -> U !! n = Some (p, f) -> T !! (n / 1024) = Some t ->
  0 <= f' < 4096 -> f' mod 2 = 1 ->
  aspace (set_kram (store32 (kram s) (t + 4 * (n mod 1024)) (V2P p + f')) s) D T
    (upd E n (V2P p + f')) (<[n := (p, f')]> U) X l.
Proof.
  intros Hs HU Et Hf Ho. pose proof Hs as [Hv Hus]. pose proof (us_dom _ _ Hus _ _ HU) as Hn.
  pose proof (user_page _ _ _ _ _ _ _ _ _ _ _ _ _ _ Hs HU) as Hpk.
  destruct (page_phys kend p Hpk) as (Hv2 & _ & Hr2). split.
  - eapply vmem_perm; [|apply vmem_write; [exact Hv|lia|exact Et|]].
    + by rewrite (upages_flags _ _ _ _ f' HU).
    + unfold PHYSTOP in *. lia.
  - destruct Hus as [He Hd Hfl]. split.
    + intros k Hk. unfold upd. destruct (Z.eqb_spec k n) as [->|Hkn]; [by rewrite lookup_insert_eq|].
      rewrite lookup_insert_ne by done. by apply He.
    + intros k q [[<- _]|[_ H]]%lookup_insert_Some; eauto.
    + intros k q g [[<- [= <- <-]]|[_ H]]%lookup_insert_Some; eauto.
Qed.

(** [clearpteu] makes a page the guard page. *)
Lemma built_guard s D sz m X l m0 L n :
  built s D (-1) sz m X l m0 L -> 0 <= n < npages sz ->
  wp (clearpteu argp D (4096 * n)) s (fun _ s' => built s' D n sz m X l m0 L).
Proof.
  intros (T & E & U & [Hs Hsz Hk Hd Hu Hf Hby Hp Hkp]) Hn. pose proof (npages_range sz Hsz) as Hnr.
  destruct (U !! n) as [[p f]|] eqn:EU; [|by apply Hu in Hn as [? ?]; simplify_eq].
  pose proof (Hf _ _ _ EU) as ->. rewrite (proj2 (Z.eqb_neq n (-1))) in EU by lia.
  pose proof (user_page _ _ _ _ _ _ _ _ _ _ _ _ _ _ Hs EU) as Hpk.
  destruct (page_phys kend p Hpk) as (Hv2 & Hm & _).
  destruct (user_walk _ _ _ _ _ _ _ _ _ _ Hs EU) as (t & Et & Ha & Hw & Hl).
  unfold clearpteu. eapply wp_bind, wp_of; [exact Hw|]. destruct (Z.eqb_spec (t + 4 * (n mod 1024)) 0) as [?|_]; [lia|].
  apply wp_bind, wp_gets, wp_modify. rewrite Hl, clear_PTE_U by (by rewrite Hv2).
  set (s' := set_kram _ s). pose proof (upages_flags _ _ _ _ 3 EU) as Hperm.
  pose proof (aspace_flags _ _ _ _ _ _ _ _ _ _ _ 3 Hs EU Et ltac:(done) eq_refl) as Hs'. fold s' in Hs'.
  assert (keeps (upages U ++ X) (kram s) (kram s')) as Hkeep.
  { eapply (vmem_keeps kend f0 i dd); [apply Hs|]. apply frame_store; [|by apply Z.mod_pos_bound].
    apply elem_of_cons. right. apply elem_of_app. left. apply elem_of_vals. eauto. }
  exists T, (upd E n (V2P p + 3)), (<[n := (p, 3)]> U). split; [done|done| |done| | | | |].
  - intros k Hk'. unfold upd. destruct (Z.eqb_spec k n); [lia|auto].
  - intros k. rewrite lookup_insert_is_Some, Hu. lia.
  - intros k q f [[<- [= <- <-]]|[Hne H]]%lookup_insert_Some; [by rewrite Z.eqb_refl|].
    rewrite (Hf _ _ _ H). assert (0 <= k < npages sz) by (apply Hu; eauto).
    rewrite (proj2 (Z.eqb_neq k (-1))), (proj2 (Z.eqb_neq k n)); [done|congruence|lia].
  - intros va Hva. rewrite <- Hby by done. rewrite <- (ubyte_keeps _ _ _ U va Hkeep) by sub.
    unfold ubyte. destruct (decide (va / 4096 = n)) as [->|Hne]; [by rewrite lookup_insert_eq, EU|].
    by rewrite lookup_insert_ne.
  - rewrite <- Hp. by rewrite Hperm.
  - eapply keeps_trans; [exact Hkp|]. eapply keeps_mono; [|exact Hkeep]. sub.
Qed.

Lemma built_max s D g sz m X l m0 L : built s D g sz m X l m0 L -> 4096 * npages sz <= KERNBASE.
Proof. intros (? & ? & ? & [_ Hsz _ _ _ _ _ _ _]). pose proof (npages_range sz Hsz). unfold KERNBASE. lia. Qed.

Lemma built_ext s D g sz m m' X l m0 L :
  (forall va, 0 <= va < 4096 * npages sz -> m va = m' va) ->
  built s D g sz m X l m0 L -> built s D g sz m' X l m0 L.
Proof.
  intros Hm (T & E & U & [Hs Hsz Hk Hd Hu Hf Hby Hp Hkp]). exists T, E, U.
  split; [done|done|done|done|done|done| |done|done]. intros va Hva. by rewrite Hby, Hm.
Qed.

(** Only the number of pages counts. *)
Lemma built_size s D g sz sz' m X l m0 L :
  npages sz' = npages sz -> 0 <= sz' < KERNBASE ->
  built s D g sz m X l m0 L -> built s D g sz' m X l m0 L.
Proof.
  intros Hn Hr (T & E & U & [Hs Hsz Hk Hd Hu Hf Hby Hp Hkp]). exists T, E, U. split; rewrite ?Hn; done.
Qed.

Lemma poke_split m va bs n x :
  (n <= length bs)%nat ->
  poke (poke m va (take n bs)) (va + Z.of_nat n) (drop n bs) x = poke m va bs x.
Proof.
  intros Hn. unfold poke. rewrite length_take, length_drop, Nat.min_l by done.
  split_tests; try done.
  - rewrite nth_skipn. f_equal. lia.
  - rewrite <- (take_drop n bs) at 2. rewrite app_nth1; [done|]. rewrite length_take. lia.
Qed.

Lemma poke_nil m va x : poke m va [] x = m x.
Proof. unfold poke. cbn [length]. split_tests; done. Qed.

(** [copyout] into the new space fails exactly at the guard page. *)
Lemma built_copyout_loop D g sz X l m0 L fuel : forall s m va bs,
  let len := Z.of_nat (length bs) in
  built s D g sz m X l m0 L -> 0 <= va -> va + len <= 4096 * npages sz ->
  (0 < len -> (va + len - 1) / 4096 - va / 4096 < Z.of_nat fuel) ->
  wp (copyout_bytes_loop argp fuel D va bs) s (fun r s' =>
    r = 0 /\ built s' D g sz (poke m va bs) X l m0 L /\
      (0 < len -> ~ va / 4096 <= g <= (va + len - 1) / 4096) \/
    r = -1 /\ doomed s' D X m0 L /\ va / 4096 <= g <= (va + len - 1) / 4096).
Proof.
  induction fuel as [|fuel IH]; intros s m va bs len Hb Hva Hend Hf.
  all: cbn [copyout_bytes_loop]; fold len; btest (0 <? len);
    [|apply wp_ret; left; split_and!; [done|eapply built_ext; [|exact Hb]|lia];
      intros x _; unfold poke; fold len; split_tests; done].
  { cbn in Hf. Z.to_euclidean_division_equations; lia. }
  pose proof (built_max _ _ _ _ _ _ _ _ _ Hb) as Hmax. unfold KERNBASE in Hmax. set (k := va / 4096) in *. rewrite PGROUNDDOWN_div. fold k.
  assert (va = 4096 * k + va mod 4096) as Hvk by (apply Z.div_mod; done).
  pose proof (Z.mod_pos_bound va 4096 ltac:(done)) as Ho. set (o := va mod 4096) in *.
  assert (k <= (va + len - 1) / 4096) as Hk by (apply Z.div_le_mono; lia).
  destruct (built_page _ _ _ _ _ _ _ _ _ k Hb ltac:(lia)) as (p & [Hp Hu _] & Hpoke).
  eapply wp_bind, wp_of; [exact Hu|]. pose proof (page_ok_bounds _ _ Hp) as [_ Hpb].
  unfold KERNBASE, PHYSTOP in Hpb. destruct (Z.eqb_spec k g) as [->|Hg].
  { apply wp_ret. right. split_and!; [done|by eapply built_doomed|done|done]. }
  destruct (Z.eqb_spec p 0) as [?|_]; [lia|]. cbv zeta. replace (va - 4096 * k) with o by lia.
  assert (u32 (PGSIZE - o) = 4096 - o) as -> by (apply u32_small; unfold PGSIZE; lia).
  rewrite (u32_small (p + o)) by lia. set (n := if len <? 4096 - o then len else 4096 - o).
  assert (0 < n <= len /\ o + n <= 4096 /\ (n < len -> o + n = 4096)) as (Hn & Hon & Hnl)
    by (subst n; btest (len <? 4096 - o); lia).
  assert (length (take (Z.to_nat n) bs) = Z.to_nat n) as Hlt by (rewrite length_take; lia).
  apply wp_bind, wp_modify. specialize (Hpoke o (take (Z.to_nat n) bs) ltac:(lia) ltac:(lia)).
  rewrite u32_small by (unfold PGSIZE; lia).
  replace (4096 * k + PGSIZE) with (4096 * (k + 1)) by (unfold PGSIZE; lia).
  replace (4096 * k + o) with va in Hpoke by lia.
  assert (4096 * (k + 1) / 4096 = k + 1) as Hdiv by (Z.to_euclidean_division_equations; lia).
  eapply wp_mono; [apply (IH _ _ (4096 * (k + 1)) (drop (Z.to_nat n) bs) Hpoke); [lia|..]|];
    rewrite ?length_drop, ?Nat2Z.inj_sub, ?Z2Nat.id by lia; fold len.
  - clear -Hn Hon Hnl Hend Hvk Ho. lia.
  - intros Hl. specialize (Hf ltac:(lia)). rewrite Hdiv.
    replace (4096 * (k + 1) + (len - n) - 1) with (va + len - 1) by lia. lia.
  - rewrite Hdiv. intros r s2 [(-> & Hb2 & Hg2)|(-> & Hd2 & Hg2)]; [left|right].
    + split_and!; [done| |].
      * eapply built_ext; [|exact Hb2]. intros x _. rewrite <- (poke_split m va bs (Z.to_nat n) x) by lia.
        destruct (Z.lt_ge_cases n len) as [Hlt'|Hge].
        -- replace (va + Z.of_nat (Z.to_nat n)) with (4096 * (k + 1)) by lia. done.
        -- rewrite (drop_ge bs) by lia. by rewrite !poke_nil.
      * intros _ Hc. destruct (Z.lt_ge_cases n len) as [Hlt'|Hge].
        -- apply Hg2; [lia|]. replace (4096 * (k + 1) + (len - n) - 1) with (va + len - 1) by lia. lia.
        -- clear -Hc Hg Hge Hon Hn Hvk Ho. Z.to_euclidean_division_equations; lia.
    + split_and!; [done|done|lia|].
      destruct (Z.lt_ge_cases n len) as [Hlt'|Hge].
      * replace (va + len - 1) with (4096 * (k + 1) + (len - n) - 1) by lia. lia.
      * clear -Hg2 Hge Hn. Z.to_euclidean_division_equations; lia.
Qed.

Lemma built_copyout s D g sz m X l m0 L va bs :
  let len := Z.of_nat (length bs) in
  built s D g sz m X l m0 L -> 0 <= va -> va + len <= 4096 * npages sz ->
  wp (copyout_bytes argp D va bs) s (fun r s' =>
    r = 0 /\ built s' D g sz (poke m va bs) X l m0 L /\
      (0 < len -> ~ va / 4096 <= g <= (va + len - 1) / 4096) \/
    r = -1 /\ doomed s' D X m0 L /\ va / 4096 <= g <= (va + len - 1) / 4096).
Proof.
  intros len Hb Hva Hend. apply built_copyout_loop; [done..|]. fold len. intros Hl. unfold PGSIZE.
  assert (0 <= len / 4096) by (apply Z.div_pos; lia). rewrite Z2Nat.id by lia.
  Z.to_euclidean_division_equations; lia.
Qed.

(** [copyout] to the addresses of the devices is refused. *)
Lemma built_copyout_dev s D g sz m X l m0 L va bs :
  built s D g sz m X l m0 L -> DEVSPACE <= va < 4294967296 -> bs <> [] ->
  copyout_bytes argp D va bs s = Ret (-1) s.
Proof.
  intros (T & E & U & [Hs _ Hk _ _ _ _ _ _]) Hva Hbs. unfold DEVSPACE in Hva. pose proof Hs as [Hv _].
  unfold copyout_bytes. set (len := Z.of_nat (length bs)).
  assert (0 < len) as Hlen by (subst len; destruct bs; cbn; [done|lia]).
  assert (0 <= len / PGSIZE) by (apply Z.div_pos; unfold PGSIZE; lia).
  destruct (Z.to_nat (len / PGSIZE + 2)) as [|fuel] eqn:Ef; [lia|]. cbn [copyout_bytes_loop]. fold len.
  rewrite (proj2 (Z.ltb_lt 0 len) Hlen), PGROUNDDOWN_div. set (n := va / 4096).
  assert (1040384 <= n < 1048576) as Hn by (subst n; Z.to_euclidean_division_equations; lia).
  assert (E n = 4096 * n + 3) as HE.
  { rewrite Hk by lia. unfold kern_pte, KERNBASE, PHYSTOP, DEVSPACE. rewrite PGROUNDDOWN_div.
    assert (4096 * n / 4096 = n) as -> by (clear; Z.to_euclidean_division_equations; lia).
    split_tests; lia. }
  assert (0 <= n < 1048576) as Hn' by lia.
  pose proof (tb_entry _ _ _ _ (vm_tables _ _ _ _ _ _ _ _ _ _ Hv) n Hn') as He. unfold VmTables.entry in He.
  destruct (T !! (n / 1024)) as [t|] eqn:Et; [|lia].
  assert (4096 * n / 4096 = n) as Hdiv by (clear; Z.to_euclidean_division_equations; lia).
  unfold bind at 1, uva2ka. erewrite bind_ret; [|eapply walk_found; [exact Hv|lia|by rewrite Hdiv]].
  rewrite Hdiv. pose proof (table_nonzero _ _ _ _ _ _ _ _ _ _ _ _ _ Hs Et).
  pose proof (Z.mod_pos_bound n 1024 ltac:(done)).
  destruct (Z.eqb_spec (t + 4 * (n mod 1024)) 0) as [?|_]; [lia|].
  unfold loadw, bind at 1, gets. rewrite He, HE.
  assert (4096 * n mod 4096 = 0) as Hm by (clear; Z.to_euclidean_division_equations; lia).
  rewrite !land_flags by (done || exact Hm). done.
Qed.

End Built.
