(* ===== verification/ExecLoad.v ===== *)
(** * What [exec] makes of a file

    The memory image that a program file and an argument list stand for, as a
    function, what [exec] needs of the file system, as a record of laws, and the
    loader's loops against both. *)
From S2P Require Import Prelude Sleeplock Log Tx Fs Proc Syscall Exec.
From S2P Require Import Str Spinlock Kalloc Vm VmTables VmUser VmKern VmCopy VmClient VmSwitch ExecSpace.

(** ** The image *)

Definition slice (c : list Z) (off n : Z) : list Z := take (Z.to_nat n) (drop (Z.to_nat off) c).

(** What [readi] returns for a file with contents [c]. *)
Definition read_spec (c : list Z) (off n : Z) : Z * list Z :=
  let len := Z.of_nat (length c) in
  if (off <=? len) && (off + n <? 4294967296) then (Z.min n (len - off), slice c off n)
  else (-1, []).

(** One program header: the size and the bytes of the memory after it. *)
Definition segment_spec (c : list Z) (ph : proghdr) (st : Z * mem) : option (Z * mem) :=
  let '(sz, m) := st in
  let top := vaddr ph + memsz ph in
  if negb (p_type ph =? ELF_PROG_LOAD) then Some st
  else if memsz ph <? filesz ph then None
  else if KERNBASE <=? top then None
  else if Z.max sz top =? 0 then None
  else if negb (vaddr ph mod PGSIZE =? 0) then None
  else if (0 <? filesz ph) && (Z.of_nat (length c) <? p_off ph + filesz ph) then None
  else Some (Z.max sz top, poke m (vaddr ph) (slice c (p_off ph) (filesz ph))).

Fixpoint segments_spec (c : list Z) (n : nat) (off : Z) (st : Z * mem) : option (Z * mem) :=
  match n with
  | O => Some st
  | Datatypes.S k =>
      if Z.of_nat (length c) <? off + 32 then None
      else match segment_spec c (proghdr_of (slice c off 32)) st with
           | Some st => segments_spec c k (off + 32) st
           | None => None
           end
  end.

(** The strings on the stack, which must stay above [base]. *)
Fixpoint args_spec (base : Z) (argv : list (list Z)) (sp : Z) (m : mem) : option (Z * mem * list Z) :=
  match argv with
  | [] => Some (sp, m, [])
  | a :: argv =>
      let sp := (sp - (Z.of_nat (length a) + 1)) / 4 * 4 in
      if sp <? base then None
      else match args_spec base argv sp (poke m sp (a ++ [0])) with
           | Some (sp', m', ptrs) => Some (sp', m', sp :: ptrs)
           | None => None
           end
  end.

Record image := mkimage { im_sz : Z; im_mem : mem; im_entry : Z; im_esp : Z }.

(** The guard page and the stack on top of [sz] bytes. *)
Definition stack_image (entry sz : Z) (m : mem) (argv : list (list Z)) : option image :=
  let argc := Z.of_nat (length argv) in
  let top := 4096 * npages sz + 2 * PGSIZE in
  if (KERNBASE <=? top) || (MAXARG <? argc) then None
  else match args_spec (top - PGSIZE) argv top m with
       | None => None
       | Some (sp, m, ptrs) =>
           let esp := sp - (3 + argc + 1) * 4 in
           if esp <? top - PGSIZE then None
           else Some (mkimage top
             (poke m esp (words ([4294967295; argc; sp - (argc + 1) * 4] ++ ptrs ++ [0]))) entry esp)
       end.

Definition exec_image (c : list Z) (argv : list (list Z)) : option image :=
  let e := elfhdr_of (slice c 0 52) in
  if Z.of_nat (length c) <? 52 then None
  else if negb (magic e =? ELF_MAGIC) then None
  else match segments_spec c (Z.to_nat (phnum e)) (phoff e) (0, mem0) with
       | None => None
       | Some (sz, m) => stack_image (Exec.entry e) sz m argv
       end.

Lemma length_words w : Z.of_nat (length (words w)) = 4 * Z.of_nat (length w).
Proof.
  induction w as [|x w IH]; [done|]. change (words (x :: w)) with (le32 x ++ words w). rewrite length_app.
  change (length (le32 x)) with 4%nat. cbn [length]. lia.
Qed.

Lemma stack_image_size eip sz m argv im :
  stack_image eip sz m argv = Some im -> 0 <= sz -> sz <= im_sz im.
Proof.
  intros H Hsz. unfold stack_image in H. destruct (_ || _); [done|].
  destruct (args_spec _ _ _ _) as [[[sp m'] ptrs]|]; [|done]. destruct (_ <? _); [done|].
  simplify_eq. cbn [im_sz]. unfold PGSIZE, npages. Z.to_euclidean_division_equations; lia.
Qed.

(** ** The file system's part *)

Section Load.
Context {S : Type} {TO : TxOps S}.
Context (kend argp kdata : Z).
Context (dev_read : Z -> option (Z -> M (fsst S) (Z * list Z))).

(** What the file system answers to a process that looks for [path]: a file with
    contents [c], or nothing. *)
Record files (me : Z) (cw : nat) (path : list Z) (found : option (list Z)) := mkfiles {
  fl_closed : fsst S -> Prop;          (* between operations *)
  fl_open : fsst S -> Prop;            (* inside one *)
  fl_named : nat -> fsst S -> Prop;    (* inside, with a reference *)
  fl_locked : nat -> fsst S -> Prop;   (* inside, with the lock too *)
  fl_begin f : fl_closed f -> wp (lift tx_begin) f (fun _ f' => fl_open f');
  fl_end f : fl_open f -> wp (lift tx_end) f (fun _ f' => fl_closed f');
  fl_namei f : fl_open f -> wp (namei me dev_read cw path) f (fun o f' =>
    match o, found with
    | None, None => fl_open f'
    | Some ip, Some _ => fl_named ip f'
    | _, _ => False
    end);
  fl_ilock ip f : fl_named ip f -> wp (ilock me ip) f (fun _ f' => fl_locked ip f');
  fl_readi ip c f off n : found = Some c -> fl_locked ip f ->
    0 <= off < 4294967296 -> 0 <= n < 2147483648 ->
    wp (readi dev_read ip off n) f (fun rb f' => rb = read_spec c off n /\ fl_locked ip f');
  fl_put ip f : fl_locked ip f -> wp (iunlockput me ip) f (fun _ f' => fl_open f');
  fl_size c : found = Some c -> Z.of_nat (length c) < 2147483648;
  fl_bytes c : found = Some c -> Forall (fun b => 0 <= b < 256) c;
}.

Lemma wp_in_mem {A} (m : M kmem A) (f : fsst S) k kp hs p (Q : A -> est S -> Prop) :
  wp m k (fun a k' => Q a (mkest f (mkkvm k' kp hs) p)) -> wp (in_mem m) (mkest f (mkkvm k kp hs) p) Q.
Proof. intros H. do 2 apply wp_zoom. exact H. Qed.

Lemma wp_in_fs {A} (m : M (fsst S) A) (f : fsst S) v p (Q : A -> est S -> Prop) :
  wp m f (fun a f' => Q a (mkest f' v p)) -> wp (in_fs m) (mkest f v p) Q.
Proof. intros H. apply wp_zoom. exact H. Qed.

Context (f0 : Z) (i : nat) (dd : Z).
Context (Hke : KERNBASE < kend).
Context (me : Z) (cw : nat) (path : list Z) (c : list Z) (FS : files me cw path (Some c)).

Abbreviation built := (built kend kdata f0 i dd).
Abbreviation doomed := (doomed kend f0 i dd).
Abbreviation locked := (fl_locked me cw path (Some c) FS).

Context (kp : Z) (hs : list hart) (p : proc) (X : list Z) (m0 : mem) (L : list Z).

Lemma length_slice off n :
  0 <= off -> 0 <= n -> off + n <= Z.of_nat (length c) -> length (slice c off n) = Z.to_nat n.
Proof. intros. unfold slice. rewrite length_take, length_drop. lia. Qed.

Lemma slice_le off n : 0 <= n -> Z.of_nat (length (slice c off n)) <= n.
Proof. intros. unfold slice. rewrite length_take. lia. Qed.

(** A read that returns as many bytes as it was asked for, and one that does not. *)
Lemma read_spec_cases off n :
  0 <= off < 4294967296 -> 0 < n <= 4096 ->
  if off + n <=? Z.of_nat (length c) then read_spec c off n = (n, slice c off n)
  else u32 (fst (read_spec c off n)) <> n /\ Z.of_nat (length (snd (read_spec c off n))) <= n.
Proof.
  intros Ho Hn. pose proof (fl_size _ _ _ _ FS c eq_refl) as Hlen. unfold read_spec.
  destruct (Z.leb_spec (off + n) (Z.of_nat (length c))).
  - rewrite (proj2 (Z.leb_le _ _)), (proj2 (Z.ltb_lt _ _)) by lia. cbn. f_equal. lia.
  - destruct (_ && _) eqn:Et; cbn [fst snd].
    + b2p. rewrite u32_small by lia. split; [lia|]. apply slice_le. lia.
    + change (u32 (-1)) with 4294967295. cbn. lia.
Qed.

Lemma slice_split off n k :
  0 <= off -> 0 <= k <= n -> off + n <= Z.of_nat (length c) ->
  take (Z.to_nat k) (slice c off n) = slice c off k /\
  drop (Z.to_nat k) (slice c off n) = slice c (off + k) (n - k).
Proof.
  intros. unfold slice. rewrite take_take, skipn_firstn_comm, drop_drop. split; f_equal; [lia|lia|].
  f_equal. lia.
Qed.

(** ** loaduvm *)

Lemma poke_slices m a o n n1 x : 0 <= o -> 0 <= n1 <= n -> o + n <= Z.of_nat (length c) ->
  poke (poke m a (slice c o n1)) (a + n1) (slice c (o + n1) (n - n1)) x = poke m a (slice c o n) x.
Proof.
  intros Ho Hn Hc. destruct (slice_split o n n1) as [Et Ed]; [lia|lia|lia|].
  rewrite <- (poke_split m a (slice c o n) (Z.to_nat n1)) by (rewrite length_slice; lia).
  by rewrite Et, Ed, Z2Nat.id by lia.
Qed.

Lemma loaduvm_loop_run D sz ip va off fsz fuel : forall f k m l j,
  va mod 4096 = 0 -> 0 <= va -> 0 <= off < 4294967296 -> va + fsz <= 4096 * npages sz ->
  locked ip f -> built k D (-1) sz m X l m0 L -> 0 <= j ->
  (0 < j -> 4096 * j < fsz -> off + 4096 * j <= Z.of_nat (length c)) -> fsz - 4096 * j <= 4096 * Z.of_nat fuel ->
  let n := Z.max 0 (fsz - 4096 * j) in
  wp (loaduvm_loop argp dev_read fuel D va ip off fsz (4096 * j)) (mkest f (mkkvm k kp hs) p)
    (fun r s' => exists f' k', s' = mkest f' (mkkvm k' kp hs) p /\ locked ip f' /\
      (r = 0 /\ (0 < n -> off + fsz <= Z.of_nat (length c)) /\
         built k' D (-1) sz (poke m (va + 4096 * j) (slice c (off + 4096 * j) n)) X l m0 L \/
       r = -1 /\ 0 < n /\ Z.of_nat (length c) < off + fsz /\ doomed k' D X m0 L)).
Proof.
  induction fuel as [|fuel IH]; intros f k m l j Hal Hva Hoff Hend Hlk Hb Hj Hc Hf n.
  all: cbn [loaduvm_loop]; btest (4096 * j <? fsz);
    [|apply wp_ret; exists f, k; split_and!; [done|done|]; left; split_and!; [done|lia|];
      eapply built_ext; [|exact Hb]; intros x _; unfold slice; replace n with 0 by lia; symmetry; apply poke_nil].
  { lia. }
  pose proof Hb as Hmax%built_max. unfold KERNBASE in Hmax. pose proof (fl_size _ _ _ _ FS c eq_refl) as Hlen.
  set (q := va / 4096 + j). assert (va + 4096 * j = 4096 * q) as Eq by (subst q; Z.to_euclidean_division_equations; lia).
  rewrite (u32_small (va + 4096 * j)), Eq by lia.
  destruct (built_page kend argp kdata f0 i dd _ _ _ _ _ _ _ _ _ q Hb) as (pg & [_ _ (a & Ha & Hw & Hl)] & Hpoke);
    [subst q; Z.to_euclidean_division_equations; lia|].
  eapply wp_bind, wp_in_mem, wp_of; [exact Hw|]. destruct (Z.eqb_spec a 0) as [?|_]; [lia|].
  apply wp_bind, wp_in_mem, wp_gets. rewrite Hl. cbv zeta. rewrite (u32_small (fsz - 4096 * j)) by lia.
  rewrite (u32_small (off + 4096 * j)) by lia. rewrite (u32_small (4096 * j + PGSIZE)) by (unfold PGSIZE; lia).
  set (n1 := if fsz - 4096 * j <? PGSIZE then fsz - 4096 * j else PGSIZE). set (o := off + 4096 * j).
  assert (0 < n1 <= 4096 /\ n1 <= n /\ (n1 < n -> n1 = 4096)) as (Hn1 & Hn1n & Hn1e)
    by (subst n1 n; unfold PGSIZE; btest (fsz - 4096 * j <? 4096); lia).
  apply wp_bind. unfold read_to. apply wp_bind, wp_in_fs.
  eapply wp_mono; [apply (fl_readi _ _ _ _ FS ip c f o n1 eq_refl Hlk); lia|].
  intros rb f1 [-> Hlk1]. pose proof (read_spec_cases o n1 ltac:(lia) Hn1) as Hr.
  destruct (read_spec c o n1) as [r bs] eqn:Ers. cbn [fst snd] in Hr.
  apply wp_bind, wp_in_mem, wp_modify, wp_ret.
  destruct (Z.leb_spec (o + n1) (Z.of_nat (length c))) as [Hle|Hgt].
  - injection Hr as -> ->. rewrite u32_small, Z.eqb_refl by lia. cbn [negb].
    replace (4096 * j + PGSIZE) with (4096 * (j + 1)) by (unfold PGSIZE; lia).
    specialize (Hpoke 0 (slice c o n1) ltac:(lia)). rewrite length_slice, !Z.add_0_r in Hpoke by lia.
    specialize (Hpoke ltac:(lia)). eapply wp_mono; [eapply IH; [done|done|done|done|exact Hlk1|exact Hpoke|lia| |lia]|].
    { lia. }
    intros r s' (f' & k' & -> & Hlk' & Hres). exists f', k'. split_and!; [done|done|].
    destruct Hres as [(-> & Hle' & Hb')|(-> & Hn' & Hgt' & Hd')]; [left|right; split_and!; [done|lia|lia|done]].
    assert (off + fsz <= Z.of_nat (length c)) as Hall by lia. split_and!; [done|done|].
    eapply built_ext; [|exact Hb']. intros x _. rewrite <- (poke_slices m (4096 * q) o n n1) by lia.
    destruct (Z.lt_ge_cases n1 n) as [Hlt|Hge].
    + replace (4096 * q + n1) with (va + 4096 * (j + 1)) by lia.
      replace (off + 4096 * (j + 1)) with (o + n1) by lia. by replace (Z.max 0 (fsz - 4096 * (j + 1))) with (n - n1) by lia.
    + replace (Z.max 0 (fsz - 4096 * (j + 1))) with 0 by lia. replace (n - n1) with 0 by lia.
      change (slice c ?a 0) with (@nil Z). by rewrite !poke_nil.
  - destruct Hr as [Hr1 Hr2]. rewrite (proj2 (Z.eqb_neq _ _) Hr1). cbn [negb]. apply wp_ret.
    exists f1, (set_kram (poke (kram k) pg bs) k). split_and!; [done|done|]. right.
    split_and!; [done|lia|lia|]. specialize (Hpoke 0 bs ltac:(lia) ltac:(lia)). rewrite Z.add_0_r in Hpoke.
    by eapply built_doomed.
Qed.

Lemma loaduvm_run D sz ip va off fsz f k m l :
  va mod 4096 = 0 -> 0 <= va -> 0 <= off < 4294967296 -> 0 <= fsz -> va + fsz <= 4096 * npages sz ->
  locked ip f -> built k D (-1) sz m X l m0 L ->
  wp (loaduvm argp dev_read D va ip off fsz) (mkest f (mkkvm k kp hs) p)
    (fun r s' => exists f' k', s' = mkest f' (mkkvm k' kp hs) p /\ locked ip f' /\
      (r = 0 /\ (0 < fsz -> off + fsz <= Z.of_nat (length c)) /\
         built k' D (-1) sz (poke m va (slice c off fsz)) X l m0 L \/
       r = -1 /\ 0 < fsz /\ Z.of_nat (length c) < off + fsz /\ doomed k' D X m0 L)).
Proof.
  intros Hal Hva Hoff Hf Hend Hlk Hb. unfold loaduvm. change PGSIZE with 4096. rewrite Hal. cbn [Z.eqb negb].
  pose proof (loaduvm_loop_run D sz ip va off fsz (Z.to_nat (fsz / 4096 + 1)) f k m l 0 Hal Hva Hoff Hend Hlk Hb
    ltac:(lia) ltac:(lia)) as H.
  rewrite !Z.mul_0_r, !Z.add_0_r, Z.sub_0_r, Z.max_r in H by lia. apply H.
  Z.to_euclidean_division_equations; lia.
Qed.

(** ** The program headers *)

(** The free pages that a memory of [sz] bytes can take, the kernel's tables included. *)
Definition room (sz : Z) : Z := 67 + npages sz + npages sz / 1024.

Lemma room_mono a b : a <= b -> room a <= room b.
Proof. intros H%npages_mono. unfold room. Z.to_euclidean_division_equations; lia. Qed.

Lemma segment_mono ph sz m sz' m' : segment_spec c ph (sz, m) = Some (sz', m') -> sz <= sz'.
Proof. unfold segment_spec. intros H. repeat case_match; simplify_eq; lia. Qed.

Lemma segments_mono n : forall off sz m sz' m',
  segments_spec c n off (sz, m) = Some (sz', m') -> sz <= sz'.
Proof.
  induction n as [|n IH]; intros off sz m sz' m' H; cbn [segments_spec] in H; [by simplify_eq|].
  destruct (_ <? _); [done|]. destruct (segment_spec _ _ _) as [[sz1 m1]|] eqn:E; [|done].
  apply segment_mono in E. apply IH in H. lia.
Qed.

(** The size that a segment asks for. *)
Lemma alloc_segment D k sz m l n :
  built k D (-1) sz m X l m0 L -> (forall va, 4096 * npages sz <= va -> m va = 0) -> 0 <= n ->
  wp (allocuvm kend argp D sz n) k (fun r k' =>
    r = Z.max sz n /\ n < KERNBASE /\ (exists l', built k' D (-1) (Z.max sz n) m X l' m0 L) \/
    r = 0 /\ doomed k' D X m0 L /\ (KERNBASE <= n \/ Z.of_nat (length L) <= room n)).
Proof.
  intros Hb Hz Hn. destruct (Z.le_gt_cases KERNBASE n) as [Hk|Hk].
  { unfold allocuvm. btest (KERNBASE <=? n); [|lia]. apply wp_ret. right. split_and!; [done|by eapply built_doomed|by left]. }
  destruct (Z.lt_ge_cases n sz) as [Hs|Hs].
  { unfold allocuvm. btest (KERNBASE <=? n); [lia|]. btest (n <? sz); [|lia]. apply wp_ret. left.
    rewrite Z.max_l by lia. split_and!; [done|lia|by exists l]. }
  rewrite Z.max_r by lia. pose proof Hb as (? & ? & ? & [_ Hsz _ _ _ _ _ _ _]).
  pose proof (npages_range sz Hsz).
  eapply wp_mono; [eapply built_grow; [done|exact Hb|lia|lia|done]|].
  intros r k' [[-> H']|(-> & Hd & Hl)]; [left|right]; split_and!; [done|done|done|done|done|by right].
Qed.

Lemma get32_range bs o : Forall (fun b => 0 <= b < 256) bs -> 0 <= get32 bs o < 4294967296.
Proof.
  intros H. assert (forall j, 0 <= nth j bs 0 < 256) as Hb.
  { intros j. destruct (nth_in_or_default j bs 0) as [Hin| ->]; [|lia].
    rewrite Forall_forall in H. by apply H, list_elem_of_In. }
  unfold get32, de32. pose proof (Hb o). pose proof (Hb (o + 1)%nat).
  pose proof (Hb (o + 2)%nat). pose proof (Hb (o + 3)%nat). lia.
Qed.

Lemma slice_bytes off n : Forall (fun b => 0 <= b < 256) (slice c off n).
Proof. unfold slice. apply Forall_take, Forall_drop, (fl_bytes _ _ _ _ FS c eq_refl). Qed.

Definition zero_from (m : mem) (sz : Z) : Prop := forall va, 4096 * npages sz <= va -> m va = 0.

Lemma zero_from_poke m sz sz' va bs :
  zero_from m sz -> sz <= sz' -> va + Z.of_nat (length bs) <= sz' -> zero_from (poke m va bs) sz'.
Proof.
  intros Hz Hs Hv x Hx. pose proof (npages_mono _ _ Hs). assert (sz' <= 4096 * npages sz') by
    (unfold npages; Z.to_euclidean_division_equations; lia).
  unfold poke. split_tests. apply Hz. lia.
Qed.

(** What the loop leaves, for the specification's answer [o']. *)
Definition loaded (D : Z) (ip : nat) (o' : option (Z * mem)) (o : option Z) (s' : est S) : Prop :=
  exists f' k', s' = mkest f' (mkkvm k' kp hs) p /\ locked ip f' /\
    match o with
    | Some sz' => exists m' l', o' = Some (sz', m') /\ built k' D (-1) sz' m' X l' m0 L /\ zero_from m' sz'
    | None => doomed k' D X m0 L /\
        match o' with Some (sz', _) => Z.of_nat (length L) <= room sz' | None => True end
    end.

Definition header_ok (ph : proghdr) : Prop :=
  0 <= vaddr ph < 4294967296 /\ 0 <= memsz ph < 4294967296 /\ 0 <= filesz ph < 4294967296 /\
  0 <= p_off ph < 4294967296.

Lemma wrap_add a b : 0 <= a < 4294967296 -> 0 <= b < 4294967296 ->
  u32 (a + b) = a + b /\ a + b < 4294967296 \/ u32 (a + b) < a /\ 4294967296 <= a + b.
Proof. intros. unfold u32. Z.to_euclidean_division_equations; lia. Qed.

Lemma load_segment_run D ip sz m f k l ph :
  locked ip f -> built k D (-1) sz m X l m0 L -> zero_from m sz -> header_ok ph ->
  p_type ph = ELF_PROG_LOAD ->
  wp (load_segment kend argp dev_read D ip ph sz) (mkest f (mkkvm k kp hs) p)
    (loaded D ip (segment_spec c ph (sz, m))).
Proof.
  intros Hlk Hb Hz (Hv & Hm & Hf & Ho) Hty. unfold load_segment, segment_spec. rewrite Hty. cbn [Z.eqb Pos.eqb ELF_PROG_LOAD negb].
  pose proof Hb as (? & ? & ? & [_ Hsz _ _ _ _ _ _ _]).
  set (top := vaddr ph + memsz ph).
  assert (forall o', doomed k D X m0 L -> match o' with Some (sz', _) => Z.of_nat (length L) <= room sz' | None => True end ->
            wp (ret None) (mkest f (mkkvm k kp hs) p) (loaded D ip o')) as Hbad
    by (intros o' Hd Hr; apply wp_ret; exists f, k; split_and!; done).
  pose proof (built_doomed _ _ _ _ _ _ _ _ _ _ _ _ _ _ Hb) as Hd.
  btest (memsz ph <? filesz ph); [by apply Hbad|].
  destruct (wrap_add _ _ Hv Hm) as [[Eu Ht]|[Eu Ht]]; fold top in Eu, Ht.
  2: { rewrite (proj2 (Z.ltb_lt _ _) Eu), (proj2 (Z.leb_le KERNBASE top)) by (unfold KERNBASE; lia). by apply Hbad. }
  rewrite Eu, (proj2 (Z.ltb_ge top (vaddr ph))) by lia. eapply wp_bind, wp_in_mem, wp_mono; [apply (alloc_segment D k sz m l top Hb Hz); lia|].
  intros r k1 [(-> & Hlt & l1 & Hb1)|(-> & Hd1 & Hr1)].
  2: { apply wp_ret. exists f, k1. split_and!; [done|done|done|].
       destruct (Z.leb_spec KERNBASE top) as [?|Hk]; [done|]. destruct Hr1 as [?|Hr1]; [lia|].
       pose proof (room_mono top (Z.max sz top) ltac:(lia)). repeat case_match; simplify_eq; done || lia. }
  destruct (Z.leb_spec KERNBASE top) as [?|_]; [lia|].
  assert (wp (ret None) (mkest f (mkkvm k1 kp hs) p) (loaded D ip None)) as Hbad1
    by (apply wp_ret; exists f, k1; split_and!; [done|done|by eapply built_doomed|done]).
  destruct (Z.max sz top =? 0); [done|]. destruct (Z.eqb_spec (vaddr ph mod PGSIZE) 0) as [Hal|_]; [|done].
  cbn [negb]. assert (top <= 4096 * npages (Z.max sz top)) as Htop
    by (unfold npages; Z.to_euclidean_division_equations; lia).
  eapply wp_seq; [apply (loaduvm_run D (Z.max sz top) ip (vaddr ph) (p_off ph) (filesz ph) f k1 m l1); [done|lia|lia|lia|lia|done|done]|].
  intros r s' (f' & k' & -> & Hlk' & [(-> & Hle & Hb')|(-> & Hf0 & Hgt & Hd')]); apply wp_ret.
  - rewrite (proj2 (andb_false_iff _ _)) by (destruct (Z.ltb_spec 0 (filesz ph)); [right; b2p; lia|by left]).
    exists f', k'. split_and!; [done|done|]. cbn. eexists _, l1. split_and!; [done|exact Hb'|].
    eapply zero_from_poke; [exact Hz|lia|]. pose proof (slice_le (p_off ph) (filesz ph) ltac:(lia)). lia.
  - rewrite (proj2 (Z.ltb_lt 0 (filesz ph)) Hf0), (proj2 (Z.ltb_lt _ _) Hgt). cbn [andb].
    exists f', k'. split_and!; done.
Qed.

Lemma load_segments_run D ip n : forall f k sz m l off,
  locked ip f -> built k D (-1) sz m X l m0 L -> zero_from m sz -> 0 <= off < 4294967296 ->
  wp (load_segments kend argp dev_read n D ip off sz) (mkest f (mkkvm k kp hs) p)
    (loaded D ip (segments_spec c n off (sz, m))).
Proof.
  induction n as [|n IH]; intros f k sz m l off Hlk Hb Hz Hoff; cbn [load_segments segments_spec].
  { apply wp_ret. exists f, k. split_and!; [done|done|]. exists m, l. done. }
  eapply wp_bind, wp_in_fs, wp_mono; [apply (fl_readi _ _ _ _ FS ip c f off 32 eq_refl Hlk); lia|].
  intros rb f1 [-> Hlk1]. pose proof (read_spec_cases off 32 Hoff ltac:(lia)) as Hr.
  pose proof (fl_size _ _ _ _ FS c eq_refl) as Hlen.
  destruct (Z.leb_spec (off + 32) (Z.of_nat (length c))) as [Hle|Hgt].
  2: { destruct (read_spec c off 32) as [r bs]. destruct Hr as [Hr _]. cbn [fst] in Hr.
       destruct (Z.eqb_spec r 32) as [->|_]; [done|]. rewrite (proj2 (Z.ltb_lt _ _) Hgt).
       apply wp_ret. exists f1, k. split_and!; [done|done|by eapply built_doomed|done]. }
  rewrite Hr, (proj2 (Z.ltb_ge _ _) Hle). cbn [Z.eqb Pos.eqb negb]. rewrite u32_small by lia.
  set (ph := proghdr_of (slice c off 32)).
  assert (header_ok ph) as Hok by (split_and!; apply get32_range, slice_bytes).
  destruct (Z.eqb_spec (p_type ph) ELF_PROG_LOAD) as [Hty|Hty]; cbn [negb].
  2: { unfold segment_spec. rewrite (proj2 (Z.eqb_neq _ _) Hty). cbn [negb]. eapply IH; [done|done|done|lia]. }
  eapply wp_seq; [by eapply load_segment_run|].
  intros [sz1|] s' (f' & k' & -> & Hlk' & H').
  - destruct H' as (m1 & l1 & -> & Hb1 & Hz1). eapply IH; [done|done|done|lia].
  - destruct H' as [Hd Hro]. apply wp_ret. exists f', k'. split_and!; [done|done|done|].
    destruct (segment_spec _ _ _) as [[sz1 m1]|]; [|done].
    destruct (segments_spec _ _ _ _) as [[sz2 m2]|] eqn:E2; [|done].
    apply segments_mono, room_mono in E2. lia.
Qed.

End Load.

(** ** The stack *)

Section Stack.
Context {S : Type}.
Context (kend argp kdata f0 : Z) (i : nat) (dd : Z).

Abbreviation built := (built kend kdata f0 i dd).
Abbreviation doomed := (doomed kend f0 i dd).

Context (f : fsst S) (kp : Z) (hs : list hart) (p : proc) (X l : list Z) (m0 : mem) (L : list Z).

(** The guard page is [g], the stack is the page after it. *)
Context (D g : Z) (Hg : 0 <= g).
Abbreviation base := (4096 * (g + 1)).
Abbreviation top := (4096 * (g + 2)).

(** An argument no longer than the devices' addresses are many. *)
Definition short_args (argv : list (list Z)) : Prop :=
  Forall (fun a => Z.of_nat (length a) < 33554432) argv.

(** One string: pushed, or refused because it does not fit above the guard page. *)
Lemma push_run k m sp bs :
  built k D g top m X l m0 L -> base <= sp <= top -> bs <> [] -> Z.of_nat (length bs) <= 33554432 ->
  sp mod 4 = 0 ->
  let sp' := (sp - Z.of_nat (length bs)) / 4 * 4 in
  wp (copyout_bytes argp D (Z.land (u32 (sp - Z.of_nat (length bs))) (Z.lnot 3)) bs) k (fun r k' =>
    r = 0 /\ Z.land (u32 (sp - Z.of_nat (length bs))) (Z.lnot 3) = sp' /\ base <= sp' <= sp /\
      built k' D g top (poke m sp' bs) X l m0 L \/
    r = -1 /\ sp' < base /\ doomed k' D X m0 L).
Proof.
  intros Hb Hsp Hbs Hlen Hm4 sp'. set (len := Z.of_nat (length bs)) in *.
  assert (0 < len) as Hl0 by (subst len; destruct bs; cbn; [done|lia]).
  pose proof Hb as (? & ? & ? & [_ Hsz _ _ _ _ _ _ _]). unfold KERNBASE in Hsz.
  assert (npages top = g + 2) as Hnp by (unfold npages; Z.to_euclidean_division_equations; lia).
  change 3 with (2 ^ 2 - 1). rewrite land_high_mask by done. change (2 ^ 2) with 4.
  destruct (Z.lt_ge_cases (sp - len) 0) as [Hneg|Hpos].
  - assert (u32 (sp - len) = sp - len + 4294967296) as Eu
      by (unfold u32; Z.to_euclidean_division_equations; lia).
    eapply wp_of; [eapply built_copyout_dev; [exact Hb| |done]|].
    + rewrite Eu. unfold DEVSPACE. Z.to_euclidean_division_equations; lia.
    + right. split_and!; [done| |by eapply built_doomed]. subst sp'. Z.to_euclidean_division_equations; lia.
  - rewrite u32_small by lia. replace (sp - len - (sp - len) mod 4) with sp'
      by (subst sp'; Z.to_euclidean_division_equations; lia).
    assert (0 <= sp' /\ sp' <= sp - len < sp' + 4) as Hsp' by (subst sp'; Z.to_euclidean_division_equations; lia).
    eapply wp_mono; [eapply built_copyout; [exact Hb|lia|fold len; lia]|]. fold len.
    intros r k' [(-> & Hb' & Hg')|(-> & Hd & Hg')]; [left|right].
    + split_and!; [done|done| |lia|done]. specialize (Hg' Hl0). clear -Hg' Hsp' Hsp Hl0 Hm4.
      Z.to_euclidean_division_equations; lia.
    + split_and!; [done| |done]. clear -Hg'. Z.to_euclidean_division_equations; lia.
Qed.

(** The same for whole words, which need no rounding. *)
Lemma push_words_run k m sp bs n :
  built k D g top m X l m0 L -> base <= sp <= top -> Z.of_nat (length bs) = 4 * n -> 0 < n < 1024 ->
  sp mod 4 = 0 ->
  wp (copyout_bytes argp D (u32 (sp - 4 * n)) bs) k (fun r k' =>
    r = 0 /\ base <= sp - 4 * n /\ built k' D g top (poke m (sp - 4 * n) bs) X l m0 L \/
    r = -1 /\ sp - 4 * n < base /\ doomed k' D X m0 L).
Proof.
  intros Hb Hsp Hlen Hn Hm4. rewrite (u32_small (sp - 4 * n)).
  2: { pose proof Hb as (? & ? & ? & [_ Hsz _ _ _ _ _ _ _]). unfold KERNBASE in Hsz. lia. }
  assert (bs <> []) as Hbs by (intros ->; cbn in Hlen; lia).
  pose proof (push_run k m sp bs Hb Hsp Hbs ltac:(lia) Hm4) as H. cbv zeta in H. rewrite Hlen in H.
  rewrite u32_small in H
    by (pose proof Hb as (? & ? & ? & [_ Hsz _ _ _ _ _ _ _]); unfold KERNBASE in Hsz; lia).
  assert ((sp - 4 * n) / 4 * 4 = sp - 4 * n) as E by (clear -Hm4; Z.to_euclidean_division_equations; lia).
  assert (Z.land (sp - 4 * n) (Z.lnot 3) = sp - 4 * n) as El.
  { change 3 with (2 ^ 2 - 1). rewrite land_high_mask by done. change (2 ^ 2) with 4.
    clear -Hm4. Z.to_euclidean_division_equations; lia. }
  rewrite E, El in H. eapply wp_mono; [exact H|]. intros r k' [(-> & _ & ? & ?)|(-> & ? & ?)]; [left|right]; split_and!; done || lia.
Qed.

Lemma args_length b argv : forall sp m sp' m' ptrs,
  args_spec b argv sp m = Some (sp', m', ptrs) -> length ptrs = length argv.
Proof.
  induction argv as [|a argv IH]; intros sp m sp' m' ptrs H; cbn [args_spec] in H; [by simplify_eq|].
  destruct (_ <? _); [done|]. destruct (args_spec _ _ _ _) as [[[? ?] ?]|] eqn:E; [|done].
  simplify_eq. cbn. f_equal. by eapply IH.
Qed.

Lemma push_args_run argv : forall k m sp argc us,
  built k D g top m X l m0 L -> base <= sp <= top -> sp mod 4 = 0 -> short_args argv -> 0 <= argc <= MAXARG ->
  wp (push_args argp argv D argc sp us) (mkest f (mkkvm k kp hs) p) (fun o s' =>
    exists k', s' = mkest f (mkkvm k' kp hs) p /\
    match o with
    | Some (sp', us') => argc + Z.of_nat (length argv) <= MAXARG /\ exists m' ptrs,
        args_spec base argv sp m = Some (sp', m', ptrs) /\ us' = us ++ ptrs /\
        built k' D g top m' X l m0 L /\ base <= sp' <= top /\ sp' mod 4 = 0
    | None => doomed k' D X m0 L /\
        (args_spec base argv sp m = None \/ MAXARG < argc + Z.of_nat (length argv))
    end).
Proof.
  induction argv as [|a argv IH]; intros k m sp argc us Hb Hsp Hm4 Hs Hac; cbn [push_args].
  { apply wp_ret. exists k. split; [done|]. cbn [length]. split; [lia|]. exists m, []. rewrite app_nil_r. done. }
  cbn [args_spec length]. apply Forall_cons in Hs as [Ha Hs].
  assert (Z.of_nat (length (a ++ [0])) = Z.of_nat (length a) + 1) as Hla by (rewrite length_app; cbn; lia).
  destruct (Z.leb_spec MAXARG argc).
  { apply wp_ret. exists k. split_and!; [done|by eapply built_doomed|right; lia]. }
  rewrite <- Hla. set (sp' := (sp - Z.of_nat (length (a ++ [0]))) / 4 * 4).
  eapply wp_bind, wp_in_mem, wp_mono; [apply (push_run k m sp (a ++ [0]) Hb Hsp); [by destruct a|lia|done]|].
  intros r k1 [(-> & -> & Hsp' & Hb1)|(-> & Hsp' & Hd)]; cbn [Z.ltb Z.compare].
  2: { apply wp_ret. exists k1. split_and!; [done|done|]. fold sp' in Hsp'. rewrite (proj2 (Z.ltb_lt _ _) Hsp'). by left. }
  fold sp' in Hsp', Hb1. fold sp'. rewrite (proj2 (Z.ltb_ge sp' base)) by lia.
  eapply wp_mono; [apply (IH k1 _ sp' (argc + 1) (us ++ [sp']) Hb1); [lia| |done|lia]|].
  { subst sp'. by rewrite Z.mod_mul. }
  intros o s' (k' & -> & H'). exists k'. split; [done|]. destruct o as [[sp2 us2]|].
  - destruct H' as (Hmax & m' & ptrs & -> & -> & Hb' & Hr). split; [lia|]. exists m', (sp' :: ptrs).
    split_and!; [done|by rewrite <- app_assoc|done|lia|lia|apply Hr].
  - destruct H' as [Hd [->|Hmax]]; (split; [done|]); [by left|right; lia].
Qed.

End Stack.
