(* ===== verification/ExecFiles.v ===== *)
(** * The files that [exec] reads ([exec.c] on [fs.c] and [log.c])

    The file system on a disk with a directory tree answers [exec] the way
    [exec] relies on. *)
From S2P Require Import Prelude Proc Syscall Exec ExecLoad.
From S2P Require Import Sleeplock Bio BufCache BioSpec Log LogSpec LogOps Tx Fs FsBlocks FsInode FsFiles FsContents FsDirs FsIcache FsSpec FileSpec FsPath.

(** ** Views that agree where the file system is *)

Section Agree.
Context {disksize : Z} {home : Z -> Prop} (sb : superblock) (v v' : Z -> block).
Context (HL : layout disksize home sb) (HA : agree (home := home) v v').

Lemma agree_stored n : 0 <= n < sb_ninodes sb -> stored sb v' n = stored sb v n.
Proof. intros Hn. unfold stored, dinode_at. cbn [i_inum]. by rewrite (HA _ (proj1 (ly_inode _ _ _ HL _ Hn))). Qed.

Lemma agree_linked n : linked sb v' n <-> linked sb v n.
Proof. unfold linked. split; intros (Hn & H); (split; [done|]); by rewrite agree_stored in *. Qed.

Lemma agree_file n : tree_ok sb v -> linked sb v n -> file_of sb v' n = file_of sb v n.
Proof.
  intros HT Hn. unfold file_of. rewrite agree_stored by apply Hn.
  eapply meta_contents; [by eapply agree_meta|by apply HT].
Qed.

Lemma agree_tree : tree_ok sb v -> tree_ok sb v'.
Proof.
  intros HT. split; intros n; rewrite ?agree_linked.
  - intros Hn. rewrite agree_stored by apply Hn. eapply meta_inode; [by eapply agree_meta|by apply HT].
  - intros Hn. rewrite agree_stored by apply Hn. by apply HT.
  - intros e m Hn. rewrite agree_linked in *. rewrite agree_stored, agree_file by (done || apply Hn). by apply HT.
Qed.

Lemma agree_resolve es : forall n, tree_ok sb v -> linked sb v n -> resolve sb v' n es = resolve sb v n es.
Proof.
  induction es as [|e es IH]; intros n HT Hn; [done|]. cbn [resolve]. rewrite agree_stored, agree_file by (done || apply Hn).
  destruct (Z.eqb_spec (i_type (stored sb v n)) T_DIR); [|done].
  destruct (dir_inum _ e) as [m|] eqn:E; [|done]. apply IH; [done|]. by eapply tr_entry.
Qed.

Lemma agree_quiet me lk ic : quiet me sb v lk ic -> quiet me sb v' lk ic.
Proof.
  intros [Hok Hlk Hdev Hsy]. split; [done|done|done|]. intros j x Hx Hr Hv.
  eapply agree_synced; [done|done|by eapply Hdev|by eapply Hsy].
Qed.

End Agree.

Lemma agree_sym {home : Z -> Prop} v v' : agree (home := home) v v' -> agree (home := home) v' v.
Proof. intros H n Hn. symmetry. by apply H. Qed.

Lemma extra_trans l ic0 ic ic' : extra [] ic0 ic -> extra l ic ic' -> extra l ic0 ic'.
Proof.
  intros [El E] [Fl F]. split; [congruence|]. intros j x Hx. destruct (E j x Hx) as (y & Hy & Hr & Hi).
  destruct (F j y Hy) as (z & Hz & Hr' & Hi'). exists z. cbn in Hr. split_and!; [done|lia|].
  intros Hp. destruct (Hi Hp), Hi'; [lia|]. split; congruence.
Qed.

Lemma resolve_linked sb v es : forall n m, tree_ok sb v -> linked sb v n -> resolve sb v n es = Some m -> linked sb v m.
Proof.
  induction es as [|e es IH]; intros n m HT Hn; cbn [resolve]; [by intros [= <-]|].
  destruct (Z.eqb_spec (i_type (stored sb v n)) T_DIR); [|done].
  destruct (dir_inum _ e) as [k|] eqn:E; [|done]. apply IH; [done|]. by eapply tr_entry.
Qed.

(** ** The tree as [exec] sees it *)

Section Files.
Context {S : Type} {TO : TxOps S} {disksize : Z} {home : Z -> Prop} {TD : TxDisk S disksize home}.
Context (me : Z) (dev_read : Z -> option (Z -> M (fsst S) (Z * list Z))) (sb : superblock) (v : Z -> block).
Context (HL : layout disksize home sb) (HF : fs_ok sb v) (HT : tree_ok sb v).

(** The cache between operations, up to entries that are not in use. *)
Context (ic0 : list inode).
Context (Hroom : exists j k x y, j <> k /\ ic0 !! j = Some x /\ ic0 !! k = Some y /\ i_ref x = 0 /\ i_ref y = 0).
Context (Hfew : forall j x, ic0 !! j = Some x -> 0 <= i_ref x < 2147483640).

(** The path, and what it leads to. *)
Context (cw : nat) (path : list Z) (n : Z).
Context (Hnz : Forall (.≠ 0) path) (Hst : start_of ic0 cw path n) (Hli : linked sb v n).
Context (Hfile : forall m, resolve sb v n (elems path) = Some m ->
  i_type (stored sb v m) <> T_DEV /\ Forall (fun b => 0 <= b < 256) (file_of sb v m)).

Definition fs_found : option (list Z) := file_of sb v <$> resolve sb v n (elems path).

Definition fs_closed (f : fsst S) : Prop := exists t ic,
  f = mkfs t sb ic /\ tclosed (TD := TD) t v /\ quiet me sb v None ic /\ extra [] ic0 ic.

(** Inside an operation, with the references [l] and the lock [lk]. *)
Definition fs_in (l : list nat) (lk : option nat) (f : fsst S) (a : tspec) (t : S) (ic : list inode) : Prop :=
  f = mkfs t sb ic /\ trepr (TxView := t_in) t a /\ calm (disksize := disksize) (home := home) sb a /\
  agree (home := home) v (t_view a) /\ quiet me sb (t_view a) lk ic /\ extra l ic0 ic.

Definition fs_open (f : fsst S) : Prop := exists a t ic, fs_in [] None f a t ic.

(** Entry [ip] caches the inode that the path leads to. *)
Definition fs_at (lk : option nat) (ip : nat) (f : fsst S) : Prop :=
  exists a t ic x m, fs_in [ip] lk f a t ic /\ ic !! ip = Some x /\ 0 < i_ref x /\
    i_inum x = m /\ resolve sb v n (elems path) = Some m /\ linked sb v m /\
    match lk with Some _ => synced sb (t_view a) x /\ i_dev x = 1 | None => True end.

Definition fs_named (ip : nat) : fsst S -> Prop := fs_at None ip.
Definition fs_locked (ip : nat) : fsst S -> Prop := fs_at (Some ip) ip.

Lemma fs_begin f : fs_closed f -> wp (lift tx_begin) f (fun _ f' => fs_open f').
Proof.
  intros (t & ic & -> & (a0 & HR & Ha & Hv) & Hq & Hx). apply wp_lift.
  eapply wp_mono; [by apply t_begin_ok|]. intros [] t' (a & R' & [H1 H2] & _ & H4 & H5).
  assert (HA : agree (home := home) v (t_view a)) by (intros b Hb; by rewrite H5, Hv).
  exists a, t', ic. split_and!; [done|done| |done|by eapply agree_quiet|done].
  split; [done| |done|done]. eapply meta_fs_ok; [by eapply agree_meta|done].
Qed.

Lemma fs_end f : fs_open f -> wp (lift tx_end) f (fun _ f' => fs_closed f').
Proof.
  intros (a & t & ic & -> & HR & Hc & HA & Hq & Hx). apply wp_lift.
  eapply wp_mono; [apply t_end_ok; [done|split; apply Hc]|]. intros r t' (a' & R' & Ha & Hv).
  exists t', ic. split_and!; [done| |by eapply agree_quiet; [|apply agree_sym|]|done].
  exists a'. split_and!; [done|done|]. intros b Hb. by rewrite Hv, HA.
Qed.

Lemma room_extra ic : extra [] ic0 ic ->
  (exists j k x y, j <> k /\ ic !! j = Some x /\ ic !! k = Some y /\ i_ref x = 0 /\ i_ref y = 0) /\
  (forall j x, ic !! j = Some x -> 0 <= i_ref x < 2147483640) /\ start_of ic cw path n.
Proof.
  intros [El E]. split_and!.
  - destruct Hroom as (j & k & x & y & Hjk & Hx & Hy & Hrx & Hry).
    destruct (E _ _ Hx) as (x' & Hx' & Hr & _), (E _ _ Hy) as (y' & Hy' & Hr' & _). cbn in Hr, Hr'.
    exists j, k, x', y'. split_and!; [done|done|done|lia|lia].
  - intros j y Hy. assert (j < length ic0)%nat as [x Hx]%lookup_lt_is_Some_2 by (rewrite <- El; by eapply lookup_lt_Some).
    destruct (E _ _ Hx) as (y' & Hy' & Hr & _). cbn in Hr. pose proof (Hfew _ _ Hx). rewrite Hy in Hy'. injection Hy' as <-. lia.
  - unfold start_of in *. case_bool_decide; [done|]. destruct Hst as (x & Hx & Hr & Hi).
    destruct (E _ _ Hx) as (x' & Hx' & Hr' & Hi'). cbn in Hr'. exists x'. split_and!; [done|lia|]. destruct Hi'; [lia|congruence].
Qed.

Lemma fs_namei f : fs_open f -> wp (namei me dev_read cw path) f (fun o f' =>
  match o, fs_found with
  | None, None => fs_open f'
  | Some ip, Some _ => fs_named ip f'
  | _, _ => False
  end).
Proof.
  intros (a & t & ic & -> & HR & Hc & HA & Hq & Hx). destruct (room_extra ic Hx) as (Hrm & Hfw & Hs).
  eapply wp_mono.
  - eapply (namei_run (TD := t_in) me dev_read sb (t_view a) ic Hrm Hfw a Hc eq_refl); try done.
    + by eapply agree_tree.
    + by apply (agree_linked sb v _ HL HA).
  - cbn beta. erewrite agree_resolve by done. unfold fs_found.
    intros o s' (t' & ic' & -> & R' & Hq' & H). destruct (resolve sb v n (elems path)) as [m|] eqn:Em; cbn.
    + destruct H as (jp & y & -> & Hex & Hy & Hr & Hi & Hl). exists a, t', ic', y, m.
      pose proof (proj1 (agree_linked sb v _ HL HA m) Hl). split; [|done].
      split_and!; [done|done|done|done|done|by eapply extra_trans].
    + destruct H as [-> Hex]. exists a, t', ic'. split_and!; [done|done|done|done|done|by eapply extra_trans].
Qed.

Lemma fs_ilock ip f : fs_named ip f -> wp (ilock me ip) f (fun _ f' => fs_locked ip f').
Proof.
  intros (a & t & ic & x & m & (-> & HR & Hc & HA & Hq & Hx) & Hip & Hr & Hi & Hm & Hl & _).
  eapply wp_mono.
  - eapply (ilock_quiet (TD := t_in)); try done. rewrite Hi. by apply (agree_linked sb v _ HL HA).
  - cbn beta. intros [] s' (t' & ic' & y & -> & R' & Hq' & Hx' & Hy & Hiy & Hry & Hsy & Hdy).
    exists a, t', ic', y, m. split; [done|]. split; [done|]. split; [done|]. split; [congruence|done].
Qed.

Lemma fs_readi ip c f off k : fs_found = Some c -> fs_locked ip f ->
  0 <= off < 4294967296 -> 0 <= k < 2147483648 ->
  wp (readi dev_read ip off k) f (fun rb f' => rb = ExecLoad.read_spec c off k /\ fs_locked ip f').
Proof.
  unfold fs_found. intros Hf (a & t & ic & x & m & (-> & HR & Hc & HA & Hq & Hx) & Hip & Hr & Hi & Hm & Hl & Hs & Hd) Ho Hk.
  rewrite Hm in Hf. cbn in Hf. injection Hf as <-. destruct (Hfile m Hm) as [Hty _].
  destruct (synced_fields _ _ _ Hs) as (E1 & _ & E3 & E4). rewrite Hi in E1, E3, E4.
  rewrite (agree_stored sb v _ HL HA) in E1, E3, E4 by apply Hl.
  assert (inode_ok sb (t_view a) x) as HI.
  { apply synced_inode; [done|done|]. rewrite Hi. eapply agree_tree; [done|done|done|by apply (agree_linked sb v _ HL HA)]. }
  pose proof (io_size _ _ _ HI) as Hsz. unfold MAXSIZE in Hsz.
  assert (contents (t_view a) (i_addrs x) (i_size x) = file_of sb v m) as Ec.
  { unfold file_of. rewrite <- E3, <- E4. eapply meta_contents; [by eapply agree_meta|].
    eapply meta_inode; [|exact HI]. eapply agree_meta; [done|by apply agree_sym]. }
  assert (Z.of_nat (length (file_of sb v m)) = i_size x) as Elen by (rewrite <- Ec, length_fcontents; lia).
  unfold ExecLoad.read_spec. rewrite Elen. destruct (Z.leb_spec off (i_size x)).
  - rewrite (proj2 (Z.ltb_lt _ _)) by lia. cbn [andb].
    assert (exists o, off = Z.of_nat o) as [o ->] by (exists (Z.to_nat off); lia).
    eapply wp_mono; [apply (readi_run (TD := t_in) dev_read t sb ic a ip x o); try done; try lia; by rewrite E1|].
    intros rb s' (-> & t' & -> & R'). split; [unfold slice; by rewrite Ec, Nat2Z.id|]. exists a, t', ic, x, m. by split_and!.
  - unfold readi. eapply f_geti; [done|]. rewrite E1, (proj2 (Z.eqb_neq _ _)), (proj2 (Z.ltb_lt _ _)) by (done || lia).
    apply wp_ret. split; [done|]. exists a, t, ic, x, m. by split_and!.
Qed.

Lemma fs_put ip f : fs_locked ip f -> wp (iunlockput me ip) f (fun _ f' => fs_open f').
Proof.
  intros (a & t & ic & x & m & (-> & HR & Hc & HA & Hq & Hx) & Hip & Hr & Hi & Hm & Hl & Hs & Hd).
  eapply wp_mono.
  - eapply put_quiet; try done; [|cbn; lia]. rewrite Hi. by apply (agree_linked sb v _ HL HA).
  - intros [] s' (ic' & -> & Hq' & Hx' & _). exists a, t, ic'. by split_and!.
Qed.

Lemma fs_size c : fs_found = Some c -> Z.of_nat (length c) < 2147483648.
Proof.
  unfold fs_found. destruct (resolve sb v n (elems path)) as [m|] eqn:E; [|done]. intros [= <-].
  unfold file_of. rewrite length_fcontents. assert (linked sb v m) as Hm by by eapply resolve_linked.
  pose proof (io_size _ _ _ (tr_inode _ _ HT _ Hm)) as Hs. unfold MAXSIZE in Hs. lia.
Qed.

Lemma fs_bytes c : fs_found = Some c -> Forall (fun b => 0 <= b < 256) c.
Proof.
  unfold fs_found. destruct (resolve sb v n (elems path)) as [m|] eqn:E; [|done]. intros [= <-]. by apply Hfile.
Qed.

Definition fs_files : files dev_read me cw path fs_found :=
  mkfiles dev_read me cw path fs_found fs_closed fs_open fs_named fs_locked
    fs_begin fs_end fs_namei fs_ilock fs_readi fs_put fs_size fs_bytes.

End Files.

(** ** The tree with a program *)

Lemma tree_closed : exists t, tclosed (TD := demo_tx) t tree_fs.
Proof.
  destruct (binit_brepr 7 tree_fs) as (c & _ & Hc); [exact tree_len|].
  exists (mklst (set_outstanding 0 demo_log) c), (mktspec tree_fs ∅ ∅ ∅ 0).
  split; [|split; [split; reflexivity|intros n _; reflexivity]].
  apply (log_closed (BC := bio_cache 7 1000) 2 30 _ c (fresh tree_fs)); try done; try lia.
  destruct (demo_txn 0). split; done.
Qed.

Lemma tree_found : fs_found demo_sb tree_fs [47; 97] 1 = Some prog_bytes.
Proof. vm_compute. reflexivity. Qed.

Lemma tree_start : Forall (.≠ 0) [47; 97] /\ start_of tree_ic 0 [47; 97] 1 /\ linked demo_sb tree_fs 1 /\
  forall m, resolve demo_sb tree_fs 1 (elems [47; 97]) = Some m ->
    i_type (stored demo_sb tree_fs m) <> T_DEV /\ Forall (fun b => 0 <= b < 256) (file_of demo_sb tree_fs m).
Proof.
  split; [repeat (apply Forall_cons; split; [lia|]); apply Forall_nil_2|]. split; [reflexivity|].
  split; [unfold linked; destruct tree_stored as [-> _]; cbn; unfold T_DIR; lia|].
  assert (resolve demo_sb tree_fs 1 (elems [47; 97]) = Some 2) as -> by (vm_compute; reflexivity).
  intros m [= <-]. split; [vm_compute; discriminate|].
  assert (file_of demo_sb tree_fs 2 = prog_bytes) as -> by (vm_compute; reflexivity).
  unfold prog_bytes. cbn. repeat (apply Forall_cons; split; [lia|]). apply Forall_nil_2.
Qed.

Definition tree_files : files (TO := log_tx_ops (BO := bio_ops 7 1000)) (fun _ => None) 7 0 [47; 97]
    (fs_found demo_sb tree_fs [47; 97] 1) :=
  fs_files (TD := demo_tx) 7 (fun _ => None) demo_sb tree_fs demo_layout tree_fs_ok tree_tree tree_ic tree_room tree_few
    0 [47; 97] 1 (proj1 tree_start) (proj1 (proj2 tree_start)) (proj1 (proj2 (proj2 tree_start))) (proj2 (proj2 (proj2 tree_start))).
