(* ===== verification/ExecSpec.v ===== *)
(** * What [exec] promises

    [exec] either replaces the process's memory by the image of the file and
    the arguments, or leaves the process as it was; in both cases no page and no
    reference to the file is lost. *)
From S2P Require Import Prelude Sleeplock Bio BioSpec Log LogSpec Tx Fs FsSpec FileSpec FsPath Proc Syscall Exec.
From S2P Require Import Str Spinlock Kalloc Vm VmTables VmUser VmKern VmCopy VmClient VmSwitch VmSpec ExecSpace ExecLoad ExecFiles.

(** The process that has been given directory [D] and image [img]. *)
Definition started (path : list Z) (D : Z) (img : image) (p : proc) : proc :=
  set_tf (set_entry (im_entry img) (im_esp img) (tf p))
    (set_sz (im_sz img) (set_pgdir D (set_name (copy_name (name p) (last_elem path path)) p))).

Section Exec.
Context {S : Type} {TO : TxOps S}.
Context (kend argp kdata : Z) (tsaddr : nat -> Z).
Context (dev_read : Z -> option (Z -> M (fsst S) (Z * list Z))).
Context (f0 : Z) (i : nat) (dd : Z).
Context (Hke : KERNBASE < kend) (Hkd : kdata_ok kdata).

Abbreviation heap := (heap kend f0 i dd).
Abbreviation aspace := (aspace kend f0 i dd).
Abbreviation built := (built kend kdata f0 i dd).
Abbreviation doomed := (doomed kend f0 i dd).

(** The caller: its state before the call and the pages in use. *)
Context (k0 : kmem) (kp : Z) (hs : list hart) (h : hart) (p : proc).
Context (T0 : gmap Z Z) (E0 : Z -> Z) (U0 : gmap Z (Z * Z)) (X l0 : list Z).
Context (Hold : aspace k0 (pgdir p) T0 E0 U0 X l0).
Context (Hh : hs !! i = Some h) (Hgdt : (SEG_TSS < length (gdt h))%nat) (Hks : kstack p <> 0).

Abbreviation Y := (pgdir p :: vals T0 ++ upages U0 ++ X).

(** The caller's memory as it was, with the same pages free. *)
Definition intact (k' : kmem) : Prop :=
  exists l', aspace k' (pgdir p) T0 E0 U0 X l' /\ l' ≡ₚ l0 /\ keeps Y (kram k0) (kram k').

Lemma intact_heap k' l' : heap k' Y l' -> l' ≡ₚ l0 -> keeps Y (kram k0) (kram k') -> intact k'.
Proof. intros Hp Hl Hk. exists l'. split_and!; [by eapply space_kept|done|done]. Qed.

Lemma bad_memory D (f : fsst S) k (Q : unit -> est S -> Prop) :
  doomed k D Y (kram k0) l0 -> (forall k', intact k' -> Q tt (mkest f (mkkvm k' kp hs) p)) ->
  wp (when (nz D) (in_mem (freevm kend argp D))) (mkest f (mkkvm k kp hs) p) Q.
Proof.
  intros Hd HQ. assert (D <> 0) as HD.
  { destruct Hd as (T & E & U & l & [[Hp _]%vmem_heap _] & _).
    assert (page_ok kend D) as [? _] by (eapply heap_page; [done|sub]). lia. }
  unfold nz. rewrite (proj2 (Z.eqb_neq D 0) HD). cbn [negb when].
  eapply wp_in_mem, wp_mono; [by apply built_free|]. intros [] k' (l' & Hp & Hl & Hk).
  apply HQ. by eapply intact_heap.
Qed.

(** The last part, from the loaded segments on: how it ends. *)
Definition ended (f : fsst S) (path : list Z) (img : option image) (r : Z) (s' : est S) : Prop :=
  exists k',
    (r = 0 /\ (exists im D l', img = Some im /\
       s' = mkest f (mkkvm k' kp (<[i := switched i tsaddr (kstack p) D h]> hs)) (started path D im p) /\
       built k' D (im_sz im / 4096 - 2) (im_sz im) (im_mem im) X l' (kram k0)
         (pgdir p :: vals T0 ++ upages U0 ++ l0)) \/
     r = -1 /\ s' = mkest f (mkkvm k' kp hs) p /\ intact k' /\
       match img with Some im => Z.of_nat (length l0) <= room (im_sz im) | None => True end).

Lemma ended_bad f path img D k me :
  doomed k D Y (kram k0) l0 ->
  match img with Some im => Z.of_nat (length l0) <= room (im_sz im) | None => True end ->
  wp (bad kend argp me D None) (mkest f (mkkvm k kp hs) p) (ended f path img).
Proof.
  intros Hd Hr. unfold bad. apply wp_bind, bad_memory; [done|]. intros k' Hi. apply wp_ret.
  exists k'. right. done.
Qed.

(** The new space without the old one: what was free and the old pages. *)
Lemma built_switch k D g sz m l m' :
  built k D g sz m Y l (kram k0) l0 ->
  nested f0 (kram k) i dd m' ->
  let k1 := mkkmem m' (klock k) (use_lock k) (freelist k) in
  wp (freevm kend argp (pgdir p)) k1 (fun _ k' => exists l',
    built k' D g sz m X l' (kram k0) (pgdir p :: vals T0 ++ upages U0 ++ l0)).
Proof.
  intros (T & E & U & [Hs Hsz Hk Hd Hu Hf Hby Hp Hkp]) Hn k1.
  pose proof Hs as [[Hh0 Ht]%vmem_heap Hus].
  destruct (heap_mach _ _ _ _ _ _ _ _ Hh0 Hn) as [Hh1 Hr1]. fold k1 in Hh1, Hr1.
  assert (aspace k1 D T E U Y l) as Hs1.
  { split; [|done]. apply vmem_heap. split; [done|]. by rewrite Hr1. }
  assert (keeps Y (kram k0) (kram k1)) as Hk1 by (by rewrite Hr1).
  pose proof (space_beside _ _ _ _ _ _ _ _ _ _ _ _ _ _ _ _ _ Hold Hs1 Hk1) as Hold1.
  eapply wp_mono; [by eapply freevm_run|]. intros [] k' (l' & Hh' & Hp' & Hk').
  exists l', T, E, U. rewrite Hr1 in Hk'. split; [|done|done|done|done|done| | |].
  - split; [|done]. apply vmem_heap. split; [done|].
    eapply tables_keeps; [exact Ht|]. eapply keeps_mono; [|exact Hk']. sub.
  - intros va Hva. rewrite <- Hby by done. eapply ubyte_keeps; [exact Hk'|]. sub.
  - rewrite Hp', <- Hp. perm.
  - eapply keeps_trans; [eapply keeps_mono; [|exact Hkp]; sub|]. eapply keeps_mono; [|exact Hk']. sub.
Qed.

Lemma exec_commit_run path D g m eip esp f k l :
  built k D g (4096 * (g + 2)) m Y l (kram k0) l0 ->
  wp (exec_commit kend argp tsaddr D (4096 * (g + 2)) eip esp path) (mkest f (mkkvm k kp hs) p)
    (ended f path (Some (mkimage (4096 * (g + 2)) m eip esp))).
Proof.
  intros Hb. unfold exec_commit. apply wp_bind, wp_modify, wp_bind, wp_gets.
  do 3 apply wp_bind, wp_modify. apply wp_bind, wp_gets. cbn [efs evm ecur].
  set (im := mkimage (4096 * (g + 2)) m eip esp).
  change (set_tf _ _) with (started path D im p).
  change (kstack (started path D im p)) with (kstack p). change (pgdir (started path D im p)) with D.
  change (pgdir (set_name _ p)) with (pgdir p).
  assert (idle f0 i dd k) as Hi by (destruct Hb as (? & ? & ? & [[[[_ Hi _ _] _]%vmem_heap _] _ _ _ _ _ _ _ _]); exact Hi).
  pose proof (built_dir _ _ _ _ _ _ _ _ _ _ _ _ _ _ Hb) as HD.
  destruct (switchuvm_run f0 i dd tsaddr (kstack p) D (mkkvm k kp hs) h Hi Hh Hgdt Hks HD) as (m' & Esw & Hn).
  apply wp_bind, wp_zoom. eapply wp_of; [exact Esw|]. cbn [kmm kpgdir harts efs ecur].
  eapply wp_bind, wp_in_mem, wp_mono; [by eapply built_switch|]. intros [] k' (l' & Hb').
  apply wp_ret. exists k'. left. split; [done|]. exists im, D, l'. split_and!; [done|done|].
  cbn [im_sz im_mem im]. by replace (4096 * (g + 2) / 4096 - 2) with g by (Z.to_euclidean_division_equations; lia).
Qed.

Lemma exec_stack_run me D sz e path argv f k m l :
  built k D (-1) sz m Y l (kram k0) l0 -> zero_from m sz -> short_args argv ->
  wp (exec_stack kend argp tsaddr me D sz e path argv) (mkest f (mkkvm k kp hs) p)
    (ended f path (stack_image (Exec.entry e) sz m argv)).
Proof.
  intros Hb Hz Hs. pose proof Hb as (? & ? & ? & [_ Hsz _ _ _ _ _ _ _]). pose proof (npages_range sz Hsz) as Hnr.
  set (g := npages sz) in *. unfold exec_stack, stack_image. fold g.
  rewrite PGROUNDUP_div by (unfold KERNBASE in Hsz; lia). change ((sz + 4095) / 4096) with g.
  rewrite u32_small by (unfold PGSIZE; lia). change (2 * PGSIZE) with 8192. change PGSIZE with 4096.
  destruct (Z.leb_spec KERNBASE (4096 * g + 8192)) as [Hbig|Hsmall].
  { cbn [orb]. eapply wp_bind, wp_in_mem, wp_of.
    - unfold allocuvm. by rewrite (proj2 (Z.leb_le _ _) Hbig).
    - apply ended_bad; [by eapply built_doomed|done]. }
  cbn [orb]. assert (forall n, npages (4096 * n) = n) as Hnp by (intros; unfold npages; Z.to_euclidean_division_equations; lia).
  assert (built k D (-1) (4096 * g) m Y l (kram k0) l0) as Hb1
    by (eapply built_size; [apply Hnp|lia|exact Hb]).
  replace (4096 * g + 8192) with (4096 * (g + 2)) in * by lia.
  eapply wp_bind, wp_in_mem, wp_mono.
  { apply (built_grow kend argp kdata f0 i dd Hke k D (-1) (4096 * g) m Y l (kram k0) l0 (4096 * (g + 2)) Hb1);
      [lia|rewrite Hnp; lia|by rewrite Hnp]. }
  intros r k1 [(-> & l1 & Hb2)|(-> & Hd & Hroom)].
  2: { apply ended_bad; [done|]. destruct (MAXARG <? _); [done|]. repeat case_match; simplify_eq/=; done. }
  destruct (Z.eqb_spec (4096 * (g + 2)) 0) as [?|_]; [lia|]. cbv iota.
  rewrite u32_small by (unfold KERNBASE in *; lia). replace (4096 * (g + 2) - 8192) with (4096 * g) by lia.
  eapply wp_bind, wp_in_mem, wp_mono; [eapply built_guard; [exact Hb2|rewrite Hnp; lia]|]. intros [] k2 Hb3.
  eapply wp_bind, wp_mono.
  { apply (push_args_run kend argp kdata f0 i dd f kp hs p Y l1 (kram k0) l0 D g (proj1 Hnr) argv k2 m (4096 * (g + 2)) 0 [] Hb3);
      [lia|clear; Z.to_euclidean_division_equations; lia|done|unfold MAXARG; lia]. }
  replace (4096 * (g + 2) - 4096) with (4096 * (g + 1)) by lia.
  intros [[sp us]|] s' (k3 & -> & H').
  2: { destruct H' as [Hd Hc]. apply ended_bad; [done|]. destruct (Z.ltb_spec MAXARG (Z.of_nat (length argv))); [done|].
       destruct Hc as [->|?]; [done|lia]. }
  destruct H' as (Hmax & m3 & ptrs & Ea & -> & Hb4 & Hsp & Hm4). rewrite Z.add_0_l in Hmax.
  rewrite (proj2 (Z.ltb_ge _ _) Hmax), Ea. cbn [app]. rewrite (args_length _ _ _ _ _ _ _ Ea).
  set (argc := Z.of_nat (length argv)) in *. unfold MAXARG in Hmax.
  rewrite (u32_small (sp - (argc + 1) * 4)) by (unfold KERNBASE in *; lia).
  set (us := 4294967295 :: argc :: sp - (argc + 1) * 4 :: ptrs ++ [0]).
  assert (Z.of_nat (length (words us)) = (3 + argc + 1) * 4) as Hlw.
  { rewrite length_words. subst us. cbn [length]. rewrite length_app, (args_length _ _ _ _ _ _ _ Ea).
    fold argc. cbn [length]. lia. }
  replace ((3 + argc + 1) * 4) with (4 * (4 + argc)) in * by lia.
  eapply wp_bind, wp_in_mem, wp_mono; [apply (push_words_run kend argp kdata f0 i dd Y l1 (kram k0) l0 D g (proj1 Hnr) k3 m3 sp (words us) (4 + argc) Hb4 Hsp);
    [lia|lia|done]|].
  intros r k4 [(-> & Hesp & Hb5)|(-> & Hesp & Hd)]; cbn [Z.ltb Z.compare].
  - rewrite (proj2 (Z.ltb_ge _ _) Hesp), u32_small by (unfold KERNBASE in *; lia). by eapply exec_commit_run.
  - rewrite (proj2 (Z.ltb_lt _ _) Hesp). by apply ended_bad.
Qed.

(** ** exec *)

Context (me : Z) (cw : nat) (path : list Z).
Context (Hme : pid p = me) (Hcw : cwd p = Some cw).

Abbreviation files := (files dev_read me cw path).
Abbreviation closed FS := (fl_closed dev_read me cw path _ FS).

(** How [exec] ends: as [ended] says, with the file system between operations. *)
Definition exec_post {found} (FS : files found) (argv : list (list Z)) (r : Z) (s' : est S) : Prop :=
  exists f', closed FS f' /\ ended f' path (found ≫= fun c => exec_image c argv) r s'.

Section Found.
Context (c : list Z) (FS : files (Some c)).
Abbreviation locked := (fl_locked dev_read me cw path _ FS).

(** Closing the file after a failure. *)
Lemma put_end_run ip f k argv :
  locked ip f -> intact k ->
  match exec_image c argv with Some im => Z.of_nat (length l0) <= room (im_sz im) | None => True end ->
  wp (in_fs (iunlockput me ip) ;; in_fs (lift tx_end) ;; ret (-1)) (mkest f (mkkvm k kp hs) p) (exec_post FS argv).
Proof.
  intros Hlk Hi Hr. eapply wp_bind, wp_in_fs, wp_mono; [by apply (fl_put _ _ _ _ _ FS)|].
  intros [] f1 Hop. eapply wp_bind, wp_in_fs, wp_mono; [by apply (fl_end _ _ _ _ _ FS)|].
  intros ? f2 Hcl. apply wp_ret. exists f2. split; [done|]. exists k. by right.
Qed.

Lemma load_run argv ip f :
  let e := elfhdr_of (slice c 0 52) in
  locked ip f -> short_args argv -> 52 <= Z.of_nat (length c) -> magic e = ELF_MAGIC ->
  wp (let! d := in_mem (setupkvm kend argp kdata) in
      if d =? 0 then bad kend argp me 0 (Some ip)
      else
        let! o := load_segments kend argp dev_read (Z.to_nat (phnum e)) d ip (phoff e) 0 in
        match o with
        | None => bad kend argp me d (Some ip)
        | Some sz =>
            in_fs (iunlockput me ip) ;;
            in_fs (lift tx_end) ;;
            exec_stack kend argp tsaddr me d sz e path argv
        end) (mkest f (mkkvm k0 kp hs) p) (exec_post FS argv).
Proof.
  intros e Hlk Hs Hlen Hmg.
  assert (heap k0 Y l0) as Hh0 by (by destruct Hold as [[? _]%vmem_heap _]).
  assert (exec_image c argv = match segments_spec c (Z.to_nat (phnum e)) (phoff e) (0, mem0) with
            | None => None | Some (sz, m) => stack_image (Exec.entry e) sz m argv end) as Eim.
  { unfold exec_image. rewrite (proj2 (Z.ltb_ge _ _) Hlen). fold e. by rewrite Hmg. }
  assert (forall im, exec_image c argv = Some im -> forall sz m, segments_spec c (Z.to_nat (phnum e)) (phoff e) (0, mem0) = Some (sz, m) ->
            65 <= room sz <= room (im_sz im)) as Hroom.
  { intros im Him sz m Hseg. rewrite Eim, Hseg in Him. pose proof (segments_mono _ _ _ _ _ _ _ Hseg).
    apply stack_image_size in Him; [|done]. split; [|by apply room_mono].
    assert (0 <= npages sz) by (unfold npages; Z.to_euclidean_division_equations; lia).
    unfold room. Z.to_euclidean_division_equations; lia. }
  eapply wp_bind, wp_in_mem, wp_mono; [by apply built_setup|].
  intros D k1 [(-> & Hl & l1 & Hh1 & Hp1 & Hk1)|(HD & l1 & Hb1)].
  { cbn [Z.eqb]. unfold bad. cbn [nz Z.eqb negb when]. apply wp_bind, wp_ret.
    apply put_end_run; [done|by eapply intact_heap|]. destruct (exec_image c argv) as [im|] eqn:Him; [|done].
    rewrite Eim in Him. destruct (segments_spec _ _ _ _) as [[sz m]|]; [|done]. specialize (Hroom im eq_refl sz m eq_refl). lia. }
  rewrite (proj2 (Z.eqb_neq _ _) HD).
  eapply wp_bind, wp_mono.
  { eapply load_segments_run; [done|exact Hlk|exact Hb1|done|]. apply get32_range. by eapply slice_bytes. }
  intros [sz|] s' (f' & k' & -> & Hlk' & H').
  - destruct H' as (m' & l' & Hseg & Hb' & Hz').
    eapply wp_bind, wp_in_fs, wp_mono; [by apply (fl_put _ _ _ _ _ FS)|].
    intros [] f1 Hop. eapply wp_bind, wp_in_fs, wp_mono; [by apply (fl_end _ _ _ _ _ FS)|].
    intros ? f2 Hcl. eapply wp_mono; [by eapply exec_stack_run|]. intros r s' He. exists f2. split; [done|].
    cbn [mbind option_bind]. rewrite Eim, Hseg. exact He.
  - destruct H' as [Hd Hr]. unfold bad. apply wp_bind, bad_memory; [done|]. intros k2 Hi2.
    apply put_end_run; [done|done|]. destruct (exec_image c argv) as [im|] eqn:Him; [|done].
    rewrite Eim in Him. destruct (segments_spec _ _ _ _) as [[sz m]|]; [|done]. specialize (Hroom im eq_refl sz m eq_refl). lia.
Qed.

Lemma exec_found argv f :
  closed FS f -> short_args argv ->
  wp (exec kend argp kdata tsaddr dev_read path argv) (mkest f (mkkvm k0 kp hs) p) (exec_post FS argv).
Proof.
  intros Hcl Hs. unfold exec. apply wp_bind, wp_gets. cbn [ecur]. rewrite Hme.
  eapply wp_bind, wp_in_fs, wp_mono; [by apply (fl_begin _ _ _ _ _ FS)|]. intros [] f1 Hop.
  apply wp_bind, wp_gets, wp_bind. cbn [ecur]. rewrite Hcw. apply wp_ret.
  eapply wp_bind, wp_in_fs, wp_mono; [by apply (fl_namei _ _ _ _ _ FS)|]. intros [ip|] f2; [|done]. intros Hnm.
  eapply wp_bind, wp_in_fs, wp_mono; [by apply (fl_ilock _ _ _ _ _ FS)|]. intros [] f3 Hlk.
  eapply wp_bind, wp_in_fs, wp_mono; [by apply (fl_readi _ _ _ _ _ FS ip c f3 0 52 eq_refl Hlk)|].
  intros rb f4 [-> Hlk4].
  assert (exec_image c argv = None -> wp (bad kend argp me 0 (Some ip)) (mkest f4 (mkkvm k0 kp hs) p) (exec_post FS argv)) as Hbad.
  { intros E. unfold bad. cbn [nz Z.eqb negb when]. apply wp_bind, wp_ret.
    apply put_end_run; [done| |by rewrite E]. destruct Hold as [[Hp _]%vmem_heap _].
    eapply intact_heap; [exact Hp|done|apply keeps_refl]. }
  pose proof (read_spec_cases dev_read me cw path c FS 0 52 ltac:(lia) ltac:(lia)) as Hr. rewrite Z.add_0_l in Hr.
  destruct (Z.leb_spec 52 (Z.of_nat (length c))) as [Hle|Hgt].
  - rewrite Hr. cbn [Z.eqb Pos.eqb negb].
    destruct (Z.eqb_spec (magic (elfhdr_of (slice c 0 52))) ELF_MAGIC) as [Hmg|Hmg]; cbn [negb].
    + by apply load_run.
    + apply Hbad. unfold exec_image. rewrite (proj2 (Z.eqb_neq _ _) Hmg). by destruct (_ <? _).
  - destruct (read_spec c 0 52) as [r bs]. destruct Hr as [Hr _]. cbn [fst] in Hr.
    destruct (Z.eqb_spec r 52) as [->|_]; [done|]. apply Hbad. unfold exec_image.
    by rewrite (proj2 (Z.ltb_lt _ _) Hgt).
Qed.

End Found.

Lemma exec_missing (FS : files None) argv f :
  closed FS f -> wp (exec kend argp kdata tsaddr dev_read path argv) (mkest f (mkkvm k0 kp hs) p) (exec_post FS argv).
Proof.
  intros Hcl. unfold exec. apply wp_bind, wp_gets. cbn [ecur]. rewrite Hme.
  eapply wp_bind, wp_in_fs, wp_mono; [by apply (fl_begin _ _ _ _ _ FS)|]. intros [] f1 Hop.
  apply wp_bind, wp_gets, wp_bind. cbn [ecur]. rewrite Hcw. apply wp_ret.
  eapply wp_bind, wp_in_fs, wp_mono; [by apply (fl_namei _ _ _ _ _ FS)|]. intros [ip|] f2; [done|]. intros Hop2.
  eapply wp_bind, wp_in_fs, wp_mono; [by apply (fl_end _ _ _ _ _ FS)|]. intros ? f3 Hcl3. apply wp_ret.
  exists f3. split; [done|]. exists k0. right. split_and!; [done|done| |done].
  destruct Hold as [[Hp _]%vmem_heap _]. eapply intact_heap; [exact Hp|done|apply keeps_refl].
Qed.

End Exec.

Lemma exec_image_pages c argv im : exec_image c argv = Some im -> im_sz im mod 4096 = 0.
Proof.
  unfold exec_image. destruct (_ <? _); [done|]. destruct (negb _); [done|].
  destruct (segments_spec _ _ _ _) as [[sz m]|]; [|done]. unfold stack_image. destruct (_ || _); [done|].
  destruct (args_spec _ _ _ _) as [[[sp m'] ptrs]|]; [|done]. destruct (_ <? _); [done|].
  intros [= <-]. cbn [im_sz]. unfold PGSIZE. Z.to_euclidean_division_equations; lia.
Qed.

(** C12: [exec] always returns.  When the file exists, is a program that fits and
    there is room for it, it returns 0: the process then has exactly the memory
    that [exec_image] computes from the file's contents and the arguments, the
    entry point, stack pointer, size and name to go with it, and the CPU uses its
    new page table; the old memory's pages are free.  In every other case it
    returns -1, and the process, its memory, the CPU and the free pages are as
    they were.  Either way the file system is between operations again.  The
    arguments are shorter than 32 MB each ([short_args]): a longer one takes the
    stack pointer below zero to addresses that have no page table, where
    [uva2ka] reads through a null pointer ([VmSpec.uva2ka_null]). *)
Theorem exec_spec {S : Type} {TO : TxOps S} (kend argp kdata : Z) (tsaddr : nat -> Z)
    (dev_read : Z -> option (Z -> M (fsst S) (Z * list Z))) (f0 : Z) (i : nat) (dd : Z)
    (k : kmem) (kp : Z) (hs : list hart) (h : hart) (p : proc) (T : gmap Z Z) (E : Z -> Z)
    (U : gmap Z (Z * Z)) (X l : list Z) (cw : nat) (path : list Z) (found : option (list Z))
    (FS : files dev_read (pid p) cw path found) (argv : list (list Z)) (f : fsst S)
    (Hke : KERNBASE < kend) (Hkd : kdata_ok kdata)
    (Hs : aspace kend f0 i dd k (pgdir p) T E U X l)
    (Hh : hs !! i = Some h) (Hgdt : (SEG_TSS < length (gdt h))%nat) (Hks : kstack p <> 0)
    (Hcw : cwd p = Some cw) (Hf : fl_closed dev_read (pid p) cw path found FS f) (Ha : short_args argv) :
  wp (exec kend argp kdata tsaddr dev_read path argv) (mkest f (mkkvm k kp hs) p) (fun r s' =>
    exists f' k' l', fl_closed dev_read (pid p) cw path found FS f' /\
    ((r = 0 /\ exists c im D T' E' U', found = Some c /\ exec_image c argv = Some im /\
        s' = mkest f' (mkkvm k' kp (<[i := switched i tsaddr (kstack p) D h]> hs)) (started path D im p) /\
        aspace kend f0 i dd k' D T' E' U' X l' /\
        (forall va, 0 <= va < im_sz im -> ubyte (kram k') U' va = Some (im_mem im va)) /\
        (forall n q fl, U' !! n = Some (q, fl) ->
           0 <= n < im_sz im / 4096 /\ user_ok fl = negb (n =? im_sz im / 4096 - 2)) /\
        D :: vals T' ++ upages U' ++ l' ≡ₚ pgdir p :: vals T ++ upages U ++ l) \/
     (r = -1 /\ s' = mkest f' (mkkvm k' kp hs) p /\ aspace kend f0 i dd k' (pgdir p) T E U X l' /\
        (forall va, ubyte (kram k') U va = ubyte (kram k) U va) /\ l' ≡ₚ l /\
        forall c im, found = Some c -> exec_image c argv = Some im -> Z.of_nat (length l) <= room (im_sz im))) /\
    keeps X (kram k) (kram k')).
Proof.
  assert (wp (exec kend argp kdata tsaddr dev_read path argv) (mkest f (mkkvm k kp hs) p)
    (exec_post kend kdata tsaddr dev_read f0 i dd k kp hs h p T E U X l (pid p) cw path FS argv)) as H.
  { destruct found as [c|]; [by eapply exec_found|by eapply exec_missing]. }
  eapply wp_mono; [exact H|]. clear H. intros r s' (f' & Hcl & k' & Hend). exists f', k'.
  destruct Hend as [(-> & im & D & l' & Him & -> & T' & E' & U' & [Hsp Hsz _ _ Hu Hfl Hby Hp Hk])|(-> & -> & (l' & Hsp & Hl & Hk) & Hroom)].
  - exists l'. split_and!; [done| |done]. left. split; [done|]. destruct found as [c|]; [|done]. cbn in Him.
    pose proof (exec_image_pages _ _ _ Him) as Hm.
    assert (npages (im_sz im) = im_sz im / 4096) as Hn by (unfold npages; Z.to_euclidean_division_equations; lia).
    exists c, im, D, T', E', U'. split_and!; [done|done|done|done| | |done].
    + intros va Hva. apply Hby. rewrite Hn. Z.to_euclidean_division_equations; lia.
    + intros n q fl HU. rewrite <- Hn. split; [apply Hu; eauto|]. rewrite (Hfl _ _ _ HU), Hn. by destruct (n =? _).
  - exists l'. split_and!; [done| |eapply keeps_mono; [|exact Hk]; sub]. right. split_and!; [done|done|done| |done|].
    + intros va. eapply ubyte_keeps; [exact Hk|sub].
    + intros c im -> Him. cbn in Hroom. by rewrite Him in Hroom.
Qed.

(** ** What the new program finds on its stack *)

(** The byte that the program reads at [va]: the page has to be the user's. *)
Definition user_byte (m : mem) (U : gmap Z (Z * Z)) (va : Z) : option Z :=
  match U !! (va / 4096) with
  | Some (q, fl) => if user_ok fl then Some (m (q + va mod 4096)) else None
  | None => None
  end.

(** The program reads [bs] from [va] on. *)
Definition user_holds (m : mem) (U : gmap Z (Z * Z)) (va : Z) (bs : list Z) : Prop :=
  forall j b, bs !! j = Some b -> user_byte m U (va + Z.of_nat j) = Some b.

(** The strings that [args_spec] puts on the stack stay there. *)
Lemma args_placed b argv : forall sp m sp' m' ptrs,
  args_spec b argv sp m = Some (sp', m', ptrs) -> 0 <= b ->
  sp' <= sp /\ (sp mod 4 = 0 -> sp' mod 4 = 0) /\ (forall x, sp <= x -> m' x = m x) /\
  forall j a, argv !! j = Some a -> exists ptr, ptrs !! j = Some ptr /\
    sp' <= ptr < sp /\ ptr + Z.of_nat (length a) + 1 <= sp /\ holds m' ptr (a ++ [0]).
Proof.
  induction argv as [|a argv IH]; intros sp m sp' m' ptrs H Hb; cbn [args_spec] in H; [simplify_eq; done|].
  set (sp1 := (sp - (Z.of_nat (length a) + 1)) / 4 * 4) in *. destruct (Z.ltb_spec sp1 b) as [|Hge]; [done|].
  destruct (args_spec b argv sp1 (poke m sp1 (a ++ [0]))) as [[[sp2 m2] ptrs2]|] eqn:E; [|done].
  injection H as -> -> <-. destruct (IH _ _ _ _ _ E Hb) as (Hle & Hm4 & Hab & Hst).
  assert (sp1 + Z.of_nat (length (a ++ [0])) <= sp) as Hfit
    by (rewrite length_app; cbn [length]; subst sp1; Z.to_euclidean_division_equations; lia).
  rewrite length_app in Hfit. cbn [length] in Hfit. split_and!; [lia| | |].
  - intros _. apply Hm4. subst sp1. by rewrite Z.mod_mul.
  - intros x Hx. rewrite Hab by lia. apply poke_above. rewrite length_app. cbn. lia.
  - intros [|j] a' Hj; cbn in Hj |- *.
    + injection Hj as <-. exists sp1. split_and!; [done|lia|lia|lia|]. eapply holds_same; [apply holds_poke|exact Hab|lia].
    + destruct (Hst j a' Hj) as (ptr & Hp & Hr & Hlen & Hh). exists ptr. split_and!; [done|lia|lia|lia|done].
Qed.

(** The stack of the image: the return address, the count, the address of the
    array, the array and its null, and each pointer at its argument. *)
Lemma image_arguments c argv im :
  exec_image c argv = Some im ->
  exists ptrs : list Z, length ptrs = length argv /\
    holds (im_mem im) (im_esp im)
      (words ([4294967295; Z.of_nat (length argv); im_esp im + 12] ++ ptrs ++ [0])) /\
    (forall j a, argv !! j = Some a -> exists ptr, ptrs !! j = Some ptr /\
       holds (im_mem im) ptr (a ++ [0]) /\
       im_esp im + 4 * (4 + Z.of_nat (length argv)) <= ptr /\ ptr + Z.of_nat (length a) + 1 <= im_sz im) /\
    0 <= im_sz im - 4096 <= im_esp im /\ im_esp im + 4 * (4 + Z.of_nat (length argv)) <= im_sz im /\
    im_sz im < KERNBASE /\ im_esp im mod 4 = 0.
Proof.
  unfold exec_image. intros Him. destruct (_ <? _); [done|]. destruct (negb _); [done|].
  destruct (segments_spec _ _ _ _) as [[sz m]|] eqn:Eseg; [|done]. apply segments_mono in Eseg.
  unfold stack_image in Him. set (top := 4096 * npages sz + 2 * PGSIZE) in *. set (argc := Z.of_nat (length argv)) in *.
  destruct (Z.leb_spec KERNBASE top) as [|Htop]; [done|]. destruct (Z.ltb_spec MAXARG argc) as [|Hac]; [done|]. cbn [orb] in Him.
  destruct (args_spec (top - PGSIZE) argv top m) as [[[sp m'] ptrs]|] eqn:Ea; [|done].
  set (esp := sp - (3 + argc + 1) * 4) in *. destruct (Z.ltb_spec esp (top - PGSIZE)) as [|Hesp]; [done|].
  set (ws := [4294967295; argc; sp - (argc + 1) * 4] ++ ptrs ++ [0]) in *. injection Him as <-.
  cbn [im_mem im_esp im_sz]. assert (0 <= npages sz) by (unfold npages; Z.to_euclidean_division_equations; lia).
  unfold PGSIZE, MAXARG in *.
  destruct (args_placed _ _ _ _ _ _ _ Ea ltac:(lia)) as (Hle & Hm4 & Hab & Hst).
  pose proof (args_length _ _ _ _ _ _ _ Ea) as Hlp.
  exists ptrs. replace (esp + 12) with (sp - (argc + 1) * 4) by lia. fold ws.
  split_and!; [done|apply holds_poke| |lia|lia|lia|lia|].
  - intros j a Hj. destruct (Hst j a Hj) as (ptr & Hptr & Hr & Hlen & Hh). exists ptr. split_and!; [done| |lia|lia].
    eapply holds_same; [exact Hh| |apply Hr]. intros x Hx. apply poke_above. rewrite length_words. subst ws.
    cbn [length app]. rewrite length_app, Hlp. cbn [length]. lia.
  - subst esp. assert (sp mod 4 = 0) as Hs4 by (apply Hm4; subst top; Z.to_euclidean_division_equations; lia).
    Z.to_euclidean_division_equations; lia.
Qed.

(** What the image has in its last page, the program reads there. *)
Lemma user_holds_top im m U sz :
  sz mod 4096 = 0 ->
  (forall va, 0 <= va < 4096 * npages sz -> ubyte m U va = Some (im va)) ->
  (forall n q fl, U !! n = Some (q, fl) -> fl = if n =? sz / 4096 - 2 then 3 else 7) ->
  forall a bs, holds im a bs -> 0 <= sz - 4096 <= a -> a + Z.of_nat (length bs) <= sz -> user_holds m U a bs.
Proof.
  intros Hm Hby Hfl a bs Hh Ha Hb j b Hj. pose proof (lookup_lt_Some _ _ _ Hj) as Hlt.
  specialize (Hby (a + Z.of_nat j)). unfold ubyte in Hby. unfold user_byte.
  destruct (U !! ((a + Z.of_nat j) / 4096)) as [[q fl]|] eqn:EU.
  - rewrite (Hfl _ _ _ EU). destruct (Z.eqb_spec ((a + Z.of_nat j) / 4096) (sz / 4096 - 2)) as [?|_];
      [Z.to_euclidean_division_equations; lia|]. change (user_ok 7) with true. cbv iota. rewrite Hby.
    + by rewrite (Hh _ _ Hj).
    + unfold npages. Z.to_euclidean_division_equations; lia.
  - discriminate Hby. unfold npages. Z.to_euclidean_division_equations; lia.
Qed.

(** C13: when the file is a program that fits and there is room for it, [exec]
    returns 0 and the process it leaves reads its arguments back through its new
    page table: at its stack pointer, which is aligned, come the return address,
    the argument count, the address of the pointer array, the array and its null,
    and the [j]th pointer leads to the [j]th argument and a null byte, all of it
    in pages the user may read. *)
Theorem exec_arguments {S : Type} {TO : TxOps S} (kend argp kdata : Z) (tsaddr : nat -> Z)
    (dev_read : Z -> option (Z -> M (fsst S) (Z * list Z))) (f0 : Z) (i : nat) (dd : Z)
    (k : kmem) (kp : Z) (hs : list hart) (h : hart) (p : proc) (T : gmap Z Z) (E : Z -> Z)
    (U : gmap Z (Z * Z)) (X l : list Z) (cw : nat) (path c : list Z)
    (FS : files dev_read (pid p) cw path (Some c)) (argv : list (list Z)) (f : fsst S) (im : image)
    (Hke : KERNBASE < kend) (Hkd : kdata_ok kdata)
    (Hs : aspace kend f0 i dd k (pgdir p) T E U X l)
    (Hh : hs !! i = Some h) (Hgdt : (SEG_TSS < length (gdt h))%nat) (Hks : kstack p <> 0)
    (Hcw : cwd p = Some cw) (Hf : fl_closed dev_read (pid p) cw path (Some c) FS f) (Ha : short_args argv)
    (Him : exec_image c argv = Some im) (Hroom : room (im_sz im) < Z.of_nat (length l)) :
  wp (exec kend argp kdata tsaddr dev_read path argv) (mkest f (mkkvm k kp hs) p) (fun r s' =>
    r = 0 /\ exists T' E' U' l' (ptrs : list Z),
      let k' := kmm (evm s') in let esp := tf_esp (tf (ecur s')) in
      aspace kend f0 i dd k' (pgdir (ecur s')) T' E' U' X l' /\
      length ptrs = length argv /\
      user_holds (kram k') U' esp (words ([4294967295; Z.of_nat (length argv); esp + 12] ++ ptrs ++ [0])) /\
      (forall j a, argv !! j = Some a -> exists ptr, ptrs !! j = Some ptr /\
         0 <= ptr < KERNBASE /\ user_holds (kram k') U' ptr (a ++ [0])) /\
      0 <= esp < KERNBASE /\ esp mod 4 = 0).
Proof.
  eapply wp_mono; [by eapply (exec_found kend argp kdata tsaddr dev_read f0 i dd Hke Hkd k kp hs h p T E U X l Hs Hh Hgdt Hks)|].
  intros r s' (f' & _ & k' & Hend).
  destruct Hend as [(-> & im' & D & l' & Him' & -> & T' & E' & U' & [Hsp _ _ _ Hu Hfl Hby _ _])|(_ & _ & _ & Hno)].
  2: { cbn in Hno. rewrite Him in Hno. lia. }
  cbn in Him'. rewrite Him in Him'. injection Him' as <-. split; [done|].
  pose proof (exec_image_pages _ _ _ Him) as Hm.
  destruct (image_arguments _ _ _ Him) as (ptrs & Hlp & Hw & Hst & Hlo & Hhi & Hsz & H4).
  assert (forall a bs, holds (im_mem im) a bs -> im_sz im - 4096 <= a -> a + Z.of_nat (length bs) <= im_sz im ->
            user_holds (kram k') U' a bs) as Hub by (intros; by eapply (user_holds_top (im_mem im) (kram k') U' (im_sz im)); [| | |done|lia|]).
  exists T', E', U', l', ptrs. cbn [evm kmm ecur]. split_and!; [done|done| | |cbn; lia|cbn; lia|done].
  - apply Hub; [done|cbn; lia|]. rewrite length_words, !length_app, Hlp. cbn [length started set_entry tf_esp tf set_tf]. lia.
  - intros j a Hj. destruct (Hst j a Hj) as (ptr & Hptr & Hh' & Hge & Hle). exists ptr. split_and!; [done|lia|lia|].
    apply Hub; [done|lia|]. rewrite length_app. cbn [length]. lia.
Qed.

(** ** Running "/a" *)

(** Process 7, whose current directory is entry 0 and whose memory is [D]. *)
Definition demo_caller (D : Z) : proc :=
  set_cwd (Some 0%nat) (set_kstack 2149580800 (set_pid 7 (set_pgdir D proc0))).
Definition demo_hart : hart := mkhart (repeat (SEG 0 0 0 0) 6) 0 0 0 0 0 0.

Lemma exec_spec_witness : exists s D k f,
  aspace demo_kend 514 1 0 k D s (fun n => kern_pte demo_kdata (4096 * n)) ∅ [] (f : list Z) /\
  exists t, wp (exec (TO := log_tx_ops (BO := bio_ops 7 1000)) demo_kend 0 demo_kdata (fun _ => 0) (fun _ => None)
      [47; 97] [[97]; [120; 121]])
    (mkest (mkfs t demo_sb tree_ic) (mkkvm k 0 [demo_hart; demo_hart]) (demo_caller D))
    (fun r s' => r = 0 /\ tf_eip (tf (ecur s')) = 0 /\ sz (ecur s') = 12288).
Proof.
  destruct demo_heap as (s & _ & Hh). destruct (demo_aspace s Hh) as (D & k & T & l & _ & Hs & Hl).
  exists T, D, k, l. split; [exact Hs|]. destruct tree_closed as [t Ht]. exists t.
  eapply wp_mono.
  - apply (exec_spec demo_kend 0 demo_kdata (fun _ => 0) (fun _ => None) 514 1 0 k 0 [demo_hart; demo_hart] demo_hart
      (demo_caller D) T (fun n => kern_pte demo_kdata (4096 * n)) ∅ [] l 0 [47; 97] _ tree_files
      [[97]; [120; 121]] (mkfs t demo_sb tree_ic) demo_kend_high demo_kdata_ok).
    + exact Hs.
    + reflexivity.
    + cbn. unfold SEG_TSS. lia.
    + discriminate.
    + reflexivity.
    + exists t, tree_ic. split; [reflexivity|]. split; [exact Ht|]. split; [exact (tree_quiet 7)|apply extra_refl].
    + repeat (apply Forall_cons; split; [cbn; lia|]). apply Forall_nil_2.
  - assert (Him : option_map (fun im => (im_sz im, im_entry im)) (exec_image prog_bytes [[97]; [120; 121]]) = Some (12288, 0))
      by (vm_compute; reflexivity).
    destruct (exec_image prog_bytes [[97]; [120; 121]]) as [im|] eqn:E; [|discriminate Him]. injection Him as Hsz Hen.
    intros r s' (f' & k' & l' & _ & [(-> & c & im' & D' & T' & E' & U' & Hf & Him & -> & _)|(_ & _ & _ & _ & _ & Hroom)] & _).
    + rewrite tree_found in Hf. injection Hf as <-. rewrite E in Him. injection Him as <-. cbn. split_and!; done.
    + exfalso. specialize (Hroom prog_bytes im tree_found E). rewrite Hsz in Hroom. change (room 12288) with 70 in Hroom. lia.
Defined.

Lemma exec_arguments_witness : exists s D k f,
  aspace demo_kend 514 1 0 k D s (fun n => kern_pte demo_kdata (4096 * n)) ∅ [] (f : list Z) /\
  exists t, wp (exec (TO := log_tx_ops (BO := bio_ops 7 1000)) demo_kend 0 demo_kdata (fun _ => 0) (fun _ => None)
      [47; 97] [[97]; [120; 121]])
    (mkest (mkfs t demo_sb tree_ic) (mkkvm k 0 [demo_hart; demo_hart]) (demo_caller D))
    (fun r s' => r = 0 /\ exists U' ptr, user_holds (kram (kmm (evm s'))) U' ptr [120; 121; 0]).
Proof.
  destruct demo_heap as (s & _ & Hh). destruct (demo_aspace s Hh) as (D & k & T & l & _ & Hs & Hl).
  exists T, D, k, l. split; [exact Hs|]. destruct tree_closed as [t Ht]. exists t.
  assert (Hsz : option_map im_sz (exec_image prog_bytes [[97]; [120; 121]]) = Some 12288) by (vm_compute; reflexivity).
  destruct (exec_image prog_bytes [[97]; [120; 121]]) as [im|] eqn:E; [|discriminate Hsz]. injection Hsz as Hsz.
  eapply wp_mono.
  - apply (exec_arguments demo_kend 0 demo_kdata (fun _ => 0) (fun _ => None) 514 1 0 k 0 [demo_hart; demo_hart] demo_hart
      (demo_caller D) T (fun n => kern_pte demo_kdata (4096 * n)) ∅ [] l 0 [47; 97] prog_bytes tree_files
      [[97]; [120; 121]] (mkfs t demo_sb tree_ic) im demo_kend_high demo_kdata_ok).
    + exact Hs.
    + reflexivity.
    + cbn. unfold SEG_TSS. lia.
    + discriminate.
    + reflexivity.
    + exists t, tree_ic. split; [reflexivity|]. split; [exact Ht|]. split; [exact (tree_quiet 7)|apply extra_refl].
    + repeat (apply Forall_cons; split; [cbn; lia|]). apply Forall_nil_2.
    + exact E.
    + rewrite Hsz. change (room 12288) with 70. lia.
  - intros r s' (-> & T' & E' & U' & l' & ptrs & _ & _ & _ & Hst & _). split; [reflexivity|].
    destruct (Hst 1%nat [120; 121] eq_refl) as (ptr & _ & _ & Hp). exists U', ptr. exact Hp.
Defined.
