(* ===== verification/Trap.v ===== *)
(** * Traps and system call dispatch ([trap.c], [syscall.c])

    The interrupt descriptor table, the dispatch of system calls, and [trap]
    from the entry of the kernel to its return.  The interrupt handlers of the
    devices are the class [Devices]; the disk is the memory disk, whose handler
    does nothing.  What [trap] prints is left out. *)
From S2P Require Import Prelude Hw Str Proc Sleeplock Tx Fs File Syscall Sysfile.

(** ** The descriptor table *)

Definition T_SYSCALL : Z := 64.
Definition STS_IG32 : Z := 14.
Definition STS_TG32 : Z := 15.
Definition KCODE_SEL : Z := Z.shiftl 1 3.

Record gatedesc := mkgate {
  off_15_0 : Z; g_cs : Z; g_args : Z; g_rsv1 : Z; g_type : Z; g_s : Z; g_dpl : Z; g_p : Z;
  off_31_16 : Z;
}.

Definition SETGATE (istrap : bool) (sel off dpl : Z) : gatedesc :=
  mkgate (Z.land off 65535) sel 0 0 (if istrap then STS_TG32 else STS_IG32) 0 dpl 1
    (Z.shiftr off 16).

(** [vectors]: the entry points of vectors.S. *)
Definition tvinit (vectors : list Z) : list gatedesc :=
  let idt := (fun v => SETGATE false KCODE_SEL v 0) <$> vectors in
  match vectors !! Z.to_nat T_SYSCALL with
  | Some v => <[Z.to_nat T_SYSCALL := SETGATE true KCODE_SEL v 3]> idt
  | None => idt
  end.

(** Vector [i] of the table leads to its entry point through the kernel's code
    segment, and the system call's is the only one that user code may raise. *)
Lemma tvinit_gates vectors i v : vectors !! i = Some v -> 0 <= v < 4294967296 ->
  exists g, tvinit vectors !! i = Some g /\ off_15_0 g + 65536 * off_31_16 g = v /\
    g_cs g = KCODE_SEL /\ g_p g = 1 /\ (g_dpl g = 3 <-> i = 64%nat) /\
    g_type g = if Nat.eqb i 64 then STS_TG32 else STS_IG32.
Proof.
  intros Hv Hr.
  assert (Z.land v 65535 + 65536 * Z.shiftr v 16 = v) as Ev.
  { change 65535 with (Z.ones 16). rewrite Z.land_ones, Z.shiftr_div_pow2 by lia.
    change (2 ^ 16) with 65536. pose proof (Z.div_mod v 65536). lia. }
  unfold tvinit. change (Z.to_nat T_SYSCALL) with 64%nat. destruct (decide (i = 64%nat)) as [->|Hi].
  - rewrite Hv. eexists. split; [eapply lookup_upd; by rewrite list_lookup_fmap, Hv|]. done.
  - exists (SETGATE false KCODE_SEL v 0). rewrite (proj2 (Nat.eqb_neq i 64) Hi). split; [|done].
    assert (((fun v => SETGATE false KCODE_SEL v 0) <$> vectors) !! i = Some (SETGATE false KCODE_SEL v 0))
      as E by (by rewrite list_lookup_fmap, Hv).
    destruct (vectors !! 64%nat); [by rewrite list_lookup_insert_ne by done|done].
Qed.

(** ** Devices *)

Class Devices (W : Type) := {
  dv_kbdintr : M W unit;
  dv_uartintr : M W unit;
  dv_lapiceoi : M W unit;
}.

Section Trap.
Context {S K : Type} {TO : TxOps S} {PO : PageOps K} {SV : Services (wst S K)} {DV : Devices (wst S K)}.
Context (forkret trapret : Z).
Context (dev_read : Z -> option (Z -> M (fsst S) (Z * list Z))).
Context (dev_write : Z -> option (list Z -> M (fsst S) Z)).
Context (junk : Z -> list Z).
Context (exec : nat -> list Z -> list (list Z) -> M (pst (wst S K)) Z).

Abbreviation SM := (M (pst (wst S K))).

(** ** syscall.c *)

(** The handler of call [num] for process [cur], whose pid and [killed] flag are
    those of [p]. *)
Definition syscalls (cur : nat) (p : proc) (num : Z) : option (SM Z) :=
  let me := pid p in
  let was_killed := nz (killed p) in
  match num with
  | 1 => Some (sys_fork forkret trapret cur)
  | 2 => Some (sys_exit cur)
  | 3 => Some (sys_wait cur)
  | 4 => Some (sys_pipe cur me junk)
  | 5 => Some (sys_read cur me was_killed dev_read)
  | 6 => Some (sys_kill cur)
  | 7 => Some (sys_exec cur (exec cur))
  | 8 => Some (sys_fstat cur me)
  | 9 => Some (sys_chdir cur me dev_read)
  | 10 => Some (sys_dup cur)
  | 11 => Some (sys_getpid cur)
  | 12 => Some (sys_sbrk cur)
  | 13 => Some (sys_sleep cur)
  | 14 => Some sys_uptime
  | 15 => Some (sys_open cur me dev_read dev_write)
  | 16 => Some (sys_write cur me was_killed dev_write)
  | 17 => Some (sys_mknod cur me dev_read dev_write)
  | 18 => Some (sys_unlink cur me dev_read dev_write)
  | 19 => Some (sys_link cur me dev_read dev_write)
  | 20 => Some (sys_mkdir cur me dev_read dev_write)
  | 21 => Some (sys_close cur me)
  | 22 => Some (sys_getpinfo cur)
  | 23 => Some (call_settickets cur)
  | _ => None
  end.

(** [curproc->tf->eax = r]. *)
Definition set_result (cur : nat) (r : Z) : SM unit := on cur (fun q => set_tf (set_eax (u32 r) (tf q)) q).

Definition syscall (cur : nat) : SM unit :=
  let! p := slot cur in
  let num := s32 (tf_eax (tf p)) in
  match syscalls cur p num with
  | Some h => let! r := h in set_result cur r
  | None => set_result cur (-1)
  end.

(** ** trap.c *)

Definition ideintr : SM unit := ret tt.
Definition lapiceoi : SM unit := inw dv_lapiceoi.

Definition exit_if_killed (cur : nat) : SM unit :=
  let! p := slot cur in
  if nz (killed p) then exit cur else ret tt.

(** [myproc() && myproc()->killed && (tf->cs&3) == DPL_USER]. *)
Definition exit_if_killed_user (my : option nat) (t : trapframe) : SM unit :=
  match my with
  | Some cur => if Z.land (tf_cs t) 3 =? 3 then exit_if_killed cur else ret tt
  | None => ret tt
  end.

Definition tick : SM unit :=
  acquire_tl ;;
  inw (modify (fun w => mkwst (um w) (u32 (clock w + 1)) (kern w))) ;;
  wakeup (Some ticks_chan) ;;
  release_tl.

(** The switch on the trap number. *)
Definition handle (cpu : nat) (my : option nat) (t : trapframe) : SM unit :=
  let n := tf_trapno t in
  if n =? T_IRQ0 + IRQ_TIMER then when (Nat.eqb cpu 0) tick ;; lapiceoi
  else if n =? T_IRQ0 + IRQ_IDE then ideintr ;; lapiceoi
  else if n =? T_IRQ0 + IRQ_IDE + 1 then ret tt
  else if n =? T_IRQ0 + IRQ_KBD then inw dv_kbdintr ;; lapiceoi
  else if n =? T_IRQ0 + IRQ_COM1 then inw dv_uartintr ;; lapiceoi
  else if (n =? T_IRQ0 + 7) || (n =? T_IRQ0 + IRQ_SPURIOUS) then lapiceoi
  else
    match my with
    | None => panic "trap"
    | Some cur =>
        if Z.land (tf_cs t) 3 =? 0 then panic "trap"
        else on cur (set_killed 1)
    end.

(** [cpu]: what cpuid() returns; [my]: what myproc() returns. *)
Definition trap (cpu : nat) (my : option nat) (t : trapframe) : SM unit :=
  if tf_trapno t =? T_SYSCALL then
    let! cur := deref my in
    exit_if_killed cur ;;
    on cur (set_tf t) ;;
    syscall cur ;;
    exit_if_killed cur
  else
    handle cpu my t ;;
    exit_if_killed_user my t ;;
    match my with
    | Some cur =>
        let! p := slot cur in
        if bool_decide (state p = RUNNING) && (tf_trapno t =? T_IRQ0 + IRQ_TIMER)
        then yield cur else ret tt
    | None => ret tt
    end ;;
    exit_if_killed_user my t.

(** [trap] from [yield]'s return on. *)
Definition trap_resume (cur : nat) (t : trapframe) : SM unit :=
  yield_resume ;; exit_if_killed_user (Some cur) t.

(** [trap] from the return of a [sleep] or [yield] inside a system call on:
    [rest] is what the handler still does. *)
Definition syscall_resume (cur : nat) (rest : SM Z) : SM unit :=
  let! r := rest in
  set_result cur r ;;
  exit_if_killed cur.

(** ** Properties *)

Definition no_return {A} (m : SM A) : Prop := forall s a s', m s <> Ret a s'.

Lemma no_return_then {A B} (m : SM A) (f : A -> SM B) :
  (forall a, no_return (f a)) -> no_return (bind m f).
Proof. intros Hf s b s' (a & s1 & _ & H)%bind_inv. by eapply Hf. Qed.

Lemma exit_no_return cur : no_return (exit cur).
Proof.
  unfold exit, exit_locked. repeat (apply no_return_then; intros ?). by intros ? ? ?.
Qed.

(** What follows a call of [exit] is not reached. *)
Lemma exit_cuts cur (f : unit -> SM unit) s : bind (exit cur) f s = exit cur s.
Proof.
  unfold bind. pose proof (exit_no_return cur s) as Hn. destruct (exit cur s) as [a s'|?|]; [|done..]. by destruct (Hn a s').
Qed.

Lemma slot_ret i (s : pst (wst S K)) p : procs s !! i = Some p -> slot i s = Ret p s.
Proof. intros H. unfold slot. by rewrite H. Qed.

Lemma exit_if_killed_ret cur s s' :
  exit_if_killed cur s = Ret tt s' -> s' = s /\ exists p, procs s !! cur = Some p /\ killed p = 0.
Proof.
  unfold exit_if_killed. intros (p & s1 & Hp & H)%bind_inv.
  unfold slot, bind, get, deref in Hp. destruct (procs s !! cur) as [q|] eqn:E; [|done].
  injection Hp as -> ->. destruct (nz (killed p)) eqn:Ek; [by apply exit_no_return in H|].
  injection H as ->. split; [done|]. exists p. split; [done|]. unfold nz in Ek. b2p. done.
Qed.

Lemma last_check cur t s s' :
  Z.land (tf_cs t) 3 = 3 -> exit_if_killed_user (Some cur) t s = Ret tt s' ->
  exists p, procs s' !! cur = Some p /\ killed p = 0.
Proof.
  intros Hc. unfold exit_if_killed_user. rewrite Hc. cbn [Z.eqb Pos.eqb].
  intros [-> H]%exit_if_killed_ret. done.
Qed.

(** The test for a process that is marked. *)
Lemma exit_if_killed_exits cur s p (f : unit -> SM unit) : procs s !! cur = Some p -> killed p <> 0 ->
  bind (exit_if_killed cur) f s = exit cur s.
Proof.
  intros Hp Hk. unfold exit_if_killed. rewrite bind_assoc, (bind_ret _ _ _ _ _ (slot_ret _ _ _ Hp)).
  unfold nz. rewrite (proj2 (Z.eqb_neq _ _) Hk). apply exit_cuts.
Qed.

(** C34: a killed process does not get back to user mode.  When [trap], entered
    from user mode for whatever reason, returns, or returns after the process had
    to yield or slept in a system call, whatever the call had still to do, the
    process is not marked.  A process that is marked when it makes a system call
    exits without the call; one that is marked when the switch on any other trap
    is over, also by the trap itself, exits before it could yield. *)
Theorem killed_never_returns (cpu cur : nat) (t : trapframe) (s : pst (wst S K))
    (Hu : Z.land (tf_cs t) 3 = 3) :
  (forall s', trap cpu (Some cur) t s = Ret tt s' \/ trap_resume cur t s = Ret tt s' \/
     (exists rest, syscall_resume cur rest s = Ret tt s') ->
     exists p, procs s' !! cur = Some p /\ killed p = 0) /\
  (forall p, tf_trapno t = T_SYSCALL -> procs s !! cur = Some p -> killed p <> 0 ->
     trap cpu (Some cur) t s = exit cur s) /\
  (forall s1 p, tf_trapno t <> T_SYSCALL -> handle cpu (Some cur) t s = Ret tt s1 ->
     procs s1 !! cur = Some p -> killed p <> 0 -> trap cpu (Some cur) t s = exit cur s1).
Proof.
  split_and!.
  - intros s' [Ht|[Ht|[rest Ht]]].
    + unfold trap in Ht. destruct (tf_trapno t =? T_SYSCALL).
      * apply bind_inv in Ht as (c & s0 & Hc & Ht). injection Hc as <- <-.
        apply bind_inv in Ht as (? & s1 & _ & Ht). apply bind_inv in Ht as (? & s2 & _ & Ht).
        apply bind_inv in Ht as (? & s3 & _ & Ht). by apply exit_if_killed_ret in Ht as [-> H].
      * apply bind_inv in Ht as (? & s1 & _ & Ht). apply bind_inv in Ht as (? & s2 & _ & Ht).
        apply bind_inv in Ht as (? & s3 & _ & Ht). by eapply last_check.
    + apply bind_inv in Ht as (? & s1 & _ & Ht). by eapply last_check.
    + apply bind_inv in Ht as (? & s1 & _ & Ht). apply bind_inv in Ht as (? & s2 & _ & Ht).
      by apply exit_if_killed_ret in Ht as [-> H].
  - intros p Ht Hp Hk. unfold trap. rewrite Ht. change (T_SYSCALL =? T_SYSCALL) with true. cbv iota.
    cbn [deref]. unfold bind at 1. cbn [ret]. by eapply exit_if_killed_exits.
  - intros s1 p Ht Hh Hp Hk. unfold trap. rewrite (proj2 (Z.eqb_neq _ _) Ht), (bind_ret _ _ _ _ _ Hh).
    unfold exit_if_killed_user at 1. rewrite Hu. change (3 =? 3) with true. cbv iota. by eapply exit_if_killed_exits.
Qed.

(** A system call with an unknown number: -1 in [eax] and nothing else. *)
Theorem syscall_unknown cur p (s : pst (wst S K)) :
  procs s !! cur = Some p -> syscalls cur p (s32 (tf_eax (tf p))) = None ->
  syscall cur s =
  Ret tt (set_procs (<[cur := set_tf (set_eax 4294967295 (tf p)) p]> (procs s)) s).
Proof.
  intros Hp Hn. unfold syscall. rewrite (bind_ret _ _ _ _ _ (slot_ret _ _ _ Hp)), Hn.
  unfold set_result. by rewrite (on_run _ _ _ _ Hp).
Qed.

(** The clock interrupt on CPU 0, with no lock held: the tick is counted, sleepers
    on the clock wake up, and the running process goes back to the scheduler. *)
Theorem timer_tick cur p t (s : pst (wst S K)) w' :
  procs s !! cur = Some p -> state p = RUNNING -> killed p = 0 -> locked s = false -> ncli s = 0 ->
  tf_trapno t = 32 ->
  dv_lapiceoi (mkwst (um (world s)) (u32 (clock (world s) + 1)) (kern (world s))) = Ret tt w' ->
  exists s', trap 0 (Some cur) t s = Wait "sched" s' /\ world s' = w' /\ locked s' = true /\
    procs s' !! cur = Some (set_state RUNNABLE p) /\
    forall j q, j <> cur -> procs s !! j = Some q ->
      procs s' !! j = Some (if bool_decide (state q = SLEEPING) && bool_decide (chan q = Some ticks_chan)
                            then set_state RUNNABLE q else q).
Proof.
  intros Hp Hr Hk Hl Hn Ht Hd. destruct s as [ps np ip lk nc w]. cbn in Hp, Hl, Hn, Hd. subst lk nc.
  set (wake := fun q : proc => if bool_decide (state q = SLEEPING) && bool_decide (chan q = Some ticks_chan)
                            then set_state RUNNABLE q else q) in *.
  assert (map wake ps !! cur = Some p) as Hp'.
  { rewrite list_lookup_fmap, Hp. cbn. unfold wake. rewrite bool_decide_eq_false_2 by congruence. done. }
  set (w1 := mkwst (um w) (u32 (clock w + 1)) (kern w)) in *.
  assert (tick (mkpst ps np ip false 0 w) = Ret tt (mkpst (map wake ps) np ip false 0 w1)) as Etick by done.
  set (s1 := mkpst (map wake ps) np ip false 0 w').
  assert (procs s1 !! cur = Some p) as Hs1 by exact Hp'.
  assert (handle 0 (Some cur) t (mkpst ps np ip false 0 w) = Ret tt s1) as Eh.
  { unfold handle. rewrite Ht. change (32 =? T_IRQ0 + IRQ_TIMER) with true.
    cbn [when Nat.eqb]. rewrite (bind_ret _ _ _ _ _ Etick).
    exact (zoom_ret world set_world _ (mkpst (map wake ps) np ip false 0 w1) _ _ Hd). }
  assert (exit_if_killed_user (Some cur) t s1 = Ret tt s1) as Ex.
  { unfold exit_if_killed_user. destruct (_ =? 3); [|done]. unfold exit_if_killed.
    rewrite (bind_ret _ _ _ _ _ (slot_ret _ _ _ Hs1)), Hk. done. }
  set (s2 := mkpst (<[cur := set_state RUNNABLE p]> (map wake ps)) np ip true 1 w').
  assert (yield cur s1 = Wait "sched" s2) as Ey.
  { unfold yield, acquire_pt. rewrite (bind_ret _ _ _ tt (mkpst (map wake ps) np ip true 1 w')) by done.
    rewrite (bind_ret _ _ _ _ _ (on_run _ _ (mkpst (map wake ps) np ip true 1 w') _ Hp')). fold s2. unfold sched. rewrite (bind_ret _ _ _ s2 s2) by done. cbn [locked ncli s2 negb Z.eqb Pos.eqb].
    rewrite (bind_ret _ _ _ _ _ (slot_ret cur s2 (set_state RUNNABLE p) ltac:(by apply (lookup_upd _ _ p)))).
    done. }
  exists s2. split_and!; [|done|done|by apply (lookup_upd _ _ p)|].
  - unfold trap. rewrite Ht. change (32 =? T_SYSCALL) with false. cbv iota.
    rewrite (bind_ret _ _ _ _ _ Eh), (bind_ret _ _ _ _ _ Ex). unfold bind at 1.
    rewrite (bind_ret _ _ _ _ _ (slot_ret _ _ _ Hs1)), bool_decide_eq_true_2 by done.
    change (32 =? T_IRQ0 + IRQ_TIMER) with true. cbn [andb]. by rewrite Ey.
  - intros j q Hj Hq. cbn in Hq |- *. rewrite list_lookup_insert_ne by done. by rewrite list_lookup_fmap, Hq.
Qed.

End Trap.

(** ** A call of getpid *)

Module TrapDemo.

Definition no_tx : TxOps unit := {|
  tx_read _ _ := ret 0%nat; tx_data _ := ret []; tx_set _ _ := ret tt; tx_log _ := ret tt;
  tx_relse _ := ret tt; tx_begin := ret tt; tx_end := ret false |}.
Definition no_pages : PageOps unit := {| pg_alloc := ret 0; pg_free _ := ret tt |}.
Definition no_devices : Devices (wst unit unit) :=
  {| dv_kbdintr := ret tt; dv_uartintr := ret tt; dv_lapiceoi := ret tt |}.
Definition no_services : Services (wst unit unit) := {|
  sv_kalloc := ret 0; sv_kfree _ := ret tt; sv_setupkvm := ret 0; sv_inituvm _ := ret tt;
  sv_copyuvm _ _ := ret 0; sv_freevm _ := ret tt; sv_allocuvm _ _ _ := ret 0;
  sv_deallocuvm _ _ n := ret n; sv_switchuvm _ := ret tt; sv_switchkvm := ret tt; sv_filedup _ := ret tt;
  sv_fileclose _ := ret tt; sv_idup _ := ret tt; sv_iput _ := ret tt; sv_namei _ := ret None;
  sv_begin_op := ret tt; sv_end_op := ret tt |}.

Definition getpid_frame : trapframe := mktf 0 0 0 0 0 0 0 11 0 0 0 0 64 0 0 27 0 100 0.

Definition getpid_trap : M (pst (wst unit unit)) unit :=
  trap (TO := no_tx) (PO := no_pages) (SV := no_services) (DV := no_devices) 0 0
    (fun _ => None) (fun _ => None) (fun _ => []) (fun _ _ _ => ret (-1)) 0 (Some 0%nat) getpid_frame.

(** The process of [demo_pst], marked. *)
Definition demo_marked : pst (wst unit unit) := set_procs (alter (set_killed 1) 0%nat (procs demo_pst)) demo_pst.

Lemma killed_never_returns_witness :
  (exists s' p, getpid_trap demo_pst = Ret tt s' /\ procs s' !! 0%nat = Some p /\ killed p = 0) /\
  getpid_trap demo_marked = exit (SV := no_services) 0 demo_marked.
Proof.
  assert (H : forall s, _) by (exact (fun s => killed_never_returns (TO := no_tx) (PO := no_pages) (SV := no_services) (DV := no_devices) 0 0
    (fun _ => None) (fun _ => None) (fun _ => []) (fun _ _ _ => ret (-1)) 0 0 getpid_frame s ltac:(reflexivity))).
  split.
  - assert (E : exists s', getpid_trap demo_pst = Ret tt s') by (eexists; vm_compute; reflexivity).
    destruct E as [s' E]. destruct (proj1 (H demo_pst) s' (or_introl E)) as (p & Hp & Hk).
    exists s', p. split_and!; [exact E|exact Hp|exact Hk].
  - apply (proj1 (proj2 (H demo_marked)) (set_killed 1 (nth 0 (procs demo_pst) proc0))); [reflexivity|vm_compute; reflexivity|discriminate].
Defined.

End TrapDemo.
