(* ===== verification/Balance.v ===== *)
(** * What file system code leaves behind

    Open operations, inode references and inode locks are resources: every path
    through the code, errors included, has to give back what it takes.  [tally]
    counts them, and each routine of [fs.c] is shown to move the count by an amount
    that depends on its result alone, in whatever state it starts. *)
From S2P Require Import Prelude Sleeplock Bio BufCache Log Tx Fs.

(** ** Partial correctness *)

(** Every result satisfies [Q]. *)
Definition pwp {S A} (m : M S A) (s : S) (Q : A -> S -> Prop) : Prop :=
  match m s with Ret a s' => Q a s' | _ => True end.

Section Pwp.
Context {S : Type}.

Lemma pwp_ret {A} (a : A) (s : S) (Q : A -> S -> Prop) : Q a s -> pwp (ret a) s Q.
Proof. done. Qed.

Lemma pwp_mono {A} (m : M S A) s (Q R : A -> S -> Prop) :
  pwp m s Q -> (forall a s', Q a s' -> R a s') -> pwp m s R.
Proof. unfold pwp. destruct (m s); auto. Qed.

Lemma pwp_bind {A B} (m : M S A) (k : A -> M S B) s Q :
  pwp m s (fun a s' => pwp (k a) s' Q) -> pwp (bind m k) s Q.
Proof. unfold pwp, bind. by destruct (m s). Qed.

Lemma pwp_gets {A} (f : S -> A) s (Q : A -> S -> Prop) : Q (f s) s -> pwp (gets f) s Q.
Proof. done. Qed.

Lemma pwp_zoom {T A} (view : S -> T) set (m : M T A) s (Q : A -> S -> Prop) :
  pwp m (view s) (fun a t => Q a (set t s)) -> pwp (zoom view set m) s Q.
Proof. unfold pwp, zoom. by destruct (m (view s)). Qed.

End Pwp.

(** ** Amounts *)

(** Operations, references and locks. *)
Record amount := mkam { n_ops : Z; n_refs : Z; n_locks : Z }.

Definition am0 : amount := mkam 0 0 0.
Definition am_sub (a b : amount) : amount :=
  mkam (n_ops a - n_ops b) (n_refs a - n_refs b) (n_locks a - n_locks b).

(** References are machine integers: their sum counts up to wrap-around. *)
Definition am_add (a b : amount) : amount :=
  mkam (n_ops a + n_ops b) (u32 (n_refs a + n_refs b)) (n_locks a + n_locks b).

Lemma am_add_sub t a b : am_add (am_add t a) (am_sub b a) = am_add t b.
Proof.
  unfold am_add, am_sub. destruct t, a, b. cbn. rewrite u32_add_l. f_equal; [lia| |lia]. f_equal. lia.
Qed.

Lemma am_add_0 t : u32 (n_refs t) = n_refs t -> am_add t am0 = t.
Proof. destruct t. unfold am_add. cbn [n_ops n_refs n_locks am0]. intros H. by rewrite !Z.add_0_r, H. Qed.

(** What a routine moves on a state with a tally, as long as the state is in
    order. *)
Class Tally (T : Type) := {
  tally : T -> amount;
  tok : T -> Prop;
  tally_u32 s : u32 (n_refs (tally s)) = n_refs (tally s);
}.

Section Moves.
Context {T : Type} {TT : Tally T}.

Definition moves {A} (m : M T A) (f : A -> amount) : Prop :=
  forall s, tok s -> pwp m s (fun a s' => tok s' /\ tally s' = am_add (tally s) (f a)).

Lemma moves_ret {A} (a : A) f : f a = am0 -> moves (ret a) f.
Proof. intros H s Hs. cbn. rewrite H. split; [done|]. symmetry. apply am_add_0, tally_u32. Qed.

Lemma moves_bind {A B} (m : M T A) (k : A -> M T B) f h :
  moves m f -> (forall a, moves (k a) (fun b => am_sub (h b) (f a))) -> moves (bind m k) h.
Proof.
  intros Hm Hk s Hs. apply pwp_bind. eapply pwp_mono; [by apply Hm|]. intros a s1 [H1 E1].
  eapply pwp_mono; [by apply Hk|]. intros b s2 [H2 E2]. cbn in *. split; [done|]. by rewrite E2, E1, am_add_sub.
Qed.

Lemma moves_ext {A} (m : M T A) f g : moves m f -> (forall a, f a = g a) -> moves m g.
Proof. intros Hm H s Hs. eapply pwp_mono; [by apply Hm|]. intros a s' [? E]. cbn in *. by rewrite <- H. Qed.

Lemma moves_panic {A} msg f : moves (panic msg : M T A) f.
Proof. done. Qed.
Lemma moves_fault {A} msg f : moves (fault msg : M T A) f.
Proof. done. Qed.

Lemma moves_same {A} (m : M T A) :
  (forall s, tok s -> pwp m s (fun _ s' => tok s' /\ tally s' = tally s)) -> moves m (fun _ => am0).
Proof.
  intros H s Hs. eapply pwp_mono; [by apply H|]. intros a s' [? E]. cbn in *. split; [done|].
  by rewrite E, am_add_0 by apply tally_u32.
Qed.

End Moves.

Create HintDb moves.
#[export] Hint Resolve moves_panic moves_fault : moves.

(** One step through a routine: the calls with a known amount come from the hint
    database, results are split into their cases, and at each return the amounts
    have to add up. *)
Ltac mv_step :=
  cbv beta zeta;
  lazymatch goal with
  | |- moves (bind _ _) _ =>
      first [eapply moves_bind; [solve [eauto with moves]|intro] | apply (moves_bind _ _ (fun _ => am0)); [|intro]]
  | |- moves (ret _) _ => apply moves_ret; done
  | |- moves (panic _) _ => apply moves_panic
  | |- moves (fault _) _ => apply moves_fault
  | |- moves (when ?b _) _ => unfold when; destruct b
  | |- moves (if ?b then _ else _) _ => destruct b
  | |- moves (match ?x with _ => _ end) _ => destruct x
  | |- moves _ _ => first [solve [eauto with moves] | eapply moves_ext; [solve [eauto with moves]|intros; done]]
  end.
Ltac mv := repeat mv_step.

(** ** The layer below *)

(** How many operations are open, and that only [begin_op] and [end_op] change it. *)
Class TxDepth (S : Type) `{TxOps S} := {
  depth : S -> Z;
  dp_read d n s : pwp (tx_read d n) s (fun _ s' => depth s' = depth s);
  dp_data b s : pwp (tx_data b) s (fun _ s' => depth s' = depth s);
  dp_set b d s : pwp (tx_set b d) s (fun _ s' => depth s' = depth s);
  dp_log b s : pwp (tx_log b) s (fun _ s' => depth s' = depth s);
  dp_relse b s : pwp (tx_relse b) s (fun _ s' => depth s' = depth s);
  dp_begin s : pwp tx_begin s (fun _ s' => depth s' = depth s + 1);
  dp_end s : pwp tx_end s (fun _ s' => depth s' = depth s - 1);
}.

(** The log counts its operations. *)
Section LogDepth.
Context {C : Type} {BO : BufOps C}.

Definition keeps_count {A} (m : M (lst C) A) : Prop :=
  forall s, pwp m s (fun _ s' => outstanding (lg s') = outstanding (lg s)).

Lemma kc_bind {A B} (m : M (lst C) A) (k : A -> M (lst C) B) :
  keeps_count m -> (forall a, keeps_count (k a)) -> keeps_count (bind m k).
Proof.
  intros Hm Hk s. apply pwp_bind. eapply pwp_mono; [apply Hm|]. intros a s1 E1.
  eapply pwp_mono; [apply Hk|]. intros b s2 E2. cbn in *. congruence.
Qed.

Lemma kc_inc {A} (m : M C A) : keeps_count (inc m).
Proof. intros s. apply pwp_zoom. unfold pwp. by destruct (m (cache s)). Qed.

Lemma kc_lget {A} (f : logst -> A) : keeps_count (lget f).
Proof. done. Qed.

Lemma kc_lmod f : (forall l, outstanding (f l) = outstanding l) -> keeps_count (lmod f).
Proof. intros H s. apply H. Qed.

Lemma kc_for_each {X} (l : list X) body : (forall x, keeps_count (body x)) -> keeps_count (for_each l body).
Proof. intros H. induction l as [|x l IH]; [done|]. by apply kc_bind. Qed.

Lemma kc_deref {A} (o : option A) : keeps_count (deref o).
Proof. by destruct o. Qed.

Ltac kc := repeat first [apply kc_bind; [|intros ?]|apply kc_inc|apply kc_lget|apply kc_lmod; done|apply kc_deref
  |apply kc_for_each; intros ?|done|match goal with |- keeps_count (if ?b then _ else _) => destruct b end].

Lemma kc_write_head : keeps_count write_head.
Proof. unfold write_head. kc. Qed.

Lemma kc_commit : keeps_count commit.
Proof.
  unfold commit, write_log, install_trans, log_block, install_block.
  kc; apply kc_write_head || (try (unfold log_block, install_block; kc)).
Qed.

#[global] Instance log_depth : TxDepth (lst C).
Proof.
  refine {| depth s := outstanding (lg s) |}; intros; try apply kc_inc.
  - unfold tx_log, log_tx_ops, log_write. apply kc_bind; [kc|]. intros l. kc.
  - unfold tx_begin, log_tx_ops, begin_op, pwp, lget, lmod, gets, modify, bind. cbn.
    destruct (nz _); [done|]. destruct (_ <? _); done.
  - unfold tx_end, log_tx_ops, end_op. apply pwp_bind. cbn. apply pwp_bind. cbn.
    destruct (nz _); [done|]. destruct (_ =? 0); [|done]. apply pwp_bind. cbn. apply pwp_bind.
    eapply pwp_mono; [apply kc_commit|]. intros [] s' E. cbn in *. done.
Defined.

End LogDepth.
