(* ===== verification/FsBalance.v ===== *)
(** * The balance of [fs.c]

    What every routine of [fs.c] takes and gives back, on every path: most leave
    references and locks alone; [iget], [idup] and [ialloc] take a reference,
    [ilock] a lock; [namei] takes a reference exactly when it finds something. *)
From S2P Require Import Prelude Sleeplock Bio Log Tx Fs FsIcache Balance.

Definition skel (ic : list inode) : list (Z * sleeplock) := (fun x => (i_ref x, i_lock x)) <$> ic.

Fixpoint total (l : list Z) : Z := match l with [] => 0 | x :: l => x + total l end.

Lemma total_upd l i x y : l !! i = Some x -> total (<[i := y]> l) = total l - x + y.
Proof.
  revert i. induction l as [|z l IH]; intros [|i] H; [done|done| |].
  - cbn in *. injection H as ->. lia.
  - change (z + total (<[i := y]> l) = z + total l - x + y). rewrite (IH i H). lia.
Qed.

Definition is_locked (l : sleeplock) : Z := if nz (sl_locked l) then 1 else 0.

Section FsBalance.
Context {S : Type} {TO : TxOps S} {DP : TxDepth S}.
Context (me : Z).
Context (dev_read : Z -> option (Z -> M (fsst S) (Z * list Z))).
Context (dev_write : Z -> option (list Z -> M (fsst S) Z)).

#[global] Instance fs_tally : Tally (fsst S).
Proof.
  refine {| tally s := mkam (depth (tx s)) (u32 (total (fst <$> skel (icache s))))
                         (total (is_locked <$> (snd <$> skel (icache s))));
            tok _ := True |}.
  intros s. cbn [n_refs]. apply u32_u32.
Defined.

(** References, locks and the open operations are all unchanged. *)
Definition quiet {A} (m : M (fsst S) A) : Prop :=
  forall s, pwp m s (fun _ s' => depth (tx s') = depth (tx s) /\ skel (icache s') = skel (icache s)).

Lemma quiet_moves {A} (m : M (fsst S) A) : quiet m -> moves m (fun _ => am0).
Proof.
  intros H. apply moves_same. intros s _. eapply pwp_mono; [apply H|]. intros a s' [E1 E2]. cbn in *. by rewrite E1, E2.
Qed.

Lemma fs_moves {A} (m : M (fsst S) A) f :
  (forall s, pwp m s (fun a s' => tally s' = am_add (tally s) (f a))) <-> moves m f.
Proof.
  split; intros H s; [intros _|]; (eapply pwp_mono; [by apply H|]); [done|]. by intros a s' [_ ?].
Qed.

Lemma quiet_ret {A} (a : A) : quiet (ret a).
Proof. done. Qed.

Lemma quiet_bind {A B} (m : M (fsst S) A) (k : A -> M (fsst S) B) :
  quiet m -> (forall a, quiet (k a)) -> quiet (bind m k).
Proof.
  intros Hm Hk s. apply pwp_bind. eapply pwp_mono; [apply Hm|]. intros a s1 [E1 E2].
  eapply pwp_mono; [apply Hk|]. intros b s2 [E3 E4]. cbn in *. split; congruence.
Qed.

Lemma quiet_lift {A} (m : M S A) : (forall s, pwp m s (fun _ s' => depth s' = depth s)) -> quiet (lift m).
Proof. intros H s. apply pwp_zoom. eapply pwp_mono; [apply H|]. done. Qed.

Lemma quiet_geti ip : quiet (geti ip).
Proof. intros s. unfold geti, pwp, deref. destruct (icache s !! ip); cbn; done. Qed.

Lemma quiet_seti ip f : (forall x, i_ref (f x) = i_ref x /\ i_lock (f x) = i_lock x) -> quiet (seti ip f).
Proof.
  intros Hf s. unfold seti. apply pwp_bind. unfold geti, pwp, deref. destruct (icache s !! ip) as [x|] eqn:E; cbn; [|done].
  split; [done|]. unfold skel. apply list_eq. intros i. rewrite !list_lookup_fmap.
  destruct (decide (i = ip)) as [->|Hne].
  - rewrite list_lookup_alter_eq, E. cbn. destruct (Hf x) as [-> ->]. done.
  - by rewrite list_lookup_alter_ne.
Qed.

Lemma quiet_gets {A} (f : fsst S -> A) : quiet (gets f).
Proof. done. Qed.
Lemma quiet_set_sb sb : quiet (set_sb sb).
Proof. done. Qed.
Lemma quiet_deref {A} (o : option A) : quiet (deref o).
Proof. by destruct o. Qed.
Lemma quiet_panic {A} msg : quiet (panic msg : M (fsst S) A).
Proof. done. Qed.
Lemma quiet_fault {A} msg : quiet (fault msg : M (fsst S) A).
Proof. done. Qed.
Lemma quiet_for_each {X} (l : list X) body : (forall x, quiet (body x)) -> quiet (for_each l body).
Proof. intros H. induction l as [|x l IH]; [done|]. by apply quiet_bind. Qed.

Lemma quiet_read d n : quiet (lift (tx_read d n)).
Proof. apply quiet_lift, dp_read. Qed.
Lemma quiet_data b : quiet (lift (tx_data b)).
Proof. apply quiet_lift, dp_data. Qed.
Lemma quiet_set b d : quiet (lift (tx_set b d)).
Proof. apply quiet_lift, dp_set. Qed.
Lemma quiet_log b : quiet (lift (tx_log b)).
Proof. apply quiet_lift, dp_log. Qed.
Lemma quiet_relse b : quiet (lift (tx_relse b)).
Proof. apply quiet_lift, dp_relse. Qed.

End FsBalance.

Create HintDb quiet.
#[export] Hint Resolve quiet_ret quiet_geti quiet_gets quiet_set_sb quiet_deref quiet_panic quiet_fault
  quiet_read quiet_data quiet_set quiet_log quiet_relse : quiet.

(** A routine made of quiet steps. *)
Ltac quietly := repeat (cbv beta zeta;
  match goal with
  | |- quiet (bind _ _) => apply quiet_bind; [|intros ?]
  | |- quiet (when ?b _) => unfold when
  | |- quiet (if ?b then _ else _) => destruct b
  | |- quiet (match ?x with _ => _ end) => destruct x
  | |- quiet (for_each _ _) => apply quiet_for_each; intros ?
  | |- quiet (seti _ _) => apply quiet_seti; intros ?; done
  | |- _ => solve [auto with quiet]
  end).

Section Quiet.
Context {S : Type} {TO : TxOps S} {DP : TxDepth S}.
Context (me : Z).
Context (dev_read : Z -> option (Z -> M (fsst S) (Z * list Z))).
Context (dev_write : Z -> option (list Z -> M (fsst S) Z)).

(** Device drivers have nothing to do with inodes. *)
Context (dev_read_quiet : forall k f n, dev_read k = Some f -> quiet (f n)).
Context (dev_write_quiet : forall k f l, dev_write k = Some f -> quiet (f l)).

Lemma quiet_bzero d b : quiet (bzero (S := S) d b).
Proof. unfold bzero. quietly. Qed.
#[local] Hint Resolve quiet_bzero : quiet.

Lemma quiet_balloc_loop d fuel : forall b, quiet (balloc_loop (S := S) d fuel b).
Proof. induction fuel; intros b; cbn [balloc_loop]; quietly. Qed.
#[local] Hint Resolve quiet_balloc_loop : quiet.

Lemma quiet_balloc d : quiet (balloc (S := S) d).
Proof. unfold balloc. quietly. Qed.
#[local] Hint Resolve quiet_balloc : quiet.

Lemma quiet_bfree d b : quiet (bfree (S := S) d b).
Proof. unfold bfree, readsb. quietly. Qed.
#[local] Hint Resolve quiet_bfree : quiet.

Lemma quiet_iupdate ip : quiet (iupdate (S := S) ip).
Proof. unfold iupdate. quietly. Qed.
#[local] Hint Resolve quiet_iupdate : quiet.

Lemma quiet_bmap ip bn : quiet (bmap (S := S) ip bn).
Proof. unfold bmap. quietly. Qed.
#[local] Hint Resolve quiet_bmap : quiet.

Lemma quiet_itrunc ip : quiet (itrunc (S := S) ip).
Proof. unfold itrunc, trunc_direct, trunc_entry. quietly. Qed.
#[local] Hint Resolve quiet_itrunc : quiet.

Lemma quiet_readi_loop fuel : forall ip tot n off, quiet (readi_loop (S := S) fuel ip tot n off).
Proof. induction fuel; intros; cbn [readi_loop]; quietly. Qed.
#[local] Hint Resolve quiet_readi_loop : quiet.

Lemma quiet_readi ip off n : quiet (readi dev_read ip off n).
Proof.
  unfold readi. apply quiet_bind; [quietly|]. intros x. destruct (_ =? T_DEV); [|quietly].
  destruct (_ || _); [quietly|]. destruct (dev_read (i_major x)) eqn:E; [by eapply dev_read_quiet|quietly].
Qed.
#[local] Hint Resolve quiet_readi : quiet.

Lemma quiet_writei_loop fuel : forall ip src tot n off, quiet (writei_loop (S := S) fuel ip src tot n off).
Proof. induction fuel; intros; cbn [writei_loop]; quietly. Qed.
#[local] Hint Resolve quiet_writei_loop : quiet.

Lemma quiet_writei ip src off : quiet (writei dev_write ip src off).
Proof.
  unfold writei. cbv zeta. apply quiet_bind; [quietly|]. intros x. destruct (_ =? T_DEV); [|quietly].
  destruct (_ || _); [quietly|]. destruct (dev_write (i_major x)) eqn:E; [by eapply dev_write_quiet|quietly].
Qed.
#[local] Hint Resolve quiet_writei : quiet.

Lemma quiet_empty_loop fuel : forall dp off, quiet (empty_loop dev_read fuel dp off).
Proof. induction fuel; intros; cbn [empty_loop]; quietly. Qed.

Lemma quiet_stati ip : quiet (stati (S := S) ip).
Proof. unfold stati. quietly. Qed.

(** ** Routines that take and give back *)

Lemma tally_upd (s : fsst S) ip x y k : icache s !! ip = Some x -> u32 (i_ref y - i_ref x) = u32 k ->
  tally (mkfs (tx s) (fsb s) (<[ip := y]> (icache s))) =
  am_add (tally s) (mkam 0 k (is_locked (i_lock y) - is_locked (i_lock x))).
Proof.
  destruct s as [t sb ic]. cbn [tx fsb icache]. intros Hx Hk. unfold am_add. cbn [tally fs_tally n_ops n_refs n_locks tx icache].
  unfold skel. rewrite list_fmap_insert.
  assert (Hs : ((fun x => (i_ref x, i_lock x)) <$> ic) !! ip = Some (i_ref x, i_lock x)) by (by rewrite list_lookup_fmap, Hx).
  rewrite !list_fmap_insert. cbn [fst snd].
  rewrite !(total_upd _ ip (i_ref x)), (total_upd _ ip (is_locked (i_lock x))) by (by rewrite !list_lookup_fmap, Hx).
  f_equal; [lia| |lia]. set (T := total _). rewrite u32_add_l.
  replace (T - i_ref x + i_ref y) with ((i_ref y - i_ref x) + T) by lia.
  rewrite <- (u32_add_l (i_ref y - i_ref x)), Hk, u32_add_l. f_equal. lia.
Qed.

Lemma seti_run ip f s (Q : unit -> fsst S -> Prop) :
  (forall x, icache s !! ip = Some x -> Q tt (mkfs (tx s) (fsb s) (<[ip := f x]> (icache s)))) ->
  pwp (seti ip f) s Q.
Proof.
  intros H. unfold seti, pwp, geti, bind, deref, modify. cbn. destruct (icache s !! ip) as [x|] eqn:E; cbn; [|done].
  rewrite (list_insert_alter _ _ _ x) by done. by apply H.
Qed.

Lemma mv_seti ip f k l : (forall x, u32 (i_ref (f x) - i_ref x) = u32 k) ->
  (forall x, is_locked (i_lock (f x)) - is_locked (i_lock x) = l) -> moves (seti ip f) (fun _ => mkam 0 k l).
Proof.
  intros Hk Hl. apply fs_moves. intros s. apply seti_run. intros x Hx. rewrite <- (Hl x). by apply tally_upd.
Qed.

Lemma s32_step x k : u32 (s32 (x + k) - x) = u32 k.
Proof.
  replace (s32 (x + k) - x) with (s32 (x + k) + - x) by lia.
  rewrite <- u32_add_l, u32_s32, u32_add_l. f_equal. lia.
Qed.

Lemma mv_iget dev inum : moves (iget (S := S) dev inum) (fun _ => mkam 0 1 0).
Proof.
  apply fs_moves. intros s. unfold iget. apply pwp_bind. cbn -[tally am_add]. pose proof (iget_scan_spec dev inum (icache s) 0 None) as Hs.
  destruct (iget_scan dev inum (icache s) 0 None) as [[ip|] [e|]]; try done.
  - apply pwp_bind, seti_run. intros x Hx. apply pwp_ret. rewrite (tally_upd _ _ x _ 1); [|done|apply s32_step].
    cbn [i_lock set_ref]. by rewrite Z.sub_diag.
  - apply pwp_bind, seti_run. intros x Hx. apply pwp_ret. rewrite (tally_upd _ _ x _ 1); [|done|apply s32_step].
    cbn [i_lock set_ref]. by rewrite Z.sub_diag.
  - destruct Hs as (_ & j & y & -> & Hy & Hr). apply pwp_bind, seti_run. intros x Hx. apply pwp_ret.
    cbn [Nat.add] in *. rewrite (tally_upd _ _ x _ 1); [|done|].
    + cbn [i_lock]. by rewrite Z.sub_diag.
    + cbn [i_ref]. assert (x = y) as -> by congruence. by rewrite Hr.
Qed.

Lemma mv_idup ip : moves (idup (S := S) ip) (fun _ => mkam 0 1 0).
Proof.
  unfold idup. eapply moves_bind; [apply (mv_seti _ _ 1 0); intros x; [apply s32_step|cbn; lia]|].
  intros ?. by apply moves_ret.
Qed.

(** The lock is taken if it is free, and otherwise the process sleeps. *)
Lemma lock_inode_pwp ip (s : fsst S) : pwp (lock_inode me ip) s (fun _ s' => exists x, icache s !! ip = Some x /\
  nz (sl_locked (i_lock x)) = false /\ s' = mkfs (tx s) (fsb s) (<[ip := set_ilock (mksleeplock 1 me) x]> (icache s))).
Proof.
  unfold lock_inode, seti, geti, acquiresleep, pwp, bind, get, put, deref, modify. cbn.
  destruct (icache s !! ip) as [x|] eqn:E; cbn; [|done].
  destruct (nz (sl_locked (i_lock x))) eqn:El; cbn; [done|]. rewrite E. cbn. exists x. split_and!; auto.
  by rewrite (list_insert_alter _ _ _ x).
Qed.

Lemma mv_lock ip : moves (lock_inode (S := S) me ip) (fun _ => mkam 0 0 1).
Proof.
  apply fs_moves. intros s. eapply pwp_mono; [apply lock_inode_pwp|]. intros _ s' (x & Hx & Hl & ->).
  rewrite (tally_upd _ _ x _ 0); [|done|cbn [i_ref set_ilock]; by rewrite Z.sub_diag].
  cbn [i_lock set_ilock]. unfold is_locked at 2. by rewrite Hl.
Qed.

Lemma unlock_inode_pwp ip (s : fsst S) : pwp (unlock_inode ip) s (fun _ s' => exists x, icache s !! ip = Some x /\
  s' = mkfs (tx s) (fsb s) (<[ip := set_ilock initsleeplock x]> (icache s))).
Proof.
  unfold unlock_inode, seti, geti, releasesleep, pwp, bind, ret, put, deref, modify. cbn.
  destruct (icache s !! ip) as [x|] eqn:E; cbn; [|done]. rewrite E. cbn. exists x. split; [done|].
  by rewrite (list_insert_alter _ _ _ x).
Qed.

(** [unlock_inode] of a locked inode. *)
Lemma unlock_tally ip x (s : fsst S) : icache s !! ip = Some x -> nz (sl_locked (i_lock x)) = true ->
  pwp (unlock_inode ip) s (fun _ s' => tally s' = am_add (tally s) (mkam 0 0 (-1))).
Proof.
  intros Hx Hl. eapply pwp_mono; [apply unlock_inode_pwp|]. intros _ s' (y & Hy & ->).
  assert (y = x) as -> by congruence.
  rewrite (tally_upd _ _ x _ 0); [|done|cbn [i_ref set_ilock]; by rewrite Z.sub_diag].
  cbn [i_lock set_ilock]. unfold is_locked. by rewrite Hl.
Qed.

Lemma mv_ilock ip : moves (ilock (S := S) me ip) (fun _ => mkam 0 0 1).
Proof.
  unfold ilock. eapply moves_bind; [apply quiet_moves; auto with quiet|]. intros x.
  destruct (_ <? 1); [apply moves_panic|]. eapply moves_bind; [apply mv_lock|]. intros ?.
  eapply moves_ext; [apply quiet_moves; quietly|]. done.
Qed.

Lemma mv_iunlock ip : moves (iunlock (S := S) me ip) (fun _ => mkam 0 0 (-1)).
Proof.
  apply fs_moves. intros s. unfold iunlock, holding_inode, geti, bind at 1 2 3. unfold pwp, deref.
  destruct (icache s !! ip) as [x|] eqn:E; cbn -[tally am_add]; [|done]. rewrite E. cbn -[tally am_add].
  destruct (nz (sl_locked (i_lock x))) eqn:El; cbn -[tally am_add]; [|done].
  destruct (_ =? me); cbn -[tally am_add]; [|done]. destruct (_ <? 1); [done|]. by eapply unlock_tally.
Qed.

Lemma mv_iput ip : moves (iput (S := S) me ip) (fun _ => mkam 0 (-1) 0).
Proof.
  apply fs_moves. intros s. unfold iput. apply pwp_bind. eapply pwp_mono; [apply lock_inode_pwp|]. intros _ s1 (x & Hx & Hl & E1).
  assert (Hs1 : tally s1 = am_add (tally s) (mkam 0 0 1)).
  { rewrite E1, (tally_upd _ _ x _ 0); [|done|cbn [i_ref set_ilock]; by rewrite Z.sub_diag].
    cbn [i_lock set_ilock]. unfold is_locked at 2. by rewrite Hl. }
  assert (Hlk : (snd <$> skel (icache s1)) !! ip = Some (mksleeplock 1 me)).
  { rewrite E1. unfold skel. cbn [icache]. rewrite !list_lookup_fmap, list_lookup_insert_eq; [done|]. by eapply lookup_lt_Some. }
  apply pwp_bind. eapply pwp_mono; [apply quiet_geti|]. intros y s2 [D2 K2]. apply pwp_bind.
  assert (Hq : quiet (when (nz (i_valid y) && (i_nlink y =? 0) && (i_ref y =? 1))
    (itrunc ip ;; seti ip (set_type 0) ;; iupdate ip ;; seti ip (set_valid 0)))).
  { quietly. }
  eapply pwp_mono; [apply Hq|]. intros _ s3 [D3 K3]. apply pwp_bind.
  assert (Hz : exists z, icache s3 !! ip = Some z /\ i_lock z = mksleeplock 1 me).
  { rewrite <- K2, <- K3 in Hlk. unfold skel in Hlk. rewrite !list_lookup_fmap in Hlk.
    destruct (icache s3 !! ip) as [z|]; [|done]. exists z. split; [done|]. by injection Hlk. }
  destruct Hz as (z & Hz & Hlz). eapply pwp_mono; [apply (unlock_tally ip z); [done|by rewrite Hlz]|].
  intros ? s4 E4. eapply pwp_mono; [apply fs_moves, (mv_seti ip _ (-1) 0); intros w; [apply (s32_step _ (-1))|cbn; lia]|].
  intros ? s5 E5. cbn beta in E4, E5. rewrite E5, E4.
  replace (tally s3) with (tally s1) by (unfold tally, fs_tally; by rewrite K3, K2, D3, D2). rewrite Hs1.
  unfold am_add. cbn [n_ops n_refs n_locks]. rewrite !Z.add_0_r, !u32_add_l. f_equal. lia.
Qed.

Lemma mv_iunlockput ip : moves (iunlockput (S := S) me ip) (fun _ => mkam 0 (-1) (-1)).
Proof.
  unfold iunlockput. eapply moves_bind; [apply mv_iunlock|]. intros ?. eapply moves_ext; [apply mv_iput|]. done.
Qed.

#[local] Hint Resolve mv_iget mv_idup mv_ilock mv_iunlock mv_iput mv_iunlockput : moves.
#[local] Hint Extern 5 (moves _ _) => (apply quiet_moves; solve [quietly]) : moves.
#[local] Hint Resolve quiet_empty_loop quiet_stati : quiet.

(** A reference for an inode that is found. *)
Definition if_some {A} (o : option A) (a : amount) : amount := match o with Some _ => a | None => am0 end.

Lemma mv_for_find {X A} (l : list X) (body : X -> M (fsst S) (option A)) a :
  (forall x, moves (body x) (fun o => if_some o a)) -> moves (for_find l body) (fun o => if_some o a).
Proof.
  intros H. induction l as [|x l IH]; cbn [for_find]; [by apply moves_ret|].
  eapply moves_bind; [apply H|]. intros [r|]; cbn [if_some].
  - apply moves_ret. cbn. unfold am_sub, am0. f_equal; lia.
  - eapply moves_ext; [apply IH|]. intros o. unfold am_sub. cbn. rewrite !Z.sub_0_r. by destruct (if_some o a).
Qed.

Lemma mv_ialloc d type : moves (ialloc (S := S) d type) (fun _ => mkam 0 1 0).
Proof.
  unfold ialloc. eapply moves_bind; [eauto with moves|]. intros sb. eapply moves_bind.
  - apply (mv_for_find _ _ (mkam 0 1 0)). intros inum. unfold ialloc_try. mv.
  - intros [ip|]; cbn [if_some]; [by apply moves_ret|apply moves_panic].
Qed.

Lemma mv_dirlookup_loop fuel : forall dp name off,
  moves (dirlookup_loop dev_read fuel dp name off) (fun o => if_some o (mkam 0 1 0)).
Proof.
  induction fuel as [|k IH]; intros dp name off; cbn [dirlookup_loop]; mv.
  all: try (eapply moves_ext; [apply IH|]; intros [?|]; done).
Qed.

Lemma mv_dirlookup dp name : moves (dirlookup dev_read dp name) (fun o => if_some o (mkam 0 1 0)).
Proof. unfold dirlookup. mv. eapply moves_ext; [apply mv_dirlookup_loop|]. intros [?|]; done. Qed.
#[local] Hint Resolve mv_dirlookup mv_ialloc : moves.

Lemma mv_dirlink dp name inum : moves (dirlink me dev_read dev_write dp name inum) (fun _ => am0).
Proof. unfold dirlink. mv. Qed.
#[local] Hint Resolve mv_dirlink : moves.

Lemma mv_namex_loop fuel : forall ip path parent name,
  moves (namex_loop me dev_read fuel ip path parent name)
    (fun r => match fst r with Some _ => am0 | None => mkam 0 (-1) 0 end).
Proof.
  induction fuel as [|k IH]; intros ip path parent name; cbn [namex_loop]; mv.
  all: try (eapply moves_ext; [apply IH|]; intros [[?|] ?]; done).
Qed.

Lemma mv_namex cwd path parent name :
  moves (namex me dev_read cwd path parent name) (fun r => if_some (fst r) (mkam 0 1 0)).
Proof.
  unfold namex. apply (moves_bind _ _ (fun _ => mkam 0 1 0)); [destruct (bool_decide _); eauto with moves|].
  intros ip. eapply moves_ext; [apply mv_namex_loop|]. intros [[?|] ?]; done.
Qed.

Lemma mv_namei cwd path : moves (namei me dev_read cwd path) (fun r => if_some r (mkam 0 1 0)).
Proof.
  unfold namei. eapply moves_bind; [apply mv_namex|]. intros [[?|] ?]; by apply moves_ret.
Qed.

Lemma mv_nameiparent cwd path name :
  moves (nameiparent me dev_read cwd path name) (fun r => if_some (fst r) (mkam 0 1 0)).
Proof. apply mv_namex. Qed.

End Quiet.
