(* ===== verification/SysBalance.v ===== *)
(** * The balance of [file.c] and [sysfile.c]

    An open file keeps a reference to its inode.  With those counted, every file
    system call gives back the operations, inode references and inode locks it
    takes, whichever way it returns. *)
From S2P Require Import Prelude Str Proc Sleeplock Bio BufCache BioSpec Log LogOps Tx Fs Pipe File Syscall Sysfile Balance FsBalance FsSpec FileSpec.

(** ** Files *)

(** The reference a file holds. *)
Definition holds (f : file) : Z := if bool_decide (f_type f = FD_INODE) then 1 else 0.

(** A free entry has no type, and reference counts are ints. *)
Definition fok (ft : list file) : Prop := forall i f, ft !! i = Some f ->
  -2147483648 <= f_ref f < 2147483648 /\ (f_ref f = 0 -> f_type f = FD_NONE).

Lemma fok_upd ft i f : fok ft -> -2147483648 <= f_ref f < 2147483648 -> (f_ref f = 0 -> f_type f = FD_NONE) ->
  fok (<[i := f]> ft).
Proof. intros H Hr Ht j g [(-> & <- & _)|[_ Hg]]%list_lookup_insert_Some; [done|eauto]. Qed.

Lemma s32_int x : -2147483648 <= s32 x < 2147483648.
Proof. unfold s32. pose proof (Z.mod_pos_bound (x + 2147483648) 4294967296 ltac:(lia)). lia. Qed.

Section FileBalance.
Context {S K : Type} {TO : TxOps S} {DP : TxDepth S} {PO : PageOps K}.
Context (me : Z) (killed : bool).
Context (dev_read : Z -> option (Z -> M (fsst S) (Z * list Z))).
Context (dev_write : Z -> option (list Z -> M (fsst S) Z)).
Context (junk : Z -> list Z).
Context (dev_read_quiet : forall k f n, dev_read k = Some f -> quiet (f n)).
Context (dev_write_quiet : forall k f l, dev_write k = Some f -> quiet (f l)).

#[global] Instance k_tally : Tally (kst S K).
Proof.
  refine {| tally s := mkam (n_ops (tally (fsys s))) (u32 (n_refs (tally (fsys s)) - total (holds <$> ftable s)))
                         (n_locks (tally (fsys s)));
            tok s := fok (ftable s) |}.
  intros s. cbn [n_refs]. apply u32_u32.
Defined.

Lemma mv_infs {A} (m : M (fsst S) A) f : moves m f -> moves (infs (K := K) m) f.
Proof.
  intros H s Hs. apply pwp_zoom. eapply pwp_mono; [by apply fs_moves|]. intros a t E.
  split; [done|]. cbn beta in E. unfold tally at 1, k_tally. cbn [fsys ftable]. rewrite E.
  unfold am_add. cbn [n_ops n_refs n_locks tally k_tally]. f_equal.
  rewrite u32_add_l. unfold Z.sub at 1. rewrite u32_add_l. f_equal. lia.
Qed.

Lemma mv_inpages {A} (m : M K A) : moves (inpages (S := S) m) (fun _ => am0).
Proof. apply moves_same. intros s Hs. apply pwp_zoom. unfold pwp. by destruct (m (pages s)). Qed.

Lemma mv_getf f : moves (getf (S := S) (K := K) f) (fun _ => am0).
Proof. apply moves_same. intros s Hs. unfold getf, pwp, deref. destruct (ftable s !! f); cbn; done. Qed.

Lemma mv_getpipe p : moves (getpipe (S := S) (K := K) p) (fun _ => am0).
Proof. apply moves_same. intros s Hs. unfold getpipe, pwp, deref. destruct (pipes s !! p); cbn; done. Qed.

Lemma mv_setpipe p v w : moves (setpipe (S := S) (K := K) p v w) (fun _ => am0).
Proof. by apply moves_same. Qed.
Lemma mv_delpipe p w : moves (delpipe (S := S) (K := K) p w) (fun _ => am0).
Proof. by apply moves_same. Qed.

Lemma setf_run f g (s : kst S K) (Q : unit -> kst S K -> Prop) :
  (forall x, ftable s !! f = Some x -> Q tt (mkkst (<[f := g x]> (ftable s)) (pipes s) (woken s) (pages s) (fsys s))) ->
  pwp (setf f g) s Q.
Proof.
  intros H. unfold setf, pwp, getf, bind, deref, modify. cbn. destruct (ftable s !! f) as [x|] eqn:E; cbn; [|done].
  rewrite (list_insert_alter _ _ _ x) by done. by apply H.
Qed.

Lemma ktally_upd (s : kst S K) f x y : ftable s !! f = Some x ->
  tally (mkkst (<[f := y]> (ftable s)) (pipes s) (woken s) (pages s) (fsys s)) =
  am_add (tally s) (mkam 0 (holds x - holds y) 0).
Proof.
  intros Hx. unfold am_add. cbn [n_ops n_refs n_locks tally k_tally ftable fsys].
  rewrite list_fmap_insert, (total_upd _ f (holds x)) by (by rewrite list_lookup_fmap, Hx).
  rewrite !Z.add_0_r, u32_add_l. f_equal. f_equal. lia.
Qed.

(** A change that does not touch what the entry holds. *)
Lemma mv_setf f g : (forall x, f_type (g x) = f_type x) -> (forall x, f_ref (g x) = f_ref x) ->
  moves (setf (S := S) (K := K) f g) (fun _ => am0).
Proof.
  intros Ht Hr. apply moves_same. intros s Hs. apply setf_run. intros x Hx.
  split; [apply fok_upd; [done|..]; rewrite Hr, ?Ht; by eapply Hs|]. rewrite (ktally_upd s f x) by done.
  unfold holds. rewrite Ht, Z.sub_diag. apply am_add_0, tally_u32.
Qed.

Lemma mv_fbegin : moves (fbegin (S := S) (K := K)) (fun _ => mkam 1 0 0).
Proof.
  apply mv_infs, fs_moves. intros s. apply pwp_zoom. eapply pwp_mono; [apply dp_begin|]. intros a t E.
  unfold am_add. cbn -[u32 Z.add]. rewrite E, !Z.add_0_r, u32_u32. done.
Qed.

Lemma mv_fend : moves (fend (S := S) (K := K)) (fun _ => mkam (-1) 0 0).
Proof.
  unfold fend. apply (moves_bind _ _ (fun _ => mkam (-1) 0 0)); [|intros ?; by apply moves_ret].
  apply mv_infs, fs_moves. intros s. apply pwp_zoom. eapply pwp_mono; [apply dp_end|]. intros a t E.
  unfold am_add. cbn -[u32 Z.add]. rewrite E, !Z.add_0_r, u32_u32. done.
Qed.

Lemma mv_wait {A} c f : moves (fun s : kst S K => (Wait c s : outcome (kst S K) A)) f.
Proof. done. Qed.

(** [filealloc] takes an entry that holds nothing. *)
Lemma filealloc_pwp (s : kst S K) : tok s -> pwp filealloc s (fun o s' => tok s' /\ tally s' = tally s /\
  match o with
  | Some f => exists x, ftable s !! f = Some x /\ f_ref x = 0 /\ f_type x = FD_NONE /\
      ftable s' = <[f := set_fref 1 x]> (ftable s)
  | None => s' = s
  end).
Proof.
  intros Hs. unfold filealloc. apply pwp_bind, pwp_gets.
  assert (Hf : forall l i f, free_file l i = Some f -> exists j x, f = (i + j)%nat /\ l !! j = Some x /\ f_ref x = 0).
  { induction l as [|y l IH]; intros i f H; [done|]. cbn in H. destruct (Z.eqb_spec (f_ref y) 0).
    - injection H as <-. exists 0%nat, y. split; [lia|done].
    - destruct (IH _ _ H) as (j & x & -> & ? & ?). exists (Datatypes.S j), x. split; [lia|done]. }
  destruct (free_file (ftable s) 0) as [f|] eqn:E; [|done].
  destruct (Hf _ _ _ E) as (j & x & -> & Hx & Hr). cbn [Nat.add] in *. destruct (Hs _ _ Hx) as [_ Ht]. specialize (Ht Hr).
  apply pwp_bind, setf_run. intros y Hy. assert (y = x) as -> by congruence. apply pwp_ret. split_and!.
  - apply fok_upd; [done|cbn; lia|done].
  - rewrite (ktally_upd s j x) by done. unfold holds. cbn [f_type set_fref]. rewrite Z.sub_diag. apply am_add_0, tally_u32.
  - by exists x.
Qed.

Lemma mv_filealloc : moves (filealloc (S := S) (K := K)) (fun _ => am0).
Proof. apply moves_same. intros s Hs. eapply pwp_mono; [by apply filealloc_pwp|]. intros o s' (? & ? & _). done. Qed.

Lemma mv_filedup f : moves (filedup (S := S) (K := K) f) (fun _ => am0).
Proof.
  apply moves_same. intros s Hs. unfold filedup. apply pwp_bind. unfold getf, pwp at 1, deref.
  destruct (ftable s !! f) as [x|] eqn:E; cbn -[tally tok setf]; [|done].
  destruct (Z.ltb_spec (f_ref x) 1); [done|]. apply pwp_bind, setf_run. intros y Hy. assert (y = x) as -> by congruence.
  destruct (Hs _ _ E) as [Hr _]. apply pwp_ret. split.
  - apply fok_upd; [done|apply s32_int|]. cbn [f_ref set_fref]. unfold s32. intros H0.
    exfalso. revert H0. Z.to_euclidean_division_equations. lia.
  - rewrite (ktally_upd s f x) by done. unfold holds. cbn [f_type set_fref]. rewrite Z.sub_diag. apply am_add_0, tally_u32.
Qed.

#[local] Hint Resolve mv_getf mv_getpipe mv_setpipe mv_delpipe mv_inpages mv_fbegin mv_fend mv_filealloc mv_filedup mv_wait : moves.
#[local] Hint Resolve mv_infs mv_ilock mv_iunlock mv_iput mv_iunlockput : moves.

Lemma mv_close_pipe p w : moves (close_pipe (S := S) (K := K) p w) (fun _ => am0).
Proof. unfold close_pipe. mv. Qed.
#[local] Hint Resolve mv_close_pipe : moves.

(** The last close gives back what the file holds. *)
Lemma mv_fileclose f : moves (fileclose (S := S) (K := K) me f) (fun _ => am0).
Proof.
  intros s Hs. unfold fileclose. apply pwp_bind. unfold getf at 1, pwp at 1, deref.
  destruct (ftable s !! f) as [x|] eqn:E; cbn -[tally tok setf getf am_add]; [|done].
  destruct (Z.ltb_spec (f_ref x) 1); [done|]. destruct (Hs _ _ E) as [Hr _].
  apply pwp_bind, setf_run. intros y Hy. assert (y = x) as -> by congruence. cbn beta. clear Hy.
  set (x1 := set_fref (s32 (f_ref x - 1)) x). apply pwp_bind. unfold getf at 1, pwp at 1, deref. cbn [ftable].
  rewrite list_lookup_insert_eq by (by eapply lookup_lt_Some). cbn -[tally tok setf getf am_add x1].
  assert (Hx1 : s32 (f_ref x - 1) = f_ref x - 1) by (apply s32_small; lia).
  destruct (Z.ltb_spec 0 (f_ref x1)).
  - apply pwp_ret. split; [apply fok_upd; [done|cbn; lia|cbn in *; lia]|].
    rewrite (ktally_upd s f x) by done. unfold holds. cbn [f_type x1 set_fref]. by rewrite Z.sub_diag.
  - apply pwp_bind, setf_run. cbn [ftable pipes woken pages fsys]. intros z Hz.
    rewrite list_lookup_insert_eq in Hz by (by eapply lookup_lt_Some). injection Hz as <-. cbn beta. rewrite list_insert_insert_eq.
    set (s2 := mkkst _ _ _ _ _). assert (Hs2 : tok s2) by (apply fok_upd; [done|cbn; lia|done]).
    assert (E2 : tally s2 = am_add (tally s) (mkam 0 (holds x) 0)).
    { unfold s2. rewrite (ktally_upd s f x) by done. unfold holds at 2. cbn [f_type set_ftype set_fref].
      rewrite bool_decide_false by done. by rewrite Z.sub_0_r. }
    assert (Hm : moves (match f_type x1 with
      | FD_PIPE => close_pipe (f_pipe x1) (f_writable x1)
      | FD_INODE => fbegin ;; infs (iput me (f_ip x1)) ;; fend
      | FD_NONE => ret tt end : M (kst S K) unit) (fun _ => am_sub am0 (mkam 0 (holds x) 0))).
    { unfold holds. cbn [f_type x1 set_fref]. destruct (f_type x); cbn [bool_decide decide decide_rel filetype_eq_dec]; mv. }
    eapply pwp_mono; [by apply Hm|]. intros [] s3 [H3 E3]. split; [done|]. by rewrite E3, E2, am_add_sub.
Qed.
#[local] Hint Resolve mv_fileclose : moves.

#[local] Hint Extern 5 (moves (infs _) _) =>
  (apply mv_infs, quiet_moves; first [by eapply quiet_readi|by eapply quiet_writei|by apply quiet_stati]) : moves.
#[local] Hint Extern 5 (moves (setf _ _) _) => (apply mv_setf; intros ?; done) : moves.

Lemma mv_filestat f : moves (filestat (S := S) (K := K) me f) (fun _ => am0).
Proof. unfold filestat. mv. Qed.

Lemma mv_fileread f n : moves (fileread (S := S) (K := K) me killed dev_read f n) (fun _ => am0).
Proof. unfold fileread, read_pipe. mv. Qed.

Lemma mv_filewrite_loop fuel : forall f src i n,
  moves (filewrite_loop (S := S) (K := K) me dev_write fuel f src i n) (fun _ => am0).
Proof.
  induction fuel as [|k IH]; intros f src i n; cbn [filewrite_loop]; mv.
Qed.
#[local] Hint Resolve mv_filewrite_loop : moves.

Lemma mv_filewrite f src : moves (filewrite (S := S) (K := K) me killed dev_write f src) (fun _ => am0).
Proof. unfold filewrite, write_pipe. mv. Qed.

(** An entry that holds nothing becomes an end of a pipe. *)
Lemma open_pipe_pwp f p r w (s : kst S K) x : tok s -> ftable s !! f = Some x -> f_type x = FD_NONE -> f_ref x <> 0 ->
  pwp (open_pipe f p r w) s (fun _ s' => tok s' /\ tally s' = tally s /\ forall g, g <> f -> ftable s' !! g = ftable s !! g).
Proof.
  intros Hs Hx Ht Hr. apply setf_run. intros y Hy. assert (y = x) as -> by congruence. split_and!.
  - apply fok_upd; [done|exact (proj1 (Hs _ _ Hx))|done].
  - rewrite (ktally_upd s f x) by done. unfold holds. rewrite Ht. cbn [f_type].
    rewrite !bool_decide_false, Z.sub_diag by done. apply am_add_0, tally_u32.
  - intros g Hg. cbn [ftable]. by rewrite list_lookup_insert_ne.
Qed.

Lemma mv_pipealloc : moves (pipealloc (S := S) (K := K) me junk) (fun _ => am0).
Proof.
  apply moves_same. intros s Hs. unfold pipealloc.
  assert (Hbad : forall f0 f1 (s1 : kst S K), tok s1 -> tally s1 = tally s ->
    pwp (pipe_bad me f0 f1) s1 (fun _ s' => tok s' /\ tally s' = tally s)).
  { intros f0 f1 s1 H1 E1. assert (Hm : moves (pipe_bad (S := S) (K := K) me f0 f1) (fun _ => am0)).
    { unfold pipe_bad, close_opt. mv. }
    eapply pwp_mono; [by apply Hm|]. intros o s2 [? E2]. split; [done|]. rewrite E2, E1. apply am_add_0, tally_u32. }
  apply pwp_bind. eapply pwp_mono; [by apply filealloc_pwp|]. intros [r|] s1 (H1 & E1 & F1); [|by apply Hbad].
  destruct F1 as (x & Hx & Hrx & Htx & F1). apply pwp_bind. eapply pwp_mono; [by apply filealloc_pwp|].
  intros [w|] s2 (H2 & E2 & F2); [|by apply Hbad; [|congruence]]. destruct F2 as (y & Hy & Hry & Hty & F2).
  assert (Hrw : r <> w).
  { intros ->. rewrite F1, list_lookup_insert_eq in Hy by (by eapply lookup_lt_Some). injection Hy as <-. done. }
  apply pwp_bind, pwp_zoom. unfold pwp at 1. destruct (pg_alloc (pages s2)) as [p k| |]; [|done|done].
  destruct (p =? 0); [apply Hbad; [done|]; change (tally s2 = tally s); congruence|].
  apply pwp_bind. unfold setpipe at 1, pwp at 1, modify. cbn [ftable pipes woken pages fsys].
  set (s3 := mkkst _ _ _ _ _). assert (H3 : tok s3) by done. assert (E3 : tally s3 = tally s2) by done.
  assert (Hr3 : ftable s3 !! r = Some (set_fref 1 x)).
  { cbn. rewrite F2, list_lookup_insert_ne, F1, list_lookup_insert_eq by (done || by eapply lookup_lt_Some). done. }
  assert (Hw3 : ftable s3 !! w = Some (set_fref 1 y)).
  { cbn. rewrite F2, list_lookup_insert_eq by (by eapply lookup_lt_Some). done. }
  apply pwp_bind. eapply pwp_mono; [by eapply (open_pipe_pwp r)|]. intros _ s4 (H4 & E4 & F4).
  apply pwp_bind. eapply pwp_mono; [eapply (open_pipe_pwp w); [done|by rewrite F4|done|done]|].
  intros _ s5 (H5 & E5 & _). apply pwp_ret. split; [done|]. congruence.
Qed.

End FileBalance.

(** ** System calls *)

Create HintDb pure.

Section CallBalance.
Context {S K : Type} {TO : TxOps S} {DP : TxDepth S} {PO : PageOps K}.
Context (cur : nat) (me : Z) (killed : bool).
Context (dev_read : Z -> option (Z -> M (fsst S) (Z * list Z))).
Context (dev_write : Z -> option (list Z -> M (fsst S) Z)).
Context (junk : Z -> list Z).
Context (dev_read_quiet : forall k f n, dev_read k = Some f -> quiet (f n)).
Context (dev_write_quiet : forall k f l, dev_write k = Some f -> quiet (f l)).

Abbreviation SM := (M (pst (wst S K))).

#[global] Instance p_tally : Tally (pst (wst S K)).
Proof.
  refine {| tally s := tally (kern (world s)); tok s := tok (kern (world s)) |}. intros s. apply tally_u32.
Defined.

Lemma mv_inkern {A} (m : M (kst S K) A) f : moves m f -> moves (inkern m : SM A) f.
Proof. intros H s Hs. apply pwp_zoom, pwp_zoom. eapply pwp_mono; [by apply H|]. done. Qed.

Lemma mv_infile {A} (m : M (fsst S) A) f : moves m f -> moves (infile m : SM A) f.
Proof. intros H. by apply mv_inkern, mv_infs. Qed.

(** Code that only looks at the process and its memory. *)
Definition pure_call {A} (m : SM A) : Prop := forall s, pwp m s (fun _ s' => kern (world s') = kern (world s)).

Lemma pure_moves {A} (m : SM A) : pure_call m -> moves m (fun _ => am0).
Proof.
  intros H. apply moves_same. intros s Hs. eapply pwp_mono; [apply H|]. intros a s' E.
  unfold tok, tally, p_tally. by rewrite E.
Qed.

Lemma pure_bind {A B} (m : SM A) (k : A -> SM B) : pure_call m -> (forall a, pure_call (k a)) -> pure_call (bind m k).
Proof.
  intros Hm Hk s. apply pwp_bind. eapply pwp_mono; [apply Hm|]. intros a s1 E1.
  eapply pwp_mono; [apply Hk|]. intros b s2 E2. cbn in *. congruence.
Qed.
Lemma pure_slot i : pure_call (slot i : SM _).
Proof. intros s. unfold slot, pwp, deref. by destruct (procs s !! i). Qed.
Lemma pure_on i f : pure_call (on i f : SM _).
Proof. apply pure_bind; [apply pure_slot|]. by intros ? s. Qed.

Ltac pure := repeat first [apply pure_bind; [|intros ?]|apply pure_slot|apply pure_on|done
  |match goal with |- pure_call (if ?b then _ else _) => destruct b | |- pure_call (match ?x with _ => _ end) => destruct x end].

Lemma pure_fetchint a : pure_call (fetchint cur a : SM _).
Proof. unfold fetchint, user. pure. Qed.
Lemma pure_argint n : pure_call (argint cur n : SM _).
Proof. unfold argint. pure. Qed.
Lemma pure_argptr n k : pure_call (argptr cur n k : SM _).
Proof. unfold argptr. apply pure_bind; [pure|]. intros p. apply pure_bind; [apply pure_argint|]. intros [?|]; pure. Qed.
Lemma pure_argstr n : pure_call (argstr cur n : SM _).
Proof. unfold argstr. apply pure_bind; [apply pure_argint|]. intros [?|]; [unfold fetchstr, user|]; pure. Qed.
Lemma pure_store a l : pure_call (store a l : SM _).
Proof. done. Qed.
Lemma pure_fdalloc f : pure_call (fdalloc cur f : SM _).
Proof. unfold fdalloc, set_fd. pure. Qed.
Lemma pure_argfd n : pure_call (argfd cur n : SM _).
Proof. unfold argfd. apply pure_bind; [apply pure_argint|]. intros [?|]; pure. Qed.
Lemma pure_cwd : pure_call (my_cwd cur : SM _).
Proof. unfold my_cwd. apply pure_bind; [apply pure_slot|]. intros p. by destruct (cwd p). Qed.
Lemma pure_user : pure_call (user : SM _).
Proof. done. Qed.
Lemma pure_set_fd fd f : pure_call (set_fd cur fd f : SM _).
Proof. apply pure_on. Qed.

#[local] Hint Resolve pure_slot pure_on pure_argint pure_argptr pure_argstr pure_store pure_fdalloc pure_argfd pure_cwd
  pure_user pure_set_fd : pure.
#[local] Hint Extern 4 (moves _ _) => (apply pure_moves; solve [auto with pure]) : moves.
#[local] Hint Resolve mv_inkern mv_infile mv_fbegin mv_fend mv_filealloc mv_filedup mv_fileclose mv_filestat mv_fileread
  mv_filewrite mv_pipealloc mv_ilock mv_iunlock mv_iput mv_iunlockput mv_namei mv_nameiparent mv_dirlookup mv_dirlink mv_ialloc : moves.

Lemma mv_begin : moves (begin_call : SM unit) (fun _ => mkam 1 0 0).
Proof. apply mv_inkern, mv_fbegin. Qed.
Lemma mv_end : moves (end_call : SM unit) (fun _ => mkam (-1) 0 0).
Proof. apply mv_inkern, mv_fend. Qed.
#[local] Hint Resolve mv_begin mv_end : moves.

Lemma mv_sys_dup : moves (sys_dup cur : SM Z) (fun _ => am0).
Proof. unfold sys_dup. mv. Qed.

Lemma mv_sys_read : moves (sys_read cur me killed dev_read : SM Z) (fun _ => am0).
Proof. unfold sys_read. mv. Qed.

Lemma mv_sys_write : moves (sys_write cur me killed dev_write : SM Z) (fun _ => am0).
Proof. unfold sys_write. mv. Qed.

Lemma mv_sys_close : moves (sys_close cur me : SM Z) (fun _ => am0).
Proof. unfold sys_close. mv. Qed.

Lemma pure_put_stat st a : pure_call (put_stat st a : SM unit).
Proof. done. Qed.
#[local] Hint Resolve pure_put_stat : pure.

Lemma mv_sys_fstat : moves (sys_fstat cur me : SM Z) (fun _ => am0).
Proof. unfold sys_fstat. mv. Qed.

Lemma mv_name_i path : moves (name_i cur me dev_read path : SM _) (fun r => if_some r (mkam 0 1 0)).
Proof.
  unfold name_i. eapply moves_bind; [eauto with moves|]. intros d.
  eapply moves_ext; [eapply mv_infile, mv_namei; eauto|]. intros [?|]; done.
Qed.

Lemma mv_name_parent path : moves (name_parent cur me dev_read path : SM _) (fun r => if_some (fst r) (mkam 0 1 0)).
Proof.
  unfold name_parent. eapply moves_bind; [eauto with moves|]. intros d.
  eapply moves_ext; [eapply mv_infile, mv_nameiparent; eauto|]. intros [[?|] ?]; done.
Qed.
#[local] Hint Resolve mv_name_i mv_name_parent : moves.

Lemma quiet_isdirempty_loop fuel : forall dp off, quiet (isdirempty_loop dev_read fuel dp off).
Proof. pose proof (quiet_readi dev_read dev_read_quiet). induction fuel; intros; cbn [isdirempty_loop]; quietly. Qed.

Lemma quiet_isdirempty dp : quiet (isdirempty dev_read dp).
Proof. pose proof quiet_isdirempty_loop. unfold isdirempty. quietly. Qed.

#[local] Hint Extern 5 (moves (infile _) _) => (apply mv_infile, quiet_moves;
  first [by eapply quiet_writei|by apply quiet_iupdate|apply quiet_geti|by apply quiet_isdirempty
        |apply quiet_seti; intros ?; done]) : moves.
#[local] Hint Extern 5 (moves (i_get _) _) => (apply mv_infile, quiet_moves, quiet_geti) : moves.
#[local] Hint Extern 5 (moves (add_nlink _ _) _) => (apply mv_infile, quiet_moves, quiet_seti; intros ?; done) : moves.

Lemma mv_link_bad ip : moves (link_bad me ip : SM Z) (fun _ => mkam (-1) (-1) 0).
Proof. unfold link_bad. mv. Qed.
#[local] Hint Resolve mv_link_bad : moves.

Lemma mv_sys_link : moves (sys_link cur me dev_read dev_write : SM Z) (fun _ => am0).
Proof. unfold sys_link. mv. Qed.

Lemma mv_unlink_bad dp : moves (unlink_bad me dp : SM Z) (fun _ => mkam (-1) (-1) (-1)).
Proof. unfold unlink_bad. mv. Qed.
#[local] Hint Resolve mv_unlink_bad : moves.

Lemma mv_sys_unlink : moves (sys_unlink cur me dev_read dev_write : SM Z) (fun _ => am0).
Proof. unfold sys_unlink. mv. Qed.

Lemma mv_create path type j n :
  moves (create cur me dev_read dev_write path type j n : SM _) (fun r => if_some r (mkam 0 1 1)).
Proof. unfold create. mv. Qed.
#[local] Hint Resolve mv_create : moves.

Lemma mv_open_failed ip : moves (open_failed me ip : SM Z) (fun _ => mkam (-1) (-1) (-1)).
Proof. unfold open_failed. mv. Qed.
#[local] Hint Resolve mv_open_failed : moves.

(** An entry that holds nothing is opened for the inode. *)
Lemma set_open_pwp f x r w ip (s : pst (wst S K)) : tok s -> ftable (kern (world s)) !! f = Some x ->
  f_type x = FD_NONE -> f_ref x <> 0 ->
  pwp (inkern (setf f (fun y => mkfile FD_INODE (f_ref y) r w (f_pipe y) ip 0))) s
    (fun _ s' => tok s' /\ tally s' = am_add (tally s) (mkam 0 (-1) 0)).
Proof.
  intros Hs Hx Ht Hr. apply pwp_zoom, pwp_zoom, setf_run. intros y Hy. assert (y = x) as -> by congruence. split.
  - apply fok_upd; [done|exact (proj1 (Hs _ _ Hx))|done].
  - cbn [tally p_tally world set_world kern]. rewrite (ktally_upd _ f x) by done. unfold holds. rewrite Ht. done.
Qed.

(** The file table stays as it is. *)
Definition keeps_ft {A} (m : SM A) : Prop :=
  forall s, pwp m s (fun _ s' => ftable (kern (world s')) = ftable (kern (world s))).

Lemma keeps_infile {A} (m : M (fsst S) A) : keeps_ft (infile m).
Proof. intros s. apply pwp_zoom, pwp_zoom, pwp_zoom. unfold pwp. by destruct (m _). Qed.

Lemma keeps_end : keeps_ft end_call.
Proof. intros s. apply pwp_zoom, pwp_zoom, pwp_bind, pwp_zoom. unfold pwp. by destruct (lift _ _). Qed.

Lemma moves_keeps {A} (m : SM A) f s : moves m f -> keeps_ft m -> tok s ->
  pwp m s (fun a s' => tok s' /\ tally s' = am_add (tally s) (f a) /\ ftable (kern (world s')) = ftable (kern (world s))).
Proof.
  intros Hm Hk Hs. specialize (Hm s Hs). specialize (Hk s). unfold pwp in *. destruct (m s); [|done|done].
  destruct Hm. auto.
Qed.

Lemma mv_open_inode ip omode : moves (open_inode cur me ip omode : SM Z) (fun _ => mkam (-1) (-1) (-1)).
Proof.
  intros s Hs. unfold open_inode. apply pwp_bind, pwp_zoom, pwp_zoom.
  eapply pwp_mono; [by apply filealloc_pwp|]. intros o k (Hk & Ek & Fo).
  set (s1 := set_world _ _). assert (H1 : tok s1) by done. assert (E1 : tally s1 = tally s) by done. rewrite <- E1. clear E1 Ek.
  destruct o as [f|]; [|by apply mv_open_failed].
  destruct Fo as (x & Hx & Hrx & Htx & Fk).
  assert (Hf1 : ftable (kern (world s1)) !! f = Some (set_fref 1 x)).
  { cbn. rewrite Fk. apply list_lookup_insert_eq. by eapply lookup_lt_Some. }
  apply pwp_bind. eapply pwp_mono; [apply pure_fdalloc|]. intros o2 s2 E2.
  assert (H2 : tok s2) by (unfold tok, p_tally; by rewrite E2).
  assert (T2 : tally s2 = tally s1) by (unfold tally, p_tally; by rewrite E2). rewrite <- T2.
  assert (Hfail : moves (inkern (fileclose me f) ;; open_failed me ip : SM Z) (fun _ => mkam (-1) (-1) (-1))) by mv.
  destruct o2 as [fd|]; [|by apply Hfail].
  apply pwp_bind. eapply pwp_mono; [apply moves_keeps; [eauto with moves|apply keeps_infile|done]|]. intros [] s3 (H3 & T3 & F3).
  apply pwp_bind. eapply pwp_mono; [apply moves_keeps; [eauto with moves|apply keeps_end|done]|]. intros [] s4 (H4 & T4 & F4).
  apply pwp_bind. eapply pwp_mono; [eapply (set_open_pwp f); [done|rewrite F4, F3, E2; exact Hf1|done|done]|].
  intros [] s5 (H5 & T5). apply pwp_ret. split; [done|]. rewrite T5, T4, T3.
  unfold am_add. cbn [n_ops n_refs n_locks]. rewrite !Z.add_0_r, !u32_add_l. f_equal.
Qed.
#[local] Hint Resolve mv_open_inode : moves.

Lemma mv_sys_open : moves (sys_open cur me dev_read dev_write : SM Z) (fun _ => am0).
Proof. unfold sys_open. mv. Qed.

Lemma mv_made ip : moves (made me ip : SM Z) (fun _ => match ip with Some _ => mkam (-1) (-1) (-1) | None => mkam (-1) 0 0 end).
Proof. unfold made. mv. Qed.

Lemma mv_made_create path type j n : moves (let! ip := create cur me dev_read dev_write path type j n in made me ip : SM Z)
  (fun _ => mkam (-1) 0 0).
Proof.
  eapply moves_bind; [apply mv_create|]. intros [ip|]; (eapply moves_ext; [apply mv_made|]); done.
Qed.
#[local] Hint Resolve mv_made_create : moves.

Lemma mv_sys_mkdir : moves (sys_mkdir cur me dev_read dev_write : SM Z) (fun _ => am0).
Proof.
  unfold sys_mkdir. do 2 mv_step. destruct a0 as [[? path]|]; (eapply moves_ext; [first [apply mv_made_create|apply mv_made]|]); done.
Qed.

Lemma mv_sys_mknod : moves (sys_mknod cur me dev_read dev_write : SM Z) (fun _ => am0).
Proof.
  unfold sys_mknod. do 2 mv_step. destruct a0 as [[? path]|]; [|eapply moves_ext; [apply mv_made|done]].
  mv_step. destruct a0 as [major|]; [|eapply moves_ext; [apply mv_made|done]].
  mv_step. destruct a0 as [minor|]; (eapply moves_ext; [first [apply mv_made_create|apply mv_made]|]); done.
Qed.

Lemma mv_sys_chdir : moves (sys_chdir cur me dev_read : SM Z) (fun _ => am0).
Proof.
  unfold sys_chdir. do 2 mv_step. apply (moves_bind _ _ (fun r => if_some r (mkam 0 1 0))).
  - destruct a0 as [[? path]|]; [apply mv_name_i|by apply moves_ret].
  - intros [ip|]; mv.
Qed.

Lemma mv_sys_pipe : moves (sys_pipe cur me junk : SM Z) (fun _ => am0).
Proof. unfold sys_pipe. mv. Qed.

Definition file_calls : list (SM Z) :=
  [sys_dup cur; sys_read cur me killed dev_read; sys_write cur me killed dev_write; sys_close cur me;
   sys_fstat cur me; sys_link cur me dev_read dev_write; sys_unlink cur me dev_read dev_write;
   sys_open cur me dev_read dev_write; sys_mkdir cur me dev_read dev_write; sys_mknod cur me dev_read dev_write;
   sys_chdir cur me dev_read; sys_pipe cur me junk].

Lemma file_call_moves c : c ∈ file_calls -> moves c (fun _ => am0).
Proof.
  unfold file_calls. rewrite !elem_of_cons, elem_of_nil. intros Hc. repeat destruct Hc as [->|Hc]; [..|done].
  - apply mv_sys_dup.
  - apply mv_sys_read.
  - apply mv_sys_write.
  - apply mv_sys_close.
  - apply mv_sys_fstat.
  - apply mv_sys_link.
  - apply mv_sys_unlink.
  - apply mv_sys_open.
  - apply mv_sys_mkdir.
  - apply mv_sys_mknod.
  - apply mv_sys_chdir.
  - apply mv_sys_pipe.
Qed.

(** Open operations, locked inodes, and inode references not accounted for by an
    open file. *)
Definition open_ops (s : pst (wst S K)) : Z := depth (tx (fsys (kern (world s)))).
Definition locked_inodes (s : pst (wst S K)) : Z := total (is_locked <$> (i_lock <$> icache (fsys (kern (world s))))).
Definition loose_refs (s : pst (wst S K)) : Z :=
  total (i_ref <$> icache (fsys (kern (world s)))) - total (holds <$> ftable (kern (world s))).

(** C16: However a file system call returns, with success or on any of its error
    paths, it leaves as many open log operations and locked inodes as it
    found, and as many inode references beyond those of open files: nothing leaks
    and nothing is given back twice.  Free entries of the file table stay
    blank. *)
Theorem file_calls_balanced c s r s' : c ∈ file_calls -> fok (ftable (kern (world s))) -> c s = Ret r s' ->
  open_ops s' = open_ops s /\ locked_inodes s' = locked_inodes s /\ u32 (loose_refs s') = u32 (loose_refs s) /\
  fok (ftable (kern (world s'))).
Proof.
  intros Hc Hs E. pose proof (file_call_moves c Hc s Hs) as H. unfold pwp in H. rewrite E in H. destruct H as [Hok Ht].
  rewrite am_add_0 in Ht by apply tally_u32.
  assert (Hsk : forall ic, fst <$> skel ic = i_ref <$> ic) by (intros ic; unfold skel; by rewrite <- list_fmap_compose).
  assert (Hlk : forall ic, snd <$> skel ic = i_lock <$> ic) by (intros ic; unfold skel; by rewrite <- list_fmap_compose).
  unfold tally, p_tally, k_tally in Ht. cbn [n_ops n_refs n_locks tally fs_tally] in Ht.
  injection Ht as H1 H2 H3. rewrite !Hsk in H2. rewrite !Hlk in H3. unfold Z.sub in H2. rewrite !u32_add_l in H2.
  split_and!; [done|done| |done]. exact H2.
Qed.

End CallBalance.

(** ** mkdir("/b") on the demonstration disk *)

#[global] Instance unit_pages : PageOps unit := {| pg_alloc := ret 4096; pg_free _ := ret tt |}.

Definition call_um : mem := poke (poke (fun _ => 0) 104 [200; 0; 0; 0]) 200 [47; 98].

Definition call_cache : bst := match binit (bcache0 demo_fs) with Ret _ c => c | _ => bcache0 demo_fs end.

Definition call_state : pst (wst (lst bst) unit) :=
  mkpst [set_cwd (Some 0%nat) (set_sz 4096 (set_tf (mktf 0 0 0 0 0 0 0 0 0 0 0 0 0 0 0 0 0 100 0) proc0))] 1 None false 0
    (mkwst call_um 0 (mkkst (repeat file0 100) ∅ [] tt
      (mkfs (mklst (set_outstanding 0 demo_log) call_cache) demo_sb demo_ic))).

Definition call_mkdir : M (pst (wst (lst bst) unit)) Z :=
  sys_mkdir (TO := log_tx_ops (BO := bio_ops 7 1000)) 0 7 (fun _ => None) (fun _ => None).

Lemma file_calls_balanced_witness : exists s', call_mkdir call_state = Ret 0 s' /\
  open_ops (DP := log_depth (BO := bio_ops 7 1000)) s' = 0 /\ locked_inodes s' = 0.
Proof.
  assert (E : match call_mkdir call_state with Ret r _ => r =? 0 | _ => false end = true) by (vm_compute; reflexivity).
  destruct (call_mkdir call_state) as [r s'| |] eqn:Ec; [|discriminate E|discriminate E].
  apply Z.eqb_eq in E. subst r. exists s'. split; [reflexivity|].
  destruct (file_calls_balanced (DP := log_depth (BO := bio_ops 7 1000)) (PO := unit_pages) 0 7 false (fun _ => None) (fun _ => None) (fun _ => [])
    ltac:(discriminate) ltac:(discriminate) call_mkdir call_state 0 s') as (H1 & H2 & _).
  - unfold file_calls. do 8 right. left.
  - intros i f Hf. apply repeat_lookup_Some in Hf as [-> _]. cbn. split; [lia|reflexivity].
  - exact Ec.
  - split; [exact H1|exact H2].
Defined.
